(* ===== verification/_CoqProject ===== *)
-Q . S2P
Prelude.v
Types.v
Kernel.v
ReadyQueue.v
Scheduler.v
KernelApi.v
KernelTheorems.v
Sync.v
SyncTheorems.v
Timer.v
Watchdog.v
Power.v
PowerTheorems.v
Security.v
Bytes.v
Memory.v
Flash.v
Ramdisk.v
Ota.v
OtaTheorems.v
Bootloader.v
Filesystem.v
FsLayers.v
FsTheorems.v
FsNames.v
FsOpen.v
FsDefects.v
FsKernel.v
Coap.v
CoapTheorems.v
CoapServer.v
CoapClient.v
Net.v
Loopback.v
NetTheorems.v
NetStack.v
NetDelivery.v
NetBuffers.v
NetLoopback.v
NetKernel.v
NetTcp.v
CoapNet.v
NetSafety.v
NetDefects.v
Http.v
HttpTheorems.v
Mqtt.v
MqttTheorems.v
MqttReceive.v
MqttSession.v
MqttHost.v
MqttNet.v
MqttMachine.v
MqttDefects.v
