(* ===== verification/Prelude.v ===== *)
(** * A verification of TinyOS

    TinyOS is a small real-time operating system in C: a priority scheduler with its task API, the
    synchronisation primitives, software timers, a watchdog, a memory allocator, flash and RAM-disk
    drivers, a file system, over-the-air firmware update with a boot loader, and a network stack.
    This library translates these parts into Rocq definitions and proves what makes them correct.

    ** Conventions

    - A function that changes state is a program in the monad [M S A] (this file): a function from
      a state to [Ret result state'], [Undef] (C's undefined behaviour: a null or wild pointer, an
      index out of range) or [NoFuel]. [wp m Q s] says that [m] returns from [s] with [Q]: it
      excludes both undefined behaviour and non-termination. Small functions that cannot fail are
      plain functions on the state.
    - An unsigned [w]-bit integer is a [Z]; [u8], [u16], [u32] write out the wrap-around, [i32] the
      conversion to a signed integer. Enumerations are inductive types, structures are records with
      assignment [r <| field := v |>]; structures that go to storage or to the wire as they are in
      memory are lists of bytes (Bytes).
    - A loop is a fixpoint. Where the recursion is not structural it has a fuel argument, and the
      theorems show that the fuel given is enough: list walks get one more than the number of
      control blocks (or timers), the flash erase loop 130 rounds (there are 128 sectors), the
      allocator's loops 130 and 260 (there are 128 blocks), the loops of [fs_read] and [fs_write] 8 (a
      file has 6 blocks), and a wait with timeout [t] the number of
      rounds in which the tick counter must have passed [t] (every round yields, and every yield
      advances it).
    - What other tasks do while a task waits is a parameter [env] (KernelApi), constrained by the
      classes [YieldProtocol] and [Rely].
    - [size_t] and pointers have 32 bits, the byte order is little endian (the Makefile builds for
      arm-none-eabi, Cortex-M4).

    ** Files

    - Prelude: the monad and its [wp] rules, machine integers, record assignment. Types: constants
      and types of include/tinyos.h. Bytes: byte arrays, little-endian fields, flat memories.
    - Kernel models src/kernel.c: [kernel_t] is the static [kernel] with the task control blocks and
      PRIMASK; every function has its name. ReadyQueue represents the linked ready queues and the
      bitmap by one list per priority; Scheduler proves the refinement; KernelApi gives each call of
      the task API its specification; KernelTheorems holds the theorems: safety of any sequence of
      calls, the scheduling policy, round robin, delays, task creation, stack usage, and the loss of
      a task that yields alone at its priority.
    - Sync models src/sync.c (mutexes, semaphores, message queues, event groups, condition
      variables) on the kernel; SyncTheorems shows mutual exclusion, hand-over, priority inheritance,
      the waiting functions with their timeouts, and that a queue is a bounded FIFO.
    - Timer models src/timer.c: the active list is sorted and is the set of active timers; processing
      fires exactly the due ones. Watchdog models src/watchdog.c.
    - Memory models src/memory.c on the bytes of its pool. Flash models drivers/flash.c on its
      simulated array, Ramdisk models drivers/ramdisk.c and states the block device interface as a
      class, against which stored data is shown to be kept.
    - Ota models src/ota.c; OtaTheorems shows the CRC, the boot information in flash and the update.
      Bootloader models src/bootloader.c, refines it to an abstract boot loader, and composes it with
      Ota: an update is tried twice and rolled back unless it is confirmed, and stays if it is.
    - Filesystem models src/filesystem.c over any block device (the class of Ramdisk) and any kernel
      that offers mutexes and a tick counter (class [Services]). FsLayers proves it layer by layer:
      the one-block cache, the inode table, the bitmap, the loops of [fs_read] and [fs_write].
      FsTheorems states what a file is (bytes and a cursor) and that the calls on a descriptor
      implement it, FsNames does the directory, FsOpen puts them together: sessions on files refine
      a map from names to bytes, and data survives a restart. FsDefects holds runs that lose data.
      FsKernel shows that the mutexes of Sync are the services the file system asks for.
    - Coap models src/coap.c on a memory of byte objects with lifetimes, over the class [CoapServices]
      (sockets, memory, clock). CoapTheorems shows the message codec: encoding and decoding are
      inverse on the wire format of RFC 7252, and decoding arbitrary bytes is safe. CoapServer shows
      that the server answers every request with the reply of the right resource, CoapClient that a
      GET works, and the runs in which the client fails. CoapNet puts the server on the sockets of Net:
      a frame with a request goes in, a frame with the reply comes out.
    - Net models src/net/network.c, ethernet.c, ip.c and socket.c: [net_world] is the buffer pool, the
      ARP cache, the sockets and the driver, over the class [NetServices] (mutexes, semaphores,
      clock). NetTheorems shows the checksum of RFC 1071 and the text form of addresses; NetStack
      states what the stack relies on ([NetLaws], [OutDriver]) and specifies its operations;
      NetDelivery proves that a datagram arrives and that addresses are resolved; NetBuffers that
      the buffer pool is a stack of free buffers; NetTcp that a TCP connection is
      opened by the handshake and that its data arrives as in a mailbox for one segment; NetSafety that any received bytes are handled
      safely; NetDefects holds the inputs that are not. Loopback models drivers/loopback_net.c and
      refines it to a queue; NetLoopback runs the stack on it. NetKernel shows that the mutexes and
      semaphores of Sync keep [NetLaws], and runs the stack and the loopback driver on the kernel.
    - Http models src/net/http_dns.c over the class [HttpServices]; HttpTheorems shows that documented
      URLs are parsed, that a GET brings back status and body, and that long headers overflow.
    - Mqtt models src/mqtt.c over the class [MqttServices]. MqttTheorems gives the packets of the
      protocol as reference definitions and shows that the client sends them; MqttReceive that
      packets are received however the stream is cut up; MqttSession holds the theorems on
      publishing, delivery, connecting, subscribing and on arbitrary input; MqttHost instantiates
      the services, MqttMachine shows that the client implements a state machine of connection and
      subscriptions, MqttNet puts it on the sockets of Net, where it cannot receive a packet, and
      MqttDefects shows where it departs from the protocol.
    - Power models src/power.c (platform functions are the class [PowerPlatform]); PowerTheorems shows
      what sleeping does, that the wakeup bitmap is a set, that the statistics agree, and that every
      call keeps the types of the state. Security
      models src/security.c over the registers of the memory protection unit.
    - Further fuel: the internet checksum and the ARP wait of Net run on measures given there; the
      receive loop of Http gets 2048 rounds (each brings a byte, and the buffer has 2047), the body
      of an MQTT packet as many rounds as it has bytes.
    Witnesses (the lemmas named [..._witness]) apply the theorems to concrete states.

    ** Not modelled

    Functions that only print ([os_print_*] are modelled as the calls they make; [wdt_print_*],
    [ota_print_*], [bootloader_print_info] are left out), hardware (the context switch, the idle
    loop, registers), and the programs in examples/.

    [coap_pdu_print] only prints.

    ** Findings

    Some theorems state behaviour that the code's comments exclude: a lone task is lost by its second
    yield ([lone_task_lost]); a condition variable cuts the ready queue ([cond_signal_cuts_ready_queue]);
    a timer behind a wrap-around waits ([not_due_head_blocks]); [os_malloc] reads behind its pool when
    memory runs out ([heap_end_undefined]), which makes [ota_compute_crc32] undefined; a chunk with a
    wrapping offset overwrites the boot loader ([ota_write_chunk_bounds]); selecting the active
    partition for the next boot starts the other one ([set_boot_partition_rolls_back]).
    In the file system, the inode table overlaps the data blocks ([inode_table_overlaps_data]) and a
    write into a hole is lost ([hole_write_is_lost]).
    The CoAP client garbles paths of several segments and uses dead or unassigned memory
    ([coap_client_defects]), and the decoder reads behind short messages ([coap_decode_safe]).
    The network stack reads far behind a packet that claims to be shorter than its header
    ([short_ping_undefined]) and has the smaller defects of [network_stack_defects]. The HTTP client
    writes past its request with long headers ([http_long_headers]). A TCP connection of this
    stack keeps only the last segment and only one piece of it ([tcp_receive_refines_mailbox]). The
    MQTT client cannot connect on this stack ([mqtt_never_connects]) nor receive a packet over it
    ([mqtt_cannot_receive]) and has the defects of [mqtt_defects]. A sleep counts its
    requested duration whatever time passes ([sleep_accounting]). The memory protection unit
    protects other memory than asked for when a region is not aligned to its size ([mpu_defects]).
*)
From Stdlib Require Import ZArith Lia.
From stdpp Require Import base numbers gmap list.

#[global] Open Scope Z_scope.

(** * Machine integers *)

(** A [w]-bit unsigned value is a [Z] in [0, 2^w); these functions write out the wrap-around of C's
    unsigned arithmetic and of the conversions between widths. *)
Definition u8 (z : Z) : Z := z mod 2 ^ 8.
Definition u16 (z : Z) : Z := z mod 2 ^ 16.
Definition u32 (z : Z) : Z := z mod 2 ^ 32.
Definition i32 (z : Z) : Z :=
  let r := z mod 2 ^ 32 in if r <? 2 ^ 31 then r else r - 2 ^ 32.

(** Bitwise complement of a 32-bit (8-bit) word, C's [~x] on [uint32_t] ([uint8_t]). *)
Definition lnot32 (z : Z) : Z := u32 (Z.lnot z).
Definition lnot8 (z : Z) : Z := u8 (Z.lnot z).

(** [__builtin_ctz]: the index of the lowest set bit, searched upwards from bit [i]. *)
Fixpoint ctz_from (n : nat) (i x : Z) : Z :=
  match n with
  | O => i
  | S n => if Z.testbit x i then i else ctz_from n (i + 1) x
  end.
Definition ctz32 (x : Z) : Z := ctz_from 31 0 x.

(** * Assignment to a field of a structure

    [r <| f := v |>] is the record [r] after the C assignment [r.f = v], [r <| f ::= g |>] after
    [r.f = g (r.f)]. A record type only declares its eta-expansion; the setter of a field is found
    by abstracting that field in it. *)
Class Eta (R : Type) := eta_expand : R → R.
Class Setter {R T : Type} (proj : R → T) := set_field : (T → T) → R → R.
Arguments set_field {R T} proj {_} f r /.
#[global] Hint Mode Setter - - ! : typeclass_instances.

Ltac derive_setter :=
  lazymatch goal with
  | |- @Setter ?R ?T ?proj =>
      let f := fresh "f" in
      let r := fresh "r" in
      intros f r;
      let e := eval cbv beta delta [eta_expand] in (eta_expand (R := R) r) in
      let e := eval hnf in e in
      match eval pattern (proj r) in e with
      | ?g _ => let b := eval cbv beta in (g (f (proj r))) in exact b
      end
  end.
#[global] Hint Extern 0 (Setter _) => derive_setter : typeclass_instances.

Declare Scope record_scope.
Delimit Scope record_scope with record.
#[warning="-postfix-notation-not-level-1"]
Notation "r <| f := v |>" := (set_field f (λ _, v) r)
  (at level 12, left associativity, f at level 9, format "r  <|  f  :=  v  |>") : record_scope.
#[warning="-postfix-notation-not-level-1"]
Notation "r <| f ::= g |>" := (set_field f g r)
  (at level 12, left associativity, f at level 9, format "r  <|  f  ::=  g  |>") : record_scope.
#[global] Open Scope record_scope.

(** * Outcomes and the state monad *)

(** A C function applied to a state returns a value and a new state, runs into undefined behaviour
    (a null or wild pointer, an index out of range) or does not return within the fuel. *)
Inductive outcome (S A : Type) : Type :=
| Ret (a : A) (s : S)
| Undef
| NoFuel.
Arguments Ret {S A} a s.
Arguments Undef {S A}.
Arguments NoFuel {S A}.

Definition M (S A : Type) : Type := S → outcome S A.

Definition ret {S A} (a : A) : M S A := λ s, Ret a s.
Definition bind {S A B} (m : M S A) (f : A → M S B) : M S B := λ s,
  match m s with
  | Ret a s' => f a s'
  | Undef => Undef
  | NoFuel => NoFuel
  end.
Definition undef {S A} : M S A := λ _, Undef.
Definition nofuel {S A} : M S A := λ _, NoFuel.
Definition gets {S A} (f : S → A) : M S A := λ s, Ret (f s) s.
Definition modify {S} (f : S → S) : M S unit := λ s, Ret tt (f s).

Declare Scope c_scope.
Delimit Scope c_scope with c.
Notation "'let!' x := m 'in' k" := (bind m (λ x, k))
  (at level 10, x name, m at level 100, k at level 200,
   format "'let!'  x  :=  m  'in' '//' k") : c_scope.
Notation "m1 ;;; m2" := (bind m1 (λ _ : unit, m2))
  (at level 199, right associativity, format "m1  ;;; '//' m2") : c_scope.
#[global] Open Scope c_scope.

(** [when b m]: the C statement [if (b) { m }]. *)
Definition when {S} (b : bool) (m : M S unit) : M S unit := if b then m else ret tt.

(** An element of a fixed-size array; an index out of range is undefined behaviour. *)
Definition arr_get {S A} (l : list A) (i : Z) : M S A :=
  if i <? 0 then undef
  else match l !! Z.to_nat i with Some x => ret x | None => undef end.
Definition arr_set {A} (l : list A) (i : Z) (x : A) : list A := <[Z.to_nat i := x]> l.

(** A program on one component of a larger state. *)
Definition zoom {S T A} (proj : S → T) `{!Setter proj} (m : M T A) : M S A := λ s,
  match m (proj s) with
  | Ret a t => Ret a (s <| proj := t |>)
  | Undef => Undef
  | NoFuel => NoFuel
  end.

(** ** Weakest preconditions: the program returns, and its result satisfies [Q]. *)
Definition wp {S A} (m : M S A) (Q : A → S → Prop) (s : S) : Prop :=
  match m s with Ret a s' => Q a s' | _ => False end.

Section wp.
Context {S : Type}.
Implicit Types s : S.

Lemma wp_ret {A} (a : A) Q s : wp (ret a) Q s = Q a s.
Proof. reflexivity. Qed.

Lemma wp_bind {A B} (m : M S A) (f : A → M S B) Q s :
  wp (bind m f) Q s = wp m (λ a s', wp (f a) Q s') s.
Proof. unfold wp, bind. destruct (m s); reflexivity. Qed.

Lemma wp_gets {A} (f : S → A) Q s : wp (gets f) Q s = Q (f s) s.
Proof. reflexivity. Qed.

Lemma wp_modify (f : S → S) Q s : wp (modify f) Q s = Q tt (f s).
Proof. reflexivity. Qed.

Lemma wp_when b (m : M S unit) Q s : wp (when b m) Q s = if b then wp m Q s else Q tt s.
Proof. destruct b; reflexivity. Qed.

Lemma wp_mono {A} (m : M S A) (P Q : A → S → Prop) s :
  wp m P s → (∀ a s', P a s' → Q a s') → wp m Q s.
Proof. unfold wp. destruct (m s); auto. Qed.

Lemma wp_elim {A} (m : M S A) Q s : wp m Q s → ∃ a s', m s = Ret a s' ∧ Q a s'.
Proof. unfold wp. destruct (m s); naive_solver. Qed.

Lemma wp_intro {A} (m : M S A) (Q : A → S → Prop) s a s' : m s = Ret a s' → Q a s' → wp m Q s.
Proof. unfold wp. intros ->. auto. Qed.

Lemma wp_conj {A} (m : M S A) (P Q : A → S → Prop) s :
  wp m P s → wp m Q s → wp m (λ a s', P a s' ∧ Q a s') s.
Proof. unfold wp. destruct (m s); auto. Qed.

Lemma wp_arr_get {A} (l : list A) i (x : A) Q s :
  0 ≤ i → l !! Z.to_nat i = Some x → Q x s → wp (arr_get l i) Q s.
Proof.
  intros Hi Hl HQ. unfold arr_get. destruct (Z.ltb_spec i 0); [lia|]. by rewrite Hl.
Qed.

Lemma wp_zoom {T A} (proj : S → T) `{!Setter proj} (m : M T A) Q s :
  wp (zoom proj m) Q s = wp m (λ a t, Q a (s <| proj := t |>)) (proj s).
Proof. unfold wp, zoom. by destruct (m (proj s)). Qed.
End wp.

Create Rewrite HintDb wp.
#[export] Hint Rewrite @wp_ret @wp_bind @wp_gets @wp_modify @wp_when @wp_zoom : wp.

(** [wp_step]: push [wp] through returns, binds, reads and writes of the whole state. *)
Ltac wp_step := autorewrite with wp; cbv beta.

(** * Lemmas on machine words *)
Lemma u8_range z : 0 ≤ u8 z < 2 ^ 8.
Proof. apply Z.mod_pos_bound. lia. Qed.
Lemma u16_range z : 0 ≤ u16 z < 2 ^ 16.
Proof. apply Z.mod_pos_bound. lia. Qed.
Lemma u32_range z : 0 ≤ u32 z < 2 ^ 32.
Proof. apply Z.mod_pos_bound. lia. Qed.
Lemma u8_small z : 0 ≤ z < 2 ^ 8 → u8 z = z.
Proof. apply Z.mod_small. Qed.
Lemma u16_small z : 0 ≤ z < 2 ^ 16 → u16 z = z.
Proof. apply Z.mod_small. Qed.
Lemma u32_small z : 0 ≤ z < 2 ^ 32 → u32 z = z.
Proof. apply Z.mod_small. Qed.
Lemma i32_range z : - 2 ^ 31 ≤ i32 z < 2 ^ 31.
Proof.
  unfold i32. pose proof (Z.mod_pos_bound z (2 ^ 32) ltac:(lia)).
  destruct (Z.ltb_spec (z mod 2 ^ 32) (2 ^ 31)); lia.
Qed.
Lemma i32_small z : - 2 ^ 31 ≤ z < 2 ^ 31 → i32 z = z.
Proof.
  intros ?. unfold i32. destruct (Z.ltb_spec (z mod 2 ^ 32) (2 ^ 31)); Z.div_mod_to_equations; lia.
Qed.
(** Differences of 32-bit counters do not see where either counter wrapped around. *)
Lemma u32_sub_u32_l a b : u32 (u32 a - b) = u32 (a - b).
Proof. unfold u32. apply Zminus_mod_idemp_l. Qed.
Lemma u32_sub_u32_r a b : u32 (a - u32 b) = u32 (a - b).
Proof. unfold u32. apply Zminus_mod_idemp_r. Qed.
Lemma u32_add_u32_l a b : u32 (u32 a + b) = u32 (a + b).
Proof. unfold u32. apply Zplus_mod_idemp_l. Qed.
Lemma i32_u32 z : i32 (u32 z) = i32 z.
Proof. unfold i32, u32. by rewrite Zmod_mod. Qed.

(** A non-negative number with no bit at or above [n] is below [2 ^ n]. *)
Lemma bits_bound n x : 0 ≤ n → 0 ≤ x → (∀ i, n ≤ i → Z.testbit x i = false) → x < 2 ^ n.
Proof.
  intros Hn Hx Hbits. replace x with (x mod 2 ^ n).
  - apply Z.mod_pos_bound. lia.
  - apply Z.bits_inj'. intros i Hi. destruct (decide (i < n)).
    + by apply Z.mod_pow2_bits_low.
    + rewrite Z.mod_pow2_bits_high by lia. symmetry. apply Hbits. lia.
Qed.
Lemma testbit_above n x i : 0 ≤ n → 0 ≤ x < 2 ^ n → n ≤ i → Z.testbit x i = false.
Proof.
  intros Hn Hx Hi. rewrite <-(Z.mod_small x (2 ^ n)) by lia. by apply Z.mod_pow2_bits_high; lia.
Qed.
Lemma testbit_u32 z i : 0 ≤ i < 32 → Z.testbit (u32 z) i = Z.testbit z i.
Proof. intros ?. apply Z.mod_pow2_bits_low. lia. Qed.
Lemma testbit_pow2 k i : 0 ≤ k → 0 ≤ i → Z.testbit (Z.shiftl 1 k) i = (i =? k).
Proof.
  intros. rewrite Z.shiftl_1_l. destruct (Z.eqb_spec i k) as [->|].
  - by apply Z.pow2_bits_true.
  - by apply Z.pow2_bits_false.
Qed.
Lemma testbit_lnot32 x i : 0 ≤ i < 32 → Z.testbit (lnot32 x) i = negb (Z.testbit x i).
Proof. intros ?. unfold lnot32. rewrite testbit_u32 by lia. apply Z.lnot_spec. lia. Qed.

(** Setting and clearing one bit of a 32-bit word. *)
Lemma set_bit_spec b k i : 0 ≤ i < 32 → 0 ≤ k < 32 →
  Z.testbit (Z.lor b (u32 (Z.shiftl 1 k))) i = Z.testbit b i || (i =? k).
Proof. intros. rewrite Z.lor_spec, testbit_u32, testbit_pow2 by lia. done. Qed.
Lemma clear_bit_spec b k i : 0 ≤ i < 32 → 0 ≤ k < 32 →
  Z.testbit (Z.land b (lnot32 (Z.shiftl 1 k))) i = Z.testbit b i && negb (i =? k).
Proof. intros. rewrite Z.land_spec, testbit_lnot32, testbit_pow2 by lia. done. Qed.
Lemma lor_range n a b : 0 ≤ n → 0 ≤ a < 2 ^ n → 0 ≤ b < 2 ^ n → 0 ≤ Z.lor a b < 2 ^ n.
Proof.
  intros. split; [apply Z.lor_nonneg; lia|]. apply bits_bound; [lia|apply Z.lor_nonneg; lia|].
  intros i ?. rewrite Z.lor_spec, !(testbit_above n) by lia. done.
Qed.
Lemma land_range n a b : 0 ≤ n → 0 ≤ a < 2 ^ n → 0 ≤ Z.land a b < 2 ^ n.
Proof.
  intros. split; [apply Z.land_nonneg; lia|]. apply bits_bound; [lia|apply Z.land_nonneg; lia|].
  intros i ?. rewrite Z.land_spec, (testbit_above n a) by lia. done.
Qed.

(** [ctz32] finds the lowest set bit of a non-zero word. *)
Lemma ctz_from_spec n : ∀ i x, 0 ≤ i →
  (∃ j, i ≤ j ≤ i + Z.of_nat n ∧ Z.testbit x j = true) →
  i ≤ ctz_from n i x ≤ i + Z.of_nat n ∧ Z.testbit x (ctz_from n i x) = true ∧
  ∀ j, i ≤ j < ctz_from n i x → Z.testbit x j = false.
Proof.
  induction n as [|n IH]; intros i x Hi (j & Hj & Hbit); simpl.
  - replace j with i in Hbit by lia. repeat split; auto; lia.
  - destruct (Z.testbit x i) eqn:E; [repeat split; auto; lia|].
    destruct (IH (i + 1) x) as (? & ? & Hlow); [lia| |].
    { exists j. split; [|done]. assert (j ≠ i) by congruence. lia. }
    repeat split; auto; try lia. intros j' ?. destruct (decide (j' = i)) as [->|]; [done|].
    apply Hlow. lia.
Qed.
Lemma ctz32_spec x : 0 < x < 2 ^ 32 →
  0 ≤ ctz32 x < 32 ∧ Z.testbit x (ctz32 x) = true ∧
  ∀ j, 0 ≤ j < ctz32 x → Z.testbit x j = false.
Proof.
  intros Hx. unfold ctz32. destruct (ctz_from_spec 31 0 x) as (? & ? & ?); [lia| |].
  - exists (Z.log2 x). split; [|apply Z.bit_log2; lia].
    pose proof (Z.log2_nonneg x). assert (Z.log2 x < 32) by (apply Z.log2_lt_pow2; lia). lia.
  - repeat split; auto; lia.
Qed.

(** * Lemmas on arrays *)
Lemma arr_set_lookup_eq {A} (l : list A) i (x : A) :
  (Z.to_nat i < length l)%nat → arr_set l i x !! Z.to_nat i = Some x.
Proof. intros. by apply list_lookup_insert_eq. Qed.
Lemma arr_set_lookup_ne {A} (l : list A) i j (x : A) :
  0 ≤ i → 0 ≤ j → i ≠ j → arr_set l i x !! Z.to_nat j = l !! Z.to_nat j.
Proof. intros. apply list_lookup_insert_ne. lia. Qed.
Lemma arr_set_length {A} (l : list A) i (x : A) : length (arr_set l i x) = length l.
Proof. apply length_insert. Qed.

(** Two fields of a word put together, and taken apart. *)
Lemma lor_shiftl k a b : 0 ≤ k → 0 ≤ b < 2 ^ k → Z.lor (Z.shiftl a k) b = a * 2 ^ k + b.
Proof.
  intros Hk Hb. rewrite <-Z.shiftl_mul_pow2 by lia.
  assert (Z.land (Z.shiftl a k) b = 0) as Hland.
  { apply Z.bits_inj'. intros i Hi. rewrite Z.land_spec, Z.shiftl_spec, Z.bits_0 by lia.
    destruct (decide (i < k)); [by rewrite Z.testbit_neg_r by lia|].
    by rewrite (testbit_above k b), andb_false_r by lia. }
  rewrite <-Z.lxor_lor by done. symmetry. by apply Z.add_nocarry_lxor.
Qed.
Lemma land_ones_mod k a : 0 ≤ k → Z.land a (2 ^ k - 1) = a mod 2 ^ k.
Proof. intros Hk. by rewrite <-Z.land_ones, Z.ones_equiv by lia. Qed.

(** Taking one element out of a list that does not have it. *)
Lemma filter_ne_notin (a : Z) (l : list Z) : a ∉ l → filter (λ b, b ≠ a) l = l.
Proof.
  induction l as [|b l IH]; intros Ha; [done|]. rewrite filter_cons_True by set_solver.
  f_equal. apply IH. set_solver.
Qed.
