(* ===== verification/Types.v ===== *)
(** Types: the constants, enumerations and structures of [include/tinyos.h] that the kernel and the
    synchronisation primitives share.

    A pointer is an address, a [Z]; [NULL] is 0. A task is identified by the address of its
    [tcb_t]; [task_pool i] is the address of [kernel.task_pool[i]]. A character array is the list
    of its bytes, a C string argument the list of its bytes before the terminating NUL. *)
From Stdlib Require Import ZArith Lia.
From stdpp Require Import base numbers gmap list.
From S2P Require Import Prelude.

Abbreviation ptr := Z (only parsing).
Definition NULL : ptr := 0.

(** * Configuration *)
Definition MAX_TASKS : Z := 8.
Definition STACK_SIZE : Z := 256.
Definition TICK_RATE_HZ : Z := 1000.
Definition TIME_SLICE_MS : Z := 10.

Definition PRIORITY_CRITICAL : Z := 0.
Definition PRIORITY_HIGH : Z := 64.
Definition PRIORITY_NORMAL : Z := 128.
Definition PRIORITY_LOW : Z := 192.
Definition PRIORITY_IDLE : Z := 255.

(** The address of [kernel.task_pool[i]]; entry 0 is the idle task. *)
Definition task_pool (i : Z) : ptr := 1 + i.

(** * Task states and return codes *)
Inductive task_state_t :=
| TASK_STATE_READY
| TASK_STATE_RUNNING
| TASK_STATE_BLOCKED
| TASK_STATE_SUSPENDED
| TASK_STATE_TERMINATED.
#[export] Instance task_state_eq_dec : EqDecision task_state_t.
Proof. solve_decision. Defined.

Inductive os_error_t :=
| OS_OK
| OS_ERROR
| OS_ERROR_NO_MEMORY
| OS_ERROR_INVALID_PARAM
| OS_ERROR_TIMEOUT
| OS_ERROR_PERMISSION_DENIED
| OS_ERROR_NOT_IMPLEMENTED
| OS_ERROR_NO_RESOURCE
| OS_ERROR_NOT_INITIALIZED.
#[export] Instance os_error_eq_dec : EqDecision os_error_t.
Proof. solve_decision. Defined.

(** The integer value of an enumerator, as [tinyos.h] assigns it. *)
Definition os_error_code (e : os_error_t) : Z :=
  match e with
  | OS_OK => 0
  | OS_ERROR => -1
  | OS_ERROR_NO_MEMORY => -2
  | OS_ERROR_INVALID_PARAM => -3
  | OS_ERROR_TIMEOUT => -4
  | OS_ERROR_PERMISSION_DENIED => -5
  | OS_ERROR_NOT_IMPLEMENTED => -6
  | OS_ERROR_NO_RESOURCE => -7
  | OS_ERROR_NOT_INITIALIZED => -8
  end.

(** * Task control block *)

(** [stack_ptr] points into the task's own [stack] array and is kept as an index into it. *)
Record tcb_t := Tcb {
  tcb_stack_ptr : Z;
  tcb_stack : list Z;
  tcb_state : task_state_t;
  tcb_priority : Z;
  tcb_base_priority : Z;
  tcb_time_slice : Z;
  tcb_name : list Z;
  tcb_entry_point : Z;
  tcb_param : Z;
  tcb_run_time : Z;
  tcb_context_switches : Z;
  tcb_stack_high_water_mark : Z;
  tcb_next : ptr;
}.

#[export] Instance tcb_eta : Eta tcb_t := λ r,
  Tcb (tcb_stack_ptr r) (tcb_stack r) (tcb_state r) (tcb_priority r) (tcb_base_priority r)
    (tcb_time_slice r) (tcb_name r) (tcb_entry_point r) (tcb_param r) (tcb_run_time r)
    (tcb_context_switches r) (tcb_stack_high_water_mark r) (tcb_next r).

(** A [tcb_t] cleared by [memset (_, 0, sizeof (tcb_t))]. *)
Definition tcb_zero : tcb_t :=
  Tcb 0 (replicate 256 0) TASK_STATE_READY 0 0 0 (replicate 16 0) 0 0 0 0 0 NULL.

(** [strncpy (dst, src, n)]: at most [n] bytes of [src], padded with NULs up to [n]; the rest of
    [dst] is kept. *)
Definition strncpy (dst src : list Z) (n : nat) : list Z :=
  take n (src ++ replicate n 0) ++ drop n dst.
