(* ===== verification/Kernel.v ===== *)
(** Kernel: the scheduler and the task management of [src/kernel.c].

    [kernel_t] is the static [kernel] structure together with the memory that holds the task
    control blocks ([tasks], by address) and the processor's PRIMASK bit, which
    [os_enter_critical] and [os_exit_critical] save, set and restore.

    The functions that may give up the processor ([os_task_yield] inside them) are written over any
    state that contains the kernel ([KernelView]) and over [env], what the other tasks and the
    interrupt handlers do from the moment the calling task is switched out until it is switched in
    again. [context_switch] is assembly outside the repository and a member of [Platform]. *)
From Stdlib Require Import ZArith Lia String SpecFloat.
From stdpp Require Import base numbers gmap list.
From S2P Require Import Prelude Types.

(** * Platform *)

(** [context_switch old new] is the control block of the task switched out, after its registers
    were saved: the assembly only writes that task's stack and its saved stack pointer. *)
Class Platform := {
  context_switch : tcb_t → tcb_t → tcb_t;
  context_switch_frame : ∀ o n,
    context_switch o n = o <| tcb_stack_ptr := tcb_stack_ptr (context_switch o n) |>
                           <| tcb_stack := tcb_stack (context_switch o n) |>;
  idle_task : Z;
  idle_task_not_null : idle_task ≠ NULL
}.

(** * The kernel state *)
Record kernel_t := Kernel {
  current_task : ptr;
  ready_queue : list ptr;
  ready_bitmap : list Z;
  task_count : Z;
  tick_count : Z;
  context_switch_count : Z;
  scheduler_running : bool;
  tasks : gmap Z tcb_t;
  primask : Z
}.
#[export] Instance kernel_eta : Eta kernel_t := λ k,
  Kernel (current_task k) (ready_queue k) (ready_bitmap k) (task_count k) (tick_count k)
    (context_switch_count k) (scheduler_running k) (tasks k) (primask k).

(** Loads and stores through a [tcb_t *]; a pointer that is not the address of a control block
    ([NULL] in particular) is undefined behaviour. *)
Definition load (p : ptr) : M kernel_t tcb_t := λ k,
  match tasks k !! p with Some t => Ret t k | None => Undef end.
Definition store (p : ptr) (f : tcb_t → tcb_t) : M kernel_t unit := λ k,
  match tasks k !! p with
  | Some t => Ret tt (k <| tasks ::= <[p := f t]> |>)
  | None => Undef
  end.

Definition rq_get (i : Z) : M kernel_t ptr := λ k, arr_get (ready_queue k) i k.
Definition rq_set (i : Z) (p : ptr) : M kernel_t unit :=
  modify (λ k, k <| ready_queue ::= λ q, arr_set q i p |>).
Definition bm_get (w : Z) : M kernel_t Z := λ k, arr_get (ready_bitmap k) w k.
Definition bm_set (w x : Z) : M kernel_t unit :=
  modify (λ k, k <| ready_bitmap ::= λ b, arr_set b w x |>).

(** Loops that follow [next] pointers run with this fuel: one more than the number of control
    blocks, which a list that ends in [NULL] never exhausts. *)
Definition list_fuel (k : kernel_t) : nat := S (size (tasks k)).

(** * Critical sections *)
Definition os_enter_critical : M kernel_t Z :=
  let! p := gets primask in
  modify (λ k, k <| primask := 1 |>) ;;;
  ret p.
Definition os_exit_critical (state : Z) : M kernel_t unit :=
  modify (λ k, k <| primask := state |>).

(** * Ready queues *)

(** The body of the loop of [scheduler_get_next_task], on a non-zero word of the bitmap. *)
Definition scheduler_pop (w bitmap : Z) : M kernel_t ptr :=
  let bit := ctz32 bitmap in
  let i := w * 32 + bit in
  let! task := rq_get i in
  let! t := load task in
  rq_set i (tcb_next t) ;;;
  store task (λ t, t <| tcb_next := NULL |>) ;;;
  let! head := rq_get i in
  when (head =? NULL) (
    let! b := bm_get w in
    bm_set w (Z.land b (lnot32 (Z.shiftl 1 bit)))) ;;;
  ret task.

Fixpoint scheduler_scan (n : nat) (w : Z) : M kernel_t ptr :=
  match n with
  | O => ret (task_pool 0)
  | S n =>
      let! b := bm_get w in
      if b =? 0 then scheduler_scan n (w + 1) else scheduler_pop w b
  end.
Definition scheduler_get_next_task : M kernel_t ptr := scheduler_scan 8 0.

(** [while (current->next != NULL) current = current->next;] *)
Fixpoint find_tail (fuel : nat) (current : ptr) : M kernel_t ptr :=
  match fuel with
  | O => nofuel
  | S fuel =>
      let! t := load current in
      if tcb_next t =? NULL then ret current else find_tail fuel (tcb_next t)
  end.

(** Insertion at the end of the list of priority [prio]. *)
Definition queue_append (prio : Z) (task : ptr) : M kernel_t unit :=
  let! head := rq_get prio in
  (if head =? NULL then rq_set prio task
   else
     let! fuel := gets list_fuel in
     let! tail := find_tail fuel head in
     store tail (λ t, t <| tcb_next := task |>)) ;;;
  store task (λ t, t <| tcb_next := NULL |>).

Definition scheduler_add_ready_task (task : ptr) : M kernel_t unit :=
  let! t := load task in
  when (bool_decide (tcb_state t ≠ TASK_STATE_READY))
    (store task (λ t, t <| tcb_state := TASK_STATE_READY |>)) ;;;
  let prio := tcb_priority t in
  queue_append prio task ;;;
  let! b := bm_get (prio / 32) in
  bm_set (prio / 32) (Z.lor b (u32 (Z.shiftl 1 (prio mod 32)))).

(** The loop of [scheduler_remove_task]; [prev] is [NULL] at the head of the queue. *)
Fixpoint remove_loop (fuel : nat) (task prev current : ptr) (prio : Z) : M kernel_t unit :=
  match fuel with
  | O => nofuel
  | S fuel =>
      if current =? NULL then ret tt
      else
        let! c := load current in
        if current =? task then
          (if prev =? NULL then rq_set prio (tcb_next c)
           else store prev (λ t, t <| tcb_next := tcb_next c |>)) ;;;
          store current (λ t, t <| tcb_next := NULL |>) ;;;
          let! head := rq_get prio in
          when (head =? NULL) (
            let! b := bm_get (prio / 32) in
            bm_set (prio / 32) (Z.land b (lnot32 (Z.shiftl 1 (prio mod 32)))))
        else remove_loop fuel task current (tcb_next c) prio
  end.

Definition scheduler_remove_task (task : ptr) : M kernel_t unit :=
  let! t := load task in
  let! head := rq_get (tcb_priority t) in
  let! fuel := gets list_fuel in
  remove_loop fuel task NULL head (tcb_priority t).

(** * The scheduler *)
Section scheduler.
Context `{!Platform}.

(** The processor goes from the current task [cur] to [next_task]. *)
Definition switch_to (cur next_task : ptr) : M kernel_t unit :=
  modify (λ k, k <| context_switch_count ::= λ n, u32 (n + 1) |>) ;;;
  store next_task (λ t, t <| tcb_context_switches ::= λ n, u32 (n + 1) |>) ;;;
  modify (λ k, k <| current_task := next_task |>) ;;;
  store next_task (λ t, t <| tcb_state := TASK_STATE_RUNNING |>) ;;;
  store next_task (λ t, t <| tcb_time_slice := TIME_SLICE_MS |>) ;;;
  let! n := load next_task in
  store cur (λ o, context_switch o n).

(** The branch of [os_scheduler] that picks the next task. *)
Definition reschedule (cur : ptr) : M kernel_t unit :=
  let! t := load cur in
  when (bool_decide (tcb_state t = TASK_STATE_RUNNING)) (scheduler_add_ready_task cur) ;;;
  let! next_task := scheduler_get_next_task in
  if negb (next_task =? cur) then switch_to cur next_task
  else store next_task (λ t, t <| tcb_time_slice := TIME_SLICE_MS |>).

Definition os_scheduler : M kernel_t unit :=
  let! running := gets scheduler_running in
  if negb running then ret tt
  else
    modify (λ k, k <| tick_count ::= λ n, u32 (n + 1) |>) ;;;
    let! cur := gets current_task in
    if cur =? NULL then ret tt
    else
      store cur (λ t, t <| tcb_run_time ::= λ n, u32 (n + 1) |>) ;;;
      let! t := load cur in
      when (0 <? tcb_time_slice t)
        (store cur (λ t, t <| tcb_time_slice ::= λ n, n - 1 |>)) ;;;
      let! t := load cur in
      when (tcb_time_slice t =? 0) (reschedule cur).

Definition os_task_yield : M kernel_t unit :=
  let! cur := gets current_task in
  if cur =? NULL then ret tt
  else
    store cur (λ t, t <| tcb_time_slice := 0 |>) ;;;
    os_scheduler.
End scheduler.

(** [os_start] up to the jump to the first task. *)
Definition os_start : M kernel_t unit :=
  modify (λ k, k <| scheduler_running := true |>) ;;;
  let! task := scheduler_get_next_task in
  modify (λ k, k <| current_task := task |>) ;;;
  store task (λ t, t <| tcb_state := TASK_STATE_RUNNING |>).

(** * Task creation *)

(** [*(--stack_top) = v], on the stack array and the index [stack_top] points to. *)
Definition push (v : Z) (s : Z * list Z) : Z * list Z :=
  (fst s - 1, arr_set (snd s) (fst s - 1) v).

(** The initial frame: xPSR, PC, LR, R12, R3, R2, R1 and R0, from the top of the stack down. *)
Definition initial_frame (entry param : Z) (stack : list Z) : Z * list Z :=
  push (u32 param) (push 0 (push 0 (push 0 (push 0 (push 0 (push (u32 entry)
    (push 16777216 (STACK_SIZE - 1, stack)))))))).

(** The control block [os_task_create] builds before it queues it; [name] is [None] for [NULL]. *)
Definition new_tcb (name : option (list Z)) (entry param priority : Z) : tcb_t :=
  let t := tcb_zero
    <| tcb_name ::= λ n, strncpy n (default [] name) 15 |>
    <| tcb_entry_point := entry |>
    <| tcb_param := param |>
    <| tcb_priority := priority |>
    <| tcb_base_priority := priority |>
    <| tcb_state := TASK_STATE_READY |>
    <| tcb_time_slice := TIME_SLICE_MS |> in
  let f := initial_frame entry param (tcb_stack t) in
  t <| tcb_stack := snd f |> <| tcb_stack_ptr := fst f |>.

Definition os_task_create (task : ptr) (name : option (list Z)) (entry param priority : Z) :
    M kernel_t os_error_t :=
  if (task =? NULL) || (entry =? NULL) then ret OS_ERROR_INVALID_PARAM
  else
    let! n := gets task_count in
    if MAX_TASKS <=? n then ret OS_ERROR_NO_MEMORY
    else
      store task (λ _, new_tcb name entry param priority) ;;;
      scheduler_add_ready_task task ;;;
      modify (λ k, k <| task_count ::= λ n, u8 (n + 1) |>) ;;;
      ret OS_OK.

(** [memset (&kernel, 0, sizeof (kernel))]: the pool's control blocks are inside [kernel], those of
    the application are not; PRIMASK is a register. *)
Definition kernel_zero (k : kernel_t) : kernel_t :=
  Kernel NULL (replicate 256 NULL) (replicate 8 0) 0 0 0 false
    (foldr (λ i m, <[task_pool (Z.of_nat i) := tcb_zero]> m) (tasks k) (seq 0 8)) (primask k).

(** The bytes of ["idle"]. *)
Definition idle_name : list Z := [105; 100; 108; 101].

Definition os_init `{!Platform} : M kernel_t unit :=
  modify kernel_zero ;;;
  let! _ := os_task_create (task_pool 0) (Some idle_name) idle_task NULL PRIORITY_IDLE in
  ret tt.

(** * Operations that may yield *)

(** A state that contains the kernel. *)
Class KernelView (S : Type) := {
  kget : S → kernel_t;
  kput : kernel_t → S → S;
  kget_kput : ∀ k s, kget (kput k s) = k;
  kput_kput : ∀ k k' s, kput k (kput k' s) = kput k s;
  kput_kget : ∀ s, kput (kget s) s = s
}.
#[export] Program Instance kernel_view_self : KernelView kernel_t :=
  {| kget := id; kput := λ k _, k |}.
Solve All Obligations with done.

Arguments kget : simpl never.
Arguments kput : simpl never.

(** A function of the kernel, run inside a larger state. *)
Definition in_kernel {S} `{!KernelView S} {A} (m : M kernel_t A) : M S A := λ s,
  match m (kget s) with
  | Ret a k => Ret a (kput k s)
  | Undef => Undef
  | NoFuel => NoFuel
  end.

Section tasks.
Context `{!Platform} {S : Type} `{!KernelView S}.
Context (env : S → S).

(** [os_task_yield ()] seen from the task that calls it: it returns once the task runs again. *)
Definition yield : M S unit := in_kernel os_task_yield ;;; modify env.

Definition os_task_delete (task : ptr) : M S os_error_t :=
  if task =? NULL then ret OS_ERROR_INVALID_PARAM
  else if task =? task_pool 0 then ret OS_ERROR_INVALID_PARAM
  else
    let! state := in_kernel os_enter_critical in
    in_kernel (scheduler_remove_task task) ;;;
    in_kernel (store task (λ t, t <| tcb_state := TASK_STATE_TERMINATED |>)) ;;;
    in_kernel (modify (λ k, k <| task_count ::= λ n, u8 (n - 1) |>)) ;;;
    let! cur := in_kernel (gets current_task) in
    if task =? cur then
      in_kernel (os_exit_critical state) ;;;
      yield ;;;
      ret OS_OK
    else
      in_kernel (os_exit_critical state) ;;;
      ret OS_OK.

Definition os_task_suspend (task : ptr) : M S os_error_t :=
  if task =? NULL then ret OS_ERROR_INVALID_PARAM
  else
    let! state := in_kernel os_enter_critical in
    in_kernel (scheduler_remove_task task) ;;;
    in_kernel (store task (λ t, t <| tcb_state := TASK_STATE_SUSPENDED |>)) ;;;
    let! cur := in_kernel (gets current_task) in
    let is_current := task =? cur in
    in_kernel (os_exit_critical state) ;;;
    when is_current yield ;;;
    ret OS_OK.

Definition os_task_resume (task : ptr) : M S os_error_t :=
  if task =? NULL then ret OS_ERROR_INVALID_PARAM
  else
    let! state := in_kernel os_enter_critical in
    let! t := in_kernel (load task) in
    when (bool_decide (tcb_state t = TASK_STATE_SUSPENDED))
      (in_kernel (scheduler_add_ready_task task)) ;;;
    in_kernel (os_exit_critical state) ;;;
    ret OS_OK.

(** [while ((int32_t)(target - kernel.tick_count) > 0) os_task_yield ();] *)
Fixpoint delay_loop (fuel : nat) (target : Z) : M S unit :=
  match fuel with
  | O => nofuel
  | Datatypes.S fuel =>
      let! now := in_kernel (gets tick_count) in
      if 0 <? i32 (target - now) then yield ;;; delay_loop fuel target else ret tt
  end.
Definition os_task_delay (fuel : nat) (ticks : Z) : M S unit :=
  let! now := in_kernel (gets tick_count) in
  delay_loop fuel (u32 (now + ticks)).
Definition os_task_delay_ms (fuel : nat) (ms : Z) : M S unit :=
  os_task_delay fuel (u32 (u32 (ms * TICK_RATE_HZ) + 999) / 1000).

(** The part the three priority operations share: take a ready task out of its queue, change its
    priority, queue it again. *)
Definition requeue_with (task : ptr) (f : tcb_t → tcb_t) : M kernel_t unit :=
  let! t := load task in
  when (bool_decide (tcb_state t = TASK_STATE_READY)) (scheduler_remove_task task) ;;;
  store task f ;;;
  let! t := load task in
  when (bool_decide (tcb_state t = TASK_STATE_READY)) (scheduler_add_ready_task task).

Definition os_task_set_priority (task : ptr) (new_priority : Z) : M S os_error_t :=
  if task =? NULL then ret OS_ERROR_INVALID_PARAM
  else
    let! state := in_kernel os_enter_critical in
    let! t := in_kernel (load task) in
    let old_priority := tcb_priority t in
    if new_priority =? old_priority then
      in_kernel (os_exit_critical state) ;;;
      ret OS_OK
    else
      in_kernel (requeue_with task (λ t,
        t <| tcb_priority := new_priority |> <| tcb_base_priority := new_priority |>)) ;;;
      let! cur := in_kernel (gets current_task) in
      if (task =? cur) && (old_priority <? new_priority) then
        in_kernel (os_exit_critical state) ;;;
        yield ;;;
        ret OS_OK
      else
        let! higher := in_kernel (
          if cur =? NULL then ret false
          else let! c := load cur in ret (new_priority <? tcb_priority c)) in
        if higher : bool then
          in_kernel (os_exit_critical state) ;;;
          yield ;;;
          ret OS_OK
        else
          in_kernel (os_exit_critical state) ;;;
          ret OS_OK.

Definition os_task_raise_priority (task : ptr) (new_priority : Z) : M S os_error_t :=
  if task =? NULL then ret OS_ERROR_INVALID_PARAM
  else
    let! t := in_kernel (load task) in
    if tcb_priority t <=? new_priority then ret OS_OK
    else
      let! state := in_kernel os_enter_critical in
      in_kernel (requeue_with task (λ t, t <| tcb_priority := new_priority |>)) ;;;
      let! cur := in_kernel (gets current_task) in
      let! higher := in_kernel (
        if cur =? NULL then ret false
        else let! c := load cur in ret (new_priority <? tcb_priority c)) in
      if higher : bool then
        in_kernel (os_exit_critical state) ;;;
        yield ;;;
        ret OS_OK
      else
        in_kernel (os_exit_critical state) ;;;
        ret OS_OK.

Definition os_task_reset_priority (task : ptr) : M S os_error_t :=
  if task =? NULL then ret OS_ERROR_INVALID_PARAM
  else
    let! state := in_kernel os_enter_critical in
    let! t := in_kernel (load task) in
    let old_priority := tcb_priority t in
    in_kernel (requeue_with task (λ t, t <| tcb_priority := tcb_base_priority t |>)) ;;;
    let! cur := in_kernel (gets current_task) in
    let! t := in_kernel (load task) in
    if (task =? cur) && (old_priority <? tcb_priority t) then
      in_kernel (os_exit_critical state) ;;;
      yield ;;;
      ret OS_OK
    else
      in_kernel (os_exit_critical state) ;;;
      ret OS_OK.
End tasks.

(** * Queries and statistics *)
Definition os_task_get_current (k : kernel_t) : ptr := current_task k.
Definition os_get_tick_count (k : kernel_t) : Z := tick_count k.
Definition os_get_uptime_ms (k : kernel_t) : Z := u32 (tick_count k * 1000 / TICK_RATE_HZ).
Definition os_is_running (k : kernel_t) : bool := scheduler_running k.
Definition os_task_get_priority (task : ptr) : M kernel_t Z :=
  if task =? NULL then ret PRIORITY_IDLE
  else let! t := load task in ret (tcb_priority t).

(** The number of control blocks of [kernel.task_pool] that satisfy [P]. *)
Fixpoint count_pool (P : tcb_t → bool) (n : nat) (i : Z) : M kernel_t Z :=
  match n with
  | O => ret 0
  | S n =>
      let! t := load (task_pool i) in
      let! c := count_pool P n (i + 1) in
      ret (if P t then c + 1 else c)
  end.

Record os_stats_t := OsStats {
  os_total_tasks : Z;
  os_running_tasks : Z;
  os_blocked_tasks : Z;
  os_context_switches : Z;
  os_uptime_ticks : Z;
  os_free_memory : Z;
  os_used_memory : Z
}.

(** [free_memory] is the result of [os_get_free_memory ()]. The result is what [*stats] holds. *)
Definition os_get_stats (stats : ptr) (free_memory : Z) : M kernel_t (option os_stats_t) :=
  if stats =? NULL then ret None
  else
    let! running := count_pool (λ t, bool_decide (tcb_state t = TASK_STATE_RUNNING)) 8 0 in
    let! blocked := count_pool (λ t, bool_decide (tcb_state t = TASK_STATE_BLOCKED)) 8 0 in
    let! k := gets id in
    ret (Some (OsStats (task_count k) running blocked (context_switch_count k) (tick_count k)
      free_memory 0)).

Definition os_task_get_cpu_usage (task : ptr) : M kernel_t Z :=
  let! ticks := gets tick_count in
  if (task =? NULL) || (ticks =? 0) then ret 0
  else
    let! t := load task in
    let usage := u32 (tcb_run_time t * 100 / ticks) in
    ret (u8 (if 100 <? usage then 100 else usage)).

(** [while (current < stack_top && *current == 0) current++;] from index [cur], on the words of the
    stack from [cur] up. *)
Fixpoint skip_zeros (words : list Z) (cur : Z) : Z :=
  match words with
  | [] => cur
  | x :: words =>
      if (cur <? STACK_SIZE - 1) && (x =? 0) then skip_zeros words (cur + 1) else cur
  end.
Definition calculate_stack_usage (t : tcb_t) : Z :=
  (STACK_SIZE - 1 - skip_zeros (tcb_stack t) 0 + 1) * 4.

(** IEEE-754 single precision, as the [float] fields of the statistics use it. *)
Definition float_of_Z (z : Z) : spec_float := binary_normalize 24 128 z 0 false.
Definition float_percent (a b : Z) : spec_float :=
  SFmul 24 128 (SFdiv 24 128 (float_of_Z a) (float_of_Z b)) (float_of_Z 100).

Record task_stats_t := TaskStats {
  ts_name : list Z;
  ts_state : task_state_t;
  ts_priority : Z;
  ts_run_time : Z;
  ts_context_switches : Z;
  ts_stack_size : Z;
  ts_stack_used : Z;
  ts_stack_free : Z;
  ts_cpu_usage : spec_float
}.

(** [old_name] is the content of [stats->name] before the call, which [strncpy] overwrites. *)
Definition os_task_get_stats (task stats : ptr) (old_name : list Z) :
    M kernel_t (os_error_t * option task_stats_t) :=
  if (task =? NULL) || (stats =? NULL) then ret (OS_ERROR_INVALID_PARAM, None)
  else
    let! state := os_enter_critical in
    let! t := load task in
    let stack_size := STACK_SIZE * 4 in
    let stack_used := calculate_stack_usage t in
    let stack_free := if stack_used <=? stack_size then stack_size - stack_used else 0 in
    when (tcb_stack_high_water_mark t <? stack_used)
      (store task (λ t, t <| tcb_stack_high_water_mark := stack_used |>)) ;;;
    let! ticks := gets tick_count in
    let cpu := if 0 <? ticks then float_percent (tcb_run_time t) ticks else float_of_Z 0 in
    os_exit_critical state ;;;
    ret (OS_OK, Some (TaskStats (arr_set (strncpy old_name (tcb_name t) 15) 15 0) (tcb_state t)
      (tcb_priority t) (tcb_run_time t) (tcb_context_switches t) stack_size stack_used stack_free
      cpu)).

Record system_stats_t := SystemStats {
  ss_total_tasks : Z;
  ss_running_tasks : Z;
  ss_total_context_switches : Z;
  ss_uptime_ticks : Z;
  ss_uptime_seconds : Z;
  ss_idle_time : Z;
  ss_cpu_usage : spec_float;
  ss_free_heap : Z
}.

Definition os_get_system_stats (stats : ptr) (free_memory : Z) :
    M kernel_t (os_error_t * option system_stats_t) :=
  if stats =? NULL then ret (OS_ERROR_INVALID_PARAM, None)
  else
    let! state := os_enter_critical in
    let! running := count_pool (λ t, bool_decide (tcb_state t = TASK_STATE_READY)
      || bool_decide (tcb_state t = TASK_STATE_RUNNING)) 8 0 in
    let! k := gets id in
    let! idle := load (task_pool 0) in
    let idle_time := if 0 <? task_count k then tcb_run_time idle else 0 in
    let cpu := if 0 <? tick_count k
      then SFsub 24 128 (float_of_Z 100) (float_percent idle_time (tick_count k))
      else float_of_Z 0 in
    os_exit_critical state ;;;
    ret (OS_OK, Some (SystemStats (task_count k) running (context_switch_count k) (tick_count k)
      (tick_count k / TICK_RATE_HZ) idle_time cpu free_memory)).

Definition os_task_reset_stats (task : ptr) : M kernel_t os_error_t :=
  if task =? NULL then ret OS_ERROR_INVALID_PARAM
  else
    let! state := os_enter_critical in
    store task (λ t, t <| tcb_run_time := 0 |> <| tcb_context_switches := 0 |>
                       <| tcb_stack_high_water_mark := 0 |>) ;;;
    os_exit_critical state ;;;
    ret OS_OK.

(** The printing functions have no output yet; what is left is their use of the statistics. [buf]
    is the address of the local [stats] variable and [old_name] its indeterminate content. *)
Definition os_print_task_stats (task buf : ptr) (old_name : list Z) : M kernel_t unit :=
  if task =? NULL then ret tt
  else let! _ := os_task_get_stats task buf old_name in ret tt.

Fixpoint print_pool (buf : ptr) (old_name : list Z) (n : nat) (i : Z) : M kernel_t unit :=
  match n with
  | O => ret tt
  | S n =>
      let! t := load (task_pool i) in
      when (bool_decide (tcb_state t ≠ TASK_STATE_TERMINATED))
        (os_print_task_stats (task_pool i) buf old_name) ;;;
      print_pool buf old_name n (i + 1)
  end.
Definition os_print_all_stats (buf : ptr) (old_name : list Z) (free_memory : Z) : M kernel_t unit :=
  let! r := os_get_system_stats buf free_memory in
  if bool_decide (fst r ≠ OS_OK) then ret tt else print_pool buf old_name 8 0.

(** * Debug helpers *)
Definition os_error_to_string (error : Z) : string :=
  if error =? 0 then "Success"
  else if error =? -1 then "Error"
  else if error =? -2 then "Out of memory"
  else if error =? -3 then "Invalid parameter"
  else if error =? -4 then "Timeout"
  else if error =? -5 then "Permission denied"
  else if error =? -6 then "Not implemented"
  else if error =? -7 then "No resource"
  else if error =? -8 then "Not initialized"
  else "Unknown error".

Definition os_task_state_to_string (state : task_state_t) : string :=
  match state with
  | TASK_STATE_READY => "Ready"
  | TASK_STATE_RUNNING => "Running"
  | TASK_STATE_BLOCKED => "Blocked"
  | TASK_STATE_SUSPENDED => "Suspended"
  | TASK_STATE_TERMINATED => "Terminated"
  end.

Definition os_priority_name (priority : Z) : string :=
  if priority =? PRIORITY_CRITICAL then "Critical"
  else if priority <=? PRIORITY_HIGH then "High"
  else if priority <=? PRIORITY_NORMAL then "Normal"
  else if priority <=? PRIORITY_LOW then "Low"
  else if priority =? PRIORITY_IDLE then "Idle"
  else "Custom".

Definition os_get_version_string : string := "1.2.0".
