(* ===== verification/ReadyQueue.v ===== *)
(** ReadyQueue: the abstract specification of the scheduler's ready queues and the refinement of
    [scheduler_get_next_task], [scheduler_add_ready_task] and [scheduler_remove_task].

    The abstract state is one FIFO list of tasks per priority, [Z → list ptr]. [ready_inv k q] says
    that the linked lists, the heads in [ready_queue] and the two-level bitmap of [kernel_t]
    represent [q]. *)
From Stdlib Require Import ZArith Lia.
From stdpp Require Import base numbers gmap list.
From S2P Require Import Prelude Types Kernel.

(** * Linked lists of control blocks *)
Fixpoint lseg (m : gmap Z tcb_t) (p : ptr) (l : list ptr) : Prop :=
  match l with
  | [] => p = NULL
  | a :: l => p = a ∧ a ≠ NULL ∧ ∃ t, m !! a = Some t ∧ lseg m (tcb_next t) l
  end.

Section lseg.
Implicit Types m : gmap Z tcb_t.

Lemma lseg_det m l1 : ∀ p l2, lseg m p l1 → lseg m p l2 → l1 = l2.
Proof.
  induction l1 as [|a l1 IH]; intros p [|b l2]; simpl; [done| | |].
  - by intros -> (<- & ? & _).
  - by intros (-> & ? & _) ->.
  - intros (-> & Ha & t & Ht & H1) (-> & _ & t' & Ht' & H2). simplify_eq. f_equal. eauto.
Qed.

Lemma lseg_suffix m l1 : ∀ p a l2, lseg m p (l1 ++ a :: l2) → lseg m a (a :: l2).
Proof.
  induction l1 as [|b l1 IH]; intros p a l2; simpl.
  - intros (-> & ? & ?). repeat split; auto.
  - intros (_ & _ & t & _ & H). exact (IH _ _ _ H).
Qed.

Lemma lseg_nodup m p l : lseg m p l → NoDup l.
Proof.
  revert p. induction l as [|a l IH]; intros p Hl; [constructor|].
  pose proof Hl as (_ & _ & t & Ht & Htl). constructor; [|eauto].
  intros (l1 & l2 & ->)%list_elem_of_split.
  pose proof (lseg_suffix m (a :: l1) p a l2 Hl) as H1.
  assert (lseg m a (a :: l1 ++ a :: l2)) as H2.
  { destruct Hl as (-> & ? & ?). simpl. auto. }
  pose proof (lseg_det _ _ _ _ H1 H2) as Heq.
  apply (f_equal length) in Heq. simpl in Heq. rewrite length_app in Heq. simpl in Heq. lia.
Qed.

Lemma lseg_elem m p l a : lseg m p l → a ∈ l → a ≠ NULL ∧ is_Some (m !! a).
Proof.
  revert p. induction l as [|b l IH]; intros p; simpl; [intros _ []%not_elem_of_nil|].
  intros (-> & ? & t & Ht & Hl) [->|Hin]%elem_of_cons; eauto.
Qed.

Lemma lseg_length m p l : lseg m p l → (length l ≤ size m)%nat.
Proof.
  intros Hl. rewrite <-(size_dom m), <-(size_list_to_set (C := gset Z) l).
  - apply subseteq_size. intros a Ha%elem_of_list_to_set. apply elem_of_dom.
    by eapply lseg_elem.
  - by eapply lseg_nodup.
Qed.

(** A list only depends on the [next] fields of its own nodes. *)
Lemma lseg_frame m m' l : ∀ p,
  (∀ a, a ∈ l → tcb_next <$> m' !! a = tcb_next <$> m !! a) → lseg m p l → lseg m' p l.
Proof.
  induction l as [|a l IH]; intros p Hsame; simpl; [done|].
  intros (-> & Ha & t & Ht & Hl). split; [done|]. split; [done|].
  pose proof (Hsame a ltac:(set_solver)) as Hn. rewrite Ht in Hn. simpl in Hn.
  destruct (m' !! a) as [t'|] eqn:Ht'; simplify_eq/=. exists t'. split; [done|].
  match goal with H : tcb_next _ = tcb_next _ |- _ => rewrite H end.
  apply IH; [|done]. intros b Hb. apply Hsame. set_solver.
Qed.

Lemma lseg_insert_ne m p l a t : a ∉ l → lseg m p l → lseg (<[a := t]> m) p l.
Proof.
  intros Ha. apply lseg_frame. intros b Hb. rewrite lookup_insert_ne; [done|]. set_solver.
Qed.

(** Linking a new node behind the last one. *)
Lemma lseg_snoc m l : ∀ p z tz a ta,
  lseg m p (l ++ [z]) → m !! z = Some tz → a ∉ l ++ [z] → a ≠ NULL → tcb_next ta = NULL →
  lseg (<[a := ta]> (<[z := tz <| tcb_next := a |>]> m)) p ((l ++ [z]) ++ [a]).
Proof.
  induction l as [|b l IH]; intros p z tz a ta Hl Hz Ha Hn Hta; simpl in *.
  - destruct Hl as (-> & Hz0 & t & Ht & _). split; [done|]. split; [done|].
    exists (tz <| tcb_next := a |>). rewrite lookup_insert_ne, lookup_insert_eq by set_solver.
    split; [done|]. simpl. split; [done|]. split; [done|]. exists ta.
    by rewrite lookup_insert_eq.
  - pose proof (lseg_nodup _ _ (b :: l ++ [z]) Hl) as [Hnin _]%NoDup_cons.
    destruct Hl as (-> & Hb & t & Ht & Hl). split; [done|]. split; [done|].
    exists t. rewrite !lookup_insert_ne by set_solver. split; [done|].
    apply IH; auto. set_solver.
Qed.

(** Unlinking a node: [z] is its predecessor. *)
Lemma lseg_unlink m l : ∀ p z tz a ta l',
  lseg m p (l ++ z :: a :: l') → m !! z = Some tz → m !! a = Some ta →
  lseg (<[a := ta <| tcb_next := NULL |>]> (<[z := tz <| tcb_next := tcb_next ta |>]> m))
    p (l ++ z :: l').
Proof.
  induction l as [|b l IH]; intros p z tz a ta l' Hl Hz Ha; simpl in Hl |- *.
  - pose proof (lseg_nodup _ _ (z :: a :: l') Hl) as Hnd.
    destruct Hl as (-> & Hz0 & t & Ht & Htz & Ha0 & t' & Ht' & Hl).
    assert (t = tz) as -> by congruence. assert (t' = ta) as -> by congruence.
    split; [done|]. split; [done|].
    apply NoDup_cons in Hnd as [Hz1 [Ha1 _]%NoDup_cons].
    exists (tz <| tcb_next := tcb_next ta |>).
    rewrite lookup_insert_ne, lookup_insert_eq by set_solver. split; [done|]. simpl.
    apply lseg_insert_ne; [done|]. apply lseg_insert_ne; [set_solver|done].
  - pose proof (lseg_nodup _ _ (b :: l ++ z :: a :: l') Hl) as [Hb' _]%NoDup_cons.
    destruct Hl as (-> & Hb & t & Ht & Hl). split; [done|]. split; [done|].
    exists t. rewrite !lookup_insert_ne by set_solver. split; [done|]. by apply IH.
Qed.
End lseg.

(** * The representation of the abstract queues *)

(** The widths of the fields of a control block. *)
Record tcb_ok (t : tcb_t) : Prop := {
  tcb_ok_priority : 0 ≤ tcb_priority t < 256;
  tcb_ok_base : 0 ≤ tcb_base_priority t < 256;
  tcb_ok_slice : 0 ≤ tcb_time_slice t < 2 ^ 32
}.

Record ready_inv (k : kernel_t) (q : Z → list ptr) : Prop := {
  ri_rq_length : length (ready_queue k) = 256%nat;
  ri_bm_length : length (ready_bitmap k) = 8%nat;
  ri_queue : ∀ p, 0 ≤ p < 256 →
    ∃ h, ready_queue k !! Z.to_nat p = Some h ∧ lseg (tasks k) h (q p);
  ri_outside : ∀ p, ¬ (0 ≤ p < 256) → q p = [];
  ri_member : ∀ p a, a ∈ q p →
    ∃ t, tasks k !! a = Some t ∧ tcb_priority t = p ∧ tcb_state t = TASK_STATE_READY;
  ri_bitmap : ∀ w, 0 ≤ w < 8 →
    ∃ b, ready_bitmap k !! Z.to_nat w = Some b ∧ 0 ≤ b < 2 ^ 32 ∧
      ∀ i, 0 ≤ i < 32 → Z.testbit b i = bool_decide (q (w * 32 + i) ≠ []);
  ri_null : tasks k !! NULL = None;
  ri_idle : is_Some (tasks k !! task_pool 0);
  ri_tcb_ok : ∀ a t, tasks k !! a = Some t → tcb_ok t
}.

(** The abstract operations. *)
Definition qset (q : Z → list ptr) (p : Z) (l : list ptr) : Z → list ptr :=
  λ p', if decide (p' = p) then l else q p'.
Definition enqueue (q : Z → list ptr) (p : Z) (a : ptr) : Z → list ptr := qset q p (q p ++ [a]).
Definition unqueue (q : Z → list ptr) (p : Z) (a : ptr) : Z → list ptr :=
  qset q p (filter (λ b, b ≠ a) (q p)).
Definition queued (q : Z → list ptr) (a : ptr) : Prop := ∃ p, a ∈ q p.

Lemma qset_eq q p l : qset q p l p = l.
Proof. unfold qset. by rewrite decide_True. Qed.
Lemma qset_ne q p l p' : p' ≠ p → qset q p l p' = q p'.
Proof. intros. unfold qset. by rewrite decide_False. Qed.

Section primitives.
Implicit Types k : kernel_t.

Lemma wp_load p t Q k : tasks k !! p = Some t → Q t k → wp (load p) Q k.
Proof. intros Ht HQ. unfold wp, load. by rewrite Ht. Qed.
Lemma wp_store p t f Q k :
  tasks k !! p = Some t → Q tt (k <| tasks ::= <[p := f t]> |>) → wp (store p f) Q k.
Proof. intros Ht HQ. unfold wp, store. by rewrite Ht. Qed.
Lemma wp_rq_get i h Q k :
  0 ≤ i → ready_queue k !! Z.to_nat i = Some h → Q h k → wp (rq_get i) Q k.
Proof. intros ? Hh HQ. exact (wp_arr_get (ready_queue k) i h Q k ltac:(done) Hh HQ). Qed.
Lemma wp_bm_get w b Q k :
  0 ≤ w → ready_bitmap k !! Z.to_nat w = Some b → Q b k → wp (bm_get w) Q k.
Proof. intros ? Hb HQ. exact (wp_arr_get (ready_bitmap k) w b Q k ltac:(done) Hb HQ). Qed.
Lemma wp_rq_set i p Q k :
  wp (rq_set i p) Q k = Q tt (k <| ready_queue ::= λ q, arr_set q i p |>).
Proof. reflexivity. Qed.
Lemma wp_bm_set w b Q k :
  wp (bm_set w b) Q k = Q tt (k <| ready_bitmap ::= λ q, arr_set q w b |>).
Proof. reflexivity. Qed.
End primitives.
#[export] Hint Rewrite wp_rq_set wp_bm_set : wp.

(** One queue [p] changes to [l']: what has to be shown to re-establish the invariant. *)
Lemma ready_inv_update k q k' p l' h' b b' :
  ready_inv k q → 0 ≤ p < 256 →
  ready_queue k' = arr_set (ready_queue k) p h' →
  ready_bitmap k !! Z.to_nat (p / 32) = Some b →
  ready_bitmap k' = arr_set (ready_bitmap k) (p / 32) b' →
  0 ≤ b' < 2 ^ 32 →
  (∀ i, 0 ≤ i < 32 →
     Z.testbit b' i = if i =? p mod 32 then bool_decide (l' ≠ []) else Z.testbit b i) →
  lseg (tasks k') h' l' →
  (∀ a, a ∈ l' →
     ∃ t, tasks k' !! a = Some t ∧ tcb_priority t = p ∧ tcb_state t = TASK_STATE_READY) →
  (∀ p' a, p' ≠ p → a ∈ q p' → tasks k' !! a = tasks k !! a) →
  tasks k' !! NULL = None → is_Some (tasks k' !! task_pool 0) →
  (∀ a t, tasks k' !! a = Some t → tcb_ok t) →
  ready_inv k' (qset q p l').
Proof.
  intros Hinv Hp Hrq Hb Hbm Hb' Hbits Hl' Hmem Hframe Hnull Hidle Hok.
  split; auto.
  - rewrite Hrq, arr_set_length. apply Hinv.
  - rewrite Hbm, arr_set_length. apply Hinv.
  - intros p' Hp'. rewrite Hrq. destruct (decide (p' = p)) as [->|Hne].
    + rewrite qset_eq, arr_set_lookup_eq by (rewrite (ri_rq_length _ _ Hinv); lia). eauto.
    + rewrite qset_ne, arr_set_lookup_ne by lia.
      destruct (ri_queue _ _ Hinv p' Hp') as (h & Hh & Hl). exists h. split; [done|].
      eapply lseg_frame; [|done]. intros a Ha. f_equal. eauto.
  - intros p' Hp'. rewrite qset_ne by lia. by apply Hinv.
  - intros p' a. destruct (decide (p' = p)) as [->|Hne].
    + rewrite qset_eq. auto.
    + rewrite qset_ne by done. intros Ha. rewrite (Hframe p' a) by done. by apply Hinv.
  - intros w Hw. rewrite Hbm. pose proof (Z.mod_pos_bound p 32). pose proof (Z_div_mod_eq_full p 32).
    destruct (decide (w = p / 32)) as [->|Hne].
    + rewrite arr_set_lookup_eq by (rewrite (ri_bm_length _ _ Hinv); lia).
      exists b'. split; [done|]. split; [done|]. intros i Hi. rewrite Hbits by done.
      destruct (Z.eqb_spec i (p mod 32)) as [->|].
      * replace (p / 32 * 32 + p mod 32) with p by lia. by rewrite qset_eq.
      * rewrite qset_ne by lia.
        destruct (ri_bitmap _ _ Hinv (p / 32)) as (b0 & Hb0 & _ & Hbits0); [done|].
        assert (b0 = b) as -> by congruence. auto.
    + rewrite arr_set_lookup_ne by lia.
      destruct (ri_bitmap _ _ Hinv w Hw) as (b0 & Hb0 & Hr & Hbits0). exists b0.
      split; [done|]. split; [done|]. intros i Hi. rewrite qset_ne by lia. auto.
Qed.

(** Everything but the queues, the bitmap and the control blocks is unchanged. *)
Definition queues_only (k k' : kernel_t) : Prop :=
  k' = k <| ready_queue := ready_queue k' |> <| ready_bitmap := ready_bitmap k' |>
         <| tasks := tasks k' |>.

Lemma queues_only_refl k : queues_only k k.
Proof. by destruct k. Qed.

Lemma arr_set_id {A} (l : list A) i (x : A) : l !! Z.to_nat i = Some x → arr_set l i x = l.
Proof. intros. unfold arr_set. by apply list_insert_id. Qed.

Lemma bitmap_word k q p :
  ready_inv k q → 0 ≤ p < 256 →
  ∃ b, ready_bitmap k !! Z.to_nat (p / 32) = Some b ∧ 0 ≤ b < 2 ^ 32 ∧
    Z.testbit b (p mod 32) = bool_decide (q p ≠ []).
Proof.
  intros Hinv Hp. destruct (ri_bitmap _ _ Hinv (p / 32)) as (b & Hb & Hr & Hbits).
  { Z.div_mod_to_equations; lia. }
  exists b. split; [done|]. split; [done|]. rewrite Hbits by (apply Z.mod_pos_bound; lia).
  replace (p / 32 * 32 + p mod 32) with p by (Z.div_mod_to_equations; lia). done.
Qed.

Lemma tcb_ok_next t p : tcb_ok t → tcb_ok (t <| tcb_next := p |>).
Proof. intros []. split; done. Qed.
Lemma tcb_ok_state t s : tcb_ok t → tcb_ok (t <| tcb_state := s |>).
Proof. intros []. split; done. Qed.

Lemma insert_ok (m : gmap Z tcb_t) a t :
  (∀ b u, m !! b = Some u → tcb_ok u) → tcb_ok t →
  ∀ b u, <[a := t]> m !! b = Some u → tcb_ok u.
Proof. intros Hm Ht b u [[-> <-]|[_ Hu]]%lookup_insert_Some; eauto. Qed.

(** ** [scheduler_get_next_task] *)

Definition next_post (k : kernel_t) (q : Z → list ptr) (r : ptr) (k' : kernel_t) : Prop :=
  (∀ p, q p = []) ∧ r = task_pool 0 ∧ k' = k ∨
  ∃ p rest t, q p = r :: rest ∧ (∀ p', p' < p → q p' = []) ∧
    tasks k !! r = Some t ∧ tasks k' = <[r := t <| tcb_next := NULL |>]> (tasks k) ∧
    ready_inv k' (qset q p rest) ∧ queues_only k k'.

Lemma scheduler_pop_spec k q w b :
  ready_inv k q → 0 ≤ w < 8 → ready_bitmap k !! Z.to_nat w = Some b → b ≠ 0 →
  (∀ p, p < w * 32 → q p = []) →
  wp (scheduler_pop w b) (next_post k q) k.
Proof.
  intros Hinv Hw Hb Hb0 Hlow.
  destruct (ri_bitmap _ _ Hinv w Hw) as (b1 & Hb1 & Hr & Hbits).
  assert (b1 = b) as -> by congruence.
  destruct (ctz32_spec b) as (Hc & Hset & Hbelow); [lia|].
  set (c := ctz32 b) in *. set (i := w * 32 + c).
  assert (i / 32 = w ∧ i mod 32 = c) as [Hiw Hic] by (unfold i; Z.div_mod_to_equations; lia).
  assert (0 ≤ i < 256) as Hi by (unfold i; lia).
  assert (q i ≠ []) as Hne.
  { rewrite Hbits in Hset by done. by apply bool_decide_eq_true in Hset. }
  destruct (ri_queue _ _ Hinv i Hi) as (h & Hh & Hl).
  destruct (q i) as [|r rest] eqn:Hq; [done|].
  pose proof (lseg_nodup _ _ _ Hl) as [Hrn Hnd]%NoDup_cons.
  destruct Hl as (-> & Hr0 & t & Ht & Hl).
  unfold scheduler_pop. fold c. fold i. wp_step.
  eapply wp_rq_get; [lia|done|wp_step]. eapply wp_load; [done|wp_step].
  eapply wp_store; [exact Ht|wp_step]. eapply wp_rq_get; [lia| |wp_step].
  { simpl. apply arr_set_lookup_eq. rewrite (ri_rq_length _ _ Hinv). lia. }
  assert (∀ b' k', ready_queue k' = arr_set (ready_queue k) i (tcb_next t) →
    ready_bitmap k' = arr_set (ready_bitmap k) w b' →
    tasks k' = <[r := t <| tcb_next := NULL |>]> (tasks k) → 0 ≤ b' < 2 ^ 32 →
    (∀ j, 0 ≤ j < 32 → Z.testbit b' j = if j =? c then bool_decide (rest ≠ []) else Z.testbit b j) →
    queues_only k k' → next_post k q r k') as Hend.
  { intros b' k' Hrq Hbm Htasks Hb' Hbits' Honly. right. exists i, rest, t.
    split_and!; auto.
    - intros p' Hp'. destruct (decide (p' < w * 32)); [auto|].
      specialize (Hbelow (p' - w * 32) ltac:(lia)). rewrite Hbits in Hbelow by lia.
      apply bool_decide_eq_false in Hbelow. replace (w * 32 + (p' - w * 32)) with p' in Hbelow by lia.
      destruct (q p'); [done|]. by destruct Hbelow.
    - assert (∀ p' a, p' ≠ i → a ∈ q p' → a ≠ r) as Hdisj.
      { intros p' a Hp' Ha ->. destruct (ri_member _ _ Hinv _ _ Ha) as (u & Hu & <- & _).
        destruct (ri_member _ _ Hinv i r) as (u' & Hu' & <- & _); [rewrite Hq; set_solver|].
        congruence. }
      eapply ready_inv_update with (h' := tcb_next t) (b := b) (b' := b'); rewrite ?Hiw, ?Hic; eauto;
        rewrite Htasks.
      + by apply lseg_insert_ne.
      + intros a Ha. rewrite lookup_insert_ne by set_solver. apply Hinv. rewrite Hq. set_solver.
      + intros p' a Hp' Ha. rewrite lookup_insert_ne; [done|]. intros <-. by eapply Hdisj.
      + rewrite lookup_insert_ne by done. apply Hinv.
      + apply lookup_insert_is_Some'. right. apply Hinv.
      + apply insert_ok; [apply Hinv|]. apply tcb_ok_next. by eapply Hinv. }
  destruct (Z.eqb_spec (tcb_next t) NULL) as [Hn|Hn]; wp_step.
  - eapply wp_bm_get; [lia|exact Hb|wp_step].
    assert (rest = []) as ->. { destruct rest; [done|]. destruct Hl as (? & ? & _). congruence. }
    eapply Hend; try reflexivity; [apply land_range; lia|].
    intros j Hj. rewrite clear_bit_spec by lia. destruct (j =? c); simpl; [by rewrite andb_false_r|].
    by rewrite andb_true_r.
  - assert (rest ≠ []) as Hrest. { intros ->. done. }
    eapply (Hend b); try reflexivity; [symmetry; by apply arr_set_id|done|].
    intros j Hj. destruct (Z.eqb_spec j c) as [->|]; [|done]. by rewrite bool_decide_true.
Qed.

Lemma scheduler_scan_spec k q n : ∀ w,
  ready_inv k q → 0 ≤ w → w + Z.of_nat n = 8 → (∀ p, p < w * 32 → q p = []) →
  wp (scheduler_scan n w) (next_post k q) k.
Proof.
  induction n as [|n IH]; intros w Hinv Hw Hn Hlow; simpl; wp_step.
  - left. split; [|done]. intros p. destruct (decide (0 ≤ p < 256)); [|by apply Hinv].
    apply Hlow. lia.
  - destruct (ri_bitmap _ _ Hinv w) as (b & Hb & Hr & Hbits); [lia|].
    eapply wp_bm_get; [lia|done|wp_step]. destruct (Z.eqb_spec b 0) as [->|Hb0].
    + apply IH; [done|lia|lia|]. intros p Hp. destruct (decide (p < w * 32)); [auto|].
      specialize (Hbits (p - w * 32) ltac:(lia)). rewrite Z.bits_0 in Hbits.
      symmetry in Hbits. apply bool_decide_eq_false in Hbits.
      replace (w * 32 + (p - w * 32)) with p in Hbits by lia.
      destruct (q p); [done|]. by destruct Hbits.
    + apply scheduler_pop_spec; auto. lia.
Qed.

Lemma scheduler_get_next_task_spec k q :
  ready_inv k q → wp scheduler_get_next_task (next_post k q) k.
Proof.
  intros Hinv. apply scheduler_scan_spec; [done|lia|lia|].
  intros p Hp. apply Hinv. lia.
Qed.

(** ** [scheduler_add_ready_task] *)

(** Two memories that only differ in the [next] links. *)
Definition relinked (m m' : gmap Z tcb_t) : Prop :=
  ∀ b, (λ u, u <| tcb_next := NULL |>) <$> m' !! b = (λ u, u <| tcb_next := NULL |>) <$> m !! b.

#[export] Instance relinked_equiv : Equivalence relinked.
Proof.
  split.
  - intros m b. done.
  - intros m m' H b. by rewrite H.
  - intros m1 m2 m3 H1 H2 b. by rewrite H2, H1.
Qed.
#[export] Instance relinked_insert a t : Proper (relinked ==> relinked) (insert a t).
Proof.
  intros m m' H b. destruct (decide (a = b)) as [->|].
  - by rewrite !lookup_insert_eq.
  - by rewrite !lookup_insert_ne.
Qed.
Lemma relinked_set_next m a t x :
  m !! a = Some t → relinked m (<[a := t <| tcb_next := x |>]> m).
Proof.
  intros Ht b. destruct (decide (a = b)) as [<-|].
  - by rewrite lookup_insert_eq, Ht.
  - by rewrite lookup_insert_ne.
Qed.
Lemma relinked_lookup m m' b u :
  relinked m m' → m !! b = Some u → ∃ x, m' !! b = Some (u <| tcb_next := x |>).
Proof.
  intros H Hu. specialize (H b). rewrite Hu in H. destruct (m' !! b) as [u'|]; [|done].
  exists (tcb_next u'). destruct u, u'. simpl in H |- *. injection H. intros. by subst.
Qed.

Lemma find_tail_spec k l : ∀ fuel h z,
  lseg (tasks k) h (l ++ [z]) → (length l < fuel)%nat →
  wp (find_tail fuel h) (λ r k', r = z ∧ k' = k) k.
Proof.
  induction l as [|a l IH]; intros [|fuel] h z Hl Hf; simpl in *; try lia; wp_step.
  - destruct Hl as (-> & _ & t & Ht & Hn). eapply wp_load; [done|wp_step]. by rewrite Hn.
  - destruct Hl as (-> & Ha & t & Ht & Hl). eapply wp_load; [done|wp_step].
    assert (tcb_next t ≠ NULL) as Hn.
    { destruct l; simpl in Hl; destruct Hl as (Hz & ? & _); congruence. }
    destruct (Z.eqb_spec (tcb_next t) NULL); [done|]. apply IH; [done|lia].
Qed.

Lemma ready_of_ready t : tcb_state t = TASK_STATE_READY → t <| tcb_state := TASK_STATE_READY |> = t.
Proof. destruct t; simpl. by intros ->. Qed.

(** Writing a control block that is in no queue keeps the representation. *)
Lemma ready_inv_store k q a t :
  ready_inv k q → ¬ queued q a → is_Some (tasks k !! a) → tcb_ok t →
  ready_inv (k <| tasks ::= <[a := t]> |>) q.
Proof.
  intros Hinv Hq Ha Ht.
  assert (∀ p b, b ∈ q p → b ≠ a) as Hne by (intros p b Hb ->; apply Hq; by exists p).
  split; simpl; try apply Hinv.
  - intros p Hp. destruct (ri_queue _ _ Hinv p Hp) as (h & Hh & Hl). exists h. split; [done|].
    apply lseg_insert_ne; [|done]. intros ?. by eapply Hne.
  - intros p b Hb. rewrite lookup_insert_ne by (intros <-; by eapply Hne). by apply Hinv.
  - rewrite lookup_insert_ne; [apply Hinv|]. intros ->. rewrite (ri_null _ _ Hinv) in Ha.
    by destruct Ha.
  - apply lookup_insert_is_Some'. right. apply Hinv.
  - apply insert_ok; [apply Hinv|done].
Qed.

Definition add_post (k : kernel_t) (q : Z → list ptr) (a : ptr) (t : tcb_t) (k' : kernel_t) : Prop :=
  ready_inv k' (enqueue q (tcb_priority t) a) ∧ queues_only k k' ∧
  relinked (<[a := t <| tcb_state := TASK_STATE_READY |>]> (tasks k)) (tasks k').

(** The memory and head of queue after [a] was linked in. *)
Lemma queue_append_spec k q a t :
  ready_inv k q → tasks k !! a = Some t → ¬ queued q a → tcb_state t = TASK_STATE_READY →
  wp (queue_append (tcb_priority t) a)
    (λ _ k', ∃ h' m', k' = k <| ready_queue ::= λ l, arr_set l (tcb_priority t) h' |>
                             <| tasks := <[a := t <| tcb_next := NULL |>]> m' |> ∧
       relinked (tasks k) m' ∧
       lseg (tasks k') h' (q (tcb_priority t) ++ [a]) ∧
       (∀ p' b, p' ≠ tcb_priority t → b ∈ q p' → m' !! b = tasks k !! b) ∧
       m' !! NULL = None) k.
Proof.
  intros Hinv Ht Hq Hready. unfold queue_append. set (p := tcb_priority t).
  assert (a ≠ NULL) as Ha0. { intros ->. by rewrite (ri_null _ _ Hinv) in Ht. }
  assert (0 ≤ p < 256) as Hp by apply (ri_tcb_ok _ _ Hinv _ _ Ht).
  destruct (ri_queue _ _ Hinv p Hp) as (h & Hh & Hl). wp_step.
  eapply wp_rq_get; [lia|exact Hh|wp_step]. destruct (Z.eqb_spec h NULL) as [->|Hh0]; wp_step.
  - assert (q p = []) as -> by (destruct (q p); [done|]; by destruct Hl as (<- & ? & _)).
    eapply wp_store; [exact Ht|]. exists a, (tasks k). split_and!; try done.
    + simpl. split_and!; try done. eexists. by rewrite lookup_insert_eq.
    + apply Hinv.
  - destruct (exists_last (l := q p)) as (l & z & Hlz). { intros E. by rewrite E in Hl. }
    rewrite Hlz in Hl |- *. eapply wp_mono.
    { apply (find_tail_spec k l); [done|]. pose proof (lseg_length _ _ _ Hl) as Hlen.
      rewrite length_app in Hlen. unfold list_fuel. simpl in Hlen. lia. }
    intros r k' [-> ->].
    assert (z ∈ q p) as Hzq by (rewrite Hlz; set_solver).
    assert (z ≠ a) as Hza. { intros ->. apply Hq. by exists p. }
    destruct (ri_member _ _ Hinv p z Hzq) as (tz & Htz & Hpz & _).
    eapply wp_store; [exact Htz|]. eapply wp_store; [simpl; by rewrite lookup_insert_ne|].
    exists h, (<[z := tz <| tcb_next := a |>]> (tasks k)). split_and!.
    + simpl. by rewrite (arr_set_id _ _ h) by done.
    + by apply relinked_set_next.
    + apply lseg_snoc; auto. rewrite <-Hlz. intros ?. apply Hq. by exists p.
    + intros p' b Hp' Hb. rewrite lookup_insert_ne; [done|]. intros <-.
      destruct (ri_member _ _ Hinv p' z Hb) as (u & Hu & <- & _). congruence.
    + rewrite lookup_insert_ne; [apply Hinv|]. intros ->. by rewrite (ri_null _ _ Hinv) in Htz.
Qed.

Lemma add_ready_of_ready k q a t :
  ready_inv k q → tasks k !! a = Some t → ¬ queued q a → tcb_state t = TASK_STATE_READY →
  wp (scheduler_add_ready_task a) (λ _ k', add_post k q a t k') k.
Proof.
  intros Hinv Ht Hq Hready. set (p := tcb_priority t).
  assert (0 ≤ p < 256) as Hp by apply (ri_tcb_ok _ _ Hinv _ _ Ht).
  unfold scheduler_add_ready_task. wp_step. eapply wp_load; [exact Ht|wp_step].
  rewrite bool_decide_false by auto.
  eapply wp_mono; [by apply queue_append_spec|].
  intros _ k3 (h' & m' & -> & Hrel & Hl & Hframe & Hnull). wp_step.
  destruct (bitmap_word k q p Hinv Hp) as (b & Hb & Hbr & Hbit).
  eapply wp_bm_get; [Z.div_mod_to_equations; lia|exact Hb|wp_step]. unfold add_post.
  rewrite ready_of_ready by done. split_and!; [|done|].
  - assert (∀ b, b ∈ q p → b ≠ a) as Hne by (intros ? Hb' ->; apply Hq; by exists p).
    eapply ready_inv_update with (h' := h') (b := b); try reflexivity; simpl; auto.
    + apply lor_range; [lia|done|apply u32_range].
    + intros i Hi. rewrite set_bit_spec by (try apply Z.mod_pos_bound; lia). fold p.
      destruct (i =? p mod 32); [|by rewrite orb_false_r]. rewrite orb_true_r, bool_decide_true; [done|].
      by destruct (q p).
    + intros c [Hc| ->%list_elem_of_singleton]%elem_of_app.
      * rewrite lookup_insert_ne by (symmetry; auto).
        destruct (ri_member _ _ Hinv p c Hc) as (u & Hu & ? & ?).
        destruct (relinked_lookup _ _ _ _ Hrel Hu) as (x & Hx). eauto.
      * rewrite lookup_insert_eq. eauto.
    + intros p' c Hp' Hc. rewrite lookup_insert_ne; [eauto|]. intros ->. apply Hq. by exists p'.
    + rewrite lookup_insert_ne; [done|]. intros ->. by rewrite (ri_null _ _ Hinv) in Ht.
    + apply lookup_insert_is_Some'. right. destruct (ri_idle _ _ Hinv) as [u Hu].
      destruct (relinked_lookup _ _ _ _ Hrel Hu) as (x & ->). eauto.
    + apply insert_ok; [|apply tcb_ok_next; by eapply Hinv].
      intros c u Hu. symmetry in Hrel. destruct (relinked_lookup _ _ _ _ Hrel Hu) as (x & Hx).
      eapply ri_tcb_ok in Hx; [|done]. destruct Hx as []. by split.
  - simpl. rewrite (insert_id _ _ _ Ht). rewrite (relinked_set_next (tasks k) a t NULL) by done.
    by rewrite Hrel.
Qed.

Lemma scheduler_add_ready_task_spec k q a t :
  ready_inv k q → tasks k !! a = Some t → ¬ queued q a →
  wp (scheduler_add_ready_task a) (λ _ k', add_post k q a t k') k.
Proof.
  intros Hinv Ht Hq. destruct (decide (tcb_state t = TASK_STATE_READY)) as [Hs|Hs].
  { by apply add_ready_of_ready. }
  set (t' := t <| tcb_state := TASK_STATE_READY |>).
  set (k1 := k <| tasks ::= <[a := t']> |>).
  assert (tasks k1 !! a = Some t') as Ht' by apply lookup_insert_eq.
  assert (wp (scheduler_add_ready_task a) (λ _ k', add_post k1 q a t' k') k1) as Hwp.
  { apply add_ready_of_ready; auto. apply ready_inv_store; auto. apply tcb_ok_state. by eapply Hinv. }
  unfold scheduler_add_ready_task in Hwp |- *. revert Hwp. wp_step. intros Hwp.
  eapply wp_load; [exact Ht|wp_step]. rewrite bool_decide_true by done.
  eapply wp_store; [exact Ht|wp_step]. fold t'. fold k1. revert Hwp. unfold wp at 1, load.
  rewrite Ht'. rewrite wp_bind, wp_when, bool_decide_false by auto. intros Hwp. rewrite wp_bind in Hwp.
  eapply wp_mono; [exact Hwp|]. intros ? k2 Hk2. eapply wp_mono; [exact Hk2|].
  intros _ k' (Hi & Ho & Hrel). unfold add_post. split_and!; [done| |].
  - unfold queues_only in *. rewrite Ho. done.
  - simpl in Hrel. by rewrite insert_insert_eq in Hrel.
Qed.

(** ** [scheduler_remove_task] *)

Definition remove_post (k : kernel_t) (q : Z → list ptr) (a : ptr) (p : Z) (k' : kernel_t) : Prop :=
  ready_inv k' (unqueue q p a) ∧ queues_only k k' ∧ relinked (tasks k) (tasks k').

Lemma filter_ne_middle (a : ptr) l1 l2 :
  NoDup (l1 ++ a :: l2) → filter (λ b, b ≠ a) (l1 ++ a :: l2) = l1 ++ l2.
Proof.
  intros (_ & Hd & [Ha _]%NoDup_cons)%NoDup_app.
  rewrite filter_app, filter_cons_False by (intros ?; done).
  rewrite !filter_ne_notin; [done|done|]. intros ?. by eapply Hd; [|left].
Qed.

Lemma ready_inv_ext k q q' : (∀ p, q p = q' p) → ready_inv k q → ready_inv k q'.
Proof.
  intros He Hinv. split; try apply Hinv; intros; rewrite <-?He in *; try by apply Hinv.
  destruct (ri_bitmap _ _ Hinv w) as (b & Hb & Hr & Hbits); [done|].
  exists b. split_and!; try done; try lia. intros i Hi. by rewrite <-He, Hbits.
Qed.

Lemma relinked_ok m m' :
  relinked m m' → (∀ a t, m !! a = Some t → tcb_ok t) → ∀ a t, m' !! a = Some t → tcb_ok t.
Proof.
  intros Hrel Hok a t Ht. symmetry in Hrel. destruct (relinked_lookup _ _ _ _ Hrel Ht) as (x & Hx).
  destruct (Hok _ _ Hx). by split.
Qed.
Lemma relinked_is_Some m m' a : relinked m m' → is_Some (m !! a) → is_Some (m' !! a).
Proof. intros Hrel [t Ht]. destruct (relinked_lookup _ _ _ _ Hrel Ht) as (x & ->). eauto. Qed.
Lemma relinked_None m m' a : relinked m m' → m !! a = None → m' !! a = None.
Proof. intros Hrel Ht. specialize (Hrel a). rewrite Ht in Hrel. by destruct (m' !! a). Qed.

(** After the node was unlinked: the bitmap is brought in line with the queue. *)
Lemma remove_finish k q a p l1 l2 h' m' :
  ready_inv k q → 0 ≤ p < 256 → q p = l1 ++ a :: l2 → NoDup (q p) →
  lseg m' h' (l1 ++ l2) → relinked (tasks k) m' →
  (∀ p' b, p' ≠ p → b ∈ q p' → m' !! b = tasks k !! b) →
  wp (let! head := rq_get p in
      when (head =? NULL) (
        let! b := bm_get (p / 32) in
        bm_set (p / 32) (Z.land b (lnot32 (Z.shiftl 1 (p mod 32))))))
    (λ _ k', remove_post k q a p k')
    (k <| ready_queue ::= λ l, arr_set l p h' |> <| tasks := m' |>).
Proof.
  intros Hinv Hp Hq Hnd Hl Hrel Hframe.
  assert (filter (λ b, b ≠ a) (q p) = l1 ++ l2) as Hf by (rewrite Hq in Hnd |- *; by apply filter_ne_middle).
  destruct (bitmap_word k q p Hinv Hp) as (b & Hb & Hbr & Hbit).
  pose proof (Z.mod_pos_bound p 32 ltac:(lia)).
  assert (∀ k' b', ready_queue k' = arr_set (ready_queue k) p h' →
    ready_bitmap k' = arr_set (ready_bitmap k) (p / 32) b' → tasks k' = m' → 0 ≤ b' < 2 ^ 32 →
    (∀ i, 0 ≤ i < 32 →
      Z.testbit b' i = if i =? p mod 32 then bool_decide (l1 ++ l2 ≠ []) else Z.testbit b i) →
    ready_inv k' (unqueue q p a)) as Hend.
  { intros k' b' Hrq Hbm <- Hb' Hbits. unfold unqueue. rewrite Hf.
    eapply ready_inv_update; eauto.
    - intros c Hc. destruct (ri_member _ _ Hinv p c) as (u & Hu & ? & ?); [rewrite Hq; set_solver|].
      destruct (relinked_lookup _ _ _ _ Hrel Hu) as (x & Hx). eauto.
    - eapply relinked_None; [done|]. apply Hinv.
    - eapply relinked_is_Some; [done|]. apply Hinv.
    - eapply relinked_ok; [done|]. apply Hinv. }
  wp_step. eapply wp_rq_get; [lia| |wp_step].
  { simpl. apply arr_set_lookup_eq. rewrite (ri_rq_length _ _ Hinv). lia. }
  destruct (Z.eqb_spec h' NULL) as [->|Hh0]; wp_step.
  - eapply wp_bm_get; [Z.div_mod_to_equations; lia|exact Hb|wp_step].
    assert (l1 ++ l2 = []) as E. { destruct (l1 ++ l2); [done|]. by destruct Hl as (<- & ? & _). }
    split_and!; [|done|done]. eapply Hend; try reflexivity; [apply land_range; lia|].
    intros i Hi. rewrite clear_bit_spec by lia. rewrite E.
    destruct (i =? p mod 32); [by rewrite andb_false_r|by rewrite andb_true_r].
  - split_and!; [|done|done]. eapply (Hend _ b); try reflexivity; [symmetry; by apply arr_set_id|done|].
    intros i Hi. destruct (Z.eqb_spec i (p mod 32)) as [->|]; [|done].
    rewrite Hbit, !bool_decide_true; [done| |].
    + intros E. by rewrite E in Hl.
    + rewrite Hq. by destruct l1.
Qed.

Lemma remove_loop_spec k q a p : ready_inv k q → 0 ≤ p < 256 → NoDup (q p) →
  ∀ l2 fuel l1 prev cur,
  q p = l1 ++ l2 → a ∉ l1 → lseg (tasks k) cur l2 →
  (prev = NULL ∧ l1 = [] ∨ prev ≠ NULL ∧ ∃ l0, l1 = l0 ++ [prev]) → (length l2 < fuel)%nat →
  wp (remove_loop fuel a prev cur p) (λ _ k', remove_post k q a p k') k.
Proof.
  intros Hinv Hp Hnd.
  destruct (ri_queue _ _ Hinv p Hp) as (h & Hh & Hhl).
  induction l2 as [|b l2 IH]; intros [|fuel] l1 prev cur Hq Ha Hl Hprev Hf; simpl in Hf; try lia; simpl.
  - simpl in Hl. subst cur. simpl. wp_step. split_and!; [|apply queues_only_refl|done].
    eapply ready_inv_ext; [|exact Hinv]. intros p'. unfold unqueue, qset.
    case_decide; [|done]. subst p'. rewrite filter_ne_notin; [done|]. rewrite Hq. set_solver.
  - destruct Hl as (-> & Hb0 & tb & Htb & Hl).
    destruct (Z.eqb_spec b NULL); [done|]. wp_step. eapply wp_load; [exact Htb|].
    destruct (Z.eqb_spec b a) as [->|Hne].
    + assert (∀ p' c, p' ≠ p → c ∈ q p' → c ∉ q p) as Hdisj.
      { intros p' c Hp' Hc Hc'. destruct (ri_member _ _ Hinv _ _ Hc) as (u & Hu & <- & _).
        destruct (ri_member _ _ Hinv _ _ Hc') as (u' & Hu' & <- & _). congruence. }
      assert (∀ p' c d, p' ≠ p → c ∈ q p' → d ∈ q p → d ≠ c) as Hdisj'
        by (intros ? ? ? ? ? ? ->; by eapply Hdisj).
      assert (a ∈ q p) as Haq by (rewrite Hq; set_solver).
      destruct Hprev as [[-> ->]|(Hp0 & l0 & ->)].
      * simpl. wp_step. eapply wp_store; [exact Htb|].
        apply (remove_finish k q a p [] l2 (tcb_next tb)); auto.
        -- apply lseg_insert_ne; [|done]. rewrite Hq in Hnd. by apply NoDup_cons in Hnd as [? _].
        -- by apply relinked_set_next.
        -- intros p' c Hp' Hc. rewrite lookup_insert_ne; eauto.
      * destruct (Z.eqb_spec prev NULL); [done|].
        assert (prev ∈ q p) as Hpq by (rewrite Hq; set_solver).
        destruct (ri_member _ _ Hinv _ _ Hpq) as (tp & Htp & _).
        assert (prev ≠ a) as Hpa by set_solver.
        wp_step. eapply wp_store; [exact Htp|wp_step].
        eapply wp_store; [simpl; by rewrite lookup_insert_ne|].
        replace (_ <| tasks ::= _ |> <| tasks ::= _ |>) with
          (k <| ready_queue ::= λ l, arr_set l p h |> <| tasks :=
             <[a := tb <| tcb_next := NULL |>]> (<[prev := tp <| tcb_next := tcb_next tb |>]> (tasks k)) |>)
          by (simpl; by rewrite arr_set_id).
        apply (remove_finish k q a p (l0 ++ [prev]) l2 h); auto.
        -- rewrite <-app_assoc. apply lseg_unlink; auto. rewrite Hq, <-app_assoc in Hhl. done.
        -- rewrite (relinked_set_next (tasks k) prev tp (tcb_next tb) Htp) at 1.
           apply relinked_set_next. by rewrite lookup_insert_ne.
        -- intros p' c Hp' Hc. rewrite !lookup_insert_ne; eauto.
    + apply (IH fuel (l1 ++ [b])); auto; [by rewrite <-app_assoc|set_solver|right; eauto|lia].
Qed.

Lemma scheduler_remove_task_spec k q a t :
  ready_inv k q → tasks k !! a = Some t →
  wp (scheduler_remove_task a) (λ _ k', remove_post k q a (tcb_priority t) k') k.
Proof.
  intros Hinv Ht. assert (0 ≤ tcb_priority t < 256) as Hp by apply (ri_tcb_ok _ _ Hinv _ _ Ht).
  destruct (ri_queue _ _ Hinv _ Hp) as (h & Hh & Hl). unfold scheduler_remove_task. wp_step.
  eapply wp_load; [exact Ht|wp_step]. eapply wp_rq_get; [lia|exact Hh|wp_step].
  apply (remove_loop_spec k q a _ Hinv Hp (lseg_nodup _ _ _ Hl)) with (l2 := q (tcb_priority t)) (l1 := []);
    auto; [set_solver|]. pose proof (lseg_length _ _ _ Hl). unfold list_fuel. lia.
Qed.
