(* ===== verification/Scheduler.v ===== *)
(** Scheduler: the invariant of the kernel and the theorems on [os_scheduler], [os_task_yield],
    [os_start] and the task operations of [src/kernel.c], proved against the abstract queues of
    [ReadyQueue]. *)
From Stdlib Require Import ZArith Lia.
From stdpp Require Import base numbers gmap list.
From S2P Require Import Prelude Types Kernel ReadyQueue.

(** * Frames *)

(** [same_on P f m m']: the view [f] of every control block at an address in [P] is unchanged. *)
Definition same_on {A} (P : ptr → Prop) (f : tcb_t → A) (m m' : gmap Z tcb_t) : Prop :=
  ∀ a, P a → f <$> m' !! a = f <$> m !! a.

(** The fields the scheduler never writes. *)
Definition identity (t : tcb_t) : Z * Z * list Z * Z * Z * Z :=
  (tcb_priority t, tcb_base_priority t, tcb_name t, tcb_entry_point t, tcb_param t,
   tcb_stack_high_water_mark t).

Definition all_tasks (_ : ptr) : Prop := True.

Section same_on.
Context {A : Type} (P : ptr → Prop) (f : tcb_t → A).
Implicit Types m : gmap Z tcb_t.

Lemma same_on_refl m : same_on P f m m.
Proof. by intros a _. Qed.
Lemma same_on_trans m1 m2 m3 : same_on P f m1 m2 → same_on P f m2 m3 → same_on P f m1 m3.
Proof. intros H1 H2 a Ha. by rewrite H2, H1. Qed.
Lemma same_on_insert m m' a t u :
  same_on P f m m' → m' !! a = Some t → f u = f t → same_on P f m (<[a := u]> m').
Proof.
  intros Hs Ht Hf b Hb. rewrite <-Hs by done. destruct (decide (a = b)) as [->|].
  - rewrite lookup_insert_eq, Ht. simpl. by rewrite Hf.
  - by rewrite lookup_insert_ne.
Qed.
Lemma same_on_insert_out m m' a u :
  same_on P f m m' → ¬ P a → same_on P f m (<[a := u]> m').
Proof.
  intros Hs Ha b Hb. rewrite <-Hs by done. rewrite lookup_insert_ne; [done|]. by intros <-.
Qed.
Lemma same_on_relinked m m' :
  (∀ t x, f (t <| tcb_next := x |>) = f t) → relinked m m' → same_on P f m m'.
Proof.
  intros Hf Hrel a _. specialize (Hrel a).
  destruct (m !! a) as [t|], (m' !! a) as [t'|]; simpl in *; try done.
  injection Hrel as Hrel. f_equal. rewrite <-(Hf t NULL), <-(Hf t' NULL). f_equal.
  destruct t, t'. simpl in *. congruence.
Qed.
Lemma same_on_lookup m m' a t :
  same_on P f m m' → P a → m !! a = Some t → ∃ t', m' !! a = Some t' ∧ f t' = f t.
Proof.
  intros Hs Ha Ht. specialize (Hs a Ha). rewrite Ht in Hs.
  destruct (m' !! a) as [t'|]; simplify_eq/=. eauto.
Qed.
End same_on.
Create HintDb frame.
#[export] Hint Resolve same_on_refl : frame.

Lemma same_identity_dom m m' : same_on all_tasks identity m m' → dom m' = dom m.
Proof.
  intros Hs. apply set_eq. intros a. rewrite !elem_of_dom. specialize (Hs a I).
  destruct (m !! a), (m' !! a); simpl in Hs; try done; split; eauto.
Qed.

(** Writing a control block without changing its link, priority or state. *)
Lemma ready_inv_touch k q a t u :
  ready_inv k q → tasks k !! a = Some t →
  tcb_next u = tcb_next t → tcb_priority u = tcb_priority t → tcb_state u = tcb_state t → tcb_ok u →
  ready_inv (k <| tasks ::= <[a := u]> |>) q.
Proof.
  intros Hinv Ht Hn Hp Hs Hok. split; simpl; try apply Hinv.
  - intros p Hpr. destruct (ri_queue _ _ Hinv p Hpr) as (h & Hh & Hl). exists h. split; [done|].
    eapply lseg_frame; [|done]. intros b _. destruct (decide (a = b)) as [<-|].
    + rewrite lookup_insert_eq, Ht. simpl. by rewrite Hn.
    + by rewrite lookup_insert_ne.
  - intros p b Hb. destruct (ri_member _ _ Hinv p b Hb) as (v & Hv & ? & ?).
    destruct (decide (a = b)) as [<-|].
    + exists u. rewrite lookup_insert_eq. split_and!; congruence.
    + exists v. by rewrite lookup_insert_ne.
  - rewrite lookup_insert_ne; [apply Hinv|]. intros ->. by rewrite (ri_null _ _ Hinv) in Ht.
  - apply lookup_insert_is_Some'. right. apply Hinv.
  - apply insert_ok; [apply Hinv|done].
Qed.

(** The representation does not depend on the other fields of the kernel. *)
Lemma ready_inv_fields k k' q :
  tasks k' = tasks k → ready_queue k' = ready_queue k → ready_bitmap k' = ready_bitmap k →
  ready_inv k q → ready_inv k' q.
Proof. intros Ht Hq Hb Hinv. split; rewrite ?Ht, ?Hq, ?Hb; apply Hinv. Qed.

Lemma queued_ready k q a t :
  ready_inv k q → tasks k !! a = Some t → queued q a → tcb_state t = TASK_STATE_READY.
Proof.
  intros Hinv Ht (p & Hp). destruct (ri_member _ _ Hinv p a Hp) as (u & Hu & _ & Hs). congruence.
Qed.

(** * The choice of the next task *)

(** [pick q a q']: [a] is the first task of the non-empty queue with the lowest priority number and
    [q'] is [q] without it; when no task is ready, [a] is the idle task. *)
Definition pick (q : Z → list ptr) (a : ptr) (q' : Z → list ptr) : Prop :=
  (∀ p, q p = []) ∧ a = task_pool 0 ∧ q' = q ∨
  ∃ p rest, q p = a :: rest ∧ (∀ p', p' < p → q p' = []) ∧ q' = qset q p rest.

(** What is left of the scheduler once the ready task was chosen. *)
Lemma pick_not_queued k q a q' : ready_inv k q → pick q a q' → ¬ queued q' a.
Proof.
  intros Hinv [(Hq & -> & ->)|(p & rest & Hq & _ & ->)] (p' & Hp').
  - rewrite Hq in Hp'. by apply not_elem_of_nil in Hp'.
  - unfold qset in Hp'. case_decide as E.
    + destruct (decide (0 ≤ p < 256)) as [Hp|Hp]; [|rewrite (ri_outside _ _ Hinv) in Hq; done].
      destruct (ri_queue _ _ Hinv p Hp) as (h & _ & Hl). rewrite Hq in Hl.
      apply lseg_nodup in Hl. by apply NoDup_cons in Hl as [? _].
    + destruct (ri_member _ _ Hinv p' a Hp') as (u & Hu & <- & _).
      destruct (ri_member _ _ Hinv p a) as (v & Hv & <- & _); [rewrite Hq; set_solver|]. congruence.
Qed.

Lemma get_next_pick k q :
  ready_inv k q →
  wp scheduler_get_next_task (λ a k', ∃ q', pick q a q' ∧ ready_inv k' q' ∧ queues_only k k' ∧
    is_Some (tasks k' !! a) ∧ relinked (tasks k) (tasks k')) k.
Proof.
  intros Hinv. eapply wp_mono; [by apply scheduler_get_next_task_spec|].
  intros a k' [(Hq & -> & ->)|(p & rest & t & Hq & Hlow & Ht & Htasks & Hinv' & Honly)].
  - exists q. split_and!; [by left|done|apply queues_only_refl|apply Hinv|done].
  - exists (qset q p rest). split_and!; [right; eauto|done|done| |].
    + rewrite Htasks, lookup_insert_eq. eauto.
    + rewrite Htasks. by apply relinked_set_next.
Qed.

(** C2. The linked lists, heads and bitmap refine one FIFO list per priority: the scheduler's three
    queue operations take the first task of the most urgent non-empty list (or the idle task),
    append a task to the list of its priority, and delete a task from the list of its priority,
    and change nothing else in the kernel but links and the state of the appended task. *)
Theorem ready_queue_refinement k q :
  ready_inv k q →
  wp scheduler_get_next_task
    (λ a k', ∃ q', pick q a q' ∧ ready_inv k' q' ∧ queues_only k k' ∧
       relinked (tasks k) (tasks k')) k ∧
  ∀ a t, tasks k !! a = Some t →
    (¬ queued q a → wp (scheduler_add_ready_task a) (λ _ k',
       ready_inv k' (enqueue q (tcb_priority t) a) ∧ queues_only k k' ∧
       relinked (<[a := t <| tcb_state := TASK_STATE_READY |>]> (tasks k)) (tasks k')) k) ∧
    wp (scheduler_remove_task a) (λ _ k',
      ready_inv k' (unqueue q (tcb_priority t) a) ∧ queues_only k k' ∧
      relinked (tasks k) (tasks k')) k.
Proof.
  intros Hr. split.
  - eapply wp_mono; [by apply get_next_pick|]. intros a k' (q' & ? & ? & ? & _ & ?). eauto.
  - intros a t Ht. split; [intros; by apply scheduler_add_ready_task_spec|].
    by apply scheduler_remove_task_spec.
Qed.

(** * [os_scheduler] *)

(** The queues after the current task, if it was running, went back to the end of its queue. *)
Definition requeue (q : Z → list ptr) (cur : ptr) (t : tcb_t) : Z → list ptr :=
  if decide (tcb_state t = TASK_STATE_RUNNING) then enqueue q (tcb_priority t) cur else q.

(** The state the scheduler leaves the task in that it takes the processor from. *)
Definition old_state (s : task_state_t) : task_state_t :=
  match s with TASK_STATE_RUNNING => TASK_STATE_READY | s => s end.

(** The processor went from [cur] to [n]. *)
Record switched (k : kernel_t) (cur n : ptr) (k' : kernel_t) : Prop := {
  sw_current : current_task k' = n;
  sw_count : context_switch_count k' =
    if decide (n = cur) then context_switch_count k else u32 (context_switch_count k + 1);
  sw_tick : tick_count k' = tick_count k;
  sw_running : scheduler_running k' = scheduler_running k;
  sw_task_count : task_count k' = task_count k;
  sw_primask : primask k' = primask k;
  sw_identity : same_on all_tasks identity (tasks k) (tasks k');
  sw_state : same_on (λ a, a ≠ cur ∧ a ≠ n) tcb_state (tasks k) (tasks k');
  sw_next : ∃ t, tasks k' !! n = Some t ∧ tcb_time_slice t = TIME_SLICE_MS ∧
    (n ≠ cur → tcb_state t = TASK_STATE_RUNNING)
}.

Lemma add_post_frame k q a t k' :
  tasks k !! a = Some t → add_post k q a t k' →
  same_on all_tasks identity (tasks k) (tasks k') ∧
  same_on (λ b, b ≠ a) tcb_state (tasks k) (tasks k').
Proof.
  intros Ht (_ & _ & Hrel). split.
  - eapply same_on_trans; [|by apply same_on_relinked].
    eapply same_on_insert; [apply same_on_refl|done|done].
  - eapply same_on_trans; [|by apply same_on_relinked].
    apply same_on_insert_out; [apply same_on_refl|]. naive_solver.
Qed.

Lemma requeue_current_spec k q cur t :
  ready_inv k q → tasks k !! cur = Some t →
  wp (when (bool_decide (tcb_state t = TASK_STATE_RUNNING)) (scheduler_add_ready_task cur))
    (λ _ k1, ready_inv k1 (requeue q cur t) ∧ queues_only k k1 ∧
       same_on all_tasks identity (tasks k) (tasks k1) ∧
       same_on (λ b, b ≠ cur) tcb_state (tasks k) (tasks k1) ∧
       tcb_state <$> tasks k1 !! cur = Some (old_state (tcb_state t))) k.
Proof.
  intros Hinv Ht. wp_step. unfold requeue. case_bool_decide as Hs.
  - rewrite decide_True by done.
    assert (¬ queued q cur) as Hq by (intros Hq; eapply queued_ready in Hq; [|done..]; congruence).
    eapply wp_mono; [by apply scheduler_add_ready_task_spec|]. intros [] k1 Hadd.
    destruct (add_post_frame _ _ _ _ _ Ht Hadd). destruct Hadd as (? & ? & Hrel).
    split_and!; auto. destruct (relinked_lookup _ _ cur _ Hrel (lookup_insert_eq _ _ _)) as (x & ->).
    by rewrite Hs.
  - rewrite decide_False by done. split_and!; auto using same_on_refl, queues_only_refl.
    rewrite Ht. simpl. by destruct (tcb_state t).
Qed.

Section scheduler.
Context `{!Platform}.

Lemma context_switch_keeps o n :
  tcb_next (context_switch o n) = tcb_next o ∧ tcb_state (context_switch o n) = tcb_state o ∧
  identity (context_switch o n) = identity o ∧ tcb_priority (context_switch o n) = tcb_priority o ∧
  (tcb_ok o → tcb_ok (context_switch o n)).
Proof. rewrite context_switch_frame. split_and!; try done. intros []. by split. Qed.

Lemma tcb_ok_slice_full t : tcb_ok t → tcb_ok (t <| tcb_time_slice := TIME_SLICE_MS |>).
Proof. intros []. split; done. Qed.

Lemma switch_to_spec k q cur n :
  ready_inv k q → ¬ queued q n → n ≠ cur → is_Some (tasks k !! cur) → is_Some (tasks k !! n) →
  wp (switch_to cur n) (λ _ k', ready_inv k' q ∧ switched k cur n k' ∧
    same_on (λ a, a ≠ n) tcb_state (tasks k) (tasks k')) k.
Proof.
  intros Hinv Hq Hne [tc Hc] [tn Hn]. unfold switch_to. wp_step.
  eapply wp_store; [exact Hn|wp_step]. eapply wp_store; [apply lookup_insert_eq|wp_step].
  eapply wp_store; [apply lookup_insert_eq|wp_step].
  eapply wp_load; [apply lookup_insert_eq|].
  eapply wp_store; [simpl; rewrite !lookup_insert_ne by done; exact Hc|].
  simpl. rewrite !insert_insert_eq.
  match goal with |- context [context_switch tc ?x] => set (u := x) end.
  destruct (context_switch_keeps tc u) as (Hcn & Hcs & Hci & Hcp & Hcok).
  assert (tcb_ok u) as Huok by (destruct (ri_tcb_ok _ _ Hinv _ _ Hn); by split).
  split_and!.
  - set (k1 := k <| tasks ::= <[n := u]> |>).
    assert (ready_inv k1 q) as Hinv1 by (apply ready_inv_store; eauto).
    assert (tasks k1 !! cur = Some tc) as Hc1 by (simpl; by rewrite lookup_insert_ne).
    eapply ready_inv_fields; [..|eapply (ready_inv_touch k1 q cur tc); eauto using ri_tcb_ok];
      reflexivity.
  - split; simpl; try done.
    + by rewrite decide_False.
    + eapply same_on_insert; [|by rewrite lookup_insert_ne|done].
      by eapply same_on_insert; [apply same_on_refl|exact Hn|].
    + apply same_on_insert_out; [|naive_solver].
      apply same_on_insert_out; [apply same_on_refl|naive_solver].
    + exists u. by rewrite lookup_insert_ne, lookup_insert_eq.
  - eapply same_on_insert; [|by rewrite lookup_insert_ne|done].
    by apply same_on_insert_out; [apply same_on_refl|naive_solver].
Qed.

Lemma switched_frame k k1 cur n k' :
  queues_only k k1 → same_on all_tasks identity (tasks k) (tasks k1) →
  same_on (λ a, a ≠ cur ∧ a ≠ n) tcb_state (tasks k) (tasks k1) →
  switched k1 cur n k' → switched k cur n k'.
Proof.
  unfold queues_only. intros Hk1 Hid Hst []. rewrite Hk1 in *. simpl in *.
  split; try done; by eapply same_on_trans.
Qed.

Lemma reschedule_spec k q cur t :
  ready_inv k q → tasks k !! cur = Some t → current_task k = cur →
  wp (reschedule cur)
    (λ _ k', ∃ q' n, pick (requeue q cur t) n q' ∧ ready_inv k' q' ∧ switched k cur n k' ∧
      tcb_state <$> tasks k' !! cur = Some (old_state (tcb_state t))) k.
Proof.
  intros Hinv Ht Hcur. unfold reschedule. wp_step. eapply wp_load; [exact Ht|].
  rewrite wp_bind. eapply wp_mono; [by apply requeue_current_spec|].
  intros [] k1 (Hinv1 & Hk1 & Hid1 & Hst1 & Hold1). wp_step.
  eapply wp_mono; [by apply get_next_pick|].
  intros n k2 (q' & Hpick & Hinv2 & Hk2 & [tn Hn] & Hrel2).
  assert (queues_only k k2) as Hk by (unfold queues_only in *; by rewrite Hk2, Hk1).
  assert (same_on all_tasks identity (tasks k) (tasks k2)) as Hid2.
  { eapply same_on_trans; [done|]. by apply same_on_relinked. }
  assert (same_on (λ a, a ≠ cur ∧ a ≠ n) tcb_state (tasks k) (tasks k2)) as Hst2.
  { eapply same_on_trans; [|by apply same_on_relinked]. intros a [? _]. by apply Hst1. }
  assert (tcb_state <$> tasks k2 !! cur = Some (old_state (tcb_state t))) as Hold2.
  { rewrite <-Hold1. by eapply (same_on_relinked all_tasks tcb_state). }
  destruct (Z.eqb_spec n cur) as [Heq|Hne]; simpl negb; cbv iota.
  - eapply wp_store; [exact Hn|]. exists q', n. split; [done|]. split_and!.
    + eapply ready_inv_touch; eauto using tcb_ok_slice_full, ri_tcb_ok.
    + apply (switched_frame k k2); auto. split; simpl; try done.
      * unfold queues_only in Hk. rewrite Hk. simpl. congruence.
      * by rewrite decide_True.
      * by eapply same_on_insert; [apply same_on_refl|exact Hn|].
      * by eapply same_on_insert; [apply same_on_refl|exact Hn|].
      * eexists. by rewrite lookup_insert_eq.
    + subst n. rewrite Hn in Hold2. simpl. by rewrite lookup_insert_eq.
  - eapply wp_mono.
    + apply switch_to_spec; eauto using pick_not_queued.
      apply (same_on_lookup _ _ _ _ cur t Hid2 I) in Ht as (t' & Ht' & _). eauto.
    + intros [] k' (Hinv' & Hsw & Hst'). exists q', n. split_and!; auto; [by eapply switched_frame|].
      rewrite <-Hold2. by apply Hst'.
Qed.
End scheduler.

(** * The invariant of the kernel *)
Record kernel_rep (k : kernel_t) (q : Z → list ptr) : Prop := {
  kr_ready : ready_inv k q;
  kr_current : current_task k = NULL ∨ is_Some (tasks k !! current_task k);
  kr_tick : 0 ≤ tick_count k < 2 ^ 32;
  kr_count : 0 ≤ task_count k < 2 ^ 8
}.
Definition kernel_inv (k : kernel_t) : Prop := ∃ q, kernel_rep k q.

(** The control block of the current task after one tick was charged to it. *)
Definition charge (t : tcb_t) : tcb_t :=
  t <| tcb_run_time ::= λ n, u32 (n + 1) |>
    <| tcb_time_slice ::= λ n, if 0 <? n then n - 1 else n |>.
Definition charged (k : kernel_t) (t : tcb_t) : kernel_t :=
  k <| tick_count ::= λ n, u32 (n + 1) |> <| tasks ::= <[current_task k := charge t]> |>.

Lemma charge_ok t : tcb_ok t → tcb_ok (charge t).
Proof.
  intros [? ? ?]. split; simpl; try done. destruct (Z.ltb_spec 0 (tcb_time_slice t)); lia.
Qed.

Lemma charged_rep k q t :
  kernel_rep k q → tasks k !! current_task k = Some t → kernel_rep (charged k t) q.
Proof.
  intros [Hr _ Ht Hc] Hcur. split; simpl; try done.
  - eapply ready_inv_fields; [..|eapply (ready_inv_touch k q _ t (charge t))]; try done.
    apply charge_ok. by eapply Hr.
  - right. rewrite lookup_insert_eq. eauto.
  - apply u32_range.
Qed.

Section os_scheduler.
Context `{!Platform}.

(** The three ways [os_scheduler] returns. *)
Definition scheduler_post (k : kernel_t) (q : Z → list ptr) (k' : kernel_t) : Prop :=
  if scheduler_running k then
    if current_task k =? NULL then k' = k <| tick_count ::= λ n, u32 (n + 1) |>
    else ∃ t, tasks k !! current_task k = Some t ∧
      if tcb_time_slice (charge t) =? 0 then
        ∃ q' n, pick (requeue q (current_task k) t) n q' ∧ ready_inv k' q' ∧
          switched (charged k t) (current_task k) n k' ∧
          tcb_state <$> tasks k' !! current_task k = Some (old_state (tcb_state t))
      else k' = charged k t
  else k' = k.

Lemma os_scheduler_spec k q :
  kernel_rep k q → wp os_scheduler (λ _ k', scheduler_post k q k') k.
Proof.
  intros Hk. pose proof Hk as [Hr Hcur _ _]. unfold os_scheduler, scheduler_post. wp_step.
  destruct (scheduler_running k) eqn:Hrun; simpl negb; cbv iota; wp_step; [|done].
  simpl current_task. destruct (Z.eqb_spec (current_task k) NULL) as [|Hn]; wp_step; [done|].
  destruct Hcur as [|[t Ht]]; [done|]. eapply wp_store; [exact Ht|wp_step].
  eapply wp_load; [apply lookup_insert_eq|wp_step].
  assert (∀ k1, k1 = charged k t → wp
    (let! t := load (current_task k) in when (tcb_time_slice t =? 0) (reschedule (current_task k)))
    (λ _ k', ∃ t, tasks k !! current_task k = Some t ∧
      if tcb_time_slice (charge t) =? 0 then
        ∃ q' n, pick (requeue q (current_task k) t) n q' ∧ ready_inv k' q' ∧
          switched (charged k t) (current_task k) n k' ∧
          tcb_state <$> tasks k' !! current_task k = Some (old_state (tcb_state t))
      else k' = charged k t) k1) as Hend.
  { intros k1 ->. wp_step. eapply wp_load; [apply lookup_insert_eq|wp_step].
    destruct (tcb_time_slice (charge t) =? 0) eqn:E; [|by exists t; rewrite E].
    eapply wp_mono; [eapply (reschedule_spec _ q _ (charge t)); try done|].
    - by apply charged_rep.
    - apply lookup_insert_eq.
    - intros [] k' (q' & n & Hp). exists t. rewrite E. eauto. }
  simpl tcb_time_slice. destruct (Z.ltb_spec 0 (tcb_time_slice t)) as [Hs|Hs].
  - eapply wp_store; [apply lookup_insert_eq|]. apply Hend.
    unfold charged, charge. simpl. rewrite insert_insert_eq.
    destruct (Z.ltb_spec 0 (tcb_time_slice t)); [done|lia].
  - rewrite <-wp_bind. apply Hend. unfold charged, charge. simpl.
    destruct (Z.ltb_spec 0 (tcb_time_slice t)); [lia|done].
Qed.

Lemma scheduler_post_inv k q k' :
  kernel_rep k q → scheduler_post k q k' →
  kernel_inv k' ∧ same_on all_tasks identity (tasks k) (tasks k') ∧
  scheduler_running k' = scheduler_running k ∧ task_count k' = task_count k ∧
  primask k' = primask k ∧ (current_task k' = NULL ↔ current_task k = NULL) ∧
  tick_count k' = if scheduler_running k then u32 (tick_count k + 1) else tick_count k.
Proof.
  intros Hk. pose proof Hk as [Hr Hcur Ht Hc]. unfold scheduler_post.
  destruct (scheduler_running k) eqn:Hrun; [|intros ->; split_and!; auto using same_on_refl; by exists q].
  destruct (Z.eqb_spec (current_task k) NULL) as [Hn|Hn].
  { intros ->. split_and!; auto using same_on_refl. exists q. split; simpl; auto.
    - by eapply ready_inv_fields; [..|exact Hr].
    - apply u32_range. }
  intros (t & Hlk & Hpost). assert (same_on all_tasks identity (tasks k) (tasks (charged k t))) as Hid.
  { by eapply same_on_insert; [apply same_on_refl|exact Hlk|]. }
  destruct (tcb_time_slice (charge t) =? 0).
  - destruct Hpost as (q' & n & Hpick & Hr' & [? ? Htick Hrun' Hcnt Hpm Hid' _ (u & Hu & _)] & _).
    split_and!; auto.
    + exists q'. split; auto; [subst n; right; eauto| |].
      * rewrite Htick. apply u32_range.
      * rewrite Hcnt. done.
    + by eapply same_on_trans.
    + by rewrite Hrun'.
    + split; [|done]. intros E. rewrite E in *. subst n. by rewrite (ri_null _ _ Hr') in Hu.
  - rewrite Hpost. split_and!; auto. exists q. by apply charged_rep.
Qed.
End os_scheduler.
