(* ===== verification/KernelApi.v ===== *)
(** KernelApi: every operation of [src/kernel.c] preserves the kernel invariant and returns, from
    the state [os_init] leaves and for any behaviour of the other tasks that preserves it. *)
From Stdlib Require Import ZArith Lia.
From stdpp Require Import base numbers gmap list.
From S2P Require Import Prelude Types Kernel ReadyQueue Scheduler.

Lemma wp_in_kernel {S} `{!KernelView S} {A} (m : M kernel_t A) (Q : A → S → Prop) s :
  wp (in_kernel m) Q s = wp m (λ a k, Q a (kput k s)) (kget s).
Proof. unfold wp, in_kernel. by destruct (m (kget s)). Qed.
#[export] Hint Rewrite @wp_in_kernel @kget_kput @kput_kput : wp.

(** * Invariant preservation, piece by piece *)

Lemma queues_only_fields k k' :
  queues_only k k' →
  current_task k' = current_task k ∧ tick_count k' = tick_count k ∧ task_count k' = task_count k ∧
  scheduler_running k' = scheduler_running k ∧ primask k' = primask k.
Proof. intros ->. done. Qed.

Lemma kernel_rep_queues k q k' q' :
  kernel_rep k q → queues_only k k' → ready_inv k' q' →
  same_on all_tasks identity (tasks k) (tasks k') → kernel_rep k' q'.
Proof.
  intros [Hr Hc Ht Hn] (Hcur & Htick & Hcnt & _)%queues_only_fields Hr' Hid.
  split; rewrite ?Hcur, ?Htick, ?Hcnt; auto. destruct Hc as [|[t Hlk]]; [auto|right].
  destruct (same_on_lookup _ _ _ _ _ _ Hid I Hlk) as (t' & -> & _). eauto.
Qed.

Lemma unqueue_not_queued k q a t :
  ready_inv k q → tasks k !! a = Some t → ¬ queued (unqueue q (tcb_priority t) a) a.
Proof.
  intros Hr Ht (p & Hp). unfold unqueue, qset in Hp. case_decide.
  - apply list_elem_of_filter in Hp as [? _]. done.
  - destruct (ri_member _ _ Hr p a Hp) as (u & Hu & ? & _). congruence.
Qed.

Lemma remove_rep k q a t :
  kernel_rep k q → tasks k !! a = Some t →
  wp (scheduler_remove_task a) (λ _ k', kernel_rep k' (unqueue q (tcb_priority t) a) ∧
    queues_only k k' ∧ ∃ x, tasks k' !! a = Some (t <| tcb_next := x |>)) k.
Proof.
  intros Hk Ht. pose proof (kr_ready _ _ Hk) as Hr.
  eapply wp_mono; [by apply scheduler_remove_task_spec|]. intros [] k' (Hr' & Ho & Hrel).
  split_and!; [|done|by apply (relinked_lookup (tasks k))].
  eapply kernel_rep_queues; eauto. by apply same_on_relinked.
Qed.

Lemma add_rep k q a t :
  kernel_rep k q → tasks k !! a = Some t → ¬ queued q a →
  wp (scheduler_add_ready_task a) (λ _ k',
    kernel_rep k' (enqueue q (tcb_priority t) a) ∧ queues_only k k' ∧ is_Some (tasks k' !! a)) k.
Proof.
  intros Hk Ht Hq. pose proof (kr_ready _ _ Hk) as Hr.
  eapply wp_mono; [by apply scheduler_add_ready_task_spec|]. intros [] k' Hadd.
  destruct (add_post_frame _ _ _ _ _ Ht Hadd) as [Hid _]. destruct Hadd as (Hr' & Ho & _).
  split_and!; [by eapply kernel_rep_queues|done|].
  destruct (same_on_lookup _ _ _ _ _ _ Hid I Ht) as (? & ? & _). eauto.
Qed.

(** Writing a control block that is not queued, or whose link, priority and state stay. *)
Lemma store_rep k q a u :
  kernel_rep k q → ¬ queued q a → is_Some (tasks k !! a) → tcb_ok u →
  kernel_rep (k <| tasks ::= <[a := u]> |>) q.
Proof.
  intros [Hr Hc Ht Hn] Hq Ha Hu. split; simpl; auto.
  - by apply ready_inv_store.
  - destruct Hc; [auto|right]. by apply lookup_insert_is_Some'; right.
Qed.
Lemma touch_rep k q a t u :
  kernel_rep k q → tasks k !! a = Some t →
  tcb_next u = tcb_next t → tcb_priority u = tcb_priority t → tcb_state u = tcb_state t → tcb_ok u →
  kernel_rep (k <| tasks ::= <[a := u]> |>) q.
Proof.
  intros [Hr Hc Ht Hn] Ha ? ? ? ?. split; simpl; auto.
  - by eapply ready_inv_touch.
  - destruct Hc; [auto|right]. by apply lookup_insert_is_Some'; right.
Qed.
Lemma fields_rep k k' q :
  tasks k' = tasks k → ready_queue k' = ready_queue k → ready_bitmap k' = ready_bitmap k →
  current_task k' = current_task k → tick_count k' = tick_count k → 0 ≤ task_count k' < 2 ^ 8 →
  kernel_rep k q → kernel_rep k' q.
Proof.
  intros Ht Hq Hb Hc Hk Hn [Hr ? ? ?]. split; rewrite ?Ht, ?Hc, ?Hk; auto.
  by eapply ready_inv_fields.
Qed.

(** PRIMASK is not part of the invariant. *)
Lemma primask_rep k q x : kernel_rep k q → kernel_rep (k <| primask := x |>) q.
Proof. intros Hk. eapply fields_rep; [..|exact Hk]; try done. apply Hk. Qed.

Lemma wp_enter k Q : wp os_enter_critical Q k = Q (primask k) (k <| primask := 1 |>).
Proof. reflexivity. Qed.
Lemma wp_exit x k Q : wp (os_exit_critical x) Q k = Q tt (k <| primask := x |>).
Proof. reflexivity. Qed.
#[export] Hint Rewrite wp_enter wp_exit : wp.

Section yield.
Context `{!Platform}.

Definition yield_post (k : kernel_t) (q : Z → list ptr) (k' : kernel_t) : Prop :=
  if current_task k =? NULL then k' = k
  else ∃ t, tasks k !! current_task k = Some t ∧
    scheduler_post (k <| tasks ::= <[current_task k := t <| tcb_time_slice := 0 |>]> |>) q k'.

Lemma slice0_rep k q t :
  kernel_rep k q → tasks k !! current_task k = Some t →
  kernel_rep (k <| tasks ::= <[current_task k := t <| tcb_time_slice := 0 |>]> |>) q.
Proof.
  intros Hk Ht. eapply touch_rep; try done. destruct (ri_tcb_ok _ _ (kr_ready _ _ Hk) _ _ Ht).
  by split.
Qed.

Lemma os_task_yield_spec k q :
  kernel_rep k q → wp os_task_yield (λ _ k', yield_post k q k') k.
Proof.
  intros Hk. unfold os_task_yield, yield_post. wp_step.
  destruct (Z.eqb_spec (current_task k) NULL) as [|Hn]; wp_step; [done|].
  destruct (kr_current _ _ Hk) as [|[t Ht]]; [done|].
  eapply wp_store; [exact Ht|]. eapply wp_mono; [apply os_scheduler_spec; by apply slice0_rep|].
  intros [] k' Hpost. eauto.
Qed.

Lemma yield_post_inv k q k' :
  kernel_rep k q → yield_post k q k' →
  kernel_inv k' ∧ same_on all_tasks identity (tasks k) (tasks k') ∧
  scheduler_running k' = scheduler_running k ∧ task_count k' = task_count k ∧
  primask k' = primask k ∧ (current_task k' = NULL ↔ current_task k = NULL) ∧
  (current_task k ≠ NULL →
   tick_count k' = if scheduler_running k then u32 (tick_count k + 1) else tick_count k).
Proof.
  intros Hk. unfold yield_post. destruct (Z.eqb_spec (current_task k) NULL) as [Hn|Hn].
  { intros ->. split_and!; auto using same_on_refl; [by exists q|done]. }
  intros (t & Ht & Hpost). apply scheduler_post_inv in Hpost; [|by apply slice0_rep].
  destruct Hpost as (? & Hid & ? & ? & ? & ? & ?). split_and!; auto.
  eapply same_on_trans; [|exact Hid]. by eapply same_on_insert; [apply same_on_refl|exact Ht|].
Qed.
End yield.

(** * The operations *)

(** A pointer argument: [NULL], or the address of a control block. *)
Definition task_arg (k : kernel_t) (a : ptr) : Prop := a = NULL ∨ is_Some (tasks k !! a).

Lemma tcb_ok_set_priority t p :
  tcb_ok t → 0 ≤ p < 256 → tcb_ok (t <| tcb_priority := p |>).
Proof. intros [] ?. by split. Qed.

(** [steady k k']: a consistent kernel that differs from [k] at most in the queues, the contents of
    the control blocks, the number of tasks and PRIMASK; no time passed and no task was switched. *)
Record steady (k k' : kernel_t) : Prop := {
  st_inv : kernel_inv k';
  st_tasks : ∀ a, is_Some (tasks k !! a) → is_Some (tasks k' !! a);
  st_running : scheduler_running k' = scheduler_running k;
  st_current : current_task k' = current_task k;
  st_tick : tick_count k' = tick_count k
}.

Lemma steady_refl k : kernel_inv k → steady k k.
Proof. by split. Qed.
Lemma steady_trans k1 k2 k3 : steady k1 k2 → steady k2 k3 → steady k1 k3.
Proof. intros [] []. split; auto; congruence. Qed.
Lemma primask_inv k x : kernel_inv k → kernel_inv (k <| primask := x |>).
Proof. intros [q Hq]. exists q. by apply primask_rep. Qed.
Lemma steady_primask k k' x : steady k k' → steady k (k' <| primask := x |>).
Proof. intros []. split; auto. by apply primask_inv. Qed.
Lemma steady_queues k k' :
  kernel_inv k' → queues_only k k' → (∀ a, is_Some (tasks k !! a) → is_Some (tasks k' !! a)) →
  steady k k'.
Proof. intros Hk' (? & ? & _ & ? & _)%queues_only_fields Ht. by split. Qed.
Lemma steady_store k a u :
  kernel_inv (k <| tasks ::= <[a := u]> |>) → steady k (k <| tasks ::= <[a := u]> |>).
Proof. intros Hk. split; auto. simpl. intros b Hb. by apply lookup_insert_is_Some'; right. Qed.
#[export] Hint Resolve steady_refl steady_primask primask_inv : core.

Lemma remove_steady k a t :
  kernel_inv k → tasks k !! a = Some t →
  wp (scheduler_remove_task a) (λ _ k', steady k k' ∧ primask k' = primask k ∧
    ∃ q', kernel_rep k' q' ∧ ¬ queued q' a ∧ is_Some (tasks k' !! a)) k.
Proof.
  intros [q Hk] Ht.
  eapply wp_mono; [apply wp_conj; [by apply remove_rep|by apply scheduler_remove_task_spec; [apply Hk|]]|].
  intros [] k' [(Hk' & Ho & x & Hx) (_ & _ & Hrel)]. split_and!.
  - apply steady_queues; [by eexists|done|]. intros b. by apply relinked_is_Some.
  - apply queues_only_fields in Ho. tauto.
  - eexists. split_and!; [exact Hk'| |eauto]. eapply unqueue_not_queued; [apply Hk|done].
Qed.

Lemma add_steady k q a t :
  kernel_rep k q → tasks k !! a = Some t → ¬ queued q a →
  wp (scheduler_add_ready_task a) (λ _ k', steady k k' ∧ primask k' = primask k) k.
Proof.
  intros Hk Ht Hq.
  eapply wp_mono; [apply wp_conj; [by eapply add_rep|by apply (scheduler_add_ready_task_spec _ q _ t); [apply Hk|..]]|].
  intros [] k' [(Hk' & Ho & _) Hadd]. destruct (add_post_frame _ _ _ _ _ Ht Hadd) as [Hid _]. split.
  - apply steady_queues; [by eexists|done|]. intros b [u Hu].
    destruct (same_on_lookup _ _ _ _ _ _ Hid I Hu) as (? & -> & _). eauto.
  - apply queues_only_fields in Ho. tauto.
Qed.

(** Taking a task out of its queue, changing its priority and queueing it again. *)
Lemma requeue_with_steady k a t f :
  kernel_inv k → tasks k !! a = Some t →
  (∀ u, tcb_ok u → tcb_ok (f u)) → (∀ u, tcb_state (f u) = tcb_state u) →
  wp (requeue_with a f) (λ _ k', steady k k' ∧ primask k' = primask k) k.
Proof.
  intros Hk Ht Hok Hst. unfold requeue_with. wp_step. eapply wp_load; [exact Ht|].
  rewrite wp_bind.
  assert (wp (when (bool_decide (tcb_state t = TASK_STATE_READY)) (scheduler_remove_task a))
    (λ _ k1, steady k k1 ∧ primask k1 = primask k ∧
       ∃ q1, kernel_rep k1 q1 ∧ ¬ queued q1 a ∧ is_Some (tasks k1 !! a)) k) as Hrem.
  { wp_step. case_bool_decide as Hs; [by eapply remove_steady|].
    split_and!; auto. destruct Hk as [q Hk]. exists q. split_and!; eauto.
    intros Hq. apply Hs. eapply queued_ready; [apply Hk|done|done]. }
  eapply wp_mono; [exact Hrem|]. clear Hrem.
  intros [] k1 (Hs1 & Hp1 & q1 & Hk1 & Hq1 & t1 & Ht1). wp_step.
  eapply wp_store; [exact Ht1|wp_step]. eapply wp_load; [apply lookup_insert_eq|wp_step].
  assert (kernel_rep (k1 <| tasks ::= <[a := f t1]> |>) q1) as Hk2.
  { apply store_rep; eauto. apply Hok. by eapply (kr_ready _ _ Hk1). }
  assert (steady k (k1 <| tasks ::= <[a := f t1]> |>)) as Hs2.
  { eapply steady_trans; [exact Hs1|]. apply steady_store. by eexists. }
  case_bool_decide; [|by split].
  eapply wp_mono; [eapply add_steady; [exact Hk2|apply lookup_insert_eq|done]|].
  intros [] k3 (Hs3 & Hp3). split; [by eapply steady_trans|]. by rewrite Hp3.
Qed.

(** What it does to the fields the scheduler keeps: [f] on that task, nothing on the others. *)
Lemma requeue_with_identity k a t f :
  kernel_inv k → tasks k !! a = Some t →
  (∀ u, tcb_ok u → tcb_ok (f u)) → (∀ u, tcb_state (f u) = tcb_state u) →
  (∀ u v, identity u = identity v → identity (f u) = identity (f v)) →
  wp (requeue_with a f)
    (λ _ k', same_on all_tasks identity (<[a := f t]> (tasks k)) (tasks k')) k.
Proof.
  intros [q Hk] Ht Hok Hst Hf. unfold requeue_with. wp_step. eapply wp_load; [exact Ht|].
  rewrite wp_bind.
  assert (wp (when (bool_decide (tcb_state t = TASK_STATE_READY)) (scheduler_remove_task a))
    (λ _ k1, ∃ q1, kernel_rep k1 q1 ∧ ¬ queued q1 a ∧
       same_on all_tasks identity (tasks k) (tasks k1)) k) as Hrem.
  { wp_step. case_bool_decide as Hs.
    - eapply wp_mono; [apply wp_conj; [by apply remove_rep|by apply scheduler_remove_task_spec; [apply Hk|]]|].
      intros [] k1 [(Hk1 & _ & _) (_ & _ & Hrel)]. eexists. split_and!; [exact Hk1| |by apply same_on_relinked].
      eapply unqueue_not_queued; [apply Hk|done].
    - exists q. split_and!; auto using same_on_refl. intros Hq. apply Hs.
      eapply queued_ready; [apply Hk|done|done]. }
  eapply wp_mono; [exact Hrem|]. clear Hrem. intros [] k1 (q1 & Hk1 & Hq1 & Hid1).
  destruct (same_on_lookup _ _ _ _ _ _ Hid1 I Ht) as (t1 & Ht1 & Hi1). wp_step.
  eapply wp_store; [exact Ht1|wp_step]. eapply wp_load; [apply lookup_insert_eq|wp_step].
  assert (same_on all_tasks identity (<[a := f t]> (tasks k)) (<[a := f t1]> (tasks k1))) as Hid2.
  { intros b _. destruct (decide (b = a)) as [->|].
    - rewrite !lookup_insert_eq. simpl. f_equal. by apply Hf.
    - rewrite !lookup_insert_ne by done. by apply Hid1. }
  assert (kernel_rep (k1 <| tasks ::= <[a := f t1]> |>) q1) as Hk2.
  { apply store_rep; eauto. apply Hok. by eapply (kr_ready _ _ Hk1). }
  case_bool_decide; [|done].
  eapply wp_mono; [eapply scheduler_add_ready_task_spec; [apply Hk2|apply lookup_insert_eq|done]|].
  intros [] k3 Hadd. eapply same_on_trans; [exact Hid2|].
  eapply add_post_frame in Hadd as [Hid3 _]; [exact Hid3|apply lookup_insert_eq].
Qed.

(** ** Operations that yield at most once

    [I] holds of the system while the task runs, [J] once it may have been switched out; both may
    speak about the rest of the state. The operations are proved against this interface. *)
Class YieldProtocol {S} `{!Platform} `{!KernelView S} (env : S → S) (I J : S → Prop) : Prop := {
  yp_inv : ∀ s, I s → kernel_inv (kget s);
  yp_steady : ∀ s k, I s → steady (kget s) k → I (kput k s);
  yp_weaken : ∀ s, I s → J s;
  yp_yield : ∀ s, I s →
    wp (yield env) (λ _ s', J s' ∧ primask (kget s') = primask (kget s)) s
}.

Section api.
Context `{!Platform} {S : Type} `{!KernelView S} (env : S → S) (I J : S → Prop).
Context `{!YieldProtocol env I J}.

(** The last lines of most operations: leave the critical section, perhaps yield, return. *)
Lemma exit_yield_keeps {A} (x : Z) (r : A) s k (b : bool) :
  I s → steady (kget s) k →
  wp (in_kernel (os_exit_critical x) ;;; when b (yield env) ;;; ret r)
    (λ _ s', J s' ∧ primask (kget s') = x) (kput k s).
Proof.
  intros Hs Hk. wp_step.
  assert (I (kput (k <| primask := x |>) s)) as Hi by (apply yp_steady; auto). destruct b; wp_step.
  - eapply wp_mono; [by apply yp_yield|]. intros [] s' [? Hp]. wp_step. split; [done|].
    by rewrite Hp, kget_kput.
  - split; [by apply yp_weaken|]. by rewrite ?kget_kput.
Qed.

Lemma exit_then_yield {A} (x : Z) (r : A) s k :
  I s → steady (kget s) k →
  wp (in_kernel (os_exit_critical x) ;;; yield env ;;; ret r)
    (λ _ s', J s' ∧ primask (kget s') = x) (kput k s).
Proof. apply (exit_yield_keeps x r s k true). Qed.
Lemma exit_then_ret {A} (x : Z) (r : A) s k :
  I s → steady (kget s) k →
  wp (in_kernel (os_exit_critical x) ;;; ret r) (λ _ s', J s' ∧ primask (kget s') = x) (kput k s).
Proof. apply (exit_yield_keeps x r s k false). Qed.

(** Removing a task from its queue and giving it a state other than ready, followed by [m]. *)
Lemma remove_and_set {A} (m : M S A) Q s k0 k a st :
  steady k0 k → is_Some (tasks k !! a) →
  (∀ k', steady k0 k' → current_task k' = current_task k → wp m Q (kput k' s)) →
  wp (in_kernel (scheduler_remove_task a) ;;;
      in_kernel (store a (λ t, t <| tcb_state := st |>)) ;;; m) Q (kput k s).
Proof.
  intros Hk [t Ht] Hm. wp_step. eapply wp_mono; [eapply remove_steady; [apply Hk|exact Ht]|].
  intros [] k1 (Hs1 & _ & q1 & Hk1 & Hq1 & t1 & Ht1). wp_step.
  eapply wp_store; [exact Ht1|]. wp_step. apply Hm; [|apply Hs1].
  eapply steady_trans; [exact Hk|]. eapply steady_trans; [exact Hs1|]. apply steady_store.
  eexists. apply store_rep; eauto. apply tcb_ok_state. by eapply (kr_ready _ _ Hk1).
Qed.

Lemma wp_enter_bind {A} (f : Z → M S A) Q s :
  wp (let! x := in_kernel os_enter_critical in f x) Q s =
  wp (f (primask (kget s))) Q (kput (kget s <| primask := 1 |>) s).
Proof. rewrite wp_bind, wp_in_kernel. reflexivity. Qed.

Lemma entered s : I s → steady (kget s) (kget s <| primask := 1 |>).
Proof. intros ?%yp_inv. auto. Qed.
#[local] Hint Resolve entered : core.

(** What every operation below leaves. *)
Definition kept {A} (s : S) (_ : A) (s' : S) : Prop := J s' ∧ primask (kget s') = primask (kget s).

Lemma kept_refused {A} (r : A) s : I s → wp (ret r) (kept s) s.
Proof. intros ?. split; [by apply yp_weaken|done]. Qed.

Lemma os_task_delete_keeps s a :
  I s → task_arg (kget s) a → wp (os_task_delete env a) (kept s) s.
Proof.
  intros Hs Ha. unfold os_task_delete.
  destruct (Z.eqb_spec a NULL) as [|Hn]; [by apply kept_refused|].
  destruct (a =? task_pool 0); [by apply kept_refused|]. destruct Ha as [|Ha]; [done|].
  rewrite wp_enter_bind. eapply remove_and_set; [by apply entered|exact Ha|]. intros k2 Hk2 _. wp_step.
  assert (steady (kget s) (k2 <| task_count ::= λ n, u8 (n - 1) |>)) as Hk3.
  { destruct Hk2 as [[q Hq] ? ? ? ?]. split; auto. exists q. eapply fields_rep; [..|exact Hq]; try done.
    apply u8_range. }
  simpl current_task. destruct (a =? current_task k2);
    [by apply exit_then_yield|by apply exit_then_ret].
Qed.

Lemma os_task_suspend_keeps s a :
  I s → task_arg (kget s) a → wp (os_task_suspend env a) (kept s) s.
Proof.
  intros Hs Ha. unfold os_task_suspend.
  destruct (Z.eqb_spec a NULL) as [|Hn]; [by apply kept_refused|]. destruct Ha as [|Ha]; [done|].
  rewrite wp_enter_bind. eapply remove_and_set; [by apply entered|exact Ha|]. intros k2 Hk2 _.
  rewrite wp_bind, wp_in_kernel, wp_gets, kget_kput, kput_kput. by apply exit_yield_keeps.
Qed.

Lemma os_task_resume_keeps s a :
  I s → task_arg (kget s) a → wp (os_task_resume a) (kept s) s.
Proof.
  intros Hs Ha. unfold os_task_resume.
  destruct (Z.eqb_spec a NULL) as [|Hn]; [by apply kept_refused|]. destruct Ha as [|[t Ht]]; [done|].
  rewrite wp_enter_bind. pose proof (entered s Hs) as Hk1. pose proof (st_inv _ _ Hk1) as [q Hq].
  rewrite wp_bind, wp_in_kernel, kget_kput. eapply wp_load; [exact Ht|].
  rewrite kput_kput, wp_bind, wp_when. case_bool_decide as Hst.
  - rewrite wp_in_kernel, kget_kput. eapply wp_mono.
    + eapply add_steady; [exact Hq|exact Ht|]. intros Hqd.
      eapply queued_ready in Hqd; [|apply Hq|exact Ht]. congruence.
    + intros [] k2 (Hk2 & _). rewrite kput_kput. apply exit_then_ret; [done|]. by eapply steady_trans.
  - by apply exit_then_ret.
Qed.

(** The common part of the three priority operations, followed by [m]. *)
Lemma requeue_with_keeps {A} (m : M S A) Q s k0 k a f :
  steady k0 k → is_Some (tasks k !! a) →
  (∀ u, tcb_ok u → tcb_ok (f u)) → (∀ u, tcb_state (f u) = tcb_state u) →
  (∀ k', steady k0 k' → is_Some (tasks k' !! a) → wp m Q (kput k' s)) →
  wp (in_kernel (requeue_with a f) ;;; m) Q (kput k s).
Proof.
  intros Hk [t Ht] Hok Hst Hm. rewrite wp_bind, wp_in_kernel, kget_kput.
  eapply wp_mono; [eapply requeue_with_steady; eauto; apply Hk|]. intros [] k' (Hk' & _).
  rewrite kput_kput. apply Hm; [by eapply steady_trans|]. apply Hk'. eauto.
Qed.

(** The test whether the current task has to make room. *)
Lemma wp_preempt (A : Type) (p : Z) (f : bool → M S A) Q s k :
  kernel_inv k → (∀ b, wp (f b) Q (kput k s)) →
  wp (let! cur := in_kernel (gets current_task) in
      let! higher := in_kernel (
        if cur =? NULL then ret false else let! c := load cur in ret (p <? tcb_priority c)) in
      f higher) Q (kput k s).
Proof.
  intros [q Hq] Hf. rewrite !wp_bind, wp_in_kernel, kget_kput, wp_gets, kput_kput, wp_bind,
    wp_in_kernel, kget_kput.
  destruct (Z.eqb_spec (current_task k) NULL) as [|Hn]; wp_step; [done|].
  destruct (kr_current _ _ Hq) as [|[c Hc]]; [done|]. eapply wp_load; [exact Hc|]. wp_step. done.
Qed.

Lemma os_task_set_priority_keeps s a p :
  I s → task_arg (kget s) a → 0 ≤ p < 256 → wp (os_task_set_priority env a p) (kept s) s.
Proof.
  intros Hs Ha Hp. unfold os_task_set_priority.
  destruct (Z.eqb_spec a NULL) as [|Hn]; [by apply kept_refused|]. destruct Ha as [|[t Ht]]; [done|].
  rewrite wp_enter_bind, wp_bind, wp_in_kernel, kget_kput. eapply wp_load; [exact Ht|]. rewrite kput_kput.
  destruct (p =? tcb_priority t); [by apply exit_then_ret; auto|].
  eapply requeue_with_keeps; [by apply entered|by exists t|by intros u []; split|done|].
  intros k' Hk' _. rewrite wp_bind, wp_in_kernel, kget_kput, wp_gets, kput_kput.
  destruct ((a =? current_task k') && (tcb_priority t <? p)); [by apply exit_then_yield|].
  pose proof (wp_preempt _ p (λ b : bool,
    if b then in_kernel (os_exit_critical (primask (kget s))) ;;; yield env ;;; ret OS_OK
    else in_kernel (os_exit_critical (primask (kget s))) ;;; ret OS_OK)
    (kept s) s k' (st_inv _ _ Hk')) as Hpre.
  rewrite wp_bind, wp_in_kernel, kget_kput, wp_gets, kput_kput in Hpre. apply Hpre.
  intros []; [by apply exit_then_yield|by apply exit_then_ret].
Qed.

Lemma os_task_raise_priority_keeps s a p :
  I s → task_arg (kget s) a → 0 ≤ p < 256 → wp (os_task_raise_priority env a p) (kept s) s.
Proof.
  intros Hs Ha Hp. unfold os_task_raise_priority.
  destruct (Z.eqb_spec a NULL) as [|Hn]; [by apply kept_refused|]. destruct Ha as [|[t Ht]]; [done|].
  rewrite wp_bind, wp_in_kernel. eapply wp_load; [exact Ht|]. rewrite kput_kget.
  destruct (tcb_priority t <=? p); [by apply kept_refused|]. rewrite wp_enter_bind.
  eapply requeue_with_keeps; [by apply entered|by exists t|by intros u []; split|done|].
  intros k' Hk' _. apply wp_preempt; [apply Hk'|].
  intros []; [by apply exit_then_yield|by apply exit_then_ret].
Qed.

Lemma os_task_reset_priority_keeps s a :
  I s → task_arg (kget s) a → wp (os_task_reset_priority env a) (kept s) s.
Proof.
  intros Hs Ha. unfold os_task_reset_priority.
  destruct (Z.eqb_spec a NULL) as [|Hn]; [by apply kept_refused|]. destruct Ha as [|[t Ht]]; [done|].
  rewrite wp_enter_bind, wp_bind, wp_in_kernel, kget_kput.
  eapply wp_load; [exact Ht|]. rewrite kput_kput.
  eapply requeue_with_keeps; [by apply entered|by exists t|by intros u []; split|done|].
  intros k' Hk' [t' Ht']. rewrite wp_bind, wp_in_kernel, kget_kput, wp_gets, kput_kput.
  rewrite wp_bind, wp_in_kernel, kget_kput. eapply wp_load; [exact Ht'|]. rewrite kput_kput.
  destruct ((a =? current_task k') && (tcb_priority t <? tcb_priority t'));
    [by apply exit_then_yield|by apply exit_then_ret].
Qed.
End api.

(** * Creation, initialisation and start *)

(** [a] is in no ready queue. *)
Definition not_linked (k : kernel_t) (a : ptr) : Prop :=
  ∀ i h l, ready_queue k !! i = Some h → lseg (tasks k) h l → a ∉ l.

Lemma not_linked_queued k q a : ready_inv k q → not_linked k a ↔ ¬ queued q a.
Proof.
  intros Hr. split.
  - intros Hn (p & Hp). destruct (decide (0 ≤ p < 256)) as [Hr0|Hr0].
    + destruct (ri_queue _ _ Hr p Hr0) as (h & Hh & Hl). by eapply Hn.
    + rewrite (ri_outside _ _ Hr) in Hp by done. by apply not_elem_of_nil in Hp.
  - intros Hq i h l Hh Hl Ha. apply Hq. exists (Z.of_nat i).
    pose proof (lookup_lt_Some _ _ _ Hh) as Hlt. rewrite (ri_rq_length _ _ Hr) in Hlt.
    destruct (ri_queue _ _ Hr (Z.of_nat i)) as (h' & Hh' & Hl'); [lia|].
    rewrite Nat2Z.id in Hh'. assert (h' = h) as -> by congruence.
    by rewrite (lseg_det _ _ _ _ Hl' Hl).
Qed.

Lemma new_tcb_ok name entry param prio : 0 ≤ prio < 256 → tcb_ok (new_tcb name entry param prio).
Proof. intros. by split. Qed.

Lemma os_task_create_rep k q a name entry param prio :
  kernel_rep k q → a = NULL ∨ is_Some (tasks k !! a) ∧ ¬ queued q a → 0 ≤ prio < 256 →
  wp (os_task_create a name entry param prio) (λ r k',
    if (a =? NULL) || (entry =? NULL) then r = OS_ERROR_INVALID_PARAM ∧ k' = k
    else if MAX_TASKS <=? task_count k then r = OS_ERROR_NO_MEMORY ∧ k' = k
    else r = OS_OK ∧ kernel_rep k' (enqueue q prio a) ∧ task_count k' = u8 (task_count k + 1) ∧
      current_task k' = current_task k ∧ scheduler_running k' = scheduler_running k ∧
      tasks k' !! a = Some (new_tcb name entry param prio) ∧ primask k' = primask k) k.
Proof.
  intros Hk Ha Hp. unfold os_task_create.
  destruct ((a =? NULL) || (entry =? NULL)) eqn:E; [done|]. wp_step.
  destruct (MAX_TASKS <=? task_count k); [done|]. wp_step.
  apply orb_false_iff in E as [Hn _]. apply Z.eqb_neq in Hn. destruct Ha as [|[[t Ht] Hq]]; [done|].
  eapply wp_store; [exact Ht|]. wp_step.
  assert (kernel_rep (k <| tasks ::= <[a := new_tcb name entry param prio]> |>) q) as Hk1.
  { apply store_rep; eauto. by apply new_tcb_ok. }
  eapply wp_mono; [eapply scheduler_add_ready_task_spec; [apply Hk1|apply lookup_insert_eq|done]|].
  intros [] k2 Hadd. pose proof Hadd as (Hr & Ho & Hrel). wp_step.
  pose proof (queues_only_fields _ _ Ho) as (Hcur & _ & Hc2 & Hrun & Hpm). simpl in Hc2.
  split_and!; [done| |simpl; by rewrite Hc2|done|done| |done].
  - eapply fields_rep; [..|eapply kernel_rep_queues; [exact Hk1|exact Ho|exact Hr|]]; try done.
    + apply u8_range.
    + eapply add_post_frame; [apply lookup_insert_eq|exact Hadd].
  - destruct (ri_queue _ _ Hr prio) as (h & _ & Hl); [done|].
    unfold enqueue in Hl. change (tcb_priority (new_tcb name entry param prio)) with prio in Hl.
    rewrite qset_eq in Hl. pose proof (lseg_suffix (tasks k2) (q prio) h a [] Hl) as (_ & _ & u & Hu & Hnext).
    simpl in Hrel. rewrite insert_insert_eq in Hrel. symmetry in Hrel.
    destruct (relinked_lookup _ _ _ _ Hrel Hu) as (x & Hx). rewrite lookup_insert_eq in Hx.
    simpl tasks. rewrite Hu. f_equal. destruct u. simpl in Hx, Hnext. subst.
    injection Hx. intros. subst. reflexivity.
Qed.

(** The memory of the application before [os_init]. *)
Definition boot_ok (k : kernel_t) : Prop :=
  tasks k !! NULL = None ∧ ∀ a t, tasks k !! a = Some t → tcb_ok t.

Lemma kernel_zero_rep k : boot_ok k → kernel_rep (kernel_zero k) (λ _, []).
Proof.
  intros [Hnull Hok]. unfold kernel_zero.
  split; cbn [ready_queue ready_bitmap tasks current_task tick_count task_count]; try lia.
  split; cbn [ready_queue ready_bitmap tasks]; try done.
  - intros p Hp. exists NULL. split; [|done]. apply lookup_replicate_2. lia.
  - intros p a Ha. by apply not_elem_of_nil in Ha.
  - intros w Hw. exists 0. split_and!; [apply lookup_replicate_2; lia|lia|lia|].
    intros i _. by rewrite Z.bits_0.
  - simpl. by repeat (rewrite lookup_insert_ne by done).
  - simpl. rewrite lookup_insert_eq. eauto.
  - simpl. repeat (apply insert_ok; [|by split]). done.
Qed.

Lemma os_init_rep `{!Platform} k :
  boot_ok k →
  wp os_init (λ _ k', kernel_rep k' (enqueue (λ _, []) PRIORITY_IDLE (task_pool 0)) ∧
    task_count k' = 1 ∧ current_task k' = NULL ∧ scheduler_running k' = false ∧
    tasks k' !! task_pool 0 = Some (new_tcb (Some idle_name) idle_task NULL PRIORITY_IDLE)) k.
Proof.
  intros Hk. unfold os_init. wp_step. pose proof (kernel_zero_rep k Hk) as Hz.
  eapply wp_mono.
  - eapply os_task_create_rep; [exact Hz| |done]. right. split; [apply Hz|].
    intros (p & Hp). by apply not_elem_of_nil in Hp.
  - intros r k' Hpost. wp_step. pose proof idle_task_not_null as Hidle.
    destruct (Z.eqb_spec idle_task NULL); [done|]. simpl in Hpost. naive_solver.
Qed.

Lemma os_start_rep k q :
  kernel_rep k q →
  wp os_start (λ _ k', ∃ n q', pick q n q' ∧ kernel_rep k' q' ∧ current_task k' = n ∧
    scheduler_running k' = true ∧ tcb_state <$> tasks k' !! n = Some TASK_STATE_RUNNING ∧
    primask k' = primask k) k.
Proof.
  intros Hk. unfold os_start. wp_step.
  set (k1 := k <| scheduler_running := true |>).
  assert (kernel_rep k1 q) as Hk1 by (eapply fields_rep; [..|exact Hk]; try done; apply Hk).
  eapply wp_mono; [apply get_next_pick, Hk1|].
  intros n k2 (q' & Hpick & Hr2 & Ho & [t Ht] & Hrel). wp_step.
  assert (kernel_rep k2 q') as Hk2.
  { eapply kernel_rep_queues; [exact Hk1|done|done|by apply same_on_relinked]. }
  assert (kernel_rep (k2 <| current_task := n |>) q') as Hk3.
  { split; try apply Hk2; [|right; eauto]. by eapply ready_inv_fields; [..|exact Hr2]. }
  eapply wp_store; [exact Ht|]. exists n, q'. split_and!; [done| |done| | |].
  - apply (store_rep _ _ _ _ Hk3); eauto.
    + eapply pick_not_queued; [apply Hk1|done].
    + apply tcb_ok_state. by eapply Hr2.
  - apply queues_only_fields in Ho as (_ & _ & _ & Hrun & _). done.
  - simpl. by rewrite lookup_insert_eq.
  - by apply queues_only_fields in Ho as (_ & _ & _ & _ & Hpm).
Qed.

(** * The rest of the system *)

(** [advance B k k']: [k'] is a consistent later state of the kernel, at most [B] ticks after [k], in
    which the control blocks of [k] still exist and the scheduler still runs. *)
Record advance (B : Z) (k k' : kernel_t) : Prop := {
  ad_inv : kernel_inv k';
  ad_tasks : ∀ a, is_Some (tasks k !! a) → is_Some (tasks k' !! a);
  ad_running : scheduler_running k' = scheduler_running k;
  ad_null : current_task k' = NULL ↔ current_task k = NULL;
  ad_tick : ∃ d, 0 ≤ d ≤ B ∧ tick_count k' = u32 (tick_count k + d)
}.

Lemma advance_trans B1 B2 k1 k2 k3 : advance B1 k1 k2 → advance B2 k2 k3 → advance (B1 + B2) k1 k3.
Proof.
  intros [_ Ht1 Hr1 Hn1 (d1 & Hd1 & Hk1)] [Hi Ht2 Hr2 Hn2 (d2 & Hd2 & Hk2)]. split; auto.
  - congruence.
  - tauto.
  - exists (d1 + d2). split; [lia|]. rewrite Hk2, Hk1, u32_add_u32_l. f_equal. lia.
Qed.

Lemma kernel_inv_tick k : kernel_inv k → u32 (tick_count k) = tick_count k.
Proof. intros [q Hk]. apply u32_small, Hk. Qed.

Lemma steady_advance k k' : kernel_inv k → steady k k' → advance 0 k k'.
Proof.
  intros Hk [Hi Ht Hr Hc Htk]. split; auto; [by rewrite Hc|]. exists 0. split; [lia|].
  by rewrite Z.add_0_r, kernel_inv_tick.
Qed.

Lemma advance_mono B B' k k' : B ≤ B' → advance B k k' → advance B' k k'.
Proof. intros ? [? ? ? ? (d & ? & ?)]. split; auto. exists d. split; [lia|done]. Qed.

Definition SWITCH_BOUND : Z := 2 ^ 30.

(** A task runs on a started, consistent kernel. *)
Definition live (k : kernel_t) : Prop :=
  kernel_inv k ∧ scheduler_running k = true ∧ current_task k ≠ NULL.

Lemma advance_live B k k' : live k → advance B k k' → live k'.
Proof. intros (? & Hr & Hc) []. split_and!; auto; [congruence|tauto]. Qed.

(** What a task relies on while it is switched out: it is switched in again after at most
    [SWITCH_BOUND] ticks with its interrupt mask, the kernel is consistent, no control block
    disappeared, and the property [P] of the other objects still holds. *)
Class Rely {S} `{!KernelView S} (env : S → S) (P : S → Prop) : Prop := {
  rely_kput : ∀ k s, P s →
    (∀ a, is_Some (tasks (kget s) !! a) → is_Some (tasks k !! a)) → P (kput k s);
  rely_env : ∀ s, live (kget s) → P s →
    advance SWITCH_BOUND (kget s) (kget (env s)) ∧ primask (kget (env s)) = primask (kget s) ∧
    P (env s)
}.

Section rely.
Context `{!Platform} {S : Type} `{!KernelView S} (env : S → S) (P : S → Prop) `{!Rely env P}.

(** A yield takes at least one tick. *)
Lemma yield_advance s :
  live (kget s) → P s →
  wp (yield env) (λ _ s', P s' ∧ primask (kget s') = primask (kget s) ∧
    advance (SWITCH_BOUND + 1) (kget s) (kget s') ∧
    ∃ d, 1 ≤ d ≤ SWITCH_BOUND + 1 ∧ tick_count (kget s') = u32 (tick_count (kget s) + d)) s.
Proof.
  intros ([q Hk] & Hrun & Hcur) HP. unfold yield. wp_step.
  eapply wp_mono; [by apply os_task_yield_spec|]. intros [] k' Hy. wp_step.
  apply yield_post_inv in Hy; [|done].
  destruct Hy as (Hk' & Hid & Hrun' & _ & Hpm & Hnull & Htick). specialize (Htick Hcur).
  rewrite Hrun in Hrun', Htick.
  assert (advance 1 (kget s) k') as Had.
  { split; auto; [|congruence|].
    - intros a [t Ht]. destruct (same_on_lookup _ _ _ _ _ _ Hid I Ht) as (? & ? & _). eauto.
    - exists 1. split; [lia|done]. }
  destruct (rely_env (kput k' s)) as (Had' & Hp & HP'); rewrite ?kget_kput in *.
  { split_and!; auto. tauto. }
  { apply rely_kput; [done|apply Had]. }
  split_and!; [done|congruence|rewrite Z.add_comm; by eapply advance_trans|].
  destruct (ad_tick _ _ _ Had') as (d & Hd & Ht). exists (d + 1). split; [lia|].
  rewrite Ht, Htick, u32_add_u32_l. f_equal. lia.
Qed.

(** The protocol of an operation that was entered in a state with the kernel [k0]. *)
Definition during (k0 : kernel_t) (B : Z) (s : S) : Prop :=
  live (kget s) ∧ P s ∧ advance B k0 (kget s).

#[export] Instance rely_protocol k0 B :
  YieldProtocol env (during k0 B) (during k0 (B + (SWITCH_BOUND + 1))).
Proof.
  split.
  - by intros s (Hl & _ & _); apply Hl.
  - intros s k (Hl & HP & Had) Hst.
    assert (advance 0 (kget s) k) as Had0 by (apply steady_advance; [apply Hl|done]).
    split_and!; rewrite ?kget_kput; [by eapply advance_live|apply rely_kput; [done|apply Hst]|].
    rewrite <-(Z.add_0_r B). by eapply advance_trans.
  - intros s (Hl & HP & Had). split_and!; auto. eapply advance_mono; [|done]. unfold SWITCH_BOUND. lia.
  - intros s (Hl & HP & Had). eapply wp_mono; [by apply yield_advance|].
    intros [] s' (HP' & Hp & Had' & _). split; [|done].
    split_and!; [by eapply advance_live|done|by eapply advance_trans].
Qed.
End rely.
