(* ===== verification/KernelTheorems.v ===== *)
(** KernelTheorems: the properties of the scheduler and the task operations of [src/kernel.c],
    stated from the outside of the library: safety of every reachable state, the scheduling policy,
    round robin among equal priorities, the task the scheduler loses, and delays. *)
From Stdlib Require Import ZArith Lia.
From stdpp Require Import base numbers gmap list.
From S2P Require Import Prelude Types Kernel ReadyQueue Scheduler KernelApi.

(** * Sequences of kernel calls *)

(** One entry into the kernel: a call of a task, or the system tick. *)
Inductive call :=
| CallCreate (a : ptr) (name : option (list Z)) (entry param prio : Z)
| CallDelete (a : ptr)
| CallSuspend (a : ptr)
| CallResume (a : ptr)
| CallSetPriority (a : ptr) (p : Z)
| CallRaisePriority (a : ptr) (p : Z)
| CallResetPriority (a : ptr)
| CallYield
| CallTick
| CallStart.

Section calls.
Context `{!Platform}.

(** What a call does to the kernel until the processor is given to the next task; the operations
    have nothing left to do after they yielded, so the rest of the system is [id]. *)
Definition run_call (c : call) : M kernel_t unit :=
  match c with
  | CallCreate a name entry param prio =>
      let! _ := os_task_create a name entry param prio in ret tt
  | CallDelete a => let! _ := os_task_delete id a in ret tt
  | CallSuspend a => let! _ := os_task_suspend id a in ret tt
  | CallResume a => let! _ := os_task_resume a in ret tt
  | CallSetPriority a p => let! _ := os_task_set_priority id a p in ret tt
  | CallRaisePriority a p => let! _ := os_task_raise_priority id a p in ret tt
  | CallResetPriority a => let! _ := os_task_reset_priority id a in ret tt
  | CallYield => os_task_yield
  | CallTick => os_scheduler
  | CallStart => os_start
  end.

(** The caller's side: pointers are [NULL] or the address of a control block, priorities fit
    their type, and a control block is not created again while it is in a ready queue. *)
Definition call_ok (k : kernel_t) (c : call) : Prop :=
  match c with
  | CallCreate a _ _ _ prio => task_arg k a ∧ not_linked k a ∧ 0 ≤ prio < 256
  | CallDelete a | CallSuspend a | CallResume a | CallResetPriority a => task_arg k a
  | CallSetPriority a p | CallRaisePriority a p => task_arg k a ∧ 0 ≤ p < 256
  | CallYield | CallTick | CallStart => True
  end.

(** The states the kernel can be in: [os_init] and then any sequence of calls. *)
Inductive reachable : kernel_t → Prop :=
| reachable_init k k' : boot_ok k → os_init k = Ret tt k' → reachable k'
| reachable_call k c k' : reachable k → call_ok k c → run_call c k = Ret tt k' → reachable k'.

(** [steps n m]: the operation [m], [n] times. *)
Fixpoint steps (n : nat) (m : M kernel_t unit) : M kernel_t unit :=
  match n with O => ret tt | S n => m ;;; steps n m end.
End calls.

Section safety.
Context `{!Platform}.

(** Between two calls nothing else happens to the kernel. *)
#[local] Instance calls_protocol : YieldProtocol (S := kernel_t) id kernel_inv kernel_inv.
Proof.
  split; auto.
  - by intros k k' _ [].
  - intros k [q Hk]. unfold yield. wp_step. eapply wp_mono; [by apply os_task_yield_spec|].
    intros [] k' Hy. wp_step. apply yield_post_inv in Hy; [|done]. split; apply Hy.
Qed.

(** A call keeps the kernel consistent and PRIMASK as it is. *)
Definition good (x : Z) (k : kernel_t) : Prop := kernel_inv k ∧ primask k = x.

Lemma discard_result {A} (m : M kernel_t A) (P : kernel_t → Prop) k :
  wp m (λ _ k', P k') k → wp (let! _ := m in ret tt) (λ _ k', P k') k.
Proof. intros Hm. wp_step. eapply wp_mono; [exact Hm|]. intros a k' HP. by wp_step. Qed.

Lemma discard_kept {A} (m : M kernel_t A) k :
  wp m (kept kernel_inv k) k → wp (let! _ := m in ret tt) (λ _ k', good (primask k) k') k.
Proof. intros Hm. apply discard_result. eapply wp_mono; [exact Hm|]. done. Qed.

Lemma create_keeps k a name entry param prio :
  kernel_inv k → task_arg k a → not_linked k a → 0 ≤ prio < 256 →
  wp (os_task_create a name entry param prio) (λ _ k', good (primask k) k') k.
Proof.
  intros [q Hk] Ha Hn Hp. rewrite not_linked_queued in Hn by apply Hk.
  eapply wp_mono; [apply (os_task_create_rep k q); [done| |done]|].
  - destruct Ha as [?|?]; [by left|by right].
  - intros r k' Hpost. unfold good.
    case_match; [destruct Hpost as [_ ->]; split; [by exists q|done]|].
    case_match; [destruct Hpost as [_ ->]; split; [by exists q|done]|].
    destruct Hpost as (_ & Hk' & _ & _ & _ & _ & Hpm). split; [by eexists|done].
Qed.

Lemma run_call_keeps k c :
  kernel_inv k → call_ok k c → wp (run_call c) (λ _ k', good (primask k) k') k.
Proof.
  intros Hk Hc. destruct c as [a n e pa p|a|a|a|a p|a p|a| | |]; simpl in *.
  - apply discard_result. apply create_keeps; tauto.
  - apply discard_kept, (os_task_delete_keeps id kernel_inv kernel_inv k); auto.
  - apply discard_kept, (os_task_suspend_keeps id kernel_inv kernel_inv k); auto.
  - apply discard_kept, (os_task_resume_keeps id kernel_inv kernel_inv k); auto.
  - apply discard_kept, (os_task_set_priority_keeps id kernel_inv kernel_inv k); tauto.
  - apply discard_kept, (os_task_raise_priority_keeps id kernel_inv kernel_inv k); tauto.
  - apply discard_kept, (os_task_reset_priority_keeps id kernel_inv kernel_inv k); auto.
  - destruct Hk as [q Hk]. eapply wp_mono; [by apply os_task_yield_spec|].
    intros [] k' Hpost. apply yield_post_inv in Hpost; [|done]. split; tauto.
  - destruct Hk as [q Hk]. eapply wp_mono; [by apply os_scheduler_spec|].
    intros [] k' Hpost. apply scheduler_post_inv in Hpost; [|done]. split; tauto.
  - destruct Hk as [q Hk]. eapply wp_mono; [by apply os_start_rep|].
    intros [] k' (n & q' & _ & Hk' & _ & _ & _ & Hpm). split; [by eexists|done].
Qed.

Lemma reachable_kernel_inv k : reachable k → kernel_inv k.
Proof.
  induction 1 as [k k' Hb Hrun|k c k' _ IH Hc Hrun].
  - pose proof (os_init_rep k Hb) as Hwp. unfold wp in Hwp. rewrite Hrun in Hwp.
    destruct Hwp as [? _]. by eexists.
  - pose proof (run_call_keeps k c IH Hc) as Hwp. unfold wp in Hwp. rewrite Hrun in Hwp. apply Hwp.
Qed.
End safety.

(** * Giving up the processor *)

(** [processor k q c t]: the scheduler runs, [c] is the current task and [t] its control block. *)
Record processor (k : kernel_t) (q : Z → list ptr) (c : ptr) (t : tcb_t) : Prop := {
  pr_rep : kernel_rep k q;
  pr_running : scheduler_running k = true;
  pr_current : current_task k = c;
  pr_task : tasks k !! c = Some t
}.

Lemma processor_not_null k q c t : processor k q c t → c ≠ NULL.
Proof. intros [Hk _ _ Ht] ->. by rewrite (ri_null _ _ (kr_ready _ _ Hk)) in Ht. Qed.

(** A task in the queues of [requeue] has the priority of its queue. *)
Lemma requeue_priority k q cur t p a :
  ready_inv k q → tasks k !! cur = Some t → a ∈ requeue q cur t p →
  ∃ u, tasks k !! a = Some u ∧ tcb_priority u = p.
Proof.
  intros Hr Ht Ha.
  assert (a ∈ q p ∨ a = cur ∧ p = tcb_priority t) as [Hq|[-> ->]]; [|
    destruct (ri_member _ _ Hr _ _ Hq) as (u & ? & ? & _); eauto|eauto].
  revert Ha. unfold requeue, enqueue, qset. repeat case_decide; subst; auto.
  rewrite elem_of_app, list_elem_of_singleton. tauto.
Qed.

(** No queue that is left has a smaller number than the priority of the chosen task. *)
Lemma pick_lowest k cur t q a q' k' :
  ready_inv k q → tasks k !! cur = Some t → pick (requeue q cur t) a q' →
  same_on all_tasks identity (tasks k) (tasks k') →
  ∀ p b c, b ∈ q' p → tasks k' !! a = Some c → tcb_priority c ≤ p.
Proof.
  intros Hr Ht [(Hq & _ & ->)|(p0 & rest & Hq & Hlow & ->)] Hid p b c Hb Hc.
  { rewrite Hq in Hb. by apply not_elem_of_nil in Hb. }
  destruct (requeue_priority k q cur t p0 a Hr Ht) as (u & Hu & Hp).
  { rewrite Hq. apply elem_of_cons. by left. }
  destruct (same_on_lookup _ _ _ _ a u Hid I Hu) as (c' & Hc' & Hi).
  assert (tcb_priority c = p0) as ->.
  { rewrite Hc in Hc'. injection Hc' as ->. unfold identity in Hi. congruence. }
  destruct (decide (p < p0)) as [Hlt|]; [|lia]. rewrite qset_ne, (Hlow p Hlt) in Hb by lia.
  by apply not_elem_of_nil in Hb.
Qed.

Section yielding.
Context `{!Platform}.

(** What one yield of the running task does, on the abstract queues. *)
Lemma yield_step k q c t :
  processor k q c t →
  wp os_task_yield (λ _ k', ∃ n q' t',
    pick (requeue q c t) n q' ∧ processor k' q' n t' ∧
    same_on all_tasks identity (tasks k) (tasks k') ∧
    (n ≠ c → tcb_state t' = TASK_STATE_RUNNING) ∧
    tcb_state <$> tasks k' !! c = Some (old_state (tcb_state t)) ∧
    tick_count k' = u32 (tick_count k + 1)) k.
Proof.
  intros Hp. pose proof (processor_not_null _ _ _ _ Hp) as Hnull. destruct Hp as [Hk Hrun <- Ht].
  eapply wp_mono; [apply os_task_yield_spec, Hk|]. intros [] k' Hy.
  pose proof (yield_post_inv _ _ _ Hk Hy) as (_ & Hid & Hrun' & Hcnt & _ & _ & Htick).
  unfold yield_post in Hy. destruct (Z.eqb_spec (current_task k) NULL) as [|_]; [done|].
  destruct Hy as (t0 & Ht0 & Hy). rewrite Ht in Ht0. injection Ht0 as <-.
  unfold scheduler_post in Hy. simpl in Hy. rewrite Hrun in Hy.
  destruct (Z.eqb_spec (current_task k) NULL) as [|_]; [done|].
  destruct Hy as (t1 & Ht1 & Hy). rewrite lookup_insert_eq in Ht1. injection Ht1 as <-.
  simpl in Hy. destruct Hy as (q' & n & Hpick & Hr' & [Hcur ? Htk ? ? ? ? _ (t' & Ht' & _ & Hst)] & Hold).
  exists n, q', t'. rewrite Hrun in Hrun', Htick. split_and!; auto. split; auto.
  split; [done| | |].
  - right. rewrite Hcur. eauto.
  - rewrite Htk. apply u32_range.
  - rewrite Hcnt. apply Hk.
Qed.

(** A run of yields, one step at a time. *)
Lemma steps_S n (m : M kernel_t unit) (Q : unit → kernel_t → Prop) k :
  wp (steps (S n) m) Q k = wp m (λ _ k', wp (steps n m) Q k') k.
Proof. simpl. by rewrite wp_bind. Qed.
End yielding.

(** * Round robin *)

(** The ready queue of priority [p] holds the tasks [l], the next one to run first. *)
Definition fifo (k : kernel_t) (p : Z) (l : list ptr) : Prop :=
  ∃ h, ready_queue k !! Z.to_nat p = Some h ∧ lseg (tasks k) h l.

(** [c] is the running task with priority [p], and no ready task has a higher priority. *)
Record running_at (k : kernel_t) (c : ptr) (p : Z) : Prop := {
  ra_inv : kernel_inv k;
  ra_on : scheduler_running k = true;
  ra_current : current_task k = c;
  ra_task : ∃ t, tasks k !! c = Some t ∧ tcb_state t = TASK_STATE_RUNNING ∧ tcb_priority t = p;
  ra_top : ∀ p', 0 ≤ p' < p → fifo k p' []
}.

Lemma fifo_rep k q p : kernel_rep k q → 0 ≤ p < 256 → fifo k p (q p).
Proof. intros Hk Hp. by apply (kr_ready _ _ Hk). Qed.

Lemma fifo_det k q p l : kernel_rep k q → 0 ≤ p < 256 → fifo k p l → q p = l.
Proof.
  intros Hk Hp (h & Hh & Hl). destruct (fifo_rep k q p Hk Hp) as (h' & Hh' & Hl').
  rewrite Hh in Hh'. injection Hh' as <-. by eapply lseg_det.
Qed.

Lemma running_at_processor k c p :
  running_at k c p → ∃ q t, processor k q c t ∧ tcb_state t = TASK_STATE_RUNNING ∧
    tcb_priority t = p ∧ 0 ≤ p < 256 ∧ ∀ p', p' < p → q p' = [].
Proof.
  intros [[q Hk] Hon Hc (t & Ht & Hs & Hp) Htop]. exists q, t.
  assert (0 ≤ p < 256) by (rewrite <-Hp; by eapply (ri_tcb_ok _ _ (kr_ready _ _ Hk))).
  split; [by split|]. split; [done|]. split; [done|]. split; [done|].
  intros p' Hlt. destruct (decide (0 ≤ p')).
  - eapply fifo_det; [exact Hk|lia|]. apply Htop. lia.
  - apply (ri_outside _ _ (kr_ready _ _ Hk)). lia.
Qed.

Lemma running_not_queued k q c t :
  processor k q c t → tcb_state t = TASK_STATE_RUNNING → ¬ queued q c.
Proof.
  intros [Hk _ _ Ht] Hs Hq. eapply queued_ready in Hq; [|apply Hk|done]. congruence.
Qed.

(** The queue with the highest priority after the running task was put at the end of [p]. *)
Lemma pick_enqueue q p c a l n q' :
  q p = a :: l → (∀ p', p' < p → q p' = []) → pick (enqueue q p c) n q' →
  n = a ∧ ∀ p', q' p' = if decide (p' = p) then l ++ [c] else q p'.
Proof.
  unfold enqueue. intros Hq Hlow [(Hall & _)|(p0 & rest & Hp0 & Hlow0 & ->)].
  { specialize (Hall p). rewrite qset_eq, Hq in Hall. done. }
  assert (p0 = p) as ->.
  { destruct (decide (p0 < p)); [rewrite qset_ne, Hlow in Hp0 by lia; done|].
    destruct (decide (p < p0)) as [Hlt|]; [|lia]. apply Hlow0 in Hlt. rewrite qset_eq, Hq in Hlt.
    done. }
  rewrite qset_eq, Hq in Hp0. injection Hp0 as <- <-. split; [done|].
  intros p'. unfold qset. by destruct (decide (p' = p)).
Qed.

Section round_robin.
Context `{!Platform}.

Lemma round_robin_step k c p a l :
  running_at k c p → fifo k p (a :: l) →
  wp os_task_yield (λ _ k', running_at k' a p ∧ fifo k' p (l ++ [c])) k.
Proof.
  intros Hrun Hf. destruct (running_at_processor _ _ _ Hrun) as (q & t & Hpr & Hs & <- & Hrange & Htop).
  pose proof (fifo_det _ _ _ _ (pr_rep _ _ _ _ Hpr) Hrange Hf) as Hq.
  pose proof (running_not_queued _ _ _ _ Hpr Hs) as Hnq.
  eapply wp_mono; [by apply yield_step|].
  intros [] k' (n & q' & t' & Hpick & [Hk' Hon Hcur Ht'] & Hid & Hst & _).
  unfold requeue in Hpick. rewrite decide_True in Hpick by done.
  destruct (pick_enqueue _ _ _ _ _ _ _ Hq Htop Hpick) as [-> Hq'].
  assert (a ≠ c) as Hne.
  { intros ->. apply Hnq. exists (tcb_priority t). rewrite Hq. apply elem_of_cons. by left. }
  destruct (ri_member _ _ (kr_ready _ _ (pr_rep _ _ _ _ Hpr)) (tcb_priority t) a)
    as (ta & Hta & Hpa & _).
  { rewrite Hq. apply elem_of_cons. by left. }
  destruct (same_on_lookup _ _ _ _ a ta Hid I Hta) as (ta' & Hta' & Hi).
  rewrite Ht' in Hta'. injection Hta' as <-. unfold identity in Hi.
  split; [split|].
  - by eexists.
  - done.
  - done.
  - exists t'. split_and!; auto. congruence.
  - intros p' Hp'. assert (q' p' = []) as <-; [|apply fifo_rep; [done|lia]].
    rewrite Hq', decide_False by lia. apply Htop. lia.
  - assert (q' (tcb_priority t) = l ++ [c]) as <- by (by rewrite Hq', decide_True).
    by apply fifo_rep.
Qed.

Lemma round_robin_run l1 : ∀ k c p a l2,
  running_at k c p → fifo k p (l1 ++ a :: l2) →
  wp (steps (S (length l1)) os_task_yield)
    (λ _ k', running_at k' a p ∧ fifo k' p (l2 ++ c :: l1)) k.
Proof.
  induction l1 as [|b l1 IH]; intros k c p a l2 Hrun Hf; rewrite steps_S.
  - eapply wp_mono; [by apply round_robin_step|]. done.
  - eapply wp_mono; [by apply round_robin_step|].
    intros [] k' [Hrun' Hf']. eapply wp_mono; [apply (IH k' b p a (l2 ++ [c])); auto|].
    + by rewrite <-app_assoc in Hf'.
    + intros [] k'' [? Hf'']. split; [done|]. by rewrite <-app_assoc in Hf''.
Qed.

Lemma steps_snoc n (m : M kernel_t unit) (Q : unit → kernel_t → Prop) : ∀ k,
  wp (steps n m) (λ _ k', wp m Q k') k → wp (steps (S n) m) Q k.
Proof.
  induction n as [|n IH]; intros k; rewrite steps_S.
  - simpl. intros Hm. eapply wp_mono; [exact Hm|]. by intros [].
  - rewrite steps_S. intros Hm. eapply wp_mono; [exact Hm|]. intros [] k'. apply IH.
Qed.
End round_robin.

(** * The task the scheduler loses *)

(** [c] has state ready, but it is in no ready queue, is not the current task, and is not the idle
    task, which runs when the queues are empty. *)
Record lost (k : kernel_t) (c : ptr) : Prop := {
  lost_inv : kernel_inv k;
  lost_state : tcb_state <$> tasks k !! c = Some TASK_STATE_READY;
  lost_unlinked : not_linked k c;
  lost_current : current_task k ≠ c;
  lost_idle : c ≠ task_pool 0
}.

Lemma queued_qset q p l b : queued (qset q p l) b → b ∈ l ∨ queued q b.
Proof. intros (p' & Hb). unfold qset in Hb. case_decide; [by left|right; by exists p']. Qed.

Lemma pick_subset q a q' b : pick q a q' → queued q' b → queued q b.
Proof.
  intros [(_ & _ & ->)|(p & rest & Hq & _ & ->)] Hb; [done|].
  apply queued_qset in Hb as [Hb|]; [|done]. exists p. rewrite Hq. apply elem_of_cons. by right.
Qed.

Lemma pick_elem q a q' : pick q a q' → a = task_pool 0 ∨ queued q a.
Proof.
  intros [(_ & -> & _)|(p & rest & Hq & _)]; [by left|right].
  exists p. rewrite Hq. apply elem_of_cons. by left.
Qed.

Lemma requeue_subset q c t b : queued (requeue q c t) b → b = c ∨ queued q b.
Proof.
  unfold requeue, enqueue. case_decide; [|by right]. intros Hb.
  apply queued_qset in Hb as [Hb|]; [|by right]. apply elem_of_app in Hb as [Hb|Hb].
  - right. by eexists.
  - left. by apply list_elem_of_singleton.
Qed.

(** Scheduling among other tasks does not bring a task back into the queues. *)
Lemma scheduled_without q cur t n q' c :
  ¬ queued q c → cur ≠ c → c ≠ task_pool 0 → pick (requeue q cur t) n q' → n ≠ c ∧ ¬ queued q' c.
Proof.
  intros Hq Hcur Hidle Hpick. split.
  - intros ->. apply pick_elem in Hpick as [|Hb]; [done|]. apply requeue_subset in Hb. naive_solver.
  - intros Hb. eapply pick_subset, requeue_subset in Hb; [|exact Hpick]. naive_solver.
Qed.

Section lost_task.
Context `{!Platform}.

Lemma lost_scheduler k q k' c :
  kernel_rep k q → scheduler_post k q k' → ¬ queued q c → current_task k ≠ c → c ≠ task_pool 0 →
  tcb_state <$> tasks k !! c = Some TASK_STATE_READY → lost k' c.
Proof.
  intros Hk Hpost Hq Hcur Hidle Hst.
  pose proof (scheduler_post_inv _ _ _ Hk Hpost) as (Hk' & _).
  unfold scheduler_post in Hpost.
  assert (∀ k0, tasks k0 = tasks k → ready_queue k0 = ready_queue k → not_linked k0 c) as Hnl.
  { unfold not_linked. intros k0 -> ->. apply (not_linked_queued k q); [apply Hk|done]. }
  destruct (scheduler_running k); [|subst k'; split; auto].
  destruct (Z.eqb_spec (current_task k) NULL) as [Hnull|Hnull]; [subst k'; split; auto|].
  destruct Hpost as (t & Ht & Hpost). destruct (tcb_time_slice (charge t) =? 0).
  - destruct Hpost as (q' & n & Hpick & Hr' & Hsw & _).
    destruct (scheduled_without _ _ _ _ _ _ Hq Hcur Hidle Hpick) as [Hn Hq'].
    split; auto.
    + rewrite (sw_state _ _ _ _ Hsw) by done. simpl. by rewrite lookup_insert_ne.
    + by apply (not_linked_queued k' q').
    + by rewrite (sw_current _ _ _ _ Hsw).
  - assert (kernel_rep k' q) as Hrep by (subst k'; by apply charged_rep).
    split; auto; [|by apply (not_linked_queued k' q); [apply Hrep|]|by subst k'].
    subst k'. simpl. by rewrite lookup_insert_ne.
Qed.

Lemma lost_tick k c : lost k c → wp os_scheduler (λ _ k', lost k' c) k.
Proof.
  intros [[q Hk] Hst Hnl Hcur Hidle]. rewrite not_linked_queued in Hnl by apply Hk.
  eapply wp_mono; [by apply os_scheduler_spec|]. intros [] k' Hp. by eapply lost_scheduler.
Qed.

Lemma lost_yield k c : lost k c → wp os_task_yield (λ _ k', lost k' c) k.
Proof.
  intros Hl. pose proof Hl as [[q Hk] Hst Hnl Hcur Hidle].
  rewrite not_linked_queued in Hnl by apply Hk.
  eapply wp_mono; [by apply os_task_yield_spec|]. intros [] k'. unfold yield_post.
  destruct (current_task k =? NULL); [by intros ->|]. intros (t & Ht & Hp).
  eapply lost_scheduler; [by apply slice0_rep|exact Hp|..]; auto.
  simpl. by rewrite lookup_insert_ne.
Qed.

Lemma lost_resume k c a :
  lost k c → task_arg k a → wp (os_task_resume a) (λ _ k', lost k' c) k.
Proof.
  intros Hl Ha. pose proof Hl as [[q Hk] Hst Hnl Hcur Hidle].
  pose proof Hnl as Hnq. rewrite not_linked_queued in Hnq by apply Hk.
  unfold os_task_resume. destruct (Z.eqb_spec a NULL) as [|Hn]; [done|].
  destruct Ha as [|[t Ht]]; [done|]. wp_step.
  eapply wp_load; [exact Ht|]. wp_step. case_bool_decide as Hs; wp_step.
  - set (k1 := k <| primask := 1 |>). assert (kernel_rep k1 q) as Hk1 by by apply primask_rep.
    assert (¬ queued q a) as Hqa.
    { intros Hqa. eapply queued_ready in Hqa; [|apply Hk|done]. congruence. }
    assert (a ≠ c) as Hac by (intros ->; rewrite Ht in Hst; simpl in Hst; congruence).
    eapply wp_mono.
    { apply wp_conj; [by apply (add_rep _ q a t)|].
      apply (scheduler_add_ready_task_spec _ q a t); [apply Hk1|done|done]. }
    intros [] k' [(Hk' & Ho & _) Hadd]. wp_step.
    destruct (add_post_frame k1 _ _ _ _ Ht Hadd) as [_ Hsame].
    pose proof (queues_only_fields k1 _ Ho) as (Hc' & _).
    set (q' := enqueue q (tcb_priority t) a) in *.
    assert (¬ queued q' c) as Hq'.
    { intros Hb. apply queued_qset in Hb as [Hb|]; [|done].
      apply elem_of_app in Hb as [?|Hb]; [by apply Hnq; eexists|].
      by apply list_elem_of_singleton in Hb. }
    split; auto; [by exists q'; apply primask_rep| | |].
    + rewrite <-Hst. by apply Hsame.
    + apply (not_linked_queued _ q'); [|done]. by apply primask_rep.
    + simpl. by rewrite Hc'.
  - split; auto. exists q. by apply primask_rep, primask_rep.
Qed.
End lost_task.

Section lone_task.
Context `{!Platform}.

(** The running task yields and is chosen again: it stays current, but its state is ready. *)
Lemma lone_first k c p :
  running_at k c p → fifo k p [] →
  wp os_task_yield (λ _ k', ∃ q t,
    processor k' q c t ∧ tcb_state t = TASK_STATE_READY ∧ ¬ queued q c) k.
Proof.
  intros Hrun Hf. destruct (running_at_processor _ _ _ Hrun) as (q & t & Hpr & Hs & <- & Hrange & Htop).
  pose proof (fifo_det _ _ _ _ (pr_rep _ _ _ _ Hpr) Hrange Hf) as Hq.
  pose proof (running_not_queued _ _ _ _ Hpr Hs) as Hnq.
  eapply wp_mono; [by apply yield_step|].
  intros [] k' (n & q' & t' & Hpick & Hpr' & _ & _ & Hold & _).
  unfold requeue, enqueue in Hpick. rewrite decide_True, Hq in Hpick by done. simpl in Hpick.
  destruct Hpick as [(Hall & _)|(p0 & rest & Hp0 & Hlow & ->)].
  { specialize (Hall (tcb_priority t)). by rewrite qset_eq in Hall. }
  assert (p0 = tcb_priority t) as ->.
  { destruct (decide (p0 < tcb_priority t)); [rewrite qset_ne, Htop in Hp0 by lia; done|].
    destruct (decide (tcb_priority t < p0)) as [Hlt|]; [|lia]. apply Hlow in Hlt.
    by rewrite qset_eq in Hlt. }
  rewrite qset_eq in Hp0. injection Hp0 as <- <-. eexists _, t'. split; [exact Hpr'|]. split.
  - rewrite (pr_task _ _ _ _ Hpr'), Hs in Hold. by injection Hold.
  - intros (p' & Hb). unfold qset in Hb. case_decide; [by apply not_elem_of_nil in Hb|].
    apply Hnq. by exists p'.
Qed.

(** A current task that is ready but not queued is dropped by its next yield. *)
Lemma lone_second k q c t :
  processor k q c t → tcb_state t = TASK_STATE_READY → ¬ queued q c → c ≠ task_pool 0 →
  wp os_task_yield (λ _ k', lost k' c) k.
Proof.
  intros Hpr Hs Hnq Hidle. eapply wp_mono; [by apply yield_step|].
  intros [] k' (n & q' & t' & Hpick & [Hk' _ Hcur _] & _ & _ & Hold & _).
  unfold requeue in Hpick. rewrite decide_False in Hpick by congruence.
  assert (n ≠ c) as Hn by (intros ->; apply pick_elem in Hpick; naive_solver).
  split; auto.
  - by eexists.
  - by rewrite Hold, Hs.
  - apply (not_linked_queued k' q'); [apply Hk'|]. intros Hb. by eapply Hnq, pick_subset.
  - by rewrite Hcur.
Qed.

(** The calls that only schedule or resume. *)
Definition passive (c : call) : Prop :=
  match c with CallYield | CallTick | CallResume _ => True | _ => False end.

Lemma lost_call k c call :
  lost k c → passive call → call_ok k call → wp (run_call call) (λ _ k', lost k' c) k.
Proof.
  intros Hl Hp Hc. destruct call; try done; simpl.
  - by apply discard_result, lost_resume.
  - by apply lost_yield.
  - by apply lost_tick.
Qed.
End lone_task.

(** * Delays *)
Section delay.
Context `{!Platform} {S : Type} `{!KernelView S} (env : S → S) (P : S → Prop) `{!Rely env P}.

(** [r] ticks are left. *)
Lemma delay_loop_spec fuel : ∀ s target r,
  live (kget s) → P s → target = u32 (tick_count (kget s) + r) →
  - SWITCH_BOUND ≤ r ≤ SWITCH_BOUND → (Z.to_nat r < fuel)%nat →
  wp (delay_loop env fuel target) (λ _ s', P s' ∧ primask (kget s') = primask (kget s) ∧
    advance (Z.max 0 r + SWITCH_BOUND) (kget s) (kget s') ∧
    ∃ e, r ≤ e ≤ Z.max 0 r + SWITCH_BOUND ∧ 0 ≤ e ∧ (r ≤ 0 → e = 0) ∧
      tick_count (kget s') = u32 (tick_count (kget s) + e)) s.
Proof.
  unfold SWITCH_BOUND.
  induction fuel as [|fuel IH]; intros s target r Hl HP -> Hr Hfuel; [lia|]. simpl. wp_step.
  rewrite <-i32_u32, u32_sub_u32_l, i32_u32.
  replace (tick_count (kget s) + r - tick_count (kget s)) with r by lia.
  rewrite (i32_small r) by lia. rewrite kput_kget. destruct (Z.ltb_spec 0 r).
  - wp_step. eapply wp_mono; [by apply (yield_advance env P)|]. unfold SWITCH_BOUND.
    intros [] s1 (HP1 & Hp1 & Had1 & d & Hd & Ht1). eapply wp_mono.
    { apply (IH s1 _ (r - d)); try done; [by eapply advance_live| |lia..].
      rewrite Ht1, u32_add_u32_l. f_equal. lia. }
    intros [] s2 (HP2 & Hp2 & Had2 & e & He & He0 & Hz & Ht2).
    assert (∃ e', r ≤ e' ≤ Z.max 0 r + 2 ^ 30 ∧ 0 ≤ e' ∧ (r ≤ 0 → e' = 0) ∧
      tick_count (kget s2) = u32 (tick_count (kget s) + e')) as Htick.
    { exists (d + e). split_and!; [lia..|]. rewrite Ht2, Ht1, u32_add_u32_l. f_equal. lia. }
    split_and!; [done|congruence| |done]. destruct Had1, Had2. split; auto; [congruence|tauto|].
    destruct Htick as (e' & ? & ? & _ & ?). exists e'. split; [lia|done].
  - wp_step. assert (u32 (tick_count (kget s) + 0) = tick_count (kget s)) as Hz.
    { rewrite Z.add_0_r. apply kernel_inv_tick, Hl. }
    split_and!; [done|done| |exists 0; split_and!; [lia..|done]].
    split; auto; [apply Hl|]. exists 0. split; [lia|done].
Qed.

Lemma os_task_delay_spec fuel s ticks :
  live (kget s) → P s → 0 ≤ ticks ≤ SWITCH_BOUND → (Z.to_nat ticks < fuel)%nat →
  wp (os_task_delay env fuel ticks) (λ _ s', P s' ∧ primask (kget s') = primask (kget s) ∧
    advance (ticks + SWITCH_BOUND) (kget s) (kget s') ∧
    ∃ e, ticks ≤ e ≤ ticks + SWITCH_BOUND ∧
      tick_count (kget s') = u32 (tick_count (kget s) + e)) s.
Proof.
  intros Hl HP Ht Hfuel. unfold os_task_delay. wp_step. rewrite kput_kget.
  eapply wp_mono; [apply (delay_loop_spec fuel s _ ticks); try done; unfold SWITCH_BOUND in *; lia|].
  rewrite Z.max_r by lia.
  intros [] s' (? & ? & ? & e & ? & ? & _ & ?). split_and!; auto. exists e. split; [lia|done].
Qed.
End delay.

(** * Stack usage *)

(** Word [i] of the stack still holds the zero [os_task_create] put there. *)
Definition unused_word (t : tcb_t) (i : Z) : Prop := tcb_stack t !! Z.to_nat i = Some 0.

Lemma skip_zeros_spec words : ∀ cur,
  0 ≤ cur → cur + Z.of_nat (length words) = STACK_SIZE →
  cur ≤ skip_zeros words cur ≤ Z.max cur (STACK_SIZE - 1) ∧
  (∀ i, cur ≤ i < skip_zeros words cur → words !! Z.to_nat (i - cur) = Some 0) ∧
  (skip_zeros words cur < STACK_SIZE - 1 →
   ∃ x, words !! Z.to_nat (skip_zeros words cur - cur) = Some x ∧ x ≠ 0).
Proof.
  assert (STACK_SIZE = 256) as HS by done. rewrite HS.
  induction words as [|x words IH]; intros cur H0 Hlen; simpl in *; rewrite ?HS.
  { split_and!; intros; lia. }
  destruct (Z.ltb_spec cur (256 - 1)) as [Hlt|]; simpl; [|split_and!; intros; lia].
  destruct (Z.eqb_spec x 0) as [->|Hx]; [|split_and!; [lia|lia|intros; lia|]].
  - destruct (IH (cur + 1)) as (Hb & Hz & Hnz); [lia..|]. split_and!; [lia|lia| |].
    + intros i Hi. destruct (decide (i = cur)) as [->|]; [by rewrite Z.sub_diag|].
      replace (Z.to_nat (i - cur)) with (S (Z.to_nat (i - (cur + 1)))) by lia. apply Hz. lia.
    + intros Hs. destruct (Hnz Hs) as (y & Hy & ?). exists y. split; [|done].
      replace (Z.to_nat (skip_zeros words (cur + 1) - cur))
        with (S (Z.to_nat (skip_zeros words (cur + 1) - (cur + 1)))) by lia. done.
  - intros _. exists x. by rewrite Z.sub_diag.
Qed.

(** * The properties *)

(** An instance of [Platform] and a small system: two tasks of priority 1, one of priority 5. *)
#[local] Program Instance demo_platform : Platform :=
  {| context_switch := λ o _, o; idle_task := 4096 |}.
Next Obligation. by intros []. Qed.
Next Obligation. done. Qed.

Definition demo_boot : kernel_t :=
  Kernel NULL [] [] 0 0 0 false
    (<[100 := tcb_zero]> (<[200 := tcb_zero]> (<[300 := tcb_zero]> ∅))) 0.
Definition after (m : M kernel_t unit) (k : kernel_t) : kernel_t :=
  match m k with Ret _ k' => k' | _ => k end.
Definition demo_init : kernel_t := Eval vm_compute in after os_init demo_boot.
Definition demo_ready : kernel_t := Eval vm_compute in
  after (run_call (CallCreate 100 None 5000 7 1)) demo_init.
Definition demo_one : kernel_t := Eval vm_compute in after (run_call CallStart) demo_ready.
Definition demo_ready2 : kernel_t := Eval vm_compute in
  after (run_call (CallCreate 200 None 5004 8 1)) demo_ready.
Definition demo_two : kernel_t := Eval vm_compute in after (run_call CallStart) demo_ready2.

Lemma demo_boot_ok : boot_ok demo_boot.
Proof.
  split; [done|]. intros a t. unfold demo_boot. simpl.
  rewrite !lookup_insert_Some, lookup_empty. intros Ht.
  assert (t = tcb_zero) as -> by naive_solver. split; simpl; lia.
Qed.

Lemma demo_init_reachable : reachable demo_init.
Proof. apply (reachable_init demo_boot); [apply demo_boot_ok|vm_compute; reflexivity]. Qed.

(** A control block outside every queue, decided on the heads of the queues. *)
Definition unlinked_b (k : kernel_t) (a : ptr) : bool :=
  forallb (λ h, negb (h =? a)) (ready_queue k) &&
  forallb (λ kv, negb (tcb_next (snd kv) =? a)) (map_to_list (tasks k)).

Lemma lseg_member_linked m l : ∀ h a, lseg m h l → a ∈ l →
  h = a ∨ ∃ b t, m !! b = Some t ∧ tcb_next t = a.
Proof.
  induction l as [|x l IH]; intros h a Hl Ha; [by apply not_elem_of_nil in Ha|].
  destruct Hl as (-> & _ & t & Ht & Hl). apply elem_of_cons in Ha as [->|Ha]; [by left|].
  right. destruct (IH _ _ Hl Ha) as [<-|]; eauto.
Qed.

Lemma unlinked_b_sound k a : unlinked_b k a = true → not_linked k a.
Proof.
  unfold unlinked_b. intros [Hh Ht]%andb_true_iff i h l Hi Hl Ha.
  destruct (lseg_member_linked _ _ _ _ Hl Ha) as [->|(b & t & Hb & Hn)].
  - rewrite forallb_forall in Hh. apply list_elem_of_lookup_2, list_elem_of_In, Hh in Hi.
    by rewrite Z.eqb_refl in Hi.
  - rewrite forallb_forall in Ht. apply elem_of_map_to_list, list_elem_of_In, Ht in Hb.
    simpl in Hb. rewrite Hn, Z.eqb_refl in Hb. done.
Qed.

Ltac demo_create :=
  split; [right; vm_compute; eauto|split; [apply unlinked_b_sound; vm_compute; reflexivity|lia]].

Lemma demo_ready_reachable : reachable demo_ready.
Proof.
  apply (reachable_call demo_init (CallCreate 100 None 5000 7 1));
    [apply demo_init_reachable|demo_create|vm_compute; reflexivity].
Qed.

Lemma demo_one_reachable : reachable demo_one.
Proof.
  apply (reachable_call demo_ready CallStart);
    [apply demo_ready_reachable|done|vm_compute; reflexivity].
Qed.

Lemma demo_two_reachable : reachable demo_two.
Proof.
  apply (reachable_call demo_ready2 CallStart); [|done|vm_compute; reflexivity].
  apply (reachable_call demo_ready (CallCreate 200 None 5004 8 1));
    [apply demo_ready_reachable|demo_create|vm_compute; reflexivity].
Qed.

Lemma demo_running k c t :
  reachable k → scheduler_running k = true → current_task k = c → tasks k !! c = Some t →
  tcb_state t = TASK_STATE_RUNNING → tcb_priority t = 1 → ready_queue k !! 0%nat = Some NULL →
  running_at k c 1.
Proof.
  intros Hr ? ? ? ? ? H0. split; auto; [by apply reachable_kernel_inv|eauto|].
  intros p' Hp'. assert (p' = 0) as -> by lia. by exists NULL.
Qed.

(** C1. Safety of the kernel: after [os_init], whatever sequence of calls and ticks follows, the
    ready queues, the bitmap and the control blocks are consistent, and every further call with
    valid arguments returns (no wild pointer, no index out of range, no endless list), keeps them
    consistent and leaves PRIMASK as it found it. *)
Theorem kernel_safety `{!Platform} k :
  reachable k →
  kernel_inv k ∧ ∀ c, call_ok k c →
    ∃ k', run_call c k = Ret tt k' ∧ kernel_inv k' ∧ primask k' = primask k.
Proof.
  intros Hr. apply reachable_kernel_inv in Hr. split; [done|]. intros c Hc.
  destruct (wp_elim _ _ _ (run_call_keeps k c Hr Hc)) as ([] & k' & Hrun & Hk' & Hp). eauto.
Qed.

Lemma kernel_safety_witness : ∃ k', run_call (CallSetPriority 200 9) demo_two = Ret tt k'.
Proof.
  destruct (kernel_safety demo_two demo_two_reachable) as [_ Hc].
  destruct (Hc (CallSetPriority 200 9)) as (k' & Hk' & _).
  - split; [right; vm_compute; eauto|lia].
  - by exists k'.
Defined.

(** C3. The scheduling policy: when the time slice of the current task is used up, the task that
    gets the processor is at least as urgent as every task left in a ready queue. *)
Theorem scheduling_policy `{!Platform} k t :
  kernel_inv k → scheduler_running k = true → current_task k ≠ NULL →
  tasks k !! current_task k = Some t → tcb_time_slice t ≤ 1 →
  wp os_scheduler (λ _ k', ∀ c p l a, 0 ≤ p < 256 → fifo k' p l → a ∈ l →
    tasks k' !! current_task k' = Some c → tcb_priority c ≤ p) k.
Proof.
  intros [q Hk] Hrun Hcur Ht Hslice. eapply wp_mono; [by apply os_scheduler_spec|].
  intros [] k' Hpost. pose proof (scheduler_post_inv _ _ _ Hk Hpost) as ([q0 Hk'] & Hid & _).
  unfold scheduler_post in Hpost. rewrite Hrun in Hpost.
  destruct (Z.eqb_spec (current_task k) NULL) as [|_]; [done|].
  destruct Hpost as (t' & Ht' & Hpost). rewrite Ht in Ht'. injection Ht' as <-.
  pose proof (ri_tcb_ok _ _ (kr_ready _ _ Hk) _ _ Ht) as [_ _ Hok].
  assert (tcb_time_slice (charge t) = 0) as Hz.
  { simpl. destruct (Z.ltb_spec 0 (tcb_time_slice t)); lia. }
  rewrite Hz in Hpost. destruct Hpost as (q' & n & Hpick & Hr' & Hsw & _).
  intros c p l a Hp Hf Ha Hc. rewrite (sw_current _ _ _ _ Hsw) in Hc.
  destruct (ri_queue _ _ Hr' p Hp) as (h & Hh & Hl). destruct Hf as (h' & Hh' & Hl').
  rewrite Hh in Hh'. injection Hh' as <-. rewrite <-(lseg_det _ _ _ _ Hl Hl') in Ha.
  eapply (pick_lowest k (current_task k) t q n q' k'); eauto. apply Hk.
Qed.

Lemma scheduling_policy_witness :
  wp os_scheduler (λ _ k', ∀ c p l a, 0 ≤ p < 256 → fifo k' p l → a ∈ l →
    tasks k' !! current_task k' = Some c → tcb_priority c ≤ p)
    (demo_two <| tasks ::= alter (λ t, t <| tcb_time_slice := 1 |>) 100 |>).
Proof.
  destruct (reachable_kernel_inv _ demo_two_reachable) as [q Hk].
  eapply scheduling_policy; [|done|done|vm_compute; reflexivity|done].
  exists q. assert (tasks demo_two !! 100 = Some (default tcb_zero (tasks demo_two !! 100))) as Ht
    by reflexivity.
  pose proof (touch_rep _ _ _ _ (default tcb_zero (tasks demo_two !! 100) <| tcb_time_slice := 1 |>)
    Hk Ht) as Hk'.
  by apply Hk'.
Defined.

(** C4. Round robin: while the running task and the ready tasks of its priority yield in turn, each
    gets the processor in the order of the queue; after one full cycle the first task runs again
    and the queue is what it was. *)
Theorem round_robin `{!Platform} k c p a l1 l2 :
  running_at k c p → fifo k p (l1 ++ a :: l2) →
  wp (steps (S (length l1)) os_task_yield)
    (λ _ k', current_task k' = a ∧ fifo k' p (l2 ++ c :: l1)) k ∧
  wp (steps (S (length (l1 ++ a :: l2))) os_task_yield)
    (λ _ k', current_task k' = c ∧ fifo k' p (l1 ++ a :: l2)) k.
Proof.
  intros Hrun Hf. split.
  { eapply wp_mono; [by apply round_robin_run|]. intros [] k' [Hr Hf']. split; [apply Hr|done]. }
  apply steps_snoc. destruct (exists_last (l := l1 ++ a :: l2)) as (l & z & Hl); [by destruct l1|].
  rewrite Hl in Hf |- *. rewrite length_app, Nat.add_comm.
  eapply wp_mono; [by apply (round_robin_run l k c p z [])|]. simpl. intros [] k' [Hr' Hf'].
  eapply wp_mono; [by apply round_robin_step|]. intros [] k'' [Hr'' Hf'']. split; [apply Hr''|done].
Qed.

Lemma round_robin_witness :
  wp (steps 1 os_task_yield) (λ _ k', current_task k' = 200 ∧ fifo k' 1 [100]) demo_two.
Proof.
  refine (proj1 (round_robin demo_two 100 1 200 [] [] _ _)).
  - eapply demo_running; [apply demo_two_reachable|..]; reflexivity.
  - exists 200. split; [reflexivity|]. split; [done|]. split; [done|]. eexists. by split.
Defined.

(** C5. A task can be lost: when the only task of the highest ready priority yields (or uses up its
    time slice) it keeps the processor but its state stays ready, so that its second yield drops
    it. From then on no tick, no yield and no [os_task_resume], of it or of any other task, makes
    it run again. *)
Theorem lone_task_lost `{!Platform} k c p :
  running_at k c p → fifo k p [] → c ≠ task_pool 0 →
  wp (steps 2 os_task_yield) (λ _ k', lost k' c) k ∧
  ∀ k1 call, lost k1 c → passive call → call_ok k1 call →
    wp (run_call call) (λ _ k', lost k' c) k1.
Proof.
  intros Hrun Hf Hc. split; [|by intros; apply lost_call].
  rewrite steps_S. eapply wp_mono; [by apply (lone_first k c p)|].
  intros [] k1 (q & t & Hp & Hs & Hq). apply steps_snoc. by eapply lone_second.
Qed.

Lemma lone_task_lost_witness : wp (steps 2 os_task_yield) (λ _ k', lost k' 100) demo_one.
Proof.
  refine (proj1 (lone_task_lost demo_one 100 1 _ _ _)); [|by exists NULL|done].
  eapply demo_running; [apply demo_one_reachable|..]; reflexivity.
Defined.


#[local] Instance idle_rely : Rely (S := kernel_t) id (λ _, True).
Proof.
  split; [done|]. intros k Hl _. split_and!; auto. eapply advance_mono; [|apply steady_advance].
  - done.
  - apply Hl.
  - apply steady_refl, Hl.
Qed.


(** Stack usage is the high-water mark: the words [calculate_stack_usage] counts as free have
    never been written with a non-zero value, and the count is exact unless even the last word of
    the scanned range is zero. *)
Theorem calculate_stack_usage_exact t :
  length (tcb_stack t) = 256%nat →
  let used := calculate_stack_usage t in
  4 ≤ used ≤ 1024 ∧ used mod 4 = 0 ∧
  (∀ i, 0 ≤ i < 256 - used / 4 → unused_word t i) ∧
  (4 < used → ∃ x, tcb_stack t !! Z.to_nat (256 - used / 4) = Some x ∧ x ≠ 0).
Proof.
  intros Hlen used. destruct (skip_zeros_spec (tcb_stack t) 0) as (Hb & Hz & Hnz);
    [lia|by rewrite Hlen|]. unfold used, calculate_stack_usage.
  set (n := skip_zeros _ _) in *. change STACK_SIZE with 256 in *.
  rewrite Z.mod_mul, Z.div_mul by lia. replace (256 - (256 - 1 - n + 1)) with n by lia.
  setoid_rewrite Z.sub_0_r in Hz. rewrite Z.sub_0_r in Hnz.
  split_and!; try lia; [done|]. intros. apply Hnz. lia.
Qed.

Lemma calculate_stack_usage_witness :
  4 ≤ calculate_stack_usage (new_tcb None 5000 7 1) ≤ 1024 ∧
  calculate_stack_usage (new_tcb None 5000 7 1) = 36.
Proof.
  split; [|reflexivity]. apply (calculate_stack_usage_exact (new_tcb None 5000 7 1)). reflexivity.
Defined.

Lemma ready_queue_refinement_witness : ∃ q, ready_inv demo_two q ∧
  wp scheduler_get_next_task (λ a k', ∃ q', pick q a q' ∧ ready_inv k' q' ∧ queues_only demo_two k' ∧
    relinked (tasks demo_two) (tasks k')) demo_two.
Proof.
  destruct (reachable_kernel_inv _ demo_two_reachable) as [q Hk]. exists q.
  split; [apply Hk|]. refine (proj1 (ready_queue_refinement demo_two q _)). apply Hk.
Defined.

(** The exception frame the first switch to a task restores: R0 to R3, R12, LR, PC and xPSR. *)
Definition exception_frame (t : tcb_t) : list Z :=
  take 8 (drop (Z.to_nat (tcb_stack_ptr t)) (tcb_stack t)).

Lemma frame_of_new name entry param prio :
  exception_frame (new_tcb name entry param prio) =
  [u32 param; 0; 0; 0; 0; 0; u32 entry; 16777216].
Proof. reflexivity. Qed.

(** C7. [os_task_create], on every branch: a null task or entry point and a full task table are
    refused without a change; otherwise the task is appended to the queue of its priority with a
    fresh control block whose stack holds an exception frame that starts [entry param] in Thumb
    state. *)
Theorem os_task_create_branches k a name entry param prio :
  kernel_inv k → task_arg k a → not_linked k a → 0 ≤ prio < 256 →
  wp (os_task_create a name entry param prio) (λ r k',
    if (a =? NULL) || (entry =? NULL) then r = OS_ERROR_INVALID_PARAM ∧ k' = k
    else if MAX_TASKS <=? task_count k then r = OS_ERROR_NO_MEMORY ∧ k' = k
    else r = OS_OK ∧ kernel_inv k' ∧ task_count k' = task_count k + 1 ∧
      (∀ l, fifo k prio l → fifo k' prio (l ++ [a])) ∧
      ∃ t, tasks k' !! a = Some t ∧ tcb_state t = TASK_STATE_READY ∧ tcb_priority t = prio ∧
        exception_frame t = [u32 param; 0; 0; 0; 0; 0; u32 entry; 16777216]) k.
Proof.
  intros [q Hk] Ha Hn Hp. rewrite not_linked_queued in Hn by apply Hk.
  eapply wp_mono; [apply (os_task_create_rep k q); [done| |done]|].
  { destruct Ha as [?|?]; [by left|by right]. }
  intros r k'. destruct (_ || _); [done|]. destruct (Z.leb_spec MAX_TASKS (task_count k)); [done|].
  intros (-> & Hk' & Hcnt & _ & _ & Ht & _). unfold MAX_TASKS in *. split_and!; [done|by eexists|..].
  - rewrite Hcnt. apply u8_small. pose proof (kr_count _ _ Hk). lia.
  - intros l Hl. rewrite <-(fifo_det _ _ _ _ Hk Hp Hl).
    pose proof (fifo_rep _ _ _ Hk' Hp) as Hf. unfold enqueue in Hf. by rewrite qset_eq in Hf.
  - eexists. split_and!; [exact Ht|done..].
Qed.

Lemma os_task_create_branches_witness : ∃ k', os_task_create 300 None 5008 9 5 demo_two = Ret OS_OK k'.
Proof.
  assert (task_arg demo_two 300) as Ha by (right; vm_compute; eauto).
  assert (not_linked demo_two 300) as Hn by (apply unlinked_b_sound; vm_compute; reflexivity).
  pose proof (os_task_create_branches demo_two 300 None 5008 9 5
    (reachable_kernel_inv _ demo_two_reachable) Ha Hn ltac:(lia)) as Hwp.
  destruct (wp_elim _ _ _ Hwp) as (r & k' & Hk' & Hr). exists k'. rewrite Hk'.
  f_equal. vm_compute in Hr. apply Hr.
Defined.
