(* ===== verification/Sync.v ===== *)
(** Sync: the mutexes, semaphores, message queues, event groups and condition variables of
    [src/sync.c].

    [sys_t] is the kernel with the synchronisation objects of the application, each by its address,
    and the byte arrays that message buffers and messages live in. [env] is what the rest of the
    system does while the calling task is switched out, as in [Kernel]: code between two points
    where a task gives up the processor is one step, and the loops that wait for other tasks run
    with fuel. *)
From Stdlib Require Import ZArith Lia.
From stdpp Require Import base numbers gmap list.
From S2P Require Import Prelude Types Kernel.

(** * Objects *)
Record mutex_t := Mutex {
  m_locked : bool;
  m_owner : ptr;
  m_ceiling_priority : Z
}.
#[export] Instance mutex_eta : Eta mutex_t := λ m, Mutex (m_locked m) (m_owner m) (m_ceiling_priority m).

Record semaphore_t := Semaphore { s_count : Z; s_wait_queue : ptr }.
#[export] Instance semaphore_eta : Eta semaphore_t := λ s, Semaphore (s_count s) (s_wait_queue s).

(** The [lock] of a queue is the mutex at [queue_lock]. *)
Record msg_queue_t := MsgQueue {
  q_buffer : ptr;
  q_item_size : Z;
  q_max_items : Z;
  q_head : Z;
  q_tail : Z;
  q_count : Z
}.
#[export] Instance msg_queue_eta : Eta msg_queue_t := λ q,
  MsgQueue (q_buffer q) (q_item_size q) (q_max_items q) (q_head q) (q_tail q) (q_count q).
Definition queue_lock (queue : ptr) : ptr := queue + 24.

Record event_group_t := EventGroup { eg_events : Z; eg_wait_queue : ptr }.
#[export] Instance event_group_eta : Eta event_group_t := λ e,
  EventGroup (eg_events e) (eg_wait_queue e).
Definition EVENT_WAIT_ALL : Z := 1.
Definition EVENT_WAIT_ANY : Z := 2.
Definition EVENT_CLEAR_ON_EXIT : Z := 4.

Record cond_var_t := CondVar { cv_wait_queue : ptr; cv_waiting_count : Z }.
#[export] Instance cond_var_eta : Eta cond_var_t := λ c, CondVar (cv_wait_queue c) (cv_waiting_count c).

Record sys_t := Sys {
  sys_kernel : kernel_t;
  mutexes : gmap Z mutex_t;
  semaphores : gmap Z semaphore_t;
  queues : gmap Z msg_queue_t;
  event_groups : gmap Z event_group_t;
  cond_vars : gmap Z cond_var_t;
  memory : gmap Z (list Z)
}.
#[export] Instance sys_eta : Eta sys_t := λ s,
  Sys (sys_kernel s) (mutexes s) (semaphores s) (queues s) (event_groups s) (cond_vars s) (memory s).

#[export] Program Instance sys_view : KernelView sys_t :=
  {| kget := sys_kernel; kput := λ k s, s <| sys_kernel := k |> |}.
Solve All Obligations with (intros; repeat match goal with s : sys_t |- _ => destruct s end; done).

(** Access through a pointer to an object of one kind, the field [f] of [sys_t]. *)
Definition obj_get {V} (f : sys_t → gmap Z V) (p : ptr) : M sys_t V := λ s,
  match f s !! p with Some v => Ret v s | None => Undef end.
Definition obj_set {V} (f : sys_t → gmap Z V) `{!Setter f} (p : ptr) (g : V → V) : M sys_t unit := λ s,
  match f s !! p with Some v => Ret tt (set_field f (insert p (g v)) s) | None => Undef end.

(** [n] bytes at offset [off] of the array at [p], the two halves of a [memcpy]. *)
Definition read_bytes (p : ptr) (off n : Z) : M sys_t (list Z) := λ s,
  match memory s !! p with
  | Some l =>
      if (0 <=? off) && (off + n <=? Z.of_nat (length l))
      then Ret (take (Z.to_nat n) (drop (Z.to_nat off) l)) s else Undef
  | None => Undef
  end.
Definition write_bytes (p : ptr) (off : Z) (bs : list Z) : M sys_t unit := λ s,
  match memory s !! p with
  | Some l =>
      if (0 <=? off) && (off + Z.of_nat (length bs) <=? Z.of_nat (length l))
      then Ret tt (s <| memory ::= <[p := take (Z.to_nat off) l ++ bs ++
                                        drop (Z.to_nat off + length bs) l]> |>)
      else Undef
  | None => Undef
  end.

Section sync.
Context `{!Platform} (env : sys_t → sys_t).

Definition enter : M sys_t Z := in_kernel os_enter_critical.
Definition exit (state : Z) : M sys_t unit := in_kernel (os_exit_critical state).
Definition tick : M sys_t Z := in_kernel (gets os_get_tick_count).

(** [timeout != 0 && (os_get_tick_count () - start_tick) >= timeout] *)
Definition timed_out (start_tick timeout : Z) : M sys_t bool :=
  let! now := tick in
  ret (negb (timeout =? 0) && (timeout <=? u32 (now - start_tick))).

(** The loop [while (true)] of the operations that try, check the timeout, yield and try again. The
    result of a successful attempt goes with [OS_OK]. *)
Fixpoint retry {A} (fuel : nat) (attempt : M sys_t (option A)) (start_tick timeout : Z) :
    M sys_t (os_error_t * option A) :=
  match fuel with
  | O => nofuel
  | S fuel =>
      let! r := attempt in
      match r with
      | Some a => ret (OS_OK, Some a)
      | None =>
          let! expired := timed_out start_tick timeout in
          if expired : bool then ret (OS_ERROR_TIMEOUT, None)
          else yield env ;;; retry fuel attempt start_tick timeout
      end
  end.

(** * Mutexes *)
Definition os_mutex_init (mutex : ptr) : M sys_t unit :=
  if mutex =? NULL then ret tt
  else obj_set mutexes mutex (λ _, Mutex false NULL PRIORITY_IDLE).

(** One round of the loop of [os_mutex_lock], up to the check of the timeout. *)
Definition mutex_try (mutex current_task : ptr) : M sys_t (option unit) :=
  let! state := enter in
  let! m := obj_get mutexes mutex in
  if negb (m_locked m) then
    obj_set mutexes mutex (λ m, m <| m_locked := true |> <| m_owner := current_task |>) ;;;
    let! o := in_kernel (load current_task) in
    when (m_ceiling_priority m <? tcb_priority o)
      (obj_set mutexes mutex (λ m, m <| m_ceiling_priority := tcb_priority o |>)) ;;;
    exit state ;;;
    ret (Some tt)
  else
    (if m_owner m =? NULL then ret tt
     else
       let! c := in_kernel (load current_task) in
       let! o := in_kernel (load (m_owner m)) in
       when (tcb_priority c <? tcb_priority o)
         (let! _ := os_task_raise_priority env (m_owner m) (tcb_priority c) in ret tt)) ;;;
    exit state ;;;
    ret None.

Definition os_mutex_lock (fuel : nat) (mutex : ptr) (timeout : Z) : M sys_t os_error_t :=
  if mutex =? NULL then ret OS_ERROR_INVALID_PARAM
  else
    let! current_task := in_kernel (gets os_task_get_current) in
    let! start_tick := tick in
    let! r := retry fuel (mutex_try mutex current_task) start_tick timeout in
    ret (fst r).

Definition os_mutex_unlock (mutex : ptr) : M sys_t os_error_t :=
  if mutex =? NULL then ret OS_ERROR_INVALID_PARAM
  else
    let! current_task := in_kernel (gets os_task_get_current) in
    let! state := enter in
    let! m := obj_get mutexes mutex in
    if negb (m_owner m =? current_task) then
      exit state ;;;
      ret OS_ERROR_PERMISSION_DENIED
    else
      let! _ := os_task_reset_priority env current_task in
      obj_set mutexes mutex (λ m, m <| m_locked := false |> <| m_owner := NULL |>) ;;;
      exit state ;;;
      yield env ;;;
      ret OS_OK.

(** * Semaphores *)
Definition os_semaphore_init (sem : ptr) (initial_count : Z) : M sys_t unit :=
  if sem =? NULL then ret tt
  else obj_set semaphores sem (λ _, Semaphore initial_count NULL).

Definition semaphore_try (sem : ptr) : M sys_t (option unit) :=
  let! state := enter in
  let! v := obj_get semaphores sem in
  if 0 <? s_count v then
    obj_set semaphores sem (λ v, v <| s_count ::= λ n, n - 1 |>) ;;;
    exit state ;;;
    ret (Some tt)
  else
    exit state ;;;
    ret None.

Definition os_semaphore_wait (fuel : nat) (sem : ptr) (timeout : Z) : M sys_t os_error_t :=
  if sem =? NULL then ret OS_ERROR_INVALID_PARAM
  else
    let! start_tick := tick in
    let! r := retry fuel (semaphore_try sem) start_tick timeout in
    ret (fst r).

Definition os_semaphore_get_count (sem : ptr) : M sys_t Z :=
  if sem =? NULL then ret 0
  else
    let! state := enter in
    let! v := obj_get semaphores sem in
    exit state ;;;
    ret (s_count v).

(** [sem->count++] on [INT32_MAX] is a signed overflow. *)
Definition os_semaphore_post (sem : ptr) : M sys_t os_error_t :=
  if sem =? NULL then ret OS_ERROR_INVALID_PARAM
  else
    let! state := enter in
    let! v := obj_get semaphores sem in
    (if s_count v =? 2 ^ 31 - 1 then undef
     else obj_set semaphores sem (λ v, v <| s_count ::= λ n, n + 1 |>)) ;;;
    exit state ;;;
    yield env ;;;
    ret OS_OK.

(** * Message queues *)
Definition os_queue_init (queue buffer : ptr) (item_size max_items : Z) : M sys_t os_error_t :=
  if (queue =? NULL) || (buffer =? NULL) || (item_size =? 0) || (max_items =? 0)
  then ret OS_ERROR_INVALID_PARAM
  else
    obj_set queues queue (λ _, MsgQueue buffer item_size max_items 0 0 0) ;;;
    os_mutex_init (queue_lock queue) ;;;
    ret OS_OK.

(** The part of [os_queue_send] between [lock] and [unlock]; [None] when the queue is full. *)
Definition queue_put (queue item : ptr) : M sys_t (option unit) :=
  let! q := obj_get queues queue in
  if q_count q <? q_max_items q then
    let! bs := read_bytes item 0 (q_item_size q) in
    write_bytes (q_buffer q) (u32 (q_tail q * q_item_size q)) bs ;;;
    obj_set queues queue (λ q, q <| q_tail ::= λ t, u32 (t + 1) mod q_max_items q |>) ;;;
    obj_set queues queue (λ q, q <| q_count ::= λ n, u32 (n + 1) |>) ;;;
    ret (Some tt)
  else ret None.

(** The part of [os_queue_peek] between [lock] and [unlock]; [None] when the queue is empty. *)
Definition queue_front (queue item : ptr) : M sys_t (option unit) :=
  let! q := obj_get queues queue in
  if 0 <? q_count q then
    let! bs := read_bytes (q_buffer q) (u32 (q_head q * q_item_size q)) (q_item_size q) in
    write_bytes item 0 bs ;;;
    ret (Some tt)
  else ret None.

(** The part of [os_queue_receive] between [lock] and [unlock]. *)
Definition queue_take (queue item : ptr) : M sys_t (option unit) :=
  let! q := obj_get queues queue in
  if 0 <? q_count q then
    let! bs := read_bytes (q_buffer q) (u32 (q_head q * q_item_size q)) (q_item_size q) in
    write_bytes item 0 bs ;;;
    obj_set queues queue (λ q, q <| q_head ::= λ h, u32 (h + 1) mod q_max_items q |>) ;;;
    obj_set queues queue (λ q, q <| q_count ::= λ n, u32 (n - 1) |>) ;;;
    ret (Some tt)
  else ret None.

(** The loop the three operations have in common: lock the queue (for at most 10 ticks), run the
    [body], unlock, and if the body could not proceed wait one tick and try again. [fuel] is the
    fuel of the loops inside, [rounds] that of this loop. *)
Fixpoint queue_loop (rounds fuel : nat) (queue : ptr) (body : M sys_t (option unit))
    (start_tick timeout : Z) : M sys_t os_error_t :=
  match rounds with
  | O => nofuel
  | S rounds =>
      let! err := os_mutex_lock fuel (queue_lock queue) 10 in
      if bool_decide (err ≠ OS_OK) then
        let! expired := timed_out start_tick timeout in
        if expired : bool then ret OS_ERROR_TIMEOUT
        else queue_loop rounds fuel queue body start_tick timeout
      else
        let! r := body in
        let! _ := os_mutex_unlock (queue_lock queue) in
        match r with
        | Some _ => ret OS_OK
        | None =>
            let! expired := timed_out start_tick timeout in
            if expired : bool then ret OS_ERROR_TIMEOUT
            else os_task_delay env fuel 1 ;;; queue_loop rounds fuel queue body start_tick timeout
        end
  end.

Definition os_queue_send (rounds fuel : nat) (queue item : ptr) (timeout : Z) : M sys_t os_error_t :=
  if (queue =? NULL) || (item =? NULL) then ret OS_ERROR_INVALID_PARAM
  else
    let! start_tick := tick in
    queue_loop rounds fuel queue (queue_put queue item) start_tick timeout.

Definition os_queue_peek (rounds fuel : nat) (queue item : ptr) (timeout : Z) : M sys_t os_error_t :=
  if (queue =? NULL) || (item =? NULL) then ret OS_ERROR_INVALID_PARAM
  else
    let! start_tick := tick in
    queue_loop rounds fuel queue (queue_front queue item) start_tick timeout.

Definition os_queue_receive (rounds fuel : nat) (queue item : ptr) (timeout : Z) :
    M sys_t os_error_t :=
  if (queue =? NULL) || (item =? NULL) then ret OS_ERROR_INVALID_PARAM
  else
    let! start_tick := tick in
    queue_loop rounds fuel queue (queue_take queue item) start_tick timeout.

Definition os_queue_get_count (queue : ptr) : M sys_t Z :=
  if queue =? NULL then ret 0
  else
    let! state := enter in
    let! q := obj_get queues queue in
    exit state ;;;
    ret (q_count q).

(** * Event groups *)
Definition os_event_group_init (event_group : ptr) : M sys_t unit :=
  if event_group =? NULL then ret tt
  else obj_set event_groups event_group (λ _, EventGroup 0 NULL).

Definition os_event_group_set_bits (event_group : ptr) (bits : Z) : M sys_t os_error_t :=
  if event_group =? NULL then ret OS_ERROR_INVALID_PARAM
  else
    let! state := enter in
    obj_set event_groups event_group (λ e, e <| eg_events ::= λ x, Z.lor x bits |>) ;;;
    exit state ;;;
    yield env ;;;
    ret OS_OK.

Definition os_event_group_clear_bits (event_group : ptr) (bits : Z) : M sys_t os_error_t :=
  if event_group =? NULL then ret OS_ERROR_INVALID_PARAM
  else
    let! state := enter in
    obj_set event_groups event_group (λ e, e <| eg_events ::= λ x, Z.land x (lnot32 bits) |>) ;;;
    exit state ;;;
    ret OS_OK.

(** One round of [os_event_group_wait_bits]; the bits that matched. *)
Definition events_try (event_group : ptr) (bits : Z) (wait_all clear_on_exit : bool) :
    M sys_t (option Z) :=
  let! state := enter in
  let! e := obj_get event_groups event_group in
  let current_events := eg_events e in
  let condition_met :=
    if wait_all then Z.land current_events bits =? bits
    else negb (Z.land current_events bits =? 0) in
  if condition_met then
    when clear_on_exit
      (obj_set event_groups event_group (λ e, e <| eg_events ::= λ x, Z.land x (lnot32 bits) |>)) ;;;
    exit state ;;;
    ret (Some (Z.land current_events bits))
  else
    exit state ;;;
    ret None.

(** The second component is what is written to [*bits_received]. *)
Definition os_event_group_wait_bits (fuel : nat) (event_group : ptr) (bits options : Z)
    (bits_received : ptr) (timeout : Z) : M sys_t (os_error_t * option Z) :=
  if (event_group =? NULL) || (bits =? 0) then ret (OS_ERROR_INVALID_PARAM, None)
  else
    let! start_tick := tick in
    let wait_all := negb (Z.land options EVENT_WAIT_ALL =? 0) in
    let clear_on_exit := negb (Z.land options EVENT_CLEAR_ON_EXIT =? 0) in
    let! r := retry fuel (events_try event_group bits wait_all clear_on_exit) start_tick timeout in
    ret (fst r, if bits_received =? NULL then None else snd r).

Definition os_event_group_get_bits (event_group : ptr) : M sys_t Z :=
  if event_group =? NULL then ret 0
  else
    let! state := enter in
    let! e := obj_get event_groups event_group in
    exit state ;;;
    ret (eg_events e).

(** * Condition variables *)

(** [while (prev != NULL && prev->next != task) prev = prev->next;] *)
Fixpoint find_prev (fuel : nat) (prev task : ptr) : M kernel_t ptr :=
  match fuel with
  | O => nofuel
  | S fuel =>
      if prev =? NULL then ret NULL
      else
        let! t := load prev in
        if tcb_next t =? task then ret prev else find_prev fuel (tcb_next t) task
  end.

Definition cond_remove_task (cond task : ptr) : M sys_t unit :=
  let! c := obj_get cond_vars cond in
  (if cv_wait_queue c =? task then
     let! t := in_kernel (load task) in
     obj_set cond_vars cond (λ c, c <| cv_wait_queue := tcb_next t |>)
   else
     let! fuel := in_kernel (gets list_fuel) in
     let! prev := in_kernel (find_prev fuel (cv_wait_queue c) task) in
     if prev =? NULL then ret tt
     else
       let! t := in_kernel (load task) in
       in_kernel (store prev (λ p, p <| tcb_next := tcb_next t |>))) ;;;
  obj_set cond_vars cond (λ c, c <| cv_waiting_count ::= λ n, u32 (n - 1) |>) ;;;
  in_kernel (store task (λ t, t <| tcb_next := NULL |>)).

Definition os_cond_init (cond : ptr) : M sys_t unit :=
  if cond =? NULL then ret tt else obj_set cond_vars cond (λ _, CondVar NULL 0).

(** The task puts itself at the end of the wait queue. *)
Definition cond_enqueue (cond current_task : ptr) : M sys_t unit :=
  let! c := obj_get cond_vars cond in
  (if cv_wait_queue c =? NULL then
     obj_set cond_vars cond (λ c, c <| cv_wait_queue := current_task |>) ;;;
     in_kernel (store current_task (λ t, t <| tcb_next := NULL |>))
   else
     let! fuel := in_kernel (gets list_fuel) in
     let! tail := in_kernel (find_tail fuel (cv_wait_queue c)) in
     in_kernel (store tail (λ t, t <| tcb_next := current_task |>)) ;;;
     in_kernel (store current_task (λ t, t <| tcb_next := NULL |>))) ;;;
  obj_set cond_vars cond (λ c, c <| cv_waiting_count ::= λ n, u32 (n + 1) |>).

(** Whether [current_task] is on the list that starts at [task]. *)
Fixpoint find_in_queue (fuel : nat) (task current_task : ptr) : M kernel_t bool :=
  match fuel with
  | O => nofuel
  | S fuel =>
      if task =? NULL then ret false
      else if task =? current_task then ret true
      else let! t := load task in find_in_queue fuel (tcb_next t) current_task
  end.

(** The loop [while (!signaled)]; the result is [OS_OK] or [OS_ERROR_TIMEOUT]. *)
Fixpoint cond_wait_loop (fuel : nat) (cond current_task : ptr) (start_tick timeout : Z) :
    M sys_t os_error_t :=
  match fuel with
  | O => nofuel
  | S fuel =>
      let! state := enter in
      let! c := obj_get cond_vars cond in
      let! lf := in_kernel (gets list_fuel) in
      let! found := in_kernel (find_in_queue lf (cv_wait_queue c) current_task) in
      exit state ;;;
      if negb found then ret OS_OK
      else
        let! expired := timed_out start_tick timeout in
        if expired : bool then
          let! state := enter in
          cond_remove_task cond current_task ;;;
          exit state ;;;
          ret OS_ERROR_TIMEOUT
        else yield env ;;; cond_wait_loop fuel cond current_task start_tick timeout
  end.

Definition os_cond_wait (fuel : nat) (cond mutex : ptr) (timeout : Z) : M sys_t os_error_t :=
  if (cond =? NULL) || (mutex =? NULL) then ret OS_ERROR_INVALID_PARAM
  else
    let! current_task := in_kernel (gets os_task_get_current) in
    let! start_tick := tick in
    let! state := enter in
    cond_enqueue cond current_task ;;;
    exit state ;;;
    let! unlock_result := os_mutex_unlock mutex in
    if bool_decide (unlock_result ≠ OS_OK) then
      let! state := enter in
      cond_remove_task cond current_task ;;;
      exit state ;;;
      ret unlock_result
    else
      let! r := cond_wait_loop fuel cond current_task start_tick timeout in
      let! _ := os_mutex_lock fuel mutex 0 in
      ret r.

(** The first task of the wait queue leaves it. *)
Definition cond_wake_first (cond : ptr) : M sys_t unit :=
  let! c := obj_get cond_vars cond in
  let task_to_wake := cv_wait_queue c in
  let! t := in_kernel (load task_to_wake) in
  obj_set cond_vars cond (λ c, c <| cv_wait_queue := tcb_next t |>) ;;;
  in_kernel (store task_to_wake (λ t, t <| tcb_next := NULL |>)) ;;;
  obj_set cond_vars cond (λ c, c <| cv_waiting_count ::= λ n, u32 (n - 1) |>).

Definition os_cond_signal (cond : ptr) : M sys_t os_error_t :=
  if cond =? NULL then ret OS_ERROR_INVALID_PARAM
  else
    let! state := enter in
    let! c := obj_get cond_vars cond in
    when (negb (cv_wait_queue c =? NULL)) (cond_wake_first cond) ;;;
    exit state ;;;
    yield env ;;;
    ret OS_OK.

(** [while (cond->wait_queue != NULL) ...] *)
Fixpoint wake_all (fuel : nat) (cond : ptr) : M sys_t unit :=
  match fuel with
  | O => nofuel
  | S fuel =>
      let! c := obj_get cond_vars cond in
      if cv_wait_queue c =? NULL then ret tt else cond_wake_first cond ;;; wake_all fuel cond
  end.

Definition os_cond_broadcast (cond : ptr) : M sys_t os_error_t :=
  if cond =? NULL then ret OS_ERROR_INVALID_PARAM
  else
    let! state := enter in
    let! fuel := in_kernel (gets list_fuel) in
    wake_all fuel cond ;;;
    exit state ;;;
    yield env ;;;
    ret OS_OK.
End sync.
