(* ===== verification/SyncTheorems.v ===== *)
(** SyncTheorems: the properties of the mutexes, semaphores, event groups and message queues of
    [src/sync.c]. The blocking operations are proved against [Rely], what the rest of the system
    may do while the caller is switched out; the message queue refines a bounded FIFO list. *)
From Stdlib Require Import ZArith Lia.
From stdpp Require Import base numbers gmap list.
From S2P Require Import Prelude Types Kernel ReadyQueue Scheduler KernelApi KernelTheorems Sync.

(** * Access to the objects *)
Lemma wp_obj_get {V} (f : sys_t → gmap Z V) p v (Q : V → sys_t → Prop) s :
  f s !! p = Some v → Q v s → wp (obj_get f p) Q s.
Proof. unfold wp, obj_get. by intros ->. Qed.
Lemma wp_obj_set {V} (f : sys_t → gmap Z V) `{!Setter f} p g v (Q : unit → sys_t → Prop) s :
  f s !! p = Some v → Q tt (set_field f (insert p (g v)) s) → wp (obj_set f p g) Q s.
Proof. unfold wp, obj_set. by intros ->. Qed.

Lemma wp_sys_enter Q s : wp enter Q s = Q (primask (kget s)) (kput (kget s <| primask := 1 |>) s).
Proof. reflexivity. Qed.
Lemma wp_sys_exit x Q s : wp (exit x) Q s = Q tt (kput (kget s <| primask := x |>) s).
Proof. reflexivity. Qed.
Lemma wp_tick Q s : wp tick Q s = Q (tick_count (kget s)) s.
Proof. unfold tick. rewrite wp_in_kernel, wp_gets, kput_kget. reflexivity. Qed.
Lemma wp_timed_out start timeout Q s :
  wp (timed_out start timeout) Q s =
  Q (negb (timeout =? 0) && (timeout <=? u32 (tick_count (kget s) - start))) s.
Proof. unfold timed_out. rewrite wp_bind, wp_tick. reflexivity. Qed.
#[export] Hint Rewrite @wp_sys_enter wp_sys_exit wp_tick wp_timed_out : wp.

(** What an attempt or a whole operation does to the kernel, as its caller sees it. *)
Definition returns (B : Z) (s s' : sys_t) : Prop :=
  primask (kget s') = primask (kget s) ∧ advance B (kget s) (kget s').

Lemma returns_trans B1 B2 s1 s2 s3 : returns B1 s1 s2 → returns B2 s2 s3 → returns (B1 + B2) s1 s3.
Proof. intros [? ?] [? ?]. split; [congruence|by eapply advance_trans]. Qed.

Lemma returns_mono B B' s s' : B ≤ B' → returns B s s' → returns B' s s'.
Proof. intros ? [? ?]. split; [done|by eapply advance_mono]. Qed.

Lemma returns_here s s' :
  kernel_inv (kget s) → kget s' = kget s → returns 0 s s'.
Proof. intros Hk He. split; rewrite He; [done|]. apply steady_advance; auto. Qed.

(** An attempt that does not touch the kernel. *)
Lemma returns_nothing s s' :
  kernel_inv (kget s) → kget s' = kget s → returns (SWITCH_BOUND + 1) s s'.
Proof. intros. eapply returns_mono; [|by apply returns_here]. done. Qed.

Lemma leave_critical k x : k <| primask := 1 |> <| primask := x |> = k <| primask := x |>.
Proof. reflexivity. Qed.
Lemma primask_same k : k <| primask := primask k |> = k.
Proof. by destruct k. Qed.

(** * Waiting with a timeout *)
Section retry.
Context `{!Platform} (env : sys_t → sys_t) (P : sys_t → Prop) `{!Rely env P}.

(** A loop of attempts, each of which either succeeds with [R] or fails and keeps [P], returns
    within [timeout] rounds. [e] is the time elapsed since [start]. *)
Lemma retry_spec {A} (attempt : M sys_t (option A)) (R : A → sys_t → Prop) start timeout fuel : ∀ s e,
  (∀ s, live (kget s) → P s → wp attempt (λ r s', returns (SWITCH_BOUND + 1) s s' ∧
     match r with Some a => R a s' | None => P s' end) s) →
  0 < timeout ≤ SWITCH_BOUND → 0 ≤ e ≤ 2 * SWITCH_BOUND + 1 →
  tick_count (kget s) = u32 (start + e) → (Z.to_nat (timeout - e) < fuel)%nat →
  live (kget s) → P s →
  wp (retry env fuel attempt start timeout) (λ r s',
    primask (kget s') = primask (kget s) ∧ live (kget s') ∧
    match r with
    | (OS_OK, Some a) => R a s'
    | (OS_ERROR_TIMEOUT, None) => P s' ∧ timeout ≤ u32 (tick_count (kget s') - start)
    | _ => False
    end) s.
Proof.
  unfold SWITCH_BOUND. induction fuel as [|fuel IH]; intros s e Hatt Hto He Htick Hfuel Hl HP; [lia|].
  simpl. rewrite wp_bind. eapply wp_mono; [by apply Hatt|]. intros [a|] s1 [[Hp1 Had1] HR].
  { wp_step. split_and!; auto. by eapply advance_live. }
  wp_step. destruct (ad_tick _ _ _ Had1) as (d1 & Hd1 & Ht1). unfold SWITCH_BOUND in Hd1.
  assert (tick_count (kget s1) = u32 (start + (e + d1))) as Ht1'.
  { rewrite Ht1, Htick, u32_add_u32_l. f_equal. lia. }
  assert (u32 (tick_count (kget s1) - start) = e + d1) as Hel.
  { rewrite Ht1', u32_sub_u32_l. rewrite u32_small; lia. }
  rewrite Hel. destruct (Z.eqb_spec timeout 0) as [|_]; [lia|]. simpl.
  assert (live (kget s1)) as Hl1 by by eapply advance_live.
  destruct (Z.leb_spec timeout (e + d1)); wp_step.
  - rewrite ?Hel. split_and!; auto.
  - eapply wp_mono; [by apply (yield_advance env P)|]. unfold SWITCH_BOUND.
    intros [] s2 (HP2 & Hp2 & Had2 & d2 & Hd2 & Ht2).
    eapply wp_mono; [apply (IH s2 (e + d1 + d2)); auto; try lia|].
    + rewrite Ht2, Ht1', u32_add_u32_l. f_equal. lia.
    + by eapply advance_live.
    + intros [r o] s3 (Hp3 & Hl3 & Hr). split_and!; auto. congruence.
Qed.

(** The loop as the operations enter it, and what they do with its result. *)
Lemma retry_start {A} (attempt : M sys_t (option A)) (R : A → sys_t → Prop) Q timeout fuel s :
  (∀ s, live (kget s) → P s → wp attempt (λ r s', returns (SWITCH_BOUND + 1) s s' ∧
     match r with Some a => R a s' | None => P s' end) s) →
  0 < timeout ≤ SWITCH_BOUND → (Z.to_nat timeout < fuel)%nat → live (kget s) → P s →
  (∀ a s', primask (kget s') = primask (kget s) → R a s' → Q (OS_OK, Some a) s') →
  (∀ s', primask (kget s') = primask (kget s) → live (kget s') → P s' →
     timeout ≤ u32 (tick_count (kget s') - tick_count (kget s)) → Q (OS_ERROR_TIMEOUT, None) s') →
  wp (retry env fuel attempt (tick_count (kget s)) timeout) Q s.
Proof.
  intros Hatt Hto Hfuel Hl HP HR HQ. eapply wp_mono.
  - apply (retry_spec attempt R (tick_count (kget s)) timeout fuel s 0); auto.
    + unfold SWITCH_BOUND. lia.
    + rewrite Z.add_0_r. symmetry. apply kernel_inv_tick, Hl.
    + by rewrite Z.sub_0_r.
  - intros [[] [a|]] s' (Hp & Hl' & Hr); try done; [by apply HR|]. destruct Hr. by apply HQ.
Qed.

(** An attempt that succeeds ends the loop, also without a timeout. *)
Lemma retry_now {A} (attempt : M sys_t (option A)) Q start timeout fuel s :
  wp attempt (λ r s', ∃ a, r = Some a ∧ Q (OS_OK, Some a) s') s →
  wp (retry env (S fuel) attempt start timeout) Q s.
Proof.
  intros Hatt. simpl. rewrite wp_bind. eapply wp_mono; [exact Hatt|].
  by intros r s' (a & -> & HQ).
Qed.
End retry.

(** * Mutexes *)

(** The task [c] holds the mutex at [m]; the mutex at [m] is free. *)
Definition held (m c : ptr) (s : sys_t) : Prop :=
  is_Some (tasks (kget s) !! c) ∧
  ∃ x, mutexes s !! m = Some x ∧ m_locked x = true ∧ m_owner x = c.
Definition free (m : ptr) (s : sys_t) : Prop :=
  ∃ x, mutexes s !! m = Some x ∧ m_locked x = false.
Definition present (a : ptr) (s : sys_t) : Prop := is_Some (tasks (kget s) !! a).

Section mutex.
Context `{!Platform} (env : sys_t → sys_t).

(** Leaving the critical section an operation entered at [s]. *)
Lemma exit_returns P `{!Rely env P} s s' B :
  during P (kget s) B s' →
  let s'' := kput (kget s' <| primask := primask (kget s) |>) s' in
  returns B s s'' ∧ live (kget s'') ∧ P s''.
Proof.
  intros (Hl & HP & Had) s''. unfold s''.
  assert (steady (kget s') (kget s' <| primask := primask (kget s) |>)) as Hst.
  { apply steady_primask, steady_refl, Hl. }
  split_and!.
  - split; rewrite kget_kput; [done|]. rewrite <-(Z.add_0_r B).
    eapply advance_trans; [exact Had|]. apply steady_advance; [apply Hl|done].
  - rewrite kget_kput. eapply advance_live; [exact Hl|]. apply steady_advance; [apply Hl|done].
  - apply rely_kput; [done|apply Hst].
Qed.

Lemma during_here P `{!Rely env P} s x :
  live (kget s) → P s → during P (kget s) 0 (kput (kget s <| primask := x |>) s).
Proof.
  intros Hl HP. assert (steady (kget s) (kget s <| primask := x |>)) as Hst.
  { apply steady_primask, steady_refl, Hl. }
  split_and!; rewrite ?kget_kput.
  - eapply advance_live; [exact Hl|]. apply steady_advance; [apply Hl|done].
  - apply rely_kput; [done|apply Hst].
  - apply steady_advance; [apply Hl|done].
Qed.

Lemma task_not_null s a : live (kget s) → present a s → a ≠ NULL.
Proof.
  intros ([q Hk] & _) [t Ht] ->. by rewrite (ri_null _ _ (kr_ready _ _ Hk)) in Ht.
Qed.

(** A task that finds the mutex locked leaves it as it is. *)
Lemma mutex_try_held m c me (X : sys_t → Prop) `{!Rely env (λ s, held m c s ∧ X s)} s :
  (∀ s, X s → present me s) → live (kget s) → held m c s ∧ X s →
  wp (mutex_try env m me) (λ r s', returns (SWITCH_BOUND + 1) s s' ∧
    r = None ∧ held m c s' ∧ X s') s.
Proof.
  intros HXp Hl HP. set (P := λ s, held m c s ∧ X s) in *.
  pose proof (during_here P s 1 Hl HP) as Hd1.
  set (s1 := kput (kget s <| primask := 1 |>) s) in *.
  destruct HP as ((Hc & x & Hx & Hlk & Hown) & HX). pose proof (HXp s HX) as Hme.
  unfold mutex_try. wp_step. fold s1.
  eapply wp_obj_get; [exact Hx|]. rewrite Hlk. simpl negb. cbv iota. rewrite Hown, wp_bind.
  destruct (Z.eqb_spec c NULL) as [->|_]; [by apply (task_not_null s NULL) in Hc|].
  destruct Hc as [tc Hc], Hme as [tm Hm]. wp_step. eapply wp_load; [exact Hm|].
  unfold s1. rewrite kput_kput. wp_step.
  eapply wp_load; [exact Hc|]. rewrite kput_kput. fold s1. wp_step.
  assert (∀ B s2, during P (kget s) B s2 → B ≤ SWITCH_BOUND + 1 →
    wp (exit (primask (kget s)) ;;; ret (@None unit)) (λ r s',
      returns (SWITCH_BOUND + 1) s s' ∧ r = None ∧ held m c s' ∧ X s') s2) as Hexit.
  { intros B s2 Hd HB. wp_step. destruct (exit_returns P s s2 B Hd) as ((Hp & Ha) & _ & Hh & Hpr).
    split_and!; auto. split; [done|]. by eapply advance_mono. }
  destruct (tcb_priority tm <? tcb_priority tc).
  - wp_step. assert (0 ≤ tcb_priority tm < 256) as Hprio.
    { destruct Hl as ([q Hk] & _). by eapply (ri_tcb_ok _ _ (kr_ready _ _ Hk)). }
    eapply wp_mono; [apply (os_task_raise_priority_keeps env (during P (kget s) 0)
      (during P (kget s) (0 + (SWITCH_BOUND + 1)))); [done|right; by exists tc|done]|].
    intros r s2 [Hd2 _]. wp_step. apply (Hexit (0 + (SWITCH_BOUND + 1))); [done|]. lia.
  - apply (Hexit 0); [done|]. unfold SWITCH_BOUND. lia.
Qed.

(** While another task keeps the mutex, [os_mutex_lock] times out; [X] is what else is kept. *)
Lemma lock_held_times_out m c me fuel timeout (X : sys_t → Prop) `{!Rely env (λ s, held m c s ∧ X s)} s :
  (∀ s, X s → present me s) → m ≠ NULL → live (kget s) → held m c s → X s → current_task (kget s) = me →
  0 < timeout ≤ SWITCH_BOUND → (Z.to_nat timeout < fuel)%nat →
  wp (os_mutex_lock env fuel m timeout) (λ r s', r = OS_ERROR_TIMEOUT ∧
    primask (kget s') = primask (kget s) ∧ live (kget s') ∧ held m c s' ∧ X s' ∧
    timeout ≤ u32 (tick_count (kget s') - tick_count (kget s))) s.
Proof.
  intros HXp Hm Hl Hh Hp Hcur Hto Hfuel. unfold os_mutex_lock.
  destruct (Z.eqb_spec m NULL) as [|_]; [done|]. wp_step. rewrite kput_kget.
  unfold os_task_get_current. rewrite Hcur.
  apply (retry_start env (λ s, held m c s ∧ X s) _ (λ _ _, False)); auto; [|done|].
  - intros s0 Hl0 HP0. eapply wp_mono; [by apply mutex_try_held|].
    intros r s' (Hr & -> & HP'). by split.
  - intros s' ? ? [? ?] ?. wp_step. split_and!; auto.
Qed.

(** A free mutex is taken at once, and nothing else changes. *)
Lemma mutex_try_free m me s :
  present me s → free m s →
  wp (mutex_try env m me) (λ r s', r = Some tt ∧ ∃ p, s' = s <| mutexes ::= <[m := Mutex true me p]> |>) s.
Proof.
  intros [t Ht] (x & Hx & Hlk). unfold mutex_try. wp_step. eapply wp_obj_get; [exact Hx|].
  rewrite Hlk. simpl negb. cbv iota. wp_step. eapply wp_obj_set; [exact Hx|]. wp_step.
  eapply wp_load; [exact Ht|]. wp_step.
  destruct (m_ceiling_priority x <? tcb_priority t); wp_step.
  - eapply wp_obj_set; [apply lookup_insert_eq|]. wp_step. split; [done|].
    exists (tcb_priority t). destruct s as [[]]. unfold kput. simpl. by rewrite insert_insert_eq.
  - split; [done|]. exists (m_ceiling_priority x). by destruct s as [[]].
Qed.

Lemma lock_free m me fuel timeout s :
  m ≠ NULL → present me s → current_task (kget s) = me → free m s →
  wp (os_mutex_lock env (S fuel) m timeout)
    (λ r s', r = OS_OK ∧ ∃ p, s' = s <| mutexes ::= <[m := Mutex true me p]> |>) s.
Proof.
  intros Hm Hp Hcur Hf. unfold os_mutex_lock. destruct (Z.eqb_spec m NULL) as [|_]; [done|].
  wp_step. rewrite kput_kget. unfold os_task_get_current. rewrite Hcur.
  apply retry_now. eapply wp_mono; [by apply mutex_try_free|].
  intros r s' [-> Hs']. exists tt. by wp_step.
Qed.

(** Only the owner can unlock. *)
Lemma unlock_not_owner m me s x :
  m ≠ NULL → current_task (kget s) = me → mutexes s !! m = Some x → m_owner x ≠ me →
  wp (os_mutex_unlock env m) (λ r s', r = OS_ERROR_PERMISSION_DENIED ∧ s' = s) s.
Proof.
  intros Hm Hcur Hx Ho. unfold os_mutex_unlock. destruct (Z.eqb_spec m NULL) as [|_]; [done|].
  wp_step. eapply wp_obj_get; [exact Hx|]. unfold os_task_get_current. rewrite Hcur.
  destruct (Z.eqb_spec (m_owner x) me) as [|_]; [done|]. simpl negb. cbv iota. wp_step.
  split; [done|]. by destruct s as [[]].
Qed.

(** The owner hands the processor over with the mutex free; [X] is what the mutex protects, which
    the others leave alone while it is held, and [J] is what they make of it afterwards. *)
Lemma unlock_owner m me (X J : sys_t → Prop) `{!Rely env (λ s, held m me s ∧ X s)} s :
  (∀ s k, X s → (∀ a, is_Some (tasks (kget s) !! a) → is_Some (tasks k !! a)) → X (kput k s)) →
  (∀ s y, X s → X (s <| mutexes ::= <[m := y]> |>)) →
  m ≠ NULL → live (kget s) → current_task (kget s) = me → held m me s → X s →
  (∀ s1, live (kget s1) → free m s1 → (∀ x, mutexes s1 !! m = Some x → m_owner x = NULL) → X s1 → J (env s1)) →
  wp (os_mutex_unlock env m) (λ r s', r = OS_OK ∧ J s') s.
Proof.
  intros Xk Xm Hm Hl Hcur Hh HX HJ. unfold os_mutex_unlock.
  destruct (Z.eqb_spec m NULL) as [|_]; [done|]. set (P := λ s, held m me s ∧ X s) in *.
  pose proof Hh as (Hme & x & Hx & Hlk & Hown). wp_step. eapply wp_obj_get; [exact Hx|].
  unfold os_task_get_current. rewrite Hcur, Hown, Z.eqb_refl. simpl negb. cbv iota. wp_step.
  pose proof (during_here P s 1 Hl (conj Hh HX)) as Hd1.
  eapply wp_mono; [apply (os_task_reset_priority_keeps env (during P (kget s) 0)
    (during P (kget s) (0 + (SWITCH_BOUND + 1)))); [done|by right]|].
  intros r s2 [(Hl2 & ((_ & x2 & Hx2 & _) & HX2) & Had2) _]. wp_step.
  eapply wp_obj_set; [exact Hx2|]. wp_step.
  match goal with |- wp (yield env) _ ?s3 => set (s' := s3) end.
  assert (live (kget s')) as Hl3.
  { eapply advance_live; [exact Hl2|]. apply steady_advance; [apply Hl2|].
    apply steady_primask, steady_refl, Hl2. }
  assert (free m s') as Hf by (eexists; split; [apply lookup_insert_eq|done]).
  assert (∀ y, mutexes s' !! m = Some y → m_owner y = NULL) as Hnone.
  { intros y Hy. assert (mutexes s' !! m = Some (x2 <| m_locked := false |> <| m_owner := NULL |>)) as E
      by apply lookup_insert_eq. rewrite E in Hy. by injection Hy as <-. }
  assert (X s') as HX' by (apply Xk; [by apply Xm|done]).
  clearbody s'. unfold yield. wp_step. destruct Hl3 as ([q Hq] & Hr3 & Hc3).
  eapply wp_mono; [by apply os_task_yield_spec|]. intros [] k' Hy. wp_step. split; [done|].
  apply yield_post_inv in Hy; [|done]. destruct Hy as (Hk' & Hid & Hrun & _ & _ & Hnull & _).
  apply HJ; [|done|done|apply Xk; [done|]].
  2:{ intros a [t Ht]. destruct (same_on_lookup _ _ _ _ _ _ Hid I Ht) as (? & ? & _). eauto. }
  rewrite kget_kput. split_and!; [done|congruence|tauto].
Qed.
End mutex.

(** * Semaphores *)
Definition sem_count (sem : ptr) (n : Z) (s : sys_t) : Prop :=
  ∃ v, semaphores s !! sem = Some v ∧ s_count v = n.

(** One attempt, exactly: a positive count is decremented, otherwise nothing happens. *)
Lemma semaphore_try_spec sem v s :
  semaphores s !! sem = Some v →
  wp (semaphore_try sem) (λ r s',
    if 0 <? s_count v
    then r = Some tt ∧ s' = s <| semaphores ::= <[sem := v <| s_count ::= λ n, n - 1 |>]> |>
    else r = None ∧ s' = s) s.
Proof.
  intros Hv. unfold semaphore_try. wp_step. eapply wp_obj_get; [exact Hv|].
  destruct (0 <? s_count v); wp_step.
  - eapply wp_obj_set; [exact Hv|]. wp_step. split; [done|]. by destruct s as [[]].
  - split; [done|]. by destruct s as [[]].
Qed.

(** The attempt as a step of the waiting loop: the count stays non-negative. *)
Lemma semaphore_attempt sem v s :
  live (kget s) → semaphores s !! sem = Some v → 0 ≤ s_count v →
  wp (semaphore_try sem) (λ r s', returns (SWITCH_BOUND + 1) s s' ∧
    match r with
    | Some _ => ∃ n, 0 ≤ n ∧ sem_count sem n s'
    | None => ∃ n, 0 ≤ n ∧ sem_count sem n s'
    end) s.
Proof.
  intros Hl Hv Hn. eapply wp_mono; [by apply semaphore_try_spec|].
  intros r s' Hr. destruct (Z.ltb_spec 0 (s_count v)); destruct Hr as [-> ->].
  - split; [by apply returns_nothing; [apply Hl|]|]. exists (s_count v - 1). split; [lia|].
    eexists. split; [apply lookup_insert_eq|done].
  - split; [by apply returns_nothing; [apply Hl|]|]. exists (s_count v). split; [lia|]. by exists v.
Qed.

(** * Event groups *)
Definition events_are (eg : ptr) (bits : Z) (s : sys_t) : Prop :=
  ∃ e, event_groups s !! eg = Some e ∧ eg_events e = bits.

(** The condition a waiting task waits for. *)
Definition events_match (wait_all : bool) (events bits : Z) : bool :=
  if wait_all then Z.land events bits =? bits else negb (Z.land events bits =? 0).

Lemma events_try_spec eg bits wait_all clear e s :
  event_groups s !! eg = Some e →
  wp (events_try eg bits wait_all clear) (λ r s',
    if events_match wait_all (eg_events e) bits then
      r = Some (Z.land (eg_events e) bits) ∧
      s' = if clear : bool
           then s <| event_groups ::= <[eg := e <| eg_events ::= λ x, Z.land x (lnot32 bits) |>]> |>
           else s
    else r = None ∧ s' = s) s.
Proof.
  intros He. unfold events_try, events_match. wp_step. eapply wp_obj_get; [exact He|].
  destruct (if wait_all then _ else _); wp_step.
  - destruct clear; wp_step.
    + eapply wp_obj_set; [exact He|]. wp_step. split; [done|]. by destruct s as [[]].
    + split; [done|]. by destruct s as [[]].
  - split; [done|]. by destruct s as [[]].
Qed.

(** * Message queues *)

(** Slot [j] of a ring of [n] slots of [w] bytes. *)
Definition slot (buf : list Z) (w j : nat) : list Z := take w (drop (j * w) buf).
Definition set_slot (buf : list Z) (w j : nat) (bs : list Z) : list Z :=
  take (j * w) buf ++ bs ++ drop (j * w + length bs) buf.

Lemma set_slot_length buf w n j bs :
  length buf = (n * w)%nat → (j < n)%nat → length bs = w → length (set_slot buf w j bs) = length buf.
Proof.
  intros Hl Hj Hb. unfold set_slot. rewrite !length_app, length_take, length_drop. nia.
Qed.

Lemma slot_set_eq buf w n j bs :
  length buf = (n * w)%nat → (j < n)%nat → length bs = w → slot (set_slot buf w j bs) w j = bs.
Proof.
  intros Hl Hj Hb. unfold slot, set_slot.
  rewrite drop_app_length' by (rewrite length_take; nia). by apply take_app_length'.
Qed.

Lemma slot_set_ne buf w n j j' bs :
  length buf = (n * w)%nat → (j < n)%nat → (j' < n)%nat → j ≠ j' → length bs = w →
  slot (set_slot buf w j bs) w j' = slot buf w j'.
Proof.
  intros Hl Hj Hj' Hne Hb. unfold slot, set_slot. apply list_eq. intros i.
  destruct (decide (i < w)%nat); [|rewrite !lookup_take_ge by lia; done].
  rewrite !lookup_take_lt, !lookup_drop by lia.
  assert (length (take (j * w) buf) = j * w)%nat as Hlt by (rewrite length_take; nia).
  destruct (decide (j' < j)%nat).
  - rewrite lookup_app_l by nia. rewrite lookup_take_lt by nia. done.
  - rewrite lookup_app_r by nia. rewrite Hlt, lookup_app_r by nia.
    rewrite lookup_drop. f_equal. nia.
Qed.

Lemma slot_length buf w n j : length buf = (n * w)%nat → (j < n)%nat → length (slot buf w j) = w.
Proof. intros Hl Hj. unfold slot. rewrite length_take, length_drop. nia. Qed.

(** The queue at [q] with its buffer at [b], [n] slots of [w] bytes each, holds the messages
    [items], the oldest first. *)
Definition queue_rep (q b : ptr) (w n : nat) (items : list (list Z)) (s : sys_t) : Prop :=
  ∃ (h : nat) buf,
    queues s !! q = Some (MsgQueue b (Z.of_nat w) (Z.of_nat n) (Z.of_nat h)
      (Z.of_nat ((h + length items) mod n)) (Z.of_nat (length items))) ∧
    memory s !! b = Some buf ∧ length buf = (n * w)%nat ∧ (0 < w)%nat ∧ (h < n)%nat ∧
    Z.of_nat (n * w) < 2 ^ 32 ∧ (length items ≤ n)%nat ∧
    ∀ i it, items !! i = Some it → slot buf w ((h + i) mod n) = it.

(** [put q b w item s]: [s] with the queue and its buffer replaced; nothing else changes. *)
Definition queue_only (q b : ptr) (s s' : sys_t) : Prop :=
  ∃ rec buf, s' = s <| queues ::= <[q := rec]> |> <| memory ::= <[b := buf]> |>.

Lemma wp_read_bytes p l off n Q s :
  memory s !! p = Some l → 0 ≤ off → off + n ≤ Z.of_nat (length l) →
  Q (take (Z.to_nat n) (drop (Z.to_nat off) l)) s → wp (read_bytes p off n) Q s.
Proof.
  intros Hp ? ? HQ. unfold wp, read_bytes. rewrite Hp.
  destruct (Z.leb_spec 0 off), (Z.leb_spec (off + n) (Z.of_nat (length l))); try lia. done.
Qed.
Lemma wp_write_bytes p l off bs Q s :
  memory s !! p = Some l → 0 ≤ off → off + Z.of_nat (length bs) ≤ Z.of_nat (length l) →
  Q tt (s <| memory ::= <[p := take (Z.to_nat off) l ++ bs ++ drop (Z.to_nat off + length bs) l]> |>) →
  wp (write_bytes p off bs) Q s.
Proof.
  intros Hp ? ? HQ. unfold wp, write_bytes. rewrite Hp.
  destruct (Z.leb_spec 0 off), (Z.leb_spec (off + Z.of_nat (length bs)) (Z.of_nat (length l))); try lia.
  done.
Qed.

(** The offset of a slot does not wrap around, and the slot is inside the buffer. *)
Lemma slot_offset (w n j : nat) :
  (j < n)%nat → Z.of_nat (n * w) < 2 ^ 32 →
  u32 (Z.of_nat j * Z.of_nat w) = Z.of_nat (j * w) ∧
  Z.of_nat (j * w) + Z.of_nat w ≤ Z.of_nat (n * w) ∧ Z.to_nat (Z.of_nat (j * w)) = (j * w)%nat.
Proof.
  intros Hj Hn. split_and!; [|nia|apply Nat2Z.id]. rewrite <-Nat2Z.inj_mul. apply u32_small. nia.
Qed.

(** Advancing an index of the ring. *)
Lemma next_index (n w i : nat) :
  (i < n)%nat → (0 < w)%nat → Z.of_nat (n * w) < 2 ^ 32 →
  u32 (Z.of_nat i + 1) mod Z.of_nat n = Z.of_nat (S i mod n).
Proof.
  intros Hi Hw Hn. rewrite u32_small by nia. rewrite Nat2Z.inj_mod. f_equal. lia.
Qed.

Lemma mod_ring_S (h i n : nat) : (0 < n)%nat → (S ((h + i) mod n) mod n = (h + S i) mod n)%nat.
Proof.
  intros Hn. replace (S ((h + i) mod n)) with ((h + i) mod n + 1)%nat by lia.
  rewrite Nat.Div0.add_mod_idemp_l. f_equal. lia.
Qed.

Lemma mod_ring_shift (h i n : nat) : (0 < n)%nat → ((S h mod n + i) mod n = (h + S i) mod n)%nat.
Proof. intros Hn. rewrite Nat.Div0.add_mod_idemp_l. f_equal. lia. Qed.

(** Different messages of the queue are in different slots. *)
Lemma mod_ring_inj (h i j n : nat) :
  (i < j)%nat → (j < i + n)%nat → ((h + i) mod n ≠ (h + j) mod n)%nat.
Proof.
  intros Hij Hjn Heq. pose proof (Nat.div_mod_eq (h + i) n) as H1.
  pose proof (Nat.div_mod_eq (h + j) n) as H2. rewrite Heq in H1.
  set (a := ((h + i) / n)%nat) in *. set (b := ((h + j) / n)%nat) in *.
  assert (n * b = n * a + (j - i))%nat by lia. assert (a < b ∨ b ≤ a)%nat as [|] by lia; nia.
Qed.

Lemma queue_put_spec q b w n items s item l :
  queue_rep q b w n items s → memory s !! item = Some l → (w ≤ length l)%nat →
  wp (queue_put q item) (λ r s',
    if decide (length items < n)%nat
    then r = Some tt ∧ queue_rep q b w n (items ++ [take w l]) s' ∧ queue_only q b s s'
    else r = None ∧ s' = s) s.
Proof.
  intros (h & buf & Hq & Hb & Hlen & Hw & Hh & Hfit & Hmax & Hit) Hl Hlw. unfold queue_put. wp_step.
  eapply wp_obj_get; [exact Hq|]. simpl q_count. simpl q_max_items.
  destruct (decide (length items < n)%nat) as [Hlt|Hge];
    destruct (Z.ltb_spec (Z.of_nat (length items)) (Z.of_nat n)); try lia; [|by wp_step].
  simpl q_item_size. simpl q_buffer. simpl q_tail. set (j := ((h + length items) mod n)%nat) in *.
  assert (j < n)%nat as Hj by (apply Nat.mod_upper_bound; lia).
  destruct (slot_offset w n j Hj Hfit) as (Hoff & Hin & Hnat).
  wp_step. eapply wp_read_bytes; [exact Hl|lia|lia|]. rewrite drop_0, Nat2Z.id, Hoff. wp_step.
  assert (length (take w l) = w) as Hbs by (rewrite length_take; lia).
  eapply wp_write_bytes; [exact Hb|lia|lia|]. rewrite Hnat. wp_step.
  eapply wp_obj_set; [exact Hq|]. wp_step. eapply wp_obj_set; [apply lookup_insert_eq|]. wp_step.
  split; [done|].
  assert (Z.of_nat n < 2 ^ 32) as Hn32 by nia.
  set (rec := MsgQueue b (Z.of_nat w) (Z.of_nat n) (Z.of_nat h)
    (Z.of_nat ((h + S (length items)) mod n)) (Z.of_nat (S (length items)))).
  assert (∀ rec0, rec0 = rec → <[q := rec0]> (queues s) !! q = Some rec) as Hlk
    by (intros ? ->; apply lookup_insert_eq).
  split.
  - exists h, (set_slot buf w j (take w l)). rewrite length_app, Nat.add_1_r. simpl.
    split_and!; [|apply lookup_insert_eq|by rewrite (set_slot_length _ _ n)|done..|].
    + rewrite insert_insert_eq. apply Hlk. unfold rec. f_equal.
      * rewrite (next_index n w) by done. unfold j. by rewrite mod_ring_S by lia.
      * rewrite u32_small by lia. lia.
    + intros i it Hi. destruct (decide (i < length items)%nat) as [Hil|].
      * rewrite lookup_app_l in Hi by done. rewrite (slot_set_ne _ _ n); auto.
        -- apply Nat.mod_upper_bound. lia.
        -- intros E. symmetry in E. apply mod_ring_inj in E; [done|lia|lia].
      * rewrite lookup_app_r in Hi by lia. apply list_lookup_singleton_Some in Hi as [Hi <-].
        replace i with (length items) by lia. by apply (slot_set_eq _ _ n).
  - eexists _, _. unfold queue_only. simpl. rewrite insert_insert_eq. destruct s. reflexivity.
Qed.

(** The memory of the receiver after a message [x] was copied to it. *)
Definition delivered (item : ptr) (l x : list Z) (s s' : sys_t) : Prop :=
  memory s' !! item = Some (x ++ drop (length x) l) ∧ mutexes s' = mutexes s ∧
  sys_kernel s' = sys_kernel s.

(** The copy both readers make: the message in the slot [h] goes to [item]. *)
Lemma copy_front {A} b w n h buf item l x (m : M sys_t A) (Q : A → sys_t → Prop) s :
  memory s !! b = Some buf → length buf = (n * w)%nat → (h < n)%nat → Z.of_nat (n * w) < 2 ^ 32 →
  slot buf w h = x → memory s !! item = Some l → (w ≤ length l)%nat →
  wp m Q (s <| memory ::= <[item := x ++ drop (length x) l]> |>) →
  wp (let! bs := read_bytes b (u32 (Z.of_nat h * Z.of_nat w)) (Z.of_nat w) in
      write_bytes item 0 bs ;;; m) Q s.
Proof.
  intros Hb Hlen Hh Hfit <- Hl Hlw HQ. rewrite wp_bind.
  destruct (slot_offset w n h Hh Hfit) as (-> & Hin & Hnat).
  eapply wp_read_bytes; [exact Hb|lia|lia|]. rewrite Hnat, Nat2Z.id. fold (slot buf w h).
  pose proof (slot_length buf w n h Hlen Hh) as Hs. rewrite wp_bind.
  eapply wp_write_bytes; [exact Hl|lia|lia|]. exact HQ.
Qed.

Lemma queue_front_spec q b w n items s item l :
  queue_rep q b w n items s → item ≠ b → memory s !! item = Some l → (w ≤ length l)%nat →
  wp (queue_front q item) (λ r s',
    match items with
    | [] => r = None ∧ s' = s
    | x :: _ => r = Some tt ∧ queue_rep q b w n items s' ∧ delivered item l x s s'
    end) s.
Proof.
  intros (h & buf & Hq & Hb & Hlen & Hw & Hh & Hfit & Hmax & Hit) Hne Hl Hlw.
  unfold queue_front. rewrite wp_bind. eapply wp_obj_get; [exact Hq|]. simpl q_count.
  destruct items as [|x items]; [by wp_step|]. simpl (0 <? _). cbv iota.
  pose proof (Hit 0%nat x eq_refl) as Hx. rewrite Nat.add_0_r, Nat.mod_small in Hx by done.
  eapply copy_front; eauto. wp_step. split_and!; [done| |].
  - exists h, buf. simpl. rewrite lookup_insert_ne by done. split_and!; done.
  - split_and!; [|done|done]. simpl. by rewrite lookup_insert_eq.
Qed.

Lemma queue_take_spec q b w n items s item l :
  queue_rep q b w n items s → item ≠ b → memory s !! item = Some l → (w ≤ length l)%nat →
  wp (queue_take q item) (λ r s',
    match items with
    | [] => r = None ∧ s' = s
    | x :: rest => r = Some tt ∧ queue_rep q b w n rest s' ∧ delivered item l x s s'
    end) s.
Proof.
  intros (h & buf & Hq & Hb & Hlen & Hw & Hh & Hfit & Hmax & Hit) Hne Hl Hlw.
  unfold queue_take. rewrite wp_bind. eapply wp_obj_get; [exact Hq|]. simpl q_count.
  destruct items as [|x rest]; [by wp_step|]. simpl (0 <? _). cbv iota.
  pose proof (Hit 0%nat x eq_refl) as Hx. rewrite Nat.add_0_r, Nat.mod_small in Hx by done.
  eapply copy_front; eauto. wp_step. eapply wp_obj_set; [exact Hq|]. wp_step.
  eapply wp_obj_set; [apply lookup_insert_eq|]. wp_step.
  assert (Z.of_nat n < 2 ^ 32) as Hn32 by nia. simpl in Hmax. split_and!; [done| |].
  - exists (S h mod n)%nat, buf. cbn -[Nat.modulo Z.of_nat].
    rewrite insert_insert_eq, lookup_insert_eq, lookup_insert_ne by done.
    split_and!; [|done..| |done|lia|].
    + f_equal. f_equal; [by apply (next_index n w)| |rewrite u32_small by lia; lia].
      by rewrite mod_ring_shift by lia.
    + apply Nat.mod_upper_bound. lia.
    + intros i it Hi. rewrite mod_ring_shift by lia. by apply (Hit (S i)).
  - split_and!; [|done|done]. simpl. by rewrite lookup_insert_eq.
Qed.

(** * Priority inheritance *)
Section inheritance.
Context `{!Platform} (env : sys_t → sys_t).

(** The running task raises the owner to its own priority; that never switches tasks. *)
Lemma raise_owner s o me tm tow :
  kernel_inv (kget s) → current_task (kget s) = me → me ≠ NULL →
  tasks (kget s) !! me = Some tm → tasks (kget s) !! o = Some tow → o ≠ NULL →
  tcb_priority tm < tcb_priority tow →
  wp (os_task_raise_priority env o (tcb_priority tm)) (λ _ s',
    ∃ k', s' = kput k' s ∧ steady (kget s) k' ∧
      same_on all_tasks identity (<[o := tow <| tcb_priority := tcb_priority tm |>]> (tasks (kget s)))
        (tasks k')) s.
Proof.
  intros Hk Hcur Hme Hm Ho Hon Hlt. unfold os_task_raise_priority.
  destruct (Z.eqb_spec o NULL) as [|_]; [done|]. wp_step. eapply wp_load; [exact Ho|]. rewrite kput_kget.
  destruct (Z.leb_spec (tcb_priority tow) (tcb_priority tm)); [lia|]. wp_step.
  assert (0 ≤ tcb_priority tm < 256) as Hp.
  { destruct Hk as [q Hq]. by eapply (ri_tcb_ok _ _ (kr_ready _ _ Hq)). }
  assert (∀ u, tcb_ok u → tcb_ok (u <| tcb_priority := tcb_priority tm |>)) as Hok
    by (intros u []; by split).
  eapply wp_mono; [apply wp_conj; [eapply requeue_with_steady|eapply requeue_with_identity];
    [apply primask_inv, Hk|exact Ho|done|done|apply primask_inv, Hk|exact Ho|done|done|..]|].
  { unfold identity. intros u v E. simplify_eq/=. congruence. }
  intros [] k1 [[Hst _] Hid]. wp_step. rewrite (st_current _ _ Hst). simpl current_task. rewrite Hcur.
  destruct (Z.eqb_spec me NULL) as [|_]; [done|]. wp_step.
  assert (o ≠ me) as Hne by (intros ->; rewrite Hm in Ho; simplify_eq; lia).
  assert (∃ c, tasks k1 !! me = Some c ∧ identity c = identity tm) as (c & Hc & Hi).
  { apply (same_on_lookup _ _ _ _ _ _ Hid I). simpl. by rewrite lookup_insert_ne. }
  eapply wp_load; [exact Hc|]. wp_step. injection Hi as -> _ _ _ _ _.
  rewrite Z.ltb_irrefl. wp_step. eexists. split; [reflexivity|]. split; [|done].
  apply steady_primask. eapply steady_trans; [|exact Hst]. by apply steady_primask, steady_refl.
Qed.

Lemma mutex_try_inherits m x me tm tow s :
  kernel_inv (kget s) → current_task (kget s) = me → me ≠ NULL → m_owner x ≠ NULL →
  mutexes s !! m = Some x → m_locked x = true →
  tasks (kget s) !! me = Some tm → tasks (kget s) !! m_owner x = Some tow →
  tcb_priority tm < tcb_priority tow →
  wp (mutex_try env m me) (λ r s', r = None ∧ mutexes s' = mutexes s ∧
    current_task (kget s') = me ∧
    ∃ t', tasks (kget s') !! m_owner x = Some t' ∧ tcb_priority t' = tcb_priority tm ∧
      tcb_base_priority t' = tcb_base_priority tow) s.
Proof.
  intros Hk Hcur Hme Hon Hx Hlk Hm Ho Hlt. unfold mutex_try. wp_step.
  eapply wp_obj_get; [exact Hx|]. rewrite Hlk. simpl negb. cbv iota. rewrite wp_bind.
  destruct (Z.eqb_spec (m_owner x) NULL) as [|_]; [done|]. wp_step.
  eapply wp_load; [exact Hm|]. wp_step. eapply wp_load; [exact Ho|]. wp_step.
  destruct (Z.ltb_spec (tcb_priority tm) (tcb_priority tow)) as [_|]; [|lia]. wp_step.
  eapply wp_mono; [eapply (raise_owner _ (m_owner x) me tm tow); try done; by apply primask_inv|].
  intros r s2 (k2 & -> & Hst & Hid). wp_step. split_and!; [done|done| |].
  - simpl. by rewrite (st_current _ _ Hst).
  - simpl. destruct (same_on_lookup _ _ _ _ (m_owner x) _ Hid I (lookup_insert_eq _ _ _))
      as (t' & Ht' & Hi).
    injection Hi as Hp Hb _ _ _ _. exists t'. split_and!; done.
Qed.
End inheritance.

(** * Condition variables *)

(** Cutting a list behind one of its nodes. *)
Lemma lseg_cut m l1 : ∀ h a t l2,
  lseg m h (l1 ++ a :: l2) → m !! a = Some t →
  lseg (<[a := t <| tcb_next := NULL |>]> m) h (l1 ++ [a]).
Proof.
  induction l1 as [|b l1 IH]; intros h a t l2 Hl Ha.
  - destruct Hl as (-> & Hn & _). simpl. split_and!; [done|done|].
    exists (t <| tcb_next := NULL |>). rewrite lookup_insert_eq. done.
  - pose proof (lseg_nodup _ _ _ Hl) as Hnd. destruct Hl as (-> & Hn & u & Hu & Hl).
    simpl in Hnd. apply NoDup_cons in Hnd as [Hnb _].
    assert (b ≠ a) by (intros ->; apply Hnb, elem_of_app; right; apply elem_of_cons; by left).
    simpl. split_and!; [done|done|]. exists u. rewrite lookup_insert_ne by done.
    split; [done|]. by eapply IH.
Qed.

(** [os_cond_signal] on a task that also is in a ready queue. *)
Lemma wake_first_cuts cond c a b p l1 l2 s h :
  cond_vars s !! cond = Some c → cv_wait_queue c = a →
  ready_queue (kget s) !! Z.to_nat p = Some h → lseg (tasks (kget s)) h (l1 ++ a :: b :: l2) →
  wp (cond_wake_first cond) (λ _ s',
    ready_queue (kget s') !! Z.to_nat p = Some h ∧ lseg (tasks (kget s')) h (l1 ++ [a]) ∧
    current_task (kget s') = current_task (kget s) ∧
    ∃ c', cond_vars s' !! cond = Some c' ∧ cv_wait_queue c' = b ∧
      cv_waiting_count c' = u32 (cv_waiting_count c - 1)) s.
Proof.
  intros Hc Ha Hh Hl. pose proof (lseg_suffix _ _ _ _ _ Hl) as (_ & _ & t & Ht & Hb & _).
  unfold cond_wake_first. wp_step. eapply wp_obj_get; [exact Hc|]. rewrite Ha. wp_step.
  eapply wp_load; [exact Ht|]. rewrite kput_kget. wp_step. eapply wp_obj_set; [exact Hc|]. wp_step.
  eapply wp_store; [exact Ht|]. eapply wp_obj_set; [apply lookup_insert_eq|].
  split_and!; [done| |done|].
  - by eapply lseg_cut.
  - eexists. split; [apply lookup_insert_eq|]. done.
Qed.

(** * The properties

    First a small system that meets the assumptions of each property. *)
#[local] Existing Instance demo_platform.

(** Task 100 runs, task 200 is ready; the mutexes at 10 and 524 (the lock of the queue at 500) are
    free, the mutex at 20 is held by task 200. *)
Definition demo_sys : sys_t :=
  Sys demo_two
    (<[10 := Mutex false NULL 255]> (<[20 := Mutex true 200 255]> (<[524 := Mutex false NULL 255]> ∅)))
    (<[30 := Semaphore 0 NULL]> ∅)
    (<[500 := MsgQueue 600 2 3 0 0 0]> ∅)
    (<[40 := EventGroup 5 NULL]> ∅)
    (<[50 := CondVar NULL 0]> ∅)
    (<[600 := replicate 6 0]> (<[700 := [8; 9]]> ∅)).

Lemma demo_sys_live : live (kget demo_sys).
Proof. split_and!; [apply reachable_kernel_inv, demo_two_reachable|done|done]. Qed.

(** A system in which nobody else does anything. *)
Lemma rely_id (P : sys_t → Prop) :
  (∀ k s, P s → (∀ a, is_Some (tasks (kget s) !! a) → is_Some (tasks k !! a)) → P (kput k s)) →
  Rely id P.
Proof.
  intros HP. split; [done|]. intros s Hl Hs. split_and!; auto.
  eapply advance_mono; [|apply steady_advance]; [done|apply Hl|apply steady_refl, Hl].
Qed.

Lemma held_kput m c k s :
  held m c s → (∀ a, is_Some (tasks (kget s) !! a) → is_Some (tasks k !! a)) → held m c (kput k s).
Proof. intros [Hc Hx] Hk. split; [rewrite kget_kput; auto|done]. Qed.
Lemma present_kput a k s :
  present a s → (∀ a, is_Some (tasks (kget s) !! a) → is_Some (tasks k !! a)) → present a (kput k s).
Proof. unfold present. rewrite kget_kput. auto. Qed.

#[local] Instance rely_held m c X : (∀ k s, X s → X (kput k s)) → Rely id (λ s, held m c s ∧ X s).
Proof. intros HX. apply rely_id. intros k s [? ?] ?. split; [by apply held_kput|by apply HX]. Qed.
#[local] Instance rely_held_present m c me : Rely id (λ s, held m c s ∧ present me s).
Proof. apply rely_id. intros k s [? ?] ?. split; [by apply held_kput|by apply present_kput]. Qed.

Ltac demo := first [exact demo_sys_live | by eexists | done | unfold SWITCH_BOUND; lia].

(** * Mutexes *)

(** C8. Mutual exclusion: as long as a task keeps a mutex, [os_mutex_lock] of every other task ends
    with a timeout (after at least [timeout] ticks, within [timeout] rounds) and [os_mutex_unlock]
    of every other task is refused without a change. *)
Theorem mutex_exclusion `{!Platform} env m c me fuel timeout s
    `{!Rely env (λ s, held m c s ∧ present me s)} :
  m ≠ NULL → live (kget s) → held m c s → present me s → current_task (kget s) = me → me ≠ c →
  0 < timeout ≤ SWITCH_BOUND → (Z.to_nat timeout < fuel)%nat →
  wp (os_mutex_lock env fuel m timeout) (λ r s', r = OS_ERROR_TIMEOUT ∧ held m c s' ∧
    timeout ≤ u32 (tick_count (kget s') - tick_count (kget s))) s ∧
  wp (os_mutex_unlock env m) (λ r s', r = OS_ERROR_PERMISSION_DENIED ∧ s' = s) s.
Proof.
  intros Hm Hl Hh Hp Hcur Hne Hto Hfuel. split.
  - eapply wp_mono; [by apply (lock_held_times_out env m c me _ _ (present me))|]. naive_solver.
  - destruct Hh as (_ & x & Hx & _ & Ho). eapply unlock_not_owner; eauto. congruence.
Qed.

Lemma mutex_exclusion_witness :
  wp (os_mutex_unlock id 20) (λ r s', r = OS_ERROR_PERMISSION_DENIED ∧ s' = demo_sys) demo_sys.
Proof.
  refine (proj2 (mutex_exclusion id 20 200 100 6 5 demo_sys _ _ _ _ _ _ _ _)); try demo.
  split; [by eexists|]. by eexists.
Defined.

(** A free mutex is acquired at once, whatever the timeout, and the owner's unlock succeeds: when
    the owner gives up the processor the mutex is free, so that everything the other tasks do with
    a free mutex ([J]) is possible from there. *)
Theorem mutex_handover `{!Platform} env m me (J : sys_t → Prop) fuel timeout s
    `{!Rely env (λ s, held m me s ∧ True)} :
  m ≠ NULL → live (kget s) → current_task (kget s) = me → present me s → free m s →
  (∀ s1, live (kget s1) → free m s1 → J (env s1)) →
  wp (let! r1 := os_mutex_lock env (S fuel) m timeout in
      let! r2 := os_mutex_unlock env m in
      ret (r1, r2)) (λ r s', r = (OS_OK, OS_OK) ∧ J s') s.
Proof.
  intros Hm Hl Hcur Hp Hf HJ. rewrite wp_bind. eapply wp_mono; [by apply (lock_free env m me)|].
  intros r1 s1 [-> (p & Hs1)]. rewrite wp_bind.
  eapply wp_mono; [apply (unlock_owner env m me (λ _, True) J s1); auto|].
  - by rewrite Hs1.
  - by rewrite Hs1.
  - rewrite Hs1. split; [done|]. eexists. split; [apply lookup_insert_eq|done].
  - intros r2 s2 [-> HJ2]. by wp_step.
Qed.

Lemma mutex_handover_witness :
  wp (let! r1 := os_mutex_lock id 1 10 0 in let! r2 := os_mutex_unlock id 10 in ret (r1, r2))
    (λ r s', r = (OS_OK, OS_OK) ∧ free 10 s') demo_sys.
Proof.
  assert (Rely id (λ s, held 10 100 s ∧ True)) as Hrely by (by apply rely_held).
  refine (mutex_handover id 10 100 (free 10) 0 0 demo_sys _ _ _ _ _ _); demo.
Defined.


Definition demo_inversion : sys_t :=
  demo_sys <| sys_kernel := after (run_call (CallSetPriority 200 9)) demo_two |>.
Lemma demo_inversion_live : live (kget demo_inversion).
Proof.
  split_and!; [|vm_compute; congruence|vm_compute; congruence].
  apply reachable_kernel_inv, (reachable_call demo_two (CallSetPriority 200 9)).
  - apply demo_two_reachable.
  - split; [right; vm_compute; eauto|lia].
  - vm_compute. reflexivity.
Qed.


(** * Semaphores *)
Lemma sem_count_kput sem n k s : sem_count sem n s → sem_count sem n (kput k s).
Proof. done. Qed.

(** Semaphores: with a positive count [os_semaphore_wait] returns at once and takes exactly one
    unit; whatever the others do, it returns within [timeout] rounds and never makes the count
    negative; and if nobody posts it reports a timeout and takes nothing. *)
Theorem semaphore_wait_spec `{!Platform} env sem fuel timeout s
    `{!Rely env (λ s, ∃ n, 0 ≤ n ∧ sem_count sem n s)} :
  sem ≠ NULL → live (kget s) → 0 < timeout ≤ SWITCH_BOUND → (Z.to_nat timeout < fuel)%nat →
  (∀ n, 0 < n → sem_count sem n s →
     wp (os_semaphore_wait env fuel sem timeout)
       (λ r s', r = OS_OK ∧ sem_count sem (n - 1) s' ∧ kget s' = kget s) s) ∧
  (∀ n, 0 ≤ n → sem_count sem n s →
     wp (os_semaphore_wait env fuel sem timeout)
       (λ r s', (r = OS_OK ∨ r = OS_ERROR_TIMEOUT) ∧ (∃ n', 0 ≤ n' ∧ sem_count sem n' s') ∧
          primask (kget s') = primask (kget s)) s) ∧
  (Rely env (sem_count sem 0) → sem_count sem 0 s →
     wp (os_semaphore_wait env fuel sem timeout)
       (λ r s', r = OS_ERROR_TIMEOUT ∧ sem_count sem 0 s') s).
Proof.
  intros Hs Hl Hto Hfuel. unfold os_semaphore_wait. destruct (Z.eqb_spec sem NULL) as [|_]; [done|].
  split_and!.
  - intros n Hn (v & Hv & <-). wp_step. destruct fuel as [|fuel]; [lia|]. apply retry_now.
    eapply wp_mono; [by apply semaphore_try_spec|]. destruct (Z.ltb_spec 0 (s_count v)) as [_|]; [|lia].
    intros r s' [-> ->]. exists tt. split; [done|]. wp_step. split_and!; [done| |done].
    eexists. split; [apply lookup_insert_eq|done].
  - intros n Hn Hv. wp_step.
    apply (retry_start env _ _ (λ _ s, ∃ n, 0 ≤ n ∧ sem_count sem n s)); auto; [|by eauto|..].
    + intros s0 Hl0 (n0 & Hn0 & v0 & Hv0 & <-). by apply (semaphore_attempt sem v0).
    + intros [] s' ? ?. wp_step. auto.
    + intros s' ? ? ? ?. wp_step. auto.
  - intros Hrely Hv. wp_step. apply (retry_start env _ _ (λ _ _, False)); auto; [|done|].
    + intros s0 Hl0 (v0 & Hv0 & Hc). eapply wp_mono; [by apply semaphore_try_spec|].
      intros r s' Hr. rewrite Hc in Hr. destruct Hr as [-> ->].
      split; [by apply returns_nothing; [apply Hl0|]|]. by exists v0.
    + intros s' ? ? ? ?. by wp_step.
Qed.

Lemma semaphore_wait_witness :
  wp (os_semaphore_wait id 6 30 5) (λ r s', r = OS_ERROR_TIMEOUT ∧ sem_count 30 0 s') demo_sys.
Proof.
  assert (∀ P, (∀ k s, P s → P (kput k s)) → Rely id P) as Hrely by (intros P HP; apply rely_id; auto).
  unshelve refine (proj2 (proj2 (@semaphore_wait_spec _ id 30 6 5 demo_sys _ _ _ _ _)) _ _); try demo.
  - by apply Hrely.
  - by apply Hrely.
Defined.

(** * Event groups *)

(** Waiting for events, whatever the others set and clear meanwhile: the call returns within
    [timeout] rounds, either with a timeout, or with the bits of [bits] that were set at that
    moment (all of them if [EVENT_WAIT_ALL] was asked for, at least one otherwise), which are
    cleared exactly if [EVENT_CLEAR_ON_EXIT] was asked for, no other bit being touched. *)
Theorem event_wait_spec `{!Platform} env eg bits options received fuel timeout s
    `{!Rely env (λ s, ∃ e, events_are eg e s)} :
  eg ≠ NULL → bits ≠ 0 → received ≠ NULL → live (kget s) → (∃ e, events_are eg e s) →
  0 < timeout ≤ SWITCH_BOUND → (Z.to_nat timeout < fuel)%nat →
  let wait_all := negb (Z.land options EVENT_WAIT_ALL =? 0) in
  let clear := negb (Z.land options EVENT_CLEAR_ON_EXIT =? 0) in
  wp (os_event_group_wait_bits env fuel eg bits options received timeout) (λ r s',
    primask (kget s') = primask (kget s) ∧
    (r = (OS_ERROR_TIMEOUT, None) ∨
     ∃ e, events_match wait_all e bits = true ∧ r = (OS_OK, Some (Z.land e bits)) ∧
       events_are eg (if clear then Z.land e (lnot32 bits) else e) s')) s.
Proof.
  intros Heg Hb Hrec Hl He Hto Hfuel wait_all clear. unfold os_event_group_wait_bits.
  destruct (Z.eqb_spec eg NULL) as [|_]; [done|]. destruct (Z.eqb_spec bits 0) as [|_]; [done|]. simpl orb.
  cbv iota. wp_step. fold wait_all clear.
  apply (retry_start env (λ s, ∃ e, events_are eg e s) _ (λ b s', ∃ e, events_match wait_all e bits = true ∧
    b = Z.land e bits ∧ events_are eg (if clear then Z.land e (lnot32 bits) else e) s')); auto.
  - intros s0 Hl0 (e & x & Hx & <-). eapply wp_mono; [by apply events_try_spec|].
    intros r s' Hr. destruct (events_match wait_all (eg_events x) bits) eqn:Em; destruct Hr as [-> ->].
    + split; [apply returns_nothing; [apply Hl0|by destruct clear]|]. exists (eg_events x).
      split_and!; [done|done|]. destruct clear; [|by eexists].
      eexists. split; [apply lookup_insert_eq|done].
    + split; [by apply returns_nothing; [apply Hl0|]|]. exists (eg_events x), x. done.
  - intros b s' ? (e & ? & -> & ?). wp_step. split; [done|]. right. exists e. split_and!; [done| |done].
    by destruct (Z.eqb_spec received NULL).
  - intros s' ? ? ? ?. wp_step. split; [done|]. left. by destruct (received =? NULL).
Qed.

Lemma event_wait_witness :
  wp (os_event_group_wait_bits id 6 40 4 4 900 5) (λ r s', primask (kget s') = 0 ∧
    (r = (OS_ERROR_TIMEOUT, None) ∨
     ∃ e, events_match false e 4 = true ∧ r = (OS_OK, Some (Z.land e 4)) ∧
       events_are 40 (Z.land e (lnot32 4)) s')) demo_sys.
Proof.
  assert (Rely id (λ s, ∃ e, events_are 40 e s)) as Hrely by (apply rely_id; auto).
  refine (event_wait_spec id 40 4 4 900 6 5 demo_sys _ _ _ _ _ _ _); try demo. by eexists _, _.
Defined.

(** * Message queues *)
Lemma queue_rep_kput q b w n items k s : queue_rep q b w n items s → queue_rep q b w n items (kput k s).
Proof. done. Qed.
Lemma queue_rep_mutexes q b w n items f s :
  queue_rep q b w n items s → queue_rep q b w n items (s <| mutexes ::= f |>).
Proof. done. Qed.

(** C10. A message queue refines a bounded FIFO list: under the queue's lock, sending appends the
    message if there is room and changes nothing otherwise; receiving takes the oldest message and
    copies it out; peeking copies it and leaves it; both change nothing on an empty queue. The
    ring indices wrap around and no byte outside the slots is written. *)
Theorem queue_refines_fifo q b w n items s item l :
  queue_rep q b w n items s → item ≠ b → memory s !! item = Some l → (w ≤ length l)%nat →
  wp (queue_put q item) (λ r s',
    if decide (length items < n)%nat
    then r = Some tt ∧ queue_rep q b w n (items ++ [take w l]) s' ∧ queue_only q b s s'
    else r = None ∧ s' = s) s ∧
  wp (queue_take q item) (λ r s',
    match items with
    | [] => r = None ∧ s' = s
    | x :: rest => r = Some tt ∧ queue_rep q b w n rest s' ∧ delivered item l x s s'
    end) s ∧
  wp (queue_front q item) (λ r s',
    match items with
    | [] => r = None ∧ s' = s
    | x :: _ => r = Some tt ∧ queue_rep q b w n items s' ∧ delivered item l x s s'
    end) s.
Proof.
  intros. split_and!; [by apply queue_put_spec|by apply queue_take_spec|by apply queue_front_spec].
Qed.

Lemma demo_queue_rep : queue_rep 500 600 2 3 [] demo_sys.
Proof. exists 0%nat, (replicate 6 0). split_and!; [done|done|done|lia|lia|lia|simpl; lia|done]. Qed.

Lemma queue_refines_fifo_witness :
  wp (queue_put 500 700) (λ r s', if decide (length (@nil (list Z)) < 3)%nat
    then r = Some tt ∧ queue_rep 500 600 2 3 ([] ++ [take 2 [8; 9]]) s' ∧ queue_only 500 600 demo_sys s'
    else r = None ∧ s' = demo_sys) demo_sys.
Proof.
  refine (proj1 (queue_refines_fifo 500 600 2 3 [] demo_sys 700 [8; 9] _ _ _ _)); try done.
  - exact demo_queue_rep.
Defined.

(** [os_queue_send] on a queue that has room and whose lock is free succeeds in its first round:
    when the sender gives up the processor the message is at the end of the queue and the lock is
    free again ([J] is what the others make of that). *)
Theorem queue_send_succeeds `{!Platform} env q b w n items me J rounds fuel timeout s item l
    `{!Rely env (λ s, held (queue_lock q) me s ∧ queue_rep q b w n (items ++ [take w l]) s)} :
  q ≠ NULL → item ≠ NULL → queue_lock q ≠ NULL → live (kget s) → current_task (kget s) = me →
  present me s → free (queue_lock q) s →
  queue_rep q b w n items s → (length items < n)%nat →
  memory s !! item = Some l → (w ≤ length l)%nat →
  (∀ s1, live (kget s1) → free (queue_lock q) s1 → queue_rep q b w n (items ++ [take w l]) s1 →
     J (env s1)) →
  wp (os_queue_send env (S rounds) (S fuel) q item timeout) (λ r s', r = OS_OK ∧ J s') s.
Proof.
  intros Hq Hi Hlk Hl Hcur Hp Hf Hrep Hroom Hmem Hw HJ. unfold os_queue_send.
  destruct (Z.eqb_spec q NULL) as [|_]; [done|]. destruct (Z.eqb_spec item NULL) as [|_]; [done|]. simpl.
  wp_step. eapply wp_mono; [by apply (lock_free env (queue_lock q) me)|].
  intros r s1 [-> (p & Hs1)]. rewrite bool_decide_false by (intros E; by apply E). wp_step.
  eapply wp_mono; [apply (queue_put_spec q b w n items s1 item l); by rewrite ?Hs1|].
  intros r s2 Hput. destruct (decide (length items < n)%nat) as [_|]; [|lia].
  destruct Hput as (-> & Hrep2 & rec & buf & Hs2). wp_step.
  eapply wp_mono; [apply (unlock_owner env (queue_lock q) me
    (queue_rep q b w n (items ++ [take w l])) J s2); auto; try (by rewrite Hs2, Hs1)|].
  - rewrite Hs2, Hs1. split; [done|]. eexists. split; [apply lookup_insert_eq|done].
  - intros r s3 [-> HJ3]. by wp_step.
Qed.

Lemma queue_send_witness :
  wp (os_queue_send id 1 1 500 700 0) (λ r s', r = OS_OK ∧ queue_rep 500 600 2 3 [[8; 9]] s') demo_sys.
Proof.
  assert (Rely id (λ s, held (queue_lock 500) 100 s ∧ queue_rep 500 600 2 3 ([] ++ [take 2 [8; 9]]) s))
    as Hrely by (apply rely_held; intros; by apply queue_rep_kput).
  refine (queue_send_succeeds id 500 600 2 3 [] 100 (queue_rep 500 600 2 3 [[8; 9]]) 0 0 0 demo_sys
    700 [8; 9] _ _ _ _ _ _ _ _ _ _ _ _); try demo.
  - exact demo_queue_rep.
  - simpl. lia.
Defined.

(** * Condition variables *)

(** Signalling a condition variable can lose tasks: a task waiting on a condition variable
    stays in its ready queue, linked by the same [next] field, so if another task is behind it
    there, [os_cond_signal] cuts the ready queue after the waiter and makes the task behind it,
    which waits for nothing, the head of the condition variable's wait queue. *)
Theorem cond_signal_cuts_ready_queue cond c a b p l1 l2 s :
  cond_vars s !! cond = Some c → cv_wait_queue c = a → fifo (kget s) p (l1 ++ a :: b :: l2) →
  wp (cond_wake_first cond) (λ _ s', fifo (kget s') p (l1 ++ [a]) ∧
    ∃ c', cond_vars s' !! cond = Some c' ∧ cv_wait_queue c' = b ∧
      cv_waiting_count c' = u32 (cv_waiting_count c - 1)) s.
Proof.
  intros Hc Ha (h & Hh & Hl). eapply wp_mono; [by apply (wake_first_cuts cond c a b p l1 l2 s h)|].
  intros [] s' (Hh' & Hl' & _ & Hc'). split; [by exists h|done].
Qed.

(** Three tasks of priority 1. Task 100 holds the mutex at 10, starts to wait on the condition
    variable at 50 (it enqueues itself and unlocks the mutex), and task 200 uses up its turn: task
    300 runs while the ready queue holds 100 and 200. *)
Definition demo_wait : M sys_t unit :=
  let! _ := in_kernel (os_task_create 300 None 5008 9 1) in
  let! _ := os_mutex_lock id 1 10 0 in
  cond_enqueue 50 100 ;;;
  let! _ := os_mutex_unlock id 10 in
  yield id.
Definition demo_waiting : sys_t := Eval vm_compute in
  match demo_wait demo_sys with Ret _ s => s | _ => demo_sys end.

Lemma cond_signal_witness :
  wp (cond_wake_first 50) (λ _ s', fifo (kget s') 1 [100] ∧
    ∃ c', cond_vars s' !! 50 = Some c' ∧ cv_wait_queue c' = 200 ∧ cv_waiting_count c' = 0) demo_waiting.
Proof.
  refine (cond_signal_cuts_ready_queue 50 (CondVar 100 1) 100 200 1 [] [] demo_waiting _ _ _).
  - reflexivity.
  - reflexivity.
  - exists 100. split; [reflexivity|]. split; [done|]. split; [done|]. eexists. split; [reflexivity|].
    split; [reflexivity|]. split; [done|]. eexists. by split.
Defined.
