(* ===== verification/Timer.v ===== *)
(** Timer: the software timers of [src/timer.c].

    [timer_state] is the static [timer_manager] with the timers of the application, by address, and
    the kernel, of which the module uses the tick counter and the critical sections. The callbacks
    belong to the application: [run_callback] is a parameter, what a callback does to the whole
    state, including calls back into the timer module. *)
From Stdlib Require Import ZArith Lia.
From stdpp Require Import base numbers gmap list sorting.
From S2P Require Import Prelude Types Kernel ReadyQueue Scheduler KernelApi.

(** * Data *)
Inductive timer_type_t := TIMER_ONE_SHOT | TIMER_AUTO_RELOAD.
#[export] Instance timer_type_eq_dec : EqDecision timer_type_t.
Proof. solve_decision. Defined.

Record timer_t := Timer {
  t_name : list Z;
  t_type : timer_type_t;
  t_period : Z;
  t_expire_time : Z;
  t_active : bool;
  t_callback : Z;
  t_callback_param : Z;
  t_next : ptr
}.
#[export] Instance timer_eta : Eta timer_t := λ t,
  Timer (t_name t) (t_type t) (t_period t) (t_expire_time t) (t_active t) (t_callback t)
    (t_callback_param t) (t_next t).
Definition timer_zero : timer_t := Timer (replicate 16 0) TIMER_ONE_SHOT 0 0 false NULL NULL NULL.

Record timer_state := TimerState {
  active_timers : ptr;
  timer_count : Z;
  timers : gmap Z timer_t;
  timer_kernel : kernel_t
}.
#[export] Instance timer_state_eta : Eta timer_state := λ s,
  TimerState (active_timers s) (timer_count s) (timers s) (timer_kernel s).

#[export] Program Instance timer_view : KernelView timer_state :=
  {| kget := timer_kernel; kput := λ k s, s <| timer_kernel := k |> |}.
Solve All Obligations with (intros; repeat match goal with s : timer_state |- _ => destruct s end; done).

(** * Operations *)
Definition tload (p : ptr) : M timer_state timer_t := λ s,
  match timers s !! p with Some t => Ret t s | None => Undef end.
Definition tstore (p : ptr) (f : timer_t → timer_t) : M timer_state unit := λ s,
  match timers s !! p with
  | Some t => Ret tt (s <| timers ::= <[p := f t]> |>)
  | None => Undef
  end.
Definition t_enter : M timer_state Z := in_kernel os_enter_critical.
Definition t_exit (state : Z) : M timer_state unit := in_kernel (os_exit_critical state).
Definition t_tick : M timer_state Z := in_kernel (gets os_get_tick_count).
Definition timer_fuel (s : timer_state) : nat := S (size (timers s)).

Definition os_timer_init : M timer_state unit :=
  modify (λ s, s <| active_timers := NULL |> <| timer_count := 0 |>).

(** [name] is [None] for [NULL]. *)
Definition os_timer_create (timer : ptr) (name : option (list Z)) (type : timer_type_t)
    (period_ms callback callback_param : Z) : M timer_state os_error_t :=
  if (timer =? NULL) || (callback =? NULL) || (period_ms =? 0) then ret OS_ERROR_INVALID_PARAM
  else
    let! state := t_enter in
    tstore timer (λ _, timer_zero) ;;;
    match name with
    | Some n => tstore timer (λ t, t <| t_name ::= λ old, arr_set (strncpy old n 15) 15 0 |>)
    | None => ret tt
    end ;;;
    tstore timer (λ t, t <| t_type := type |> <| t_period := period_ms |> <| t_callback := callback |>
      <| t_callback_param := callback_param |> <| t_active := false |> <| t_next := NULL |>) ;;;
    t_exit state ;;;
    ret OS_OK.

(** [while (current->next != NULL && current->next->expire_time <= expire) current = current->next;] *)
Fixpoint insert_position (fuel : nat) (current : ptr) (expire : Z) : M timer_state ptr :=
  match fuel with
  | O => nofuel
  | S fuel =>
      let! c := tload current in
      if t_next c =? NULL then ret current
      else
        let! n := tload (t_next c) in
        if t_expire_time n <=? expire then insert_position fuel (t_next c) expire else ret current
  end.

Definition timer_insert_sorted (timer : ptr) : M timer_state unit :=
  let! t := tload timer in
  let! head := gets active_timers in
  let! first :=
    if head =? NULL then ret true
    else let! h := tload head in ret (t_expire_time t <? t_expire_time h) in
  (if first : bool then
     tstore timer (λ t, t <| t_next := head |>) ;;;
     modify (λ s, s <| active_timers := timer |>)
   else
     let! fuel := gets timer_fuel in
     let! current := insert_position fuel head (t_expire_time t) in
     let! c := tload current in
     tstore timer (λ t, t <| t_next := t_next c |>) ;;;
     tstore current (λ c, c <| t_next := timer |>)) ;;;
  modify (λ s, s <| timer_count ::= λ n, u32 (n + 1) |>).

(** [while (current != NULL && current->next != timer) current = current->next;] *)
Fixpoint find_before (fuel : nat) (current timer : ptr) : M timer_state ptr :=
  match fuel with
  | O => nofuel
  | S fuel =>
      if current =? NULL then ret NULL
      else
        let! c := tload current in
        if t_next c =? timer then ret current else find_before fuel (t_next c) timer
  end.

(** Taking [timer], whose successor is [next], out of the active list. *)
Definition timer_unlink (timer next : ptr) : M timer_state unit :=
  let! head := gets active_timers in
  if head =? timer then modify (λ s, s <| active_timers := next |>)
  else
    let! fuel := gets timer_fuel in
    let! current := find_before fuel head timer in
    when (negb (current =? NULL)) (tstore current (λ c, c <| t_next := next |>)).

Definition os_timer_stop (timer : ptr) : M timer_state os_error_t :=
  if timer =? NULL then ret OS_ERROR_INVALID_PARAM
  else
    let! state := t_enter in
    let! t := tload timer in
    if negb (t_active t) then
      t_exit state ;;;
      ret OS_OK
    else
      timer_unlink timer (t_next t) ;;;
      tstore timer (λ t, t <| t_active := false |>) ;;;
      tstore timer (λ t, t <| t_next := NULL |>) ;;;
      modify (λ s, s <| timer_count ::= λ n, u32 (n - 1) |>) ;;;
      t_exit state ;;;
      ret OS_OK.

Definition os_timer_start (timer : ptr) : M timer_state os_error_t :=
  if timer =? NULL then ret OS_ERROR_INVALID_PARAM
  else
    let! state := t_enter in
    let! t := tload timer in
    when (t_active t) (let! _ := os_timer_stop timer in ret tt) ;;;
    let! now := t_tick in
    tstore timer (λ t, t <| t_expire_time := u32 (now + t_period t) |>) ;;;
    tstore timer (λ t, t <| t_active := true |>) ;;;
    timer_insert_sorted timer ;;;
    t_exit state ;;;
    ret OS_OK.

Definition os_timer_reset (timer : ptr) : M timer_state os_error_t :=
  if timer =? NULL then ret OS_ERROR_INVALID_PARAM
  else
    let! _ := os_timer_stop timer in
    os_timer_start timer.

Definition os_timer_delete (timer : ptr) : M timer_state os_error_t :=
  if timer =? NULL then ret OS_ERROR_INVALID_PARAM
  else
    let! t := tload timer in
    when (t_active t) (let! _ := os_timer_stop timer in ret tt) ;;;
    tstore timer (λ _, timer_zero) ;;;
    ret OS_OK.

Definition os_timer_change_period (timer : ptr) (new_period_ms : Z) : M timer_state os_error_t :=
  if (timer =? NULL) || (new_period_ms =? 0) then ret OS_ERROR_INVALID_PARAM
  else
    let! t := tload timer in
    let was_active := t_active t in
    when was_active (let! _ := os_timer_stop timer in ret tt) ;;;
    tstore timer (λ t, t <| t_period := new_period_ms |>) ;;;
    when was_active (let! _ := os_timer_start timer in ret tt) ;;;
    ret OS_OK.

Definition os_timer_is_active (timer : ptr) : M timer_state bool :=
  if timer =? NULL then ret false else let! t := tload timer in ret (t_active t).

Definition os_timer_get_remaining_ms (timer : ptr) : M timer_state Z :=
  if timer =? NULL then ret 0
  else
    let! t := tload timer in
    if negb (t_active t) then ret 0
    else
      let! state := t_enter in
      let! current_time := t_tick in
      let! t := tload timer in
      t_exit state ;;;
      let remaining := i32 (t_expire_time t - current_time) in
      ret (if 0 <? remaining then remaining else 0).

Definition os_timer_get_count : M timer_state Z := gets timer_count.

Section process.
Context (run_callback : Z → Z → timer_state → timer_state).

(** The loop of [os_timer_process]. The result lists the timers whose callback ran, in order. *)
Fixpoint process_loop (fuel : nat) (current_time state : Z) (timer prev : ptr) :
    M timer_state (Z * list ptr) :=
  match fuel with
  | O => nofuel
  | S fuel =>
      if timer =? NULL then ret (state, [])
      else
        let! t := tload timer in
        if 0 <=? i32 (current_time - t_expire_time t) then
          (if prev =? NULL then modify (λ s, s <| active_timers := t_next t |>)
           else tstore prev (λ p, p <| t_next := t_next t |>)) ;;;
          tstore timer (λ t, t <| t_active := false |>) ;;;
          modify (λ s, s <| timer_count ::= λ n, u32 (n - 1) |>) ;;;
          t_exit state ;;;
          let! e := tload timer in
          when (negb (t_callback e =? NULL))
            (modify (run_callback (t_callback e) (t_callback_param e))) ;;;
          let! state := t_enter in
          let! e := tload timer in
          let! r :=
            if bool_decide (t_type e = TIMER_AUTO_RELOAD) then
              tstore timer (λ e, e <| t_expire_time := u32 (current_time + t_period e) |>) ;;;
              tstore timer (λ e, e <| t_active := true |>) ;;;
              timer_insert_sorted timer ;;;
              let! head := gets active_timers in
              process_loop fuel current_time state head NULL
            else process_loop fuel current_time state (t_next t) prev in
          ret (fst r, timer :: snd r)
        else ret (state, [])
  end.

Definition os_timer_process (fuel : nat) : M timer_state (list ptr) :=
  let! current_time := t_tick in
  let! state := t_enter in
  let! head := gets active_timers in
  let! r := process_loop fuel current_time state head NULL in
  t_exit (fst r) ;;;
  ret (snd r).
End process.

(** * Linked lists of timers *)

(** The list segment from [p] through the timers [l] to [q]. *)
Fixpoint tseg (m : gmap Z timer_t) (p : ptr) (l : list ptr) (q : ptr) : Prop :=
  match l with
  | [] => p = q
  | a :: l => p = a ∧ a ≠ NULL ∧ ∃ t, m !! a = Some t ∧ tseg m (t_next t) l q
  end.

Lemma tseg_app m l1 : ∀ p l2 q,
  tseg m p (l1 ++ l2) q ↔ ∃ r, tseg m p l1 r ∧ tseg m r l2 q.
Proof.
  induction l1 as [|a l1 IH]; intros p l2 q; simpl.
  - split; [eauto|by intros (r & -> & ?)].
  - split.
    + intros (-> & ? & t & ? & (r & ? & ?)%IH). exists r. split_and!; eauto.
    + intros (r & (-> & ? & t & ? & ?) & ?). split_and!; auto. exists t. split; [done|]. apply IH. eauto.
Qed.

Lemma tseg_cons_inv m p a l q :
  tseg m p (a :: l) q → p = a ∧ ∃ t, m !! a = Some t ∧ a ≠ NULL ∧ tseg m (t_next t) l q.
Proof. simpl. naive_solver. Qed.

Lemma tseg_elem m p l q a : tseg m p l q → a ∈ l → a ≠ NULL ∧ is_Some (m !! a).
Proof.
  revert p. induction l as [|b l IH]; intros p Hl Ha; [by apply not_elem_of_nil in Ha|].
  destruct Hl as (-> & Hn & t & Ht & Hl). apply elem_of_cons in Ha as [->|Ha]; eauto.
Qed.

(** Two lists that start at the same timer are the same. *)
Lemma tlist_det m l1 : ∀ p l2, tseg m p l1 NULL → tseg m p l2 NULL → l1 = l2.
Proof.
  induction l1 as [|a l1 IH]; intros p [|b l2] H1 H2; simpl in *; [done| | |].
  - destruct H2 as (-> & ? & _). done.
  - destruct H1 as (-> & ? & _). done.
  - destruct H1 as (-> & ? & t & Ht & H1), H2 as (<- & _ & t' & Ht' & H2).
    rewrite Ht in Ht'. injection Ht' as <-. f_equal. by eapply IH.
Qed.

Lemma tlist_nodup m l : ∀ p, tseg m p l NULL → NoDup l.
Proof.
  induction l as [|a l IH]; intros p Hl; [constructor|].
  pose proof Hl as (-> & Hn & t & Ht & Hl'). constructor; [|by eapply IH].
  intros (l1 & l2 & ->)%list_elem_of_split.
  pose proof Hl' as Hl2. apply tseg_app in Hl2 as (r & _ & Hl2). pose proof Hl2 as (-> & _).
  pose proof (tlist_det m _ _ _ Hl2 Hl) as E. apply (f_equal length) in E.
  simpl in E. rewrite length_app in E. simpl in E. lia.
Qed.

Lemma tlist_length m p l : tseg m p l NULL → (length l ≤ size m)%nat.
Proof.
  intros Hl. pose proof (tlist_nodup _ _ _ Hl) as Hnd. rewrite <-(size_dom m).
  rewrite <-(size_list_to_set (C := gset Z) l Hnd). apply subseteq_size. intros a Ha.
  apply elem_of_list_to_set in Ha. apply elem_of_dom. by eapply tseg_elem.
Qed.

(** A segment only depends on the links of its own timers. *)
Lemma tseg_frame m m' l : ∀ p q,
  (∀ a, a ∈ l → t_next <$> m' !! a = t_next <$> m !! a) → tseg m p l q → tseg m' p l q.
Proof.
  induction l as [|a l IH]; intros p q Hm Hl; [done|]. destruct Hl as (-> & Hn & t & Ht & Hl).
  assert (t_next <$> m' !! a = Some (t_next t)) as Ha.
  { rewrite Hm by (apply elem_of_cons; by left). by rewrite Ht. }
  apply fmap_Some in Ha as (t' & Ht' & Ha). simpl. split_and!; auto. exists t'. split; [done|].
  rewrite <-Ha. apply IH; [|done]. intros b Hb. apply Hm, elem_of_cons. by right.
Qed.

Lemma tseg_insert_ne m p l q a t : a ∉ l → tseg m p l q → tseg (<[a := t]> m) p l q.
Proof.
  intros Ha. apply tseg_frame. intros b Hb. rewrite lookup_insert_ne; [done|]. by intros ->.
Qed.

(** Linking [a] in behind [z]; unlinking the timer [a] behind [z]. *)
Lemma tlist_link m p l1 z l2 tz a ta :
  tseg m p (l1 ++ z :: l2) NULL → m !! z = Some tz → a ∉ l1 ++ z :: l2 → a ≠ NULL →
  t_next ta = t_next tz →
  tseg (<[z := tz <| t_next := a |>]> (<[a := ta]> m)) p (l1 ++ z :: a :: l2) NULL.
Proof.
  intros Hl Hz Ha Hn Hta. pose proof (tlist_nodup _ _ _ Hl) as Hnd.
  apply NoDup_app in Hnd as (_ & Hd & [Hz2 _]%NoDup_cons).
  assert (z ∉ l1) as Hz1 by (intros Hz1; apply (Hd z Hz1), elem_of_cons; by left).
  rewrite elem_of_app, elem_of_cons in Ha. assert (z ≠ a) as Hza by (intros ->; tauto).
  apply tseg_app in Hl as (r & Hl1 & (-> & Hzn & tz' & Hz' & Hl2)).
  rewrite Hz in Hz'. injection Hz' as <-. apply tseg_app. exists z. split.
  - apply tseg_insert_ne; [done|]. apply tseg_insert_ne; [tauto|done].
  - split_and!; [done|done|]. exists (tz <| t_next := a |>). rewrite lookup_insert_eq. split; [done|].
    simpl. split_and!; [done|done|]. exists ta. rewrite lookup_insert_ne, lookup_insert_eq by done.
    split; [done|]. rewrite Hta. apply tseg_insert_ne; [done|]. apply tseg_insert_ne; [tauto|done].
Qed.

Lemma tlist_unlink m p l1 z l2 tz a ta :
  tseg m p (l1 ++ z :: a :: l2) NULL → m !! z = Some tz → m !! a = Some ta →
  tseg (<[z := tz <| t_next := t_next ta |>]> m) p (l1 ++ z :: l2) NULL.
Proof.
  intros Hl Hz Ha. pose proof (tlist_nodup _ _ _ Hl) as Hnd.
  apply NoDup_app in Hnd as (_ & Hd & [Hz2 _]%NoDup_cons). rewrite elem_of_cons in Hz2.
  assert (z ∉ l1) as Hz1 by (intros Hz1; apply (Hd z Hz1), elem_of_cons; by left).
  apply tseg_app in Hl as (r & Hl1 & (-> & Hzn & tz' & Hz' & Hl2)).
  rewrite Hz in Hz'. injection Hz' as <-. destruct Hl2 as (_ & _ & ta' & Ha' & Hl2).
  rewrite Ha in Ha'. injection Ha' as <-. apply tseg_app. exists z. split.
  - by apply tseg_insert_ne.
  - split_and!; [done|done|]. eexists. rewrite lookup_insert_eq. split; [done|]. simpl.
    apply tseg_insert_ne; [tauto|done].
Qed.

(** * The invariant *)
Definition expiry (m : gmap Z timer_t) (a : ptr) : Z := default 0 (t_expire_time <$> m !! a).
Definition earlier (m : gmap Z timer_t) (a b : ptr) : Prop := expiry m a ≤ expiry m b.

(** The list of the manager holds the timers [l], in the order of their expiry. *)
Record list_ok (s : timer_state) (l : list ptr) : Prop := {
  lo_list : tseg (timers s) (active_timers s) l NULL;
  lo_null : timers s !! NULL = None;
  lo_sorted : StronglySorted (earlier (timers s)) l;
  lo_count : timer_count s = u32 (Z.of_nat (length l))
}.
(** The timers of the list are exactly the active ones. *)
Definition timers_rep (s : timer_state) (l : list ptr) : Prop :=
  list_ok s l ∧ ∀ a t, timers s !! a = Some t → t_active t = true ↔ a ∈ l.

(** Two memories that only differ in the links. *)
Definition same_but_next (m m' : gmap Z timer_t) : Prop :=
  ∀ b, (λ u, u <| t_next := NULL |>) <$> m' !! b = (λ u, u <| t_next := NULL |>) <$> m !! b.
#[export] Instance same_but_next_equiv : Equivalence same_but_next.
Proof. split; [done|by intros m m' Hm b|by intros m1 m2 m3 H1 H2 b; rewrite H2]. Qed.

Lemma same_but_next_set m a t x : m !! a = Some t → same_but_next m (<[a := t <| t_next := x |>]> m).
Proof.
  intros Ha b. destruct (decide (b = a)) as [->|]; [by rewrite lookup_insert_eq, Ha|].
  by rewrite lookup_insert_ne.
Qed.
Lemma same_but_next_lookup m m' b u :
  same_but_next m m' → m !! b = Some u → ∃ x, m' !! b = Some (u <| t_next := x |>).
Proof.
  intros Hm Hb. specialize (Hm b). rewrite Hb in Hm. apply fmap_Some in Hm as (u' & Hu' & E).
  exists (t_next u'). rewrite Hu'. destruct u, u'. simpl in *. congruence.
Qed.
Lemma same_but_next_expiry m m' b : same_but_next m m' → expiry m' b = expiry m b.
Proof.
  intros Hm. unfold expiry. destruct (m !! b) as [u|] eqn:Hb.
  - destruct (same_but_next_lookup _ _ _ _ Hm Hb) as (x & ->). done.
  - specialize (Hm b). rewrite Hb in Hm. apply fmap_None in Hm. by rewrite Hm.
Qed.
Lemma same_but_next_None m m' b : same_but_next m m' → m !! b = None → m' !! b = None.
Proof. intros Hm Hb. specialize (Hm b). rewrite Hb in Hm. by apply fmap_None in Hm. Qed.
Lemma same_but_next_sorted m m' l :
  same_but_next m m' → StronglySorted (earlier m) l → StronglySorted (earlier m') l.
Proof.
  intros Hm. induction 1 as [|a l Hl IH Ha]; constructor; [done|].
  eapply Forall_impl; [exact Ha|]. intros b Hb. unfold earlier.
  by rewrite !(same_but_next_expiry _ _ _ Hm).
Qed.

Lemma wp_tload p t Q s : timers s !! p = Some t → Q t s → wp (tload p) Q s.
Proof. unfold wp, tload. by intros ->. Qed.
Lemma wp_tstore p t f Q s :
  timers s !! p = Some t → Q tt (s <| timers ::= <[p := f t]> |>) → wp (tstore p f) Q s.
Proof. unfold wp, tstore. by intros ->. Qed.
Lemma wp_t_enter Q s : wp t_enter Q s = Q (primask (kget s)) (kput (kget s <| primask := 1 |>) s).
Proof. reflexivity. Qed.
Lemma wp_t_exit x Q s : wp (t_exit x) Q s = Q tt (kput (kget s <| primask := x |>) s).
Proof. reflexivity. Qed.
Lemma wp_t_tick Q s : wp t_tick Q s = Q (tick_count (kget s)) s.
Proof. unfold t_tick. rewrite wp_in_kernel, wp_gets, kput_kget. reflexivity. Qed.
#[export] Hint Rewrite wp_t_enter wp_t_exit wp_t_tick : wp.

(** * Insertion *)

(** The search stops behind the last timer that does not expire later. *)
Lemma insert_position_spec s e l2 : ∀ fuel l1 z,
  tseg (timers s) (active_timers s) (l1 ++ z :: l2) NULL →
  StronglySorted (earlier (timers s)) (l1 ++ z :: l2) → (length l2 < fuel)%nat →
  expiry (timers s) z ≤ e →
  wp (insert_position fuel z e) (λ c s', s' = s ∧ ∃ l1' l2', l1 ++ z :: l2 = l1' ++ c :: l2' ∧
    expiry (timers s) c ≤ e ∧ ∀ b, b ∈ l2' → e < expiry (timers s) b) s.
Proof.
  induction l2 as [|b l2 IH]; intros [|fuel] l1 z Hl Hs Hf Hz; simpl in Hf; try lia; simpl; wp_step;
    pose proof Hl as (r & _ & (-> & tz & Htz & _ & Hl2)%tseg_cons_inv)%tseg_app;
    eapply wp_tload; [exact Htz|..|exact Htz|].
  - simpl in Hl2. rewrite Hl2. simpl. split; [done|]. exists l1, []. split_and!; auto.
    intros b Hb. by apply not_elem_of_nil in Hb.
  - pose proof Hl2 as (Hb & tb & Htb & Hbn & _)%tseg_cons_inv. rewrite Hb.
    destruct (Z.eqb_spec b NULL) as [|_]; [done|]. wp_step. eapply wp_tload; [exact Htb|].
    assert (expiry (timers s) b = t_expire_time tb) as Heb by (unfold expiry; by rewrite Htb).
    destruct (Z.leb_spec (t_expire_time tb) e).
    + replace (l1 ++ z :: b :: l2) with ((l1 ++ [z]) ++ b :: l2) in * by by rewrite <-app_assoc.
      apply IH; auto; lia.
    + wp_step. split; [done|]. exists l1, (b :: l2). split_and!; auto.
      intros b' Hb'. apply StronglySorted_app_1_r in Hs.
      apply StronglySorted_inv in Hs as [Hs _]. apply StronglySorted_inv in Hs as [_ Hs].
      apply elem_of_cons in Hb' as [->|Hb']; [lia|]. rewrite Forall_forall in Hs.
      apply Hs in Hb'. unfold earlier in Hb'. lia.
Qed.

(** The place of [a] in a sorted list: behind the timers that do not expire later. *)
Lemma sorted_insert m l1 l2 a :
  StronglySorted (earlier m) (l1 ++ l2) → (∀ b, b ∈ l1 → expiry m b ≤ expiry m a) →
  (∀ b, b ∈ l2 → expiry m a < expiry m b) → StronglySorted (earlier m) (l1 ++ a :: l2).
Proof.
  intros (Hd & H1 & H2)%StronglySorted_app Hle Hgt. apply StronglySorted_app. split_and!; auto.
  - intros x y Hx [->|Hy]%elem_of_cons; [by apply Hle|by apply Hd].
  - constructor; [done|]. apply Forall_forall. intros y Hy%Hgt. unfold earlier. lia.
Qed.

(** The timer [a] was put at its place in [l]; only links changed. *)
Definition inserted (s : timer_state) (a : ptr) (l : list ptr) (s' : timer_state) : Prop :=
  ∃ l1 l2, l = l1 ++ l2 ∧ list_ok s' (l1 ++ a :: l2) ∧
    (∀ b, b ∈ l1 → expiry (timers s) b ≤ expiry (timers s) a) ∧
    (∀ b, b ∈ l2 → expiry (timers s) a < expiry (timers s) b) ∧
    same_but_next (timers s) (timers s') ∧ kget s' = kget s.

(** What is left once the new links are known. *)
Lemma inserted_intro s a l1 l2 s' :
  list_ok s (l1 ++ l2) →
  tseg (timers s') (active_timers s') (l1 ++ a :: l2) NULL →
  (∀ b, b ∈ l1 → expiry (timers s) b ≤ expiry (timers s) a) →
  (∀ b, b ∈ l2 → expiry (timers s) a < expiry (timers s) b) →
  same_but_next (timers s) (timers s') → kget s' = kget s →
  timer_count s' = u32 (timer_count s + 1) → inserted s a (l1 ++ l2) s'.
Proof.
  intros [Hl Hn Hs Hc] Hl' H1 H2 Hm Hk Hc'. exists l1, l2. split_and!; auto. split; [done| | |].
  - by eapply same_but_next_None.
  - eapply same_but_next_sorted; [exact Hm|]. by apply sorted_insert.
  - rewrite Hc', Hc, u32_add_u32_l, !length_app. simpl. f_equal. lia.
Qed.

Lemma timer_insert_sorted_spec s a t l :
  list_ok s l → timers s !! a = Some t → a ∉ l →
  wp (timer_insert_sorted a) (λ _ s', inserted s a l s') s.
Proof.
  intros Hok Ha Hal. pose proof Hok as [Hl Hn Hs Hc].
  assert (a ≠ NULL) as Han by (intros ->; congruence).
  assert (expiry (timers s) a = t_expire_time t) as Hea by (unfold expiry; by rewrite Ha).
  unfold timer_insert_sorted. wp_step. eapply wp_tload; [exact Ha|]. wp_step.
  assert ((∀ b, b ∈ l → expiry (timers s) a < expiry (timers s) b) →
    inserted s a l (s <| timers ::= <[a := t <| t_next := active_timers s |>]> |>
      <| active_timers := a |> <| timer_count ::= λ n, u32 (n + 1) |>)) as Hfirst.
  { intros Hgt. apply (inserted_intro s a [] l); auto; [|by intros b Hb%not_elem_of_nil|by apply same_but_next_set].
    simpl. split_and!; [done|done|]. eexists. rewrite lookup_insert_eq. split; [done|].
    by apply tseg_insert_ne. }
  destruct (Z.eqb_spec (active_timers s) NULL) as [Hnull|Hnull]; wp_step.
  { destruct l as [|h l]; [|destruct Hl as (E & ? & _); congruence].
    eapply wp_tstore; [exact Ha|]. wp_step. apply Hfirst. by intros b Hb%not_elem_of_nil. }
  destruct l as [|h l]; [by destruct Hnull|].
  pose proof Hl as (Hh & th & Hth & Hhn & _)%tseg_cons_inv. rewrite Hh.
  eapply wp_tload; [exact Hth|]. wp_step.
  assert (expiry (timers s) h = t_expire_time th) as Heh by (unfold expiry; by rewrite Hth).
  destruct (Z.ltb_spec (t_expire_time t) (t_expire_time th)); wp_step.
  - eapply wp_tstore; [exact Ha|]. wp_step. rewrite Hh in Hfirst. apply Hfirst.
    intros b [->|Hb]%elem_of_cons; [lia|]. apply StronglySorted_inv in Hs as [_ Hs].
    rewrite Forall_forall in Hs. apply Hs in Hb. unfold earlier in Hb. lia.
  - eapply wp_mono; [apply (insert_position_spec s _ l _ [] h); auto; [|lia]|].
    { pose proof (tlist_length _ _ _ Hl). unfold timer_fuel. simpl in *. lia. }
    simpl app. intros c s' (-> & l1 & l2 & E & Hce & Hgt). wp_step. clear Hfirst Hc.
    simpl in E. rewrite E in Hok, Hl, Hs, Hal |- *. clear E.
    assert (c ∈ l1 ++ c :: l2) as Hcl by (apply elem_of_app; right; apply elem_of_cons; by left).
    destruct (tseg_elem _ _ _ _ _ Hl Hcl) as [Hcn [tc Htc]]. eapply wp_tload; [exact Htc|]. wp_step.
    eapply wp_tstore; [exact Ha|]. wp_step.
    assert (a ≠ c) as Hac by (intros ->; done).
    eapply wp_tstore; [by simpl; rewrite lookup_insert_ne|]. wp_step.
    replace (l1 ++ c :: l2) with ((l1 ++ [c]) ++ l2) in * by by rewrite <-app_assoc.
    apply inserted_intro; auto.
    + rewrite <-app_assoc. rewrite <-app_assoc in Hl, Hal. simpl. by apply tlist_link.
    + intros b [Hb|Hb]%elem_of_app; [|apply list_elem_of_singleton in Hb as ->; lia].
      apply StronglySorted_app_1_l in Hs.
      pose proof (StronglySorted_app_1_elem_of _ _ _ b c Hs Hb) as Hbc. unfold earlier in Hbc.
      specialize (Hbc ltac:(by apply list_elem_of_singleton)). lia.
    + intros b Hb. apply Hgt in Hb. lia.
    + simpl. etransitivity; [by apply (same_but_next_set _ a)|]. apply same_but_next_set.
      by rewrite lookup_insert_ne.
Qed.

(** * Removal *)
Lemma find_before_spec s a l1 : ∀ fuel p z l2,
  tseg (timers s) p (l1 ++ z :: a :: l2) NULL → (length l1 < fuel)%nat →
  wp (find_before fuel p a) (λ r s', r = z ∧ s' = s) s.
Proof.
  induction l1 as [|b l1 IH]; intros [|fuel] p z l2 Hl Hf; simpl in Hf; try lia; simpl;
    pose proof Hl as (-> & t & Ht & Hn & Hl')%tseg_cons_inv.
  - destruct (Z.eqb_spec z NULL) as [|_]; [done|]. wp_step. eapply wp_tload; [exact Ht|].
    destruct Hl' as (-> & _). by rewrite Z.eqb_refl.
  - destruct (Z.eqb_spec b NULL) as [|_]; [done|]. wp_step. eapply wp_tload; [exact Ht|].
    destruct (Z.eqb_spec (t_next t) a) as [E|_]; [|by apply (IH fuel _ z l2); [|lia]].
    assert (∃ c, t_next t = c ∧ c ∈ l1 ++ [z]) as (c & Hc & Hcl).
    { destruct l1 as [|c l1]; destruct Hl' as (Hc & _); exists (t_next t); split; auto; rewrite Hc;
        apply elem_of_cons; by left. }
    rewrite E in Hc. subst c. exfalso.
    pose proof (tlist_nodup _ _ _ Hl) as Hnd. apply NoDup_cons in Hnd as [_ Hnd].
    change (NoDup (l1 ++ [z] ++ a :: l2)) in Hnd. rewrite app_assoc in Hnd.
    apply NoDup_app in Hnd as (_ & Hd & _). apply (Hd a Hcl), elem_of_cons. by left.
Qed.

Lemma filter_one (a : ptr) l1 l2 : NoDup (l1 ++ a :: l2) → filter (λ b, b ≠ a) (l1 ++ a :: l2) = l1 ++ l2.
Proof. apply filter_ne_middle. Qed.

(** The branches that take [a] out of the list. *)
Lemma timer_unlink_spec s a ta l1 l2 :
  tseg (timers s) (active_timers s) (l1 ++ a :: l2) NULL → timers s !! a = Some ta →
  wp (timer_unlink a (t_next ta))
    (λ _ s', tseg (timers s') (active_timers s') (l1 ++ l2) NULL ∧ timers s' !! a = Some ta ∧
       same_but_next (timers s) (timers s') ∧ timer_count s' = timer_count s ∧ kget s' = kget s) s.
Proof.
  intros Hl Ha. unfold timer_unlink. wp_step. pose proof (tlist_nodup _ _ _ Hl) as Hnd.
  destruct l1 as [|z l1] using rev_ind.
  - pose proof Hl as (Hh & t & Ht & _ & Hl')%tseg_cons_inv. rewrite Hh, Z.eqb_refl. wp_step.
    rewrite Ha in Ht. injection Ht as <-. split_and!; done.
  - clear IHl1. rewrite <-!app_assoc in *. simpl in *.
    assert (z ∈ l1 ++ z :: a :: l2) as Hzl by (apply elem_of_app; right; apply elem_of_cons; by left).
    destruct (tseg_elem _ _ _ _ _ Hl Hzl) as [Hzn [tz Htz]].
    apply NoDup_app in Hnd as (_ & Hd & [Hza _]%NoDup_cons). rewrite elem_of_cons in Hza.
    assert (active_timers s ≠ a) as Hha.
    { destruct l1 as [|b l1]; destruct Hl as (-> & _); [naive_solver|]. intros ->.
      apply (Hd a); [apply elem_of_cons; by left|]. apply elem_of_cons; right. apply elem_of_cons. by left. }
    destruct (Z.eqb_spec (active_timers s) a) as [|_]; [done|]. wp_step.
    eapply wp_mono; [eapply find_before_spec; [exact Hl|]|].
    { pose proof (tlist_length _ _ _ Hl) as Hlen. rewrite length_app in Hlen. unfold timer_fuel. simpl in *. lia. }
    intros r s' [-> ->]. wp_step. destruct (Z.eqb_spec z NULL) as [|_]; [done|]. simpl negb. cbv iota.
    eapply wp_tstore; [exact Htz|]. split_and!; try done; simpl.
    + by apply (tlist_unlink _ _ _ _ _ _ a).
    + rewrite lookup_insert_ne by naive_solver. done.
    + by apply same_but_next_set.
Qed.

(** [a] is stopped, and nothing else about the timers changes but links. *)
Definition stopped (s : timer_state) (a : ptr) (s' : timer_state) : Prop :=
  kget s' = kget s ∧
  (∀ b, b ≠ a → (λ u, u <| t_next := NULL |>) <$> timers s' !! b =
                (λ u, u <| t_next := NULL |>) <$> timers s !! b) ∧
  ∃ t x, timers s !! a = Some t ∧ timers s' !! a = Some (t <| t_active := false |> <| t_next := x |>).

Lemma list_ok_remove s s' a l1 l2 :
  list_ok s (l1 ++ a :: l2) → tseg (timers s') (active_timers s') (l1 ++ l2) NULL →
  same_but_next (timers s) (timers s') → timer_count s' = u32 (timer_count s - 1) →
  list_ok s' (l1 ++ l2).
Proof.
  intros [Hl Hn Hs Hc] Hl' Hm Hc'. split; [done|by eapply same_but_next_None| |].
  - eapply same_but_next_sorted; [exact Hm|]. apply StronglySorted_app in Hs as (Hd & H1 & H2).
    apply StronglySorted_inv in H2 as [H2 _]. apply StronglySorted_app. split_and!; auto.
    intros x y Hx Hy. apply Hd; [done|]. apply elem_of_cons. by right.
  - rewrite Hc', Hc, u32_sub_u32_l, !length_app. simpl. f_equal. lia.
Qed.

(** Writing a timer that is not in the list. *)
Lemma sorted_store m a u l :
  a ∉ l → StronglySorted (earlier m) l → StronglySorted (earlier (<[a := u]> m)) l.
Proof.
  intros Ha Hs. assert (∀ b, b ∈ l → expiry (<[a := u]> m) b = expiry m b) as He.
  { intros b Hb. unfold expiry. rewrite lookup_insert_ne; [done|]. by intros ->. }
  induction Hs as [|b l Hs IH Hb]; constructor.
  - apply IH; [set_solver|]. intros c Hc. apply He. set_solver.
  - rewrite Forall_forall in Hb |- *. intros c Hc. unfold earlier. rewrite !He by set_solver. by apply Hb.
Qed.

Lemma list_ok_store s a u l :
  list_ok s l → a ∉ l → a ≠ NULL → list_ok (s <| timers ::= <[a := u]> |>) l.
Proof.
  intros [Hl Hn Hs Hc] Ha Hna. split; simpl; auto.
  - by apply tseg_insert_ne.
  - by rewrite lookup_insert_ne.
  - by apply sorted_store.
Qed.

(** The list does not depend on the kernel. *)
Lemma list_ok_fields s s' l :
  timers s' = timers s → active_timers s' = active_timers s → timer_count s' = timer_count s →
  list_ok s l → list_ok s' l.
Proof. intros Ht Ha Hc []. split; rewrite ?Ht, ?Ha, ?Hc; auto. Qed.
Lemma list_ok_kput s l k : list_ok s l → list_ok (kput k s) l.
Proof. by intros []. Qed.

Lemma critical_same s x : kput (kget s <| primask := x |> <| primask := primask (kget s) |>) s = s.
Proof. by destruct s as [? ? ? []]. Qed.

Lemma os_timer_stop_spec s a l :
  timers_rep s l → a ≠ NULL → is_Some (timers s !! a) →
  wp (os_timer_stop a) (λ r s', r = OS_OK ∧ timers_rep s' (filter (λ b, b ≠ a) l) ∧ stopped s a s') s.
Proof.
  intros [Hok Hact] Hn [ta Ha]. unfold os_timer_stop. destruct (Z.eqb_spec a NULL) as [|_]; [done|].
  wp_step. eapply wp_tload; [exact Ha|]. destruct (t_active ta) eqn:Hta; simpl negb; cbv iota; wp_step.
  - apply (Hact a ta Ha) in Hta as Hal. apply list_elem_of_split in Hal as (l1 & l2 & ->).
    pose proof Hok as [Hl Hnull Hs Hc]. pose proof (tlist_nodup _ _ _ Hl) as Hnd.
    rewrite filter_one by done.
    set (s0 := kput _ s).
    eapply wp_mono; [apply (timer_unlink_spec s0 a ta l1 l2); done|].
    intros [] s1 (Hl1 & Ha1 & Hm1 & Hc1 & Hk1). wp_step. eapply wp_tstore; [exact Ha1|]. wp_step.
    eapply wp_tstore; [apply lookup_insert_eq|]. wp_step. split; [done|].
    assert (a ∉ l1 ++ l2) as Hal.
    { apply NoDup_app in Hnd as (_ & Hd & [H2 _]%NoDup_cons). rewrite elem_of_app. intros [H1|H1]; [|done].
      apply (Hd a H1), elem_of_cons. by left. }
    simpl. rewrite insert_insert_eq. split; [split|split_and!].
    + apply list_ok_kput.
      set (s2 := s1 <| timer_count := u32 (timer_count s1 - 1) |>).
      assert (list_ok s2 (l1 ++ l2)) as Hok2.
      { apply (list_ok_remove s _ a); auto. simpl. by rewrite Hc1. }
      eapply list_ok_fields; [..|eapply (list_ok_store s2 a); done]; reflexivity.
    + simpl. intros b t. destruct (decide (b = a)) as [->|Hb].
      { rewrite lookup_insert_eq. intros [= <-]. simpl. split; [done|]. intros. done. }
      rewrite lookup_insert_ne by done. intros Ht.
      assert (∃ x, timers s !! b = Some (t <| t_next := x |>)) as (x & Hx).
      { apply (same_but_next_lookup (timers s1)); [by symmetry|done]. }
      pose proof (Hact b _ Hx) as Hab. simpl in Hab. rewrite Hab. rewrite !elem_of_app, elem_of_cons. naive_solver.
    + unfold s0, kget, kput in *. simpl in *. rewrite Hk1. by destruct (timer_kernel s).
    + intros b Hb. simpl timers. rewrite lookup_insert_ne by done. apply Hm1.
    + exists ta, NULL. simpl. by rewrite lookup_insert_eq.
  - split; [done|]. rewrite critical_same. split.
    + rewrite filter_ne_notin; [by split|]. intros Hal. apply (Hact a ta Ha) in Hal. congruence.
    + split_and!; [done|done|]. exists ta, (t_next ta). split; [done|]. rewrite Ha. f_equal.
      destruct ta. simpl in *. by subst.
Qed.

(** [a] is running in [s'] and fires at [e]; it stands behind the timers that expire at [e] or before. *)
Definition started (s : timer_state) (a : ptr) (e : Z) (l : list ptr) (s' : timer_state) : Prop :=
  ∃ l1 l2, filter (λ b, b ≠ a) l = l1 ++ l2 ∧ timers_rep s' (l1 ++ a :: l2) ∧
    expiry (timers s') a = e ∧
    (∀ b, b ∈ l1 → expiry (timers s') b ≤ e) ∧ (∀ b, b ∈ l2 → e < expiry (timers s') b) ∧
    kget s' = kget s.

(** Marking [a] active with expiry [e] and inserting it, from a state in which it is not listed. *)
Definition activated (s : timer_state) (a : ptr) (t : timer_t) (e : Z) (l : list ptr)
    (s' : timer_state) : Prop :=
  ∃ l1 l2, l = l1 ++ l2 ∧ timers_rep s' (l1 ++ a :: l2) ∧ expiry (timers s') a = e ∧
    (∀ b, b ∈ l1 → expiry (timers s') b ≤ e) ∧ (∀ b, b ∈ l2 → e < expiry (timers s') b) ∧
    same_but_next (<[a := t <| t_expire_time := e |> <| t_active := true |>]> (timers s)) (timers s') ∧
    kget s' = kget s.

Lemma activate_spec {A} (m : M timer_state A) Q s a t now l :
  list_ok s l → a ∉ l → timers s !! a = Some t →
  (∀ b u, b ≠ a → timers s !! b = Some u → t_active u = true ↔ b ∈ l) →
  (∀ s', activated s a t (u32 (now + t_period t)) l s' → wp m Q s') →
  wp (tstore a (λ t, t <| t_expire_time := u32 (now + t_period t) |>) ;;;
      tstore a (λ t, t <| t_active := true |>) ;;;
      timer_insert_sorted a ;;; m) Q s.
Proof.
  intros Hok Hal Ha Hact HQ. rewrite wp_bind. eapply wp_tstore; [exact Ha|]. rewrite wp_bind.
  eapply wp_tstore; [apply lookup_insert_eq|]. rewrite wp_bind. set (e := u32 (now + t_period t)) in *.
  set (u := t <| t_expire_time := e |> <| t_active := true |>).
  assert (a ≠ NULL) as Hn by (intros ->; rewrite (lo_null _ _ Hok) in Ha; done).
  set (s2 := s <| timers ::= <[a := u]> |>).
  match goal with |- wp _ _ ?x => assert (x = s2) as -> by (unfold s2; simpl; by rewrite insert_insert_eq) end.
  assert (list_ok s2 l) as Hok2 by by apply list_ok_store.
  eapply wp_mono; [apply (timer_insert_sorted_spec s2 a u l); [done|apply lookup_insert_eq|done]|].
  intros [] s3 (l1 & l2 & -> & Hok3 & Hle & Hgt & Hm & Hk). apply HQ. exists l1, l2.
  assert (expiry (timers s2) a = e) as He by (unfold expiry, s2; simpl; by rewrite lookup_insert_eq).
  split_and!; auto.
  - split; [done|]. intros b v Hv.
    destruct (same_but_next_lookup _ _ _ _ (symmetry Hm) Hv) as (x & Hx). simpl in Hx.
    destruct (decide (b = a)) as [->|Hb].
    + rewrite lookup_insert_eq in Hx. apply (f_equal (fmap t_active)) in Hx. simpl in Hx. injection Hx as Hx.
      split; [intros _|done]. apply elem_of_app. right. apply elem_of_cons. by left.
    + rewrite lookup_insert_ne in Hx by done. apply Hact in Hx; [|done]. simpl in Hx.
      rewrite Hx, !elem_of_app, elem_of_cons. naive_solver.
  - by rewrite (same_but_next_expiry _ _ _ Hm).
  - intros b Hb. rewrite (same_but_next_expiry _ _ _ Hm). apply Hle in Hb. lia.
  - intros b Hb. rewrite (same_but_next_expiry _ _ _ Hm). apply Hgt in Hb. lia.
Qed.

Lemma os_timer_start_spec s a t l :
  timers_rep s l → timers s !! a = Some t →
  wp (os_timer_start a) (λ r s', r = OS_OK ∧
    started s a (u32 (tick_count (kget s) + t_period t)) l s') s.
Proof.
  intros Hrep Ha. pose proof Hrep as [Hok Hact].
  assert (a ≠ NULL) as Hn by (intros ->; rewrite (lo_null _ _ Hok) in Ha; done).
  unfold os_timer_start. destruct (Z.eqb_spec a NULL) as [|_]; [done|]. wp_step.
  set (s0 := kput (kget s <| primask := 1 |>) s). eapply wp_tload; [exact Ha|]. rewrite wp_bind.
  assert (wp (when (t_active t) (let! _ := os_timer_stop a in ret tt)) (λ _ s1,
    timers_rep s1 (filter (λ b, b ≠ a) l) ∧ kget s1 = kget s0 ∧
    ∃ u, timers s1 !! a = Some u ∧ t_period u = t_period t) s0) as Hstop.
  { assert (timers_rep s0 l) as Hrep0 by (split; [by apply list_ok_kput|done]).
    wp_step. destruct (t_active t) eqn:E.
    - wp_step. eapply wp_mono; [apply (os_timer_stop_spec s0 a l); [done|done|by exists t]|].
      intros r s1 (_ & Hrep1 & Hk1 & _ & t1 & x & Ht1 & Hu). simpl in Ht1. rewrite Ha in Ht1.
      injection Ht1 as <-. wp_step. split_and!; [done|done|]. eexists. by split.
    - rewrite filter_ne_notin; [|intros Hal; apply (Hact a t Ha) in Hal; congruence].
      split_and!; [done|done|]. by exists t. }
  eapply wp_mono; [exact Hstop|]. clear Hstop. intros [] s1 ([Hok1 Hact1] & Hk1 & u & Hu & Hper).
  rewrite wp_bind, wp_t_tick.
  assert (a ∉ filter (λ b, b ≠ a) l) as Hal by (intros [? _]%list_elem_of_filter; done).
  apply (activate_spec _ _ _ _ u _ (filter (λ b, b ≠ a) l)); [done|done|done|by intros; apply Hact1|].
  replace (tick_count (kget s1)) with (tick_count (kget s)) by (by rewrite Hk1; unfold s0; rewrite kget_kput).
  rewrite Hper.
  intros s3 (l1 & l2 & Hl & [Hok3 Hact3] & He & Hle & Hgt & _ & Hk). wp_step. split; [done|].
  exists l1, l2. split_and!; auto.
  - split; [by apply list_ok_kput|done].
  - unfold s0, kget, kput in *. simpl in *. rewrite Hk, Hk1. by destruct (timer_kernel s).
Qed.

(** * Processing *)

(** What a timer is, apart from whether and when it fires. *)
Definition static (t : timer_t) : timer_type_t * Z * Z * Z :=
  (t_type t, t_period t, t_callback t, t_callback_param t).
Definition same_static (m m' : gmap Z timer_t) : Prop :=
  ∀ b, static <$> m' !! b = static <$> m !! b.
#[export] Instance same_static_equiv : Equivalence same_static.
Proof. split; [done|by intros m m' Hm b|by intros m1 m2 m3 H1 H2 b; rewrite H2]. Qed.

Lemma same_static_next m m' : same_but_next m m' → same_static m m'.
Proof.
  intros Hm b. destruct (m !! b) as [u|] eqn:Hb.
  - by destruct (same_but_next_lookup _ _ _ _ Hm Hb) as (x & ->).
  - by rewrite (same_but_next_None _ _ _ Hm Hb).
Qed.
Lemma same_static_insert m a t u :
  m !! a = Some t → static u = static t → same_static m (<[a := u]> m).
Proof.
  intros Ha Hu b. destruct (decide (b = a)) as [->|].
  - rewrite lookup_insert_eq, Ha. simpl. by rewrite Hu.
  - by rewrite lookup_insert_ne.
Qed.

Definition auto_reload (s : timer_state) (a : ptr) : Prop :=
  ∃ t, timers s !! a = Some t ∧ t_type t = TIMER_AUTO_RELOAD.

Lemma auto_reload_static s s' a :
  same_static (timers s) (timers s') → auto_reload s' a ↔ auto_reload s a.
Proof.
  intros Hm. specialize (Hm a). unfold auto_reload.
  destruct (timers s !! a) as [t|], (timers s' !! a) as [t'|]; try discriminate Hm;
    [|split; intros (u & [=] & _)].
  injection Hm as Hty _ _ _. split; intros (u & [= <-] & Hu); eexists; (split; [done|congruence]).
Qed.

(** The periods of the timers are such that a timer restarted at [now] does not wrap around. *)
Definition periods_fit (now : Z) (s : timer_state) : Prop :=
  ∀ a t, timers s !! a = Some t → t_type t = TIMER_AUTO_RELOAD → 0 < t_period t < 2 ^ 32 - now.

Lemma periods_fit_static now s s' :
  same_static (timers s) (timers s') → periods_fit now s → periods_fit now s'.
Proof.
  intros Hm Hp a t Ha Hty. specialize (Hm a). rewrite Ha in Hm.
  destruct (timers s !! a) as [u|] eqn:Hu; [|done]. unfold static in Hm. simplify_eq/=.
  replace (t_period t) with (t_period u) by congruence. apply (Hp a u); [done|congruence].
Qed.

(** The timers [d] fired at [now]; [r] were not due. *)
Record fired (now : Z) (s : timer_state) (d r : list ptr) (s' : timer_state) (r' : list ptr) : Prop := {
  fi_rep : timers_rep s' r';
  fi_later : ∀ b, b ∈ r' → now < expiry (timers s') b;
  fi_static : same_static (timers s) (timers s');
  fi_elem : ∀ b, b ∈ r' ↔ b ∈ r ∨ b ∈ d ∧ auto_reload s b;
  fi_rest : ∀ b, b ∈ r → expiry (timers s') b = expiry (timers s) b;
  fi_reload : ∀ b t, b ∈ d → timers s !! b = Some t → t_type t = TIMER_AUTO_RELOAD →
    expiry (timers s') b = now + t_period t
}.

(** Callbacks that leave the timers and the interrupt mask alone. *)
Definition quiet (run_callback : Z → Z → timer_state → timer_state) : Prop :=
  ∀ cb param s, timers (run_callback cb param s) = timers s ∧
    active_timers (run_callback cb param s) = active_timers s ∧
    timer_count (run_callback cb param s) = timer_count s ∧
    primask (kget (run_callback cb param s)) = primask (kget s).

(** Popping the head of the list. *)
Lemma pop_head s a t l :
  timers_rep s (a :: l) → timers s !! a = Some t →
  let s' := s <| active_timers := t_next t |> <| timers ::= <[a := t <| t_active := false |>]> |>
              <| timer_count ::= λ n, u32 (n - 1) |> in
  list_ok s' l ∧ (a ∉ l) ∧ (∀ b u, timers s' !! b = Some u → t_active u = true ↔ b ∈ l) ∧
  active_timers s' = t_next t.
Proof.
  intros [[Hl Hn Hs Hc] Hact] Ha s'. pose proof (tlist_nodup _ _ _ Hl) as [Hal _]%NoDup_cons.
  assert (a ≠ NULL) as Han by (intros ->; congruence).
  pose proof Hl as (_ & t' & Ht' & _ & Hl')%tseg_cons_inv. rewrite Ha in Ht'. injection Ht' as <-.
  split_and!; [|done| |done].
  - split; simpl; [by apply tseg_insert_ne|by rewrite lookup_insert_ne| |].
    + apply sorted_store; [done|]. by apply StronglySorted_inv in Hs as [? _].
    + rewrite Hc, u32_sub_u32_l. simpl. f_equal. lia.
  - simpl. intros b u. destruct (decide (b = a)) as [->|Hb].
    + rewrite lookup_insert_eq. intros [= <-]. done.
    + rewrite lookup_insert_ne by done. intros Hu. rewrite (Hact b u Hu), elem_of_cons. naive_solver.
Qed.

Section process_spec.
Context (run_callback : Z → Z → timer_state → timer_state) (Hquiet : quiet run_callback).

(** The part of a round between the removal of the expired timer and the test for reloading. *)
Lemma round_spec {A} (m : timer_t → Z → M timer_state A) Q s a t l st :
  timers_rep s (a :: l) → timers s !! a = Some t → primask (kget s) = 1 →
  (∀ s1, list_ok s1 l → a ∉ l → (∀ b u, timers s1 !! b = Some u → t_active u = true ↔ b ∈ l) →
     active_timers s1 = t_next t → timers s1 = <[a := t <| t_active := false |>]> (timers s) →
     primask (kget s1) = 1 → wp (m (t <| t_active := false |>) st) Q s1) →
  wp (modify (λ s, s <| active_timers := t_next t |>) ;;;
      tstore a (λ t, t <| t_active := false |>) ;;;
      modify (λ s, s <| timer_count ::= λ n, u32 (n - 1) |>) ;;;
      t_exit st ;;;
      let! e := tload a in
      when (negb (t_callback e =? NULL))
        (modify (run_callback (t_callback e) (t_callback_param e))) ;;;
      let! state := t_enter in
      let! e := tload a in
      m e state) Q s.
Proof.
  intros Hrep Ha Hp Hm. destruct (pop_head s a t l Hrep Ha) as (Hok & Hal & Hact & Hh). wp_step.
  eapply wp_tstore; [exact Ha|]. wp_step. eapply wp_tload; [apply lookup_insert_eq|].
  set (e := t <| t_active := false |>). rewrite wp_bind, wp_when.
  assert (∀ s1, timers s1 = <[a := e]> (timers s) → active_timers s1 = t_next t →
    timer_count s1 = u32 (timer_count s - 1) → primask (kget s1) = st →
    wp (let! state := t_enter in let! e := tload a in m e state) Q s1) as Hrest.
  { intros s1 Ht1 Ha1 Hc1 Hp1. wp_step. eapply wp_tload; [simpl; rewrite Ht1; apply lookup_insert_eq|].
    rewrite Hp1. apply Hm; [|done| |done|done|by rewrite kget_kput].
    - apply list_ok_kput. by eapply list_ok_fields; [..|exact Hok].
    - intros b u Hu. apply Hact. simpl in Hu |- *. by rewrite Ht1 in Hu. }
  destruct (negb (t_callback e =? NULL)); [|apply Hrest; [done..|by rewrite kget_kput]]. rewrite wp_modify.
  match goal with |- wp _ _ (run_callback ?cb ?pa ?s1) => destruct (Hquiet cb pa s1) as (H1 & H2 & H3 & H4) end.
  apply Hrest; [rewrite H1; done|rewrite H2; done|rewrite H3; done|rewrite H4; by rewrite kget_kput].
Qed.

(** A restarted timer goes behind everything that is due. *)
Lemma reload_place m a d r l1 l2 now :
  d ++ r = l1 ++ l2 → (∀ b, b ∈ d → expiry m b ≤ now) → (∀ b, b ∈ l2 → expiry m a < expiry m b) →
  now < expiry m a → (∀ b, b ∈ r → now < expiry m b) →
  ∃ r', l1 ++ a :: l2 = d ++ r' ∧ (∀ b, b ∈ r' ↔ b ∈ r ∨ b = a) ∧ ∀ b, b ∈ r' → now < expiry m b.
Proof.
  intros Heq Hd Hl2 Ha Hr. exists (drop (length d) l1 ++ a :: l2).
  assert (length d ≤ length l1)%nat as Hlen.
  { destruct (decide (length d ≤ length l1)%nat) as [|Hgt]; [done|exfalso].
    assert (∃ b, d !! length l1 = Some b) as [b Hb] by (apply lookup_lt_is_Some; lia).
    pose proof Hb as Hbd%list_elem_of_lookup_2. apply Hd in Hbd.
    assert ((l1 ++ l2) !! length l1 = Some b) as Hb2 by (rewrite <-Heq; by apply lookup_app_l_Some).
    rewrite lookup_app_r, Nat.sub_diag in Hb2 by lia. apply list_elem_of_lookup_2, Hl2 in Hb2. lia. }
  assert (take (length d) l1 = d) as Htk.
  { rewrite <-(take_app_length d r) at 2. rewrite Heq. by rewrite take_app_le by done. }
  assert (drop (length d) l1 ++ l2 = r) as Hdr.
  { rewrite <-(drop_app_length d r), Heq. by rewrite drop_app_le by done. }
  assert (∀ b, b ∈ drop (length d) l1 ++ a :: l2 ↔ b ∈ r ∨ b = a) as Hel.
  { intros b. rewrite <-Hdr, !elem_of_app, elem_of_cons. tauto. }
  split_and!; [|done|].
  - rewrite app_assoc. f_equal. rewrite <-Htk at 1. by rewrite take_drop.
  - intros b [Hb| ->]%Hel; [by apply Hr|done].
Qed.

(** One timer fired and, if it reloads, was put back; the rest of the due timers follow. *)
Lemma fired_cons now s s1 a t d r r1 s' r' :
  timers s !! a = Some t → a ∉ d → a ∉ r →
  same_static (timers s) (timers s1) →
  (∀ b, b ≠ a → expiry (timers s1) b = expiry (timers s) b) →
  (if decide (t_type t = TIMER_AUTO_RELOAD)
   then (∀ b, b ∈ r1 ↔ b ∈ r ∨ b = a) ∧ expiry (timers s1) a = now + t_period t
   else r1 = r) →
  fired now s1 d r1 s' r' → fired now s (a :: d) r s' r'.
Proof.
  intros Ha Had Har Hst Hex Hr1 [Hrep Hlater Hst' Hel Hrest Hrel].
  assert (auto_reload s a ↔ t_type t = TIMER_AUTO_RELOAD) as Hauto.
  { unfold auto_reload. rewrite Ha. naive_solver. }
  split; auto; [by etransitivity|..].
  - intros b. rewrite Hel, elem_of_cons, (auto_reload_static s s1 b Hst). case_decide as Hty.
    + destruct Hr1 as [Hr1 _]. rewrite Hr1. naive_solver.
    + subst r1. naive_solver.
  - intros b Hb. assert (b ≠ a) as Hba by (intros ->; done). rewrite <-(Hex b Hba). apply Hrest.
    case_decide; [destruct Hr1 as [Hr1 _]; apply Hr1; by left|by subst].
  - intros b u Hb Hu Hty. apply elem_of_cons in Hb as [->|Hb].
    + rewrite Ha in Hu. injection Hu as <-. case_decide; [|done]. destruct Hr1 as [Hr1 He].
      rewrite Hrest; [done|]. apply Hr1. by right.
    + specialize (Hst b). rewrite Hu in Hst. apply fmap_Some in Hst as (u1 & Hu1 & E).
      injection E as Ety Eper _ _. rewrite Eper. apply (Hrel b u1); [done|done|congruence].
Qed.

(** What the loop needs of the timers: [d] are due at [now], [r] are not, and all of them are close
    enough to [now] for the signed comparison. *)
Record due_split (now : Z) (s : timer_state) (d r : list ptr) : Prop := {
  ds_now : 0 ≤ now;
  ds_rep : timers_rep s (d ++ r);
  ds_periods : periods_fit now s;
  ds_due : ∀ b, b ∈ d → 0 ≤ now - expiry (timers s) b < 2 ^ 31;
  ds_later : ∀ b, b ∈ r → 0 < expiry (timers s) b - now ≤ 2 ^ 31;
  ds_reload : ∀ b t, b ∈ d → timers s !! b = Some t → t_type t = TIMER_AUTO_RELOAD → t_period t ≤ 2 ^ 31
}.

Lemma fired_nil now s r : due_split now s [] r → fired now s [] r s r.
Proof.
  intros [_ Hrep _ _ Hlater _]. split; [done| |done| |done|].
  - intros b Hb. apply Hlater in Hb. lia.
  - intros b. split; [by left|]. intros [?|[Hb _]]; [done|by apply not_elem_of_nil in Hb].
  - intros b t Hb. by apply not_elem_of_nil in Hb.
Qed.

(** The first timer of the list is due exactly if it is in [d]. *)
Lemma head_due now s d r a t :
  due_split now s d r → timers s !! a = Some t → a ∈ d ++ r →
  (0 <=? i32 (now - t_expire_time t)) = bool_decide (a ∈ d).
Proof.
  intros [_ _ _ Hdue Hlater _] Ha Hel.
  assert (expiry (timers s) a = t_expire_time t) as He by (unfold expiry; by rewrite Ha).
  case_bool_decide as Hd.
  - apply Hdue in Hd. rewrite i32_small by lia. apply Z.leb_le. lia.
  - apply elem_of_app in Hel as [|Hr]; [done|]. apply Hlater in Hr.
    rewrite i32_small by lia. apply Z.leb_gt. lia.
Qed.

(** After a one-shot timer fired. *)
Lemma due_one_shot now s s1 a t d r :
  due_split now s (a :: d) r → timers s !! a = Some t → t_type t ≠ TIMER_AUTO_RELOAD → a ∉ d → a ∉ r →
  timers_rep s1 (d ++ r) → timers s1 = <[a := t <| t_active := false |>]> (timers s) →
  due_split now s1 d r ∧ ∀ s' r', fired now s1 d r s' r' → fired now s (a :: d) r s' r'.
Proof.
  intros [Hnow _ Hper Hdue Hlater Hrel] Ha Hty Had Har Hrep1 Hts.
  assert (same_static (timers s) (timers s1)) as Hst by (rewrite Hts; by eapply same_static_insert).
  assert (∀ b, expiry (timers s1) b = expiry (timers s) b) as Hex.
  { intros b. unfold expiry. rewrite Hts. destruct (decide (b = a)) as [->|].
    - by rewrite lookup_insert_eq, Ha.
    - by rewrite lookup_insert_ne. }
  split.
  - split; [done|done|by eapply periods_fit_static| | |].
    + intros b Hb. rewrite Hex. apply Hdue, elem_of_cons. by right.
    + intros b Hb. rewrite Hex. by apply Hlater.
    + intros b u Hb Hu. assert (b ≠ a) by (intros ->; done). rewrite Hts, lookup_insert_ne in Hu by done.
      by apply (Hrel b); [apply elem_of_cons; right|].
  - intros s' r' Hf. eapply (fired_cons now s s1 a t d r r); eauto. by rewrite decide_False.
Qed.

(** After an auto-reload timer fired and was put back. *)
Lemma due_reload now s s1 s2 a t d r :
  due_split now s (a :: d) r → timers s !! a = Some t → t_type t = TIMER_AUTO_RELOAD → a ∉ d → a ∉ r →
  timers s1 = <[a := t <| t_active := false |>]> (timers s) →
  activated s1 a (t <| t_active := false |>) (u32 (now + t_period t)) (d ++ r) s2 →
  ∃ r2, due_split now s2 d r2 ∧
    ∀ s' r', fired now s2 d r2 s' r' → fired now s (a :: d) r s' r'.
Proof.
  intros [Hnow _ Hper Hdue Hlater Hrel] Ha Hty Had Har Hts (l1 & l2 & Hl & Hrep & He & Hle & Hgt & Hm & _).
  pose proof (Hper a t Ha Hty) as Hp. rewrite u32_small in He, Hle, Hgt, Hm by lia.
  assert (same_static (timers s) (timers s2)) as Hst.
  { etransitivity; [|apply same_static_next, Hm]. rewrite Hts, insert_insert_eq. by eapply same_static_insert. }
  assert (∀ b, b ≠ a → expiry (timers s2) b = expiry (timers s) b) as Hex.
  { intros b Hb. rewrite (same_but_next_expiry _ _ _ Hm). unfold expiry.
    by rewrite Hts, !lookup_insert_ne. }
  assert (∀ b, b ∈ d → b ≠ a) as Hda by (intros b Hb ->; done).
  assert (t_period t ≤ 2 ^ 31) as Hpt by (apply (Hrel a); [apply elem_of_cons; by left|done|done]).
  assert (∀ b, b ∈ r → b ≠ a) as Hra by (intros b Hb ->; done).
  destruct (reload_place (timers s2) a d r l1 l2 now) as (r2 & Hr2 & Hel & Hlt); auto.
  - intros b Hb. rewrite Hex by auto. assert (b ∈ a :: d) as Hb2 by (apply elem_of_cons; by right).
    apply Hdue in Hb2. lia.
  - intros b Hb. apply Hgt in Hb. lia.
  - lia.
  - intros b Hb. rewrite Hex by auto. apply Hlater in Hb. lia.
  - exists r2. split.
    + split; [done|by rewrite <-Hr2|by eapply periods_fit_static| | |].
      * intros b Hb. rewrite Hex by auto. apply Hdue, elem_of_cons. by right.
      * intros b [Hb| ->]%Hel; [|lia]. rewrite Hex by auto. by apply Hlater.
      * intros b u Hb Hu Htu. specialize (Hst b). rewrite Hu in Hst. symmetry in Hst.
        apply fmap_Some in Hst as (u0 & Hu0 & E). injection E as E1 E2 _ _.
        rewrite E2. apply (Hrel b); [apply elem_of_cons; by right|done|congruence].
    + intros s' r' Hf. eapply (fired_cons now s s2 a t d r r2); eauto. by rewrite decide_True.
Qed.

Lemma process_loop_spec now d : ∀ s r st fuel,
  due_split now s d r → primask (kget s) = 1 → (length d < fuel)%nat →
  wp (process_loop run_callback fuel now st (active_timers s) NULL)
    (λ res s', res = (st, d) ∧ (∃ r', fired now s d r s' r') ∧ primask (kget s') = 1) s.
Proof.
  induction d as [|a d IH]; intros s r st [|fuel] Hsp Hpm Hfuel; simpl in Hfuel; try lia;
    cbn [process_loop]; pose proof (ds_rep _ _ _ _ Hsp) as Hrep; pose proof Hrep as [[Hl _ _ _] _].
  - pose proof (fired_nil _ _ _ Hsp) as Hf. destruct r as [|b r].
    + simpl in Hl. rewrite Hl, Z.eqb_refl. wp_step. eauto.
    + pose proof Hl as (Hb & t & Ht & Hn & _)%tseg_cons_inv. rewrite Hb.
      destruct (Z.eqb_spec b NULL) as [|_]; [done|]. wp_step. eapply wp_tload; [exact Ht|].
      rewrite (head_due now s [] (b :: r) b t) by (auto; apply elem_of_cons; by left).
      rewrite bool_decide_false by apply not_elem_of_nil. wp_step. eauto.
  - pose proof Hl as (Hb & t & Ht & Hn & _)%tseg_cons_inv. rewrite Hb.
    destruct (Z.eqb_spec a NULL) as [|_]; [done|]. rewrite wp_bind. eapply wp_tload; [exact Ht|].
    rewrite (head_due now s (a :: d) r a t) by (auto; apply elem_of_cons; by left).
    rewrite bool_decide_true by (apply elem_of_cons; by left).
    apply (round_spec (λ e state,
      let! r0 := (if bool_decide (t_type e = TIMER_AUTO_RELOAD) then
        tstore a (λ e, e <| t_expire_time := u32 (now + t_period e) |>) ;;;
        tstore a (λ e, e <| t_active := true |>) ;;; timer_insert_sorted a ;;;
        let! head := gets active_timers in process_loop run_callback fuel now state head NULL
        else process_loop run_callback fuel now state (t_next t) NULL) in
      ret (fst r0, a :: snd r0)) _ s a t (d ++ r) st Hrep Ht Hpm).
    intros s1 Hok1 Hal Hact1 Hh1 Hts1 Hpm1. simpl t_type.
    assert ((a ∉ d) ∧ (a ∉ r)) as [Had Har] by (rewrite elem_of_app in Hal; tauto).
    rewrite wp_bind. case_bool_decide as Hty.
    + apply (activate_spec _ _ _ _ (t <| t_active := false |>) _ (d ++ r)); auto.
      { rewrite Hts1. apply lookup_insert_eq. }
      intros s2 Hac. pose proof Hac as (_ & _ & _ & _ & _ & _ & _ & _ & Hk2). wp_step.
      destruct (due_reload now s s1 s2 a t d r) as (r2 & Hsp2 & Hf); auto.
      eapply wp_mono; [apply (IH s2 r2 st fuel); [done|congruence|lia]|].
      intros res s' (-> & (r' & Hf') & Hp'). wp_step. split_and!; eauto.
    + destruct (due_one_shot now s s1 a t d r) as [Hsp1 Hf]; auto; [by split|].
      rewrite <-Hh1. eapply wp_mono; [apply (IH s1 r st fuel); [done|done|lia]|].
      intros res s' (-> & (r' & Hf') & Hp'). wp_step. split_and!; eauto.
Qed.
End process_spec.

(** * The properties *)

(** Two timers, one of each type, on a kernel whose tick counter stands at [now]. *)
Definition demo_timers (now e1 e2 : Z) : timer_state :=
  TimerState 1000 2
    (<[1000 := Timer [] TIMER_AUTO_RELOAD 50 e1 true 9000 1 2000]>
    (<[2000 := Timer [] TIMER_ONE_SHOT 20 e2 true 9004 2 NULL]> ∅))
    (Kernel NULL [] [] 0 now 0 false ∅ 0).

Lemma demo_timers_rep now e1 e2 : e1 ≤ e2 → timers_rep (demo_timers now e1 e2) [1000; 2000].
Proof.
  intros He. split; [split|].
  - simpl. split_and!; [done|done|]. eexists. split; [done|]. simpl. split_and!; [done|done|].
    eexists. by split.
  - done.
  - repeat constructor. done.
  - done.
  - intros a t. simpl. rewrite !lookup_insert_Some, lookup_empty. intros Ht.
    rewrite !elem_of_cons. naive_solver.
Qed.



(** Starting and stopping: the active timers are exactly the timers of the list, which stays
    sorted by expiry (a started timer stands behind those that expire at the same time) and whose
    length is [timer_count]; a stopped timer leaves the list, starting a running timer moves it,
    and the kernel (with it the interrupt mask) is as before. *)
Theorem timer_start_stop s a t l :
  timers_rep s l → timers s !! a = Some t →
  wp (os_timer_start a) (λ r s', r = OS_OK ∧
    started s a (u32 (tick_count (kget s) + t_period t)) l s') s ∧
  wp (os_timer_stop a) (λ r s', r = OS_OK ∧ timers_rep s' (filter (λ b, b ≠ a) l) ∧ stopped s a s') s.
Proof.
  intros Hrep Ha. split; [by apply os_timer_start_spec|]. apply os_timer_stop_spec; [done| |eauto].
  intros ->. destruct Hrep as [[_ Hn _ _] _]. congruence.
Qed.

Lemma timer_start_stop_witness :
  wp (os_timer_start 2000) (λ r s', r = OS_OK ∧
    started (demo_timers 100 130 140) 2000 120 [1000; 2000] s') (demo_timers 100 130 140).
Proof.
  refine (proj1 (timer_start_stop (demo_timers 100 130 140) 2000
    (Timer [] TIMER_ONE_SHOT 20 140 true 9004 2 NULL) [1000; 2000] _ _)); [|done].
  by apply demo_timers_rep.
Defined.

(** A timer behind a wrap-around waits: the list is sorted by the raw value of the expiry, so a
    timer that expires after the counter wraps around stands before one that expires earlier, and
    while the first timer of the list is not due nothing fires, due or not. *)
Theorem not_due_head_blocks run_callback s h l t fuel :
  timers_rep s (h :: l) → timers s !! h = Some t → i32 (tick_count (kget s) - t_expire_time t) < 0 →
  wp (os_timer_process run_callback (S fuel)) (λ d s', d = [] ∧ s' = s) s.
Proof.
  intros [[Hl _ _ _] _] Ht Hlt. pose proof Hl as (Hh & _ & _ & Hn & _)%tseg_cons_inv.
  unfold os_timer_process. wp_step. cbn [process_loop]. simpl active_timers. rewrite Hh.
  destruct (Z.eqb_spec h NULL) as [|_]; [done|]. wp_step. eapply wp_tload; [exact Ht|].
  destruct (Z.leb_spec 0 (i32 (tick_count (kget s) - t_expire_time t))); [lia|]. wp_step.
  split; [done|]. apply critical_same.
Qed.

(** Timer 1000 expires 10 ticks after the wrap-around, timer 2000 two ticks ago. *)
Lemma not_due_head_witness :
  wp (os_timer_process (λ _ _ s, s) 5) (λ d s', d = [] ∧ s' = demo_timers (2 ^ 32 - 3) 10 (2 ^ 32 - 5))
    (demo_timers (2 ^ 32 - 3) 10 (2 ^ 32 - 5)) ∧ i32 ((2 ^ 32 - 3) - (2 ^ 32 - 5)) = 2.
Proof.
  split; [|reflexivity].
  refine (not_due_head_blocks _ (demo_timers (2 ^ 32 - 3) 10 (2 ^ 32 - 5)) 1000 [2000]
    (Timer [] TIMER_AUTO_RELOAD 50 10 true 9000 1 2000) 4 _ _ _).
  - by apply demo_timers_rep.
  - reflexivity.
  - reflexivity.
Defined.
