(* ===== verification/Watchdog.v ===== *)
(** Watchdog: the hardware and task watchdog of [src/watchdog.c].

    [wdt_sys] is the static [g_wdt_state] with what the module touches outside: the tick counter, the
    reset flag of the hardware, and the calls of the [hal_wdt_*] functions, which are board code and
    kept as a log, the latest first. [hal_wdt_trigger_reset] does not return: an operation that
    calls it ends with [Reset] instead of a return value. The callback of the configuration belongs
    to the application and is a parameter. *)
From Stdlib Require Import ZArith Lia String.
From stdpp Require Import base numbers list.
From S2P Require Import Prelude Types.

(** * Data *)
Definition WDT_MAX_MONITORED_TASKS : Z := 8.
Definition WDT_MIN_TIMEOUT_MS : Z := 100.
Definition WDT_MAX_TIMEOUT_MS : Z := 60000.

Inductive wdt_error_t :=
| WDT_OK
| WDT_ERROR_INVALID_PARAM
| WDT_ERROR_NOT_INITIALIZED
| WDT_ERROR_ALREADY_INITIALIZED
| WDT_ERROR_TIMEOUT_TOO_SHORT
| WDT_ERROR_TIMEOUT_TOO_LONG
| WDT_ERROR_NOT_ENABLED
| WDT_ERROR_TASK_NOT_REGISTERED
| WDT_ERROR_MAX_TASKS_REACHED.
Inductive wdt_type_t := WDT_TYPE_HARDWARE | WDT_TYPE_SOFTWARE | WDT_TYPE_BOTH.
Inductive wdt_reset_reason_t :=
| WDT_RESET_NONE | WDT_RESET_HARDWARE | WDT_RESET_SOFTWARE | WDT_RESET_TASK_TIMEOUT.

Record wdt_config_t := WdtConfig {
  cfg_type : wdt_type_t;
  cfg_timeout_ms : Z;
  cfg_auto_start : bool;
  cfg_enable_reset : bool;
  cfg_callback : ptr
}.
#[export] Instance wdt_config_eta : Eta wdt_config_t := λ c,
  WdtConfig (cfg_type c) (cfg_timeout_ms c) (cfg_auto_start c) (cfg_enable_reset c) (cfg_callback c).

Record wdt_task_entry_t := WdtEntry {
  e_task : ptr;
  e_timeout_ms : Z;
  e_last_feed_time : Z;
  e_enabled : bool;
  e_timeout_count : Z
}.
#[export] Instance wdt_entry_eta : Eta wdt_task_entry_t := λ e,
  WdtEntry (e_task e) (e_timeout_ms e) (e_last_feed_time e) (e_enabled e) (e_timeout_count e).
Definition entry_zero : wdt_task_entry_t := WdtEntry NULL 0 0 false 0.

Record wdt_stats_t := WdtStats {
  st_total_feeds : Z;
  st_total_timeouts : Z;
  st_hw_resets : Z;
  st_sw_resets : Z;
  st_task_timeouts : Z;
  st_last_reset_reason : wdt_reset_reason_t;
  st_last_timeout_task : ptr
}.
#[export] Instance wdt_stats_eta : Eta wdt_stats_t := λ s,
  WdtStats (st_total_feeds s) (st_total_timeouts s) (st_hw_resets s) (st_sw_resets s)
    (st_task_timeouts s) (st_last_reset_reason s) (st_last_timeout_task s).
Definition stats_zero : wdt_stats_t := WdtStats 0 0 0 0 0 WDT_RESET_NONE NULL.

Record wdt_state_t := WdtState {
  w_initialized : bool;
  w_enabled : bool;
  w_config : wdt_config_t;
  w_last_feed_time : Z;
  w_stats : wdt_stats_t;
  w_task_entries : list wdt_task_entry_t;
  w_num_registered_tasks : Z;
  w_reset_reason : wdt_reset_reason_t
}.
#[export] Instance wdt_state_eta : Eta wdt_state_t := λ s,
  WdtState (w_initialized s) (w_enabled s) (w_config s) (w_last_feed_time s) (w_stats s)
    (w_task_entries s) (w_num_registered_tasks s) (w_reset_reason s).
(** [memset (&g_wdt_state, 0, sizeof (g_wdt_state))], and the value before [wdt_init]. *)
Definition wdt_zero : wdt_state_t :=
  WdtState false false (WdtConfig WDT_TYPE_HARDWARE 0 false false NULL) 0 stats_zero
    (replicate 8 entry_zero) 0 WDT_RESET_NONE.

Inductive hal_call :=
| hal_wdt_init (timeout_ms : Z)
| hal_wdt_feed
| hal_wdt_enable
| hal_wdt_disable
| hal_wdt_trigger_reset
| hal_wdt_clear_reset_flag.

Record wdt_sys := WdtSys {
  wdt : wdt_state_t;
  wdt_tick : Z;
  wdt_was_reset : bool;
  wdt_hal : list hal_call
}.
#[export] Instance wdt_sys_eta : Eta wdt_sys := λ s,
  WdtSys (wdt s) (wdt_tick s) (wdt_was_reset s) (wdt_hal s).

(** How an operation ends: it returns, or the system is reset. *)
Inductive flow (A : Type) := Return (a : A) | Reset.
Arguments Return {A} a.
Arguments Reset {A}.

(** * Operations *)
Definition hal (c : hal_call) (s : wdt_sys) : wdt_sys := s <| wdt_hal ::= cons c |>.
Definition upd (f : wdt_state_t → wdt_state_t) (s : wdt_sys) : wdt_sys := s <| wdt ::= f |>.

(** [config.type] includes the hardware (software) watchdog. *)
Definition uses_hardware (c : wdt_config_t) : bool :=
  match cfg_type c with WDT_TYPE_HARDWARE | WDT_TYPE_BOTH => true | WDT_TYPE_SOFTWARE => false end.
Definition uses_software (c : wdt_config_t) : bool :=
  match cfg_type c with WDT_TYPE_SOFTWARE | WDT_TYPE_BOTH => true | WDT_TYPE_HARDWARE => false end.

(** The index of the entry of [task] among the first [n] of [l], counted from [i]. *)
Fixpoint find_from (task : ptr) (l : list wdt_task_entry_t) (n i : nat) : option nat :=
  match n, l with
  | S n, e :: l => if e_task e =? task then Some i else find_from task l n (S i)
  | _, _ => None
  end.
Definition find_task_entry (task : ptr) (s : wdt_state_t) : option nat :=
  find_from task (w_task_entries s) (Z.to_nat (w_num_registered_tasks s)) 0.

Definition set_entry (i : nat) (f : wdt_task_entry_t → wdt_task_entry_t) (s : wdt_state_t) : wdt_state_t :=
  s <| w_task_entries ::= λ l, alter f i l |>.

(** The statistics after a timeout of [task]. *)
Definition count_timeout (task : ptr) (s : wdt_state_t) : wdt_state_t :=
  s <| w_stats ::= λ st, st
    <| st_task_timeouts ::= λ n, u32 (n + 1) |> <| st_total_timeouts ::= λ n, u32 (n + 1) |>
    <| st_last_timeout_task := task |> <| st_last_reset_reason := WDT_RESET_TASK_TIMEOUT |> |>.

Section watchdog.
Context (callback : ptr → wdt_reset_reason_t → ptr → wdt_sys → wdt_sys).

Definition run_callback (reason : wdt_reset_reason_t) (task : ptr) (s : wdt_sys) : wdt_sys :=
  if cfg_callback (w_config (wdt s)) =? NULL then s
  else callback (cfg_callback (w_config (wdt s))) reason task s.

(** The loop of [wdt_check_tasks] from entry [i]; [n] bounds the entries of the array. *)
Fixpoint check_from (n i : nat) (current_time : Z) (s : wdt_sys) : flow unit * wdt_sys :=
  match n with
  | O => (Return tt, s)
  | S n =>
      if Z.of_nat i <? w_num_registered_tasks (wdt s) then
        match w_task_entries (wdt s) !! i with
        | None => (Return tt, s)
        | Some e =>
            if e_enabled e && (e_timeout_ms e <=? u32 (current_time - e_last_feed_time e)) then
              let s := upd (set_entry i (λ e, e <| e_timeout_count ::= λ c, u32 (c + 1) |>)) s in
              let s := upd (count_timeout (e_task e)) s in
              let s := run_callback WDT_RESET_TASK_TIMEOUT (e_task e) s in
              if cfg_enable_reset (w_config (wdt s)) then
                let s := upd (λ w, w <| w_reset_reason := WDT_RESET_TASK_TIMEOUT |>
                  <| w_stats ::= λ st, st <| st_sw_resets ::= λ c, u32 (c + 1) |> |>) s in
                (Reset, hal hal_wdt_trigger_reset s)
              else check_from n (S i) current_time s
            else check_from n (S i) current_time s
        end
      else (Return tt, s)
  end.
Definition wdt_check_tasks (s : wdt_sys) : flow unit * wdt_sys :=
  if negb (w_initialized (wdt s)) || negb (w_enabled (wdt s)) then (Return tt, s)
  else check_from 8 0 (wdt_tick s) s.

Definition wdt_start (s : wdt_sys) : wdt_error_t * wdt_sys :=
  if negb (w_initialized (wdt s)) then (WDT_ERROR_NOT_INITIALIZED, s)
  else
    let s := upd (λ w, w <| w_enabled := true |> <| w_last_feed_time := wdt_tick s |>) s in
    (WDT_OK, if uses_hardware (w_config (wdt s)) then hal hal_wdt_enable s else s).

Definition wdt_stop (s : wdt_sys) : wdt_error_t * wdt_sys :=
  if negb (w_initialized (wdt s)) then (WDT_ERROR_NOT_INITIALIZED, s)
  else
    let s := upd (λ w, w <| w_enabled := false |>) s in
    (WDT_OK, if uses_hardware (w_config (wdt s)) then hal hal_wdt_disable s else s).

(** [config] is [None] for [NULL]. *)
Definition wdt_init (config : option wdt_config_t) (s : wdt_sys) : wdt_error_t * wdt_sys :=
  if w_initialized (wdt s) then (WDT_ERROR_ALREADY_INITIALIZED, s)
  else match config with
  | None => (WDT_ERROR_INVALID_PARAM, s)
  | Some config =>
      if cfg_timeout_ms config <? WDT_MIN_TIMEOUT_MS then (WDT_ERROR_TIMEOUT_TOO_SHORT, s)
      else if WDT_MAX_TIMEOUT_MS <? cfg_timeout_ms config then (WDT_ERROR_TIMEOUT_TOO_LONG, s)
      else
        let s := upd (λ _, wdt_zero <| w_config := config |> <| w_initialized := true |>
                                    <| w_last_feed_time := wdt_tick s |>) s in
        let s := if wdt_was_reset s then
            hal hal_wdt_clear_reset_flag (upd (λ w, w <| w_reset_reason := WDT_RESET_HARDWARE |>
              <| w_stats ::= λ st, st <| st_hw_resets ::= λ c, u32 (c + 1) |> |>) s)
          else s in
        let s := if uses_hardware config then hal (hal_wdt_init (cfg_timeout_ms config)) s else s in
        let s := if cfg_auto_start config then snd (wdt_start s) else s in
        (WDT_OK, s)
  end.

Definition wdt_deinit (s : wdt_sys) : wdt_error_t * wdt_sys :=
  if negb (w_initialized (wdt s)) then (WDT_ERROR_NOT_INITIALIZED, s)
  else (WDT_OK, upd (λ _, wdt_zero) (snd (wdt_stop s))).

Definition wdt_is_initialized (s : wdt_sys) : bool := w_initialized (wdt s).

Definition wdt_feed (s : wdt_sys) : flow wdt_error_t * wdt_sys :=
  if negb (w_initialized (wdt s)) then (Return WDT_ERROR_NOT_INITIALIZED, s)
  else if negb (w_enabled (wdt s)) then (Return WDT_ERROR_NOT_ENABLED, s)
  else
    let s := upd (λ w, w <| w_last_feed_time := wdt_tick s |>
      <| w_stats ::= λ st, st <| st_total_feeds ::= λ c, u32 (c + 1) |> |>) s in
    let s := if uses_hardware (w_config (wdt s)) then hal hal_wdt_feed s else s in
    if uses_software (w_config (wdt s)) then
      match wdt_check_tasks s with
      | (Return _, s) => (Return WDT_OK, s)
      | (Reset, s) => (Reset, s)
      end
    else (Return WDT_OK, s).

Definition wdt_set_timeout (timeout_ms : Z) (s : wdt_sys) : wdt_error_t * wdt_sys :=
  if negb (w_initialized (wdt s)) then (WDT_ERROR_NOT_INITIALIZED, s)
  else if timeout_ms <? WDT_MIN_TIMEOUT_MS then (WDT_ERROR_TIMEOUT_TOO_SHORT, s)
  else if WDT_MAX_TIMEOUT_MS <? timeout_ms then (WDT_ERROR_TIMEOUT_TOO_LONG, s)
  else
    let s := upd (λ w, w <| w_config ::= λ c, c <| cfg_timeout_ms := timeout_ms |> |>) s in
    (WDT_OK, if uses_hardware (w_config (wdt s)) then hal (hal_wdt_init timeout_ms) s else s).

Definition wdt_get_timeout (s : wdt_sys) : Z := cfg_timeout_ms (w_config (wdt s)).
Definition wdt_enable : wdt_sys → wdt_error_t * wdt_sys := wdt_start.
Definition wdt_disable : wdt_sys → wdt_error_t * wdt_sys := wdt_stop.
Definition wdt_is_enabled (s : wdt_sys) : bool := w_enabled (wdt s).

Definition wdt_register_task (task : ptr) (timeout_ms : Z) (s : wdt_sys) : wdt_error_t * wdt_sys :=
  if negb (w_initialized (wdt s)) then (WDT_ERROR_NOT_INITIALIZED, s)
  else if task =? NULL then (WDT_ERROR_INVALID_PARAM, s)
  else if timeout_ms <? WDT_MIN_TIMEOUT_MS then (WDT_ERROR_TIMEOUT_TOO_SHORT, s)
  else match find_task_entry task (wdt s) with
  | Some _ => (WDT_ERROR_INVALID_PARAM, s)
  | None =>
      if WDT_MAX_MONITORED_TASKS <=? w_num_registered_tasks (wdt s)
      then (WDT_ERROR_MAX_TASKS_REACHED, s)
      else
        let s := upd (set_entry (Z.to_nat (w_num_registered_tasks (wdt s)))
          (λ _, WdtEntry task timeout_ms (wdt_tick s) true 0)) s in
        (WDT_OK, upd (λ w, w <| w_num_registered_tasks ::= λ n, u32 (n + 1) |>) s)
  end.

(** [for (j = i; j < n - 1; j++) task_entries[j] = task_entries[j + 1];], [k] rounds from [j]. *)
Fixpoint shift_entries (k j : nat) (l : list wdt_task_entry_t) : list wdt_task_entry_t :=
  match k with
  | O => l
  | S k =>
      shift_entries k (S j) (match l !! S j with Some e => <[j := e]> l | None => l end)
  end.

Definition wdt_unregister_task (task : ptr) (s : wdt_sys) : wdt_error_t * wdt_sys :=
  if negb (w_initialized (wdt s)) then (WDT_ERROR_NOT_INITIALIZED, s)
  else if task =? NULL then (WDT_ERROR_INVALID_PARAM, s)
  else match find_task_entry task (wdt s) with
  | Some i =>
      (WDT_OK, upd (λ w, w
        <| w_task_entries ::= shift_entries (Z.to_nat (w_num_registered_tasks w) - 1 - i) i |>
        <| w_num_registered_tasks ::= λ n, u32 (n - 1) |>) s)
  | None => (WDT_ERROR_TASK_NOT_REGISTERED, s)
  end.

(** The operations on the entry of one task share their checks. *)
Definition on_entry (task : ptr) (f : Z → wdt_task_entry_t → wdt_task_entry_t) (s : wdt_sys) :
    wdt_error_t * wdt_sys :=
  if negb (w_initialized (wdt s)) then (WDT_ERROR_NOT_INITIALIZED, s)
  else if task =? NULL then (WDT_ERROR_INVALID_PARAM, s)
  else match find_task_entry task (wdt s) with
  | Some i => (WDT_OK, upd (set_entry i (f (wdt_tick s))) s)
  | None => (WDT_ERROR_TASK_NOT_REGISTERED, s)
  end.
Definition wdt_feed_task (task : ptr) : wdt_sys → wdt_error_t * wdt_sys :=
  on_entry task (λ now e, e <| e_last_feed_time := now |>).
Definition wdt_enable_task (task : ptr) : wdt_sys → wdt_error_t * wdt_sys :=
  on_entry task (λ now e, e <| e_enabled := true |> <| e_last_feed_time := now |>).
Definition wdt_disable_task (task : ptr) : wdt_sys → wdt_error_t * wdt_sys :=
  on_entry task (λ _ e, e <| e_enabled := false |>).

Definition wdt_is_task_registered (task : ptr) (s : wdt_sys) : bool :=
  match find_task_entry task (wdt s) with Some _ => true | None => false end.

Record wdt_status_t := WdtStatus {
  stat_initialized : bool;
  stat_enabled : bool;
  stat_type : wdt_type_t;
  stat_timeout_ms : Z;
  stat_time_remaining_ms : Z;
  stat_last_feed_time : Z;
  stat_registered_tasks : Z
}.

Definition time_remaining (s : wdt_sys) : Z :=
  let elapsed := u32 (wdt_tick s - w_last_feed_time (wdt s)) in
  let timeout := cfg_timeout_ms (w_config (wdt s)) in
  if elapsed <? timeout then timeout - elapsed else 0.

(** The second component is what [*status] ([*stats]) holds. *)
Definition wdt_get_status (status : ptr) (s : wdt_sys) : wdt_error_t * option wdt_status_t :=
  if status =? NULL then (WDT_ERROR_INVALID_PARAM, None)
  else (WDT_OK, Some (WdtStatus (w_initialized (wdt s)) (w_enabled (wdt s)) (cfg_type (w_config (wdt s)))
    (cfg_timeout_ms (w_config (wdt s))) (time_remaining s) (w_last_feed_time (wdt s))
    (w_num_registered_tasks (wdt s)))).
Definition wdt_get_stats (stats : ptr) (s : wdt_sys) : wdt_error_t * option wdt_stats_t :=
  if stats =? NULL then (WDT_ERROR_INVALID_PARAM, None) else (WDT_OK, Some (w_stats (wdt s))).

Definition wdt_reset_stats (s : wdt_sys) : wdt_error_t * wdt_sys :=
  (WDT_OK, upd (λ w, w <| w_stats := stats_zero |>
    <| w_task_entries ::= imap (λ i e,
         if Z.of_nat i <? w_num_registered_tasks w then e <| e_timeout_count := 0 |> else e) |>) s).

Definition wdt_get_last_reset_reason (s : wdt_sys) : wdt_reset_reason_t := w_reset_reason (wdt s).
Definition wdt_get_time_remaining (s : wdt_sys) : Z :=
  if negb (w_initialized (wdt s)) then 0 else time_remaining s.

Definition wdt_trigger_reset (s : wdt_sys) : flow unit * wdt_sys :=
  let s := run_callback WDT_RESET_SOFTWARE NULL s in
  let s := upd (λ w, w <| w_reset_reason := WDT_RESET_SOFTWARE |>
    <| w_stats ::= λ st, st <| st_sw_resets ::= λ c, u32 (c + 1) |>
                            <| st_last_reset_reason := WDT_RESET_SOFTWARE |> |>) s in
  (Reset, hal hal_wdt_trigger_reset s).
Definition wdt_was_reset_by_watchdog (s : wdt_sys) : bool := wdt_was_reset s.
Definition wdt_clear_reset_flag (s : wdt_sys) : wdt_sys := hal hal_wdt_clear_reset_flag s.
End watchdog.

Definition wdt_error_to_string (e : wdt_error_t) : string :=
  match e with
  | WDT_OK => "OK"
  | WDT_ERROR_INVALID_PARAM => "Invalid parameter"
  | WDT_ERROR_NOT_INITIALIZED => "Not initialized"
  | WDT_ERROR_ALREADY_INITIALIZED => "Already initialized"
  | WDT_ERROR_TIMEOUT_TOO_SHORT => "Timeout too short"
  | WDT_ERROR_TIMEOUT_TOO_LONG => "Timeout too long"
  | WDT_ERROR_NOT_ENABLED => "Not enabled"
  | WDT_ERROR_TASK_NOT_REGISTERED => "Task not registered"
  | WDT_ERROR_MAX_TASKS_REACHED => "Maximum tasks reached"
  end.
Definition wdt_reset_reason_to_string (r : wdt_reset_reason_t) : string :=
  match r with
  | WDT_RESET_NONE => "None"
  | WDT_RESET_HARDWARE => "Hardware watchdog"
  | WDT_RESET_SOFTWARE => "Software watchdog"
  | WDT_RESET_TASK_TIMEOUT => "Task timeout"
  end.

(** * The registry of monitored tasks *)

(** The entries in use, in the order of their registration. *)
Definition registered (w : wdt_state_t) : list wdt_task_entry_t :=
  take (Z.to_nat (w_num_registered_tasks w)) (w_task_entries w).

Record wdt_inv (w : wdt_state_t) : Prop := {
  wi_length : length (w_task_entries w) = 8%nat;
  wi_num : 0 ≤ w_num_registered_tasks w ≤ 8;
  wi_nodup : NoDup (e_task <$> registered w);
  wi_null : NULL ∉ e_task <$> registered w
}.

Lemma registered_length w :
  wdt_inv w → length (registered w) = Z.to_nat (w_num_registered_tasks w).
Proof. intros [Hl Hn _ _]. unfold registered. rewrite length_take, Hl. lia. Qed.

Lemma find_from_spec task n : ∀ l i,
  match find_from task l n i with
  | Some j => ∃ k e, j = (i + k)%nat ∧ take n l !! k = Some e ∧ e_task e = task
  | None => task ∉ e_task <$> take n l
  end.
Proof.
  induction n as [|n IH]; intros [|e l] i; simpl; try apply not_elem_of_nil.
  destruct (Z.eqb_spec (e_task e) task) as [He|Hne].
  - exists 0%nat, e. split_and!; [lia|done|done].
  - specialize (IH l (S i)). destruct (find_from task l n (S i)) as [j|].
    + destruct IH as (k & e' & -> & Hk & He'). exists (S k), e'. split_and!; [lia|done|done].
    + rewrite elem_of_cons. intros [?|?]; [congruence|done].
Qed.

Lemma find_task_entry_spec task w :
  match find_task_entry task w with
  | Some j => ∃ e, registered w !! j = Some e ∧ e_task e = task
  | None => task ∉ e_task <$> registered w
  end.
Proof.
  unfold find_task_entry, registered.
  pose proof (find_from_spec task (Z.to_nat (w_num_registered_tasks w)) (w_task_entries w) 0) as H.
  destruct (find_from _ _ _ _) as [j|]; [|done]. destruct H as (k & e & -> & Hk & He).
  rewrite Nat.add_0_l. eauto.
Qed.

(** The invariant in terms of the entries in use. *)
Lemma wdt_inv_intro w :
  length (w_task_entries w) = 8%nat → 0 ≤ w_num_registered_tasks w ≤ 8 →
  ∀ l, registered w = l → NoDup (e_task <$> l) → NULL ∉ e_task <$> l → wdt_inv w.
Proof. intros ? ? l <- ? ?. by split. Qed.

Lemma wdt_inv_same w w' :
  wdt_inv w → length (w_task_entries w') = length (w_task_entries w) →
  w_num_registered_tasks w' = w_num_registered_tasks w →
  e_task <$> registered w' = e_task <$> registered w → wdt_inv w'.
Proof. intros [Hl Hn Hnd Hnull] H1 H2 H3. split; [congruence|by rewrite H2|by rewrite H3..]. Qed.

Lemma registered_alter w i f :
  registered (set_entry i f w) = alter f i (registered w).
Proof.
  unfold registered, set_entry. simpl. apply list_eq. intros j.
  destruct (decide (j < Z.to_nat (w_num_registered_tasks w))%nat).
  - rewrite lookup_take_lt by done. destruct (decide (j = i)) as [->|].
    + rewrite !list_lookup_alter_eq, lookup_take_lt by done. done.
    + rewrite !list_lookup_alter_ne, lookup_take_lt by done. done.
  - rewrite lookup_take_ge by lia. symmetry. apply lookup_ge_None. rewrite length_alter, length_take. lia.
Qed.

Lemma alter_tasks i f (l : list wdt_task_entry_t) :
  (∀ e, e_task (f e) = e_task e) → e_task <$> alter f i l = e_task <$> l.
Proof.
  intros Hf. apply list_eq. intros j. rewrite !list_lookup_fmap. destruct (decide (i = j)) as [->|].
  - rewrite list_lookup_alter_eq. destruct (l !! j); simpl; [by rewrite Hf|done].
  - by rewrite list_lookup_alter_ne.
Qed.

(** The shifting loop moves the entries behind [j] down by one. *)
Lemma shift_entries_lookup k : ∀ j l m,
  (j + k < length l)%nat →
  shift_entries k j l !! m = if decide (j ≤ m < j + k)%nat then l !! S m else l !! m.
Proof.
  induction k as [|k IH]; intros j l m Hlen; simpl.
  { destruct (decide _); [lia|done]. }
  destruct (lookup_lt_is_Some_2 l (S j)) as [e He]; [lia|]. rewrite He.
  rewrite IH by (rewrite length_insert; lia).
  repeat destruct (decide _); try lia.
  - rewrite list_lookup_insert_ne by lia. done.
  - assert (m = j) as -> by lia. rewrite list_lookup_insert_eq by lia. done.
  - rewrite list_lookup_insert_ne by lia. done.
Qed.

Lemma shift_entries_length k : ∀ j l, length (shift_entries k j l) = length l.
Proof.
  induction k as [|k IH]; intros j l; simpl; [done|]. rewrite IH.
  destruct (l !! S j); [apply length_insert|done].
Qed.

Lemma take_shift l n i :
  (n ≤ length l)%nat → (i < n)%nat → take (n - 1) (shift_entries (n - 1 - i) i l) = delete i (take n l).
Proof.
  intros Hn Hi. apply list_eq. intros m. destruct (decide (m < n - 1)%nat).
  - rewrite lookup_take_lt, shift_entries_lookup by lia. destruct (decide (i ≤ m)%nat).
    + rewrite list_lookup_delete_ge by lia. rewrite lookup_take_lt by lia. by rewrite decide_True by lia.
    + rewrite list_lookup_delete_lt by lia. rewrite lookup_take_lt by lia. by rewrite decide_False by lia.
  - rewrite lookup_take_ge by lia. symmetry. destruct (decide (i ≤ m)%nat); [|lia].
    rewrite list_lookup_delete_ge by lia. rewrite lookup_take_ge by lia. done.
Qed.

Lemma take_alter_snoc {A} (f : A → A) (l : list A) n :
  (n < length l)%nat → ∃ x, l !! n = Some x ∧ take (S n) (alter f n l) = take n l ++ [f x].
Proof.
  intros Hn. destruct (lookup_lt_is_Some_2 l n Hn) as [x Hx]. exists x. split; [done|].
  rewrite (take_S_r _ _ (f x)) by (by rewrite list_lookup_alter_eq, Hx).
  f_equal. apply list_eq. intros i. destruct (decide (i < n)%nat).
  - rewrite !lookup_take_lt by done. apply list_lookup_alter_ne. lia.
  - by rewrite !lookup_take_ge by lia.
Qed.

(** * Checking the tasks *)

(** The test of [wdt_check_tasks] on one entry. *)
Definition expired (now : Z) (e : wdt_task_entry_t) : bool :=
  e_enabled e && (e_timeout_ms e <=? u32 (now - e_last_feed_time e)).

(** A callback that leaves the watchdog alone. *)
Definition quiet (callback : ptr → wdt_reset_reason_t → ptr → wdt_sys → wdt_sys) : Prop :=
  ∀ cb r t s, wdt (callback cb r t s) = wdt s.

Lemma registered_lookup w i e :
  wdt_inv w → registered w !! i = Some e →
  w_task_entries w !! i = Some e ∧ (Z.of_nat i <? w_num_registered_tasks w) = true.
Proof.
  intros Hw Hi. pose proof (lookup_lt_Some _ _ _ Hi) as Hlt. rewrite registered_length in Hlt by done.
  unfold registered in Hi. rewrite lookup_take_lt in Hi by done. split; [done|]. apply Z.ltb_lt. lia.
Qed.
Lemma registered_end w i :
  wdt_inv w → (length (registered w) ≤ i)%nat → (Z.of_nat i <? w_num_registered_tasks w) = false.
Proof. intros Hw Hi. rewrite registered_length in Hi by done. apply Z.ltb_ge. lia. Qed.

Section check.
Context (callback : ptr → wdt_reset_reason_t → ptr → wdt_sys → wdt_sys) (Hquiet : quiet callback).

Lemma run_callback_wdt r t s : wdt (run_callback callback r t s) = wdt s.
Proof. unfold run_callback. destruct (_ =? _); [done|apply Hquiet]. Qed.

Lemma check_none now n : ∀ i s,
  wdt_inv (wdt s) → Forall (λ e, expired now e = false) (drop i (registered (wdt s))) →
  check_from callback n i now s = (Return tt, s).
Proof.
  induction n as [|n IH]; intros i s Hw Hall; [done|]. simpl.
  destruct (registered (wdt s) !! i) as [e|] eqn:Hi.
  - destruct (registered_lookup _ _ _ Hw Hi) as [He Hlt]. rewrite Hlt, He.
    rewrite (drop_S _ e) in Hall by done. apply Forall_cons in Hall as [Hexp Hall].
    unfold expired in Hexp. rewrite Hexp. by apply IH.
  - apply lookup_ge_None in Hi. by rewrite (registered_end _ _ Hw Hi).
Qed.

(** The state after the reset that the timeout of [task] caused. *)
Definition reset_by (task : ptr) (s' : wdt_sys) : Prop :=
  w_reset_reason (wdt s') = WDT_RESET_TASK_TIMEOUT ∧
  st_last_timeout_task (w_stats (wdt s')) = task ∧
  ∃ log, wdt_hal s' = hal_wdt_trigger_reset :: log.

Lemma check_reset now n : ∀ i s k e,
  wdt_inv (wdt s) → cfg_enable_reset (w_config (wdt s)) = true →
  registered (wdt s) !! (i + k)%nat = Some e → expired now e = true → (k < n)%nat →
  (∀ j e', (i ≤ j < i + k)%nat → registered (wdt s) !! j = Some e' → expired now e' = false) →
  ∃ s', check_from callback n i now s = (Reset, s') ∧ reset_by (e_task e) s'.
Proof.
  induction n as [|n IH]; intros i s k e Hw Hen Hk Hexp Hn Hbefore; [lia|]. simpl.
  destruct k as [|k].
  - rewrite Nat.add_0_r in Hk. destruct (registered_lookup _ _ _ Hw Hk) as [He Hlt]. rewrite Hlt, He.
    unfold expired in Hexp. rewrite Hexp. rewrite run_callback_wdt. simpl. rewrite Hen.
    eexists. split; [reflexivity|]. split_and!; simpl; try by rewrite ?run_callback_wdt. by eexists.
  - destruct (registered (wdt s) !! i) as [e'|] eqn:Hi.
    + destruct (registered_lookup _ _ _ Hw Hi) as [He Hlt]. rewrite Hlt, He.
      assert (expired now e' = false) as Hexp' by (apply (Hbefore i); [lia|done]).
      unfold expired in Hexp'. rewrite Hexp'. apply (IH (S i) s k e); auto; [|lia|].
      * by replace (S i + k)%nat with (i + S k)%nat by lia.
      * intros j e0 Hj. apply Hbefore. lia.
    + apply lookup_ge_None in Hi. apply lookup_lt_Some in Hk. lia.
Qed.

(** One more timeout of an entry. *)
Definition bump (now : Z) (e : wdt_task_entry_t) : wdt_task_entry_t :=
  if expired now e then e <| e_timeout_count ::= λ c, u32 (c + 1) |> else e.

Lemma bump_alter now i e (l : list wdt_task_entry_t) :
  l !! i = Some e → expired now e = true →
  take (S i) (alter (λ e, e <| e_timeout_count ::= λ c, u32 (c + 1) |>) i l) =
    take i l ++ [bump now e] ∧
  drop (S i) (alter (λ e, e <| e_timeout_count ::= λ c, u32 (c + 1) |>) i l) = drop (S i) l.
Proof.
  intros Hi He. pose proof (lookup_lt_Some _ _ _ Hi) as Hlt. split.
  - destruct (take_alter_snoc (λ e, e <| e_timeout_count ::= λ c, u32 (c + 1) |>) l i Hlt) as (x & Hx & ->).
    rewrite Hi in Hx. injection Hx as <-. unfold bump. by rewrite He.
  - apply list_eq. intros j. rewrite !lookup_drop. apply list_lookup_alter_ne. lia.
Qed.

Lemma bump_none now i e (l : list wdt_task_entry_t) :
  l !! i = Some e → expired now e = false → take (S i) l = take i l ++ [bump now e].
Proof. intros Hi He. unfold bump. rewrite He. by apply take_S_r. Qed.

Lemma check_count now n : ∀ i s,
  wdt_inv (wdt s) → cfg_enable_reset (w_config (wdt s)) = false → (8 ≤ i + n)%nat →
  ∃ s', check_from callback n i now s = (Return tt, s') ∧
    registered (wdt s') = take i (registered (wdt s)) ++ (bump now <$> drop i (registered (wdt s))).
Proof.
  induction n as [|n IH]; intros i s Hw Hen Hn.
  { exists s. split; [done|]. pose proof (wi_num _ Hw). pose proof (registered_length _ Hw).
    rewrite take_ge, drop_ge by lia. simpl. by rewrite app_nil_r. }
  simpl. destruct (registered (wdt s) !! i) as [e|] eqn:Hi.
  - destruct (registered_lookup _ _ _ Hw Hi) as [He Hlt]. rewrite Hlt, He, (drop_S _ e _ Hi), fmap_cons.
    fold (expired now e). destruct (expired now e) eqn:Hexp.
    + rewrite run_callback_wdt. simpl. rewrite Hen.
      match goal with |- context [check_from callback n (S i) now ?x] => set (s1 := x) end.
      assert (registered (wdt s1) = alter (λ e, e <| e_timeout_count ::= λ c, u32 (c + 1) |>) i
        (registered (wdt s))) as Hreg.
      { unfold s1. rewrite run_callback_wdt. rewrite <-registered_alter. reflexivity. }
      assert (wdt_inv (wdt s1)) as Hw1.
      { apply (wdt_inv_same (wdt s)); [done|..].
        - unfold s1. rewrite run_callback_wdt. simpl. apply length_alter.
        - unfold s1. by rewrite run_callback_wdt.
        - rewrite Hreg. by apply alter_tasks. }
      destruct (IH (S i) s1) as (s' & Hs' & Hr'); [done| |lia|].
      { unfold s1. by rewrite run_callback_wdt. }
      exists s'. split; [done|]. destruct (bump_alter now i e _ Hi Hexp) as [Ht Hd].
      by rewrite Hr', Hreg, Ht, Hd, <-app_assoc.
    + destruct (IH (S i) s) as (s' & Hs' & Hr'); [done|done|lia|].
      exists s'. split; [done|]. by rewrite Hr', (bump_none now i e), <-app_assoc.
  - apply lookup_ge_None in Hi. rewrite (registered_end _ _ Hw Hi). exists s. split; [done|].
    rewrite take_ge, drop_ge by lia. simpl. by rewrite app_nil_r.
Qed.
End check.

(** * Registering and unregistering *)

(** When a task can be registered. *)
Definition can_register (task timeout : Z) (w : wdt_state_t) : Prop :=
  task ≠ NULL ∧ WDT_MIN_TIMEOUT_MS ≤ timeout ∧ (task ∉ e_task <$> registered w) ∧
  (length (registered w) < 8)%nat.
#[export] Instance can_register_dec task timeout w : Decision (can_register task timeout w).
Proof. unfold can_register. apply _. Defined.

Lemma registered_add w task timeout now :
  wdt_inv w → (length (registered w) < 8)%nat →
  let w' := set_entry (Z.to_nat (w_num_registered_tasks w)) (λ _, WdtEntry task timeout now true 0) w
    <| w_num_registered_tasks ::= λ n, u32 (n + 1) |> in
  task ≠ NULL → (task ∉ e_task <$> registered w) →
  wdt_inv w' ∧ registered w' = registered w ++ [WdtEntry task timeout now true 0].
Proof.
  intros Hw Hlt w' Ht Hnin. pose proof Hw as [Hlen Hnum Hnd Hnull].
  pose proof (registered_length _ Hw) as Hrl.
  assert (registered w' = registered w ++ [WdtEntry task timeout now true 0]) as Hreg.
  { unfold registered at 1, w'. simpl. rewrite u32_small by lia. rewrite Z2Nat.inj_add by lia.
    rewrite Nat.add_1_r.
    destruct (take_alter_snoc (λ _, WdtEntry task timeout now true 0) (w_task_entries w)
      (Z.to_nat (w_num_registered_tasks w))) as (x & _ & E); [lia|]. exact E. }
  split; [|done]. eapply wdt_inv_intro; [..|exact Hreg| |].
  - unfold w'. simpl. by rewrite length_alter.
  - unfold w'. simpl. rewrite u32_small; lia.
  - rewrite fmap_app. apply NoDup_app. split_and!; [done| |apply NoDup_singleton].
    intros t Ht1 Ht2%list_elem_of_singleton. by subst.
  - rewrite fmap_app, elem_of_app. intros [?|?%list_elem_of_singleton]; [done|]. by subst.
Qed.

Lemma wdt_register_task_spec task timeout s :
  wdt_inv (wdt s) → w_initialized (wdt s) = true →
  let (r, s') := wdt_register_task task timeout s in
  wdt_inv (wdt s') ∧
  if decide (can_register task timeout (wdt s))
  then r = WDT_OK ∧
    registered (wdt s') = registered (wdt s) ++ [WdtEntry task timeout (wdt_tick s) true 0]
  else r ≠ WDT_OK ∧ s' = s.
Proof.
  intros Hw Hi. pose proof Hw as [Hlen Hnum Hnd Hnull]. pose proof (registered_length _ Hw) as Hrl.
  unfold wdt_register_task, can_register. rewrite Hi. simpl.
  pose proof (find_task_entry_spec task (wdt s)) as Hfind.
  destruct (Z.eqb_spec task NULL) as [Ht|Ht]; [by rewrite decide_False by tauto|].
  destruct (Z.ltb_spec timeout WDT_MIN_TIMEOUT_MS); [rewrite decide_False by lia; done|].
  destruct (find_task_entry task (wdt s)) as [j|].
  { destruct Hfind as (e & He & <-). rewrite decide_False; [done|].
    intros (_ & _ & Hnin & _). apply Hnin, list_elem_of_fmap. exists e. split; [done|].
    by eapply list_elem_of_lookup_2. }
  unfold WDT_MAX_MONITORED_TASKS.
  destruct (Z.leb_spec 8 (w_num_registered_tasks (wdt s))); [rewrite decide_False by lia; done|].
  rewrite decide_True by (split_and!; [done|lia|done|lia]).
  destruct (registered_add (wdt s) task timeout (wdt_tick s)) as [Hw' Hr]; [done|lia|done|done|]. by split.
Qed.

Lemma wdt_unregister_task_spec task s :
  wdt_inv (wdt s) → w_initialized (wdt s) = true →
  let (r, s') := wdt_unregister_task task s in
  wdt_inv (wdt s') ∧
  if decide (task ∈ e_task <$> registered (wdt s))
  then r = WDT_OK ∧ ∃ i e, registered (wdt s) !! i = Some e ∧ e_task e = task ∧
    registered (wdt s') = delete i (registered (wdt s))
  else r ≠ WDT_OK ∧ s' = s.
Proof.
  intros Hw Hi. pose proof Hw as [Hlen Hnum Hnd Hnull]. pose proof (registered_length _ Hw) as Hrl.
  unfold wdt_unregister_task. rewrite Hi. simpl. pose proof (find_task_entry_spec task (wdt s)) as Hfind.
  destruct (Z.eqb_spec task NULL) as [->|Ht]; [by rewrite decide_False|].
  destruct (find_task_entry task (wdt s)) as [j|]; [|by rewrite decide_False].
  destruct Hfind as (e & He & Het). pose proof (lookup_lt_Some _ _ _ He) as Hj.
  rewrite decide_True; [|rewrite <-Het; apply list_elem_of_fmap; exists e; split; [done|by eapply list_elem_of_lookup_2]].
  match goal with |- wdt_inv (wdt ?x) ∧ _ => set (s' := x) end.
  assert (registered (wdt s') = delete j (registered (wdt s))) as Hreg.
  { unfold registered at 1. unfold s'. simpl. rewrite u32_small by lia. rewrite Z2Nat.inj_sub by lia.
    apply take_shift; lia. }
  assert (e_task <$> delete j (registered (wdt s)) `sublist_of` e_task <$> registered (wdt s)) as Hsub
    by (apply fmap_sublist, sublist_delete).
  split; [|by eauto 10]. eapply wdt_inv_intro; [..|exact Hreg| |].
  - unfold s'. simpl. by rewrite shift_entries_length.
  - unfold s'. simpl. rewrite u32_small; lia.
  - by eapply sublist_NoDup.
  - intros Hin. eapply Hnull, elem_of_submseteq; [exact Hin|]. by apply sublist_submseteq.
Qed.

(** * The properties *)

(** Three entries, the first two fed at tick 50, on a software watchdog. *)
Definition demo_wdt (now : Z) : wdt_sys :=
  WdtSys (wdt_zero <| w_initialized := true |> <| w_enabled := true |>
    <| w_config := WdtConfig WDT_TYPE_SOFTWARE 1000 true true NULL |>
    <| w_task_entries := WdtEntry 11 100 50 true 0 :: WdtEntry 12 200 50 true 0 ::
         WdtEntry 13 100 0 false 0 :: replicate 5 entry_zero |>
    <| w_num_registered_tasks := 3 |>) now false [].
Lemma demo_wdt_inv now : wdt_inv (wdt (demo_wdt now)).
Proof.
  split; [done|done| |].
  - apply (bool_decide_eq_true_1 (NoDup [11; 12; 13])). reflexivity.
  - apply (bool_decide_eq_true_1 (NULL ∉ [11; 12; 13])). reflexivity.
Qed.



(** A software watchdog detects exactly the tasks that are late, across a wrap-around of the tick
    counter too: [wdt_feed] succeeds and leaves the entries alone if no monitored task is late;
    otherwise it resets the system on behalf of the first late task, or, with resets disabled,
    counts one timeout for every late task and returns. *)
Theorem wdt_feed_detects callback s :
  quiet callback → wdt_inv (wdt s) → w_initialized (wdt s) = true → w_enabled (wdt s) = true →
  uses_software (w_config (wdt s)) = true →
  let late e := expired (wdt_tick s) e = true in
  let (r, s') := wdt_feed callback s in
  (Forall (λ e, ¬ late e) (registered (wdt s)) →
     r = Return WDT_OK ∧ registered (wdt s') = registered (wdt s)) ∧
  (cfg_enable_reset (w_config (wdt s)) = true →
     ∀ l1 e l2, registered (wdt s) = l1 ++ e :: l2 → Forall (λ e, ¬ late e) l1 → late e →
     r = Reset ∧ reset_by (e_task e) s') ∧
  (cfg_enable_reset (w_config (wdt s)) = false →
     r = Return WDT_OK ∧ registered (wdt s') = bump (wdt_tick s) <$> registered (wdt s)).
Proof.
  intros Hq Hw Hi He Hsw late. unfold wdt_feed. rewrite Hi, He. simpl negb. cbv iota zeta.
  set (s1 := if uses_hardware _ then _ else _).
  assert (wdt s1 = wdt s <| w_last_feed_time := wdt_tick s |>
    <| w_stats ::= λ st, st <| st_total_feeds ::= λ c, u32 (c + 1) |> |>) as Hs1
    by (unfold s1; by destruct (uses_hardware _)).
  assert (wdt_tick s1 = wdt_tick s) as Htick by (unfold s1; by destruct (uses_hardware _)).
  assert (registered (wdt s1) = registered (wdt s)) as Hr1 by by rewrite Hs1.
  assert (wdt_inv (wdt s1)) as Hw1 by (rewrite Hs1; by destruct Hw; split).
  assert (w_config (wdt s1) = w_config (wdt s)) as Hc1 by by rewrite Hs1.
  assert (w_initialized (wdt s1) = true ∧ w_enabled (wdt s1) = true) as [Hi1 He1] by by rewrite Hs1.
  clearbody s1. rewrite Hc1, Hsw. unfold wdt_check_tasks. rewrite Hi1, He1, Htick.
  cbn [negb orb]. cbv iota.
  assert (Forall (λ e, ¬ late e) (registered (wdt s)) →
    check_from callback 8 0 (wdt_tick s) s1 = (Return tt, s1)) as Hnone.
  { intros Hall. apply check_none; [done|]. rewrite drop_0, Hr1. eapply Forall_impl; [exact Hall|].
    intros e Hl. unfold late in Hl. by destruct (expired (wdt_tick s) e). }
  pose proof (check_reset callback Hq (wdt_tick s) 8 0 s1) as Hreset.
  pose proof (check_count callback Hq (wdt_tick s) 8 0 s1 Hw1) as Hcount.
  rewrite Hc1, Hr1 in Hreset, Hcount.
  destruct (check_from callback 8 0 (wdt_tick s) s1) as [o s2] eqn:Echk.
  assert (∀ l1 e l2, registered (wdt s) = l1 ++ e :: l2 → (length l1 < 8)%nat) as Hlen.
  { intros l1 e l2 Hl. apply (f_equal length) in Hl. rewrite length_app, registered_length in Hl by done.
    simpl in Hl. pose proof (wi_num _ Hw). lia. }
  assert (cfg_enable_reset (w_config (wdt s)) = true →
     ∀ l1 e l2, registered (wdt s) = l1 ++ e :: l2 → Forall (λ e, ¬ late e) l1 → late e →
     o = Reset ∧ reset_by (e_task e) s2) as Hres.
  { intros Hres l1 e l2 Hl Hl1 Hlate.
    destruct (Hreset (length l1) e) as (s' & [= -> <-] & Hby); auto; [..|by eapply Hlen|].
    - rewrite Hl. by apply list_lookup_middle.
    - intros j e' Hj. rewrite Hl, lookup_app_l by lia. intros Hj'%list_elem_of_lookup_2.
      rewrite Forall_forall in Hl1. apply Hl1 in Hj'. unfold late in Hj'. by destruct (expired (wdt_tick s) e'). }
  assert (cfg_enable_reset (w_config (wdt s)) = false → o = Return tt ∧
    registered (wdt s2) = bump (wdt_tick s) <$> registered (wdt s)) as Hcnt.
  { intros Hoff. by destruct Hcount as (s' & [= -> <-] & Hreg); [done|lia|]. }
  clear Hreset Hcount Echk. destruct o as [[]|]; split_and!.
  - intros Hall. by apply Hnone in Hall as [= ->].
  - intros He' l1 e l2 Hl Hl1 Hlate. by destruct (Hres He' l1 e l2 Hl Hl1 Hlate).
  - intros Hoff. by destruct (Hcnt Hoff).
  - intros Hall. by apply Hnone in Hall.
  - intros He' l1 e l2 Hl Hl1 Hlate. by destruct (Hres He' l1 e l2 Hl Hl1 Hlate).
  - intros Hoff. by destruct (Hcnt Hoff).
Qed.

Lemma wdt_feed_detects_witness :
  fst (wdt_feed (λ _ _ _ s, s) (demo_wdt 155)) = Reset ∧
  reset_by 11 (snd (wdt_feed (λ _ _ _ s, s) (demo_wdt 155))).
Proof.
  pose proof (wdt_feed_detects (λ _ _ _ s, s) (demo_wdt 155) (λ _ _ _ _, eq_refl) (demo_wdt_inv 155)
    eq_refl eq_refl eq_refl) as H. cbv zeta in H.
  destruct (wdt_feed (λ _ _ _ s, s) (demo_wdt 155)) as [r s'] eqn:E. destruct H as (_ & H & _).
  apply (H eq_refl [] (WdtEntry 11 100 50 true 0) [WdtEntry 12 200 50 true 0; WdtEntry 13 100 0 false 0]);
    [done|done|reflexivity].
Defined.

(** A task that feeds its watchdog is safe until its timeout has passed: for [d] ticks less than
    the timeout after [wdt_feed_task], wherever the tick counter wraps around, it is not late. *)
Theorem fed_task_is_safe task s i e d :
  wdt_inv (wdt s) → w_initialized (wdt s) = true → 0 ≤ wdt_tick s < 2 ^ 32 →
  registered (wdt s) !! i = Some e → e_task e = task → 0 ≤ d < e_timeout_ms e → d < 2 ^ 32 →
  ∃ s' e', wdt_feed_task task s = (WDT_OK, s') ∧ registered (wdt s') !! i = Some e' ∧
    e_task e' = task ∧ expired (u32 (wdt_tick s + d)) e' = false.
Proof.
  intros Hw Hi Ht He Het Hd Hd2. unfold wdt_feed_task, on_entry. rewrite Hi. simpl.
  assert (task ∈ e_task <$> registered (wdt s)) as Hin.
  { rewrite <-Het. apply list_elem_of_fmap. exists e. split; [done|by eapply list_elem_of_lookup_2]. }
  destruct (Z.eqb_spec task NULL) as [->|_]; [by destruct (wi_null _ Hw)|].
  pose proof (find_task_entry_spec task (wdt s)) as Hfind.
  destruct (find_task_entry task (wdt s)) as [j|]; [|done]. destruct Hfind as (e2 & He2 & Het2).
  assert (j = i) as ->.
  { eapply (NoDup_lookup (e_task <$> registered (wdt s))); [apply Hw|..].
    - by rewrite list_lookup_fmap, He2; simpl; rewrite Het2.
    - by rewrite list_lookup_fmap, He; simpl; rewrite Het. }
  eexists _, _. split; [reflexivity|]. cbn [upd wdt set_field]. rewrite registered_alter, list_lookup_alter_eq, He.
  split_and!; [done|done|]. unfold expired. simpl. rewrite u32_sub_u32_l.
  replace (wdt_tick s + d - wdt_tick s) with d by lia. rewrite u32_small by lia.
  destruct (Z.leb_spec (e_timeout_ms e) d); [lia|]. apply andb_false_r.
Qed.

Lemma fed_task_is_safe_witness : ∃ s' e', wdt_feed_task 11 (demo_wdt (2 ^ 32 - 10)) = (WDT_OK, s') ∧
  registered (wdt s') !! 0%nat = Some e' ∧ e_task e' = 11 ∧ expired (u32 (2 ^ 32 - 10 + 99)) e' = false.
Proof.
  apply (fed_task_is_safe 11 (demo_wdt (2 ^ 32 - 10)) 0 (WdtEntry 11 100 50 true 0) 99);
    [apply demo_wdt_inv|reflexivity|cbn [wdt_tick demo_wdt]; lia|reflexivity|reflexivity|
     cbn [e_timeout_ms]; lia|lia].
Defined.
