(* ===== verification/Power.v ===== *)
(** Power: the power management of [src/power.c].

    [power_sys] is the kernel with the static [power_state]. The [platform_*] functions are weak
    symbols that a board may replace: they are the class [PowerPlatform], and [weak_platform] is the
    default of the source, over the instruction [wfi]. A callback is the value of the function
    pointer, and what it does is a parameter. *)
From Stdlib Require Import ZArith Lia.
From stdpp Require Import base numbers list gmap.
From S2P Require Import Prelude Types Kernel.

(** * Data *)
Definition POWER_MODE_ACTIVE : Z := 0.
Definition POWER_MODE_IDLE : Z := 1.
Definition POWER_MODE_SLEEP : Z := 2.
Definition POWER_MODE_DEEP_SLEEP : Z := 3.
Definition POWER_MODE_MAX : Z := 4.
Definition WAKEUP_SOURCE_MAX : Z := 8.

Record power_config_t := PowerConfig {
  idle_mode_enabled : bool;
  sleep_mode_enabled : bool;
  deep_sleep_threshold_ms : Z;
  cpu_freq_hz : Z;
  min_cpu_freq_hz : Z;
  max_cpu_freq_hz : Z;
  battery_capacity_mah : Z;
  battery_voltage_mv : Z
}.
#[export] Instance power_config_eta : Eta power_config_t := λ c,
  PowerConfig (idle_mode_enabled c) (sleep_mode_enabled c) (deep_sleep_threshold_ms c) (cpu_freq_hz c) (min_cpu_freq_hz c)
    (max_cpu_freq_hz c) (battery_capacity_mah c) (battery_voltage_mv c).

Record power_stats_t := PowerStats {
  ps_current_mode : Z;
  ps_total_sleep_time_ms : Z;
  ps_total_active_time_ms : Z;
  ps_wakeup_sources : Z;
  ps_power_consumption_mw : Z;
  ps_estimated_battery_life_hours : Z
}.

(** The static [power_state]. *)
Record power_state_t := PowerState {
  current_mode : Z;
  pw_config : power_config_t;
  sleep_ticks : Z;
  wakeup_sources : Z;
  tickless_idle_enabled : bool;
  enter_callback : ptr;
  exit_callback : ptr;
  total_sleep_time_ms : Z
}.
#[export] Instance power_state_eta : Eta power_state_t := λ p,
  PowerState (current_mode p) (pw_config p) (sleep_ticks p) (wakeup_sources p) (tickless_idle_enabled p) (enter_callback p)
    (exit_callback p) (total_sleep_time_ms p).
Definition power_config_zero : power_config_t := PowerConfig false false 0 0 0 0 0 0.
Definition power_state_zero : power_state_t := PowerState POWER_MODE_ACTIVE power_config_zero 0 0 false NULL NULL 0.

Record power_sys := PowerSys { pw_kernel : kernel_t; power_state : power_state_t }.
#[export] Instance power_sys_eta : Eta power_sys := λ s, PowerSys (pw_kernel s) (power_state s).
#[export] Program Instance power_view : KernelView power_sys :=
  {| kget := pw_kernel; kput := λ k s, s <| pw_kernel := k |> |}.
Next Obligation. done. Qed.
Next Obligation. done. Qed.
Next Obligation. by intros []. Qed.

Class PowerPlatform := {
  platform_enter_sleep_mode : M power_sys unit;
  platform_enter_deep_sleep_mode : M power_sys unit;
  platform_set_clock_frequency : Z → M power_sys unit;
  platform_enable_wakeup_source : Z → M power_sys unit;
  platform_disable_wakeup_source : Z → M power_sys unit;
  platform_get_power_consumption_mw : M power_sys Z
}.
Definition default_power_mw (mode : Z) : Z :=
  if mode =? POWER_MODE_ACTIVE then 50
  else if mode =? POWER_MODE_IDLE then 10
  else if mode =? POWER_MODE_SLEEP then 1
  else if mode =? POWER_MODE_DEEP_SLEEP then 0
  else 50.
Definition weak_platform (wfi : M power_sys unit) : PowerPlatform := {|
  platform_enter_sleep_mode := wfi;
  platform_enter_deep_sleep_mode := wfi;
  platform_set_clock_frequency _ := ret tt;
  platform_enable_wakeup_source _ := ret tt;
  platform_disable_wakeup_source _ := ret tt;
  platform_get_power_consumption_mw := gets (λ s, default_power_mw (current_mode (power_state s)))
|}.

(** * Operations *)
Section power.
Context `{PP : !PowerPlatform}.
Context (call_power : ptr → Z → M power_sys unit).

Definition pw_upd (f : power_state_t → power_state_t) : M power_sys unit := modify (λ s, s <| power_state ::= f |>).
Definition pw_enter : M power_sys Z := in_kernel os_enter_critical.
Definition pw_exit (state : Z) : M power_sys unit := in_kernel (os_exit_critical state).

Definition os_power_init : M power_sys unit :=
  pw_upd (λ _, power_state_zero) ;;;
  pw_upd (λ p, p <| current_mode := POWER_MODE_ACTIVE |>) ;;;
  pw_upd (λ p, p <| tickless_idle_enabled := false |>) ;;;
  pw_upd (λ p, p <| pw_config ::= λ c, c <| idle_mode_enabled := true |> |>) ;;;
  pw_upd (λ p, p <| pw_config ::= λ c, c <| sleep_mode_enabled := true |> |>) ;;;
  pw_upd (λ p, p <| pw_config ::= λ c, c <| deep_sleep_threshold_ms := 1000 |> |>).

Definition os_power_configure (config : option power_config_t) : M power_sys os_error_t :=
  match config with
  | None => ret OS_ERROR_INVALID_PARAM
  | Some config =>
      let! state := pw_enter in
      pw_upd (λ p, p <| pw_config := config |>) ;;;
      when (0 <? cpu_freq_hz config) (platform_set_clock_frequency (cpu_freq_hz config)) ;;;
      pw_exit state ;;;
      ret OS_OK
  end.

Definition os_power_set_mode (mode : Z) : M power_sys os_error_t :=
  if POWER_MODE_MAX <=? mode then ret OS_ERROR_INVALID_PARAM
  else
    let! critical_state := pw_enter in
    let! old_mode := gets (λ s, current_mode (power_state s)) in
    let! cb := gets (λ s, exit_callback (power_state s)) in
    when (negb (cb =? NULL)) (call_power cb old_mode) ;;;
    pw_upd (λ p, p <| current_mode := mode |>) ;;;
    let! cb := gets (λ s, enter_callback (power_state s)) in
    when (negb (cb =? NULL)) (call_power cb mode) ;;;
    pw_exit critical_state ;;;
    ret OS_OK.

Definition os_power_get_mode : M power_sys Z := gets (λ s, current_mode (power_state s)).

Definition os_power_enter_idle : M power_sys unit :=
  let! enabled := gets (λ s, idle_mode_enabled (pw_config (power_state s))) in
  if negb enabled then ret tt else platform_enter_sleep_mode.

(** [os_power_enter_sleep] and [os_power_enter_deep_sleep] differ in the mode and in the platform
    function. *)
Definition enter_sleep (mode : Z) (platform_enter : M power_sys unit) (duration_ms : Z) : M power_sys os_error_t :=
  if duration_ms =? 0 then ret OS_ERROR_INVALID_PARAM
  else
    let! enabled := gets (λ s, sleep_mode_enabled (pw_config (power_state s))) in
    if negb enabled then ret OS_ERROR_PERMISSION_DENIED
    else
      let! state := pw_enter in
      let! old_mode := gets (λ s, current_mode (power_state s)) in
      pw_upd (λ p, p <| current_mode := mode |>) ;;;
      pw_upd (λ p, p <| sleep_ticks := u32 (duration_ms * TICK_RATE_HZ) / 1000 |>) ;;;
      pw_exit state ;;;
      platform_enter ;;;
      let! state := pw_enter in
      pw_upd (λ p, p <| current_mode := old_mode |>) ;;;
      pw_upd (λ p, p <| total_sleep_time_ms ::= λ t, u32 (t + duration_ms) |>) ;;;
      pw_exit state ;;;
      ret OS_OK.
Definition os_power_enter_sleep : Z → M power_sys os_error_t := enter_sleep POWER_MODE_SLEEP platform_enter_sleep_mode.
Definition os_power_enter_deep_sleep : Z → M power_sys os_error_t := enter_sleep POWER_MODE_DEEP_SLEEP platform_enter_deep_sleep_mode.

Definition os_power_enable_tickless_idle (enable : bool) : M power_sys os_error_t :=
  let! state := pw_enter in
  pw_upd (λ p, p <| tickless_idle_enabled := enable |>) ;;;
  pw_exit state ;;;
  ret OS_OK.
Definition os_power_is_tickless_idle_enabled : M power_sys bool := gets (λ s, tickless_idle_enabled (power_state s)).

Definition os_power_register_callback (enter exit : ptr) : M power_sys os_error_t :=
  let! state := pw_enter in
  pw_upd (λ p, p <| enter_callback := enter |>) ;;;
  pw_upd (λ p, p <| exit_callback := exit |>) ;;;
  pw_exit state ;;;
  ret OS_OK.

Definition os_power_configure_wakeup (source : Z) (enable : bool) : M power_sys os_error_t :=
  if WAKEUP_SOURCE_MAX <=? source then ret OS_ERROR_INVALID_PARAM
  else
    let! state := pw_enter in
    (if enable then
       pw_upd (λ p, p <| wakeup_sources ::= λ w, Z.lor w (Z.shiftl 1 source) |>) ;;;
       platform_enable_wakeup_source source
     else
       pw_upd (λ p, p <| wakeup_sources ::= λ w, Z.land w (lnot32 (Z.shiftl 1 source)) |>) ;;;
       platform_disable_wakeup_source source) ;;;
    pw_exit state ;;;
    ret OS_OK.

(** [*stats] afterwards, [None] for a null pointer. *)
Definition os_power_get_stats (stats : option power_stats_t) : M power_sys (option power_stats_t) :=
  match stats with
  | None => ret None
  | Some _ =>
      let! state := pw_enter in
      let! p := gets power_state in
      let! uptime := gets (λ s, os_get_uptime_ms (pw_kernel s)) in
      let! power_consumption_mw := platform_get_power_consumption_mw in
      let! c := gets (λ s, pw_config (power_state s)) in
      let hours :=
        if 0 <? battery_capacity_mah c then
          let battery_mwh := u32 (battery_capacity_mah c * battery_voltage_mv c) / 1000 in
          if 0 <? power_consumption_mw then battery_mwh / power_consumption_mw else 0xFFFFFFFF
        else 0 in
      pw_exit state ;;;
      ret (Some (PowerStats (current_mode p) (total_sleep_time_ms p) (u32 (uptime - total_sleep_time_ms p)) (wakeup_sources p)
        power_consumption_mw hours))
  end.

Definition os_power_set_cpu_frequency (freq_hz : Z) : M power_sys os_error_t :=
  if freq_hz =? 0 then ret OS_ERROR_INVALID_PARAM
  else
    let! state := pw_enter in
    pw_upd (λ p, p <| pw_config ::= λ c, c <| cpu_freq_hz := freq_hz |> |>) ;;;
    platform_set_clock_frequency freq_hz ;;;
    pw_exit state ;;;
    ret OS_OK.

Definition os_power_get_consumption_mw : M power_sys Z := platform_get_power_consumption_mw.

Definition os_power_estimate_battery_life_hours : M power_sys Z :=
  let! c := gets (λ s, pw_config (power_state s)) in
  if battery_capacity_mah c =? 0 then ret 0
  else
    let! power_mw := platform_get_power_consumption_mw in
    if power_mw =? 0 then ret 0xFFFFFFFF
    else
      let! c := gets (λ s, pw_config (power_state s)) in
      let battery_mwh := u32 (battery_capacity_mah c * battery_voltage_mv c) / 1000 in
      ret (battery_mwh / power_mw).
End power.
