(* ===== verification/PowerTheorems.v ===== *)
(** PowerTheorems: sleeping, the set of wakeup sources and the statistics of the power management. *)
From Stdlib Require Import ZArith Lia.
From stdpp Require Import base numbers list gmap.
From S2P Require Import Prelude Types Kernel KernelApi Power.

(** What the board does: no platform function changes [power_state] or the interrupt mask, and the
    power consumption is [mw], a function of the state. *)
Class PowerLaws `{PP : !PowerPlatform} (mw : power_state_t → Z) := {
  pl_sleep s : wp platform_enter_sleep_mode (λ _ s', power_state s' = power_state s ∧ primask (kget s') = primask (kget s)) s;
  pl_deep_sleep s : wp platform_enter_deep_sleep_mode (λ _ s', power_state s' = power_state s ∧ primask (kget s') = primask (kget s)) s;
  pl_enable i s : wp (platform_enable_wakeup_source i) (λ _ s', power_state s' = power_state s ∧ primask (kget s') = primask (kget s)) s;
  pl_disable i s : wp (platform_disable_wakeup_source i) (λ _ s', power_state s' = power_state s ∧ primask (kget s') = primask (kget s)) s;
  pl_clock f s : wp (platform_set_clock_frequency f) (λ _ s', power_state s' = power_state s ∧ primask (kget s') = primask (kget s)) s;
  pl_consumption s : wp platform_get_power_consumption_mw (λ r s', r = mw (power_state s) ∧ s' = s) s;
  pl_mw p : 0 ≤ mw p
}.

Section power.
Context `{!PowerPlatform} {mw : power_state_t → Z} `{!PowerLaws mw}.
Implicit Types s : power_sys.

Lemma wp_pw_enter Q s : wp pw_enter Q s = Q (primask (kget s)) (kput (kget s <| primask := 1 |>) s).
Proof. reflexivity. Qed.
Lemma wp_pw_exit x Q s : wp (pw_exit x) Q s = Q tt (kput (kget s <| primask := x |>) s).
Proof. reflexivity. Qed.
Lemma wp_pw_upd f Q s : wp (pw_upd f) Q s = Q tt (s <| power_state ::= f |>).
Proof. reflexivity. Qed.

(** ** Sleeping *)
(** [p] after a sleep of [d] milliseconds. *)
Definition slept (d : Z) (p : power_state_t) : power_state_t :=
  p <| sleep_ticks := u32 (d * TICK_RATE_HZ) / 1000 |> <| total_sleep_time_ms := u32 (total_sleep_time_ms p + d) |>.

Lemma enter_sleep_ok mode enter d s :
  (∀ s, wp enter (λ _ s', power_state s' = power_state s ∧ primask (kget s') = primask (kget s)) s) →
  wp (enter_sleep mode enter d) (λ r s', primask (kget s') = primask (kget s) ∧
    if d =? 0 then r = OS_ERROR_INVALID_PARAM ∧ s' = s
    else if sleep_mode_enabled (pw_config (power_state s)) then r = OS_OK ∧ power_state s' = slept d (power_state s)
    else r = OS_ERROR_PERMISSION_DENIED ∧ s' = s) s.
Proof.
  intros Henter. unfold enter_sleep. destruct (d =? 0); [by rewrite wp_ret|]. rewrite wp_bind, wp_gets.
  destruct (sleep_mode_enabled _); cbn [negb]; [|by rewrite wp_ret].
  rewrite wp_bind, wp_pw_enter, wp_bind, wp_gets, wp_bind, wp_pw_upd, wp_bind, wp_pw_upd, wp_bind, wp_pw_exit, wp_bind.
  eapply wp_mono; [apply Henter|]. intros [] [k' p'] [Hp Hk].
  rewrite wp_bind, wp_pw_enter, wp_bind, wp_pw_upd, wp_bind, wp_pw_upd, wp_bind, wp_pw_exit, wp_ret.
  assert (p' = power_state s <| current_mode := mode |> <| sleep_ticks := u32 (d * TICK_RATE_HZ) / 1000 |>) as -> by exact Hp.
  clear Hp. split; [exact Hk|]. split; [done|]. unfold slept. by destruct s as [k []].
Qed.

(** [os_power_enter_sleep] and [os_power_enter_deep_sleep]: a duration of 0 and a configuration that
    forbids sleeping are refused and change nothing; otherwise the call returns [OS_OK], the mode is
    the one before the call, the requested duration is added to the total sleep time (in 32 bits),
    and the tick count of the sleep is the duration if it is below 4294968 ms. Interrupts are as
    before in every case. *)
Theorem power_sleep_returns d s : 0 ≤ d < 2 ^ 32 →
  let sleep_result := λ r s', primask (kget s') = primask (kget s) ∧
    if d =? 0 then r = OS_ERROR_INVALID_PARAM ∧ s' = s
    else if sleep_mode_enabled (pw_config (power_state s)) then
      r = OS_OK ∧ current_mode (power_state s') = current_mode (power_state s) ∧
      total_sleep_time_ms (power_state s') = u32 (total_sleep_time_ms (power_state s) + d) ∧
      (d < 4294968 → sleep_ticks (power_state s') = d) ∧ pw_config (power_state s') = pw_config (power_state s) ∧
      wakeup_sources (power_state s') = wakeup_sources (power_state s)
    else r = OS_ERROR_PERMISSION_DENIED ∧ s' = s in
  wp (os_power_enter_sleep d) sleep_result s ∧ wp (os_power_enter_deep_sleep d) sleep_result s.
Proof.
  intros Hd sleep_result. assert (∀ (m : M power_sys os_error_t),
    wp m (λ r s', primask (kget s') = primask (kget s) ∧
      if d =? 0 then r = OS_ERROR_INVALID_PARAM ∧ s' = s
      else if sleep_mode_enabled (pw_config (power_state s)) then r = OS_OK ∧ power_state s' = slept d (power_state s)
      else r = OS_ERROR_PERMISSION_DENIED ∧ s' = s) s → wp m sleep_result s) as Hm.
  { intros m Hw. eapply wp_mono; [exact Hw|]. intros r s' [Hk Hr]. split; [done|]. destruct (d =? 0); [done|].
    destruct (sleep_mode_enabled _); [|done]. destruct Hr as [-> ->]. repeat (split; [done|]). split; [|done].
    intros Hsmall. cbn. unfold TICK_RATE_HZ. rewrite u32_small by lia. apply Z.div_mul. lia. }
  split; apply Hm; [exact (enter_sleep_ok _ _ d s pl_sleep)|exact (enter_sleep_ok _ _ d s pl_deep_sleep)].
Qed.

(** ** Wakeup sources *)
(** The sources enabled by a sequence of calls. *)
Definition wakeup_set (calls : list (Z * bool)) (w : gset Z) : gset Z :=
  foldl (λ w c, if WAKEUP_SOURCE_MAX <=? c.1 then w else if c.2 : bool then w ∪ {[c.1]} else w ∖ {[c.1]}) w calls.
Fixpoint configure_all (calls : list (Z * bool)) : M power_sys unit :=
  match calls with
  | [] => ret tt
  | c :: calls => let! _ := os_power_configure_wakeup c.1 c.2 in configure_all calls
  end.
(** The bitmap of the state is the set. *)
Definition wakeup_refines (w : gset Z) (p : power_state_t) : Prop :=
  0 ≤ wakeup_sources p < 2 ^ 32 ∧ ∀ i, 0 ≤ i → Z.testbit (wakeup_sources p) i = bool_decide (i ∈ w).

Lemma configure_wakeup_ok source enable w s : 0 ≤ source → wakeup_refines w (power_state s) →
  wp (os_power_configure_wakeup source enable) (λ r s', primask (kget s') = primask (kget s) ∧
    r = (if WAKEUP_SOURCE_MAX <=? source then OS_ERROR_INVALID_PARAM else OS_OK) ∧
    wakeup_refines (wakeup_set [(source, enable)] w) (power_state s')) s.
Proof.
  intros Hsrc [Hr Hb]. unfold os_power_configure_wakeup, wakeup_set. cbn [foldl fst snd]. unfold WAKEUP_SOURCE_MAX.
  destruct (Z.leb_spec 8 source); [by rewrite wp_ret|]. rewrite wp_bind, wp_pw_enter, wp_bind. destruct s as [k p].
  assert (∀ i, 0 ≤ i → Z.testbit (Z.shiftl 1 source) i = bool_decide (i = source)) as Hone.
  { intros i Hi. rewrite Z.shiftl_1_l. case_bool_decide as Ei; [subst; by rewrite Z.pow2_bits_true|by rewrite Z.pow2_bits_false]. }
  destruct enable; rewrite wp_bind, wp_pw_upd.
  - eapply wp_mono; [apply pl_enable|]. intros [] [k' p'] [Hp Hk]. cbn in Hp. subst p'. rewrite wp_bind, wp_pw_exit, wp_ret.
    split; [done|]. split; [done|]. split.
    + apply (lor_range 32); [done|done|]. rewrite Z.shiftl_1_l. split; [lia|apply Z.pow_lt_mono_r; lia].
    + intros i Hi. change (Z.testbit (Z.lor (wakeup_sources p) (Z.shiftl 1 source)) i = bool_decide (i ∈ w ∪ {[source]})).
      rewrite Z.lor_spec, Hb, Hone by done. apply eq_bool_prop_intro. rewrite orb_True, !bool_decide_spec. set_solver.
  - eapply wp_mono; [apply pl_disable|]. intros [] [k' p'] [Hp Hk]. cbn in Hp. subst p'. rewrite wp_bind, wp_pw_exit, wp_ret.
    split; [done|]. split; [done|]. split.
    + by apply (land_range 32).
    + intros i Hi. change (Z.testbit (Z.land (wakeup_sources p) (lnot32 (Z.shiftl 1 source))) i = bool_decide (i ∈ w ∖ {[source]})).
      rewrite Z.land_spec, Hb by done. destruct (Z.ltb_spec i 32).
      * rewrite testbit_lnot32, Hone by lia. apply eq_bool_prop_intro. rewrite andb_True, negb_True, !bool_decide_spec. set_solver.
      * assert (bool_decide (i ∈ w) = false) as E by (rewrite <-Hb by done; apply (testbit_above 32); [lia|done|lia]). rewrite E.
        apply bool_decide_eq_false in E. cbn [andb]. symmetry. apply bool_decide_eq_false. set_solver.
Qed.

(** The bitmap of wakeup sources refines a set: after any sequence of calls of
    [os_power_configure_wakeup] it holds exactly the sources whose last call enabled them; sources
    that do not exist are refused and change nothing. *)
Theorem wakeup_sources_refine_set calls : ∀ w s, Forall (λ c, 0 ≤ c.1) calls → wakeup_refines w (power_state s) →
  wp (configure_all calls) (λ _ s', wakeup_refines (wakeup_set calls w) (power_state s') ∧ primask (kget s') = primask (kget s)) s.
Proof.
  induction calls as [|[source enable] calls IH]; intros w s Hc Hw; cbn [configure_all]; [by rewrite wp_ret|].
  apply Forall_cons in Hc as [Hsrc Hc]. rewrite wp_bind. cbn [fst snd] in *. eapply wp_mono; [by apply configure_wakeup_ok|].
  intros r s1 (Hk & _ & Hw1). eapply wp_mono; [by apply IH|]. intros [] s2 [Hw2 Hk2]. split; [exact Hw2|congruence].
Qed.

(** ** Statistics *)
(** The battery life: capacity times voltage in milliwatt hours over the consumption. *)
Definition life_hours (c : power_config_t) (consumption : Z) : Z :=
  if battery_capacity_mah c =? 0 then 0
  else if consumption =? 0 then 0xFFFFFFFF
  else battery_capacity_mah c * battery_voltage_mv c / 1000 / consumption.

Lemma life_hours_spec c n : 0 ≤ battery_capacity_mah c → 0 ≤ battery_capacity_mah c * battery_voltage_mv c < 2 ^ 32 → 0 ≤ n →
  (if 0 <? battery_capacity_mah c then
     if 0 <? n then u32 (battery_capacity_mah c * battery_voltage_mv c) / 1000 / n else 0xFFFFFFFF
   else 0) = life_hours c n.
Proof.
  intros Hc Hp Hn. unfold life_hours. rewrite u32_small by done.
  destruct (Z.ltb_spec 0 (battery_capacity_mah c)), (Z.eqb_spec (battery_capacity_mah c) 0); try lia.
  destruct (Z.ltb_spec 0 n), (Z.eqb_spec n 0); lia.
Qed.
Lemma estimate_ok s : 0 ≤ battery_capacity_mah (pw_config (power_state s)) * battery_voltage_mv (pw_config (power_state s)) < 2 ^ 32 →
  wp os_power_estimate_battery_life_hours (λ hours s', hours = life_hours (pw_config (power_state s)) (mw (power_state s)) ∧ s' = s) s.
Proof.
  intros Hp. unfold os_power_estimate_battery_life_hours, life_hours. rewrite wp_bind, wp_gets.
  destruct (battery_capacity_mah _ =? 0); [by rewrite wp_ret|]. rewrite wp_bind. eapply wp_mono; [apply pl_consumption|].
  intros n s1 [-> ->]. destruct (mw _ =? 0); [by rewrite wp_ret|]. rewrite wp_bind, wp_gets, wp_ret. by rewrite u32_small.
Qed.

(** The statistics: [os_power_get_stats] reports the state, and sleep and active time that add up
    to the uptime (in 32 bits); its battery life and that of [os_power_estimate_battery_life_hours]
    agree, and are the quotient of the energy and the consumption if the product of capacity and
    voltage fits 32 bits. Neither call changes the power state or the interrupt mask. *)
Theorem power_stats_agree old s : 0 ≤ battery_capacity_mah (pw_config (power_state s)) → 0 ≤ total_sleep_time_ms (power_state s) < 2 ^ 32 →
  0 ≤ battery_capacity_mah (pw_config (power_state s)) * battery_voltage_mv (pw_config (power_state s)) < 2 ^ 32 →
  wp (os_power_get_stats (Some old)) (λ r s', s' = s ∧ ∃ st, r = Some st ∧ ps_current_mode st = current_mode (power_state s) ∧
    ps_wakeup_sources st = wakeup_sources (power_state s) ∧
    u32 (ps_total_active_time_ms st + ps_total_sleep_time_ms st) = os_get_uptime_ms (kget s) ∧
    ps_estimated_battery_life_hours st = life_hours (pw_config (power_state s)) (mw (power_state s)) ∧
    wp os_power_estimate_battery_life_hours (λ hours s', hours = ps_estimated_battery_life_hours st ∧ s' = s) s) s.
Proof.
  intros Hcap Hsleep Hprod. pose proof (pl_mw (power_state s)) as Hmw. unfold os_power_get_stats. rewrite wp_bind, wp_pw_enter, wp_bind, wp_gets, wp_bind, wp_gets, wp_bind.
  destruct s as [k p]. cbn [power_state] in *. eapply wp_mono; [apply pl_consumption|]. intros n s1 [-> ->].
  rewrite wp_bind, wp_gets, wp_bind, wp_pw_exit, wp_ret. split; [by destruct k|].
  exists (PowerStats (current_mode p) (total_sleep_time_ms p) (u32 (os_get_uptime_ms k - total_sleep_time_ms p)) (wakeup_sources p)
    (mw p) (life_hours (pw_config p) (mw p))). split; [rewrite <-life_hours_spec by done; by destruct k|].
  split; [done|]. split; [done|]. split; [|split; [done|by apply estimate_ok]].
  cbn [ps_total_active_time_ms ps_total_sleep_time_ms kget power_view pw_kernel]. unfold os_get_uptime_ms, u32.
  rewrite Zplus_mod_idemp_l, Z.sub_add. apply Z.mod_mod. lia.
Qed.

(** ** Types *)
Definition is_u32 (v : Z) : Prop := 0 ≤ v < 2 ^ 32.
Definition config_typed (c : power_config_t) : Prop :=
  is_u32 (deep_sleep_threshold_ms c) ∧ is_u32 (cpu_freq_hz c) ∧ is_u32 (min_cpu_freq_hz c) ∧ is_u32 (max_cpu_freq_hz c) ∧
  is_u32 (battery_capacity_mah c) ∧ is_u32 (battery_voltage_mv c).
(** The mode is one of [power_mode_t], only sources of [wakeup_source_t] have a bit, and the other
    numbers have 32 bits. *)
Definition power_typed (p : power_state_t) : Prop :=
  0 ≤ current_mode p < POWER_MODE_MAX ∧ 0 ≤ wakeup_sources p < 2 ^ WAKEUP_SOURCE_MAX ∧ is_u32 (sleep_ticks p) ∧
  is_u32 (total_sleep_time_ms p) ∧ config_typed (pw_config p).

Inductive power_call :=
| Configure (c : option power_config_t) | SetMode (mode : Z) | GetMode | EnterIdle | EnterSleep (d : Z) | EnterDeepSleep (d : Z)
| Tickless (enable : bool) | RegisterCallback (enter exit : ptr) | ConfigureWakeup (source : Z) (enable : bool)
| GetStats (old : option power_stats_t) | SetFrequency (f : Z) | Consumption | BatteryLife.
Definition power_args (call : power_call) : Prop :=
  match call with
  | Configure (Some c) => config_typed c
  | SetMode v | EnterSleep v | EnterDeepSleep v | ConfigureWakeup v _ | SetFrequency v => is_u32 v
  | _ => True
  end.
(** The numbers that a call hands to the application. *)
Definition stats_numbers (st : power_stats_t) : list Z :=
  [ps_current_mode st; ps_total_sleep_time_ms st; ps_total_active_time_ms st; ps_wakeup_sources st; ps_power_consumption_mw st;
   ps_estimated_battery_life_hours st].

Section types.
Context (call_power : ptr → Z → M power_sys unit).
Hypothesis callback_typed : ∀ cb mode s, power_typed (power_state s) →
  wp (call_power cb mode) (λ _ s', power_typed (power_state s') ∧ primask (kget s') = primask (kget s)) s.
Hypothesis mw_typed : ∀ p, is_u32 (mw p).

Definition power_exec (call : power_call) : M power_sys (list Z) :=
  let quiet (m : M power_sys os_error_t) := let! _ := m in ret [] in
  match call with
  | Configure c => quiet (os_power_configure c)
  | SetMode mode => quiet (os_power_set_mode call_power mode)
  | GetMode => let! m := os_power_get_mode in ret [m]
  | EnterIdle => os_power_enter_idle ;;; ret []
  | EnterSleep d => quiet (os_power_enter_sleep d)
  | EnterDeepSleep d => quiet (os_power_enter_deep_sleep d)
  | Tickless b => quiet (os_power_enable_tickless_idle b)
  | RegisterCallback enter exit => quiet (os_power_register_callback enter exit)
  | ConfigureWakeup source enable => quiet (os_power_configure_wakeup source enable)
  | GetStats old => let! r := os_power_get_stats old in ret (match r with Some st => stats_numbers st | None => [] end)
  | SetFrequency f => quiet (os_power_set_cpu_frequency f)
  | Consumption => let! n := os_power_get_consumption_mw in ret [n]
  | BatteryLife => let! n := os_power_estimate_battery_life_hours in ret [n]
  end.
Fixpoint power_run (calls : list power_call) : M power_sys (list Z) :=
  match calls with
  | [] => ret []
  | call :: calls =>
      let! r := power_exec call in
      let! rs := power_run calls in
      ret (r ++ rs)
  end.

Lemma is_u32_mod v : is_u32 (u32 v).
Proof. apply u32_range. Qed.
Lemma u32_quotient v d : is_u32 v → 0 < d → is_u32 (v / d).
Proof. unfold is_u32. intros Hv Hd. split; [apply Z.div_pos; lia|]. apply Z.div_lt_upper_bound; nia. Qed.
Lemma hours_u32 c n : 0 ≤ n → is_u32 (if 0 <? battery_capacity_mah c then
    if 0 <? n then u32 (battery_capacity_mah c * battery_voltage_mv c) / 1000 / n else 0xFFFFFFFF else 0).
Proof.
  intros Hn. destruct (0 <? battery_capacity_mah c); [|unfold is_u32; lia]. destruct (Z.ltb_spec 0 n); [|unfold is_u32; lia].
  apply u32_quotient; [|done]. apply u32_quotient; [apply is_u32_mod|lia].
Qed.

(** What each call leaves: a typed state and the interrupt mask of its caller, and typed results. *)
Definition typed_after (k : Z) (r : list Z) s : Prop := power_typed (power_state s) ∧ primask (kget s) = k ∧ Forall is_u32 r.

Lemma set_mode_typed mode s : power_typed (power_state s) → is_u32 mode →
  wp (power_exec (SetMode mode)) (typed_after (primask (kget s))) s.
Proof.
  intros Hs Hm. cbn [power_exec]. rewrite wp_bind. unfold os_power_set_mode, POWER_MODE_MAX.
  destruct (Z.leb_spec 4 mode); [by rewrite !wp_ret|].
  assert (∀ cb v s1, power_typed (power_state s1) → primask (kget s1) = 1 →
    wp (when (negb (cb =? NULL)) (call_power cb v)) (λ _ s', power_typed (power_state s') ∧ primask (kget s') = 1) s1) as Hcb.
  { intros cb v s1 H1 Hk. rewrite wp_when. destruct (negb _); [|done]. eapply wp_mono; [by apply callback_typed|].
    intros [] s2 [? E]. by rewrite E. }
  rewrite wp_bind, wp_pw_enter, wp_bind, wp_gets, wp_bind, wp_gets, wp_bind. eapply wp_mono; [by apply Hcb|].
  intros [] s1 [H1 Hk1]. rewrite wp_bind, wp_pw_upd, wp_bind, wp_gets, wp_bind. eapply wp_mono; [apply Hcb|].
  - destruct H1 as (_ & ? & ? & ? & ?). split; [unfold is_u32, POWER_MODE_MAX in *; cbn; lia|done].
  - done.
  - intros [] s2 [H2 _]. rewrite wp_bind, wp_pw_exit, !wp_ret. by split.
Qed.

Lemma sleep_typed mode enter d s :
  (∀ s, wp enter (λ _ s', power_state s' = power_state s ∧ primask (kget s') = primask (kget s)) s) →
  power_typed (power_state s) →
  wp (let! _ := enter_sleep mode enter d in ret []) (typed_after (primask (kget s))) s.
Proof.
  intros He Hs. rewrite wp_bind. eapply wp_mono; [by apply enter_sleep_ok|]. intros r s' [Hk Hr]. rewrite wp_ret.
  destruct (d =? 0); [by destruct Hr as [_ ->]|]. destruct (sleep_mode_enabled _); [|by destruct Hr as [_ ->]].
  destruct Hr as [_ Hp]. split; [|done]. rewrite Hp. destruct Hs as (? & ? & _ & _ & ?). split; [done|]. split; [done|].
  split; [apply u32_quotient; [apply is_u32_mod|lia]|]. split; [apply is_u32_mod|done].
Qed.

Lemma wakeup_typed source enable s : power_typed (power_state s) → is_u32 source →
  wp (power_exec (ConfigureWakeup source enable)) (typed_after (primask (kget s))) s.
Proof.
  intros Hs Hv. cbn [power_exec]. rewrite wp_bind. unfold os_power_configure_wakeup.
  destruct (Z.leb_spec WAKEUP_SOURCE_MAX source); [by rewrite !wp_ret|]. rewrite wp_bind, wp_pw_enter, wp_bind.
  assert (∀ w, 0 ≤ w < 2 ^ WAKEUP_SOURCE_MAX → power_typed (power_state s <| wakeup_sources := w |>)) as Hset
    by (destruct Hs as (? & _ & ?); by intros w Hw).
  pose proof Hs as (_ & Hw & _). unfold WAKEUP_SOURCE_MAX, is_u32 in *. destruct s as [k p].
  destruct enable; rewrite wp_bind, wp_pw_upd; (eapply wp_mono; [apply pl_enable || apply pl_disable|]);
    intros [] [k' p'] [Hp Hk]; cbn in Hp; subst p'; rewrite wp_bind, wp_pw_exit, !wp_ret; (split; [|done]).
  - apply (Hset (Z.lor (wakeup_sources p) (Z.shiftl 1 source))). apply (lor_range 8); [done|done|].
    rewrite Z.shiftl_1_l. split; [lia|apply Z.pow_lt_mono_r; lia].
  - apply (Hset (Z.land (wakeup_sources p) (lnot32 (Z.shiftl 1 source)))). by apply (land_range 8).
Qed.

Lemma stats_typed old s : power_typed (power_state s) → wp (power_exec (GetStats old)) (typed_after (primask (kget s))) s.
Proof.
  intros Hs. cbn [power_exec]. rewrite wp_bind. unfold os_power_get_stats. destruct old as [st|]; [|by rewrite !wp_ret].
  rewrite wp_bind, wp_pw_enter, wp_bind, wp_gets, wp_bind, wp_gets, wp_bind. destruct s as [k p].
  eapply wp_mono; [apply pl_consumption|]. intros n s1 [-> ->]. rewrite wp_bind, wp_gets, wp_bind, wp_pw_exit, !wp_ret.
  split; [done|]. split; [done|]. pose proof Hs as (Hm & Hw & _ & Ht & _). pose proof (mw_typed p) as Hmw.
  assert (is_u32 (current_mode p)) as Hm' by (unfold POWER_MODE_MAX in Hm; cbn [power_state] in Hm; unfold is_u32; lia).
  assert (is_u32 (wakeup_sources p)) as Hw' by (unfold WAKEUP_SOURCE_MAX in Hw; cbn [power_state] in Hw; unfold is_u32; lia).
  unfold stats_numbers. rewrite !Forall_cons. split; [exact Hm'|]. split; [exact Ht|]. split; [apply is_u32_mod|].
  split; [exact Hw'|]. split; [exact Hmw|]. split; [apply hours_u32, Hmw|done].
Qed.

Lemma power_exec_typed call s : power_typed (power_state s) → power_args call →
  wp (power_exec call) (typed_after (primask (kget s))) s.
Proof.
  intros Hs Ha. destruct call; [..|].
  - cbn [power_exec]. rewrite wp_bind. destruct c as [c|]; cbn [os_power_configure]; [|by rewrite !wp_ret].
    rewrite wp_bind, wp_pw_enter, wp_bind, wp_pw_upd, wp_bind, wp_when. destruct s as [k p], Hs as (? & ? & ? & ? & _).
    destruct (_ <? _); [|by rewrite wp_bind, wp_pw_exit, !wp_ret]. eapply wp_mono; [apply pl_clock|].
    intros [] [k' p'] [Hp _]. cbn in Hp. subst p'. by rewrite wp_bind, wp_pw_exit, !wp_ret.
  - by apply set_mode_typed.
  - cbn [power_exec]. unfold os_power_get_mode. rewrite wp_bind, wp_gets, wp_ret. split; [done|]. split; [done|].
    destruct Hs as (Hm & _). repeat constructor; unfold POWER_MODE_MAX in Hm; lia.
  - cbn [power_exec]. unfold os_power_enter_idle. rewrite wp_bind, wp_bind, wp_gets. destruct (negb _); [by rewrite !wp_ret|].
    eapply wp_mono; [apply pl_sleep|]. intros [] s' [Hp Hk]. rewrite wp_ret. by split; [rewrite Hp|].
  - exact (sleep_typed _ _ d s pl_sleep Hs).
  - exact (sleep_typed _ _ d s pl_deep_sleep Hs).
  - cbn [power_exec]. unfold os_power_enable_tickless_idle.
    by rewrite wp_bind, wp_bind, wp_pw_enter, wp_bind, wp_pw_upd, wp_bind, wp_pw_exit, !wp_ret.
  - cbn [power_exec]. unfold os_power_register_callback.
    by rewrite wp_bind, wp_bind, wp_pw_enter, wp_bind, wp_pw_upd, wp_bind, wp_pw_upd, wp_bind, wp_pw_exit, !wp_ret.
  - by apply wakeup_typed.
  - by apply stats_typed.
  - cbn [power_exec]. unfold os_power_set_cpu_frequency. rewrite wp_bind. destruct (_ =? 0); [by rewrite !wp_ret|].
    rewrite wp_bind, wp_pw_enter, wp_bind, wp_pw_upd, wp_bind. destruct s as [k p], Hs as (? & ? & ? & ? & ? & ? & ?).
    eapply wp_mono; [apply pl_clock|]. intros [] [k' p'] [Hp _]. cbn in Hp. subst p'. by rewrite wp_bind, wp_pw_exit, !wp_ret.
  - cbn [power_exec]. unfold os_power_get_consumption_mw. rewrite wp_bind. eapply wp_mono; [apply pl_consumption|].
    intros n s' [-> ->]. rewrite wp_ret. split; [done|]. split; [done|]. by repeat constructor; apply mw_typed.
  - cbn [power_exec]. unfold os_power_estimate_battery_life_hours. rewrite wp_bind, wp_bind, wp_gets.
    destruct (_ =? 0); [rewrite !wp_ret; split; [done|]; split; [done|]; by repeat constructor|]. rewrite wp_bind.
    eapply wp_mono; [apply pl_consumption|]. intros n s' [-> ->]. pose proof (mw_typed (power_state s)) as Hmw.
    destruct (Z.eqb_spec (mw (power_state s)) 0); [rewrite !wp_ret; split; [done|]; split; [done|]; by repeat constructor|].
    rewrite wp_bind, wp_gets, !wp_ret. split; [done|]. split; [done|]. constructor; [|done].
    apply u32_quotient; [|unfold is_u32 in Hmw; lia]. apply u32_quotient; [apply is_u32_mod|lia].
Qed.

(** C39. The power management keeps its types: after [os_power_init] and any sequence of calls of its
    functions with arguments of their C types, the mode is one of the four modes, no bit of
    [wakeup_sources] is set but those of the eight sources, all numbers of the state have 32 bits, the
    interrupt mask is what it was, and every number that a call returned (the mode, the statistics, the
    consumption, the battery life) has 32 bits, provided the callbacks keep this. *)
Theorem power_types calls s : Forall power_args calls →
  wp (os_power_init ;;; power_run calls) (typed_after (primask (kget s))) s.
Proof.
  intros Hc. unfold os_power_init. rewrite !wp_bind, !wp_pw_upd, wp_bind, wp_pw_upd. repeat rewrite ?wp_bind, ?wp_pw_upd.
  match goal with |- wp _ _ ?s1 => set (s0 := s1) end.
  assert (power_typed (power_state s0)) as H0 by (by repeat split).
  assert (primask (kget s) = primask (kget s0)) as -> by done. clearbody s0. clear s.
  revert s0 H0. induction Hc as [|call calls Ha _ IH]; intros s Hs; cbn [power_run]; [rewrite wp_ret; by split|].
  rewrite wp_bind. eapply wp_mono; [by apply power_exec_typed|]. intros r s1 (H1 & Hk1 & Hr). rewrite wp_bind.
  eapply wp_mono; [by apply IH|]. intros rs s2 (H2 & Hk2 & Hrs). rewrite wp_ret. split; [done|]. split; [congruence|].
  by apply Forall_app.
Qed.
End types.
End power.

(** * The default platform *)

(** [wfi] when an interrupt is pending already. *)
Definition wfi_pending : M power_sys unit := ret tt.
Definition board : PowerPlatform := weak_platform wfi_pending.
Lemma weak_laws wfi :
  (∀ s, wp wfi (λ _ s', power_state s' = power_state s ∧ primask (kget s') = primask (kget s)) s) →
  PowerLaws (PP := weak_platform wfi) (λ p, default_power_mw (current_mode p)).
Proof.
  intros Hwfi. split; cbn [weak_platform platform_enter_sleep_mode platform_enter_deep_sleep_mode platform_enable_wakeup_source
    platform_disable_wakeup_source platform_set_clock_frequency platform_get_power_consumption_mw].
  - exact Hwfi.
  - exact Hwfi.
  - intros i s. by rewrite wp_ret.
  - intros i s. by rewrite wp_ret.
  - intros f s. by rewrite wp_ret.
  - intros s. by rewrite wp_gets.
  - intros p. unfold default_power_mw. repeat case_match; lia.
Qed.
Lemma board_laws : PowerLaws (PP := board) (λ p, default_power_mw (current_mode p)).
Proof. apply weak_laws. intros s. unfold wfi_pending. by rewrite wp_ret. Qed.

(** 100 ms after the start, with a battery of 2000 mAh at 3700 mV. *)
Definition awake : power_sys :=
  PowerSys (Kernel NULL [] [] 0 100 0 false ∅ 0)
    (power_state_zero <| pw_config := PowerConfig true true 1000 0 0 0 2000 3700 |>).

Lemma power_sleep_returns_witness :
  let _ := board in
  wp (os_power_enter_sleep 5000) (λ r s', r = OS_OK ∧ current_mode (power_state s') = POWER_MODE_ACTIVE ∧ sleep_ticks (power_state s') = 5000) awake.
Proof.
  eapply wp_mono; [apply (proj1 (power_sleep_returns (PowerLaws0 := board_laws) 5000 awake ltac:(lia)))|].
  intros r s' [_ (-> & -> & _ & H & _)]. split; [done|]. split; [done|]. by apply H.
Defined.
Lemma wakeup_sources_refine_set_witness :
  let _ := board in
  wp (configure_all [(1, true); (3, true); (1, false); (9, true)]) (λ _ s', wakeup_refines {[3]} (power_state s')) awake.
Proof.
  eapply wp_mono; [apply (wakeup_sources_refine_set (PowerLaws0 := board_laws) [(1, true); (3, true); (1, false); (9, true)] ∅);
    [repeat constructor; cbn; lia|split; [done|intros i _; by rewrite Z.testbit_0_l]]|].
  intros _ s' [H _]. assert (wakeup_set [(1, true); (3, true); (1, false); (9, true)] ∅ = {[3]}) as E by (vm_compute; reflexivity).
  by rewrite E in H.
Defined.
Lemma power_stats_agree_witness :
  let _ := board in
  wp (os_power_get_stats (Some (PowerStats 0 0 0 0 0 0))) (λ r _, ps_estimated_battery_life_hours <$> r = Some 148) awake.
Proof.
  eapply wp_mono; [apply (power_stats_agree (PowerLaws0 := board_laws) (PowerStats 0 0 0 0 0 0) awake); cbn; lia|].
  intros r s' (_ & st & -> & _ & _ & _ & H & _). by rewrite fmap_Some_2 with (x := st), H.
Defined.

Definition some_power_calls : list power_call :=
  [Configure (Some (PowerConfig true true 1000 48000000 0 0 2000 3700)); SetMode 2; ConfigureWakeup 7 true; ConfigureWakeup 31 true;
   EnterSleep (2 ^ 32 - 1); SetMode 9; GetStats (Some (PowerStats 0 0 0 0 0 0)); BatteryLife].
Lemma power_types_witness :
  let _ := board in
  wp (os_power_init ;;; power_run (λ _ _, ret tt) some_power_calls)
    (λ r s', power_typed (power_state s') ∧ primask (kget s') = 0 ∧ Forall is_u32 r) awake.
Proof.
  apply (power_types (PowerLaws0 := board_laws) (λ _ _, ret tt)).
  - intros cb mode s Hs. by rewrite wp_ret.
  - intros p. unfold default_power_mw, is_u32. repeat case_match; lia.
  - repeat constructor; cbn; lia.
Defined.

Definition sleep_then_stats (d : Z) : M power_sys (option power_stats_t * Z) :=
  let! _ := os_power_enter_sleep (PP := board) d in
  let! st := os_power_get_stats (PP := board) (Some (PowerStats 0 0 0 0 0 0)) in
  let! t := gets (λ s, sleep_ticks (power_state s)) in
  ret (st, t).
(** The duration of a sleep is counted as requested, whatever the time that passes: woken at once from a
    sleep of five seconds, the system reports an active time of almost 2 to the 32nd milliseconds. And
    the number of ticks of a sleep of 4294968 ms or more overflows. *)
Lemma sleep_accounting :
  match sleep_then_stats 5000 awake with
  | Ret (Some st, _) _ => ps_total_sleep_time_ms st = 5000 ∧ ps_total_active_time_ms st = 2 ^ 32 - 4900
  | _ => False
  end ∧
  match sleep_then_stats 4294968 awake with Ret (_, t) _ => t = 0 | _ => False end.
Proof. repeat split. Qed.
