(* ===== verification/Security.v ===== *)
(** Security: the memory protection of [src/security.c].

    The state is the memory protection unit: its control register, the region number register and,
    for each of the eight regions, the base address and the attributes register; a write to
    [MPU_RBAR] or [MPU_RASR] goes to the region that [MPU_RNR] selects. What the unit allows
    ([unprivileged]) is the behaviour that the ARMv7-M architecture documents for these registers. *)
From Stdlib Require Import ZArith Lia.
From stdpp Require Import base numbers list.
From S2P Require Import Prelude Types.

(** * Registers *)
Definition MPU_CTRL_ENABLE : Z := Z.shiftl 1 0.
Definition MPU_CTRL_PRIVDEFENA : Z := Z.shiftl 1 2.
Definition MPU_RASR_ENABLE : Z := Z.shiftl 1 0.
Definition MPU_RASR_SIZE (n : Z) : Z := Z.shiftl (n - 1) 1.
Definition MPU_RASR_AP_NO_ACCESS : Z := Z.shiftl 0 24.
Definition MPU_RASR_AP_RW_ALL : Z := Z.shiftl 3 24.
Definition MPU_RASR_AP_RO_ALL : Z := Z.shiftl 6 24.
Definition PERM_READ : Z := Z.shiftl 1 0.
Definition PERM_WRITE : Z := Z.shiftl 1 1.
Definition PERM_EXEC : Z := Z.shiftl 1 2.

Record memory_region_t := MemoryRegion { start_addr : Z; rg_size : Z; permissions : Z }.
Record mpu_t := Mpu { mpu_ctrl : Z; mpu_rnr : Z; mpu_rbar : list Z; mpu_rasr : list Z }.
#[export] Instance mpu_eta : Eta mpu_t := λ m, Mpu (mpu_ctrl m) (mpu_rnr m) (mpu_rbar m) (mpu_rasr m).

(** * Operations *)
Definition os_mpu_enable (enable : bool) : M mpu_t unit :=
  modify (λ m, m <| mpu_ctrl := if enable then Z.lor MPU_CTRL_ENABLE MPU_CTRL_PRIVDEFENA else 0 |>).

(** [while (size_bits < 32 && (1U << size_bits) < size) size_bits++], with [n = 32 - size_bits]. *)
Fixpoint size_bits_from (n : nat) (size_bits size : Z) : Z :=
  match n with
  | O => size_bits
  | S n => if Z.shiftl 1 size_bits <? size then size_bits_from n (size_bits + 1) size else size_bits
  end.
Definition size_bits (size : Z) : Z := size_bits_from 32 0 size.

Definition ap_bits (permissions : Z) : Z :=
  if permissions =? 0 then MPU_RASR_AP_NO_ACCESS
  else if negb (Z.land permissions PERM_WRITE =? 0) then MPU_RASR_AP_RW_ALL
  else if negb (Z.land permissions PERM_READ =? 0) then MPU_RASR_AP_RO_ALL
  else MPU_RASR_AP_NO_ACCESS.

(** [MPU_RBAR = v] and [MPU_RASR = v] *)
Definition write_rbar (v : Z) : M mpu_t unit := modify (λ m, m <| mpu_rbar ::= <[Z.to_nat (mpu_rnr m) := v]> |>).
Definition write_rasr (v : Z) : M mpu_t unit := modify (λ m, m <| mpu_rasr ::= <[Z.to_nat (mpu_rnr m) := v]> |>).

Definition os_mpu_set_region (region_id : Z) (region : option memory_region_t) : M mpu_t os_error_t :=
  match region with
  | None => ret OS_ERROR_INVALID_PARAM
  | Some region =>
      if 8 <=? region_id then ret OS_ERROR_INVALID_PARAM
      else
        let addr := u32 (start_addr region) in
        if negb (Z.land addr 0x1F =? 0) then ret OS_ERROR_INVALID_PARAM
        else
          let bits := size_bits (rg_size region) in
          if (bits <? 5) || (31 <? bits) then ret OS_ERROR_INVALID_PARAM
          else
            modify (λ m, m <| mpu_rnr := region_id |>) ;;;
            write_rbar addr ;;;
            write_rasr (Z.lor (Z.lor MPU_RASR_ENABLE (MPU_RASR_SIZE bits)) (ap_bits (permissions region))) ;;;
            ret OS_OK
  end.

Definition os_mpu_configure_default : M mpu_t unit :=
  let! _ := os_mpu_set_region 0 (Some (MemoryRegion 0x00000000 (256 * 1024) (Z.lor PERM_READ PERM_EXEC))) in
  let! _ := os_mpu_set_region 1 (Some (MemoryRegion 0x20000000 (64 * 1024) (Z.lor PERM_READ PERM_WRITE))) in
  let! _ := os_mpu_set_region 2 (Some (MemoryRegion 0x40000000 (512 * 1024 * 1024) (Z.lor PERM_READ PERM_WRITE))) in
  os_mpu_enable true.

Definition os_check_memory_access (addr size permission : Z) : bool := true.
(** The handler halts the system. *)
Definition os_mpu_fault_handler {S} : M S unit := nofuel.
Definition os_verify_boot_integrity : bool := true.
Definition os_security_init : M mpu_t unit :=
  if negb os_verify_boot_integrity then nofuel else os_mpu_configure_default.

(** * What the unit allows (ARMv7-M) *)
Definition field_of (lo n v : Z) : Z := Z.shiftr v lo mod 2 ^ n.
(** The size of a region in bits, its first address, its access permission and whether code in it is
    executable. *)
Definition region_bits (rasr : Z) : Z := field_of 1 5 rasr + 1.
Definition region_base (rbar rasr : Z) : Z := rbar / 2 ^ region_bits rasr * 2 ^ region_bits rasr.
Definition region_covers (rbar rasr a : Z) : bool :=
  Z.testbit rasr 0 && (region_base rbar rasr <=? a) && (a <? region_base rbar rasr + 2 ^ region_bits rasr).
Definition ap_of (rasr : Z) : Z := field_of 24 3 rasr.
Definition executable (rasr : Z) : bool := negb (Z.testbit rasr 28).
Inductive access := Read | Write | Fetch.
Definition ap_allows (rasr : Z) (x : access) : bool :=
  match x with
  | Read => (ap_of rasr =? 2) || (ap_of rasr =? 3) || (ap_of rasr =? 6) || (ap_of rasr =? 7)
  | Write => ap_of rasr =? 3
  | Fetch => ((ap_of rasr =? 2) || (ap_of rasr =? 3) || (ap_of rasr =? 6) || (ap_of rasr =? 7)) && executable rasr
  end.
(** An access by unprivileged code: the region with the highest number that covers the address decides,
    and without one there is no access. *)
Definition unprivileged (m : mpu_t) (a : Z) (x : access) : bool :=
  if negb (Z.testbit (mpu_ctrl m) 0) then true
  else
    match last (filter (λ r : Z * Z, region_covers r.1 r.2 a = true) (zip (mpu_rbar m) (mpu_rasr m))) with
    | Some r => ap_allows r.2 x
    | None => false
    end.

(** * Theorems *)
Lemma size_bits_from_spec size n : ∀ b, 0 ≤ b → (b = 0 ∨ 2 ^ (b - 1) < size) →
  b ≤ size_bits_from n b size ≤ b + Z.of_nat n ∧
  (size ≤ 2 ^ size_bits_from n b size ∨ size_bits_from n b size = b + Z.of_nat n) ∧
  (size_bits_from n b size = 0 ∨ 2 ^ (size_bits_from n b size - 1) < size).
Proof.
  induction n as [|n IH]; intros b Hb Hlow; cbn [size_bits_from]; [split_and!; [lia|lia|right; lia|done]|].
  rewrite Z.shiftl_1_l. destruct (Z.ltb_spec (2 ^ b) size).
  - destruct (IH (b + 1)) as (H1 & H2 & H3); [lia|right; by replace (b + 1 - 1) with b by lia|]. split_and!; [lia|lia| |done].
    destruct H2 as [|H2]; [by left|right; lia].
  - split_and!; [lia|lia|by left|done].
Qed.
(** The least power of two that is not below the size. *)
Lemma size_bits_spec size : 16 < size ≤ 2 ^ 31 →
  5 ≤ size_bits size ≤ 31 ∧ size ≤ 2 ^ size_bits size ∧ 2 ^ size_bits size < 2 * size.
Proof.
  intros Hs. unfold size_bits. destruct (size_bits_from_spec size 32 0) as (H1 & H2 & H3); [lia|by left|].
  set (k := size_bits_from 32 0 size) in *. assert (2 ^ (k - 1) < size) as H4.
  { destruct H3 as [E|]; [|done]. rewrite E in H2. cbn in H2. lia. }
  assert (k ≤ 31) as Hk.
  { destruct (Z.le_gt_cases k 31); [done|]. assert (2 ^ 31 ≤ 2 ^ (k - 1)) by (apply Z.pow_le_mono_r; lia). lia. }
  assert (5 ≤ k) as Hk5.
  { destruct (Z.le_gt_cases 5 k); [done|]. assert (2 ^ k ≤ 2 ^ 4) by (apply Z.pow_le_mono_r; lia). lia. }
  split; [lia|]. split; [lia|]. replace k with (Z.succ (k - 1)) at 1 by lia. rewrite Z.pow_succ_r by lia. lia.
Qed.

Definition attributes (k ap : Z) : Z := Z.lor (Z.lor MPU_RASR_ENABLE (MPU_RASR_SIZE k)) (Z.shiftl ap 24).
Lemma attributes_decode k ap : 5 ≤ k ≤ 31 → ap = 0 ∨ ap = 3 ∨ ap = 6 →
  region_bits (attributes k ap) = k ∧ ap_of (attributes k ap) = ap ∧ Z.testbit (attributes k ap) 0 = true ∧ executable (attributes k ap) = true.
Proof.
  intros Hk Hap. assert (Forall (λ k, Forall (λ ap, region_bits (attributes k ap) = k ∧ ap_of (attributes k ap) = ap ∧
    Z.testbit (attributes k ap) 0 = true ∧ executable (attributes k ap) = true) [0; 3; 6]) (seqZ 5 27)) as Hall.
  { eapply bool_decide_eq_true_1. vm_compute. reflexivity. }
  rewrite Forall_forall in Hall. specialize (Hall k). rewrite Forall_forall in Hall. apply Hall; [apply elem_of_seqZ; lia|destruct Hap as [->|[->| ->]]; repeat constructor].
Qed.

Definition ap_code (permissions : Z) : Z := if Z.testbit permissions 1 then 3 else if Z.testbit permissions 0 then 6 else 0.
Lemma land_bit x i : 0 ≤ i → (Z.land x (Z.shiftl 1 i) =? 0) = negb (Z.testbit x i).
Proof.
  intros Hi. rewrite Z.shiftl_1_l. destruct (Z.testbit x i) eqn:E; cbn [negb].
  - apply Z.eqb_neq. intros E0. apply (f_equal (λ v, Z.testbit v i)) in E0. rewrite Z.land_spec, E, Z.pow2_bits_true, Z.testbit_0_l in E0 by done. done.
  - apply Z.eqb_eq, Z.bits_inj'. intros j Hj. rewrite Z.land_spec, Z.testbit_0_l. destruct (decide (j = i)) as [->|].
    + by rewrite E.
    + by rewrite Z.pow2_bits_false, andb_false_r.
Qed.
Lemma ap_bits_spec p : ap_bits p = Z.shiftl (ap_code p) 24.
Proof.
  unfold ap_bits, ap_code, PERM_WRITE, PERM_READ. rewrite !land_bit, !negb_involutive by lia.
  destruct (Z.eqb_spec p 0) as [->|]; [done|]. by destruct (Z.testbit p 1), (Z.testbit p 0).
Qed.

Lemma set_region_ok id r m (Q : os_error_t → mpu_t → Prop) : 0 ≤ id < 8 → 0 ≤ start_addr r < 2 ^ 32 → 16 < rg_size r ≤ 2 ^ 31 →
  start_addr r mod 2 ^ size_bits (rg_size r) = 0 →
  Q OS_OK (Mpu (mpu_ctrl m) id (<[Z.to_nat id := start_addr r]> (mpu_rbar m))
    (<[Z.to_nat id := attributes (size_bits (rg_size r)) (ap_code (permissions r))]> (mpu_rasr m))) →
  wp (os_mpu_set_region id (Some r)) Q m.
Proof.
  intros Hid Ha Hs Hal HQ. destruct (size_bits_spec (rg_size r) Hs) as (Hk & _ & _). unfold os_mpu_set_region. cbv zeta.
  rewrite (proj2 (Z.leb_gt 8 id)) by lia. rewrite u32_small by done. change 0x1F with (2 ^ 5 - 1). rewrite land_ones_mod by lia.
  assert (start_addr r mod 2 ^ 5 = 0) as ->.
  { apply Z.mod_divide in Hal; [|lia]. apply Z.mod_divide; [lia|]. eapply Z.divide_trans; [|exact Hal].
    exists (2 ^ (size_bits (rg_size r) - 5)). rewrite <-Z.pow_add_r by lia. f_equal. lia. }
  rewrite (proj2 (Z.ltb_ge _ 5)), (proj2 (Z.ltb_ge 31 _)) by lia. cbn [Z.eqb negb orb]. rewrite ap_bits_spec.
  unfold write_rbar, write_rasr. rewrite wp_bind, wp_modify, wp_bind, wp_modify, wp_bind, wp_modify, wp_ret. exact HQ.
Qed.


Definition mpu_reset : mpu_t := Mpu 0 0 (replicate 8 0) (replicate 8 0).

(** The default regions: what unprivileged code may do after [os_security_init]. Flash can be read and
    executed, SRAM and the peripherals be read and written, everything else is out of reach; and
    code in SRAM and in the peripheral space is executable, as the execute-never bit is never set. *)
Lemma default_regions m' : os_security_init mpu_reset = Ret tt m' →
  unprivileged m' 0x1000 Read = true ∧ unprivileged m' 0x1000 Fetch = true ∧ unprivileged m' 0x1000 Write = false ∧
  unprivileged m' 0x2000FFFF Write = true ∧ unprivileged m' 0x20010000 Read = false ∧ unprivileged m' 0x40000 Read = false ∧
  unprivileged m' 0x5FFFFFFF Write = true ∧ unprivileged m' 0x60000000 Read = false ∧
  unprivileged m' 0x20000000 Fetch = true ∧ unprivileged m' 0x40000000 Fetch = true.
Proof. intros [= <-]. repeat split. Qed.

Definition protects (r : memory_region_t) (a : Z) : option bool :=
  match os_mpu_set_region 0 (Some r) mpu_reset with
  | Ret OS_OK m => match mpu_rbar m !! 0%nat, mpu_rasr m !! 0%nat with Some b, Some s => Some (region_covers b s a) | _, _ => None end
  | _ => None
  end.
(** Where the protection departs from the region that was asked for. A start that is aligned to 32
    bytes but not to the size is accepted, and the unit protects other memory: for 256 bytes from
    0x20000080 on, the last byte is not covered and the 128 bytes before the start are. After
    [os_security_init], data in SRAM is executable although no execute permission was given.
    [os_check_memory_access] allows every access. *)
Theorem mpu_defects :
  protects (MemoryRegion 0x20000080 256 3) 0x2000017F = Some false ∧ protects (MemoryRegion 0x20000080 256 3) 0x20000000 = Some true ∧
  match os_security_init mpu_reset with
  | Ret _ m => unprivileged m 0x20000000 Fetch = true ∧ unprivileged m 0x20000000 Write = true
  | _ => False
  end ∧
  ∀ addr size permission, os_check_memory_access addr size permission = true.
Proof. repeat split. Qed.
