(* ===== verification/Bytes.v ===== *)
(** Bytes: byte arrays, the little-endian layout of integers in memory, structures as byte arrays,
    and flat memories.

    The target is the 32-bit little-endian ARM of the Makefile. A structure that the code copies to
    or from storage is kept as the list of its bytes, padding included; a field is read and
    assigned with [field] and [put]. A flat memory is a function from addresses to bytes. *)
From Stdlib Require Import ZArith Lia.
From stdpp Require Import base numbers list.
From S2P Require Import Prelude.

(** * Integers as bytes *)
Definition bytes_ok (l : list Z) : Prop := Forall (λ b, 0 ≤ b < 256) l.

Fixpoint le_encode (n : nat) (v : Z) : list Z :=
  match n with
  | O => []
  | S n => v mod 256 :: le_encode n (v / 256)
  end.
Fixpoint le_decode (l : list Z) : Z :=
  match l with
  | [] => 0
  | b :: l => b + 256 * le_decode l
  end.

Lemma le_encode_length n v : length (le_encode n v) = n.
Proof. revert v. induction n as [|n IH]; intros v; simpl; [done|]. by rewrite IH. Qed.

Lemma le_encode_ok n v : bytes_ok (le_encode n v).
Proof.
  revert v. induction n as [|n IH]; intros v; constructor; [|apply IH].
  apply Z.mod_pos_bound. lia.
Qed.

Lemma le_decode_encode n v : 0 ≤ v < 256 ^ Z.of_nat n → le_decode (le_encode n v) = v.
Proof.
  revert v. induction n as [|n IH]; intros v Hv; simpl; [simpl in Hv; lia|].
  rewrite IH.
  - pose proof (Z_div_mod_eq_full v 256). lia.
  - rewrite Nat2Z.inj_succ, Z.pow_succ_r in Hv by lia.
    split; [apply Z.div_pos; lia|]. apply Z.div_lt_upper_bound; lia.
Qed.

Lemma le_decode_range l : bytes_ok l → 0 ≤ le_decode l < 256 ^ Z.of_nat (length l).
Proof.
  induction 1 as [|b l Hb _ IH]; cbn [le_decode length]; [lia|].
  rewrite Nat2Z.inj_succ, Z.pow_succ_r by lia. lia.
Qed.

Lemma le_encode_decode l : bytes_ok l → le_encode (length l) (le_decode l) = l.
Proof.
  induction 1 as [|b l Hb _ IH]; simpl; [done|].
  rewrite (Z.mul_comm 256), Z.mod_add, Z.div_add, Z.mod_small, Z.div_small by lia.
  by rewrite Z.add_0_l, IH.
Qed.

(** * Fields of a structure *)

(** The [n]-byte integer at offset [off] of the structure [bs], and [bs] after the bytes [src] were
    stored at [off]. *)
Definition field (off n : nat) (bs : list Z) : Z := le_decode (take n (drop off bs)).
Definition put (off : nat) (src bs : list Z) : list Z :=
  take off bs ++ src ++ drop (off + length src) bs.

Lemma put_length off src bs :
  (off + length src ≤ length bs)%nat → length (put off src bs) = length bs.
Proof. intros. unfold put. rewrite !length_app, length_take, length_drop. lia. Qed.

Lemma put_ok off src bs : bytes_ok src → bytes_ok bs → bytes_ok (put off src bs).
Proof. intros. unfold put, bytes_ok. rewrite !Forall_app. auto using Forall_take, Forall_drop. Qed.

Lemma slice_put_same off src bs : (off + length src ≤ length bs)%nat →
  take (length src) (drop off (put off src bs)) = src.
Proof.
  intros. unfold put. rewrite drop_app_length' by (rewrite length_take; lia).
  by rewrite take_app_length.
Qed.

Lemma slice_put_other off src bs o n :
  (off + length src ≤ length bs)%nat → (o + n ≤ off ∨ off + length src ≤ o)%nat →
  take n (drop o (put off src bs)) = take n (drop o bs).
Proof.
  intros Hlen [Hlt|Hge]; unfold put.
  - rewrite drop_app_le by (rewrite length_take; lia).
    rewrite take_app_le by (rewrite length_drop, length_take; lia).
    rewrite skipn_firstn_comm, take_take. f_equal. lia.
  - rewrite drop_app_ge by (rewrite length_take; lia).
    rewrite drop_app_ge by (rewrite length_take; lia).
    rewrite drop_drop, length_take. repeat f_equal. lia.
Qed.

(** Two writes one after the other. *)
Lemma put_app off a b bs : (off + length a + length b ≤ length bs)%nat →
  put (off + length a) b (put off a bs) = put off (a ++ b) bs.
Proof.
  intros Hlen. unfold put. rewrite length_app.
  assert (length (take off bs) = off) as Ht by (rewrite length_take; lia).
  rewrite (app_assoc (take off bs) a), take_app_length' by (rewrite length_app; lia).
  rewrite drop_app_ge by (rewrite length_app; lia). rewrite length_app, Ht, drop_drop.
  rewrite <-!app_assoc. do 3 f_equal. f_equal. lia.
Qed.

Lemma put_nil off bs : put off [] bs = bs.
Proof. unfold put. cbn. by rewrite Nat.add_0_r, take_drop. Qed.

Lemma field_put_same off n v bs : (off + n ≤ length bs)%nat → 0 ≤ v < 256 ^ Z.of_nat n →
  field off n (put off (le_encode n v) bs) = v.
Proof.
  intros Hlen Hv. unfold field.
  pose proof (slice_put_same off (le_encode n v) bs) as E. rewrite le_encode_length in E.
  rewrite E by lia. by apply le_decode_encode.
Qed.

Lemma field_put_other off src bs o n :
  (off + length src ≤ length bs)%nat → (o + n ≤ off ∨ off + length src ≤ o)%nat →
  field o n (put off src bs) = field o n bs.
Proof. intros. unfold field. by rewrite slice_put_other. Qed.

Lemma field_range off n bs : bytes_ok bs → 0 ≤ field off n bs < 256 ^ Z.of_nat n.
Proof.
  intros Hok. unfold field.
  destruct (le_decode_range (take n (drop off bs))) as [? Hlt];
    [by apply Forall_take, Forall_drop|].
  split; [done|]. eapply Z.lt_le_trans; [exact Hlt|]. apply Z.pow_le_mono_r; [lia|].
  rewrite length_take. lia.
Qed.

(** * Flat memories *)
Definition memory : Type := Z → Z.

Definition mread (m : memory) (a n : Z) : list Z := (λ i, m (a + i)) <$> seqZ 0 n.
Definition mwrite (a : Z) (bs : list Z) (m : memory) : memory := λ x,
  if (a <=? x) && (x <? a + Z.of_nat (length bs)) then nth (Z.to_nat (x - a)) bs 0 else m x.
(** [memset (&m[a], v, n)] *)
Definition mset (a v n : Z) (m : memory) : memory := λ x,
  if (a <=? x) && (x <? a + n) then v else m x.

Lemma mread_length m a n : length (mread m a n) = Z.to_nat n.
Proof. unfold mread. by rewrite length_fmap, length_seqZ. Qed.

Lemma mread_lookup m a n i : (i < Z.to_nat n)%nat →
  mread m a n !! i = Some (m (a + Z.of_nat i)).
Proof.
  intros. unfold mread. rewrite list_lookup_fmap, lookup_seqZ_lt by lia. simpl. repeat f_equal; lia.
Qed.

Lemma mread_ext m m' a n : (∀ x, a ≤ x < a + n → m x = m' x) → mread m a n = mread m' a n.
Proof.
  intros Heq. apply list_eq_same_length with (n := Z.to_nat n); try (by rewrite mread_length).
  intros i x y Hi. rewrite !mread_lookup by lia. intros [= <-] [= <-]. apply Heq. lia.
Qed.

Lemma mwrite_in a bs m x : a ≤ x < a + Z.of_nat (length bs) →
  mwrite a bs m x = nth (Z.to_nat (x - a)) bs 0.
Proof.
  intros. unfold mwrite. destruct (Z.leb_spec a x), (Z.ltb_spec x (a + Z.of_nat (length bs)));
    simpl; lia || done.
Qed.

Lemma mwrite_out a bs m x : x < a ∨ a + Z.of_nat (length bs) ≤ x → mwrite a bs m x = m x.
Proof.
  intros. unfold mwrite. destruct (Z.leb_spec a x), (Z.ltb_spec x (a + Z.of_nat (length bs)));
    simpl; lia || done.
Qed.

Lemma mset_in a v n m x : a ≤ x < a + n → mset a v n m x = v.
Proof.
  intros. unfold mset. destruct (Z.leb_spec a x), (Z.ltb_spec x (a + n)); simpl; lia || done.
Qed.

Lemma mset_out a v n m x : x < a ∨ a + n ≤ x → mset a v n m x = m x.
Proof.
  intros. unfold mset. destruct (Z.leb_spec a x), (Z.ltb_spec x (a + n)); simpl; lia || done.
Qed.

Lemma mread_mwrite_same a bs m : mread (mwrite a bs m) a (Z.of_nat (length bs)) = bs.
Proof.
  apply list_eq_same_length with (n := length bs); try (rewrite ?mread_length; lia).
  intros i x y Hi. rewrite mread_lookup, mwrite_in by lia. intros [= <-] Hy.
  rewrite nth_lookup. replace (Z.to_nat (a + Z.of_nat i - a)) with i by lia. by rewrite Hy.
Qed.

Lemma mread_mwrite_other a bs m b n :
  b + n ≤ a ∨ a + Z.of_nat (length bs) ≤ b → mread (mwrite a bs m) b n = mread m b n.
Proof. intros. apply mread_ext. intros x ?. apply mwrite_out. lia. Qed.

(** The first [k] bytes of a region that was written with at least that many. *)
Lemma mread_mwrite_prefix a bs m k : 0 ≤ k ≤ Z.of_nat (length bs) →
  mread (mwrite a bs m) a k = take (Z.to_nat k) bs.
Proof.
  intros Hk. rewrite <-(mread_mwrite_same a bs m) at 2.
  apply list_eq_same_length with (n := Z.to_nat k);
    try (rewrite ?length_take, ?mread_length; lia).
  intros i x y Hi. rewrite lookup_take_lt by lia. rewrite !mread_lookup by lia. by intros [= <-] [= <-].
Qed.

Lemma mread_ok m a n : (∀ x, 0 ≤ m x < 256) → bytes_ok (mread m a n).
Proof. intros Hm. unfold bytes_ok, mread. apply Forall_fmap, Forall_true. intros i. apply Hm. Qed.

Lemma mwrite_ok a bs m : bytes_ok bs → (∀ x, 0 ≤ m x < 256) → ∀ x, 0 ≤ mwrite a bs m x < 256.
Proof.
  intros Hbs Hm x. unfold mwrite. destruct (_ && _) eqn:E; [|done].
  rewrite nth_lookup. destruct (bs !! _) eqn:El; simpl; [|lia].
  by eapply Forall_lookup_1 in El; [|exact Hbs].
Qed.
