(* ===== verification/Memory.v ===== *)
(** Memory: the allocator of [src/memory.c].

    [heap_t] is the static structure [mem]; its array [pool] is a flat memory whose block headers
    ([memory_block_t]: the 32-bit [next], the byte [allocated] and the 32-bit [size], 12 bytes in
    all) are read from and written to the same bytes that callers use as their storage. Reading or
    writing outside the array is undefined behaviour. *)
From Stdlib Require Import ZArith Lia.
From stdpp Require Import base numbers gmap list.
From S2P Require Import Prelude Types Kernel ReadyQueue Scheduler KernelApi Bytes.

Definition MEMORY_POOL_SIZE : Z := 4096.
Definition BLOCK_SIZE : Z := 32.
Definition NUM_BLOCKS : Z := MEMORY_POOL_SIZE / BLOCK_SIZE.
(** [sizeof(memory_block_t)] *)
Definition HEADER_SIZE : Z := 12.

(** Where the linker puts [mem.pool]: word aligned, not at address 0, and not at the end of the
    address space. *)
Class HeapBase := {
  pool_addr : Z;
  pool_addr_range : 0 < pool_addr ∧ pool_addr + 2 * 4096 ≤ 2 ^ 32
}.

Record heap_t := Heap {
  heap_kernel : kernel_t;
  pool : memory;
  free_list : ptr;
  free_bytes : Z;
  allocated_bytes : Z;
  allocation_count : Z;
  free_count : Z
}.
#[export] Instance heap_eta : Eta heap_t := λ h,
  Heap (heap_kernel h) (pool h) (free_list h) (free_bytes h) (allocated_bytes h)
    (allocation_count h) (free_count h).
#[export] Program Instance heap_view : KernelView heap_t :=
  {| kget := heap_kernel; kput := λ k s, s <| heap_kernel := k |> |}.
Solve All Obligations with (intros; repeat match goal with s : heap_t |- _ => destruct s end; done).

Section memory.
Context `{!HeapBase}.

(** * Access to the pool *)
Definition in_pool (a n : Z) : bool :=
  (pool_addr <=? a) && (a + n <=? pool_addr + MEMORY_POOL_SIZE).
Definition pload (n : Z) (a : ptr) : M heap_t Z := λ s,
  if in_pool a n then Ret (le_decode (mread (pool s) a n)) s else Undef.
Definition pstore (n : Z) (a : ptr) (v : Z) : M heap_t unit := λ s,
  if in_pool a n then Ret tt (s <| pool ::= mwrite a (le_encode (Z.to_nat n) v) |>) else Undef.

Definition get_next (b : ptr) : M heap_t ptr := pload 4 b.
Definition get_allocated (b : ptr) : M heap_t Z := pload 1 (b + 4).
Definition get_size (b : ptr) : M heap_t Z := pload 4 (b + 8).
Definition set_next (b : ptr) (v : ptr) : M heap_t unit := pstore 4 b v.
Definition set_allocated (b : ptr) (v : bool) : M heap_t unit := pstore 1 (b + 4) (Z.b2z v).
Definition set_size (b : ptr) (v : Z) : M heap_t unit := pstore 4 (b + 8) v.

(** * Operations *)
Fixpoint init_blocks (n : nat) (current : ptr) : M heap_t ptr :=
  match n with
  | O => ret current
  | S n =>
      set_allocated current false ;;;
      set_size current BLOCK_SIZE ;;;
      set_next current (u32 (current + BLOCK_SIZE)) ;;;
      let! next := get_next current in
      init_blocks n next
  end.

Definition os_mem_init : M heap_t unit :=
  modify (λ s, Heap (heap_kernel s) (mset pool_addr 0 MEMORY_POOL_SIZE (pool s)) 0 0 0 0 0) ;;;
  modify (λ s, s <| free_bytes := MEMORY_POOL_SIZE |>) ;;;
  modify (λ s, s <| free_list := pool_addr |>) ;;;
  let! current := gets free_list in
  let! current := init_blocks (Z.to_nat (NUM_BLOCKS - 1)) current in
  set_allocated current false ;;;
  set_size current BLOCK_SIZE ;;;
  set_next current NULL.

(** The inner loop of [os_malloc]; [check] starts at [block] and [available] at 0. *)
Fixpoint count_available (fuel : nat) (check available total_size : Z) : M heap_t Z :=
  match fuel with
  | O => nofuel
  | S fuel =>
      if check =? NULL then ret available
      else
        let! allocated := get_allocated check in
        if negb (allocated =? 0) || negb (available <? total_size) then ret available
        else count_available fuel (u32 (check + BLOCK_SIZE)) (available + BLOCK_SIZE) total_size
  end.

(** The block is marked, unlinked and accounted for. *)
Definition take_block (block prev total_size : Z) : M heap_t unit :=
  set_allocated block true ;;;
  set_size block total_size ;;;
  (if prev =? NULL then modify (λ s, s <| free_list := u32 (block + total_size) |>)
   else set_next prev (u32 (block + total_size))) ;;;
  modify (λ s, s <| free_bytes ::= λ n, u32 (n - total_size) |>
                 <| allocated_bytes ::= λ n, u32 (n + total_size) |>
                 <| allocation_count ::= λ n, u32 (n + 1) |>).

Fixpoint malloc_loop (fuel : nat) (block prev total_size : Z) : M heap_t (option ptr) :=
  match fuel with
  | O => nofuel
  | S fuel =>
      if block =? NULL then ret None
      else
        let! allocated := get_allocated block in
        let! available :=
          (if allocated =? 0 then count_available 130 block 0 total_size else ret 0) in
        if (allocated =? 0) && (total_size <=? available) then
          take_block block prev total_size ;;;
          ret (Some (u32 (block + HEADER_SIZE)))
        else
          let! next := get_next block in
          malloc_loop fuel next block total_size
  end.

Definition os_malloc (size : Z) : M heap_t ptr :=
  if (size =? 0) || (MEMORY_POOL_SIZE <? size) then ret NULL
  else
    let! state := in_kernel os_enter_critical in
    let blocks_needed := (size + HEADER_SIZE + BLOCK_SIZE - 1) / BLOCK_SIZE in
    let total_size := blocks_needed * BLOCK_SIZE in
    let! block := gets free_list in
    let! found := malloc_loop 130 block NULL total_size in
    in_kernel (os_exit_critical state) ;;;
    ret (default NULL found).

(** The loop of [os_free] that merges a free block with the block behind it. *)
Fixpoint coalesce (fuel : nat) (cur : ptr) : M heap_t unit :=
  match fuel with
  | O => nofuel
  | S fuel =>
      if cur =? NULL then ret tt
      else
        let! size := get_size cur in
        let neighbor := u32 (cur + size) in
        let! merge :=
          (if neighbor <? pool_addr + MEMORY_POOL_SIZE then
             let! a := get_allocated neighbor in ret (a =? 0)
           else ret false) in
        if merge then
          let! n := get_size neighbor in
          set_size cur (u32 (size + n)) ;;;
          let! next := get_next neighbor in
          set_next cur next ;;;
          coalesce fuel cur
        else
          let! next := get_next cur in
          coalesce fuel next
  end.

Definition os_free (p : ptr) : M heap_t unit :=
  if p =? NULL then ret tt
  else
    let! state := in_kernel os_enter_critical in
    let block := u32 (p - HEADER_SIZE) in
    let! allocated := get_allocated block in
    if allocated =? 0 then in_kernel (os_exit_critical state)
    else
      set_allocated block false ;;;
      let! size := get_size block in
      modify (λ s, s <| free_bytes ::= λ n, u32 (n + size) |>
                     <| allocated_bytes ::= λ n, u32 (n - size) |>
                     <| free_count ::= λ n, u32 (n + 1) |>) ;;;
      let! head := gets free_list in
      set_next block head ;;;
      modify (λ s, s <| free_list := block |>) ;;;
      let! cur := gets free_list in
      coalesce 260 cur ;;;
      in_kernel (os_exit_critical state).

Definition os_get_free_memory : heap_t → Z := free_bytes.
(** The four results, each stored only if its pointer is not null. *)
Definition os_get_memory_stats (free used allocs frees : ptr) (s : heap_t) : list (ptr * Z) :=
  (if free =? NULL then [] else [(free, free_bytes s)]) ++
  (if used =? NULL then [] else [(used, allocated_bytes s)]) ++
  (if allocs =? NULL then [] else [(allocs, allocation_count s)]) ++
  (if frees =? NULL then [] else [(frees, free_count s)]).

(** * The invariant *)

(** [cell s a n v]: the [n]-byte integer at [a] of the pool is [v]. *)
Definition cell (s : heap_t) (a n v : Z) : Prop := le_decode (mread (pool s) a n) = v.

(** A free block at offset [o]: either untouched, or merged with everything behind it. *)
Definition head_ok (s : heap_t) (o : Z) : Prop :=
  let b := pool_addr + o in
  cell s (b + 4) 1 0 ∧
  (cell s (b + 8) 4 BLOCK_SIZE ∧
     cell s b 4 (if o =? MEMORY_POOL_SIZE - BLOCK_SIZE then NULL else b + BLOCK_SIZE) ∨
   cell s (b + 8) 4 (MEMORY_POOL_SIZE - o) ∧ cell s b 4 NULL).

(** The blocks from offset [o] on are free. *)
Definition free_from (s : heap_t) (o : Z) : Prop :=
  ∀ c, o ≤ c < MEMORY_POOL_SIZE → c mod BLOCK_SIZE = 0 → head_ok s c.

(** Everything below offset [o] is in use, everything from [o] on is free. *)
Record bump (s : heap_t) (o : Z) : Prop := {
  bump_range : 0 ≤ o < MEMORY_POOL_SIZE;
  bump_aligned : o mod BLOCK_SIZE = 0;
  bump_list : free_list s = pool_addr + o;
  bump_free : free_bytes s = MEMORY_POOL_SIZE - o;
  bump_used : allocated_bytes s = o;
  bump_blocks : free_from s o
}.

(** The bytes a request of [size] bytes takes from the pool. *)
Definition footprint (size : Z) : Z := (size + HEADER_SIZE + BLOCK_SIZE - 1) / BLOCK_SIZE * BLOCK_SIZE.

(** * Lemmas on the pool *)

(** [s'] is [s] with nothing but the bytes of the pool in [lo, hi) changed. *)
Definition pool_frame (lo hi : Z) (s s' : heap_t) : Prop :=
  s' = s <| pool := pool s' |> ∧ ∀ a, a < lo ∨ hi ≤ a → pool s' a = pool s a.

Lemma pool_frame_refl lo hi s : pool_frame lo hi s s.
Proof. split; [by destruct s|done]. Qed.
Lemma pool_frame_trans lo hi s s1 s2 :
  pool_frame lo hi s s1 → pool_frame lo hi s1 s2 → pool_frame lo hi s s2.
Proof.
  intros [E1 F1] [E2 F2]. split; [|intros a ?; by rewrite F2, F1].
  rewrite E2, E1. by destruct s.
Qed.
Lemma pool_frame_weaken lo hi lo' hi' s s' :
  pool_frame lo hi s s' → lo' ≤ lo → hi ≤ hi' → pool_frame lo' hi' s s'.
Proof. intros [E F] ??. split; [done|]. intros a ?. apply F. lia. Qed.

Lemma cell_frame lo hi s s' a n v :
  pool_frame lo hi s s' → a + n ≤ lo ∨ hi ≤ a → cell s a n v → cell s' a n v.
Proof.
  intros [_ F] ? <-. unfold cell. f_equal. apply mread_ext. intros x ?. apply F. lia.
Qed.

Lemma free_frame lo hi s s' o o' : pool_frame lo hi s s' → hi ≤ pool_addr + o' → o ≤ o' →
  free_from s o → free_from s' o'.
Proof.
  intros F Hhi Ho Hs c Hc Hal. destruct (Hs c) as [Ha Hh]; [lia|done|].
  split; [by eapply cell_frame; [exact F|lia|]|].
  destruct Hh as [[??]|[??]]; [left|right]; split; (eapply cell_frame; [exact F|lia|done]).
Qed.

Lemma in_pool_true a n : pool_addr ≤ a → a + n ≤ pool_addr + 4096 → in_pool a n = true.
Proof.
  intros. unfold in_pool, MEMORY_POOL_SIZE. apply andb_true_intro. split; apply Z.leb_le; lia.
Qed.
Lemma in_pool_false a n : a < pool_addr ∨ pool_addr + 4096 < a + n → in_pool a n = false.
Proof.
  intros. unfold in_pool, MEMORY_POOL_SIZE. apply andb_false_iff. rewrite !Z.leb_gt. lia.
Qed.

Lemma wp_pload n a v Q s : pool_addr ≤ a → a + n ≤ pool_addr + 4096 → cell s a n v → Q v s →
  wp (pload n a) Q s.
Proof. intros. unfold wp, pload. rewrite in_pool_true by done. by replace (le_decode _) with v. Qed.

Lemma wp_pstore n a v Q s : 0 ≤ n → pool_addr ≤ a → a + n ≤ pool_addr + 4096 → 0 ≤ v < 256 ^ n →
  (∀ s', pool_frame a (a + n) s s' → cell s' a n v → Q tt s') → wp (pstore n a v) Q s.
Proof.
  intros ???? HQ. unfold wp, pstore. rewrite in_pool_true by done. apply HQ.
  - split; [done|]. intros x ?. simpl. apply mwrite_out. rewrite le_encode_length. lia.
  - unfold cell. simpl. pose proof (mread_mwrite_same a (le_encode (Z.to_nat n) v) (pool s)) as E.
    rewrite le_encode_length, Z2Nat.id in E by lia. rewrite E. apply le_decode_encode.
    by rewrite Z2Nat.id by lia.
Qed.

Lemma wp_assoc3 {S A} (m1 m2 m3 : M S unit) (k : M S A) Q s :
  wp (m1 ;;; m2 ;;; m3 ;;; k) Q s = wp (bind (m1 ;;; m2 ;;; m3) (λ _, k)) Q s.
Proof.
  unfold wp, bind. destruct (m1 s) as [? s1| |]; [|done..]. destruct (m2 s1) as [? s2| |]; [|done..].
  by destruct (m3 s2).
Qed.

(** The three stores that make a block a free block of the initial list. *)
Lemma init_header_spec b next Q s :
  pool_addr ≤ b → b + 12 ≤ pool_addr + 4096 → 0 ≤ next < 2 ^ 32 →
  (∀ s', pool_frame b (b + 12) s s' → cell s' (b + 4) 1 0 → cell s' (b + 8) 4 BLOCK_SIZE →
         cell s' b 4 next → Q tt s') →
  wp (set_allocated b false ;;; set_size b BLOCK_SIZE ;;; set_next b next) Q s.
Proof.
  intros ??? HQ. rewrite !wp_bind. apply wp_pstore; [simpl; lia..|]. intros s1 F1 C1.
  rewrite wp_bind. apply wp_pstore; [unfold BLOCK_SIZE; lia..|]. intros s2 F2 C2.
  apply wp_pstore; [lia..|]. intros s3 F3 C3.
  apply HQ; [|eapply cell_frame; [exact F3|lia|]..|done].
  - eapply pool_frame_trans; [|eapply pool_frame_weaken; [exact F3|lia..]].
    eapply pool_frame_trans; eapply pool_frame_weaken; eauto; lia.
  - eapply cell_frame; [exact F2|lia|done].
  - done.
Qed.

Lemma init_blocks_spec n : ∀ i s, 0 ≤ i → i + Z.of_nat n ≤ NUM_BLOCKS - 1 →
  wp (init_blocks n (pool_addr + BLOCK_SIZE * i)) (λ c s',
    c = pool_addr + BLOCK_SIZE * (i + Z.of_nat n) ∧
    pool_frame (pool_addr + BLOCK_SIZE * i) (pool_addr + BLOCK_SIZE * (i + Z.of_nat n)) s s' ∧
    ∀ j, i ≤ j < i + Z.of_nat n →
      cell s' (pool_addr + BLOCK_SIZE * j + 4) 1 0 ∧
      cell s' (pool_addr + BLOCK_SIZE * j + 8) 4 BLOCK_SIZE ∧
      cell s' (pool_addr + BLOCK_SIZE * j) 4 (pool_addr + BLOCK_SIZE * (j + 1))) s.
Proof.
  pose proof pool_addr_range as Hbase. change (NUM_BLOCKS - 1) with 127.
  induction n as [|n IH]; intros i s Hi Hn; cbn [init_blocks].
  { rewrite Z.add_0_r. split; [done|]. split; [apply pool_frame_refl|lia]. }
  set (b := pool_addr + BLOCK_SIZE * i). assert (b + 32 = pool_addr + BLOCK_SIZE * (i + 1)) as Eb.
  { unfold b, BLOCK_SIZE. lia. }
  assert (pool_addr ≤ b ∧ b + 64 ≤ pool_addr + 4096) by (unfold b, BLOCK_SIZE; lia).
  assert (u32 (b + BLOCK_SIZE) = b + 32) as Eu by (apply u32_small; unfold BLOCK_SIZE; lia).
  rewrite Eu.
  rewrite wp_assoc3, wp_bind. apply init_header_spec; [lia..|]. intros s1 F1 C1 C2 C3.
  rewrite wp_bind. eapply wp_pload; [lia..|exact C3|]. rewrite Eb.
  eapply wp_mono; [apply IH; lia|]. intros c s2 (-> & F2 & Hj). split; [f_equal; lia|]. split.
  - eapply pool_frame_trans; eapply pool_frame_weaken; eauto; unfold b, BLOCK_SIZE; lia.
  - intros j ?. destruct (decide (j = i)) as [->|]; [|apply Hj; lia].
    repeat split; (eapply cell_frame; [exact F2|unfold BLOCK_SIZE; lia|]); try done.
    by rewrite <-Eb.
Qed.

Lemma os_mem_init_spec s :
  wp os_mem_init (λ _ s', bump s' 0 ∧ heap_kernel s' = heap_kernel s) s.
Proof.
  pose proof pool_addr_range as Hbase. unfold os_mem_init.
  rewrite wp_bind, wp_modify, wp_bind, wp_modify, wp_bind, wp_modify, wp_bind, wp_gets, wp_bind.
  match goal with |- wp _ _ ?x => remember x as s0 eqn:E0 end. cbn in E0.
  replace (free_list s0) with (pool_addr + BLOCK_SIZE * 0) by (rewrite E0; cbn; lia).
  eapply wp_mono; [apply (init_blocks_spec _ 0); [lia|by vm_compute]|].
  change (0 + Z.of_nat (Z.to_nat (NUM_BLOCKS - 1))) with 127. unfold BLOCK_SIZE at 1 2 4.
  intros c s1 (-> & [E1 F1] & Hj). apply init_header_spec; [lia..|unfold NULL; lia|].
  intros s2 F2 C1 C2 C3. assert (free_from s2 0) as Hfree.
  { intros c Hc Hal. unfold head_ok, MEMORY_POOL_SIZE, BLOCK_SIZE in *.
    assert (c = 32 * (c / 32)) as Ec by (Z.div_mod_to_equations; lia).
    destruct (decide (c = 4096 - 32)) as [->|].
    { split; [done|]. left. split; [done|]. by rewrite Z.eqb_refl. }
    destruct (Hj (c / 32)) as (? & ? & Hn); [lia|]. rewrite <-Ec in *.
    split; [|left; split; [|destruct (Z.eqb_spec c (4096 - 32)); [done|];
      replace (pool_addr + c + 32) with (pool_addr + 32 * (c / 32 + 1)) by lia]];
      (eapply cell_frame; [exact F2|lia|done]). }
  destruct F2 as [E2 _]. rewrite E1, E0 in E2. split; [|by rewrite E2].
  constructor; [unfold MEMORY_POOL_SIZE; lia|done|..|done];
    rewrite E2; cbn; unfold MEMORY_POOL_SIZE; lia.
Qed.

(** ** Allocation *)
Lemma footprint_bounds size : 0 < size →
  size + HEADER_SIZE ≤ footprint size < size + HEADER_SIZE + BLOCK_SIZE ∧ footprint size mod BLOCK_SIZE = 0.
Proof.
  unfold footprint, HEADER_SIZE, BLOCK_SIZE. intros. rewrite Z.mod_mul by lia.
  pose proof (Z_div_mod_eq_full (size + 12 + 32 - 1) 32).
  pose proof (Z.mod_pos_bound (size + 12 + 32 - 1) 32). lia.
Qed.

(** Every block of a free region that ends before the last block is counted; a count that reaches
    the end of the pool reads the header behind it. *)
Lemma count_available_spec s o k : (∀ c, o ≤ c → 0 ≤ c < 4096 → c mod 32 = 0 → cell s (pool_addr + c + 4) 1 0) →
  ∀ fuel c available, 0 ≤ o ≤ c → c ≤ 4096 → c mod 32 = 0 → (k < fuel)%nat →
  count_available fuel (pool_addr + c) available (available + 32 * Z.of_nat k) s =
  if decide (c + 32 * Z.of_nat k < 4096) then Ret (available + 32 * Z.of_nat k) s else Undef.
Proof.
  intros Hfree. pose proof pool_addr_range as Hbase.
  induction k as [|k IH]; intros [|fuel] c available Ho Hc Hal Hfuel; try lia;
    cbn [count_available]; destruct (Z.eqb_spec (pool_addr + c) NULL); try (unfold NULL in *; lia);
    unfold bind at 1, get_allocated, pload; destruct (decide (c = 4096)) as [->|].
  1, 3: rewrite in_pool_false, decide_False by lia; reflexivity.
  all: rewrite in_pool_true by (Z.div_mod_to_equations; lia);
    rewrite (Hfree c) by lia; cbn [Z.eqb negb orb].
  - rewrite (proj2 (Z.ltb_ge _ _)) by lia. cbn [negb]. rewrite decide_True by lia. unfold ret. f_equal. lia.
  - rewrite (proj2 (Z.ltb_lt _ _)) by lia. cbn [negb]. unfold BLOCK_SIZE.
    rewrite u32_small by lia. replace (pool_addr + c + 32) with (pool_addr + (c + 32)) by lia.
    replace (available + 32 * Z.of_nat (S k)) with (available + 32 + 32 * Z.of_nat k) by lia.
    rewrite IH; [|Z.div_mod_to_equations; lia..].
    destruct (decide _), (decide _); try done; lia.
Qed.

Lemma free_from_cell s o : free_from s o →
  ∀ c, o ≤ c → 0 ≤ c < 4096 → c mod 32 = 0 → cell s (pool_addr + c + 4) 1 0.
Proof. intros Hf c Hoc Hc Hal. by apply (Hf c); unfold MEMORY_POOL_SIZE; [lia|]. Qed.

(** What a successful allocation of [size] bytes at offset [o] does. *)
Record allocated (s : heap_t) (o size : Z) (s' : heap_t) : Prop := {
  al_bump : bump s' (o + footprint size);
  al_kernel : heap_kernel s' = heap_kernel s;
  al_flag : cell s' (pool_addr + o + 4) 1 1;
  al_size : cell s' (pool_addr + o + 8) 4 (footprint size);
  al_frame : ∀ a, a < pool_addr + o ∨ pool_addr + o + HEADER_SIZE ≤ a → pool s' a = pool s a
}.

Lemma take_block_spec s o size : bump s o → 0 < size → o + footprint size < 4096 →
  wp (take_block (pool_addr + o) NULL (footprint size)) (λ _, allocated s o size) s.
Proof.
  intros Hb Hsize Hfit. pose proof pool_addr_range as Hbase.
  pose proof (footprint_bounds size Hsize) as [Hfp Hfal].
  pose proof Hb as [Hr Hal Hlist Hfree Hused Hblocks].
  unfold HEADER_SIZE, BLOCK_SIZE, MEMORY_POOL_SIZE in *. unfold take_block.
  rewrite wp_bind. apply wp_pstore; [simpl; Z.div_mod_to_equations; lia..|]. intros s1 F1 C1.
  rewrite wp_bind. apply wp_pstore; [Z.div_mod_to_equations; lia..|]. intros s2 F2 C2.
  rewrite wp_bind. cbn [Z.eqb NULL]. rewrite !wp_modify, (u32_small (pool_addr + o + _)) by lia.
  assert (pool_frame (pool_addr + o) (pool_addr + o + 12) s s2) as F.
  { eapply pool_frame_trans; eapply pool_frame_weaken; eauto; lia. }
  assert (free_from s2 (o + footprint size)) as Hfr.
  { eapply free_frame; [exact F|lia| |exact Hblocks]. lia. }
  destruct F as [E F]. constructor; [constructor|..]; unfold MEMORY_POOL_SIZE, BLOCK_SIZE; cbn.
  - lia.
  - by rewrite <-Z.add_mod_idemp_l, Hal, Z.add_0_l by lia.
  - lia.
  - rewrite E. cbn. rewrite Hfree, u32_small; lia.
  - rewrite E. cbn. rewrite Hused, u32_small; lia.
  - exact Hfr.
  - by rewrite E.
  - change (cell s2 (pool_addr + o + 4) 1 1). eapply cell_frame; [exact F2|lia|done].
  - exact C2.
  - exact F.
Qed.

Lemma malloc_loop_head s o size : bump s o → 0 < size ≤ 4096 →
  malloc_loop 130 (pool_addr + o) NULL (footprint size) s =
  if decide (o + footprint size < 4096) then
    bind (take_block (pool_addr + o) NULL (footprint size))
      (λ _, ret (Some (pool_addr + o + HEADER_SIZE))) s
  else Undef.
Proof.
  intros Hb Hsize. pose proof pool_addr_range as Hbase. pose proof (free_from_cell s o (bump_blocks _ _ Hb)) as Hfree.
  pose proof (footprint_bounds size ltac:(lia)) as [Hfp Hfal].
  pose proof (bump_range _ _ Hb) as Hr. pose proof (bump_aligned _ _ Hb) as Hal.
  unfold HEADER_SIZE, BLOCK_SIZE, MEMORY_POOL_SIZE in *.
  assert (footprint size = 0 + 32 * Z.of_nat (Z.to_nat (footprint size / 32))) as Ef.
  { rewrite Z2Nat.id by (apply Z.div_pos; lia). rewrite <-Z_div_exact_full_2; lia. }
  cbn [malloc_loop]. destruct (Z.eqb_spec (pool_addr + o) NULL); [unfold NULL in *; lia|].
  unfold bind at 1, get_allocated, pload at 1. rewrite in_pool_true by (Z.div_mod_to_equations; lia).
  rewrite (Hfree o) by lia. cbn [Z.eqb andb].
  unfold bind at 1. rewrite Ef at 1. rewrite (count_available_spec s o) by
    (done || lia || (apply Nat2Z.inj_lt; rewrite Z2Nat.id by (apply Z.div_pos; lia);
       apply Z.div_lt_upper_bound; lia)).
  rewrite <-Ef. replace (o + 32 * _) with (o + footprint size) by lia.
  destruct (decide _) as [Hfit|]; [|done]. rewrite Z.leb_refl, u32_small by (unfold HEADER_SIZE; lia).
  done.
Qed.

Lemma wp_malloc_loop s o size Q : bump s o → 0 < size ≤ 4096 → o + footprint size < 4096 →
  (∀ s', allocated s o size s' → Q (Some (pool_addr + o + HEADER_SIZE)) s') →
  wp (malloc_loop 130 (pool_addr + o) NULL (footprint size)) Q s.
Proof.
  intros Hb Hsize Hfit HQ. destruct (wp_elim _ _ _ (take_block_spec s o size Hb ltac:(lia) Hfit))
    as ([] & s' & E & Hs').
  apply (wp_intro _ _ _ (Some (pool_addr + o + HEADER_SIZE)) s'); [|by apply HQ].
  rewrite malloc_loop_head, decide_True by done. unfold bind. by rewrite E.
Qed.

Lemma bump_kput k s o : bump s o → bump (kput k s) o.
Proof. intros []. by constructor. Qed.

Lemma os_malloc_spec s o size : bump s o → 0 < size ≤ 4096 → o + footprint size < 4096 →
  wp (os_malloc size) (λ p s', p = pool_addr + o + HEADER_SIZE ∧ allocated s o size s') s.
Proof.
  intros Hb Hsize Hfit. pose proof pool_addr_range as Hbase. unfold os_malloc, MEMORY_POOL_SIZE.
  destruct (Z.eqb_spec size 0), (Z.ltb_spec 4096 size); try lia. cbn [orb].
  rewrite wp_enter_bind, wp_bind, wp_gets, wp_bind.
  set (s0 := kput _ s). pose proof (bump_kput ((kget s) <| primask := 1 |>) s o Hb) as Hb0.
  fold s0 in Hb0. rewrite (bump_list _ _ Hb0). fold (footprint size).
  apply (wp_malloc_loop s0 o size); [done..|]. intros s1 [Hb1 Hk Hfl Hsz Hfr].
  rewrite wp_bind, wp_in_kernel, wp_exit, wp_ret.
  split; [done|]. constructor; [by apply bump_kput| |done..].
  change (heap_kernel s1 <| primask := primask (heap_kernel s) |> = heap_kernel s).
  rewrite Hk. unfold s0. by destruct s as [[]].
Qed.

Lemma os_malloc_refuses s size : size = 0 ∨ 4096 < size → os_malloc size s = Ret NULL s.
Proof.
  intros Hsize. unfold os_malloc, MEMORY_POOL_SIZE.
  by destruct (Z.eqb_spec size 0), (Z.ltb_spec 4096 size); try lia.
Qed.

Lemma os_malloc_end s o size : bump s o → 0 < size ≤ 4096 → 4096 ≤ o + footprint size →
  os_malloc size s = Undef.
Proof.
  intros Hb Hsize Hfit. unfold os_malloc, MEMORY_POOL_SIZE.
  destruct (Z.eqb_spec size 0), (Z.ltb_spec 4096 size); try lia. cbn [orb].
  pose proof (bump_kput ((kget s) <| primask := 1 |>) s o Hb) as Hb0.
  set (s0 := kput ((kget s) <| primask := 1 |>) s) in *.
  transitivity (bind (malloc_loop 130 (free_list s0) NULL (footprint size)) (λ found,
    in_kernel (os_exit_critical (primask (kget s))) ;;; ret (default NULL found)) s0); [reflexivity|].
  rewrite (bump_list _ _ Hb0). unfold bind at 1.
  by rewrite malloc_loop_head, decide_False by (done || lia).
Qed.

(** ** Release *)

(** A free block at offset [o] that reaches the end of the pool. *)
Definition merged (s : heap_t) (o : Z) : Prop :=
  cell s (pool_addr + o + 4) 1 0 ∧ cell s (pool_addr + o + 8) 4 (4096 - o) ∧ cell s (pool_addr + o) 4 NULL.

Lemma coalesce_merged s o fuel : 0 ≤ o ≤ 4096 - 32 → merged s o →
  wp (coalesce (S (S fuel)) (pool_addr + o))
    (λ _ s', pool_frame (pool_addr + o) (pool_addr + o + 12) s s' ∧ merged s' o) s.
Proof.
  intros Ho Hm. pose proof pool_addr_range as Hbase. pose proof Hm as (Ha & Hs & Hn).
  cbn [coalesce]. destruct (Z.eqb_spec (pool_addr + o) NULL); [unfold NULL in *; lia|].
  rewrite wp_bind. eapply wp_pload; [lia..|exact Hs|]. unfold MEMORY_POOL_SIZE.
  rewrite u32_small by lia. rewrite (proj2 (Z.ltb_ge _ _)) by lia. rewrite wp_bind, wp_ret, wp_bind.
  eapply wp_pload; [lia..|exact Hn|]. rewrite Z.eqb_refl, wp_ret.
  split; [apply pool_frame_refl|done].
Qed.

(** One round of the loop that absorbs the free block behind, of size [n]. *)
Lemma coalesce_round s o z n next fuel Q : 0 ≤ o → 32 ≤ z → o + z ≤ 4096 - 32 → 0 ≤ next < 2 ^ 32 →
  0 ≤ n ≤ 4096 →
  cell s (pool_addr + o + 8) 4 z →
  cell s (pool_addr + (o + z) + 4) 1 0 → cell s (pool_addr + (o + z) + 8) 4 n →
  cell s (pool_addr + (o + z)) 4 next →
  (∀ s', pool_frame (pool_addr + o) (pool_addr + o + 12) s s' →
         (∀ v, cell s (pool_addr + o + 4) 1 v → cell s' (pool_addr + o + 4) 1 v) →
         cell s' (pool_addr + o + 8) 4 (z + n) → cell s' (pool_addr + o) 4 next →
         wp (coalesce fuel (pool_addr + o)) Q s') →
  wp (coalesce (S fuel) (pool_addr + o)) Q s.
Proof.
  intros Ho Hz Hoz Hnext Hn Cz Ca Cs Cn HQ. pose proof pool_addr_range as Hbase. cbn [coalesce].
  destruct (Z.eqb_spec (pool_addr + o) NULL); [unfold NULL in *; lia|]. unfold MEMORY_POOL_SIZE.
  rewrite wp_bind. eapply wp_pload; [lia..|exact Cz|].
  rewrite u32_small by lia. replace (pool_addr + o + z) with (pool_addr + (o + z)) by lia.
  rewrite (proj2 (Z.ltb_lt _ _)) by lia. rewrite wp_bind, wp_bind.
  eapply wp_pload; [lia..|exact Ca|]. rewrite wp_ret. cbn [Z.eqb].
  rewrite wp_bind. eapply wp_pload; [lia..|exact Cs|]. rewrite u32_small by lia.
  rewrite wp_bind. apply wp_pstore; [lia..|]. intros s1 F1 C1.
  rewrite wp_bind. eapply wp_pload; [lia..|eapply cell_frame; [exact F1|lia|exact Cn]|].
  rewrite wp_bind. apply wp_pstore; [lia..|]. intros s2 F2 C2. apply HQ; [..|done].
  - eapply pool_frame_trans; eapply pool_frame_weaken; eauto; lia.
  - intros v Hv. eapply cell_frame; [exact F2|lia|]. eapply cell_frame; [exact F1|lia|done].
  - eapply cell_frame; [exact F2|lia|done].
Qed.

Lemma merged_frame s s1 (m : M heap_t unit) o :
  pool_frame (pool_addr + o) (pool_addr + o + 12) s s1 →
  wp m (λ _ s', pool_frame (pool_addr + o) (pool_addr + o + 12) s1 s' ∧ merged s' o) s1 →
  wp m (λ _ s', pool_frame (pool_addr + o) (pool_addr + o + 12) s s' ∧ merged s' o) s1.
Proof.
  intros F1 Hwp. eapply wp_mono; [exact Hwp|]. intros [] s2 [F2 Hm].
  split; [by eapply pool_frame_trans|done].
Qed.

Lemma coalesce_free k : ∀ s o z fuel, (k + 2 ≤ fuel)%nat → 0 ≤ o → 32 ≤ z → z mod 32 = 0 →
  o mod 32 = 0 → o + z + 32 * Z.of_nat k = 4096 → free_from s (o + z) →
  cell s (pool_addr + o + 4) 1 0 → cell s (pool_addr + o + 8) 4 z →
  (k = O → cell s (pool_addr + o) 4 NULL) →
  wp (coalesce fuel (pool_addr + o))
    (λ _ s', pool_frame (pool_addr + o) (pool_addr + o + 12) s s' ∧ merged s' o) s.
Proof.
  induction k as [|k IH]; intros s o z fuel Hfuel Ho Hz Hzal Hoal Hk Hf Ca Cs Cn.
  { destruct fuel as [|[|fuel]]; [lia..|]. apply coalesce_merged; [lia|].
    split; [done|]. split; [|by apply Cn]. by replace (4096 - o) with z by lia. }
  destruct fuel as [|fuel]; [lia|]. pose proof pool_addr_range as Hbase.
  destruct (Hf (o + z)) as [Na Nh]; unfold MEMORY_POOL_SIZE, BLOCK_SIZE in *;
    [lia|Z.div_mod_to_equations; lia|].
  destruct Nh as [[Ns Nn]|[Ns Nn]];
    (eapply (coalesce_round s o z); [lia|lia|lia| | |exact Cs|exact Na|exact Ns|exact Nn|];
     [try (destruct (_ =? _)); unfold NULL; lia|lia|]); intros s1 F1 Ca1 Cs1 Cn1;
    apply (merged_frame s s1 _ o F1).
  - apply (IH s1 o (z + 32)); [lia..| | | | |by apply Ca1|done|].
    + Z.div_mod_to_equations; lia.
    + done.
    + lia.
    + eapply free_frame; [exact F1|lia| |exact Hf]. lia.
    + intros ->. by rewrite (proj2 (Z.eqb_eq _ _)) in Cn1 by lia.
  - destruct fuel as [|[|fuel]]; [lia..|]. apply coalesce_merged; [lia|].
    split; [by apply Ca1|]. split; [|done]. by replace (4096 - o) with (z + (4096 - (o + z))) by lia.
Qed.

(** What releasing the last allocation, [z] bytes at offset [o], does: the block is free again and
    merged with everything behind it. *)
Record freed (s : heap_t) (o z : Z) (s' : heap_t) : Prop := {
  fr_state : s' = Heap (heap_kernel s) (pool s') (pool_addr + o) (u32 (free_bytes s + z))
    (u32 (allocated_bytes s - z)) (allocation_count s) (u32 (free_count s + 1));
  fr_merged : merged s' o;
  fr_frame : ∀ a, a < pool_addr + o ∨ pool_addr + o + HEADER_SIZE ≤ a → pool s' a = pool s a
}.

Lemma coalesce_last s o z : 0 ≤ o → 32 ≤ z → z mod 32 = 0 → o mod 32 = 0 → o + z < 4096 →
  free_from s (o + z) → cell s (pool_addr + o + 4) 1 0 → cell s (pool_addr + o + 8) 4 z →
  wp (coalesce 260 (pool_addr + o))
    (λ _ s', pool_frame (pool_addr + o) (pool_addr + o + 12) s s' ∧ merged s' o) s.
Proof.
  intros Ho Hz Hzal Hoal Hfit Hf Ca Cs.
  assert (0 < (4096 - o - z) / 32 ≤ 128) by (Z.div_mod_to_equations; lia).
  apply (coalesce_free (Z.to_nat ((4096 - o - z) / 32)) s o z); [|done..| |done|done|done|].
  - lia.
  - rewrite Z2Nat.id by lia. Z.div_mod_to_equations; lia.
  - intros Hk. lia.
Qed.

Lemma os_free_freed s o z : bump s (o + z) → 0 ≤ o → 32 ≤ z → z mod 32 = 0 →
  cell s (pool_addr + o + 4) 1 1 → cell s (pool_addr + o + 8) 4 z →
  wp (os_free (pool_addr + o + HEADER_SIZE)) (λ _ s', freed s o z s') s.
Proof.
  intros Hb Ho Hz Hzal Ca Cs. pose proof pool_addr_range as Hbase. pose proof Hb as [Hr Hal Hl _ _ Hf].
  unfold MEMORY_POOL_SIZE, BLOCK_SIZE in *. unfold os_free.
  assert (o mod 32 = 0 ∧ o + z + 32 ≤ 4096) as [Hoal Hfit] by (Z.div_mod_to_equations; lia).
  destruct (Z.eqb_spec (pool_addr + o + HEADER_SIZE) NULL); [unfold NULL, HEADER_SIZE in *; lia|].
  rewrite wp_enter_bind. replace (u32 _) with (pool_addr + o)
    by (unfold HEADER_SIZE; rewrite u32_small; lia).
  set (s0 := kput _ s). assert (free_from s0 (o + z)) as Hf0 by exact Hf.
  rewrite wp_bind. eapply (wp_pload _ _ 1); [lia..|exact Ca|]. cbn [Z.eqb].
  rewrite wp_bind. apply wp_pstore; [simpl; lia..|]. intros s1 F1 C1.
  rewrite wp_bind. eapply (wp_pload _ _ z); [lia..|eapply cell_frame; [exact F1|lia|exact Cs]|].
  rewrite wp_bind, wp_modify, wp_bind, wp_gets, wp_bind. cbn [free_list set_field].
  assert (free_list s1 = pool_addr + o + z) as El1.
  { rewrite (proj1 F1). change (free_list s = pool_addr + o + z). lia. }
  rewrite El1. match goal with |- wp _ _ ?x => set (s1' := x) end.
  apply wp_pstore; [lia..|]. intros s2 F2 C2.
  rewrite wp_bind, wp_modify, wp_bind, wp_gets. cbn [free_list set_field].
  rewrite wp_bind. match goal with |- wp _ _ ?x => set (s3 := x) end.
  eapply wp_mono; [apply (coalesce_last s3 o z); [lia..| | |]|].
  - change (free_from s2 (o + z)). eapply free_frame; [exact F2|lia|reflexivity|].
    change (free_from s1 (o + z)). eapply free_frame; [exact F1|lia|reflexivity|done].
  - change (cell s2 (pool_addr + o + 4) 1 0). eapply cell_frame; [exact F2|lia|exact C1].
  - change (cell s2 (pool_addr + o + 8) 4 z). eapply cell_frame; [exact F2|lia|].
    change (cell s1 (pool_addr + o + 8) 4 z). eapply cell_frame; [exact F1|lia|exact Cs].
  - intros [] s4 [[E4 F4] Hm]. rewrite wp_in_kernel, wp_exit.
    destruct F1 as [E1 F1], F2 as [E2 F2]. split; [|exact Hm|].
    + rewrite E4. unfold s3. rewrite E2. unfold s1'. rewrite E1. by destruct s as [[]].
    + unfold HEADER_SIZE. intros a Ha. change (pool s4 a = pool s a).
      rewrite F4 by lia. change (pool s2 a = pool s a). rewrite F2 by lia.
      change (pool s1 a = pool s a). apply F1. lia.
Qed.

(** After a block of the smallest size was released, everything from its offset on is free. *)
Lemma freed_bump s o s' : bump s (o + 32) → 0 ≤ o → freed s o 32 s' → bump s' o.
Proof.
  intros [Hr Hal Hl Hfb Hub Hf] Ho [E Hm F]. unfold MEMORY_POOL_SIZE, BLOCK_SIZE, HEADER_SIZE in *.
  constructor; unfold MEMORY_POOL_SIZE, BLOCK_SIZE.
  - lia.
  - Z.div_mod_to_equations; lia.
  - by rewrite E.
  - rewrite E. change (u32 (free_bytes s + 32) = 4096 - o). rewrite Hfb, u32_small; lia.
  - rewrite E. change (u32 (allocated_bytes s - 32) = o). rewrite Hub, u32_small; lia.
  - intros c Hc Hcal. unfold MEMORY_POOL_SIZE, BLOCK_SIZE in *.
    destruct (decide (c = o)) as [->|]; [destruct Hm as (? & ? & ?); split; [done|by right]|].
    destruct (Hf c) as [Ha Hh]; [unfold MEMORY_POOL_SIZE; Z.div_mod_to_equations; lia|done|].
    assert (∀ a n v, pool_addr + c ≤ a → cell s a n v → cell s' a n v) as Hcell.
    { intros a m v ? <-. unfold cell. f_equal. apply mread_ext. intros x ?. apply F.
      Z.div_mod_to_equations; lia. }
    split; [apply Hcell; [lia|done]|].
    destruct Hh as [[??]|[??]]; [left|right]; split; (apply Hcell; [lia|done]).
Qed.

(** * Programs that use the heap *)

(** A caller fills the storage it was given. *)
Definition fill (p : ptr) (bs : list Z) : M heap_t unit := modify (λ s, s <| pool ::= mwrite p bs |>).

(** One block per element of [ds], each filled with its data. *)
Fixpoint store_all (ds : list (list Z)) : M heap_t (list ptr) :=
  match ds with
  | [] => ret []
  | d :: ds =>
      let! p := os_malloc (Z.of_nat (length d)) in
      fill p d ;;;
      let! ps := store_all ds in
      ret (p :: ps)
  end.
Definition total (ds : list (list Z)) : Z := foldr (λ d n, footprint (Z.of_nat (length d)) + n) 0 ds.

(** Nested use: a block is allocated and filled, [inner] runs, the data is compared with what was
    stored, the block is released, and [after] runs. *)
Inductive stack_use :=
| Done
| Use (data : list Z) (inner after : stack_use).
Fixpoint depth (t : stack_use) : Z :=
  match t with Done => 0 | Use _ inner after => Z.max (1 + depth inner) (depth after) end.
Fixpoint small (t : stack_use) : Prop :=
  match t with
  | Done => True
  | Use data inner after => (0 < length data ≤ 20)%nat ∧ small inner ∧ small after
  end.
Fixpoint run_stack (t : stack_use) : M heap_t bool :=
  match t with
  | Done => ret true
  | Use data inner after =>
      let! p := os_malloc (Z.of_nat (length data)) in
      fill p data ;;;
      let! b1 := run_stack inner in
      let! kept := gets (λ s, bool_decide (mread (pool s) p (Z.of_nat (length data)) = data)) in
      os_free p ;;;
      let! b2 := run_stack after in
      ret (b1 && kept && b2)
  end.

Lemma total_nonneg ds : 0 ≤ total ds.
Proof.
  induction ds as [|d ds IH]; simpl; [done|].
  assert (0 ≤ footprint (Z.of_nat (length d))); [|lia].
  unfold footprint, BLOCK_SIZE, HEADER_SIZE. apply Z.mul_nonneg_nonneg; [apply Z.div_pos|]; lia.
Qed.

(** Filling an allocated block of [size] bytes at offset [o] changes nothing but its storage. *)
Lemma fill_bump s o o' p bs : bump s o → pool_addr ≤ p → p + Z.of_nat (length bs) ≤ pool_addr + o' →
  o' ≤ o → bump (s <| pool ::= mwrite p bs |>) o.
Proof.
  intros [Hr Hal Hl Hfb Hub Hf] Hp Hlen Ho. constructor; [done..|].
  eapply (free_frame p (p + Z.of_nat (length bs))); [|lia|reflexivity|exact Hf].
  split; [done|]. intros a ?. cbn. by apply mwrite_out.
Qed.

Lemma store_all_spec ds : ∀ s o, Forall (λ d, 0 < length d ≤ 4096)%nat ds → bump s o →
  o + total ds < 4096 →
  wp (store_all ds) (λ ps s', bump s' (o + total ds) ∧
    (∀ a, a < pool_addr + o → pool s' a = pool s a) ∧
    Forall2 (λ d p, mread (pool s') p (Z.of_nat (length d)) = d) ds ps) s.
Proof.
  induction ds as [|d ds IH]; intros s o Hds Hb Hfit; cbn [store_all total foldr] in *.
  { rewrite wp_ret, Z.add_0_r. auto. }
  fold (total ds) in *. apply Forall_cons in Hds as [Hd Hds]. set (n := Z.of_nat (length d)) in *.
  pose proof (total_nonneg ds). pose proof (footprint_bounds n ltac:(lia)) as [Hfp _].
  pose proof (bump_range _ _ Hb). unfold HEADER_SIZE in *.
  rewrite wp_bind. eapply wp_mono; [apply (os_malloc_spec s o n); [done|lia..]|].
  intros p s1 [-> [Hb1 _ _ _ Hf1]]. unfold HEADER_SIZE in *. rewrite wp_bind. unfold fill. rewrite wp_modify, wp_bind.
  eapply wp_mono; [apply (IH _ (o + footprint n)); [done| |lia]|].
  { eapply (fill_bump _ _ (o + footprint n)); [done|lia..]. }
  intros ps s2 (Hb2 & Hf2 & Hps). rewrite wp_ret. cbn in Hf2. split; [by rewrite Z.add_assoc|]. split.
  - intros a Ha. rewrite Hf2 by lia. rewrite mwrite_out by lia. apply Hf1. lia.
  - constructor; [|done]. rewrite <-(mread_mwrite_same (pool_addr + o + 12) d (pool s1)) at 2.
    apply mread_ext. intros x Hx. apply Hf2. lia.
Qed.

Lemma footprint_small n : 0 < n ≤ 20 → footprint n = 32.
Proof.
  intros. unfold footprint, HEADER_SIZE, BLOCK_SIZE.
  replace ((n + 12 + 32 - 1) / 32) with 1; [done|]. apply Z.div_unique with (n + 11); lia.
Qed.

Lemma run_stack_spec t : ∀ s o, small t → bump s o → o + 32 * depth t < 4096 →
  wp (run_stack t) (λ b s', b = true ∧ bump s' o ∧ heap_kernel s' = heap_kernel s ∧
    ∀ a, a < pool_addr + o → pool s' a = pool s a) s.
Proof.
  induction t as [|d t1 IH1 t2 IH2]; intros s o Hsm Hb Hfit; cbn [run_stack small depth] in *.
  { rewrite wp_ret. auto. }
  destruct Hsm as (Hd & Hs1 & Hs2). set (n := Z.of_nat (length d)) in *.
  pose proof (footprint_small n ltac:(lia)) as Efp. pose proof (bump_range _ _ Hb).
  assert (0 ≤ depth t1) by (clear; induction t1; simpl; lia).
  rewrite wp_bind. eapply wp_mono; [apply (os_malloc_spec s o n); [done|lia..]|].
  intros p s1 [-> [Hb1 Hk1 Ha1 Hz1 Hf1]]. rewrite Efp in *. unfold HEADER_SIZE in *.
  rewrite wp_bind. unfold fill. rewrite wp_modify, wp_bind. set (s1' := s1 <| pool ::= _ |>).
  assert (pool_frame (pool_addr + o + 12) (pool_addr + o + 32) s1 s1') as F1.
  { split; [done|]. intros a ?. cbn. apply mwrite_out. lia. }
  eapply wp_mono; [apply (IH1 s1' (o + 32)); [done|by eapply (fill_bump _ _ (o + 32)); try lia|lia]|].
  intros b1 s2 (-> & Hb2 & Hk2 & Hf2). rewrite wp_bind, wp_gets, bool_decide_true.
  2:{ rewrite <-(mread_mwrite_same (pool_addr + o + 12) d (pool s1)).
      apply mread_ext. intros x Hx. apply Hf2. lia. }
  assert (∀ a n v, a + n ≤ pool_addr + o + 12 → cell s1 a n v → cell s2 a n v) as Hcell.
  { intros a m v Ha <-. unfold cell. f_equal. apply mread_ext. intros x Hx. rewrite Hf2 by lia.
    apply (proj2 F1). lia. }
  rewrite wp_bind. eapply wp_mono; [apply (os_free_freed s2 o 32); [done|lia|lia|done|apply Hcell; [lia|done]..]|].
  intros [] s3 Hfr. pose proof (freed_bump s2 o s3 Hb2 ltac:(lia) Hfr) as Hb3.
  destruct Hfr as [E3 _ Hf3]. pose proof (f_equal heap_kernel E3) as Hk3. cbn in Hk3.
  unfold HEADER_SIZE in *. rewrite wp_bind.
  eapply wp_mono; [apply (IH2 s3 o); [done..|lia]|]. intros b2 s4 (-> & Hb4 & Hk4 & Hf4).
  rewrite wp_ret. split; [done|]. split; [done|]. split; [by rewrite Hk4, Hk3, Hk2|].
  intros a Ha. rewrite Hf4, Hf3, Hf2 by lia. rewrite (proj2 F1) by lia. apply Hf1. lia.
Qed.
End memory.

(** * Theorems *)

(** C13. Blocks do not overlap: after [os_mem_init], any sequence of allocations that leaves at least
    one block of the pool free succeeds, each block keeps the data its owner stored in it while the
    others are allocated and filled, and the free memory that is reported is exactly what the
    allocations left. *)
Theorem heap_separation `{!HeapBase} (ds : list (list Z)) (s : heap_t) :
  Forall (λ d, 0 < length d ≤ 4096)%nat ds → total ds < MEMORY_POOL_SIZE →
  wp (os_mem_init ;;; store_all ds) (λ ps s',
    Forall2 (λ d p, mread (pool s') p (Z.of_nat (length d)) = d) ds ps ∧
    os_get_free_memory s' = MEMORY_POOL_SIZE - total ds) s.
Proof.
  intros Hds Hfit. rewrite wp_bind. eapply wp_mono; [apply os_mem_init_spec|].
  intros [] s0 [Hb _]. eapply wp_mono; [by apply (store_all_spec ds s0 0)|].
  intros ps s' (Hb' & _ & Hps). split; [done|]. exact (bump_free _ _ Hb').
Qed.

(** Nested use returns everything: a program that allocates blocks of at most 20 bytes and
    releases them in the opposite order, however deeply nested (at most 127 blocks at a time) and
    however often repeated, never runs out of memory, finds its data unchanged before each release,
    and leaves the whole pool free and the interrupt mask as it was. *)
Theorem heap_nested_use `{!HeapBase} (t : stack_use) (s : heap_t) :
  small t → BLOCK_SIZE * depth t < MEMORY_POOL_SIZE →
  wp (os_mem_init ;;; run_stack t) (λ intact s',
    intact = true ∧ os_get_free_memory s' = MEMORY_POOL_SIZE ∧ heap_kernel s' = heap_kernel s) s.
Proof.
  intros Hsm Hfit. rewrite wp_bind. eapply wp_mono; [apply os_mem_init_spec|].
  intros [] s0 [Hb Hk]. eapply wp_mono; [by apply (run_stack_spec t s0 0)|].
  intros b s' (-> & Hb' & Hk' & _). split; [done|]. split; [exact (bump_free _ _ Hb')|congruence].
Qed.

(** Exhaustion is not detected: a request that does not leave a free block at the end of the pool
    (also one that would fit exactly) makes [os_malloc] read the header of a block behind the pool,
    instead of returning [NULL]; only sizes of zero and above 4096 are refused. *)
Theorem heap_end_undefined `{!HeapBase} (ds : list (list Z)) (size : Z) (s : heap_t) :
  Forall (λ d, 0 < length d ≤ 4096)%nat ds → total ds < MEMORY_POOL_SIZE →
  wp (os_mem_init ;;; store_all ds) (λ _ s',
    (0 < size ≤ MEMORY_POOL_SIZE → MEMORY_POOL_SIZE ≤ total ds + footprint size →
       os_malloc size s' = Undef) ∧
    (size = 0 ∨ MEMORY_POOL_SIZE < size → os_malloc size s' = Ret NULL s')) s.
Proof.
  intros Hds Hfit. rewrite wp_bind. eapply wp_mono; [apply os_mem_init_spec|].
  intros [] s0 [Hb _]. eapply wp_mono; [by apply (store_all_spec ds s0 0)|].
  intros ps s' (Hb' & _ & _). split; [|apply os_malloc_refuses].
  intros. by eapply os_malloc_end.
Qed.

(** * Witnesses *)
#[local] Program Instance demo_base : HeapBase := {| pool_addr := 536870912 |}.
Next Obligation. lia. Qed.
Definition demo_heap : heap_t := Heap (Kernel NULL (replicate 256 NULL) (replicate 8 0) 0 0 0 false ∅ 0) (λ _, 255) 0 0 0 0 0.

Lemma heap_separation_witness :
  wp (os_mem_init ;;; store_all [[1; 2; 3]; replicate 100 7; [9]]) (λ ps s',
    Forall2 (λ d p, mread (pool s') p (Z.of_nat (length d)) = d) [[1; 2; 3]; replicate 100 7; [9]] ps ∧
    os_get_free_memory s' = MEMORY_POOL_SIZE - 192) demo_heap.
Proof.
  refine (heap_separation [[1; 2; 3]; replicate 100 7; [9]] demo_heap _ _); [|done].
  repeat constructor; simpl; lia.
Defined.

Lemma heap_nested_use_witness :
  wp (os_mem_init ;;; run_stack (Use [1; 2] (Use [3] Done Done) (Use [4; 5; 6] Done Done))) (λ b s',
    b = true ∧ os_get_free_memory s' = MEMORY_POOL_SIZE ∧ heap_kernel s' = heap_kernel demo_heap) demo_heap.
Proof.
  refine (heap_nested_use (Use [1; 2] (Use [3] Done Done) (Use [4; 5; 6] Done Done)) demo_heap _ _);
    [simpl; lia|done].
Defined.

Lemma heap_end_undefined_witness :
  wp (os_mem_init ;;; store_all []) (λ _ s', os_malloc 4096 s' = Undef) demo_heap.
Proof.
  eapply wp_mono; [refine (heap_end_undefined [] 4096 demo_heap _ _); [constructor|done]|].
  intros ps s' [Hend _]. apply Hend; vm_compute; intuition discriminate.
Defined.
