(* ===== verification/Flash.v ===== *)
(** Flash: the flash driver of [drivers/flash.c], on its simulated flash array.

    [flash_t] holds the static variables of the file; the array [simulated_flash] is a flat memory
    of which the addresses [0, FLASH_TOTAL_SIZE) exist. The weak [platform_flash_*] functions are
    the default ones of the file, which send every operation to the simulated array. A buffer that
    is read is the option of its bytes ([None] is [NULL]); a buffer that is filled is the result
    of the function, next to the error code. [size_t] has 32 bits. *)
From Stdlib Require Import ZArith Lia String.
From stdpp Require Import base numbers gmap list.
From S2P Require Import Prelude Types Kernel ReadyQueue Scheduler KernelApi Bytes Memory.

(** * Constants and types *)
Definition FLASH_PAGE_SIZE : Z := 512.
Definition FLASH_SECTOR_SIZE : Z := 4096.
Definition FLASH_TOTAL_SIZE : Z := 512 * 1024.
Definition FLASH_BOOTLOADER_START : Z := 0.
Definition FLASH_BOOTLOADER_SIZE : Z := 16 * 1024.
Definition FLASH_APP_A_START : Z := 16384.
Definition FLASH_APP_A_SIZE : Z := 240 * 1024.
Definition FLASH_APP_B_START : Z := 262144.
Definition FLASH_APP_B_SIZE : Z := 240 * 1024.
Definition FLASH_DATA_START : Z := 507904.
Definition FLASH_DATA_SIZE : Z := 16 * 1024.

Inductive flash_error_t :=
| FLASH_OK
| FLASH_ERROR_INVALID_PARAM
| FLASH_ERROR_NOT_ALIGNED
| FLASH_ERROR_OUT_OF_RANGE
| FLASH_ERROR_WRITE_PROTECTED
| FLASH_ERROR_ERASE_FAILED
| FLASH_ERROR_WRITE_FAILED
| FLASH_ERROR_VERIFY_FAILED
| FLASH_ERROR_BUSY
| FLASH_ERROR_TIMEOUT.
#[export] Instance flash_error_eq_dec : EqDecision flash_error_t.
Proof. solve_decision. Defined.

Record flash_info_t := FlashInfo {
  fi_total_size : Z;
  fi_page_size : Z;
  fi_sector_size : Z;
  fi_write_alignment : Z;
  fi_write_protection_enabled : bool
}.

Record flash_t := Flash {
  simulated_flash : memory;
  flash_initialized : bool;
  write_protection_enabled : bool;
  protected_start : Z;
  protected_size : Z
}.
#[export] Instance flash_eta : Eta flash_t := λ f,
  Flash (simulated_flash f) (flash_initialized f) (write_protection_enabled f) (protected_start f)
    (protected_size f).

(** * Platform functions: the weak definitions of the file *)
Definition platform_flash_init : flash_error_t := FLASH_OK.
Definition platform_flash_read (address size : Z) : flash_error_t := FLASH_ERROR_INVALID_PARAM.
Definition platform_flash_write (address : Z) (buffer : option (list Z)) (size : Z) : flash_error_t :=
  FLASH_ERROR_INVALID_PARAM.
Definition platform_flash_erase_sector (address : Z) : flash_error_t := FLASH_ERROR_INVALID_PARAM.

(** * Helper functions *)
Definition is_address_valid (address size : Z) : bool :=
  (size <=? FLASH_TOTAL_SIZE) && (address <=? u32 (FLASH_TOTAL_SIZE - size)).
Definition is_sector_aligned (address : Z) : bool := address mod FLASH_SECTOR_SIZE =? 0.
Definition is_write_protected_range (address size : Z) (f : flash_t) : bool :=
  if negb (write_protection_enabled f) then false
  else
    let end_ := u32 (address + size) in
    let protected_end := u32 (protected_start f + protected_size f) in
    negb ((end_ <=? protected_start f) || (protected_end <=? address)).

(** * Initialization *)
Definition flash_init : M flash_t flash_error_t :=
  let! initialized := gets flash_initialized in
  if initialized then ret FLASH_OK
  else
    modify (λ f, f <| simulated_flash ::= mset 0 255 FLASH_TOTAL_SIZE |>) ;;;
    if decide (platform_flash_init ≠ FLASH_OK) then ret platform_flash_init
    else
      modify (λ f, f <| flash_initialized := true |>) ;;;
      ret FLASH_OK.

Definition flash_get_info (info : ptr) (f : flash_t) : flash_error_t * option flash_info_t :=
  if info =? NULL then (FLASH_ERROR_INVALID_PARAM, None)
  else (FLASH_OK, Some (FlashInfo FLASH_TOTAL_SIZE FLASH_PAGE_SIZE FLASH_SECTOR_SIZE 4
                          (write_protection_enabled f))).

(** * Reading *)
Definition flash_read (address : Z) (buffer : ptr) (size : Z) : M flash_t (flash_error_t * list Z) :=
  λ f,
  if (buffer =? NULL) || (size =? 0) then Ret (FLASH_ERROR_INVALID_PARAM, []) f
  else if negb (flash_initialized f) then Ret (FLASH_ERROR_INVALID_PARAM, []) f
  else if negb (is_address_valid address size) then Ret (FLASH_ERROR_OUT_OF_RANGE, []) f
  else if decide (platform_flash_read address size = FLASH_OK) then Ret (FLASH_OK, []) f
  else Ret (FLASH_OK, mread (simulated_flash f) address size) f.

Definition flash_read_byte (address : Z) (value : ptr) : M flash_t (flash_error_t * list Z) :=
  flash_read address value 1.
Definition flash_read_word (address : Z) (value : ptr) : M flash_t (flash_error_t * list Z) :=
  if negb (address mod 4 =? 0) then ret (FLASH_ERROR_NOT_ALIGNED, []) else flash_read address value 4.

(** * Writing *)

(** A buffer shorter than [size] is read beyond its end: undefined behaviour. *)
Definition flash_write (address : Z) (buffer : option (list Z)) (size : Z) : M flash_t flash_error_t :=
  λ f,
  match buffer with
  | None => Ret FLASH_ERROR_INVALID_PARAM f
  | Some bs =>
      if size =? 0 then Ret FLASH_ERROR_INVALID_PARAM f
      else if negb (flash_initialized f) then Ret FLASH_ERROR_INVALID_PARAM f
      else if negb (is_address_valid address size) then Ret FLASH_ERROR_OUT_OF_RANGE f
      else if is_write_protected_range address size f then Ret FLASH_ERROR_WRITE_PROTECTED f
      else if decide (platform_flash_write address buffer size = FLASH_OK) then Ret FLASH_OK f
      else if Z.of_nat (length bs) <? size then Undef
      else Ret FLASH_OK (f <| simulated_flash ::= mwrite address (take (Z.to_nat size) bs) |>)
  end.

Definition flash_write_byte (address value : Z) : M flash_t flash_error_t :=
  flash_write address (Some (le_encode 1 value)) 1.
Definition flash_write_word (address value : Z) : M flash_t flash_error_t :=
  if negb (address mod 4 =? 0) then ret FLASH_ERROR_NOT_ALIGNED
  else flash_write address (Some (le_encode 4 value)) 4.

(** * Erasing *)
Definition flash_erase_sector (address : Z) : M flash_t flash_error_t := λ f,
  if negb (flash_initialized f) then Ret FLASH_ERROR_INVALID_PARAM f
  else
    let sector_address := address / FLASH_SECTOR_SIZE * FLASH_SECTOR_SIZE in
    if negb (is_address_valid sector_address FLASH_SECTOR_SIZE) then Ret FLASH_ERROR_OUT_OF_RANGE f
    else if is_write_protected_range sector_address FLASH_SECTOR_SIZE f then
      Ret FLASH_ERROR_WRITE_PROTECTED f
    else if decide (platform_flash_erase_sector sector_address = FLASH_OK) then Ret FLASH_OK f
    else Ret FLASH_OK (f <| simulated_flash ::= mset sector_address 255 FLASH_SECTOR_SIZE |>).

(** The loop of [flash_erase_range]. *)
Fixpoint erase_loop (fuel : nat) (addr end_sector : Z) : M flash_t flash_error_t :=
  match fuel with
  | O => nofuel
  | S fuel =>
      if addr <? end_sector then
        let! err := flash_erase_sector addr in
        if decide (err ≠ FLASH_OK) then ret err
        else erase_loop fuel (u32 (addr + FLASH_SECTOR_SIZE)) end_sector
      else ret FLASH_OK
  end.

(** The loop ends at the first sector behind the flash at the latest, so 130 rounds are enough. *)
Definition flash_erase_range (start_address size : Z) : M flash_t flash_error_t :=
  let! initialized := gets flash_initialized in
  if negb initialized then ret FLASH_ERROR_INVALID_PARAM
  else
    let start_sector := start_address / FLASH_SECTOR_SIZE * FLASH_SECTOR_SIZE in
    let end_address := u32 (start_address + size) in
    let end_sector := u32 (end_address + FLASH_SECTOR_SIZE - 1) / FLASH_SECTOR_SIZE * FLASH_SECTOR_SIZE in
    erase_loop 130 start_sector end_sector.

Definition flash_erase_chip : M flash_t flash_error_t := λ f,
  if negb (flash_initialized f) then Ret FLASH_ERROR_INVALID_PARAM f
  else if write_protection_enabled f then Ret FLASH_ERROR_WRITE_PROTECTED f
  else Ret FLASH_OK (f <| simulated_flash ::= mset 0 255 FLASH_TOTAL_SIZE |>).

(** * Protection *)
Definition flash_enable_write_protection (start_address size : Z) : M flash_t flash_error_t := λ f,
  if negb (is_address_valid start_address size) then Ret FLASH_ERROR_OUT_OF_RANGE f
  else Ret FLASH_OK (f <| protected_start := start_address |> <| protected_size := size |>
                       <| write_protection_enabled := true |>).
Definition flash_disable_write_protection : M flash_t flash_error_t := λ f,
  Ret FLASH_OK (f <| write_protection_enabled := false |> <| protected_start := 0 |>
                  <| protected_size := 0 |>).
Definition flash_is_write_protected (address : Z) (f : flash_t) : bool :=
  if negb (write_protection_enabled f) then false
  else (protected_start f <=? address) && (address <? u32 (protected_start f + protected_size f)).

(** * Utility functions *)
Definition flash_is_busy : bool := false.
Definition flash_wait_ready (timeout_ms : Z) : flash_error_t := FLASH_OK.

Definition flash_error_code (e : flash_error_t) : Z :=
  match e with
  | FLASH_OK => 0
  | FLASH_ERROR_INVALID_PARAM => 1
  | FLASH_ERROR_NOT_ALIGNED => 2
  | FLASH_ERROR_OUT_OF_RANGE => 3
  | FLASH_ERROR_WRITE_PROTECTED => 4
  | FLASH_ERROR_ERASE_FAILED => 5
  | FLASH_ERROR_WRITE_FAILED => 6
  | FLASH_ERROR_VERIFY_FAILED => 7
  | FLASH_ERROR_BUSY => 8
  | FLASH_ERROR_TIMEOUT => 9
  end.
Definition error_strings : list string :=
  ["OK"; "Invalid parameter"; "Not aligned"; "Out of range"; "Write protected"; "Erase failed";
   "Write failed"; "Verify failed"; "Busy"; "Timeout"]%string.
Definition flash_error_to_string (error : Z) : string :=
  if u32 error <? Z.of_nat (length error_strings)
  then nth (Z.to_nat (u32 error)) error_strings ""%string else "Unknown error"%string.

(** * Writing with verification *)

(** The flash next to the heap from which the verify buffer comes. *)
Record dev_t := Dev { dev_flash : flash_t; dev_heap : heap_t }.
#[export] Instance dev_eta : Eta dev_t := λ d, Dev (dev_flash d) (dev_heap d).

Definition flash_write_verify `{!HeapBase} (address : Z) (buffer : option (list Z)) (size : Z) :
    M dev_t flash_error_t :=
  let! err := zoom dev_flash (flash_write address buffer size) in
  if decide (err ≠ FLASH_OK) then ret err
  else
    let! verify_buffer := zoom dev_heap (os_malloc size) in
    if verify_buffer =? NULL then ret FLASH_ERROR_VERIFY_FAILED
    else
      let! r := zoom dev_flash (flash_read address verify_buffer size) in
      if decide (r.1 ≠ FLASH_OK) then
        zoom dev_heap (os_free verify_buffer) ;;;
        ret r.1
      else
        zoom dev_heap (fill verify_buffer r.2) ;;;
        let! got := gets (λ d, mread (pool (dev_heap d)) verify_buffer size) in
        let same := bool_decide (take (Z.to_nat size) (default [] buffer) = got) in
        zoom dev_heap (os_free verify_buffer) ;;;
        ret (if same then FLASH_OK else FLASH_ERROR_VERIFY_FAILED).

(** * Lemmas *)
Lemma is_address_valid_spec address size : 0 ≤ address → 0 ≤ size →
  is_address_valid address size = bool_decide (address + size ≤ FLASH_TOTAL_SIZE).
Proof.
  intros Ha Hs. unfold is_address_valid, FLASH_TOTAL_SIZE.
  destruct (Z.leb_spec size (512 * 1024)); simpl.
  - rewrite u32_small by lia. rewrite Z.leb_antisym.
    destruct (Z.ltb_spec (512 * 1024 - size) address), (bool_decide_reflect (address + size ≤ 512 * 1024));
      simpl; lia || done.
  - symmetry. apply bool_decide_false. lia.
Qed.

(** The configuration of the driver: the protected range lies in the flash. *)
Record flash_ok (f : flash_t) : Prop := {
  fo_init : flash_initialized f = true;
  fo_start : 0 ≤ protected_start f;
  fo_size : 0 ≤ protected_size f;
  fo_end : protected_start f + protected_size f ≤ FLASH_TOTAL_SIZE
}.

(** An operation that is let through by the check of its range does not touch a protected byte. *)
Lemma unprotected_range f address size x : flash_ok f → 0 ≤ address → 0 ≤ size →
  address + size ≤ FLASH_TOTAL_SIZE → is_write_protected_range address size f = false →
  address ≤ x < address + size → flash_is_write_protected x f = false.
Proof.
  unfold FLASH_TOTAL_SIZE. intros [_ Hs Hz He] Ha Hn Hr Hp Hx. unfold FLASH_TOTAL_SIZE in *.
  unfold is_write_protected_range, flash_is_write_protected in *.
  destruct (write_protection_enabled f); simpl in *; [|done].
  rewrite !u32_small in * by lia. apply negb_false_iff, orb_true_iff in Hp.
  rewrite !Z.leb_le in Hp. apply andb_false_iff. rewrite Z.leb_gt, Z.ltb_ge. lia.
Qed.

(** [f'] is [f] after bytes that are not protected were changed. *)
Definition written (f f' : flash_t) : Prop :=
  f' = f <| simulated_flash := simulated_flash f' |> ∧
  ∀ x, flash_is_write_protected x f = true → simulated_flash f' x = simulated_flash f x.

#[export] Instance written_preorder : PreOrder written.
Proof.
  split.
  - intros f. split; [by destruct f|done].
  - intros f1 f2 f3 [E1 H1] [E2 H2]. split; [rewrite E2, E1; by destruct f1|].
    intros x Hx. rewrite H2, H1; [done..|]. rewrite E1. by destruct f1.
Qed.

Lemma written_ok f f' : flash_ok f → written f f' → flash_ok f'.
Proof. intros [] [-> _]. by constructor. Qed.

Lemma written_mwrite f address bs : flash_ok f → 0 ≤ address →
  address + Z.of_nat (length bs) ≤ FLASH_TOTAL_SIZE →
  is_write_protected_range address (Z.of_nat (length bs)) f = false →
  written f (f <| simulated_flash ::= mwrite address bs |>).
Proof.
  intros Hf Ha Hr Hp. split; [done|]. intros x Hx. cbn. apply mwrite_out.
  destruct (decide (x < address)), (decide (address + Z.of_nat (length bs) ≤ x)); [lia..|].
  by rewrite (unprotected_range f address (Z.of_nat (length bs))) in Hx by (done || lia).
Qed.

Lemma written_mset f address n : flash_ok f → 0 ≤ address → 0 ≤ n →
  address + n ≤ FLASH_TOTAL_SIZE → is_write_protected_range address n f = false →
  written f (f <| simulated_flash ::= mset address 255 n |>).
Proof.
  intros Hf Ha Hn Hr Hp. split; [done|]. intros x Hx. cbn. apply mset_out.
  destruct (decide (x < address)), (decide (address + n ≤ x)); [lia..|].
  by rewrite (unprotected_range f address n) in Hx by (done || lia).
Qed.

(** Writing and reading, on every branch. *)
Lemma flash_write_spec f address bs size : flash_ok f → 0 ≤ address → 0 ≤ size →
  size ≤ Z.of_nat (length bs) →
  flash_write address (Some bs) size f =
  if decide (size = 0) then Ret FLASH_ERROR_INVALID_PARAM f
  else if decide (FLASH_TOTAL_SIZE < address + size) then Ret FLASH_ERROR_OUT_OF_RANGE f
  else if is_write_protected_range address size f then Ret FLASH_ERROR_WRITE_PROTECTED f
  else Ret FLASH_OK (f <| simulated_flash ::= mwrite address (take (Z.to_nat size) bs) |>).
Proof.
  intros Hf Ha Hs Hlen. unfold flash_write. rewrite (fo_init _ Hf), is_address_valid_spec by lia.
  destruct (Z.eqb_spec size 0), (decide (size = 0)); try lia; [done|]. simpl.
  destruct (decide (FLASH_TOTAL_SIZE < address + size)).
  - by rewrite bool_decide_false by lia.
  - rewrite bool_decide_true by lia. simpl. destruct (is_write_protected_range address size f); [done|].
    by destruct (Z.ltb_spec (Z.of_nat (length bs)) size); [lia|].
Qed.

Lemma flash_read_spec f address buffer size : flash_initialized f = true → 0 ≤ address → 0 ≤ size →
  buffer ≠ NULL →
  flash_read address buffer size f =
  if decide (size = 0) then Ret (FLASH_ERROR_INVALID_PARAM, []) f
  else if decide (FLASH_TOTAL_SIZE < address + size) then Ret (FLASH_ERROR_OUT_OF_RANGE, []) f
  else Ret (FLASH_OK, mread (simulated_flash f) address size) f.
Proof.
  intros Hf Ha Hs Hb. unfold flash_read. rewrite Hf, is_address_valid_spec by lia.
  destruct (Z.eqb_spec buffer NULL); [done|]. simpl.
  destruct (Z.eqb_spec size 0), (decide (size = 0)); try lia; [done|].
  destruct (decide (FLASH_TOTAL_SIZE < address + size)).
  - by rewrite bool_decide_false by lia.
  - by rewrite bool_decide_true by lia.
Qed.

Lemma flash_erase_sector_spec f address : flash_ok f → 0 ≤ address < 2 ^ 32 →
  flash_erase_sector address f =
  let sector := address / 4096 * 4096 in
  if decide (FLASH_TOTAL_SIZE ≤ address) then Ret FLASH_ERROR_OUT_OF_RANGE f
  else if is_write_protected_range sector 4096 f then Ret FLASH_ERROR_WRITE_PROTECTED f
  else Ret FLASH_OK (f <| simulated_flash ::= mset sector 255 4096 |>).
Proof.
  intros Hf Ha. unfold flash_erase_sector, FLASH_SECTOR_SIZE, FLASH_TOTAL_SIZE.
  rewrite (fo_init _ Hf), is_address_valid_spec by (Z.div_mod_to_equations; lia).
  unfold FLASH_TOTAL_SIZE. simpl. destruct (decide (512 * 1024 ≤ address)).
  - by rewrite bool_decide_false by (Z.div_mod_to_equations; lia).
  - rewrite bool_decide_true by (Z.div_mod_to_equations; lia). by destruct (is_write_protected_range _ _ _).
Qed.

Lemma flash_erase_sector_written f address : flash_ok f → 0 ≤ address < 2 ^ 32 →
  wp (flash_erase_sector address) (λ e f', written f f' ∧ (FLASH_TOTAL_SIZE ≤ address → e ≠ FLASH_OK)) f.
Proof.
  intros Hf Ha. unfold wp. rewrite flash_erase_sector_spec by done. simpl.
  destruct (decide (FLASH_TOTAL_SIZE ≤ address)); [done|].
  destruct (is_write_protected_range _ _ _) eqn:Hp; [done|]. split; [|done].
  unfold FLASH_TOTAL_SIZE in *.
  apply written_mset; unfold FLASH_TOTAL_SIZE; try done; Z.div_mod_to_equations; lia.
Qed.

Lemma erase_loop_written n : ∀ f addr end_sector fuel, flash_ok f → 0 ≤ addr < 2 ^ 32 →
  end_sector ≤ 2 ^ 32 - 4096 → FLASH_TOTAL_SIZE ≤ addr + 4096 * Z.of_nat n → (S n < fuel)%nat →
  wp (erase_loop fuel addr end_sector) (λ _ f', written f f') f.
Proof.
  induction n as [|n IH]; intros f addr end_sector [|fuel] Hf Ha He Hn Hfuel; try lia;
    cbn [erase_loop]; (destruct (Z.ltb_spec addr end_sector); [|by rewrite wp_ret]); rewrite wp_bind;
    (eapply wp_mono; [by apply flash_erase_sector_written|]); intros e f1 [Hw Hlast];
    (destruct (decide (e ≠ FLASH_OK)) as [|Hok]; [by rewrite wp_ret|]).
  - destruct Hok. apply Hlast. lia.
  - unfold FLASH_SECTOR_SIZE. rewrite u32_small by lia. eapply wp_mono.
    + apply (IH f1); [by eapply written_ok|lia..].
    + intros e' f2 Hw2. by etransitivity.
Qed.

(** With protection off, the sectors of the range and nothing else are erased. *)
Lemma erase_loop_exact n : ∀ f addr fuel, flash_ok f → write_protection_enabled f = false →
  0 ≤ addr → addr mod 4096 = 0 → addr + 4096 * Z.of_nat n ≤ FLASH_TOTAL_SIZE → (n < fuel)%nat →
  ∃ f', erase_loop fuel addr (addr + 4096 * Z.of_nat n) f = Ret FLASH_OK f' ∧
    f' = f <| simulated_flash := simulated_flash f' |> ∧
    ∀ x, simulated_flash f' x = mset addr 255 (4096 * Z.of_nat n) (simulated_flash f) x.
Proof.
  unfold FLASH_TOTAL_SIZE.
  induction n as [|n IH]; intros f addr [|fuel] Hf Hp Ha Hal Hn Hfuel; try lia; cbn [erase_loop].
  - rewrite (proj2 (Z.ltb_ge _ _)) by lia. exists f. split; [done|]. split; [by destruct f|].
    intros x. by rewrite mset_out by lia.
  - rewrite (proj2 (Z.ltb_lt _ _)) by lia. 
    assert (flash_erase_sector addr f = Ret FLASH_OK (f <| simulated_flash ::= mset addr 255 4096 |>)) as E1.
    { rewrite flash_erase_sector_spec by (done || lia).
      replace (addr / 4096 * 4096) with addr by (Z.div_mod_to_equations; lia). cbv zeta.
      unfold is_write_protected_range, FLASH_TOTAL_SIZE. rewrite Hp. simpl negb. cbv iota.
      by rewrite decide_False by lia. }
    unfold bind. rewrite E1. destruct (decide (FLASH_OK ≠ FLASH_OK)); [done|].
    unfold FLASH_SECTOR_SIZE. rewrite u32_small by lia.
    destruct (IH (f <| simulated_flash ::= mset addr 255 4096 |>) (addr + 4096) fuel)
      as (f' & E & Ef & Hf'); [|done|lia|Z.div_mod_to_equations; lia|lia|lia|].
    { destruct Hf. by constructor. }
    replace (addr + 4096 * Z.of_nat (S n)) with (addr + 4096 + 4096 * Z.of_nat n) by lia.
    exists f'. split; [exact E|]. split; [exact Ef|]. intros x. rewrite Hf'. cbn.
    unfold mset.
    destruct (Z.leb_spec (addr + 4096) x), (Z.ltb_spec x (addr + 4096 + 4096 * Z.of_nat n)),
      (Z.leb_spec addr x), (Z.ltb_spec x (addr + 4096)),
      (Z.ltb_spec x (addr + 4096 * Z.of_nat (S n))); simpl; try lia; done.
Qed.

(** * Sequences of operations *)
Inductive flash_op :=
| OpInit
| OpRead (address : Z) (buffer : ptr) (size : Z)
| OpWrite (address : Z) (bs : list Z) (size : Z)
| OpWriteByte (address value : Z)
| OpWriteWord (address value : Z)
| OpEraseSector (address : Z)
| OpEraseRange (address size : Z)
| OpEraseChip.

(** The arguments fit their types, and the buffer of a write has the bytes to write. *)
Definition op_ok (op : flash_op) : Prop :=
  match op with
  | OpInit | OpEraseChip => True
  | OpRead a _ n => 0 ≤ a < 2 ^ 32 ∧ 0 ≤ n < 2 ^ 32
  | OpWrite a bs n => 0 ≤ a < 2 ^ 32 ∧ 0 ≤ n ≤ Z.of_nat (length bs)
  | OpWriteByte a _ | OpWriteWord a _ | OpEraseSector a => 0 ≤ a < 2 ^ 32
  | OpEraseRange a n => 0 ≤ a < 2 ^ 32 ∧ 0 ≤ n < 2 ^ 32
  end.

Definition run_op (op : flash_op) : M flash_t flash_error_t :=
  match op with
  | OpInit => flash_init
  | OpRead a p n => let! r := flash_read a p n in ret r.1
  | OpWrite a bs n => flash_write a (Some bs) n
  | OpWriteByte a v => flash_write_byte a v
  | OpWriteWord a v => flash_write_word a v
  | OpEraseSector a => flash_erase_sector a
  | OpEraseRange a n => flash_erase_range a n
  | OpEraseChip => flash_erase_chip
  end.
Fixpoint run_ops (ops : list flash_op) : M flash_t (list flash_error_t) :=
  match ops with
  | [] => ret []
  | op :: ops =>
      let! e := run_op op in
      let! es := run_ops ops in
      ret (e :: es)
  end.

Lemma flash_write_written f a bs n : flash_ok f → 0 ≤ a → 0 ≤ n ≤ Z.of_nat (length bs) →
  wp (flash_write a (Some bs) n) (λ _ f', written f f') f.
Proof.
  intros Hf Ha Hn. unfold wp. rewrite flash_write_spec by (done || lia).
  destruct (decide (n = 0)); [done|]. destruct (decide _); [done|].
  destruct (is_write_protected_range a n f) eqn:Hp; [done|].
  assert (Z.of_nat (length (take (Z.to_nat n) bs)) = n) as El by (rewrite length_take; lia).
  apply written_mwrite; [done|done|rewrite El; lia|by rewrite El].
Qed.

Lemma flash_erase_range_written f a n : flash_ok f → 0 ≤ a < 2 ^ 32 → 0 ≤ n →
  wp (flash_erase_range a n) (λ _ f', written f f') f.
Proof.
  intros Hf Ha Hn. unfold flash_erase_range. rewrite wp_bind, wp_gets, (fo_init _ Hf). cbn [negb].
  unfold FLASH_SECTOR_SIZE.
  pose proof (u32_range (a + n)). pose proof (u32_range (u32 (a + n) + 4096 - 1)).
  apply (erase_loop_written 128); [done|Z.div_mod_to_equations; lia..| |lia].
  unfold FLASH_TOTAL_SIZE. Z.div_mod_to_equations; lia.
Qed.

Lemma flash_erase_chip_written f : flash_ok f → wp flash_erase_chip (λ _ f', written f f') f.
Proof.
  intros Hf. unfold wp, flash_erase_chip. rewrite (fo_init _ Hf). simpl.
  destruct (write_protection_enabled f) eqn:E; [done|].
  split; [simpl; by rewrite E|]. intros x. unfold flash_is_write_protected. by rewrite E.
Qed.

Lemma run_op_written op f : flash_ok f → op_ok op → wp (run_op op) (λ _ f', written f f') f.
Proof.
  intros Hf Hop. destruct op as [|a p n|a bs n|a v|a v|a|a n|]; cbn [run_op op_ok] in *.
  - unfold flash_init. by rewrite wp_bind, wp_gets, (fo_init _ Hf), wp_ret.
  - rewrite wp_bind. unfold wp at 1. destruct (decide (p = NULL)) as [->|Hp].
    + unfold flash_read. simpl. by rewrite wp_ret.
    + rewrite flash_read_spec by (done || lia || apply Hf).
      repeat case_decide; by rewrite ?wp_ret.
  - apply flash_write_written; [done|lia..].
  - apply flash_write_written; [done|lia|simpl; lia].
  - unfold flash_write_word. destruct (negb _); [by rewrite wp_ret|].
    apply flash_write_written; [done|lia|simpl; lia].
  - eapply wp_mono; [by apply flash_erase_sector_written|]. by intros e f' [Hw _].
  - apply flash_erase_range_written; [done|lia..].
  - by apply flash_erase_chip_written.
Qed.

Lemma run_ops_written ops : ∀ f, flash_ok f → Forall op_ok ops →
  wp (run_ops ops) (λ _ f', written f f') f.
Proof.
  induction ops as [|op ops IH]; intros f Hf Hops; cbn [run_ops]; [by rewrite wp_ret|].
  apply Forall_cons in Hops as [Hop Hops]. rewrite wp_bind.
  eapply wp_mono; [by apply run_op_written|]. intros e f1 H1. rewrite wp_bind.
  eapply wp_mono; [apply IH; [by eapply written_ok|done]|]. intros es f2 H2. rewrite wp_ret.
  etransitivity; [exact H1|exact H2].
Qed.

(** * Theorems *)

(** C14. Write protection is respected: once a range of the flash is protected, no sequence of reads,
    writes, erasures of sectors, ranges or the chip, and initialisations, with any arguments, changes
    a byte of it, and every call returns. *)
Theorem flash_protection (start size : Z) (ops : list flash_op) (f : flash_t) :
  flash_initialized f = true → 0 ≤ start → 0 ≤ size → start + size ≤ FLASH_TOTAL_SIZE →
  Forall op_ok ops →
  wp (let! e := flash_enable_write_protection start size in let! es := run_ops ops in ret (e, es))
    (λ r f', r.1 = FLASH_OK ∧ length r.2 = length ops ∧
      ∀ x, start ≤ x < start + size → simulated_flash f' x = simulated_flash f x) f.
Proof.
  intros Hi Hs Hz He Hops. rewrite wp_bind. unfold wp at 1, flash_enable_write_protection.
  rewrite is_address_valid_spec, bool_decide_true by lia. cbn [negb].
  set (f1 := f <| protected_start := start |> <| protected_size := size |>
               <| write_protection_enabled := true |>).
  assert (flash_ok f1) as Hok by by constructor.
  rewrite wp_bind.
  assert (∀ ops f, wp (run_ops ops) (λ _ _, True) f → wp (run_ops ops) (λ es _, length es = length ops) f)
    as Hlen.
  { clear. intros ops. induction ops as [|op ops IH]; intros f; cbn [run_ops]; [done|].
    rewrite !wp_bind. intros Hwp. eapply wp_mono; [exact Hwp|]. intros e f1. rewrite !wp_bind.
    intros Hwp1. eapply wp_mono; [apply IH, Hwp1|]. intros es f2 E. rewrite wp_ret. simpl. by f_equal. }
  eapply wp_mono.
  - apply wp_conj; [by apply (run_ops_written ops f1)|apply Hlen].
    eapply wp_mono; [by apply (run_ops_written ops f1)|done].
  - intros es f' [[_ Hw] El]. rewrite wp_ret. split; [done|]. split; [done|]. intros x Hx.
    unfold FLASH_TOTAL_SIZE in *. apply Hw. unfold flash_is_write_protected, f1. cbn.
    rewrite u32_small by lia. apply andb_true_iff. rewrite Z.leb_le, Z.ltb_lt. lia.
Qed.

(** Writing and reading back: a write of [size] bytes to an unprotected range of the flash
    succeeds, a read of the range gives the bytes that were written, reads of ranges that do not
    overlap it are not affected, and a range that leaves the flash or overlaps the protected range is
    refused with the flash unchanged. *)
Theorem flash_write_read (f : flash_t) (address : Z) (bs : list Z) (buffer : ptr) :
  let size := Z.of_nat (length bs) in
  flash_ok f → 0 ≤ address → 0 < size → buffer ≠ NULL →
  (FLASH_TOTAL_SIZE < address + size →
     flash_write address (Some bs) size f = Ret FLASH_ERROR_OUT_OF_RANGE f) ∧
  (address + size ≤ FLASH_TOTAL_SIZE → is_write_protected_range address size f = true →
     flash_write address (Some bs) size f = Ret FLASH_ERROR_WRITE_PROTECTED f) ∧
  (address + size ≤ FLASH_TOTAL_SIZE → is_write_protected_range address size f = false →
     ∃ f', flash_write address (Some bs) size f = Ret FLASH_OK f' ∧
       flash_read address buffer size f' = Ret (FLASH_OK, bs) f' ∧
       ∀ a n, 0 ≤ a → 0 ≤ n → a + n ≤ address ∨ address + size ≤ a →
         ∃ e l, flash_read a buffer n f' = Ret (e, l) f' ∧ flash_read a buffer n f = Ret (e, l) f).
Proof.
  intros size Hf Ha Hs Hb. pose proof (fo_init _ Hf) as Hi.
  rewrite flash_write_spec, decide_False by (done || lia). split; [|split].
  - intros ?. by rewrite decide_True.
  - intros ? Hp. by rewrite decide_False, Hp by lia.
  - intros Hr Hp. rewrite decide_False, Hp by lia. unfold size at 1. rewrite Nat2Z.id, firstn_all.
    eexists. split; [done|]. split.
    + rewrite flash_read_spec, !decide_False by (done || lia). cbn. by rewrite mread_mwrite_same.
    + intros a n ?? Hd. rewrite !flash_read_spec by done.
      destruct (decide (n = 0)); [by do 2 eexists|]. destruct (decide _); [by do 2 eexists|].
      do 2 eexists. split; [done|]. cbn. by rewrite mread_mwrite_other.
Qed.

(** Erasing a range erases whole sectors: with protection off, [flash_erase_range] succeeds and
    sets exactly the bytes of the sectors that meet the range to 0xFF. *)
Theorem flash_erase_range_exact (f : flash_t) (start size : Z) :
  flash_ok f → write_protection_enabled f = false → 0 ≤ start → 0 < size →
  start + size ≤ FLASH_TOTAL_SIZE →
  ∃ f', flash_erase_range start size f = Ret FLASH_OK f' ∧
    ∀ x, simulated_flash f' x =
      if bool_decide (start / FLASH_SECTOR_SIZE ≤ x / FLASH_SECTOR_SIZE ≤ (start + size - 1) / FLASH_SECTOR_SIZE)
      then 255 else simulated_flash f x.
Proof.
  unfold FLASH_TOTAL_SIZE, FLASH_SECTOR_SIZE. intros Hf Hp Hs Hz He.
  set (first := start / 4096). set (last := (start + size - 1) / 4096).
  assert (0 ≤ first ≤ last ∧ last < 128) as Hfl by (unfold first, last; Z.div_mod_to_equations; lia).
  destruct (erase_loop_exact (Z.to_nat (last - first + 1)) f (first * 4096) 130) as (f' & E & _ & Hf');
    [done..|lia|apply Z.mod_mul; lia|unfold FLASH_TOTAL_SIZE; lia|lia|].
  exists f'. split.
  - unfold flash_erase_range, bind, gets. rewrite (fo_init _ Hf). cbn [negb].
    unfold FLASH_SECTOR_SIZE. rewrite (u32_small (start + size)), u32_small by lia.
    replace ((start + size + 4096 - 1) / 4096 * 4096)
      with (first * 4096 + 4096 * Z.of_nat (Z.to_nat (last - first + 1))); [exact E|].
    unfold last, first in *. Z.div_mod_to_equations; lia.
  - intros x. rewrite Hf'. unfold mset.
    destruct (bool_decide_reflect (first ≤ x / 4096 ≤ last)) as [Hin|Hout].
    + rewrite (proj2 (Z.leb_le _ _)), (proj2 (Z.ltb_lt _ _)); [done|..]; Z.div_mod_to_equations; lia.
    + destruct (Z.leb_spec (first * 4096) x), (Z.ltb_spec x (first * 4096 + 4096 * Z.of_nat (Z.to_nat (last - first + 1))));
        try done. exfalso. apply Hout. Z.div_mod_to_equations; lia.
Qed.

(** Filling a block and releasing it, when it is the last one that was allocated. *)
Lemma fill_free_spec `{!HeapBase} s o size bs s1 : bump s o → allocated s o size s1 → 0 < size →
  Z.of_nat (length bs) = size →
  wp (os_free (pool_addr + o + HEADER_SIZE))
    (λ _ s2, free_bytes s2 = free_bytes s) (s1 <| pool ::= mwrite (pool_addr + o + HEADER_SIZE) bs |>).
Proof.
  intros Hb [Hb1 Hk Ha Hz Hf] Hsize Hlen. pose proof (footprint_bounds size Hsize) as [Hfp Hal].
  pose proof (bump_range _ _ Hb). pose proof (bump_aligned _ _ Hb). pose proof (bump_range _ _ Hb1).
  unfold HEADER_SIZE, BLOCK_SIZE, MEMORY_POOL_SIZE in *.
  assert (pool_frame (pool_addr + o + 12) (pool_addr + o + footprint size) s1
    (s1 <| pool ::= mwrite (pool_addr + o + 12) bs |>)) as F.
  { split; [done|]. intros a ?. cbn. apply mwrite_out. lia. }
  eapply wp_mono; [apply (os_free_freed _ o (footprint size))|].
  - eapply (fill_bump _ _ (o + footprint size)); [done|lia..].
  - lia.
  - Z.div_mod_to_equations; lia.
  - done.
  - eapply cell_frame; [exact F|lia|done].
  - eapply cell_frame; [exact F|lia|done].
  - intros [] s2 [E _ _]. rewrite E. cbn.
    rewrite (bump_free _ _ Hb), (bump_free _ _ Hb1). unfold MEMORY_POOL_SIZE. rewrite u32_small; lia.
Qed.

(** [flash_write_verify] succeeds on an unprotected range as long as the heap has room for the
    verify buffer and one more block: the data is in the flash and the memory is released. When the
    write itself is refused, its error is returned and nothing changes. *)
Theorem flash_write_verify_succeeds `{!HeapBase} (d : dev_t) (o address : Z) (bs : list Z) :
  let size := Z.of_nat (length bs) in
  flash_ok (dev_flash d) → bump (dev_heap d) o → 0 ≤ address → 0 < size ≤ MEMORY_POOL_SIZE →
  o + footprint size < MEMORY_POOL_SIZE →
  (address + size ≤ FLASH_TOTAL_SIZE → is_write_protected_range address size (dev_flash d) = false →
    wp (flash_write_verify address (Some bs) size) (λ e d', e = FLASH_OK ∧
      mread (simulated_flash (dev_flash d')) address size = bs ∧
      os_get_free_memory (dev_heap d') = os_get_free_memory (dev_heap d)) d) ∧
  (FLASH_TOTAL_SIZE < address + size →
     flash_write_verify address (Some bs) size d = Ret FLASH_ERROR_OUT_OF_RANGE d).
Proof.
  intros size Hf Hb Ha Hs Hfit. pose proof (fo_init _ Hf) as Hi. pose proof pool_addr_range as Hbase.
  pose proof (bump_range _ _ Hb) as Hr.
  assert (take (Z.to_nat size) bs = bs) as Et by (unfold size; by rewrite Nat2Z.id, firstn_all).
  split.
  - intros Hrange Hp. unfold flash_write_verify. rewrite wp_bind, wp_zoom. unfold wp at 1.
    rewrite flash_write_spec, !decide_False, Hp by (done || lia). cbv beta iota.
    rewrite decide_False by (intros Hne; by apply Hne).
    rewrite Et, wp_bind, wp_zoom.
    eapply wp_mono; [apply (os_malloc_spec (dev_heap d) o size); [done|done|done]|].
    intros p s1 [-> Hal]. unfold HEADER_SIZE in *.
    destruct (Z.eqb_spec (pool_addr + o + 12) NULL) as [|Hn]; [unfold NULL in *; lia|].
    rewrite wp_bind, wp_zoom. unfold wp at 1. rewrite flash_read_spec, !decide_False by (done || lia).
    cbv beta iota. cbn [fst snd]. rewrite decide_False by (intros Hne; by apply Hne).
    rewrite wp_bind, wp_zoom. unfold fill. rewrite wp_modify. cbn.
    rewrite mread_mwrite_same.
    rewrite wp_bind, wp_gets, wp_bind, wp_zoom. cbn.
    eapply wp_mono; [by apply (fill_free_spec (dev_heap d) o size); [..|lia|]|]. intros [] s2 Hfree.
    rewrite Et. unfold size. rewrite !mread_mwrite_same, bool_decide_true; done.
  - intros Hr'. unfold flash_write_verify, bind at 1, zoom at 1.
    rewrite flash_write_spec, decide_False, decide_True by (done || lia). cbv beta iota.
    rewrite decide_True by done. by destruct d.
Qed.

(** * Witnesses *)
Definition demo_flash : flash_t := Flash (λ _, 255) true false 0 0.
Definition demo_ops : list flash_op :=
  [OpWrite 8190 [1; 2; 3; 4] 4; OpEraseRange 0 20000; OpEraseChip; OpWriteWord 8192 7; OpInit;
   OpWrite 100 [5] 1].

Lemma flash_protection_witness :
  wp (let! e := flash_enable_write_protection 8192 4096 in let! es := run_ops demo_ops in ret (e, es))
    (λ r f', r.1 = FLASH_OK ∧ length r.2 = 6%nat ∧
      ∀ x, 8192 ≤ x < 8192 + 4096 → simulated_flash f' x = simulated_flash demo_flash x) demo_flash.
Proof.
  refine (flash_protection 8192 4096 demo_ops demo_flash eq_refl _ _ _ _);
    [lia|lia|unfold FLASH_TOTAL_SIZE; lia|].
  repeat constructor; simpl; lia.
Defined.

Lemma demo_flash_ok : flash_ok demo_flash.
Proof. constructor; unfold FLASH_TOTAL_SIZE; simpl; lia || done. Qed.

Lemma flash_write_read_witness :
  ∃ f', flash_write 4094 (Some [1; 2; 3; 4]) 4 demo_flash = Ret FLASH_OK f' ∧
    flash_read 4094 1000 4 f' = Ret (FLASH_OK, [1; 2; 3; 4]) f'.
Proof.
  destruct (flash_write_read demo_flash 4094 [1; 2; 3; 4] 1000) as (_ & _ & Hw);
    [exact demo_flash_ok|lia|simpl; lia|done|].
  destruct Hw as (f' & Hw & Hr & _); [unfold FLASH_TOTAL_SIZE; simpl; lia|done|]. by exists f'.
Defined.

Lemma flash_erase_range_exact_witness :
  ∃ f', flash_erase_range 5000 4000 (demo_flash <| simulated_flash := λ _, 0 |>) = Ret FLASH_OK f' ∧
    simulated_flash f' 4096 = 255 ∧ simulated_flash f' 12287 = 255 ∧ simulated_flash f' 12288 = 0.
Proof.
  destruct (flash_erase_range_exact (demo_flash <| simulated_flash := λ _, 0 |>) 5000 4000)
    as (f' & E & Hx); [|done|lia|lia|unfold FLASH_TOTAL_SIZE; lia|].
  { constructor; unfold FLASH_TOTAL_SIZE; simpl; lia || done. }
  exists f'. split; [exact E|]. by rewrite !Hx.
Defined.

#[local] Program Instance demo_pool : HeapBase := {| pool_addr := 536870912 |}.
Next Obligation. lia. Qed.
Lemma flash_write_verify_succeeds_witness :
  wp os_mem_init (λ _ h,
    wp (flash_write_verify 4094 (Some [1; 2; 3; 4]) 4) (λ e d', e = FLASH_OK ∧
      mread (simulated_flash (dev_flash d')) 4094 4 = [1; 2; 3; 4] ∧
      os_get_free_memory (dev_heap d') = os_get_free_memory h) (Dev demo_flash h)) demo_heap.
Proof.
  eapply wp_mono; [apply os_mem_init_spec|]. intros [] h [Hb _].
  refine (proj1 (flash_write_verify_succeeds (Dev demo_flash h) 0 4094 [1; 2; 3; 4] demo_flash_ok Hb _ _ _) _ _);
    try done; simpl; lia.
Defined.
