(* ===== verification/Ramdisk.v ===== *)
(** Ramdisk: the RAM disk of [drivers/ramdisk.c] and the block device interface of [tinyos.h]
    ([fs_block_device_t]).

    The interface is a record of the five function pointers ([None]: a null pointer, which the clients
    test for in the optional ones); the class [BlockDevice] states what a
    client may rely on, the instance [ramdisk_device_laws] shows that the RAM disk provides it, and
    the theorems on stored data are proved from the class alone. *)
From Stdlib Require Import ZArith Lia.
From stdpp Require Import base numbers list.
From S2P Require Import Prelude.

(** * The interface *)
Definition BLOCK_BYTES : Z := 512.

Record fs_block_device_t (S : Type) := BlockDev {
  bd_read : Z → Z → M S (Z * list Z);
  bd_write : Z → list Z → Z → M S Z;
  bd_erase : option (Z → Z → M S Z);
  bd_sync : option (M S Z);
  bd_get_block_count : Z
}.
Arguments bd_read {S}.
Arguments bd_write {S}.
Arguments bd_erase {S}.
Arguments bd_sync {S}.
Arguments bd_get_block_count {S}.

(** The blocks [b, b + n) of a device whose block [i] holds [disk i], one after the other. *)
Definition blocks (disk : Z → list Z) (b n : Z) : list Z := concat (disk <$> seqZ b n).
Definition in_blocks (b n i : Z) : Prop := b ≤ i < b + n.

(** [contents s i] is what block [i] holds in state [s]; [ready s] says the device was started. *)
Class BlockDevice {S : Type} (dev : fs_block_device_t S) (ready : S → Prop) (contents : S → Z → list Z) := {
  bd_block_size : ∀ s i, ready s → 0 ≤ i < bd_get_block_count dev →
    length (contents s i) = Z.to_nat BLOCK_BYTES;
  bd_read_ok : ∀ s b n, ready s → 0 ≤ b → 0 ≤ n → b + n ≤ bd_get_block_count dev →
    bd_read dev b n s = Ret (0, blocks (contents s) b n) s;
  bd_write_ok : ∀ s b n bs, ready s → 0 ≤ b → 0 ≤ n → b + n ≤ bd_get_block_count dev →
    length bs = Z.to_nat (n * BLOCK_BYTES) →
    ∃ s', bd_write dev b bs n s = Ret 0 s' ∧ ready s' ∧ blocks (contents s') b n = bs ∧
      ∀ i, 0 ≤ i < bd_get_block_count dev → ¬ in_blocks b n i → contents s' i = contents s i;
  bd_erase_ok : ∀ erase s b n, bd_erase dev = Some erase →
    ready s → 0 ≤ b → 0 ≤ n → b + n ≤ bd_get_block_count dev →
    ∃ s', erase b n s = Ret 0 s' ∧ ready s' ∧
      ∀ i, 0 ≤ i < bd_get_block_count dev → ¬ in_blocks b n i → contents s' i = contents s i;
  bd_out_of_range : ∀ s b n bs, ready s → 0 ≤ b < 2 ^ 32 → 0 ≤ n < 2 ^ 32 →
    bd_get_block_count dev < b + n →
    bd_read dev b n s = Ret (-1, []) s ∧ bd_write dev b bs n s = Ret (-1) s ∧
    ∀ erase, bd_erase dev = Some erase → erase b n s = Ret (-1) s;
  bd_sync_ok : ∀ sync s, bd_sync dev = Some sync → ready s →
    ∃ r s', sync s = Ret r s' ∧ ready s' ∧ ∀ i, contents s' i = contents s i
}.

(** * The RAM disk *)
Definition RAMDISK_BLOCKS : Z := 256.
Definition RAMDISK_BLOCK_SIZE : Z := 512.

Record ramdisk_t := Ramdisk {
  ramdisk_storage : list (list Z);
  ramdisk_initialized : bool
}.
#[export] Instance ramdisk_eta : Eta ramdisk_t := λ r, Ramdisk (ramdisk_storage r) (ramdisk_initialized r).

(** [count > RAMDISK_BLOCKS || block > RAMDISK_BLOCKS - count] *)
Definition out_of_bounds (block count : Z) : bool :=
  (RAMDISK_BLOCKS <? count) || (u32 (RAMDISK_BLOCKS - count) <? block).

(** The copy loop of [ramdisk_read]: [n] more blocks, starting with number [i]. *)
Fixpoint read_blocks (n : nat) (block i : Z) : M ramdisk_t (list Z) :=
  match n with
  | O => ret []
  | S n =>
      let! d := gets ramdisk_storage in
      let! src := arr_get d (block + i) in
      let! rest := read_blocks n block (i + 1) in
      ret (src ++ rest)
  end.
Definition ramdisk_read (block count : Z) : M ramdisk_t (Z * list Z) :=
  let! initialized := gets ramdisk_initialized in
  if negb initialized then ret (-1, [])
  else if out_of_bounds block count then ret (-1, [])
  else
    let! bytes := read_blocks (Z.to_nat count) block 0 in
    ret (0, bytes).

Definition store_block (i : Z) (bs : list Z) : M ramdisk_t unit :=
  let! d := gets ramdisk_storage in
  let! _ := arr_get d i in
  modify (λ r, r <| ramdisk_storage ::= λ d, arr_set d i bs |>).

(** The copy loop of [ramdisk_write]; a buffer with fewer than 512 bytes left is read beyond its
    end: undefined behaviour. *)
Fixpoint write_blocks (n : nat) (block i : Z) (buffer : list Z) : M ramdisk_t unit :=
  match n with
  | O => ret tt
  | S n =>
      if Z.of_nat (length buffer) <? RAMDISK_BLOCK_SIZE then undef
      else
        store_block (block + i) (take (Z.to_nat RAMDISK_BLOCK_SIZE) buffer) ;;;
        write_blocks n block (i + 1) (drop (Z.to_nat RAMDISK_BLOCK_SIZE) buffer)
  end.
Definition ramdisk_write (block : Z) (buffer : list Z) (count : Z) : M ramdisk_t Z :=
  let! initialized := gets ramdisk_initialized in
  if negb initialized then ret (-1)
  else if out_of_bounds block count then ret (-1)
  else
    write_blocks (Z.to_nat count) block 0 buffer ;;;
    ret 0.

Fixpoint erase_blocks (n : nat) (block i : Z) : M ramdisk_t unit :=
  match n with
  | O => ret tt
  | S n =>
      store_block (block + i) (replicate (Z.to_nat RAMDISK_BLOCK_SIZE) 0) ;;;
      erase_blocks n block (i + 1)
  end.
Definition ramdisk_erase (block count : Z) : M ramdisk_t Z :=
  let! initialized := gets ramdisk_initialized in
  if negb initialized then ret (-1)
  else if out_of_bounds block count then ret (-1)
  else
    erase_blocks (Z.to_nat count) block 0 ;;;
    ret 0.

Definition ramdisk_sync : M ramdisk_t Z := ret 0.
Definition ramdisk_get_block_count : Z := RAMDISK_BLOCKS.

Definition ramdisk_init : M ramdisk_t unit := modify (λ _,
  Ramdisk (replicate (Z.to_nat RAMDISK_BLOCKS) (replicate (Z.to_nat RAMDISK_BLOCK_SIZE) 0)) true).

Definition ramdisk_device : fs_block_device_t ramdisk_t :=
  BlockDev _ ramdisk_read ramdisk_write (Some ramdisk_erase) (Some ramdisk_sync)
    ramdisk_get_block_count.
Definition ramdisk_get_device : M ramdisk_t (fs_block_device_t ramdisk_t) :=
  let! initialized := gets ramdisk_initialized in
  when (negb initialized) ramdisk_init ;;;
  ret ramdisk_device.

(** * The RAM disk is a block device *)
Definition disk_ready (r : ramdisk_t) : Prop :=
  ramdisk_initialized r = true ∧ length (ramdisk_storage r) = Z.to_nat RAMDISK_BLOCKS ∧
  Forall (λ b, length b = Z.to_nat RAMDISK_BLOCK_SIZE) (ramdisk_storage r).
Definition disk_block (r : ramdisk_t) (i : Z) : list Z := nth (Z.to_nat i) (ramdisk_storage r) [].

Lemma out_of_bounds_spec b n : 0 ≤ b → 0 ≤ n →
  out_of_bounds b n = bool_decide (RAMDISK_BLOCKS < b + n).
Proof.
  intros Hb Hn. unfold out_of_bounds, RAMDISK_BLOCKS. destruct (Z.ltb_spec 256 n); simpl.
  - symmetry. apply bool_decide_true. lia.
  - rewrite u32_small by lia.
    destruct (Z.ltb_spec (256 - n) b), (bool_decide_reflect (256 < b + n)); lia || done.
Qed.

Lemma disk_block_lookup r i : disk_ready r → 0 ≤ i < RAMDISK_BLOCKS →
  ramdisk_storage r !! Z.to_nat i = Some (disk_block r i).
Proof.
  intros (_ & Hlen & _) Hi. unfold disk_block, RAMDISK_BLOCKS in *.
  destruct (lookup_lt_is_Some_2 (ramdisk_storage r) (Z.to_nat i)) as [b Hb]; [lia|].
  by rewrite nth_lookup, Hb.
Qed.

Lemma arr_get_disk {A} r i (f : list Z → M ramdisk_t A) : disk_ready r → 0 ≤ i < RAMDISK_BLOCKS →
  bind (arr_get (ramdisk_storage r) i) f r = f (disk_block r i) r.
Proof.
  intros Hr Hi. unfold bind, arr_get. destruct (Z.ltb_spec i 0); [lia|].
  by rewrite (disk_block_lookup r i Hr Hi).
Qed.

(** Storing a block of the right size. *)
Lemma store_block_spec r i bs : disk_ready r → 0 ≤ i < RAMDISK_BLOCKS →
  length bs = Z.to_nat RAMDISK_BLOCK_SIZE →
  ∃ r', store_block i bs r = Ret tt r' ∧ disk_ready r' ∧ disk_block r' i = bs ∧
    ∀ j, 0 ≤ j → j ≠ i → disk_block r' j = disk_block r j.
Proof.
  intros Hr Hi Hbs. pose proof Hr as (Hini & Hlen & Hall). unfold RAMDISK_BLOCKS in *.
  unfold store_block, bind at 1, gets. rewrite arr_get_disk by done.
  eexists. split; [reflexivity|]. repeat split; cbn.
  - done.
  - by rewrite arr_set_length.
  - by apply Forall_insert.
  - unfold disk_block. cbn. rewrite nth_lookup, arr_set_lookup_eq by lia. done.
  - intros j Hj Hne. unfold disk_block. cbn. by rewrite !nth_lookup, arr_set_lookup_ne by lia.
Qed.

Lemma blocks_cons disk b n : 0 ≤ n → blocks disk b (1 + n) = disk b ++ blocks disk (b + 1) n.
Proof.
  intros. unfold blocks. rewrite seqZ_cons by lia. replace (Z.pred (1 + n)) with n by lia. done.
Qed.

Lemma read_blocks_spec n : ∀ r b i, disk_ready r → 0 ≤ b + i → b + i + Z.of_nat n ≤ RAMDISK_BLOCKS →
  read_blocks n b i r = Ret (blocks (disk_block r) (b + i) (Z.of_nat n)) r.
Proof.
  induction n as [|n IH]; intros r b i Hr Hb He; cbn [read_blocks]; [done|].
  unfold bind at 1, gets. rewrite arr_get_disk by (done || lia).
  unfold bind. rewrite IH by (done || lia). unfold ret.
  replace (Z.of_nat (S n)) with (1 + Z.of_nat n) by lia. rewrite blocks_cons by lia.
  do 3 f_equal. lia.
Qed.

Lemma write_blocks_spec n : ∀ r b i bs, disk_ready r → 0 ≤ b + i → b + i + Z.of_nat n ≤ RAMDISK_BLOCKS →
  length bs = (n * 512)%nat →
  ∃ r', write_blocks n b i bs r = Ret tt r' ∧ disk_ready r' ∧
    blocks (disk_block r') (b + i) (Z.of_nat n) = bs ∧
    ∀ j, 0 ≤ j → ¬ in_blocks (b + i) (Z.of_nat n) j → disk_block r' j = disk_block r j.
Proof.
  induction n as [|n IH]; intros r b i bs Hr Hb He Hlen; cbn [write_blocks].
  { exists r. split; [done|]. split; [done|]. split; [|done].
    destruct bs; [done|simpl in Hlen; lia]. }
  change (Z.to_nat RAMDISK_BLOCK_SIZE) with 512%nat. unfold RAMDISK_BLOCK_SIZE.
  destruct (Z.ltb_spec (Z.of_nat (length bs)) 512); [lia|].
  destruct (store_block_spec r (b + i) (take 512 bs)) as (r1 & E1 & Hr1 & Hb1 & Ho1);
    [done|lia|rewrite length_take; unfold RAMDISK_BLOCK_SIZE; lia|].
  destruct (IH r1 b (i + 1) (drop 512 bs)) as (r2 & E2 & Hr2 & Hb2 & Ho2);
    [done|lia|lia|rewrite length_drop; lia|].
  exists r2. unfold bind. rewrite E1, E2. split; [done|]. split; [done|].
  replace (Z.of_nat (S n)) with (1 + Z.of_nat n) by lia. split.
  - rewrite blocks_cons by lia. replace (b + i + 1) with (b + (i + 1)) by lia.
    rewrite Hb2, Ho2, Hb1 by (unfold in_blocks; lia). apply take_drop.
  - unfold in_blocks in *. intros j Hj Hout. rewrite Ho2, Ho1 by lia. done.
Qed.

Lemma erase_blocks_spec n : ∀ r b i, disk_ready r → 0 ≤ b + i → b + i + Z.of_nat n ≤ RAMDISK_BLOCKS →
  ∃ r', erase_blocks n b i r = Ret tt r' ∧ disk_ready r' ∧
    (∀ j, in_blocks (b + i) (Z.of_nat n) j → disk_block r' j = replicate 512 0) ∧
    ∀ j, 0 ≤ j → ¬ in_blocks (b + i) (Z.of_nat n) j → disk_block r' j = disk_block r j.
Proof.
  unfold in_blocks. induction n as [|n IH]; intros r b i Hr Hb He; cbn [erase_blocks].
  { exists r. split; [done|]. split; [done|]. split; [lia|done]. }
  destruct (store_block_spec r (b + i) (replicate (Z.to_nat RAMDISK_BLOCK_SIZE) 0))
    as (r1 & E1 & Hr1 & Hb1 & Ho1); [done|lia|by rewrite length_replicate|].
  destruct (IH r1 b (i + 1)) as (r2 & E2 & Hr2 & Hb2 & Ho2); [done|lia|lia|].
  exists r2. unfold bind. rewrite E1, E2. split; [done|]. split; [done|]. split.
  - intros j Hj. destruct (decide (j = b + i)) as [->|]; [by rewrite Ho2, Hb1 by lia|]. apply Hb2. lia.
  - intros j Hj Hout. rewrite Ho2, Ho1 by lia. done.
Qed.

#[export] Instance ramdisk_device_laws : BlockDevice ramdisk_device disk_ready disk_block.
Proof.
  split; cbn [bd_get_block_count ramdisk_device bd_read bd_write bd_erase].
  - intros r i Hr Hi. destruct Hr as (Hini & Hlen & Hall) eqn:E. clear E.
    exact (Forall_lookup_1 _ _ _ _ Hall (disk_block_lookup r i Hr Hi)).
  - intros r b n Hr Hb Hn He. unfold ramdisk_get_block_count in He. unfold ramdisk_read, bind at 1, gets.
    rewrite (proj1 Hr), out_of_bounds_spec, bool_decide_false by lia. cbn [negb].
    unfold bind. rewrite read_blocks_spec by (done || lia). by rewrite Z.add_0_r, Z2Nat.id by lia.
  - intros r b n bs Hr Hb Hn He Hlen. unfold ramdisk_get_block_count in *. unfold ramdisk_write, bind at 1, gets.
    rewrite (proj1 Hr), out_of_bounds_spec, bool_decide_false by lia. cbn [negb].
    destruct (write_blocks_spec (Z.to_nat n) r b 0 bs) as (r' & E & Hr' & Hbs & Ho);
      [done|lia|lia|unfold BLOCK_BYTES in *; lia|].
    rewrite Z.add_0_r, Z2Nat.id in * by lia.
    exists r'. unfold bind. rewrite E. split; [done|]. split; [done|]. split; [done|].
    intros i Hi. apply Ho. lia.
  - intros erase r b n [= <-] Hr Hb Hn He. unfold ramdisk_get_block_count in *. unfold ramdisk_erase, bind at 1, gets.
    rewrite (proj1 Hr), out_of_bounds_spec, bool_decide_false by lia. cbn [negb].
    destruct (erase_blocks_spec (Z.to_nat n) r b 0) as (r' & E & Hr' & _ & Ho); [done|lia|lia|].
    rewrite Z.add_0_r, Z2Nat.id in * by lia.
    exists r'. unfold bind. rewrite E. split; [done|]. split; [done|]. intros i Hi. apply Ho. lia.
  - intros r b n bs Hr Hb Hn He. unfold ramdisk_get_block_count in *.
    unfold ramdisk_read, ramdisk_write, ramdisk_erase, bind, gets.
    rewrite (proj1 Hr), out_of_bounds_spec, bool_decide_true by lia. split; [done|]. split; [done|].
    intros erase [= <-]. unfold ramdisk_erase, bind, gets.
    by rewrite (proj1 Hr), out_of_bounds_spec, bool_decide_true by lia.
  - intros sync r [= <-] Hr. by exists 0, r.
Qed.

(** * Clients of a block device *)
Section client.
Context {S : Type} (dev : fs_block_device_t S) (ready : S → Prop) (contents : S → Z → list Z).
Context `{!BlockDevice dev ready contents}.

(** A sequence of writes of whole blocks, in order. *)
Fixpoint write_all (ws : list (Z * list Z)) : M S Z :=
  match ws with
  | [] => ret 0
  | (b, bs) :: ws =>
      let! r := bd_write dev b bs 1 in
      if r =? 0 then write_all ws else ret r
  end.
(** What the last write to block [i] stored, or what it held before. *)
Definition last_write (ws : list (Z * list Z)) (old : list Z) (i : Z) : list Z :=
  foldl (λ acc w, if w.1 =? i then w.2 else acc) old ws.
Definition write_fits (w : Z * list Z) : Prop :=
  0 ≤ w.1 < bd_get_block_count dev ∧ length w.2 = Z.to_nat BLOCK_BYTES.

Lemma blocks_one s b : blocks (contents s) b 1 = contents s b.
Proof. unfold blocks. rewrite seqZ_cons by lia. simpl. by rewrite app_nil_r. Qed.

Lemma write_all_spec ws : ∀ s, ready s → Forall write_fits ws →
  wp (write_all ws) (λ r s', r = 0 ∧ ready s' ∧
    ∀ i, 0 ≤ i < bd_get_block_count dev → contents s' i = last_write ws (contents s i) i) s.
Proof.
  induction ws as [|[b bs] ws IH]; intros s Hs Hws; cbn [write_all]; [done|].
  apply Forall_cons in Hws as [[Hb Hlen] Hws]. cbn in Hb, Hlen.
  destruct (bd_write_ok s b 1 bs) as (s1 & E & Hs1 & Hbs & Ho); [done|lia|lia|lia|done|].
  rewrite blocks_one in Hbs. rewrite wp_bind. unfold wp at 1. rewrite E. cbn [Z.eqb].
  eapply wp_mono; [by apply IH|]. intros r s2 (-> & Hs2 & Hc). split; [done|]. split; [done|].
  intros i Hi. rewrite Hc by done. unfold last_write. cbn.
  destruct (Z.eqb_spec b i) as [->|]; [by rewrite Hbs|].
  by rewrite Ho by (unfold in_blocks; lia).
Qed.
End client.

(** * Theorems *)

(** A RAM disk keeps what is written to it: after any sequence of writes of whole blocks, reading
    a block gives what the last write to it stored (zeros if there was none), reading several gives
    their contents in order, and a range that leaves the disk is refused with the disk unchanged. *)
Theorem ramdisk_keeps_data (ws : list (Z * list Z)) (r : ramdisk_t) :
  ramdisk_initialized r = false → Forall (write_fits ramdisk_device) ws →
  wp (let! dev := ramdisk_get_device in write_all dev ws) (λ e r', e = 0 ∧
    (∀ b n, 0 ≤ b → 0 ≤ n → b + n ≤ RAMDISK_BLOCKS →
       ramdisk_read b n r' = Ret (0, blocks (last_write ws (replicate 512 0)) b n) r') ∧
    (∀ b n bs, 0 ≤ b < 2 ^ 32 → 0 ≤ n < 2 ^ 32 → RAMDISK_BLOCKS < b + n →
       ramdisk_read b n r' = Ret (-1, []) r' ∧ ramdisk_write b bs n r' = Ret (-1) r')) r.
Proof.
  intros Hi Hws. rewrite wp_bind. unfold ramdisk_get_device.
  rewrite wp_bind, wp_gets, wp_bind, Hi. unfold ramdisk_init. rewrite wp_when, wp_modify, wp_ret. cbn [negb].
  set (r0 := Ramdisk _ true). assert (disk_ready r0) as Hr0.
  { split; [done|]. split; [apply length_replicate|]. apply Forall_replicate, length_replicate. }
  assert (∀ i, 0 ≤ i < RAMDISK_BLOCKS → disk_block r0 i = replicate 512 0) as Hzero.
  { intros i Hi'. unfold disk_block, r0, RAMDISK_BLOCKS in *. cbn [ramdisk_storage].
    rewrite nth_lookup, lookup_replicate_2 by lia. done. }
  eapply wp_mono; [exact (write_all_spec ramdisk_device disk_ready disk_block ws r0 Hr0 Hws)|]. cbn [bd_get_block_count ramdisk_device].
  unfold ramdisk_get_block_count. intros e r' (-> & Hr' & Hc). split; [done|]. split.
  - intros b n Hb Hn He. change ramdisk_read with (bd_read ramdisk_device).
    rewrite (bd_read_ok r' b n) by done. do 2 f_equal. unfold blocks. f_equal.
    apply list_fmap_ext. intros k i Hk. apply lookup_seqZ in Hk as [-> Hk]. rewrite Hc, Hzero by lia. done.
  - intros b n bs Hb Hn He. destruct (bd_out_of_range (dev := ramdisk_device) r' b n bs) as (? & ? & _); done.
Qed.

Lemma ramdisk_keeps_data_witness :
  wp (let! dev := ramdisk_get_device in write_all dev [(3, replicate 512 7)]) (λ _ r',
    ramdisk_read 2 3 r' = Ret (0, replicate 512 0 ++ replicate 512 7 ++ replicate 512 0) r' ∧
    ramdisk_read 255 2 r' = Ret (-1, []) r') (Ramdisk [] false).
Proof.
  eapply wp_mono; [apply (ramdisk_keeps_data [(3, replicate 512 7)]); [done|]|].
  - apply Forall_singleton. split; [unfold bd_get_block_count, ramdisk_device, ramdisk_get_block_count, RAMDISK_BLOCKS; simpl; lia|apply length_replicate].
  - intros e r' (_ & Hr & Ho). split.
    { rewrite Hr by (unfold RAMDISK_BLOCKS; lia). vm_compute. reflexivity. }
    by apply (Ho 255 2 []); unfold RAMDISK_BLOCKS; lia.
Defined.
