(* ===== verification/Ota.v ===== *)
(** Ota: the firmware update of [src/ota.c].

    [ota_sys] is the static [ota_state] with the CRC table, next to the flash and the heap it works
    on. The structures that go to flash as they are in memory ([boot_info_t], [ota_image_header_t])
    are byte arrays. Their fields are at the offsets of the target's ABI; the size of an enumeration
    is 1 byte (the default of arm-none-eabi) or 4 bytes, a parameter ([Abi]). The progress callback
    is a parameter, the function that maps its arguments and the state to the state it leaves;
    [net_http_get] is a parameter too. *)
From Stdlib Require Import ZArith Lia String.
From stdpp Require Import base numbers gmap list.
From S2P Require Import Prelude Types Kernel ReadyQueue Scheduler KernelApi Bytes Memory Flash.

(** * Constants and types *)
Definition OTA_MAGIC_NUMBER : Z := 1414484806.
Definition OTA_MAX_DOWNLOAD_SIZE : Z := 240 * 1024.
Definition OTA_BOOTINFO_MAGIC : Z := 1112493908.

Inductive ota_error_t :=
| OTA_OK
| OTA_ERROR_INVALID_PARAM
| OTA_ERROR_NOT_INITIALIZED
| OTA_ERROR_FLASH_ERROR
| OTA_ERROR_DOWNLOAD_FAILED
| OTA_ERROR_VERIFICATION_FAILED
| OTA_ERROR_NO_SPACE
| OTA_ERROR_INVALID_IMAGE
| OTA_ERROR_ROLLBACK_FAILED
| OTA_ERROR_TIMEOUT
| OTA_ERROR_NETWORK
| OTA_ERROR_BUSY.
#[export] Instance ota_error_eq_dec : EqDecision ota_error_t.
Proof. solve_decision. Defined.

(** A value of [ota_partition_type_t] is read from flash as it is, so it is a number. *)
Definition OTA_PARTITION_BOOTLOADER : Z := 0.
Definition OTA_PARTITION_APP_A : Z := 1.
Definition OTA_PARTITION_APP_B : Z := 2.
Definition OTA_PARTITION_DATA : Z := 3.
Definition OTA_PARTITION_MAX : Z := 4.

Inductive ota_partition_state_t :=
| OTA_PARTITION_STATE_INVALID
| OTA_PARTITION_STATE_VALID
| OTA_PARTITION_STATE_PENDING
| OTA_PARTITION_STATE_ACTIVE
| OTA_PARTITION_STATE_FAILED.

Inductive ota_state_t :=
| OTA_STATE_IDLE
| OTA_STATE_DOWNLOADING
| OTA_STATE_VERIFYING
| OTA_STATE_WRITING
| OTA_STATE_COMPLETE
| OTA_STATE_FAILED
| OTA_STATE_ROLLING_BACK.
#[export] Instance ota_state_eq_dec : EqDecision ota_state_t.
Proof. solve_decision. Defined.

Record ota_partition_info_t := PartitionInfo {
  pi_type : Z;
  pi_start_address : Z;
  pi_size : Z;
  pi_state : ota_partition_state_t;
  pi_version : Z;
  pi_boot_count : Z;
  pi_last_boot_timestamp : Z
}.

Record ota_config_t := OtaConfig {
  oc_server_url : ptr;
  oc_firmware_path : ptr;
  oc_timeout_ms : Z;
  oc_retry_count : Z;
  oc_verify_signature : bool;
  oc_auto_rollback : bool;
  oc_signature_key : ptr;
  oc_signature_key_len : Z
}.

Record ota_progress_t := OtaProgress {
  op_state : ota_state_t;
  op_total_bytes : Z;
  op_downloaded_bytes : Z;
  op_written_bytes : Z;
  op_progress_percent : Z;
  op_last_error : ota_error_t
}.
#[export] Instance ota_progress_eta : Eta ota_progress_t := λ p,
  OtaProgress (op_state p) (op_total_bytes p) (op_downloaded_bytes p) (op_written_bytes p)
    (op_progress_percent p) (op_last_error p).

(** ** [ota_image_header_t]: 104 bytes *)
Definition HEADER_BYTES : Z := 104.
Definition h_magic (h : list Z) : Z := field 0 4 h.
Definition h_version (h : list Z) : Z := field 4 4 h.
Definition h_version_string (h : list Z) : list Z := take 32 (drop 8 h).
Definition h_image_size (h : list Z) : Z := field 40 4 h.

(** ** [boot_info_t] *)
Class Abi := { enum_size : nat; enum_size_cases : enum_size = 1%nat ∨ enum_size = 4%nat }.

Section boot_info.
Context `{!Abi}.

(** The offsets: [magic] at 0, the two enumerations from 4 on, and the integers behind them at the
    next multiple of 4. *)
Definition off_active : nat := 4.
Definition off_pending : nat := 4 + enum_size.
Definition off_boot_count : nat := if decide (enum_size = 1%nat) then 8 else 12.
Definition off_rollback_count : nat := off_boot_count + 4.
Definition off_rollback_enabled : nat := off_boot_count + 8.
Definition off_boot_confirmed : nat := off_boot_count + 9.
(** The field behind [boot_confirmed] and its padding: [crc32] here. *)
Definition off_crc32 : nat := off_boot_count + 12.
Definition boot_info_size : nat := off_boot_count + 16.

Definition bi_magic (b : list Z) : Z := field 0 4 b.
Definition bi_active (b : list Z) : Z := field off_active enum_size b.
Definition bi_pending (b : list Z) : Z := field off_pending enum_size b.
Definition bi_boot_count (b : list Z) : Z := field off_boot_count 4 b.
Definition bi_rollback_count (b : list Z) : Z := field off_rollback_count 4 b.
Definition bi_rollback_enabled (b : list Z) : bool := negb (field off_rollback_enabled 1 b =? 0).
Definition bi_boot_confirmed (b : list Z) : bool := negb (field off_boot_confirmed 1 b =? 0).
Definition bi_crc32 (b : list Z) : Z := field off_crc32 4 b.

Definition set_magic (v : Z) : list Z → list Z := put 0 (le_encode 4 v).
Definition set_active (v : Z) : list Z → list Z := put off_active (le_encode enum_size v).
Definition set_pending (v : Z) : list Z → list Z := put off_pending (le_encode enum_size v).
Definition set_boot_count (v : Z) : list Z → list Z := put off_boot_count (le_encode 4 v).
Definition set_rollback_count (v : Z) : list Z → list Z := put off_rollback_count (le_encode 4 v).
Definition set_rollback_enabled (v : bool) : list Z → list Z :=
  put off_rollback_enabled (le_encode 1 (Z.b2z v)).
Definition set_boot_confirmed (v : bool) : list Z → list Z :=
  put off_boot_confirmed (le_encode 1 (Z.b2z v)).
Definition set_crc32 (v : Z) : list Z → list Z := put off_crc32 (le_encode 4 v).
End boot_info.

(** * The partition table *)
Definition partition_table : list ota_partition_info_t :=
  [PartitionInfo OTA_PARTITION_BOOTLOADER FLASH_BOOTLOADER_START FLASH_BOOTLOADER_SIZE
     OTA_PARTITION_STATE_VALID 0 0 0;
   PartitionInfo OTA_PARTITION_APP_A FLASH_APP_A_START FLASH_APP_A_SIZE OTA_PARTITION_STATE_ACTIVE 0 0 0;
   PartitionInfo OTA_PARTITION_APP_B FLASH_APP_B_START FLASH_APP_B_SIZE OTA_PARTITION_STATE_INVALID 0 0 0;
   PartitionInfo OTA_PARTITION_DATA FLASH_DATA_START FLASH_DATA_SIZE OTA_PARTITION_STATE_VALID 0 0 0].

(** The entry, if the result is [OTA_OK]; the pointer [info] is not null in any call modelled here
    unless it is an argument. *)
Definition ota_get_partition_info (type : Z) (info : ptr) : ota_error_t * option ota_partition_info_t :=
  if (OTA_PARTITION_MAX <=? type) || (info =? NULL) then (OTA_ERROR_INVALID_PARAM, None)
  else (OTA_OK, partition_table !! Z.to_nat type).
(** The address of a local variable. *)
Definition LOCAL : ptr := 4.

(** * The state *)
Record ota_sys := OtaSys {
  o_flash : flash_t;
  o_heap : heap_t;
  o_initialized : bool;
  o_config : ota_config_t;
  o_progress : ota_progress_t;
  o_callback : ptr;
  o_callback_user_data : ptr;
  o_running_partition : Z;
  o_update_partition : Z;
  o_boot_info : list Z;
  o_download_offset : Z;
  o_current_header : list Z;
  crc32_table : list Z;
  crc32_table_initialized : bool
}.
#[export] Instance ota_sys_eta : Eta ota_sys := λ s,
  OtaSys (o_flash s) (o_heap s) (o_initialized s) (o_config s) (o_progress s) (o_callback s)
    (o_callback_user_data s) (o_running_partition s) (o_update_partition s) (o_boot_info s)
    (o_download_offset s) (o_current_header s) (crc32_table s) (crc32_table_initialized s).

(** * CRC-32 *)
Definition CRC_POLY : Z := 3988292384.

(** One round of the inner loop of [crc32_init_table]. *)
Definition crc_step (crc : Z) : Z :=
  if negb (Z.land crc 1 =? 0) then Z.lxor (Z.shiftr crc 1) CRC_POLY else Z.shiftr crc 1.
Fixpoint iter_step (n : nat) (crc : Z) : Z :=
  match n with O => crc | S n => iter_step n (crc_step crc) end.
(** The outer loop: entries [i, i + n). *)
Fixpoint fill_table (n : nat) (i : Z) (table : list Z) : list Z :=
  match n with
  | O => table
  | S n => fill_table n (i + 1) (arr_set table i (iter_step 8 i))
  end.
Definition crc32_init_table : M ota_sys unit :=
  let! initialized := gets crc32_table_initialized in
  if initialized then ret tt
  else
    modify (λ s, s <| crc32_table ::= fill_table 256 0 |>) ;;;
    modify (λ s, s <| crc32_table_initialized := true |>).

(** The loop over the data, shared by [crc32_calculate] and [ota_compute_crc32]. *)
Fixpoint crc_loop (data : list Z) (crc : Z) : M ota_sys Z :=
  match data with
  | [] => ret crc
  | byte :: data =>
      let! table := gets crc32_table in
      let! t := arr_get table (Z.land (Z.lxor crc byte) 255) in
      crc_loop data (Z.lxor (Z.shiftr crc 8) t)
  end.
Definition crc32_calculate (data : list Z) : M ota_sys Z :=
  crc32_init_table ;;;
  let! crc := crc_loop data 4294967295 in
  ret (lnot32 crc).

Section ota.
Context `{!Abi, !HeapBase}.
Context (callback : ptr → ota_progress_t → ptr → ota_sys → ota_sys).
(** [net_http_get url timeout_ms]: the body of the response, or an error. *)
Context (net_http_get : list Z → Z → option (list Z)).

(** * Boot information *)
Definition save_boot_info : M ota_sys ota_error_t :=
  let! b := gets o_boot_info in
  let! crc := crc32_calculate (take (boot_info_size - 4) b) in
  modify (λ s, s <| o_boot_info ::= set_crc32 crc |>) ;;;
  let! e := zoom o_flash (flash_erase_sector FLASH_DATA_START) in
  if decide (e ≠ FLASH_OK) then ret OTA_ERROR_FLASH_ERROR
  else
    let! b := gets o_boot_info in
    let! e := zoom o_flash (flash_write FLASH_DATA_START (Some b) (Z.of_nat boot_info_size)) in
    if decide (e ≠ FLASH_OK) then ret OTA_ERROR_FLASH_ERROR
    else ret OTA_OK.

(** The structure after [memset] and the five assignments of [load_boot_info]. *)
Definition default_boot_info : list Z :=
  set_boot_confirmed true (set_rollback_enabled true (set_pending OTA_PARTITION_APP_A
    (set_active OTA_PARTITION_APP_A (set_magic OTA_BOOTINFO_MAGIC (replicate boot_info_size 0))))).

Definition load_boot_info : M ota_sys ota_error_t :=
  let! r := zoom o_flash (flash_read FLASH_DATA_START LOCAL (Z.of_nat boot_info_size)) in
  if decide (r.1 ≠ FLASH_OK) then ret OTA_ERROR_FLASH_ERROR
  else
    modify (λ s, s <| o_boot_info := r.2 |>) ;;;
    let! b := gets o_boot_info in
    if negb (bi_magic b =? OTA_BOOTINFO_MAGIC) then
      modify (λ s, s <| o_boot_info := default_boot_info |>) ;;;
      save_boot_info
    else ret OTA_OK.

(** * Initialization and configuration *)
Definition other_app (partition : Z) : Z :=
  if partition =? OTA_PARTITION_APP_A then OTA_PARTITION_APP_B else OTA_PARTITION_APP_A.

Definition ota_init (config : option ota_config_t) : M ota_sys ota_error_t :=
  let! initialized := gets o_initialized in
  if initialized then ret OTA_OK
  else
    let! e := zoom o_flash flash_init in
    if decide (e ≠ FLASH_OK) then ret OTA_ERROR_FLASH_ERROR
    else
      modify (λ s, s <| o_config := match config with
        | Some c => c
        | None => OtaConfig NULL NULL 30000 3 true true NULL 0
        end |>) ;;;
      let! err := load_boot_info in
      if decide (err ≠ OTA_OK) then ret err
      else
        modify (λ s, s <| o_running_partition := bi_active (o_boot_info s) |>) ;;;
        modify (λ s, s <| o_update_partition := other_app (o_running_partition s) |>) ;;;
        modify (λ s, s <| o_progress := OtaProgress OTA_STATE_IDLE 0 0 0 0 OTA_OK |>) ;;;
        modify (λ s, s <| o_initialized := true |>) ;;;
        ret OTA_OK.

Definition ota_get_config (config : ptr) (s : ota_sys) : ota_error_t * option ota_config_t :=
  if negb (o_initialized s) || (config =? NULL) then (OTA_ERROR_INVALID_PARAM, None)
  else (OTA_OK, Some (o_config s)).
Definition ota_set_config (config : option ota_config_t) : M ota_sys ota_error_t := λ s,
  match config with
  | Some c => if o_initialized s then Ret OTA_OK (s <| o_config := c |>) else Ret OTA_ERROR_INVALID_PARAM s
  | None => Ret OTA_ERROR_INVALID_PARAM s
  end.

(** * Partitions *)
Definition ota_get_running_partition : ota_sys → Z := o_running_partition.
Definition ota_get_update_partition : ota_sys → Z := o_update_partition.
Definition ota_mark_partition_valid (type : Z) : ota_error_t :=
  if OTA_PARTITION_MAX <=? type then OTA_ERROR_INVALID_PARAM else OTA_OK.
Definition ota_mark_partition_invalid (type : Z) : ota_error_t :=
  if OTA_PARTITION_MAX <=? type then OTA_ERROR_INVALID_PARAM else OTA_OK.

(** * Verification *)
Definition ota_verify_image_header (header : option (list Z)) : ota_error_t :=
  match header with
  | None => OTA_ERROR_INVALID_PARAM
  | Some h =>
      if negb (h_magic h =? OTA_MAGIC_NUMBER) then OTA_ERROR_INVALID_IMAGE
      else if (h_image_size h =? 0) || (OTA_MAX_DOWNLOAD_SIZE <? h_image_size h) then
        OTA_ERROR_INVALID_IMAGE
      else OTA_OK
  end.

Definition ota_verify_partition (type : Z) : M ota_sys ota_error_t :=
  if OTA_PARTITION_MAX <=? type then ret OTA_ERROR_INVALID_PARAM
  else
    match (ota_get_partition_info type LOCAL).2 with
    | None => undef
    | Some info =>
        let! r := zoom o_flash (flash_read (pi_start_address info) LOCAL HEADER_BYTES) in
        if decide (r.1 ≠ FLASH_OK) then ret OTA_ERROR_FLASH_ERROR
        else ret (ota_verify_image_header (Some r.2))
    end.

(** The loop of [ota_compute_crc32], 4096 bytes at a time. *)
Fixpoint crc_chunks (fuel : nat) (start offset remaining buffer crc : Z) : M ota_sys (option Z) :=
  match fuel with
  | O => nofuel
  | S fuel =>
      if remaining =? 0 then ret (Some crc)
      else
        let chunk_size := if remaining <? 4096 then remaining else 4096 in
        let! r := zoom o_flash (flash_read (start + offset) buffer chunk_size) in
        if decide (r.1 ≠ FLASH_OK) then
          zoom o_heap (os_free buffer) ;;;
          ret None
        else
          zoom o_heap (fill buffer r.2) ;;;
          let! crc := crc_loop r.2 crc in
          crc_chunks fuel start (offset + chunk_size) (remaining - chunk_size) buffer crc
  end.

Definition ota_compute_crc32 (type : Z) (crc32 : ptr) : M ota_sys (ota_error_t * option Z) :=
  if (OTA_PARTITION_MAX <=? type) || (crc32 =? NULL) then ret (OTA_ERROR_INVALID_PARAM, None)
  else
    match (ota_get_partition_info type LOCAL).2 with
    | None => undef
    | Some info =>
        let! buffer := zoom o_heap (os_malloc 4096) in
        if buffer =? NULL then ret (OTA_ERROR_FLASH_ERROR, None)
        else
          crc32_init_table ;;;
          let! r := crc_chunks 64 (pi_start_address info) 0 (pi_size info) buffer 4294967295 in
          match r with
          | None => ret (OTA_ERROR_FLASH_ERROR, None)
          | Some crc =>
              zoom o_heap (os_free buffer) ;;;
              ret (OTA_OK, Some (lnot32 crc))
          end
    end.

Definition ota_verify_signature (type : Z) (public_key : ptr) (key_len : Z) : ota_error_t := OTA_OK.

(** * Updates *)
Definition report_progress : M ota_sys unit := modify (λ s,
  if o_callback s =? NULL then s else callback (o_callback s) (o_progress s) (o_callback_user_data s) s).

(** The error exits of an update: the state becomes [FAILED], the error is kept and reported. *)
Definition fail_update (err : ota_error_t) : M ota_sys ota_error_t :=
  modify (λ s, s <| o_progress ::= λ p, p <| op_state := OTA_STATE_FAILED |> <| op_last_error := err |> |>) ;;;
  report_progress ;;;
  ret err.

Definition set_callback (cb user_data : ptr) : M ota_sys unit :=
  modify (λ s, s <| o_callback := cb |> <| o_callback_user_data := user_data |>).

(** From the erasure of the update partition on. *)
Definition install (firmware_data : list Z) (size : Z) : M ota_sys ota_error_t :=
  let! update := gets o_update_partition in
  match (ota_get_partition_info update LOCAL).2 with
  | None => undef
  | Some info =>
      let! e := zoom o_flash (flash_erase_range (pi_start_address info) (pi_size info)) in
      if decide (e ≠ FLASH_OK) then fail_update OTA_ERROR_FLASH_ERROR
      else
        let! e := zoom o_flash (flash_write (pi_start_address info) (Some firmware_data) size) in
        if decide (e ≠ FLASH_OK) then fail_update OTA_ERROR_FLASH_ERROR
        else
          modify (λ s, s <| o_progress ::= λ p, p <| op_written_bytes := size |> <| op_progress_percent := 100 |>
                                                   <| op_state := OTA_STATE_VERIFYING |> |>) ;;;
          report_progress ;;;
          let! update := gets o_update_partition in
          let! err := ota_verify_partition update in
          if decide (err ≠ OTA_OK) then fail_update err
          else
            modify (λ s, s <| o_boot_info ::= set_pending (o_update_partition s) |>) ;;;
            modify (λ s, s <| o_boot_info ::= set_boot_confirmed false |>) ;;;
            let! _ := save_boot_info in
            modify (λ s, s <| o_progress ::= λ p, p <| op_state := OTA_STATE_COMPLETE |> |>) ;;;
            report_progress ;;;
            ret OTA_OK
  end.

(** [firmware_data] is [None] for a null pointer; a buffer with fewer than [size] bytes is read beyond
    its end: undefined behaviour. *)
Definition ota_start_update_from_buffer (firmware_data : option (list Z)) (size : Z) (cb user_data : ptr) :
    M ota_sys ota_error_t :=
  let! initialized := gets o_initialized in
  match firmware_data with
  | Some data =>
      if negb initialized || (size =? 0) then ret OTA_ERROR_INVALID_PARAM
      else if OTA_MAX_DOWNLOAD_SIZE <? size then ret OTA_ERROR_NO_SPACE
      else
        set_callback cb user_data ;;;
        if size <? HEADER_BYTES then fail_update OTA_ERROR_INVALID_IMAGE
        else if Z.of_nat (length data) <? HEADER_BYTES then undef
        else
          modify (λ s, s <| o_current_header := take (Z.to_nat HEADER_BYTES) data |>) ;;;
          let! h := gets o_current_header in
          let err := ota_verify_image_header (Some h) in
          if decide (err ≠ OTA_OK) then fail_update err
          else
            modify (λ s, s <| o_progress ::= λ p, p <| op_state := OTA_STATE_WRITING |>
                                <| op_total_bytes := size |> <| op_downloaded_bytes := size |> |>) ;;;
            report_progress ;;;
            install data size
  | None => ret OTA_ERROR_INVALID_PARAM
  end.

Definition ota_start_update (url : option (list Z)) (cb user_data : ptr) : M ota_sys ota_error_t :=
  let! initialized := gets o_initialized in
  match url with
  | None => ret OTA_ERROR_INVALID_PARAM
  | Some url =>
      if negb initialized then ret OTA_ERROR_INVALID_PARAM
      else
        let! p := gets o_progress in
        if decide (op_state p ≠ OTA_STATE_IDLE) then ret OTA_ERROR_BUSY
        else
          set_callback cb user_data ;;;
          modify (λ s, s <| o_progress ::= λ p, p <| op_state := OTA_STATE_DOWNLOADING |>
                              <| op_downloaded_bytes := 0 |> <| op_written_bytes := 0 |>
                              <| op_progress_percent := 0 |> |>) ;;;
          modify (λ s, s <| o_download_offset := 0 |>) ;;;
          report_progress ;;;
          let! c := gets o_config in
          match net_http_get url (oc_timeout_ms c) with
          | None => fail_update OTA_ERROR_DOWNLOAD_FAILED
          | Some body => ota_start_update_from_buffer (Some body) (Z.of_nat (length body)) cb user_data
          end
  end.

Definition ota_write_chunk (data : option (list Z)) (size offset : Z) : M ota_sys ota_error_t :=
  let! initialized := gets o_initialized in
  match data with
  | None => ret OTA_ERROR_INVALID_PARAM
  | Some data =>
      if negb initialized then ret OTA_ERROR_INVALID_PARAM
      else
        let! update := gets o_update_partition in
        match (ota_get_partition_info update LOCAL).2 with
        | None => undef
        | Some info =>
            if pi_size info <? u32 (offset + size) then ret OTA_ERROR_NO_SPACE
            else
              let! e := zoom o_flash (flash_write (u32 (pi_start_address info + offset)) (Some data) size) in
              if decide (e ≠ FLASH_OK) then ret OTA_ERROR_FLASH_ERROR
              else
                modify (λ s, s <| o_progress ::= λ p, p <| op_written_bytes ::= λ n, u32 (n + size) |> |>) ;;;
                modify (λ s, s <| o_progress ::= λ p,
                  if 0 <? op_total_bytes p
                  then p <| op_progress_percent := u8 (u32 (op_written_bytes p * 100) / op_total_bytes p) |>
                  else p |>) ;;;
                report_progress ;;;
                ret OTA_OK
        end
  end.

(** * Boot selection *)
Definition ota_set_boot_partition (type : Z) : M ota_sys ota_error_t :=
  if OTA_PARTITION_MAX <=? type then ret OTA_ERROR_INVALID_PARAM
  else
    modify (λ s, s <| o_boot_info ::= set_pending type |>) ;;;
    modify (λ s, s <| o_boot_info ::= set_boot_confirmed false |>) ;;;
    save_boot_info.

Definition ota_finalize_update : M ota_sys ota_error_t :=
  let! s := gets id in
  if negb (o_initialized s) then ret OTA_ERROR_NOT_INITIALIZED
  else if decide (op_state (o_progress s) ≠ OTA_STATE_COMPLETE) then ret OTA_ERROR_INVALID_PARAM
  else ota_set_boot_partition (o_update_partition s).

Definition ota_abort_update : M ota_sys ota_error_t :=
  let! initialized := gets o_initialized in
  if negb initialized then ret OTA_ERROR_NOT_INITIALIZED
  else
    modify (λ s, s <| o_progress ::= λ p, p <| op_state := OTA_STATE_IDLE |> <| op_total_bytes := 0 |>
              <| op_downloaded_bytes := 0 |> <| op_written_bytes := 0 |> <| op_progress_percent := 0 |> |>) ;;;
    ret OTA_OK.

Definition ota_get_progress (progress : ptr) (s : ota_sys) : ota_error_t * option ota_progress_t :=
  if negb (o_initialized s) || (progress =? NULL) then (OTA_ERROR_INVALID_PARAM, None)
  else (OTA_OK, Some (o_progress s)).

(** Prints, and returns. *)
Definition ota_reboot : ota_error_t := OTA_OK.

Definition ota_rollback : M ota_sys ota_error_t :=
  let! initialized := gets o_initialized in
  if negb initialized then ret OTA_ERROR_NOT_INITIALIZED
  else
    let! running := gets o_running_partition in
    let rollback_partition := other_app running in
    modify (λ s, s <| o_boot_info ::= λ b, set_boot_confirmed true (set_pending rollback_partition
                                             (set_active rollback_partition b)) |>) ;;;
    modify (λ s, s <| o_boot_info ::= λ b, set_rollback_count (u32 (bi_rollback_count b + 1)) b |>) ;;;
    let! _ := save_boot_info in
    ret ota_reboot.

Definition ota_confirm_boot : M ota_sys ota_error_t :=
  let! initialized := gets o_initialized in
  if negb initialized then ret OTA_ERROR_NOT_INITIALIZED
  else
    modify (λ s, s <| o_boot_info ::= set_boot_confirmed true |>) ;;;
    modify (λ s, s <| o_boot_info ::= set_active (o_running_partition s) |>) ;;;
    save_boot_info.

Definition ota_is_rollback_needed (s : ota_sys) : bool :=
  if negb (o_initialized s) then false
  else negb (bi_boot_confirmed (o_boot_info s)) && bi_rollback_enabled (o_boot_info s).

(** * Versions *)
Definition ota_get_running_version (s : ota_sys) : Z := h_version (o_current_header s).

(** [snprintf (buffer, size, "%s", str)]: the bytes before the first NUL, cut to [size - 1] bytes, and
    a NUL. *)
Fixpoint c_string (l : list Z) : list Z :=
  match l with [] => [] | b :: l => if b =? 0 then [] else b :: c_string l end.
Definition ota_get_running_version_string (buffer : ptr) (buffer_size : Z) (s : ota_sys) :
    ota_error_t * list Z :=
  if (buffer =? NULL) || (buffer_size =? 0) then (OTA_ERROR_INVALID_PARAM, [])
  else (OTA_OK, take (Z.to_nat (buffer_size - 1)) (c_string (h_version_string (o_current_header s))) ++ [0]).

Definition ota_get_partition_version (type : Z) : M ota_sys Z :=
  if OTA_PARTITION_MAX <=? type then ret 0
  else
    match (ota_get_partition_info type LOCAL).2 with
    | None => undef
    | Some info =>
        let! r := zoom o_flash (flash_read (pi_start_address info) LOCAL HEADER_BYTES) in
        if decide (r.1 ≠ FLASH_OK) then ret 0
        else if negb (h_magic r.2 =? OTA_MAGIC_NUMBER) then ret 0
        else ret (h_version r.2)
    end.
Definition ota_compare_versions (version1 version2 : Z) : Z :=
  if version1 <? version2 then -1 else if version2 <? version1 then 1 else 0.
End ota.

(** * Names *)
Definition ota_error_strings : list string :=
  ["OK"; "Invalid parameter"; "Not initialized"; "Flash error"; "Download failed";
   "Verification failed"; "No space"; "Invalid image"; "Rollback failed"; "Timeout";
   "Network error"; "Busy"]%string.
Definition ota_error_to_string (error : Z) : string :=
  if (0 <=? error) && (error <? Z.of_nat (length ota_error_strings))
  then nth (Z.to_nat error) ota_error_strings ""%string else "Unknown error"%string.
Definition ota_state_strings : list string :=
  ["Idle"; "Downloading"; "Verifying"; "Writing"; "Complete"; "Failed"; "Rolling back"]%string.
Definition ota_state_to_string (state : Z) : string :=
  if (0 <=? state) && (state <? Z.of_nat (length ota_state_strings))
  then nth (Z.to_nat state) ota_state_strings ""%string else "Unknown state"%string.
