(* ===== verification/OtaTheorems.v ===== *)
(** OtaTheorems: the checksum, the boot information and the update of [src/ota.c]. *)
From Stdlib Require Import ZArith Lia.
From stdpp Require Import base numbers gmap list.
From S2P Require Import Prelude Types Kernel ReadyQueue Scheduler KernelApi Bytes Memory Flash Ota.

(** * CRC-32 *)

(** The reference: the reflected CRC-32 computed bit by bit. *)
Definition crc32_bitwise (data : list Z) : Z :=
  lnot32 (foldl (λ crc byte, iter_step 8 (Z.lxor crc byte)) 4294967295 data).

Lemma crc_step_shifted x y : crc_step (Z.lxor x (Z.shiftl y 1)) = Z.lxor (crc_step x) y.
Proof.
  assert (Z.land (Z.lxor x (Z.shiftl y 1)) 1 = Z.land x 1) as E.
  { apply Z.bits_inj'. intros i Hi. rewrite !Z.land_spec, Z.lxor_spec.
    destruct (decide (i = 0)) as [->|].
    - rewrite (Z.shiftl_spec_low y 1 0) by lia. by rewrite xorb_false_r.
    - replace (Z.testbit 1 i) with false; [by rewrite !andb_false_r|].
      symmetry. apply (Z.pow2_bits_false 0). lia. }
  unfold crc_step. rewrite E, Z.shiftr_lxor, Z.shiftr_shiftl_l by lia.
  replace (1 - 1) with 0 by lia. rewrite Z.shiftl_0_r. destruct (negb _); [|done].
  by rewrite !Z.lxor_assoc, (Z.lxor_comm y).
Qed.

Lemma iter_step_shifted n : ∀ x y, iter_step n (Z.lxor x (Z.shiftl y (Z.of_nat n))) = Z.lxor (iter_step n x) y.
Proof.
  induction n as [|n IH]; intros x y; cbn [iter_step]; [by rewrite Z.shiftl_0_r|].
  replace (Z.shiftl y (Z.of_nat (S n))) with (Z.shiftl (Z.shiftl y (Z.of_nat n)) 1)
    by (rewrite Z.shiftl_shiftl by lia; f_equal; lia).
  by rewrite crc_step_shifted, IH.
Qed.

(** Eight steps at once: the low byte selects what is combined with the rest. *)
Lemma iter_step_byte x : 0 ≤ x → iter_step 8 x = Z.lxor (Z.shiftr x 8) (iter_step 8 (Z.land x 255)).
Proof.
  intros Hx. rewrite Z.lxor_comm. rewrite <-(iter_step_shifted 8). f_equal.
  apply Z.bits_inj'. intros i Hi. rewrite Z.lxor_spec, Z.land_spec.
  change 255 with (Z.ones 8). destruct (decide (i < 8)).
  - rewrite Z.ones_spec_low, Z.shiftl_spec_low by lia. by rewrite andb_true_r, xorb_false_r.
  - rewrite Z.ones_spec_high, Z.shiftl_spec, Z.shiftr_spec by lia.
    rewrite andb_false_r, xorb_false_l. f_equal. lia.
Qed.

Lemma fill_table_lookup n : ∀ i table j, 0 ≤ i → i + Z.of_nat n = 256 → length table = 256%nat →
  (i ≤ j < 256 ∨ 0 ≤ j < i ∧ table !! Z.to_nat j = Some (iter_step 8 j)) →
  length (fill_table n i table) = 256%nat ∧ fill_table n i table !! Z.to_nat j = Some (iter_step 8 j).
Proof.
  induction n as [|n IH]; intros i table j Hi Hn Hlen Hj; cbn [fill_table]; [naive_solver lia|].
  apply IH; [lia..|by rewrite arr_set_length|].
  destruct (decide (j = i)) as [->|]; [right; split; [lia|]; apply arr_set_lookup_eq; lia|].
  destruct Hj as [|[? E]]; [left; lia|]. right. split; [lia|]. by rewrite arr_set_lookup_ne by lia.
Qed.

(** The table is there, and if it was filled, it was filled correctly. *)
Definition table_ok (s : ota_sys) : Prop :=
  length (crc32_table s) = 256%nat ∧
  (crc32_table_initialized s = true →
     ∀ j, 0 ≤ j < 256 → crc32_table s !! Z.to_nat j = Some (iter_step 8 j)).
(** [s'] is [s] with at most the CRC table changed. *)
Definition same_but_table (s s' : ota_sys) : Prop :=
  s' = s <| crc32_table := crc32_table s' |> <| crc32_table_initialized := crc32_table_initialized s' |>.

Lemma crc32_init_table_spec s : table_ok s →
  wp crc32_init_table (λ _ s', same_but_table s s' ∧ table_ok s' ∧ crc32_table_initialized s' = true) s.
Proof.
  intros [Hlen Hok]. unfold crc32_init_table. rewrite wp_bind, wp_gets.
  destruct (crc32_table_initialized s) eqn:E.
  - rewrite wp_ret. split; [by destruct s|]. by split; [split; [|intros _; apply Hok]|].
  - rewrite wp_bind, wp_modify, wp_modify. split; [done|]. split; [|done].
    split; [|intros _ j Hj]; cbn; by apply (fill_table_lookup 256 0 _ 0) || apply (fill_table_lookup 256 0 _ j);
      try lia; left; lia.
Qed.

Lemma step_range x : 0 ≤ x < 2 ^ 32 → 0 ≤ crc_step x < 2 ^ 32.
Proof.
  intros Hx. assert (0 ≤ Z.shiftr x 1 < 2 ^ 32) as Hs.
  { split; [apply Z.shiftr_nonneg; lia|]. rewrite Z.shiftr_div_pow2 by lia. apply Z.div_lt_upper_bound; lia. }
  unfold crc_step. destruct (negb _); [|done]. split; [apply Z.lxor_nonneg; unfold CRC_POLY; lia|].
  apply bits_bound; [lia|apply Z.lxor_nonneg; unfold CRC_POLY; lia|]. intros i Hi.
  rewrite Z.lxor_spec, !(testbit_above 32) by (unfold CRC_POLY; lia). done.
Qed.

Lemma iter_step_range n : ∀ x, 0 ≤ x < 2 ^ 32 → 0 ≤ iter_step n x < 2 ^ 32.
Proof. induction n as [|n IH]; intros x Hx; cbn [iter_step]; [done|]. by apply IH, step_range. Qed.

Lemma lxor_range n a b : 0 ≤ n → 0 ≤ a < 2 ^ n → 0 ≤ b < 2 ^ n → 0 ≤ Z.lxor a b < 2 ^ n.
Proof.
  intros. assert (0 ≤ Z.lxor a b) by (apply Z.lxor_nonneg; lia). split; [done|].
  apply bits_bound; [lia..|]. intros i Hi. by rewrite Z.lxor_spec, !(testbit_above n) by lia.
Qed.

Lemma crc_loop_spec data : ∀ s crc, bytes_ok data → table_ok s → crc32_table_initialized s = true →
  0 ≤ crc < 2 ^ 32 →
  crc_loop data crc s = Ret (foldl (λ crc byte, iter_step 8 (Z.lxor crc byte)) crc data) s.
Proof.
  induction data as [|b data IH]; intros s crc Hd Hs Hi Hc; cbn [crc_loop foldl]; [done|].
  apply Forall_cons in Hd as [Hb Hd]. unfold bind at 1, gets.
  assert (0 ≤ Z.lxor crc b < 2 ^ 32) by (apply lxor_range; lia).
  assert (0 ≤ Z.land (Z.lxor crc b) 255 < 256) as Hidx.
  { rewrite Z.land_comm. apply (land_range 8); lia. }
  unfold bind, arr_get. destruct (Z.ltb_spec (Z.land (Z.lxor crc b) 255) 0); [lia|].
  rewrite (proj2 Hs) by done. unfold ret.
  rewrite (iter_step_byte (Z.lxor crc b)) by lia.
  replace (Z.shiftr (Z.lxor crc b) 8) with (Z.shiftr crc 8).
  2:{ rewrite Z.shiftr_lxor. replace (Z.shiftr b 8) with 0; [by rewrite Z.lxor_0_r|].
      rewrite Z.shiftr_div_pow2 by lia. symmetry. apply Z.div_small. lia. }
  rewrite IH; [done..|]. apply lxor_range; [lia| |].
  - split; [apply Z.shiftr_nonneg; lia|]. rewrite Z.shiftr_div_pow2 by lia. apply Z.div_lt_upper_bound; lia.
  - apply iter_step_range. lia.
Qed.

Lemma crc32_calculate_spec data s : bytes_ok data → table_ok s →
  wp (crc32_calculate data) (λ crc s', crc = crc32_bitwise data ∧ same_but_table s s' ∧ table_ok s') s.
Proof.
  intros Hd Hs. unfold crc32_calculate. rewrite wp_bind.
  eapply wp_mono; [by apply crc32_init_table_spec|]. intros [] s1 (Hsame & Hs1 & Hi1).
  rewrite wp_bind. unfold wp at 1. rewrite crc_loop_spec by (done || lia). by rewrite wp_ret.
Qed.

(** * Boot information *)

(** What a boot information structure says, independent of its layout. [v_tail] is the word behind
    [boot_confirmed]: [crc32] in [boot_info_t], [boot_attempts] in the structure of the boot loader. *)
Record boot_view := BootView {
  v_magic : Z;
  v_active : Z;
  v_pending : Z;
  v_boot_count : Z;
  v_rollback_count : Z;
  v_rollback_enabled : bool;
  v_boot_confirmed : bool;
  v_tail : Z
}.
#[export] Instance boot_view_eta : Eta boot_view := λ v,
  BootView (v_magic v) (v_active v) (v_pending v) (v_boot_count v) (v_rollback_count v)
    (v_rollback_enabled v) (v_boot_confirmed v) (v_tail v).

Section boot_view.
Context `{!Abi}.

Definition view (b : list Z) : boot_view :=
  BootView (bi_magic b) (bi_active b) (bi_pending b) (bi_boot_count b) (bi_rollback_count b)
    (bi_rollback_enabled b) (bi_boot_confirmed b) (bi_crc32 b).
Definition bi_ok (b : list Z) : Prop := (boot_info_size ≤ length b)%nat ∧ bytes_ok b.

Lemma layout : (enum_size = 1 ∧ off_boot_count = 8)%nat ∨ (enum_size = 4 ∧ off_boot_count = 12)%nat.
Proof. unfold off_boot_count. destruct enum_size_cases as [E|E]; rewrite E; auto. Qed.
End boot_view.

(** Side conditions on offsets: unfold them and try both layouts. *)
Ltac offsets :=
  unfold bi_ok, boot_info_size, off_crc32, off_boot_confirmed, off_rollback_enabled, off_rollback_count,
    off_pending, off_active in *;
  rewrite ?le_encode_length; destruct layout as [[??]|[??]]; lia.
(** The view of a structure after a field was assigned. *)
Ltac view_set :=
  intros [Hlen Hok]; intros; unfold view, bi_magic, bi_active, bi_pending, bi_boot_count, bi_rollback_count,
    bi_rollback_enabled, bi_boot_confirmed, bi_crc32, set_magic, set_active, set_pending, set_boot_count,
    set_rollback_count, set_rollback_enabled, set_boot_confirmed, set_crc32;
  repeat first [ rewrite field_put_other by offsets | rewrite field_put_same; [|offsets|] ];
  [reflexivity|..].

Section boot_view_lemmas.
Context `{!Abi}.

Lemma enum_fits v : 0 ≤ v < 256 → 0 ≤ v < 256 ^ Z.of_nat enum_size.
Proof. intros. destruct layout as [[E _]|[E _]]; rewrite E; simpl; lia. Qed.

Lemma view_set_magic v b : bi_ok b → 0 ≤ v < 2 ^ 32 → view (set_magic v b) = view b <| v_magic := v |>.
Proof. view_set. simpl. lia. Qed.
Lemma view_set_active v b : bi_ok b → 0 ≤ v < 256 ^ Z.of_nat enum_size → view (set_active v b) = view b <| v_active := v |>.
Proof. by view_set. Qed.
Lemma view_set_pending v b : bi_ok b → 0 ≤ v < 256 ^ Z.of_nat enum_size → view (set_pending v b) = view b <| v_pending := v |>.
Proof. by view_set. Qed.
Lemma view_set_boot_count v b : bi_ok b → 0 ≤ v < 2 ^ 32 →
  view (set_boot_count v b) = view b <| v_boot_count := v |>.
Proof. view_set. simpl. lia. Qed.
Lemma view_set_rollback_count v b : bi_ok b → 0 ≤ v < 2 ^ 32 →
  view (set_rollback_count v b) = view b <| v_rollback_count := v |>.
Proof. view_set. simpl. lia. Qed.
Lemma view_set_rollback_enabled v b : bi_ok b →
  view (set_rollback_enabled v b) = view b <| v_rollback_enabled := v |>.
Proof. destruct v; view_set; simpl; lia. Qed.
Lemma view_set_boot_confirmed v b : bi_ok b →
  view (set_boot_confirmed v b) = view b <| v_boot_confirmed := v |>.
Proof. destruct v; view_set; simpl; lia. Qed.
Lemma view_set_crc32 v b : bi_ok b → 0 ≤ v < 2 ^ 32 → view (set_crc32 v b) = view b <| v_tail := v |>.
Proof. view_set. simpl. lia. Qed.

(** [b] is a structure of [n] bytes that says [v]. *)
Definition shows (n : nat) (b : list Z) (v : boot_view) : Prop := bi_ok b ∧ length b = n ∧ view b = v.

Lemma shows_put n b v off k x v' : shows n b v → (off + k ≤ boot_info_size)%nat →
  view (put off (le_encode k x) b) = v' → shows n (put off (le_encode k x) b) v'.
Proof.
  intros ([Hlen Hok] & Hn & _) Hoff Hv. unfold shows, bi_ok.
  rewrite put_length by (rewrite le_encode_length; lia).
  split; [|done]. split; [done|]. apply put_ok; [apply le_encode_ok|done].
Qed.
Lemma shows_magic n b v x : shows n b v → 0 ≤ x < 2 ^ 32 → shows n (set_magic x b) (v <| v_magic := x |>).
Proof. intros Hs Hx. eapply shows_put; [done|offsets|]. destruct Hs as (? & _ & <-). by apply view_set_magic. Qed.
Lemma shows_active n b v x : shows n b v → 0 ≤ x < 256 ^ Z.of_nat enum_size →
  shows n (set_active x b) (v <| v_active := x |>).
Proof. intros Hs Hx. eapply shows_put; [done|offsets|]. destruct Hs as (? & _ & <-). by apply view_set_active. Qed.
Lemma shows_pending n b v x : shows n b v → 0 ≤ x < 256 ^ Z.of_nat enum_size →
  shows n (set_pending x b) (v <| v_pending := x |>).
Proof. intros Hs Hx. eapply shows_put; [done|offsets|]. destruct Hs as (? & _ & <-). by apply view_set_pending. Qed.
Lemma shows_boot_count n b v x : shows n b v → 0 ≤ x < 2 ^ 32 →
  shows n (set_boot_count x b) (v <| v_boot_count := x |>).
Proof. intros Hs Hx. eapply shows_put; [done|offsets|]. destruct Hs as (? & _ & <-). by apply view_set_boot_count. Qed.
Lemma shows_rollback_count n b v x : shows n b v → 0 ≤ x < 2 ^ 32 →
  shows n (set_rollback_count x b) (v <| v_rollback_count := x |>).
Proof. intros Hs Hx. eapply shows_put; [done|offsets|]. destruct Hs as (? & _ & <-). by apply view_set_rollback_count. Qed.
Lemma shows_rollback_enabled n b v x : shows n b v →
  shows n (set_rollback_enabled x b) (v <| v_rollback_enabled := x |>).
Proof. intros Hs. eapply shows_put; [done|offsets|]. destruct Hs as (? & _ & <-). by apply view_set_rollback_enabled. Qed.
Lemma shows_boot_confirmed n b v x : shows n b v →
  shows n (set_boot_confirmed x b) (v <| v_boot_confirmed := x |>).
Proof. intros Hs. eapply shows_put; [done|offsets|]. destruct Hs as (? & _ & <-). by apply view_set_boot_confirmed. Qed.
Lemma shows_crc32 n b v x : shows n b v → 0 ≤ x < 2 ^ 32 → shows n (set_crc32 x b) (v <| v_tail := x |>).
Proof. intros Hs Hx. eapply shows_put; [done|offsets|]. destruct Hs as (? & _ & <-). by apply view_set_crc32. Qed.

(** The view is determined by the bytes of [boot_info_t]. *)
Lemma view_prefix b b' : take boot_info_size b = take boot_info_size b' → view b = view b'.
Proof.
  intros E.
  assert (∀ off n, (off + n ≤ boot_info_size)%nat → field off n b = field off n b') as Hf.
  { intros off n Hoff. unfold field. f_equal.
    assert (∀ l : list Z, take n (drop off l) = take n (drop off (take boot_info_size l))) as Hl.
    { intros l. rewrite skipn_firstn_comm, take_take. f_equal. lia. }
    by rewrite (Hl b), (Hl b'), E. }
  unfold view, bi_magic, bi_active, bi_pending, bi_boot_count, bi_rollback_count, bi_rollback_enabled,
    bi_boot_confirmed, bi_crc32. rewrite !Hf by offsets. done.
Qed.
End boot_view_lemmas.

Create HintDb boot.
#[export] Hint Resolve shows_magic shows_active shows_pending shows_boot_count shows_rollback_count
  shows_rollback_enabled shows_boot_confirmed shows_crc32 : boot.
#[export] Hint Extern 1 (_ ≤ _ < _) => lia : boot.

(** * The record in flash *)
Section record.
Context `{!Abi}.

(** The flash is initialised, holds bytes and is not write protected. *)
Definition flash_ready (f : flash_t) : Prop :=
  flash_ok f ∧ write_protection_enabled f = false ∧ ∀ x, 0 ≤ simulated_flash f x < 256.
(** What the boot information in flash says. *)
Definition stored (f : flash_t) : boot_view :=
  view (mread (simulated_flash f) FLASH_DATA_START (Z.of_nat boot_info_size)).
(** Only the sector of the boot information differs. *)
Definition outside_record (f f' : flash_t) : Prop :=
  f' = f <| simulated_flash := simulated_flash f' |> ∧
  ∀ x, x < FLASH_DATA_START ∨ FLASH_DATA_START + 4096 ≤ x → simulated_flash f' x = simulated_flash f x.

#[export] Instance outside_record_preorder : PreOrder outside_record.
Proof.
  split.
  - intros f. split; [by destruct f|done].
  - intros f1 f2 f3 [E1 H1] [E2 H2]. split; [rewrite E2, E1; by destruct f1|].
    intros x Hx. by rewrite H2, H1.
Qed.

Lemma unprotected f a n : flash_ready f → is_write_protected_range a n f = false.
Proof. intros (_ & Hp & _). unfold is_write_protected_range. by rewrite Hp. Qed.

Lemma ready_mwrite f a bs : flash_ready f → bytes_ok bs →
  flash_ready (f <| simulated_flash ::= mwrite a bs |>).
Proof. intros ([] & Hp & Hb) Hbs. split; [by constructor|]. split; [done|]. by apply mwrite_ok. Qed.
Lemma ready_mset f a n : flash_ready f → flash_ready (f <| simulated_flash ::= mset a 255 n |>).
Proof.
  intros ([] & Hp & Hb). split; [by constructor|]. split; [done|]. intros x. cbn. unfold mset.
  destruct (_ && _); [lia|apply Hb].
Qed.

(** Erasing the sector of the boot information and writing [bs] to it. *)
Lemma rewrite_record f bs : flash_ready f → bytes_ok bs → (0 < length bs ≤ 4096)%nat →
  (boot_info_size ≤ length bs)%nat →
  ∃ f1 f2, flash_erase_sector FLASH_DATA_START f = Ret FLASH_OK f1 ∧
    flash_write FLASH_DATA_START (Some bs) (Z.of_nat (length bs)) f1 = Ret FLASH_OK f2 ∧
    flash_ready f2 ∧ outside_record f f2 ∧ stored f2 = view bs ∧
    mread (simulated_flash f2) FLASH_DATA_START (Z.of_nat (length bs)) = bs.
Proof.
  intros Hf Hbs Hlen Hsize. pose proof Hf as (Hok & Hp & Hb).
  exists (f <| simulated_flash ::= mset FLASH_DATA_START 255 4096 |>).
  eexists. split; [|split; [|split; [|split; [|split]]]].
  - rewrite flash_erase_sector_spec by (done || unfold FLASH_DATA_START; lia).
    change (FLASH_DATA_START / 4096 * 4096) with FLASH_DATA_START. cbv zeta.
    rewrite decide_False by (unfold FLASH_TOTAL_SIZE, FLASH_DATA_START; lia). by rewrite unprotected.
  - pose proof (ready_mset f FLASH_DATA_START 4096 Hf) as Hf1.
    rewrite flash_write_spec by (apply Hf1 || unfold FLASH_DATA_START; lia).
    rewrite decide_False by lia. rewrite decide_False by (unfold FLASH_TOTAL_SIZE, FLASH_DATA_START; lia).
    rewrite unprotected by done. by rewrite Nat2Z.id, firstn_all.
  - by apply ready_mwrite, Hbs; apply ready_mset.
  - split; [done|]. intros x Hx. cbn. rewrite mwrite_out by (unfold FLASH_DATA_START in *; lia).
    by apply mset_out.
  - unfold stored. apply view_prefix. cbn. rewrite mread_mwrite_prefix by lia.
    rewrite Nat2Z.id. by rewrite take_take, Nat.min_id.
  - cbn. by rewrite mread_mwrite_same.
Qed.

(** * Saving and loading *)

(** A state between two calls of the module. *)
Record ota_ok (s : ota_sys) : Prop := {
  ok_flash : flash_ready (o_flash s);
  ok_table : table_ok s;
  ok_info : shows boot_info_size (o_boot_info s) (view (o_boot_info s))
}.

(** What saving and loading the boot information leaves alone. *)
Definition other_fields (s : ota_sys) :=
  (o_heap s, o_initialized s, o_config s, o_progress s, (o_callback s, o_callback_user_data s),
   o_running_partition s, o_update_partition s, o_download_offset s, o_current_header s).

(** [s'] is [s] after boot information that says [v] was saved. *)
Record saved (s : ota_sys) (v : boot_view) (s' : ota_sys) : Prop := {
  sv_ok : ota_ok s';
  sv_info : view (o_boot_info s') = v;
  sv_stored : stored (o_flash s') = v;
  sv_flash : outside_record (o_flash s) (o_flash s');
  sv_rest : other_fields s' = other_fields s
}.

Lemma lnot32_range z : 0 ≤ lnot32 z < 2 ^ 32.
Proof. apply u32_range. Qed.

Lemma save_boot_info_spec s : ota_ok s →
  wp save_boot_info (λ e s', e = OTA_OK ∧
    saved s (view (o_boot_info s) <| v_tail := crc32_bitwise (take (boot_info_size - 4) (o_boot_info s)) |>) s') s.
Proof.
  intros [Hf Ht Hi]. unfold save_boot_info. rewrite wp_bind, wp_gets, wp_bind.
  eapply wp_mono; [apply crc32_calculate_spec; [by apply Forall_take, Hi|done]|].
  intros crc s1 (-> & Hs1 & Ht1). rewrite wp_bind, wp_modify, wp_bind, wp_zoom.
  set (crc := crc32_bitwise _). set (b := set_crc32 crc (o_boot_info s)).
  assert (shows boot_info_size b (view (o_boot_info s) <| v_tail := crc |>)) as (Hb & Hlb & Hv).
  { apply shows_crc32; [done|]. apply lnot32_range. }
  assert (0 < boot_info_size ≤ 4096)%nat by offsets.
  destruct (rewrite_record (o_flash s) b) as (f1 & f2 & E1 & E2 & Hf2 & Ho & Hst & _); [done|apply Hb|lia|lia|].
  cbn [o_flash set_field]. replace (o_flash s1) with (o_flash s) by (by rewrite Hs1).
  unfold wp at 1. rewrite E1. rewrite decide_False by (intros Hne; by apply Hne).
  rewrite wp_bind, wp_gets, wp_bind, wp_zoom. cbn [o_flash o_boot_info set_field].
  replace (o_boot_info s1) with (o_boot_info s) by (by rewrite Hs1).
  fold b. rewrite <-Hlb. unfold wp at 1. rewrite E2. rewrite decide_False by (intros Hne; by apply Hne).
  rewrite wp_ret. split; [done|].
  constructor; cbn; [by constructor|done|by rewrite Hst|done|]. by rewrite Hs1.
Qed.

Lemma load_stored f : flash_ready f →
  flash_read FLASH_DATA_START LOCAL (Z.of_nat boot_info_size) f =
    Ret (FLASH_OK, mread (simulated_flash f) FLASH_DATA_START (Z.of_nat boot_info_size)) f.
Proof.
  intros ([Hi _ _ _] & _). assert (0 < boot_info_size ≤ 4096)%nat by offsets.
  rewrite flash_read_spec by (done || unfold FLASH_DATA_START; lia).
  rewrite !decide_False by (unfold FLASH_TOTAL_SIZE, FLASH_DATA_START; lia). done.
Qed.

(** The default boot information: partition A, confirmed, with rollback enabled. *)
Definition default_view (tail : Z) : boot_view :=
  BootView OTA_BOOTINFO_MAGIC OTA_PARTITION_APP_A OTA_PARTITION_APP_A 0 0 true true tail.

Lemma default_boot_info_view : shows boot_info_size default_boot_info (default_view 0).
Proof.
  assert (∀ off n, field off n (replicate boot_info_size 0) = 0) as Hf.
  { intros off n. unfold field. rewrite drop_replicate, take_replicate.
    induction (n `min` (boot_info_size - off))%nat as [|k IH]; simpl; lia. }
  assert (shows boot_info_size (replicate boot_info_size 0) (BootView 0 0 0 0 0 false false 0)) as Hz.
  { split; [|split; [apply length_replicate|]].
    - split; [rewrite length_replicate; lia|]. apply Forall_replicate. lia.
    - unfold view, bi_magic, bi_active, bi_pending, bi_boot_count, bi_rollback_count, bi_rollback_enabled,
        bi_boot_confirmed, bi_crc32. by rewrite !Hf. }
  refine (shows_boot_confirmed _ _ _ _ (shows_rollback_enabled _ _ _ _ (shows_pending _ _ _ _
    (shows_active _ _ _ _ (shows_magic _ _ _ _ Hz _) _) _)));
    unfold OTA_BOOTINFO_MAGIC, OTA_PARTITION_APP_A; first [lia|apply enum_fits; lia].
Qed.

(** Loading what is in flash, or storing the defaults if it is not boot information. *)
Lemma load_boot_info_spec s : flash_ready (o_flash s) → table_ok s →
  wp load_boot_info (λ e s', e = OTA_OK ∧ ota_ok s' ∧ stored (o_flash s') = view (o_boot_info s') ∧
    outside_record (o_flash s) (o_flash s') ∧ v_magic (stored (o_flash s')) = OTA_BOOTINFO_MAGIC ∧
    (v_magic (stored (o_flash s)) = OTA_BOOTINFO_MAGIC → stored (o_flash s') = stored (o_flash s)) ∧
    (v_magic (stored (o_flash s)) ≠ OTA_BOOTINFO_MAGIC →
       ∃ tail, stored (o_flash s') = default_view tail) ∧
    other_fields s' = other_fields s) s.
Proof.
  intros Hf Ht. unfold load_boot_info. rewrite wp_bind, wp_zoom. unfold wp at 1.
  rewrite load_stored by done. cbn [fst snd]. rewrite decide_False by (intros Hne; by apply Hne).
  rewrite wp_bind, wp_modify, wp_bind, wp_gets. cbn [o_boot_info set_field].
  set (b := mread _ _ _). change (v_magic (stored (o_flash s))) with (bi_magic b).
  destruct (Z.eqb_spec (bi_magic b) OTA_BOOTINFO_MAGIC) as [Hm|Hm]; cbn [negb].
  - rewrite wp_ret. split; [done|]. split.
    { constructor; [done|done|]. split; [|split; [|done]]; cbn; unfold b; rewrite ?mread_length; [|lia].
      split; [rewrite mread_length; lia|]. apply mread_ok. apply Hf. }
    done.
  - rewrite wp_bind, wp_modify. pose proof default_boot_info_view as (Hd & Hld & Hvd).
    match goal with |- wp _ _ ?x => set (s1 := x) end.
    assert (ota_ok s1) as Hs1 by by constructor.
    assert (view (o_boot_info s1) = default_view 0) as Hv1 by exact Hvd.
    eapply wp_mono; [by apply save_boot_info_spec|]. intros e s2 (-> & [Hok Hi Hst Hfl Hr]).
    split; [done|]. split; [done|]. rewrite Hst, Hi, Hv1. cbn in Hfl.
    split; [done|]. split; [exact Hfl|]. split; [done|]. split; [done|]. split; [by eexists|].
    exact Hr.
Qed.
End record.

(** * Updates *)

(** A progress callback that leaves the update and the flash alone. *)
Definition quiet_progress (callback : ptr → ota_progress_t → ptr → ota_sys → ota_sys) : Prop :=
  ∀ cb p u s, callback cb p u s = s.

(** The application partitions. *)
Definition is_app (p : Z) : Prop := p = OTA_PARTITION_APP_A ∨ p = OTA_PARTITION_APP_B.
Definition start_of (p : Z) : Z := if p =? OTA_PARTITION_APP_A then FLASH_APP_A_START else FLASH_APP_B_START.
Definition APP_SIZE : Z := 240 * 1024.

Lemma partition_info p : is_app p →
  ∃ info, (ota_get_partition_info p LOCAL).2 = Some info ∧ pi_start_address info = start_of p ∧
    pi_size info = APP_SIZE ∧ (ota_get_partition_info p LOCAL).1 = OTA_OK.
Proof. intros [->| ->]; eexists; done. Qed.
Lemma other_app_is_app p : is_app (other_app p).
Proof. unfold other_app. destruct (_ =? _); [by right|by left]. Qed.
Lemma start_range p : is_app p →
  FLASH_BOOTLOADER_SIZE ≤ start_of p ∧ start_of p + APP_SIZE ≤ FLASH_DATA_START ∧ start_of p mod 4096 = 0.
Proof. intros [->| ->]; vm_compute; intuition discriminate. Qed.
Lemma start_disjoint p : is_app p →
  start_of p + APP_SIZE ≤ start_of (other_app p) ∨ start_of (other_app p) + APP_SIZE ≤ start_of p.
Proof. intros [->| ->]; vm_compute; intuition discriminate. Qed.

(** An image that the header checks let through. *)
Definition acceptable (data : list Z) : Prop :=
  HEADER_BYTES ≤ Z.of_nat (length data) ≤ OTA_MAX_DOWNLOAD_SIZE ∧
  ota_verify_image_header (Some (take (Z.to_nat HEADER_BYTES) data)) = OTA_OK.
#[export] Instance acceptable_dec data : Decision (acceptable data).
Proof. unfold acceptable. apply _. Defined.

(** The flash after [data] was installed at [start]: the data, and nothing else outside the partition
    changed. *)
Definition installed (start : Z) (data : list Z) (f f' : flash_t) : Prop :=
  flash_ready f' ∧ f' = f <| simulated_flash := simulated_flash f' |> ∧
  mread (simulated_flash f') start (Z.of_nat (length data)) = data ∧
  ∀ x, x < start ∨ start + APP_SIZE ≤ x → simulated_flash f' x = simulated_flash f x.

Lemma erase_and_write f p data : flash_ready f → is_app p → bytes_ok data →
  0 < Z.of_nat (length data) ≤ APP_SIZE →
  ∃ f1 f2, flash_erase_range (start_of p) APP_SIZE f = Ret FLASH_OK f1 ∧
    flash_write (start_of p) (Some data) (Z.of_nat (length data)) f1 = Ret FLASH_OK f2 ∧
    installed (start_of p) data f f2.
Proof.
  intros Hf Hp Hd Hlen. pose proof Hf as (Hok & Hwp & Hb). pose proof (start_range p Hp) as (Hs1 & Hs2 & Hal).
  unfold FLASH_BOOTLOADER_SIZE, FLASH_DATA_START, APP_SIZE in *.
  destruct (erase_loop_exact 60 f (start_of p) 130) as (f1 & E1 & Ef1 & Hx1);
    [done|done|lia|done|unfold FLASH_TOTAL_SIZE; lia|lia|].
  assert (flash_ready f1) as Hf1.
  { destruct Hok. split; [rewrite Ef1; by constructor|]. split; [by rewrite Ef1|].
    intros x. rewrite Hx1. unfold mset. destruct (_ && _); [lia|apply Hb]. }
  exists f1, (f1 <| simulated_flash ::= mwrite (start_of p) data |>). split; [|split; [|split; [|split; [|split]]]].
  - unfold flash_erase_range, bind, gets. rewrite (fo_init _ Hok). cbn [negb]. unfold FLASH_SECTOR_SIZE.
    rewrite (u32_small (start_of p + 240 * 1024)), u32_small by lia.
    replace (start_of p / 4096 * 4096) with (start_of p) by (Z.div_mod_to_equations; lia).
    replace ((start_of p + 240 * 1024 + 4096 - 1) / 4096 * 4096) with (start_of p + 4096 * Z.of_nat 60);
      [exact E1|Z.div_mod_to_equations; lia].
  - rewrite flash_write_spec by (apply Hf1 || lia). rewrite decide_False by lia.
    rewrite decide_False by (unfold FLASH_TOTAL_SIZE; lia). rewrite unprotected by done.
    by rewrite Nat2Z.id, firstn_all.
  - by apply ready_mwrite.
  - rewrite Ef1. by destruct f.
  - cbn. apply mread_mwrite_same.
  - intros x Hx. cbn. unfold APP_SIZE in Hx. rewrite mwrite_out by lia. rewrite Hx1. apply mset_out. lia.
Qed.

Lemma read_header f p : flash_initialized f = true → is_app p →
  flash_read (start_of p) LOCAL HEADER_BYTES f =
    Ret (FLASH_OK, mread (simulated_flash f) (start_of p) HEADER_BYTES) f.
Proof.
  intros Hi Hp. pose proof (start_range p Hp) as (Hs1 & Hs2 & _).
  unfold FLASH_BOOTLOADER_SIZE, FLASH_DATA_START, APP_SIZE, HEADER_BYTES in *.
  rewrite flash_read_spec by (done || lia). rewrite !decide_False by (unfold FLASH_TOTAL_SIZE; lia). done.
Qed.

Lemma installed_header start data f f' : installed start data f f' → HEADER_BYTES ≤ Z.of_nat (length data) →
  mread (simulated_flash f') start HEADER_BYTES = take (Z.to_nat HEADER_BYTES) data.
Proof.
  intros (_ & _ & E & _) Hlen. unfold HEADER_BYTES in *. rewrite <-E.
  apply list_eq_same_length with (n := Z.to_nat 104); try (rewrite ?length_take, ?mread_length; lia).
  intros i x y Hi. rewrite lookup_take_lt by lia. rewrite !mread_lookup by lia. by intros [= <-] [= <-].
Qed.

(** The part of the state that decides about the next boot. *)
Definition core (s : ota_sys) : flash_t * heap_t * bool * Z * Z * list Z * list Z * bool :=
  (o_flash s, o_heap s, o_initialized s, o_running_partition s, o_update_partition s, o_boot_info s,
   crc32_table s, crc32_table_initialized s).
Definition same_core (s s' : ota_sys) : Prop := core s' = core s.

Section update.
Context `{!Abi, !HeapBase} (callback : ptr → ota_progress_t → ptr → ota_sys → ota_sys).
Context (Hquiet : quiet_progress callback).

Lemma ota_ok_core s s' : same_core s s' → ota_ok s → ota_ok s'.
Proof.
  unfold same_core, core. intros [= E1 E2 E3 E4 E5 E6 E7 E8] [Hf [Ht1 Ht2] Hi].
  constructor; [by rewrite E1| |by rewrite E6]. split; by rewrite ?E7, ?E8.
Qed.

Lemma wp_report Q s : wp (report_progress callback) Q s = Q tt s.
Proof. unfold report_progress. rewrite wp_modify. destruct (_ =? _); [done|]. by rewrite Hquiet. Qed.

Lemma fail_update_spec err s :
  wp (fail_update callback err) (λ e s', e = err ∧ same_core s s' ∧
    op_state (o_progress s') = OTA_STATE_FAILED ∧ op_last_error (o_progress s') = err) s.
Proof. unfold fail_update. rewrite wp_bind, wp_modify, wp_bind, wp_report, wp_ret. done. Qed.

Lemma ota_verify_partition_spec p s : flash_initialized (o_flash s) = true → is_app p →
  ota_verify_partition p s =
    Ret (ota_verify_image_header (Some (mread (simulated_flash (o_flash s)) (start_of p) HEADER_BYTES))) s.
Proof.
  intros Hi Hp. unfold ota_verify_partition.
  destruct (partition_info p Hp) as (info & E & Es & _ & _). rewrite E.
  replace (OTA_PARTITION_MAX <=? p) with false by (by destruct Hp as [->| ->]).
  unfold bind, zoom. rewrite Es, read_header by done. cbn [fst snd].
  rewrite decide_False by (intros Hne; by apply Hne). unfold ret. f_equal. by destruct s.
Qed.

(** What an accepted update leaves behind. *)
Record update_done (s : ota_sys) (data : list Z) (s' : ota_sys) : Prop := {
  ud_ok : ota_ok s';
  ud_data : mread (simulated_flash (o_flash s')) (start_of (o_update_partition s)) (Z.of_nat (length data)) = data;
  ud_stored : ∃ tail, stored (o_flash s') =
    view (o_boot_info s) <| v_pending := o_update_partition s |> <| v_boot_confirmed := false |> <| v_tail := tail |>;
  ud_frame : ∀ x, x < start_of (o_update_partition s) ∨ start_of (o_update_partition s) + APP_SIZE ≤ x →
    x < FLASH_DATA_START ∨ FLASH_DATA_START + 4096 ≤ x →
    simulated_flash (o_flash s') x = simulated_flash (o_flash s) x;
  ud_progress : op_state (o_progress s') = OTA_STATE_COMPLETE;
  ud_partitions : o_running_partition s' = o_running_partition s ∧ o_update_partition s' = o_update_partition s
}.

(** Marking the installed partition as pending. *)
Lemma mark_pending s data f : ota_ok s → is_app (o_update_partition s) →
  installed (start_of (o_update_partition s)) data (o_flash s) f → HEADER_BYTES ≤ Z.of_nat (length data) ≤ APP_SIZE →
  ∀ s1, same_core (s <| o_flash := f |>) s1 →
  wp (modify (λ s, s <| o_boot_info ::= set_pending (o_update_partition s) |>) ;;;
      modify (λ s, s <| o_boot_info ::= set_boot_confirmed false |>) ;;;
      let! _ := save_boot_info in
      modify (λ s, s <| o_progress ::= λ p, p <| op_state := OTA_STATE_COMPLETE |> |>) ;;;
      report_progress callback ;;;
      ret OTA_OK) (λ e s', e = OTA_OK ∧ update_done s data s') s1.
Proof.
  intros Hs Hp (Hf & _ & Hd & Hfr) Hlen s1 [= E1 E2 E3 E4 E5 E6 E7 E8].
  cbn in E1, E5, E6, E7, E8. pose proof (start_range _ Hp) as (Hs1 & Hs2 & _).
  unfold HEADER_BYTES in *. rewrite wp_bind, wp_modify, wp_bind, wp_modify, wp_bind.
  match goal with |- wp _ _ ?x => set (s2 := x) end.
  assert (shows boot_info_size (o_boot_info s2)
    (view (o_boot_info s) <| v_pending := o_update_partition s |> <| v_boot_confirmed := false |>)) as Hb2.
  { change (o_boot_info s2) with (set_boot_confirmed false (set_pending (o_update_partition s1) (o_boot_info s1))).
    rewrite E6, E5. apply shows_boot_confirmed, shows_pending; [apply Hs|].
    apply enum_fits. by destruct Hp as [->| ->]. }
  assert (ota_ok s2) as Hs2'.
  { constructor; [unfold s2; cbn; by rewrite E1| |split; [apply Hb2|split; [apply Hb2|done]]].
    destruct Hs as [_ [Ht1 Ht2] _]. unfold s2. split; cbn; by rewrite ?E7, ?E8. }
  eapply wp_mono; [by apply save_boot_info_spec|]. intros e s3 (-> & [Hok3 Hi3 Hst3 Ho3 Hr3]).
  rewrite wp_bind, wp_modify, wp_bind, wp_report, wp_ret. split; [done|].
  destruct Hb2 as (_ & _ & Hv2). change (o_flash s2) with (o_flash s1) in Ho3. rewrite E1 in Ho3.
  destruct Ho3 as [_ Ho3]. constructor; cbn.
  - eapply ota_ok_core; [|exact Hok3]. done.
  - rewrite <-Hd at 2. apply mread_ext. intros x Hx. apply Ho3. unfold APP_SIZE in *. lia.
  - eexists. rewrite Hst3, Hv2. reflexivity.
  - intros x Hx1 Hx2. rewrite Ho3 by done. by apply Hfr.
  - done.
  - injection Hr3 as. split; congruence.
Qed.

Lemma install_spec s data : ota_ok s → is_app (o_update_partition s) → bytes_ok data → acceptable data →
  wp (install callback data (Z.of_nat (length data))) (λ e s', e = OTA_OK ∧ update_done s data s') s.
Proof.
  intros Hs Hp Hd [Hlen Hv]. unfold install. rewrite wp_bind, wp_gets.
  destruct (partition_info _ Hp) as (info & E & Es & Ez & _). rewrite E, Es, Ez.
  destruct (erase_and_write (o_flash s) _ data (ok_flash s Hs) Hp Hd) as (f1 & f2 & E1 & E2 & Hins).
  { unfold HEADER_BYTES, OTA_MAX_DOWNLOAD_SIZE, APP_SIZE in *. lia. }
  rewrite wp_bind, wp_zoom. unfold wp at 1. rewrite E1. rewrite decide_False by (intros Hne; by apply Hne).
  rewrite wp_bind, wp_zoom. cbn [o_flash set_field]. unfold wp at 1. rewrite E2.
  rewrite decide_False by (intros Hne; by apply Hne).
  rewrite wp_bind, wp_modify, wp_bind, wp_report, wp_bind, wp_gets.
  match goal with |- wp _ _ ?x => remember x as s1 eqn:Es1 end.
  assert (same_core (s <| o_flash := f2 |>) s1) as Hc by (by rewrite Es1).
  assert (o_flash s1 = f2 ∧ o_update_partition s1 = o_update_partition s) as [Ef Eu] by (by rewrite Es1).
  clear Es1. rewrite wp_bind. unfold wp at 1. rewrite Eu.
  rewrite ota_verify_partition_spec; [|rewrite Ef; apply Hins|done].
  rewrite Ef, (installed_header _ data _ _ Hins), Hv by apply Hlen.
  rewrite decide_False by (intros Hne; by apply Hne).
  by apply (mark_pending s data f2).
Qed.
End update.

(** * Theorems *)

(** C15. The table-driven CRC is the bit-by-bit CRC-32: for any data, [crc32_calculate] returns the
    value of the reference computation, whether or not the table was filled before, and fills the
    table correctly. *)
Theorem crc32_table_driven (data : list Z) (s : ota_sys) :
  bytes_ok data → table_ok s →
  wp (crc32_calculate data) (λ crc s', crc = crc32_bitwise data ∧ table_ok s' ∧ o_flash s' = o_flash s) s.
Proof.
  intros Hd Hs. eapply wp_mono; [by apply crc32_calculate_spec|]. intros crc s' (-> & Hsame & Ht).
  split; [done|]. split; [done|]. by rewrite Hsame.
Qed.

(** C16. An update from a buffer is all or nothing: an image whose size and header are acceptable is
    written to the update partition byte for byte and recorded in flash as pending and unconfirmed,
    and neither the running partition nor the boot loader changes; any other image is refused with the
    flash and the boot information unchanged. *)
Theorem ota_update_all_or_nothing `{!Abi, !HeapBase} callback (s : ota_sys) (data : list Z) (cb user_data : ptr) :
  quiet_progress callback → ota_ok s → o_initialized s = true →
  is_app (o_running_partition s) → o_update_partition s = other_app (o_running_partition s) → bytes_ok data →
  wp (ota_start_update_from_buffer callback (Some data) (Z.of_nat (length data)) cb user_data) (λ e s',
    if decide (acceptable data) then
      e = OTA_OK ∧ update_done s data s' ∧
      (∀ x, start_of (o_running_partition s) ≤ x < start_of (o_running_partition s) + APP_SIZE ∨
            FLASH_BOOTLOADER_START ≤ x < FLASH_BOOTLOADER_START + FLASH_BOOTLOADER_SIZE →
         simulated_flash (o_flash s') x = simulated_flash (o_flash s) x)
    else e ≠ OTA_OK ∧ same_core s s') s.
Proof.
  intros Hq Hs Hi Hrun Hup Hd. unfold ota_start_update_from_buffer. rewrite wp_bind, wp_gets, Hi.
  assert (is_app (o_update_partition s)) as Hp by (rewrite Hup; apply other_app_is_app).
  set (size := Z.of_nat (length data)). cbn [negb orb].
  destruct (Z.eqb_spec size 0).
  { rewrite wp_ret, decide_False; [done|]. intros [Hl _]. unfold HEADER_BYTES in Hl. lia. }
  destruct (Z.ltb_spec OTA_MAX_DOWNLOAD_SIZE size).
  { rewrite wp_ret, decide_False; [done|]. intros [Hl _]. lia. }
  rewrite wp_bind. unfold set_callback. rewrite wp_modify. destruct (Z.ltb_spec size HEADER_BYTES).
  { eapply wp_mono; [by apply fail_update_spec|]. intros e s' (-> & Hc & _).
    by rewrite decide_False by (intros [Hl _]; lia). }
  rewrite wp_bind, wp_modify, wp_bind, wp_gets. cbn [o_current_header set_field].
  destruct (decide (_ ≠ OTA_OK)) as [Hbad|Hgood].
  { eapply wp_mono; [by apply fail_update_spec|]. intros e s' (-> & Hc & _).
    by rewrite decide_False by (intros [_ Hv]; done). }
  assert (acceptable data) as Hacc.
  { split; [done|]. destruct (ota_verify_image_header _); try done; exfalso; by apply Hgood. }
  rewrite wp_bind, wp_modify, wp_bind, wp_report by done.
  match goal with |- wp _ _ ?x => remember x as s1 eqn:Es1 end.
  assert (same_core s s1) as Hc by (by rewrite Es1). clear Es1.
  pose proof Hc as [= E1 E2 E3 E4 E5 E6 E7 E8].
  eapply wp_mono; [apply (install_spec callback Hq s1 data); [by eapply ota_ok_core|by rewrite E5|done..]|].
  intros e s' (-> & [Hu1 Hu2 Hu3 Hu4 Hu5 Hu6]). rewrite decide_True by done.
  rewrite E1, E5, E6 in *. split; [done|]. split.
  { constructor; [done..|]. by rewrite E4 in Hu6. }
  intros x Hx. pose proof (start_range _ Hp) as (Hs1 & Hs2 & _). pose proof (start_range _ Hrun) as (Hs3 & Hs4 & _).
  pose proof (start_disjoint _ Hrun) as Hdis. rewrite <-Hup in Hdis.
  unfold FLASH_BOOTLOADER_START, FLASH_BOOTLOADER_SIZE, FLASH_DATA_START, APP_SIZE in *.
  apply Hu4; unfold FLASH_DATA_START; lia.
Qed.

(** The successful path of [ota_write_chunk]. *)
Lemma ota_write_chunk_ok `{!Abi, !HeapBase} callback (s : ota_sys) (data : list Z) (offset : Z) :
  let size := Z.of_nat (length data) in
  let address := u32 (start_of (o_update_partition s) + offset) in
  quiet_progress callback → flash_ready (o_flash s) → o_initialized s = true →
  is_app (o_update_partition s) → 0 < size → u32 (offset + size) ≤ APP_SIZE → address + size ≤ FLASH_TOTAL_SIZE →
  wp (ota_write_chunk callback (Some data) size offset) (λ e s', e = OTA_OK ∧
    simulated_flash (o_flash s') = mwrite address data (simulated_flash (o_flash s))) s.
Proof.
  intros size address Hq Hf Hi Hp Hs Hu Ha. unfold ota_write_chunk. rewrite wp_bind, wp_gets, Hi. cbn [negb].
  rewrite wp_bind, wp_gets. destruct (partition_info _ Hp) as (info & E & Es & Ez & _). rewrite E, Es, Ez.
  rewrite (proj2 (Z.ltb_ge _ _)) by done. rewrite wp_bind, wp_zoom. fold address. unfold wp at 1.
  rewrite flash_write_spec by (apply Hf || apply u32_range || lia).
  rewrite !decide_False, unprotected by (done || lia). cbv beta iota.
  rewrite decide_False by (intros Hne; by apply Hne).
  rewrite wp_bind, wp_modify, wp_bind, wp_modify, wp_bind, wp_report, wp_ret by done. split; [done|].
  cbn. unfold size. by rewrite Nat2Z.id, firstn_all.
Qed.

(** Chunks stay in the update partition unless the offset wraps around: a chunk that ends inside
    the partition is written where it belongs and nothing else changes, one that ends behind it is
    refused; but the sums are computed in 32 bits, and an offset just below 2^32 makes the call
    accept a chunk that it writes to the start of the flash, over the boot loader. *)
Theorem ota_write_chunk_bounds `{!Abi, !HeapBase} callback (s : ota_sys) (data : list Z) (offset : Z) :
  let size := Z.of_nat (length data) in
  let start := start_of (o_update_partition s) in
  quiet_progress callback → flash_ready (o_flash s) → o_initialized s = true →
  is_app (o_update_partition s) → 0 < size → 0 ≤ offset →
  (offset + size ≤ APP_SIZE →
     wp (ota_write_chunk callback (Some data) size offset) (λ e s', e = OTA_OK ∧
       mread (simulated_flash (o_flash s')) (start + offset) size = data ∧
       ∀ x, x < start + offset ∨ start + offset + size ≤ x →
         simulated_flash (o_flash s') x = simulated_flash (o_flash s) x) s) ∧
  (APP_SIZE < offset + size < 2 ^ 32 →
     ota_write_chunk callback (Some data) size offset s = Ret OTA_ERROR_NO_SPACE s) ∧
  (offset = 2 ^ 32 - start → start ≤ size ≤ FLASH_TOTAL_SIZE → size ≤ start + APP_SIZE →
     wp (ota_write_chunk callback (Some data) size offset) (λ e s', e = OTA_OK ∧
       mread (simulated_flash (o_flash s')) FLASH_BOOTLOADER_START size = data) s).
Proof.
  intros size start Hq Hf Hi Hp Hs Ho. pose proof (start_range _ Hp) as (Hs1 & Hs2 & _). fold start in Hs1, Hs2.
  unfold FLASH_BOOTLOADER_SIZE, FLASH_DATA_START, APP_SIZE in *. split; [|split].
  - intros Hb. assert (u32 (start + offset) = start + offset) as Ea by (apply u32_small; lia).
    assert (u32 (offset + size) = offset + size) as Eo by (apply u32_small; lia).
    eapply wp_mono; [apply ota_write_chunk_ok; unfold APP_SIZE, FLASH_TOTAL_SIZE; fold start size;
      rewrite ?Ea, ?Eo; try done; lia|].
    fold start size. rewrite Ea. intros e s' (-> & ->). split; [done|]. split; [apply mread_mwrite_same|].
    intros x Hx. by apply mwrite_out.
  - intros Hb. unfold ota_write_chunk, bind, gets. rewrite Hi. cbn [negb].
    destruct (partition_info _ Hp) as (info & E & Es & Ez & _). rewrite E, Ez.
    rewrite (u32_small (offset + size)), (proj2 (Z.ltb_lt _ _)) by (unfold APP_SIZE; lia). done.
  - intros -> Hb1 Hb2. assert (u32 (start + (2 ^ 32 - start)) = 0) as Ea.
    { replace (start + (2 ^ 32 - start)) with (2 ^ 32) by lia. done. }
    assert (u32 (2 ^ 32 - start + size) = size - start) as Eo.
    { replace (2 ^ 32 - start + size) with (size - start + 1 * 2 ^ 32) by lia. unfold u32.
      rewrite Z.mod_add by lia. apply Z.mod_small. unfold FLASH_TOTAL_SIZE in *. lia. }
    eapply wp_mono; [apply ota_write_chunk_ok; unfold APP_SIZE; fold start size; rewrite ?Ea, ?Eo; try done; lia|].
    fold start size. rewrite Ea. intros e s' (-> & ->). split; [done|]. apply mread_mwrite_same.
Qed.

(** [ota_compute_crc32] cannot work: it asks the heap for a buffer of 4096 bytes, the size of
    the whole pool, and with the block header this reads the header of a block behind the pool. *)
Theorem ota_compute_crc32_undefined `{!HeapBase} (s : ota_sys) (o type : Z) (crc32 : ptr) :
  bump (o_heap s) o → 0 ≤ type < OTA_PARTITION_MAX → crc32 ≠ NULL →
  ota_compute_crc32 type crc32 s = Undef.
Proof.
  intros Hb Ht Hc. unfold ota_compute_crc32, OTA_PARTITION_MAX in *.
  destruct (Z.leb_spec 4 type); [lia|]. destruct (Z.eqb_spec crc32 NULL); [done|]. cbn [orb].
  assert (∃ info, (ota_get_partition_info type LOCAL).2 = Some info) as [info ->].
  { assert (type = 0 ∨ type = 1 ∨ type = 2 ∨ type = 3) as [->|[->|[->| ->]]] by lia; by eexists. }
  unfold bind, zoom. rewrite (os_malloc_end _ o); [done|done|lia|].
  pose proof (footprint_bounds 4096 ltac:(lia)) as [? _]. pose proof (bump_range _ _ Hb).
  unfold HEADER_SIZE in *. lia.
Qed.

(** * Witnesses *)
#[local] Program Instance demo_abi : Abi := {| enum_size := 1 |}.
Next Obligation. by left. Qed.
#[local] Program Instance demo_heap_base : HeapBase := {| pool_addr := 536870912 |}.
Next Obligation. lia. Qed.

(** A fresh system: erased flash, nothing initialised. *)
Definition demo_ota : ota_sys :=
  OtaSys demo_flash demo_heap false (OtaConfig 0 0 0 0 false false 0 0) (OtaProgress OTA_STATE_IDLE 0 0 0 0 OTA_OK)
    0 0 OTA_PARTITION_APP_A OTA_PARTITION_APP_B (replicate 24 0) 0 (replicate 104 0) (replicate 256 0) false.
(** An image: the header with magic number, version and size, and ten bytes. *)
Definition demo_image : list Z :=
  put 40 (le_encode 4 10) (put 0 (le_encode 4 OTA_MAGIC_NUMBER) (replicate 104 0)) ++ seqZ 1 10.

Lemma demo_flash_ready : flash_ready demo_flash.
Proof. split; [apply demo_flash_ok|]. split; [done|]. intros x. simpl. lia. Qed.
Lemma demo_ota_ok : ota_ok demo_ota.
Proof.
  constructor; [apply demo_flash_ready|done|]. split; [|done]. split; [vm_compute; lia|].
  apply Forall_replicate. lia.
Qed.
Lemma demo_image_ok : bytes_ok demo_image ∧ acceptable demo_image.
Proof.
  split; [apply (bool_decide_unpack _); vm_compute; done|]. apply (bool_decide_unpack _). vm_compute. done.
Qed.

(** The check value of CRC-32: the checksum of the nine digits is 0xCBF43926. *)
Lemma crc32_table_driven_witness :
  wp (crc32_calculate [49; 50; 51; 52; 53; 54; 55; 56; 57]) (λ crc s', crc = 3421780262) demo_ota.
Proof.
  eapply wp_mono; [apply (crc32_table_driven [49; 50; 51; 52; 53; 54; 55; 56; 57] demo_ota)|].
  - repeat constructor; lia.
  - done.
  - intros crc s' (-> & _). vm_compute. reflexivity.
Defined.

Lemma ota_update_all_or_nothing_witness :
  wp (ota_start_update_from_buffer (λ _ _ _ s, s) (Some demo_image) 114 0 0) (λ e s',
    e = OTA_OK ∧ mread (simulated_flash (o_flash s')) 262144 114 = demo_image ∧
    v_pending (stored (o_flash s')) = OTA_PARTITION_APP_B) (demo_ota <| o_initialized := true |>).
Proof.
  eapply wp_mono.
  - apply (ota_update_all_or_nothing (λ _ _ _ s, s) (demo_ota <| o_initialized := true |>) demo_image 0 0);
      [done| |done|by left|done|apply demo_image_ok].
    destruct demo_ota_ok. by constructor.
  - cbv beta. intros e s'. rewrite decide_True by apply demo_image_ok.
    intros (-> & Hu & _). split; [done|]. split; [exact (ud_data _ _ _ Hu)|].
    destruct (ud_stored _ _ _ Hu) as [tail ->]. done.
Defined.

Lemma ota_write_chunk_bounds_witness :
  wp (ota_write_chunk (λ _ _ _ s, s) (Some (replicate (Z.to_nat 16384) 7)) 16384 (2 ^ 32 - 16384)) (λ e s', e = OTA_OK ∧
    mread (simulated_flash (o_flash s')) 0 16384 = replicate (Z.to_nat 16384) 7)
    (demo_ota <| o_initialized := true |> <| o_update_partition := OTA_PARTITION_APP_A |>).
Proof.
  pose proof (ota_write_chunk_bounds (λ _ _ _ s, s)
    (demo_ota <| o_initialized := true |> <| o_update_partition := OTA_PARTITION_APP_A |>)
    (replicate (Z.to_nat 16384) 7) (2 ^ 32 - 16384)) as Hw.
  cbv zeta in Hw. rewrite length_replicate, Z2Nat.id in Hw by lia.
  refine (proj2 (proj2 (Hw _ _ _ _ _ _)) _ _ _); try done; first [by left|apply demo_flash_ready].
Defined.

Lemma ota_compute_crc32_undefined_witness :
  wp os_mem_init (λ _ h, ota_compute_crc32 OTA_PARTITION_APP_A 4 (demo_ota <| o_heap := h |>) = Undef) demo_heap.
Proof.
  eapply wp_mono; [apply os_mem_init_spec|]. intros [] h [Hb _].
  by apply (ota_compute_crc32_undefined (demo_ota <| o_heap := h |>) 0).
Defined.
