(* ===== verification/Bootloader.v ===== *)
(** Bootloader: the boot loader of [src/bootloader.c], and how it works together with [src/ota.c].

    [bootloader_boot_info_t] is a byte array in flash, at the place where [ota.c] keeps its
    [boot_info_t]: the two structures agree up to [boot_confirmed], and the word that is [crc32] for
    [ota.c] is [boot_attempts] for the boot loader. [bootloader_main] returns the address it jumps to,
    or nothing when it gives up. The abstract boot loader [boot_step] works on what the boot
    information says ([boot_view]) and on which partitions hold a valid image. *)
From Stdlib Require Import ZArith Lia.
From stdpp Require Import base numbers gmap list.
From S2P Require Import Prelude Types Kernel ReadyQueue Scheduler KernelApi Bytes Memory Flash Ota OtaTheorems.

(** * Definitions *)
Definition MAX_BOOT_ATTEMPTS : Z := 3.
Definition BOOT_MAGIC : Z := 1112493908.
Definition FIRMWARE_MAGIC : Z := 1414484806.

Section bootloader.
Context `{!Abi}.

(** [bootloader_boot_info_t]: [boot_info_t] up to its padding, [boot_attempts],
    [last_boot_timestamp] and [crc32]. *)
Definition boot_record_size : nat := boot_info_size + 8.
Definition br_boot_attempts (b : list Z) : Z := field off_crc32 4 b.
Definition set_boot_attempts (v : Z) : list Z → list Z := put off_crc32 (le_encode 4 v).

Definition bootloader_read_boot_info : M flash_t (option (list Z)) :=
  let! r := flash_read FLASH_DATA_START LOCAL (Z.of_nat boot_record_size) in
  if decide (r.1 ≠ FLASH_OK) then ret None
  else if negb (bi_magic r.2 =? BOOT_MAGIC) then ret None
  else ret (Some r.2).

Definition bootloader_write_boot_info (b : list Z) : M flash_t bool :=
  let! e := flash_erase_sector FLASH_DATA_START in
  if decide (e ≠ FLASH_OK) then ret false
  else
    let! e := flash_write FLASH_DATA_START (Some b) (Z.of_nat boot_record_size) in
    if decide (e ≠ FLASH_OK) then ret false
    else ret true.

Definition bootloader_verify_partition (partition : Z) : M flash_t bool :=
  match ota_get_partition_info partition LOCAL with
  | (OTA_OK, Some info) =>
      let! r := flash_read (pi_start_address info) LOCAL HEADER_BYTES in
      if decide (r.1 ≠ FLASH_OK) then ret false
      else if negb (h_magic r.2 =? FIRMWARE_MAGIC) then ret false
      else if (h_image_size r.2 =? 0) || (pi_size info <? h_image_size r.2) then ret false
      else ret true
  | _ => ret false
  end.

(** The boot information is changed and saved. *)
Definition bootloader_handle_boot_failure (b : list Z) : M flash_t (list Z) :=
  let b := set_rollback_count (u32 (bi_rollback_count b + 1)) b in
  let b := if bi_active b =? OTA_PARTITION_APP_A then set_active OTA_PARTITION_APP_B b
           else set_active OTA_PARTITION_APP_A b in
  let b := set_boot_attempts 0 (set_boot_confirmed true (set_pending (bi_active b) b)) in
  let! _ := bootloader_write_boot_info b in
  ret b.

(** The default boot information of [bootloader_main], after [memset] and the assignments. *)
Definition default_boot_record : list Z :=
  set_boot_attempts 0 (set_boot_confirmed true (set_rollback_enabled true (set_rollback_count 0
    (set_boot_count 0 (set_pending OTA_PARTITION_APP_A (set_active OTA_PARTITION_APP_A
      (set_magic BOOT_MAGIC (replicate boot_record_size 0)))))))).

(** The stages of [bootloader_main]: the boot information; the partition to boot; the boot attempts
    ([None]: return); the verification of the selected partition. *)
Definition load_boot_record : M flash_t (list Z) :=
  let! info := bootloader_read_boot_info in
  match info with
  | Some b => ret b
  | None =>
      let! _ := bootloader_write_boot_info default_boot_record in
      ret default_boot_record
  end.

Definition select_partition (b : list Z) : M flash_t (Z * list Z) :=
  if negb (bi_pending b =? bi_active b) && negb (bi_boot_confirmed b) then
    let boot_partition := bi_pending b in
    let! ok := bootloader_verify_partition boot_partition in
    let '(boot_partition, b) :=
      if (ok : bool) then (boot_partition, set_boot_attempts 0 (set_active boot_partition b))
      else (bi_active b, set_boot_confirmed true (set_pending (bi_active b) b)) in
    let! _ := bootloader_write_boot_info b in
    ret (boot_partition, b)
  else ret (bi_active b, b).

Definition check_attempts (boot_partition : Z) (b : list Z) : M flash_t (option (Z * list Z)) :=
  if negb (bi_boot_confirmed b) then
    let b := set_boot_attempts (u32 (br_boot_attempts b + 1)) b in
    let! r :=
      (if MAX_BOOT_ATTEMPTS <=? br_boot_attempts b then
         if bi_rollback_enabled b then
           let! b := bootloader_handle_boot_failure b in
           ret (Some (bi_active b, b))
         else ret None
       else ret (Some (boot_partition, b))) in
    match r with
    | None => ret None
    | Some (boot_partition, b) =>
        let! _ := bootloader_write_boot_info b in
        ret (Some (boot_partition, b))
    end
  else ret (Some (boot_partition, b)).

Definition verify_selected (boot_partition : Z) (b : list Z) : M flash_t (option (Z * list Z)) :=
  let! ok := bootloader_verify_partition boot_partition in
  if (ok : bool) then ret (Some (boot_partition, b))
  else if bi_rollback_enabled b then
    let! b := bootloader_handle_boot_failure b in
    let boot_partition := bi_active b in
    let! ok := bootloader_verify_partition boot_partition in
    if (ok : bool) then ret (Some (boot_partition, b)) else ret None
  else ret None.

Definition bootloader_main : M flash_t (option Z) :=
  let! e := flash_init in
  if decide (e ≠ FLASH_OK) then ret None
  else
    let! b := load_boot_record in
    let! sel := select_partition b in
    let! r := check_attempts sel.1 sel.2 in
    match r with
    | None => ret None
    | Some (boot_partition, b) =>
        let! r := verify_selected boot_partition b in
        match r with
        | None => ret None
        | Some (boot_partition, b) =>
            let b := set_boot_count (u32 (bi_boot_count b + 1)) b in
            let! _ := bootloader_write_boot_info b in
            match ota_get_partition_info boot_partition LOCAL with
            | (OTA_OK, Some info) => ret (Some (pi_start_address info))
            | _ => ret None
            end
        end
    end.

Definition bootloader_init : M flash_t unit :=
  let! _ := flash_init in
  ret tt.
End bootloader.

(** * The abstract boot loader *)

(** [ok p]: partition [p] holds a valid image. [v_tail] counts the boot attempts. *)
Definition rolled_back (v : boot_view) : boot_view :=
  v <| v_rollback_count := u32 (v_rollback_count v + 1) |> <| v_active := other_app (v_active v) |>
    <| v_pending := other_app (v_active v) |> <| v_boot_confirmed := true |> <| v_tail := 0 |>.

Definition select_step (ok : Z → bool) (v : boot_view) : Z * boot_view :=
  if negb (v_pending v =? v_active v) && negb (v_boot_confirmed v) then
    if ok (v_pending v) then (v_pending v, v <| v_active := v_pending v |> <| v_tail := 0 |>)
    else (v_active v, v <| v_pending := v_active v |> <| v_boot_confirmed := true |>)
  else (v_active v, v).

(** The result and what is recorded in flash; [None] for the partition means that the boot loader
    gives up. *)
Definition attempts_step (p : Z) (v : boot_view) : option Z * boot_view :=
  if v_boot_confirmed v then (Some p, v)
  else
    let n := u32 (v_tail v + 1) in
    if MAX_BOOT_ATTEMPTS <=? n then
      if v_rollback_enabled v then (Some (other_app (v_active v)), rolled_back v) else (None, v)
    else (Some p, v <| v_tail := n |>).

Definition verify_step (ok : Z → bool) (p : Z) (v : boot_view) : option Z * boot_view :=
  if ok p then (Some p, v)
  else if v_rollback_enabled v then
    (if ok (other_app (v_active v)) then Some (other_app (v_active v)) else None, rolled_back v)
  else (None, v).

Definition boot_step (ok : Z → bool) (v : boot_view) : option Z * boot_view :=
  let '(p, v) := select_step ok v in
  match attempts_step p v with
  | (None, v) => (None, v)
  | (Some p, v) =>
      match verify_step ok p v with
      | (None, v) => (None, v)
      | (Some p, v) => (Some p, v <| v_boot_count := u32 (v_boot_count v + 1) |>)
      end
  end.

(** * Refinement *)
Section refinement.
Context `{!Abi}.

(** The header in partition [p] is that of a firmware image that fits the partition. *)
Definition image_ok (f : flash_t) (p : Z) : bool :=
  match ota_get_partition_info p LOCAL with
  | (OTA_OK, Some info) =>
      let h := mread (simulated_flash f) (pi_start_address info) HEADER_BYTES in
      (h_magic h =? FIRMWARE_MAGIC) && negb (h_image_size h =? 0) && (h_image_size h <=? pi_size info)
  | _ => false
  end.
(** The data partition holds the boot information, which is not an image. *)
Definition bootable (f : flash_t) (p : Z) : bool := negb (p =? OTA_PARTITION_DATA) && image_ok f p.

(** The boot information [b] in memory is what is in flash, and says [v]. *)
Record in_sync (f : flash_t) (b : list Z) (v : boot_view) : Prop := {
  sy_flash : flash_ready f;
  sy_shows : shows boot_record_size b v;
  sy_stored : stored f = v;
  sy_magic : v_magic v = BOOT_MAGIC
}.

Lemma shows_attempts n b v x : shows n b v → 0 ≤ x < 2 ^ 32 →
  shows n (set_boot_attempts x b) (v <| v_tail := x |>).
Proof. apply shows_crc32. Qed.

Lemma shows_fields n b v : shows n b v →
  bi_active b = v_active v ∧ bi_pending b = v_pending v ∧ bi_boot_count b = v_boot_count v ∧
  bi_rollback_count b = v_rollback_count v ∧ bi_rollback_enabled b = v_rollback_enabled v ∧
  bi_boot_confirmed b = v_boot_confirmed v ∧ br_boot_attempts b = v_tail v.
Proof. intros (_ & _ & <-). done. Qed.
Lemma shows_enums n b v : shows n b v →
  0 ≤ v_active v < 256 ^ Z.of_nat enum_size ∧ 0 ≤ v_pending v < 256 ^ Z.of_nat enum_size.
Proof. intros ([_ Hok] & _ & <-). split; by apply field_range. Qed.

Lemma write_spec f b v : flash_ready f → shows boot_record_size b v → v_magic v = BOOT_MAGIC →
  wp (bootloader_write_boot_info b) (λ _ f', in_sync f' b v ∧ outside_record f f') f.
Proof.
  intros Hf Hb Hm. pose proof Hb as ([Hl Hok] & Hlen & Hv). assert (boot_record_size ≤ 4096)%nat.
  { unfold boot_record_size. offsets. }
  destruct (rewrite_record f b) as (f1 & f2 & E1 & E2 & Hf2 & Ho & Hst & _); [done|done| |lia|].
  { assert (0 < boot_info_size)%nat by offsets. lia. }
  unfold bootloader_write_boot_info. rewrite wp_bind. unfold wp at 1. rewrite E1.
  rewrite decide_False by (intros Hne; by apply Hne). rewrite wp_bind. unfold wp at 1. rewrite <-Hlen, E2.
  rewrite decide_False by (intros Hne; by apply Hne). rewrite wp_ret. split; [|done].
  constructor; [done|done|by rewrite Hst, Hv|done].
Qed.

Lemma partition_cases p : 0 ≤ p →
  (∃ info, ota_get_partition_info p LOCAL = (OTA_OK, Some info) ∧
     0 ≤ pi_start_address info ∧ pi_start_address info + HEADER_BYTES ≤ FLASH_TOTAL_SIZE ∧
     (p ≠ OTA_PARTITION_DATA → pi_start_address info + HEADER_BYTES ≤ FLASH_DATA_START) ∧
     (p = OTA_PARTITION_DATA → pi_start_address info = FLASH_DATA_START)) ∨
  ota_get_partition_info p LOCAL = (OTA_ERROR_INVALID_PARAM, None).
Proof.
  intros Hp. unfold ota_get_partition_info, OTA_PARTITION_MAX. destruct (Z.leb_spec 4 p) as [|Hlt].
  { by right. }
  left. assert (p = 0 ∨ p = 1 ∨ p = 2 ∨ p = 3) as [->|[->|[->| ->]]] by lia;
    (eexists; split; [reflexivity|]; vm_compute; intuition discriminate).
Qed.

Lemma bootable_outside f f' p : 0 ≤ p → outside_record f f' → bootable f' p = bootable f p.
Proof.
  intros Hp [_ Ho]. unfold bootable, image_ok.
  destruct (Z.eqb_spec p OTA_PARTITION_DATA) as [|Hne]; [done|]. f_equal.
  destruct (partition_cases p Hp) as [(info & E & _ & _ & Hd & _)|E]; rewrite E; [|done].
  specialize (Hd Hne). replace (mread (simulated_flash f') (pi_start_address info) HEADER_BYTES)
    with (mread (simulated_flash f) (pi_start_address info) HEADER_BYTES); [done|].
  apply mread_ext. intros x Hx. symmetry. apply Ho. lia.
Qed.

Lemma verify_spec f b v p : in_sync f b v → 0 ≤ p → bootloader_verify_partition p f = Ret (bootable f p) f.
Proof.
  intros [Hf Hb Hst Hm] Hp. unfold bootloader_verify_partition, bootable, image_ok.
  destruct (partition_cases p Hp) as [(info & E & H1 & H2 & _ & Hd)|E]; rewrite E; [|by rewrite andb_false_r].
  unfold bind. rewrite flash_read_spec by (apply Hf || done).
  rewrite !decide_False by (done || lia). cbn [fst snd]. rewrite decide_False by (intros Hne; by apply Hne).
  set (h := mread _ _ _).
  assert (p = OTA_PARTITION_DATA → h_magic h = BOOT_MAGIC) as Hdata.
  { intros ->. rewrite <-Hm, <-Hst. unfold stored, view, h. cbn [v_magic]. rewrite Hd by done.
    unfold h_magic, bi_magic, field. f_equal. rewrite !drop_0.
    assert (4 ≤ boot_info_size)%nat by offsets. unfold HEADER_BYTES.
    apply list_eq_same_length with (n := 4%nat); rewrite ?length_take, ?mread_length; try lia.
    intros i x y Hi. rewrite !lookup_take_lt by lia. rewrite !mread_lookup by lia. by intros [= <-] [= <-]. }
  destruct (Z.eqb_spec p OTA_PARTITION_DATA) as [He|He].
  - by rewrite (Hdata He).
  - cbn [negb andb]. destruct (h_magic h =? FIRMWARE_MAGIC); [|done]. cbn [negb andb].
    destruct (h_image_size h =? 0); [done|]. cbn [negb andb orb].
    rewrite Z.leb_antisym. by destruct (pi_size info <? h_image_size h).
Qed.

Lemma failure_spec f b v : flash_ready f → shows boot_record_size b v → v_magic v = BOOT_MAGIC →
  wp (bootloader_handle_boot_failure b) (λ b' f', in_sync f' b' (rolled_back v) ∧ outside_record f f') f.
Proof.
  intros Hf Hb Hm. unfold bootloader_handle_boot_failure.
  pose proof (shows_fields _ _ _ Hb) as (_ & _ & _ & -> & _).
  set (b1 := set_rollback_count _ b).
  assert (shows boot_record_size b1 (v <| v_rollback_count := u32 (v_rollback_count v + 1) |>)) as Hb1
    by (apply shows_rollback_count; [done|apply u32_range]).
  assert (bi_active b1 = v_active v) as Ea1 by apply (shows_fields _ _ _ Hb1). rewrite Ea1. clearbody b1.
  replace (if v_active v =? OTA_PARTITION_APP_A then set_active OTA_PARTITION_APP_B b1 else set_active OTA_PARTITION_APP_A b1)
    with (set_active (other_app (v_active v)) b1) by (unfold other_app; by destruct (_ =? _)).
  assert (0 ≤ other_app (v_active v) < 256 ^ Z.of_nat enum_size) as Ho.
  { apply enum_fits. destruct (other_app_is_app (v_active v)) as [->| ->]; done. }
  pose proof (shows_active _ _ _ _ Hb1 Ho) as Hb2. set (b2 := set_active _ b1) in *.
  assert (bi_active b2 = other_app (v_active v)) as -> by apply (shows_fields _ _ _ Hb2). clearbody b2.
  rewrite wp_bind. eapply wp_mono; [apply (write_spec f _ (rolled_back v)); [done| |done]|].
  { refine (shows_attempts _ _ _ _ (shows_boot_confirmed _ _ _ _ (shows_pending _ _ _ _ Hb2 Ho)) _). lia. }
  intros ok f' [Hs Hout]. by rewrite wp_ret.
Qed.

(** What the boot loader starts from: the record in flash, or the defaults. *)
Definition initial_view (f : flash_t) : boot_view :=
  if v_magic (stored f) =? BOOT_MAGIC then stored f else default_view 0.

Lemma default_boot_record_shows : shows boot_record_size default_boot_record (default_view 0).
Proof.
  assert (∀ off n, field off n (replicate boot_record_size 0) = 0) as Hf.
  { intros off n. unfold field. rewrite drop_replicate, take_replicate.
    induction (n `min` (boot_record_size - off))%nat as [|k IH]; simpl; lia. }
  assert (shows boot_record_size (replicate boot_record_size 0) (BootView 0 0 0 0 0 false false 0)) as Hz.
  { split; [|split; [apply length_replicate|]].
    - split; [rewrite length_replicate; unfold boot_record_size; lia|]. apply Forall_replicate. lia.
    - unfold view, bi_magic, bi_active, bi_pending, bi_boot_count, bi_rollback_count, bi_rollback_enabled,
        bi_boot_confirmed, bi_crc32. by rewrite !Hf. }
  refine (shows_attempts _ _ _ _ (shows_boot_confirmed _ _ _ _ (shows_rollback_enabled _ _ _ _
    (shows_rollback_count _ _ _ _ (shows_boot_count _ _ _ _ (shows_pending _ _ _ _
      (shows_active _ _ _ _ (shows_magic _ _ _ _ Hz _) _) _) _) _))) _);
    unfold BOOT_MAGIC, OTA_PARTITION_APP_A; first [lia|apply enum_fits; lia].
Qed.

Lemma load_spec f : flash_ready f →
  wp load_boot_record (λ b f', in_sync f' b (initial_view f) ∧ outside_record f f') f.
Proof.
  intros Hf. unfold load_boot_record, bootloader_read_boot_info, initial_view. rewrite !wp_bind.
  assert (0 < boot_record_size ≤ 4096)%nat by (unfold boot_record_size; offsets).
  unfold wp at 1. rewrite flash_read_spec by (apply Hf || done || unfold FLASH_DATA_START; lia).
  rewrite !decide_False by (unfold FLASH_TOTAL_SIZE, FLASH_DATA_START; lia). cbn [fst snd].
  rewrite decide_False by (intros Hne; by apply Hne). set (b := mread _ _ _).
  assert (stored f = view b) as Hst.
  { unfold stored. apply view_prefix. unfold b, boot_record_size.
    apply list_eq_same_length with (n := boot_info_size); rewrite ?length_take, ?mread_length; try lia.
    intros i x y Hi. rewrite !lookup_take_lt by lia. rewrite !mread_lookup by lia. by intros [= <-] [= <-]. }
  rewrite Hst. change (v_magic (view b)) with (bi_magic b).
  destruct (Z.eqb_spec (bi_magic b) BOOT_MAGIC) as [Hm|Hm]; cbn [negb]; rewrite wp_ret.
  - rewrite wp_ret. split; [|done]. constructor; [done| |done|done].
    split; [|split; [unfold b; rewrite mread_length; lia|done]].
    split; [unfold b; rewrite mread_length; unfold boot_record_size; lia|]. apply mread_ok, Hf.
  - rewrite wp_bind. eapply wp_mono; [apply write_spec; [done|apply default_boot_record_shows|done]|].
    intros ok f' Hs. by rewrite wp_ret.
Qed.

Lemma select_spec f b v : in_sync f b v →
  wp (select_partition b) (λ r f', r.1 = (select_step (bootable f) v).1 ∧
    in_sync f' r.2 (select_step (bootable f) v).2 ∧ outside_record f f') f.
Proof.
  intros Hs. pose proof Hs as [Hf Hb Hst Hm]. pose proof (shows_enums _ _ _ Hb) as [Ha Hp].
  pose proof (shows_fields _ _ _ Hb) as (Ea & Ep & _ & _ & _ & Ec & _).
  unfold select_partition, select_step. rewrite Ea, Ep, Ec.
  destruct (_ && _); [|by rewrite wp_ret].
  rewrite wp_bind. unfold wp at 1. rewrite (verify_spec f b v) by (done || lia).
  destruct (bootable f (v_pending v)); rewrite wp_bind;
    (eapply wp_mono; [eapply write_spec; [done| |]|intros ok f' Hw; rewrite wp_ret; split; [reflexivity|exact Hw]]).
  - refine (shows_attempts _ _ _ _ (shows_active _ _ _ _ Hb _) _); lia.
  - done.
  - refine (shows_boot_confirmed _ _ _ _ (shows_pending _ _ _ _ Hb _)). lia.
  - done.
Qed.

Lemma attempts_spec f b v p : in_sync f b v →
  wp (check_attempts p b) (λ r f', ∃ v', (fst <$> r, v') = attempts_step p v ∧ outside_record f f' ∧
    flash_ready f' ∧ stored f' = v' ∧ match r with Some (p', b') => in_sync f' b' v' | None => True end) f.
Proof.
  intros Hs. pose proof Hs as [Hf Hb Hst Hm]. pose proof (shows_fields _ _ _ Hb) as (_ & _ & _ & _ & _ & Ec & Et).
  unfold check_attempts, attempts_step. rewrite Ec, Et. destruct (v_boot_confirmed v); cbn [negb].
  { rewrite wp_ret. exists v. done. }
  set (n := u32 (v_tail v + 1)).
  assert (shows boot_record_size (set_boot_attempts n b) (v <| v_tail := n |>)) as Hb1
    by (apply shows_attempts; [done|apply u32_range]).
  set (b1 := set_boot_attempts n b) in *. clearbody b1.
  pose proof (shows_fields _ _ _ Hb1) as (_ & _ & _ & _ & Ee & _ & Et1). cbn in Ee, Et1.
  rewrite Et1, Ee. rewrite wp_bind. destruct (MAX_BOOT_ATTEMPTS <=? n).
  - destruct (v_rollback_enabled v); [|rewrite !wp_ret; by exists v].
    rewrite wp_bind. eapply wp_mono; [by apply (failure_spec f b1 _ Hf Hb1)|].
    change (rolled_back (v <| v_tail := n |>)) with (rolled_back v).
    intros b2 f2 [Hs2 Ho2]. rewrite wp_ret, wp_bind.
    eapply wp_mono; [apply (write_spec f2 b2 (rolled_back v)); [apply Hs2..|done]|].
    intros ok f3 [Hs3 Ho3]. rewrite wp_ret. exists (rolled_back v). split.
    { simpl. do 2 f_equal. apply (shows_fields _ _ _ (sy_shows _ _ _ Hs2)). }
    split; [by etransitivity|]. split; [apply Hs3|]. split; [apply Hs3|done].
  - rewrite wp_ret, wp_bind. eapply wp_mono; [by apply (write_spec f b1 _ Hf Hb1)|].
    intros ok f3 [Hs3 Ho3]. rewrite wp_ret. eexists. split; [done|]. split; [done|]. split; [apply Hs3|].
    split; [apply Hs3|done].
Qed.

Lemma verify_selected_spec f b v p : in_sync f b v → 0 ≤ p →
  wp (verify_selected p b) (λ r f', ∃ v', (fst <$> r, v') = verify_step (bootable f) p v ∧ outside_record f f' ∧
    flash_ready f' ∧ stored f' = v' ∧ match r with Some (p', b') => in_sync f' b' v' | None => True end) f.
Proof.
  intros Hs Hp. pose proof Hs as [Hf Hb Hst Hm]. pose proof (shows_fields _ _ _ Hb) as (_ & _ & _ & _ & Ee & _).
  unfold verify_selected, verify_step. rewrite wp_bind. unfold wp at 1.
  rewrite (verify_spec f b v) by done. destruct (bootable f p); [rewrite wp_ret; by exists v|].
  rewrite Ee. destruct (v_rollback_enabled v); [|rewrite wp_ret; by exists v].
  rewrite wp_bind. eapply wp_mono; [by apply (failure_spec f b v)|]. intros b2 f2 [Hs2 Ho2].
  pose proof (shows_fields _ _ _ (sy_shows _ _ _ Hs2)) as (Ea2 & _). cbn in Ea2.
  assert (0 ≤ other_app (v_active v)) by (destruct (other_app_is_app (v_active v)) as [->| ->]; done).
  rewrite wp_bind. unfold wp at 1. rewrite Ea2, (verify_spec f2 b2 _ _ Hs2), (bootable_outside f f2) by done.
  destruct (bootable f _); rewrite wp_ret; exists (rolled_back v); (split; [done|]); (split; [done|]);
    (split; [apply Hs2|]); (split; [apply Hs2|done]).
Qed.

(** The address of a partition. *)
Definition address_of (p : Z) : option Z := pi_start_address <$> (ota_get_partition_info p LOCAL).2.

Lemma bootable_address f p : bootable f p = true →
  ∃ info, ota_get_partition_info p LOCAL = (OTA_OK, Some info) ∧ address_of p = Some (pi_start_address info).
Proof.
  unfold bootable, image_ok, address_of. destruct (ota_get_partition_info p LOCAL) as [[] [info|]];
    rewrite ?andb_false_r; try done. intros _. by exists info.
Qed.

Lemma verify_step_bootable ok p v p' v' : verify_step ok p v = (Some p', v') → ok p' = true.
Proof. unfold verify_step. repeat case_match; naive_solver. Qed.

Lemma select_step_ext ok ok' v : ok (v_pending v) = ok' (v_pending v) → select_step ok v = select_step ok' v.
Proof. unfold select_step. by intros ->. Qed.
Lemma verify_step_ext ok ok' p v : ok p = ok' p → ok (other_app (v_active v)) = ok' (other_app (v_active v)) →
  verify_step ok p v = verify_step ok' p v.
Proof. unfold verify_step. by intros -> ->. Qed.
Lemma other_app_nonneg p : 0 ≤ other_app p.
Proof. by destruct (other_app_is_app p) as [->| ->]. Qed.
Lemma select_step_nonneg ok v : 0 ≤ v_active v → 0 ≤ v_pending v → 0 ≤ (select_step ok v).1.
Proof. unfold select_step. repeat case_match; done. Qed.
Lemma attempts_step_nonneg p v p' v' : 0 ≤ p → attempts_step p v = (Some p', v') → 0 ≤ p'.
Proof. pose proof (other_app_nonneg (v_active v)). unfold attempts_step. repeat case_match; naive_solver. Qed.

Lemma verify_step_nonneg ok p v p' v' : 0 ≤ p → verify_step ok p v = (Some p', v') → 0 ≤ p'.
Proof. pose proof (other_app_nonneg (v_active v)). unfold verify_step. repeat case_match; naive_solver. Qed.

(** Counting the boot and jumping. *)
Lemma finish_spec f b v p : in_sync f b v → bootable f p = true →
  wp (let! _ := bootloader_write_boot_info (set_boot_count (u32 (bi_boot_count b + 1)) b) in
      match ota_get_partition_info p LOCAL with
      | (OTA_OK, Some info) => ret (Some (pi_start_address info))
      | _ => ret None
      end)
    (λ r f', r = address_of p ∧ stored f' = v <| v_boot_count := u32 (v_boot_count v + 1) |> ∧ flash_ready f' ∧
       outside_record f f') f.
Proof.
  intros [Hf Hb Hst Hm] Hp. pose proof (shows_fields _ _ _ Hb) as (_ & _ & -> & _).
  destruct (bootable_address f p Hp) as (info & -> & ->). rewrite wp_bind. eapply wp_mono.
  - apply (write_spec f _ (v <| v_boot_count := u32 (v_boot_count v + 1) |>) Hf);
      [apply shows_boot_count; [done|apply u32_range]|done].
  - intros ok f' [[Hf' _ Hst' _] Ho]. by rewrite wp_ret.
Qed.

Lemma boot_refines f : flash_ready f →
  wp bootloader_main (λ r f', ∃ p v', boot_step (bootable f) (initial_view f) = (p, v') ∧
    stored f' = v' ∧ r = (p ≫= address_of) ∧ flash_ready f' ∧ outside_record f f' ∧
    match p with Some p => bootable f p = true | None => True end) f.
Proof.
  intros Hf. unfold bootloader_main, flash_init, boot_step. rewrite !wp_bind, wp_gets.
  rewrite (fo_init _ (proj1 Hf)), wp_ret. rewrite decide_False by (intros Hne; by apply Hne).
  rewrite wp_bind. eapply wp_mono; [by apply load_spec|]. intros b f1 [Hs1 Ho1]. set (v := initial_view f) in *.
  pose proof (shows_enums _ _ _ (sy_shows _ _ _ Hs1)) as [Ha Hpe].
  rewrite wp_bind. eapply wp_mono; [by apply select_spec|]. intros [p1 b1] f2 (E2 & Hs2 & Ho2). cbn [fst snd] in *.
  rewrite (select_step_ext _ (bootable f)) in E2, Hs2 by (apply bootable_outside; [lia|done]).
  pose proof (select_step_nonneg (bootable f) v ltac:(lia) ltac:(lia)) as Hp1. rewrite <-E2 in Hp1.
  destruct (select_step (bootable f) v) as [p1' v1]. cbn [fst snd] in *. subst p1'.
  rewrite wp_bind. eapply wp_mono; [by apply attempts_spec|]. intros r3 f3 (v3 & E3 & Ho3 & Hf3 & Hst3 & Hr3).
  assert (outside_record f f3) as Hof3 by (etransitivity; [exact Ho1|]; by etransitivity).
  destruct (attempts_step p1 v1) as [q3 w3] eqn:Es3. injection E3 as <- <-.
  destruct r3 as [[p3 b3]|]; cbn [fmap option_fmap option_map fst] in *.
  2:{ rewrite wp_ret. exists None, v3. split; [done|]. split; [done|]. split; [done|]. done. }
  pose proof (attempts_step_nonneg _ _ _ _ Hp1 Es3) as Hp3.
  rewrite wp_bind. eapply wp_mono; [by apply verify_selected_spec|]. intros r4 f4 (v4 & E4 & Ho4 & Hf4 & Hst4 & Hr4).
  rewrite (verify_step_ext _ (bootable f)) in E4
    by (apply bootable_outside; [done || apply other_app_nonneg|done]).
  assert (outside_record f f4) as Hof4 by by etransitivity.
  destruct (verify_step (bootable f) p3 v3) as [q4 w4] eqn:Es4. injection E4 as <- <-.
  destruct r4 as [[p4 b4]|]; cbn [fmap option_fmap option_map fst] in *.
  2:{ rewrite wp_ret. exists None, v4. split; [done|]. split; [done|]. done. }
  pose proof (verify_step_bootable _ _ _ _ _ Es4) as Hp4.
  eapply wp_mono; [apply (finish_spec f4 b4 v4 p4 Hr4)|].
  { rewrite (bootable_outside f f4); [done| |done]. by eapply verify_step_nonneg. }
  intros r f5 (-> & Hst5 & Hf5 & Ho5). exists (Some p4), (v4 <| v_boot_count := u32 (v_boot_count v4 + 1) |>).
  split; [done|]. split; [done|]. split; [done|]. split; [done|]. split; [by etransitivity|done].
Qed.
End refinement.

(** * Sequences of boots *)
Section boots.
Context `{!Abi}.

Fixpoint boots (n : nat) : M flash_t (list (option Z)) :=
  match n with
  | O => ret []
  | S n =>
      let! r := bootloader_main in
      let! rs := boots n in
      ret (r :: rs)
  end.

Lemma address_of_app p : is_app p → address_of p = Some (start_of p).
Proof. by intros [->| ->]. Qed.

Definition counted (v : boot_view) : boot_view := v <| v_boot_count := u32 (v_boot_count v + 1) |>.

(** The four courses of a boot. *)
Lemma step_confirmed ok v : v_boot_confirmed v = true → ok (v_active v) = true →
  boot_step ok v = (Some (v_active v), counted v).
Proof.
  intros Hc Hok. unfold boot_step, select_step, attempts_step, verify_step. rewrite Hc, andb_false_r.
  by rewrite Hc, Hok.
Qed.
Lemma step_trial ok v : v_boot_confirmed v = false → v_pending v ≠ v_active v → ok (v_pending v) = true →
  boot_step ok v = (Some (v_pending v), counted (v <| v_active := v_pending v |> <| v_tail := 1 |>)).
Proof.
  intros Hc Hne Hok. unfold boot_step, select_step, attempts_step, verify_step.
  rewrite Hc, (proj2 (Z.eqb_neq _ _) Hne), Hok. cbn [negb andb]. cbn. rewrite ?Hc.
  change (MAX_BOOT_ATTEMPTS <=? u32 (0 + 1)) with false. cbn. rewrite Hok. done.
Qed.
Lemma step_retry ok v : v_boot_confirmed v = false → v_pending v = v_active v → ok (v_active v) = true →
  u32 (v_tail v + 1) < 3 →
  boot_step ok v = (Some (v_active v), counted (v <| v_tail := u32 (v_tail v + 1) |>)).
Proof.
  intros Hc He Hok Ht. unfold boot_step, select_step, attempts_step, verify_step, MAX_BOOT_ATTEMPTS.
  rewrite Hc, He, Z.eqb_refl. cbn [negb andb]. rewrite Hc, (proj2 (Z.leb_gt _ _)) by lia. by rewrite Hok.
Qed.
Lemma step_rollback ok v : v_boot_confirmed v = false → v_pending v = v_active v →
  ok (other_app (v_active v)) = true → 3 ≤ u32 (v_tail v + 1) → v_rollback_enabled v = true →
  boot_step ok v = (Some (other_app (v_active v)), counted (rolled_back v)).
Proof.
  intros Hc He Hok Ht Hr. unfold boot_step, select_step, attempts_step, verify_step, MAX_BOOT_ATTEMPTS.
  rewrite Hc, He, Z.eqb_refl. cbn [negb andb]. rewrite Hc, (proj2 (Z.leb_le _ _)), Hr by lia. by rewrite Hok.
Qed.

(** One boot from a record that says [v], whose abstract course is known. *)
Lemma boot_once f v p v' Q : flash_ready f → stored f = v → v_magic v = BOOT_MAGIC →
  boot_step (bootable f) v = (Some p, v') →
  (∀ f', flash_ready f' → stored f' = v' → outside_record f f' → Q (address_of p) f') →
  wp bootloader_main Q f.
Proof.
  intros Hf Hst Hm Hstep HQ. eapply wp_mono; [by apply boot_refines|].
  intros r f' (q & w & E & Hst' & -> & Hf' & Ho & _). unfold initial_view in E.
  rewrite Hst, (proj2 (Z.eqb_eq _ _) Hm), Hstep in E. injection E as <- <-. by apply HQ.
Qed.

Lemma boots_confirmed n : ∀ f v, flash_ready f → stored f = v → v_magic v = BOOT_MAGIC →
  v_boot_confirmed v = true → is_app (v_active v) → bootable f (v_active v) = true →
  wp (boots n) (λ rs _, rs = replicate n (Some (start_of (v_active v)))) f.
Proof.
  induction n as [|n IH]; intros f v Hf Hst Hm Hc Ha Hok; cbn [boots]; [done|].
  rewrite wp_bind. eapply boot_once; [done..|by apply step_confirmed|]. intros f' Hf' Hst' Ho.
  rewrite wp_bind. eapply wp_mono; [apply (IH f' (counted v)); try done|].
  - rewrite (bootable_outside f f'); [done| |done]. destruct Ha as [E|E]; cbn; by rewrite E.
  - intros rs f2 ->. by rewrite wp_ret, address_of_app.
Qed.

(** A system just after a reset: the flash as it is, nothing initialised. *)
Definition after_reset (f : flash_t) (s : ota_sys) : Prop :=
  o_flash s = f ∧ o_initialized s = false ∧ table_ok s.

Lemma init_confirm_spec config s f : flash_ready f → v_magic (stored f) = OTA_BOOTINFO_MAGIC →
  after_reset f s →
  wp (let! e := ota_init config in let! e' := ota_confirm_boot in ret (e, e')) (λ r s',
    r = (OTA_OK, OTA_OK) ∧ flash_ready (o_flash s') ∧ outside_record f (o_flash s') ∧
    ∃ tail, stored (o_flash s') = stored f <| v_boot_confirmed := true |> <| v_tail := tail |>) s.
Proof.
  intros Hf Hm (Ef & Hi & Ht). rewrite wp_bind. unfold ota_init. rewrite wp_bind, wp_gets, Hi.
  rewrite wp_bind, wp_zoom. unfold flash_init. rewrite wp_bind, wp_gets, Ef, (fo_init _ (proj1 Hf)), wp_ret.
  rewrite decide_False by (intros Hne; by apply Hne). rewrite wp_bind, wp_modify, wp_bind.
  match goal with |- wp _ _ ?x => remember x as s0 eqn:E0 end.
  assert (o_flash s0 = f) as Ef0 by (by rewrite E0). assert (table_ok s0) as Ht0 by (by rewrite E0).
  clear E0. eapply wp_mono; [apply load_boot_info_spec; [by rewrite Ef0|done]|].
  rewrite Ef0. intros e s1 (-> & Hok & Hst & Ho & _ & Hkeep & _ & _). specialize (Hkeep Hm).
  rewrite decide_False by (intros Hne; by apply Hne).
  rewrite wp_bind, wp_modify, wp_bind, wp_modify, wp_bind, wp_modify, wp_bind, wp_modify, wp_ret.
  match goal with |- wp _ _ ?x => remember x as s2 eqn:E2 end.
  assert (o_initialized s2 = true ∧ o_running_partition s2 = bi_active (o_boot_info s2) ∧ o_boot_info s2 = o_boot_info s1
    ∧ o_flash s2 = o_flash s1 ∧ crc32_table s2 = crc32_table s1 ∧ crc32_table_initialized s2 = crc32_table_initialized s1)
    as (Hi2 & Hrun2 & Eb2 & Ef2 & Et2 & Eti2) by (by rewrite E2).
  clear E2. rewrite wp_bind. unfold ota_confirm_boot. rewrite wp_bind, wp_gets, Hi2. cbn [negb].
  rewrite wp_bind, wp_modify, wp_bind, wp_modify. destruct Hok as [Hf1 [Ht1 Ht2] Hs1].
  match goal with |- wp _ _ ?x => remember x as s3 eqn:E3 end.
  assert (o_boot_info s3 = set_active (bi_active (o_boot_info s1)) (set_boot_confirmed true (o_boot_info s1)))
    as Eb3 by (rewrite E3; cbn; by rewrite Hrun2, Eb2).
  assert (shows boot_info_size (o_boot_info s3) (view (o_boot_info s1) <| v_boot_confirmed := true |>)) as Hb3.
  { rewrite Eb3. refine (shows_active _ _ _ _ (shows_boot_confirmed _ _ _ _ Hs1) _).
    destruct Hs1 as ([_ Hok1] & _). by apply field_range. }
  assert (ota_ok s3) as Hok3.
  { constructor; [rewrite E3; cbn; by rewrite Ef2| |].
    - split; [rewrite E3; cbn; by rewrite Et2|]. rewrite E3. cbn. by rewrite Et2, Eti2.
    - split; [apply Hb3|]. split; [apply Hb3|done]. }
  assert (o_flash s3 = o_flash s1) as Ef3 by (by rewrite E3). clear E3.
  eapply wp_mono; [by apply save_boot_info_spec|]. intros e s4 (-> & [Hok4 _ Hst4 Ho4 _]).
  rewrite wp_ret. split; [done|]. split; [apply Hok4|]. rewrite Ef3 in Ho4. split; [by etransitivity|].
  eexists. rewrite Hst4. destruct Hb3 as (_ & _ & ->). rewrite <-Hst, Hkeep. reflexivity.
Qed.
End boots.

(** * Theorems *)

(** C17. The boot loader refines the abstract one: whatever the flash holds, [bootloader_main] returns,
    changes nothing but the sector of the boot information, leaves there exactly what the abstract boot
    loader prescribes, and jumps to the partition it selects; a partition it jumps to holds a valid
    image, and if it selects none it does not jump. *)
Theorem bootloader_refines `{!Abi} (f : flash_t) :
  flash_ready f →
  wp bootloader_main (λ r f', ∃ p v',
    boot_step (bootable f) (initial_view f) = (p, v') ∧ stored f' = v' ∧ r = (p ≫= address_of) ∧
    outside_record f f' ∧ match p with Some p => bootable f' p = true | None => r = None end) f.
Proof.
  intros Hf. eapply wp_mono; [by apply boot_refines|]. intros r f' (p & v' & E & Hst & -> & _ & Ho & Hp).
  exists p, v'. split; [done|]. split; [done|]. split; [done|]. split; [done|]. destruct p as [p|]; [|done].
  destruct (decide (0 ≤ p)); [by rewrite (bootable_outside f f')|].
  unfold bootable, image_ok, ota_get_partition_info in *. rewrite Z2Nat.nonpos in * by lia.
  destruct (_ || _); [by rewrite andb_false_r in Hp|]. apply andb_prop in Hp as [H1 H2]. rewrite H1. cbn [andb].
  rewrite <-H2. cbn. replace (mread (simulated_flash f') FLASH_BOOTLOADER_START HEADER_BYTES)
    with (mread (simulated_flash f) FLASH_BOOTLOADER_START HEADER_BYTES); [done|].
  apply mread_ext. intros x Hx. symmetry. apply Ho. unfold FLASH_BOOTLOADER_START, HEADER_BYTES, FLASH_DATA_START in *. lia.
Qed.

(** C18. An update that is never confirmed is rolled back: when an update is pending and both
    application partitions hold valid images, the boot loader boots the new image twice, and from the
    third boot on the old image for ever. *)
Theorem unconfirmed_update_rolls_back `{!Abi} (f : flash_t) (n : nat) :
  let v := stored f in
  flash_ready f → v_magic v = BOOT_MAGIC → v_boot_confirmed v = false → v_rollback_enabled v = true →
  is_app (v_active v) → v_pending v = other_app (v_active v) →
  bootable f (v_active v) = true → bootable f (v_pending v) = true →
  let new := Some (start_of (v_pending v)) in
  let old := Some (start_of (v_active v)) in
  wp (boots (3 + n)) (λ rs _, rs = [new; new; old] ++ replicate n old) f.
Proof.
  intros v. assert (stored f = v) as Hst by done. clearbody v. intros Hf Hm Hc Hr Ha Hp Hok1 Hok2 new old.
  assert (other_app (v_pending v) = v_active v) as Hoo by (rewrite Hp; by destruct Ha as [->| ->]).
  assert (is_app (v_pending v)) as Hap by (rewrite Hp; apply other_app_is_app).
  assert (v_pending v ≠ v_active v) as Hne by (rewrite Hp; by destruct Ha as [->| ->]).
  assert (0 ≤ v_pending v ∧ 0 ≤ v_active v) as [Hp0 Ha0].
  { split; [by destruct Hap as [->| ->]|by destruct Ha as [->| ->]]. }
  cbn [boots Nat.add]. rewrite wp_bind.
  eapply boot_once; [done..|by apply step_trial|]. intros f1 Hf1 Hst1 Ho1.
  rewrite wp_bind, wp_bind. eapply boot_once; [done..| |].
  { apply step_retry; cbn; [done|done| |done]. by rewrite (bootable_outside f f1). }
  intros f2 Hf2 Hst2 Ho2. assert (outside_record f f2) as Ho2' by by etransitivity.
  rewrite wp_bind, wp_bind. eapply boot_once; [done..| |].
  { apply step_rollback; cbn; [done|done| |done|done]. by rewrite Hoo, (bootable_outside f f2). }
  intros f3 Hf3 Hst3 Ho3. rewrite wp_bind. eapply wp_mono.
  - apply (boots_confirmed n f3 _ Hf3 Hst3); cbn; rewrite ?Hoo; try done.
    rewrite (bootable_outside f f3); [done|done|by etransitivity].
  - cbn. rewrite Hoo. intros rs f4 ->. rewrite ?wp_ret. unfold new, old. by rewrite !address_of_app.
Qed.

(** The image of an accepted update is bootable. *)
Lemma update_done_bootable `{!Abi} s data s' : update_done s data s' → acceptable data →
  is_app (o_update_partition s) → bootable (o_flash s') (o_update_partition s) = true.
Proof.
  intros Hu [Hlen Hv] Hp. unfold bootable, image_ok.
  destruct (partition_info _ Hp) as (info & E & Es & Ez & E1).
  assert (ota_get_partition_info (o_update_partition s) LOCAL = (OTA_OK, Some info)) as ->
    by (rewrite (surjective_pairing (ota_get_partition_info _ _)); by rewrite E, E1).
  assert (mread (simulated_flash (o_flash s')) (pi_start_address info) HEADER_BYTES =
    take (Z.to_nat HEADER_BYTES) data) as ->.
  { rewrite Es, <-(ud_data _ _ _ Hu). unfold HEADER_BYTES in *.
    apply list_eq_same_length with (n := 104%nat); rewrite ?length_take, ?mread_length; try lia.
    intros i x y Hi. rewrite lookup_take_lt by lia. rewrite !mread_lookup by lia. by intros [= <-] [= <-]. }
  rewrite Ez. unfold ota_verify_image_header in Hv. change FIRMWARE_MAGIC with OTA_MAGIC_NUMBER.
  destruct (h_magic _ =? OTA_MAGIC_NUMBER); [|done]. cbn [negb] in Hv.
  destruct (h_image_size _ =? 0); [done|]. cbn [orb negb andb] in *.
  unfold APP_SIZE, OTA_MAX_DOWNLOAD_SIZE in *.
  destruct (Z.ltb_spec (240 * 1024) (h_image_size (take (Z.to_nat HEADER_BYTES) data))); [done|].
  rewrite (proj2 (Z.leb_le _ _)) by done. by destruct Hp as [->| ->].
Qed.

(** An update that is installed and confirmed stays: after [ota_start_update_from_buffer]
    accepted an image, the next boot starts it; once the new application has initialised the update
    module and called [ota_confirm_boot], every later boot starts it too. *)
Theorem confirmed_update_stays `{!Abi, !HeapBase} callback (s : ota_sys) (data : list Z) (cb user_data : ptr) :
  quiet_progress callback → ota_ok s → o_initialized s = true → is_app (o_running_partition s) →
  o_update_partition s = other_app (o_running_partition s) → bytes_ok data → acceptable data →
  v_magic (view (o_boot_info s)) = OTA_BOOTINFO_MAGIC → v_active (view (o_boot_info s)) = o_running_partition s →
  let new := Some (start_of (o_update_partition s)) in
  wp (ota_start_update_from_buffer callback (Some data) (Z.of_nat (length data)) cb user_data) (λ e s1,
    e = OTA_OK ∧
    wp bootloader_main (λ r f2, r = new ∧
      ∀ config s2, after_reset f2 s2 →
        wp (let! e := ota_init config in let! e' := ota_confirm_boot in ret (e, e')) (λ r s3,
          r = (OTA_OK, OTA_OK) ∧ ∀ n, wp (boots n) (λ rs _, rs = replicate n new) (o_flash s3)) s2)
      (o_flash s1)) s.
Proof.
  intros Hq Hs Hi Hrun Hup Hd Hacc Hm Hact new.
  assert (is_app (o_update_partition s)) as Hp by (rewrite Hup; apply other_app_is_app).
  unfold ota_start_update_from_buffer. rewrite wp_bind, wp_gets, Hi. cbn [negb orb].
  pose proof Hacc as [[Hl1 Hl2] Hv]. unfold HEADER_BYTES, OTA_MAX_DOWNLOAD_SIZE in *.
  rewrite (proj2 (Z.eqb_neq _ _)) by lia. rewrite (proj2 (Z.ltb_ge _ _)) by lia.
  unfold set_callback. rewrite wp_bind, wp_modify. rewrite (proj2 (Z.ltb_ge _ _)) by done.
  rewrite wp_bind, wp_modify, wp_bind, wp_gets. cbn [o_current_header set_field]. rewrite Hv.
  rewrite decide_False by (intros Hne; by apply Hne). rewrite wp_bind, wp_modify, wp_bind, wp_report by done.
  match goal with |- wp _ _ ?x => remember x as s0 eqn:E0 end.
  assert (same_core s s0) as Hc by (by rewrite E0). clear E0. pose proof Hc as [= E1 E2 E3 E4 E5 E6 E7 E8].
  eapply wp_mono; [apply (install_spec callback Hq s0 data); [by eapply ota_ok_core|by rewrite E5|done..]|].
  intros e s1 (-> & Hu). split; [done|].
  pose proof (update_done_bootable _ _ _ Hu Hacc ltac:(by rewrite E5)) as Hboot.
  destruct Hu as [Hok1 _ [tail Hst1] _ _ _]. rewrite E5, E6 in *.
  assert (o_update_partition s ≠ v_active (view (o_boot_info s))) as Hne.
  { rewrite Hact, Hup. by destruct Hrun as [->| ->]. }
  eapply boot_once; [apply Hok1|exact Hst1|exact Hm|by apply step_trial|].
  intros f2 Hf2 Hst2 Ho2. cbn [v_pending set_field]. split; [by apply address_of_app|].
  intros config s2 Hr. eapply wp_mono; [apply (init_confirm_spec config s2 f2); [done|by rewrite Hst2|done]|].
  intros r s3 (-> & Hf3 & Ho3 & tail3 & Hst3). split; [done|]. intros n. rewrite Hst2 in Hst3.
  apply (boots_confirmed n (o_flash s3) _ Hf3 Hst3); cbn; try done.
  rewrite (bootable_outside (o_flash s1)); [done| |by etransitivity]. by destruct Hp as [->| ->].
Qed.

(** Selecting the running partition can start the other one: [ota_set_boot_partition] stores its
    checksum where the boot loader keeps the number of boot attempts, so that asking for the partition
    that is active already counts as too many failed boots, and the boot loader rolls back at once
    (unless the checksum is one of three values). *)
Theorem set_boot_partition_rolls_back `{!Abi} (s : ota_sys) :
  let v := view (o_boot_info s) in
  let crc := crc32_bitwise (take (boot_info_size - 4) (set_boot_confirmed false (set_pending (v_active v) (o_boot_info s)))) in
  ota_ok s → v_magic v = BOOT_MAGIC → v_rollback_enabled v = true → is_app (v_active v) →
  bootable (o_flash s) (other_app (v_active v)) = true → 2 ≤ crc < 2 ^ 32 - 1 →
  wp (ota_set_boot_partition (v_active v)) (λ e s', e = OTA_OK ∧
    wp bootloader_main (λ r _, r = Some (start_of (other_app (v_active v)))) (o_flash s')) s.
Proof.
  intros v crc Hs Hm Hr Ha Hok Hcrc. assert (view (o_boot_info s) = v) as Hv0 by done. unfold ota_set_boot_partition.
  replace (OTA_PARTITION_MAX <=? v_active v) with false by (by destruct Ha as [->| ->]).
  rewrite wp_bind, wp_modify, wp_bind, wp_modify.
  match goal with |- wp _ _ ?x => remember x as s0 eqn:E0 end.
  assert (o_boot_info s0 = set_boot_confirmed false (set_pending (v_active v) (o_boot_info s))) as Eb by (by rewrite E0).
  assert (shows boot_info_size (o_boot_info s0) (v <| v_pending := v_active v |> <| v_boot_confirmed := false |>)) as Hb.
  { rewrite Eb. apply shows_boot_confirmed, shows_pending; [apply Hs|]. apply enum_fits. by destruct Ha as [->| ->]. }
  assert (ota_ok s0) as Hs0.
  { destruct Hs as [Hf [Ht1 Ht2] _]. constructor; [by rewrite E0|by rewrite E0|].
    split; [apply Hb|]. split; [apply Hb|done]. }
  assert (o_flash s0 = o_flash s) as Ef by (by rewrite E0). clear E0.
  eapply wp_mono; [by apply save_boot_info_spec|]. intros e s1 (-> & [Hok1 _ Hst1 Ho1 _]). split; [done|].
  rewrite Eb in Hst1. fold crc in Hst1. rewrite <-Eb in Hst1. destruct Hb as (_ & _ & Hvb). rewrite Hvb in Hst1.
  eapply boot_once; [apply Hok1|exact Hst1|exact Hm| |].
  - apply step_rollback; cbn; [done|done| |rewrite u32_small; lia|done].
    rewrite (bootable_outside (o_flash s)); [done|apply other_app_nonneg|by rewrite Ef in Ho1].
  - intros f' _ _ _. cbn. apply address_of_app, other_app_is_app.
Qed.

(** * Witnesses *)
#[local] Existing Instance demo_abi.
#[local] Existing Instance demo_heap_base.

(** Two images, and a record that says: partition A is active, an update of B is pending. *)
Definition demo_record : list Z :=
  set_boot_confirmed false (set_pending OTA_PARTITION_APP_B default_boot_record).
Definition demo_boot_flash : flash_t :=
  demo_flash <| simulated_flash := mwrite FLASH_DATA_START demo_record
    (mwrite FLASH_APP_A_START demo_image (mwrite FLASH_APP_B_START demo_image (λ _, 255))) |>.
Definition demo_installed : ota_sys :=
  demo_ota <| o_initialized := true |> <| o_boot_info := default_boot_info |> <| o_flash := demo_boot_flash |>.

Lemma demo_boot_flash_ready : flash_ready demo_boot_flash.
Proof.
  split; [constructor; unfold FLASH_TOTAL_SIZE; simpl; lia || done|]. split; [done|].
  assert (bytes_ok demo_record) as Hr by (apply (bool_decide_unpack _); vm_compute; done).
  apply mwrite_ok, mwrite_ok, mwrite_ok; [done|apply demo_image_ok..|]. intros x. simpl. lia.
Qed.
Lemma demo_installed_ok : ota_ok demo_installed.
Proof.
  constructor; [apply demo_boot_flash_ready|done|]. destruct default_boot_info_view as (H1 & H2 & H3).
  split; [exact H1|]. split; [exact H2|done].
Qed.

Lemma demo_stored : stored demo_boot_flash = BootView BOOT_MAGIC 1 2 0 0 true false 0.
Proof. vm_compute. reflexivity. Qed.
Lemma demo_view : view (o_boot_info demo_installed) = default_view 0.
Proof. vm_compute. reflexivity. Qed.

Lemma bootloader_refines_witness :
  wp bootloader_main (λ r f', r = Some FLASH_APP_B_START ∧ v_tail (stored f') = 1) demo_boot_flash.
Proof.
  eapply wp_mono; [apply (bootloader_refines demo_boot_flash demo_boot_flash_ready)|].
  intros r f' (p & v' & E & -> & -> & _).
  assert (p = Some OTA_PARTITION_APP_B ∧ v_tail v' = 1) as [-> Hv].
  { assert (boot_step (bootable demo_boot_flash) (initial_view demo_boot_flash) =
      (Some OTA_PARTITION_APP_B, BootView BOOT_MAGIC 2 2 1 0 true false 1)) as E' by (vm_compute; reflexivity).
    rewrite E' in E. by injection E as <- <-. }
  done.
Defined.

Lemma unconfirmed_update_rolls_back_witness :
  wp (boots 5) (λ rs _, rs = [Some FLASH_APP_B_START; Some FLASH_APP_B_START; Some FLASH_APP_A_START;
    Some FLASH_APP_A_START; Some FLASH_APP_A_START]) demo_boot_flash.
Proof.
  eapply wp_mono.
  - apply (unconfirmed_update_rolls_back demo_boot_flash 2 demo_boot_flash_ready); rewrite ?demo_stored;
      first [vm_compute; reflexivity|left; reflexivity].
  - intros rs f' ->. by rewrite demo_stored.
Defined.

Lemma confirmed_update_stays_witness :
  wp (ota_start_update_from_buffer (λ _ _ _ s, s) (Some demo_image) 114 0 0) (λ e s1, e = OTA_OK ∧
    wp bootloader_main (λ r f2, r = Some FLASH_APP_B_START) (o_flash s1)) demo_installed.
Proof.
  eapply wp_mono.
  - apply (confirmed_update_stays (λ _ _ _ s, s) demo_installed demo_image 0 0);
      [done|apply demo_installed_ok|done|by left|done|apply demo_image_ok|apply demo_image_ok|
       vm_compute; reflexivity|vm_compute; reflexivity].
  - cbv beta. intros e s1 [-> Hwp]. split; [done|]. eapply wp_mono; [exact Hwp|]. by intros r f2 [-> _].
Defined.

Lemma set_boot_partition_rolls_back_witness :
  wp (ota_set_boot_partition OTA_PARTITION_APP_A) (λ e s', e = OTA_OK ∧
    wp bootloader_main (λ r _, r = Some FLASH_APP_B_START) (o_flash s')) demo_installed.
Proof.
  pose proof (set_boot_partition_rolls_back demo_installed) as Hw. cbv zeta in Hw. rewrite demo_view in Hw.
  apply Hw; [apply demo_installed_ok|done|done|by left|vm_compute; reflexivity|].
  vm_compute. intuition discriminate.
Defined.
