(* ===== verification/Filesystem.v ===== *)
(** Filesystem: the file system of [src/filesystem.c].

    The on-disk structures are records with their byte layout ([*_bytes] and [*_of]: what [memcpy]
    between the structure and a block buffer does; none of them has padding on the 32-bit
    little-endian target). The module state [fs_state] and [block_bitmap] are the fields of
    [fs_world], next to the storage [w_dev] behind the mounted block device and the kernel state
    [w_kernel] behind the mutexes and the tick counter.

    [device->read (1, block_bitmap, 1)] and [device->write (1, block_bitmap, 1)] transfer 512 bytes
    although the array has 128; the model keeps the 384 bytes behind the array in [w_behind], an
    object of its own that nothing else uses. A local array or structure that is read without
    having been assigned holds [uninit_block] ([uninit_inode]), a parameter. *)
From Stdlib Require Import ZArith Lia.
From stdpp Require Import base numbers list.
From S2P Require Import Prelude Types Bytes Ramdisk.

(** * Constants *)
Definition FS_MAX_OPEN_FILES : Z := 8.
Definition FS_MAX_FILENAME_LENGTH : nat := 32.
Definition FS_BLOCK_SIZE : Z := 512.
Definition FS_MAX_BLOCKS : Z := 1024.
Definition FS_O_RDONLY : Z := 0x01.
Definition FS_O_WRONLY : Z := 0x02.
Definition FS_O_CREAT : Z := 0x04.
Definition FS_O_TRUNC : Z := 0x08.
Definition FS_O_APPEND : Z := 0x10.
Definition FS_SEEK_SET : Z := 0.
Definition FS_SEEK_CUR : Z := 1.
Definition FS_SEEK_END : Z := 2.
Definition FS_TYPE_REGULAR : Z := 1.
Definition FS_TYPE_DIRECTORY : Z := 2.
Definition FS_INVALID_FD : Z := -1.
Definition FS_MAGIC : Z := 0x544E5946.
Definition FS_VERSION : Z := 0x00010000.
Definition NO_BLOCK : Z := 0xFFFFFFFF.
Definition MAX_DIRS : nat := 4.
Definition DIRECT_BLOCKS : nat := 6.

(** * On-disk structures *)
Record fs_inode_t := Inode {
  i_type : Z;
  i_flags : Z;
  i_reserved : Z;
  i_size : Z;
  i_blocks : list Z;
  i_mtime : Z;
  i_ctime : Z
}.
#[export] Instance inode_eta : Eta fs_inode_t := λ r,
  Inode (i_type r) (i_flags r) (i_reserved r) (i_size r) (i_blocks r) (i_mtime r) (i_ctime r).
Definition inode_zero : fs_inode_t := Inode 0 0 0 0 (replicate 6 0) 0 0.

Definition inode_size : Z := 40.
Definition inode_bytes (x : fs_inode_t) : list Z :=
  le_encode 1 (i_type x) ++ le_encode 1 (i_flags x) ++ le_encode 2 (i_reserved x) ++
  le_encode 4 (i_size x) ++ concat (le_encode 4 <$> i_blocks x) ++
  le_encode 4 (i_mtime x) ++ le_encode 4 (i_ctime x).
Definition inode_of (bs : list Z) : fs_inode_t :=
  Inode (field 0 1 bs) (field 1 1 bs) (field 2 2 bs) (field 4 4 bs)
    ((λ i, field (8 + 4 * i) 4 bs) <$> seq 0 6) (field 32 4 bs) (field 36 4 bs).

Record fs_dentry_t := Dentry {
  d_name : list Z;
  d_inode : Z;
  d_type : Z;
  d_reserved : list Z
}.
#[export] Instance dentry_eta : Eta fs_dentry_t := λ r,
  Dentry (d_name r) (d_inode r) (d_type r) (d_reserved r).
Definition dentry_zero : fs_dentry_t := Dentry (replicate 32 0) 0 0 (replicate 27 0).

Definition dentry_size : nat := 64.
Definition dentry_bytes (x : fs_dentry_t) : list Z :=
  d_name x ++ le_encode 4 (d_inode x) ++ le_encode 1 (d_type x) ++ d_reserved x.
Definition dentry_of (bs : list Z) : fs_dentry_t :=
  Dentry (take 32 bs) (field 32 4 bs) (field 36 1 bs) (take 27 (drop 37 bs)).

(** [entries[i]] of a block buffer seen as an array of [fs_dentry_t], and its assignment. *)
Definition entry_get (buffer : list Z) (i : nat) : fs_dentry_t :=
  dentry_of (take dentry_size (drop (dentry_size * i) buffer)).
Definition entry_set (buffer : list Z) (i : nat) (x : fs_dentry_t) : list Z :=
  put (dentry_size * i) (dentry_bytes x) buffer.
Definition entries_per_block : nat := Z.to_nat FS_BLOCK_SIZE / dentry_size.

Record fs_superblock_t := Superblock {
  sb_magic : Z;
  sb_version : Z;
  sb_block_size : Z;
  sb_total_blocks : Z;
  sb_free_blocks : Z;
  sb_total_inodes : Z;
  sb_free_inodes : Z;
  sb_first_data_block : Z;
  sb_inode_table_block : Z;
  sb_root_inode : Z;
  sb_reserved : list Z
}.
#[export] Instance superblock_eta : Eta fs_superblock_t := λ r,
  Superblock (sb_magic r) (sb_version r) (sb_block_size r) (sb_total_blocks r) (sb_free_blocks r)
    (sb_total_inodes r) (sb_free_inodes r) (sb_first_data_block r) (sb_inode_table_block r)
    (sb_root_inode r) (sb_reserved r).
Definition superblock_zero : fs_superblock_t := Superblock 0 0 0 0 0 0 0 0 0 0 (replicate 472 0).

Definition superblock_bytes (x : fs_superblock_t) : list Z :=
  concat (le_encode 4 <$> [sb_magic x; sb_version x; sb_block_size x; sb_total_blocks x;
    sb_free_blocks x; sb_total_inodes x; sb_free_inodes x; sb_first_data_block x;
    sb_inode_table_block x; sb_root_inode x]) ++ sb_reserved x.
Definition superblock_of (bs : list Z) : fs_superblock_t :=
  Superblock (field 0 4 bs) (field 4 4 bs) (field 8 4 bs) (field 12 4 bs) (field 16 4 bs)
    (field 20 4 bs) (field 24 4 bs) (field 28 4 bs) (field 32 4 bs) (field 36 4 bs) (drop 40 bs).

(** * Handles and state *)
Record fs_file_handle_t := FileHandle {
  f_in_use : bool;
  f_inode : Z;
  f_flags : Z;
  f_position : Z;
  f_size : Z
}.
#[export] Instance file_handle_eta : Eta fs_file_handle_t := λ r,
  FileHandle (f_in_use r) (f_inode r) (f_flags r) (f_position r) (f_size r).

Record fs_dir_s := DirHandle { h_in_use : bool; h_inode : Z; h_position : Z }.
#[export] Instance dir_handle_eta : Eta fs_dir_s := λ r,
  DirHandle (h_in_use r) (h_inode r) (h_position r).

Record fs_dirent_t := Dirent { e_name : list Z; e_type : Z; e_size : Z; e_mtime : Z }.
Record fs_stat_t := Stat { st_type : Z; st_size : Z; st_blocks : Z; st_mtime : Z; st_ctime : Z }.
Record fs_stats_t := Stats {
  ss_total_blocks : Z;
  ss_used_blocks : Z;
  ss_free_blocks : Z;
  ss_total_files : Z;
  ss_total_dirs : Z;
  ss_block_size : Z
}.

(** [K] is the state of the kernel, [D] the state of the storage. The mutexes of the handles are
    objects of the kernel. *)
Record fs_world (K D : Type) := World {
  w_kernel : K;
  w_dev : D;
  mounted : bool;
  device : option (fs_block_device_t D);
  superblock : fs_superblock_t;
  files : list fs_file_handle_t;
  dirs : list fs_dir_s;
  block_cache : list Z;
  cached_block : Z;
  cache_dirty : bool;
  block_bitmap : list Z;
  w_behind : list Z
}.
Arguments World {K D}.
Arguments w_kernel {K D}.
Arguments w_dev {K D}.
Arguments mounted {K D}.
Arguments device {K D}.
Arguments superblock {K D}.
Arguments files {K D}.
Arguments dirs {K D}.
Arguments block_cache {K D}.
Arguments cached_block {K D}.
Arguments cache_dirty {K D}.
Arguments block_bitmap {K D}.
Arguments w_behind {K D}.
#[export] Instance fs_world_eta K D : Eta (fs_world K D) := λ r,
  World (w_kernel r) (w_dev r) (mounted r) (device r) (superblock r) (files r) (dirs r)
    (block_cache r) (cached_block r) (cache_dirty r) (block_bitmap r) (w_behind r).

(** What the file system uses of the kernel. *)
Class Services (K : Type) := {
  sv_mutex_init : ptr → M K unit;
  sv_mutex_lock : ptr → Z → M K os_error_t;
  sv_mutex_unlock : ptr → M K os_error_t;
  sv_get_tick_count : K → Z
}.
(** The addresses of [fs_state.fs_lock] and [fs_state.files[i].lock]. *)
Definition fs_lock : ptr := 0x1000.
Definition file_lock (i : Z) : ptr := 0x1010 + i.

(** A path without its leading slash: [path[0] == '/' ? path + 1 : path]. *)
Definition SLASH : Z := 47.
Definition skip_slash (path : list Z) : list Z :=
  match path with c :: rest => if c =? SLASH then rest else path | [] => path end.

(** [strcmp (p, name) == 0], where [mem] are the bytes from [p] to the end of its object; [None]:
    the comparison runs off the end. *)
Fixpoint strcmp_eq (mem name : list Z) : option bool :=
  match mem with
  | [] => None
  | b :: mem =>
      match name with
      | [] => Some (b =? 0)
      | c :: name => if b =? c then strcmp_eq mem name else Some false
      end
  end.

(** * The operations *)
Section filesystem.
Context {K D : Type} `{!Services K} (uninit_block : list Z) (uninit_inode : fs_inode_t).
Abbreviation W := (fs_world K D).

Definition svc_mutex_init (m : ptr) : M W unit := zoom w_kernel (sv_mutex_init m).
Definition svc_mutex_lock (m : ptr) (timeout : Z) : M W os_error_t :=
  zoom w_kernel (sv_mutex_lock m timeout).
Definition svc_mutex_unlock (m : ptr) : M W os_error_t := zoom w_kernel (sv_mutex_unlock m).
Definition svc_get_tick_count : M W Z := gets (λ w, sv_get_tick_count (w_kernel w)).

(** A call through [fs_state.device]; a null pointer is undefined behaviour. *)
Definition on_device {A} (f : fs_block_device_t D → M D A) : M W A :=
  let! d := gets device in
  match d with Some dev => zoom w_dev (f dev) | None => undef end.
(** [if (device->op) { device->op (...) }] *)
Definition on_optional {A} (op : option (M D A)) : M W unit :=
  match op with Some m => let! _ := zoom w_dev m in ret tt | None => ret tt end.

(** The bytes [src] stored from the start of [buffer] on. *)
Definition overwrite (src buffer : list Z) : list Z := put 0 src buffer.

(** ** Initialisation *)
Definition file_handle_zero : fs_file_handle_t := FileHandle false 0 0 0 0.
Fixpoint init_locks (n : nat) (i : Z) : M W unit :=
  match n with
  | O => ret tt
  | S n =>
      modify (λ w, w <| files ::= λ l, arr_set l i (nth (Z.to_nat i) l file_handle_zero <| f_in_use := false |>) |>) ;;;
      svc_mutex_init (file_lock i) ;;;
      init_locks n (i + 1)
  end.
Definition fs_init : M W os_error_t :=
  modify (λ w, World (w_kernel w) (w_dev w) false None superblock_zero
    (replicate (Z.to_nat FS_MAX_OPEN_FILES) file_handle_zero) (replicate MAX_DIRS (DirHandle false 0 0))
    (replicate 512 0) 0 false (block_bitmap w) (w_behind w)) ;;;
  svc_mutex_init fs_lock ;;;
  init_locks (Z.to_nat FS_MAX_OPEN_FILES) 0 ;;;
  modify (λ w, w <| dirs ::= fmap (λ d, d <| h_in_use := false |>) |>) ;;;
  modify (λ w, w <| cached_block := 0xFFFFFFFF |> <| cache_dirty := false |>) ;;;
  ret OS_OK.

(** ** Bits of the block bitmap *)
Definition bitmap_bit (i : Z) : M W bool :=
  let! bm := gets block_bitmap in
  let! byte := arr_get bm (i / 8) in
  ret (negb (Z.land byte (Z.shiftl 1 (i mod 8)) =? 0)).
(** [block_bitmap[byte] |= (1 << bit)] and [block_bitmap[byte] &= ~(1 << bit)] *)
Definition bitmap_set (i : Z) : M W unit :=
  let! bm := gets block_bitmap in
  let! byte := arr_get bm (i / 8) in
  modify (λ w, w <| block_bitmap := arr_set bm (i / 8) (u8 (Z.lor byte (Z.shiftl 1 (i mod 8)))) |>).
Definition bitmap_clear (i : Z) : M W unit :=
  let! bm := gets block_bitmap in
  let! byte := arr_get bm (i / 8) in
  modify (λ w, w <| block_bitmap :=
    arr_set bm (i / 8) (u8 (Z.land byte (Z.lnot (Z.shiftl 1 (i mod 8))))) |>).

(** ** Format, mount, unmount *)
Fixpoint reserve_blocks (n : nat) (i : Z) : M W unit :=
  match n with
  | O => ret tt
  | S n => bitmap_set i ;;; reserve_blocks n (i + 1)
  end.

Definition format_superblock (total : Z) : fs_superblock_t :=
  let total_inodes := 128 in
  let inode_table_block := 2 in
  let first_data_block :=
    inode_table_block + (total_inodes * inode_size + FS_BLOCK_SIZE - 1) / FS_BLOCK_SIZE in
  Superblock FS_MAGIC FS_VERSION FS_BLOCK_SIZE total (u32 (total - first_data_block))
    total_inodes (total_inodes - 1) first_data_block inode_table_block 0 (replicate 472 0).

Definition fs_format (dev : option (fs_block_device_t D)) : M W os_error_t :=
  match dev with
  | None => ret OS_ERROR_INVALID_PARAM
  | Some dev =>
      let sb := format_superblock (bd_get_block_count dev) in
      on_optional ((λ erase, erase 0 (sb_total_blocks sb)) <$> bd_erase dev) ;;;
      let! _ := zoom w_dev (bd_write dev 0 (superblock_bytes sb) 1) in
      modify (λ w, w <| block_bitmap := replicate 128 0 |>) ;;;
      reserve_blocks (Z.to_nat (sb_first_data_block sb)) 0 ;;;
      let! bm := gets (λ w, block_bitmap w ++ w_behind w) in
      let! _ := zoom w_dev (bd_write dev 1 bm 1) in
      let! now := svc_get_tick_count in
      let root_inode := inode_zero <| i_type := FS_TYPE_DIRECTORY |> <| i_size := 0 |>
        <| i_ctime := now |> <| i_mtime := now |> in
      let inode_block := put 0 (inode_bytes root_inode) (replicate 512 0) in
      let! _ := zoom w_dev (bd_write dev (sb_inode_table_block sb) inode_block 1) in
      on_optional (bd_sync dev) ;;;
      ret OS_OK
  end.

Definition fs_mount (dev : option (fs_block_device_t D)) : M W os_error_t :=
  match dev with
  | None => ret OS_ERROR_INVALID_PARAM
  | Some d =>
      let! _ := svc_mutex_lock fs_lock 1000 in
      let! m := gets mounted in
      if m then
        let! _ := svc_mutex_unlock fs_lock in
        ret OS_ERROR
      else
        let! r := zoom w_dev (bd_read d 0 1) in
        modify (λ w, w <| superblock := superblock_of (overwrite r.2 (superblock_bytes (superblock w))) |>) ;;;
        if negb (r.1 =? 0) then
          let! _ := svc_mutex_unlock fs_lock in
          ret OS_ERROR
        else
          let! sb := gets superblock in
          if negb (sb_magic sb =? FS_MAGIC) then
            let! _ := svc_mutex_unlock fs_lock in
            ret OS_ERROR
          else
            let! r := zoom w_dev (bd_read d 1 1) in
            modify (λ w,
              let mem := overwrite r.2 (block_bitmap w ++ w_behind w) in
              w <| block_bitmap := take 128 mem |> <| w_behind := drop 128 mem |>) ;;;
            modify (λ w, w <| device := dev |> <| mounted := true |>) ;;;
            let! _ := svc_mutex_unlock fs_lock in
            ret OS_OK
  end.

Definition fs_sync_cache : M W os_error_t :=
  let! dirty := gets cache_dirty in
  let! cb := gets cached_block in
  if dirty && negb (cb =? 0xFFFFFFFF) then
    let! cache := gets block_cache in
    let! r := on_device (λ dev, bd_write dev cb cache 1) in
    if negb (r =? 0) then ret OS_ERROR
    else
      modify (λ w, w <| cache_dirty := false |>) ;;;
      ret OS_OK
  else ret OS_OK.

(** [if (fs_state.device->sync) { fs_state.device->sync (); }] *)
Definition sync_device : M W unit :=
  let! d := gets device in
  match d with Some dev => on_optional (bd_sync dev) | None => undef end.

Definition fs_unmount : M W os_error_t :=
  let! _ := svc_mutex_lock fs_lock 1000 in
  let! m := gets mounted in
  if negb m then
    let! _ := svc_mutex_unlock fs_lock in
    ret OS_ERROR
  else
    let! _ := fs_sync_cache in
    let! bm := gets (λ w, block_bitmap w ++ w_behind w) in
    let! _ := on_device (λ dev, bd_write dev 1 bm 1) in
    sync_device ;;;
    modify (λ w, w <| mounted := false |> <| device := None |>) ;;;
    let! _ := svc_mutex_unlock fs_lock in
    ret OS_OK.

Definition fs_is_mounted : M W bool := gets mounted.

(** ** Blocks through the one-block cache *)

(** [fs_read_block (block, buffer)]: the result and the buffer afterwards. *)
Definition fs_read_block (block : Z) (buffer : list Z) : M W (os_error_t * list Z) :=
  let! m := gets mounted in
  if negb m then ret (OS_ERROR, buffer)
  else
    let! cb := gets cached_block in
    if block =? cb then
      let! cache := gets block_cache in
      ret (OS_OK, overwrite cache buffer)
    else
      let! r := on_device (λ dev, bd_read dev block 1) in
      let buffer := overwrite r.2 buffer in
      if negb (r.1 =? 0) then ret (OS_ERROR, buffer)
      else
        let! dirty := gets cache_dirty in
        when dirty (let! _ := fs_sync_cache in ret tt) ;;;
        modify (λ w, w <| block_cache := take 512 buffer |> <| cached_block := block |>
                       <| cache_dirty := false |>) ;;;
        ret (OS_OK, buffer).

Definition fs_write_block (block : Z) (buffer : list Z) : M W os_error_t :=
  let! m := gets mounted in
  if negb m then ret OS_ERROR
  else
    let! cb := gets cached_block in
    if block =? cb then
      modify (λ w, w <| block_cache := take 512 buffer |> <| cache_dirty := true |>) ;;;
      ret OS_OK
    else
      let! r := on_device (λ dev, bd_write dev block buffer 1) in
      if negb (r =? 0) then ret OS_ERROR else ret OS_OK.

(** ** Allocation of blocks *)
Fixpoint alloc_from (n : nat) (i : Z) : M W Z :=
  match n with
  | O => ret NO_BLOCK
  | S n =>
      let! used := bitmap_bit i in
      if negb used then
        bitmap_set i ;;;
        modify (λ w, w <| superblock ::= λ sb, sb <| sb_free_blocks ::= λ k, u32 (k - 1) |> |>) ;;;
        ret i
      else alloc_from n (i + 1)
  end.
Definition fs_alloc_block : M W Z :=
  let! sb := gets superblock in
  alloc_from (Z.to_nat (sb_total_blocks sb - sb_first_data_block sb)) (sb_first_data_block sb).

Definition fs_free_block (block : Z) : M W os_error_t :=
  let! sb := gets superblock in
  if sb_total_blocks sb <=? block then ret OS_ERROR_INVALID_PARAM
  else
    bitmap_clear block ;;;
    modify (λ w, w <| superblock ::= λ sb, sb <| sb_free_blocks ::= λ k, u32 (k + 1) |> |>) ;;;
    ret OS_OK.

(** ** Inodes *)
Definition inodes_per_block : Z := FS_BLOCK_SIZE / inode_size.
Definition inode_block (sb : fs_superblock_t) (inode_num : Z) : Z :=
  u32 (sb_inode_table_block sb + inode_num / inodes_per_block).
Definition inode_offset (inode_num : Z) : nat :=
  Z.to_nat ((inode_num mod inodes_per_block) * inode_size).

Definition fs_read_inode (inode_num : Z) (inode_data : fs_inode_t) : M W (os_error_t * fs_inode_t) :=
  let! sb := gets superblock in
  if sb_total_inodes sb <=? inode_num then ret (OS_ERROR_INVALID_PARAM, inode_data)
  else
    let! r := fs_read_block (inode_block sb inode_num) uninit_block in
    if decide (r.1 ≠ OS_OK) then ret (OS_ERROR, inode_data)
    else ret (OS_OK, inode_of (take 40 (drop (inode_offset inode_num) r.2))).

Definition fs_write_inode (inode_num : Z) (inode_data : fs_inode_t) : M W os_error_t :=
  let! sb := gets superblock in
  if sb_total_inodes sb <=? inode_num then ret OS_ERROR_INVALID_PARAM
  else
    let! r := fs_read_block (inode_block sb inode_num) uninit_block in
    if decide (r.1 ≠ OS_OK) then ret OS_ERROR
    else fs_write_block (inode_block sb inode_num)
           (put (inode_offset inode_num) (inode_bytes inode_data) r.2).

Fixpoint alloc_inode_from (n : nat) (i : Z) : M W Z :=
  match n with
  | O => ret NO_BLOCK
  | S n =>
      let! r := fs_read_inode i uninit_inode in
      if decide (r.1 = OS_OK) then
        if i_type r.2 =? 0 then
          modify (λ w, w <| superblock ::= λ sb, sb <| sb_free_inodes ::= λ k, u32 (k - 1) |> |>) ;;;
          ret i
        else alloc_inode_from n (i + 1)
      else alloc_inode_from n (i + 1)
  end.
Definition fs_alloc_inode : M W Z :=
  let! sb := gets superblock in
  alloc_inode_from (Z.to_nat (sb_total_inodes sb)) 0.

(** [for (i...) if (blocks[i] != 0) { fs_free_block (blocks[i]); }] *)
Fixpoint free_blocks_of (l : list Z) : M W unit :=
  match l with
  | [] => ret tt
  | b :: l =>
      when (negb (b =? 0)) (let! _ := fs_free_block b in ret tt) ;;;
      free_blocks_of l
  end.

Definition fs_free_inode (inode_num : Z) : M W os_error_t :=
  let! r := fs_read_inode inode_num uninit_inode in
  when (bool_decide (r.1 = OS_OK)) (free_blocks_of (i_blocks r.2)) ;;;
  modify (λ w, w <| superblock ::= λ sb, sb <| sb_free_inodes ::= λ k, u32 (k + 1) |> |>) ;;;
  fs_write_inode inode_num inode_zero.

(** ** Directory lookup *)

(** The entries [i], [i + 1], ... of a block buffer. *)
Fixpoint find_entry (n i : nat) (buffer name : list Z) : M W (option Z) :=
  match n with
  | O => ret None
  | S n =>
      let e := entry_get buffer i in
      if d_inode e =? 0 then find_entry n (i + 1) buffer name
      else
        match strcmp_eq (drop (dentry_size * i) buffer) name with
        | None => undef
        | Some true => ret (Some (d_inode e))
        | Some false => find_entry n (i + 1) buffer name
        end
  end.
Fixpoint find_in_blocks (l : list Z) (buffer name : list Z) : M W (option Z) :=
  match l with
  | [] => ret None
  | b :: l =>
      if b =? 0 then ret None
      else
        let! r := fs_read_block b buffer in
        if decide (r.1 ≠ OS_OK) then find_in_blocks l r.2 name
        else
          let! found := find_entry entries_per_block 0 r.2 name in
          match found with
          | Some n => ret (Some n)
          | None => find_in_blocks l r.2 name
          end
  end.
Definition fs_find_in_dir (dir_inode : Z) (name : list Z) : M W Z :=
  let! r := fs_read_inode dir_inode uninit_inode in
  if decide (r.1 ≠ OS_OK) then ret (-1)
  else if negb (i_type r.2 =? FS_TYPE_DIRECTORY) then ret (-1)
  else
    let! found := find_in_blocks (i_blocks r.2) uninit_block name in
    match found with Some n => ret (i32 n) | None => ret (-1) end.

(** ** Files *)

(** [fd < 0 || fd >= FS_MAX_OPEN_FILES || !fs_state.files[fd].in_use] *)
Definition bad_fd (fd : Z) : M W bool :=
  if (fd <? 0) || (FS_MAX_OPEN_FILES <=? fd) then ret true
  else
    let! l := gets files in
    let! f := arr_get l fd in
    ret (negb (f_in_use f)).
Definition file (fd : Z) : M W fs_file_handle_t :=
  let! l := gets files in arr_get l fd.
Definition set_file (fd : Z) (g : fs_file_handle_t → fs_file_handle_t) : M W unit :=
  let! l := gets files in
  let! f := arr_get l fd in
  modify (λ w, w <| files := arr_set l fd (g f) |>).

Definition blk (x : fs_inode_t) (i : nat) : Z := nth i (i_blocks x) 0.
Definition set_blk (i : nat) (b : Z) (x : fs_inode_t) : fs_inode_t :=
  x <| i_blocks ::= λ l, <[i := b]> l |>.

(** [strncpy (e.name, name, FS_MAX_FILENAME_LENGTH - 1); e.name[FS_MAX_FILENAME_LENGTH - 1] = 0] *)
Definition copy_name (dst name : list Z) : list Z :=
  <[(FS_MAX_FILENAME_LENGTH - 1)%nat := 0]> (strncpy dst name (FS_MAX_FILENAME_LENGTH - 1)).

(** The first free entry from number [i] on is filled in; [None]: there is none. *)
Fixpoint insert_entry (n i : nat) (buffer name : list Z) (inode type : Z) : option (list Z) :=
  match n with
  | O => None
  | S n =>
      let e := entry_get buffer i in
      if d_inode e =? 0 then
        Some (entry_set buffer i (e <| d_name ::= λ dst, copy_name dst name |>
                                    <| d_inode := inode |> <| d_type := type |>))
      else insert_entry n (i + 1) buffer name inode type
  end.

(** [if (dir_inode.blocks[0] == 0) { dir_inode.blocks[0] = fs_alloc_block (); ... }] *)
Definition need_dir_block (dir_inode : fs_inode_t) : M W fs_inode_t :=
  if blk dir_inode 0 =? 0 then
    let! b := fs_alloc_block in
    let! _ := fs_write_block b (replicate 512 0) in
    ret (set_blk 0 b dir_inode)
  else ret dir_inode.

(** The branch of [fs_open] that creates the file [filename]: its inode, or [None] when there is
    none left. *)
Definition create_file (filename : list Z) : M W (option Z) :=
  let! n := fs_alloc_inode in
  let inode_num := i32 n in
  if inode_num <? 0 then ret None
  else
    let! now := svc_get_tick_count in
    let new_inode := inode_zero <| i_type := FS_TYPE_REGULAR |> <| i_size := 0 |>
      <| i_ctime := now |> <| i_mtime := now |> in
    let! _ := fs_write_inode inode_num new_inode in
    let! root := gets (λ w, sb_root_inode (superblock w)) in
    let! r := fs_read_inode root uninit_inode in
    let! dir_inode := need_dir_block r.2 in
    let! r := fs_read_block (blk dir_inode 0) uninit_block in
    let dir_buffer := default r.2
      (insert_entry entries_per_block 0 r.2 filename inode_num FS_TYPE_REGULAR) in
    let! _ := fs_write_block (blk dir_inode 0) dir_buffer in
    let dir_inode := dir_inode <| i_size ::= λ k, u32 (k + Z.of_nat dentry_size) |> in
    let! _ := fs_write_inode root dir_inode in
    ret (Some inode_num).

(** The first handle that is not in use. *)
Fixpoint free_handle {A} (in_use : A → bool) (l : list A) (i : Z) : option Z :=
  match l with
  | [] => None
  | f :: l => if in_use f then free_handle in_use l (i + 1) else Some i
  end.

Definition clear_blocks (x : fs_inode_t) : fs_inode_t := x <| i_blocks := replicate 6 0 |>.

(** The end of [fs_open]: truncation and the file handle. *)
Definition open_inode (fd inode_num flags : Z) : M W Z :=
  let! r := fs_read_inode inode_num uninit_inode in
  let! inode :=
    (if negb (Z.land flags FS_O_TRUNC =? 0) && (0 <? i_size r.2) then
       free_blocks_of (i_blocks r.2) ;;;
       let inode := clear_blocks r.2 <| i_size := 0 |> in
       let! _ := fs_write_inode inode_num inode in
       ret inode
     else ret r.2) in
  set_file fd (λ f, f <| f_in_use := true |> <| f_inode := inode_num |> <| f_flags := flags |>
    <| f_position := if negb (Z.land flags FS_O_APPEND =? 0) then i_size inode else 0 |>
    <| f_size := i_size inode |>) ;;;
  let! _ := svc_mutex_unlock fs_lock in
  ret fd.

Definition fs_open (path : option (list Z)) (flags : Z) : M W Z :=
  let! m := gets mounted in
  match path with
  | None => ret FS_INVALID_FD
  | Some path =>
      if negb m then ret FS_INVALID_FD
      else
        let! _ := svc_mutex_lock fs_lock 1000 in
        let! l := gets files in
        match free_handle f_in_use l 0 with
        | None =>
            let! _ := svc_mutex_unlock fs_lock in
            ret FS_INVALID_FD
        | Some fd =>
            let filename := skip_slash path in
            let! root := gets (λ w, sb_root_inode (superblock w)) in
            let! inode_num := fs_find_in_dir root filename in
            if inode_num <? 0 then
              if negb (Z.land flags FS_O_CREAT =? 0) then
                let! c := create_file filename in
                match c with
                | None =>
                    let! _ := svc_mutex_unlock fs_lock in
                    ret FS_INVALID_FD
                | Some inode_num => open_inode fd inode_num flags
                end
              else
                let! _ := svc_mutex_unlock fs_lock in
                ret FS_INVALID_FD
            else open_inode fd inode_num flags
        end
  end.

Definition fs_close (fd : Z) : M W os_error_t :=
  let! bad := bad_fd fd in
  if bad then ret OS_ERROR_INVALID_PARAM
  else
    let! _ := svc_mutex_lock (file_lock fd) 1000 in
    let! _ := fs_sync_cache in
    set_file fd (λ f, f <| f_in_use := false |>) ;;;
    let! _ := svc_mutex_unlock (file_lock fd) in
    ret OS_OK.

(** The loop of [fs_read]: the bytes copied so far are [out]; at most [fuel] more rounds. *)
Fixpoint read_loop (fuel : nat) (inode : fs_inode_t) (pos to_read : Z) (out block_buffer : list Z) :
    M W (Z * list Z) :=
  let bytes_read := Z.of_nat (length out) in
  if bytes_read <? to_read then
    match fuel with
    | O => nofuel
    | S fuel =>
        let block_idx := pos / FS_BLOCK_SIZE in
        let offset := pos mod FS_BLOCK_SIZE in
        let chunk := Z.min (FS_BLOCK_SIZE - offset) (to_read - bytes_read) in
        if (6 <=? block_idx) || (blk inode (Z.to_nat block_idx) =? 0) then ret (pos, out)
        else
          let! r := fs_read_block (blk inode (Z.to_nat block_idx)) block_buffer in
          read_loop fuel inode (u32 (pos + chunk)) to_read
            (out ++ take (Z.to_nat chunk) (drop (Z.to_nat offset) r.2)) r.2
    end
  else ret (pos, out).
(** Every round but the first starts at a block boundary, and block 6 ends the loop. *)
Definition rw_fuel : nat := 8.

(** [fs_read (fd, buffer, size)]: the result and the bytes stored in [buffer]. *)
Definition fs_read (fd size : Z) : M W (Z * list Z) :=
  let! bad := bad_fd fd in
  if bad then ret (-1, [])
  else
    let! f := file fd in
    if Z.land (f_flags f) FS_O_RDONLY =? 0 then ret (-1, [])
    else
      let! _ := svc_mutex_lock (file_lock fd) 1000 in
      let! f := file fd in
      let! r := fs_read_inode (f_inode f) uninit_inode in
      let inode := r.2 in
      let! f := file fd in
      let pos := f_position f in
      let remaining := if pos <? i_size inode then i_size inode - pos else 0 in
      let to_read := if size <? remaining then size else remaining in
      let! r := read_loop rw_fuel inode pos to_read [] uninit_block in
      set_file fd (λ f, f <| f_position := r.1 |>) ;;;
      let! _ := svc_mutex_unlock (file_lock fd) in
      ret (i32 (Z.of_nat (length r.2)), r.2).

(** The loop of [fs_write], [bytes_written] bytes into [buffer]; the result is [(inode, pos,
    bytes_written)]. *)
Fixpoint write_loop (fuel : nat) (inode : fs_inode_t) (pos size bytes_written : Z)
    (buffer block_buffer : list Z) : M W (fs_inode_t * Z * Z) :=
  if bytes_written <? size then
    match fuel with
    | O => nofuel
    | S fuel =>
        let block_idx := pos / FS_BLOCK_SIZE in
        let offset := pos mod FS_BLOCK_SIZE in
        let chunk := Z.min (FS_BLOCK_SIZE - offset) (size - bytes_written) in
        if 6 <=? block_idx then ret (inode, pos, bytes_written)
        else
          let i := Z.to_nat block_idx in
          let! b := (if blk inode i =? 0 then fs_alloc_block else ret (blk inode i)) in
          if (blk inode i =? 0) && (b =? 0xFFFFFFFF) then
            ret (set_blk i b inode, pos, bytes_written)
          else
            let! block_buffer :=
              (if blk inode i =? 0 then
                 let! _ := fs_write_block b (replicate 512 0) in
                 ret (replicate 512 0)
               else ret block_buffer) in
            let! r := fs_read_block b block_buffer in
            if Z.of_nat (length buffer) <? bytes_written + chunk then undef
            else
              let src := take (Z.to_nat chunk) (drop (Z.to_nat bytes_written) buffer) in
              let block_buffer := put (Z.to_nat offset) src r.2 in
              let! _ := fs_write_block b block_buffer in
              write_loop fuel (set_blk i b inode) (u32 (pos + chunk)) size
                (bytes_written + chunk) buffer block_buffer
    end
  else ret (inode, pos, bytes_written).

Definition fs_write (fd : Z) (buffer : list Z) (size : Z) : M W Z :=
  let! bad := bad_fd fd in
  if bad then ret (-1)
  else
    let! f := file fd in
    if Z.land (f_flags f) FS_O_WRONLY =? 0 then ret (-1)
    else
      let! _ := svc_mutex_lock (file_lock fd) 1000 in
      let! f := file fd in
      let! r := fs_read_inode (f_inode f) uninit_inode in
      let! f := file fd in
      let! res := write_loop rw_fuel r.2 (f_position f) size 0 buffer uninit_block in
      let '(inode, pos, bytes_written) := res in
      when (i_size inode <? pos)
        (let! now := svc_get_tick_count in
         let inode := inode <| i_size := pos |> <| i_mtime := now |> in
         let! f := file fd in
         let! _ := fs_write_inode (f_inode f) inode in
         set_file fd (λ f, f <| f_size := i_size inode |>)) ;;;
      set_file fd (λ f, f <| f_position := pos |>) ;;;
      let! _ := svc_mutex_unlock (file_lock fd) in
      ret (i32 bytes_written).

Definition fs_seek (fd offset whence : Z) : M W Z :=
  let! bad := bad_fd fd in
  if bad then ret (-1)
  else
    let! _ := svc_mutex_lock (file_lock fd) 1000 in
    let! f := file fd in
    let target :=
      if whence =? FS_SEEK_SET then Some offset
      else if whence =? FS_SEEK_CUR then Some (i32 (f_position f + offset))
      else if whence =? FS_SEEK_END then Some (i32 (f_size f + offset))
      else None in
    match target with
    | None =>
        let! _ := svc_mutex_unlock (file_lock fd) in
        ret (-1)
    | Some p =>
        let new_pos := if p <? 0 then 0 else p in
        set_file fd (λ f, f <| f_position := new_pos |>) ;;;
        let! _ := svc_mutex_unlock (file_lock fd) in
        ret new_pos
    end.

Definition fs_tell (fd : Z) : M W Z :=
  let! bad := bad_fd fd in
  if bad then ret (-1) else let! f := file fd in ret (i32 (f_position f)).
Definition fs_size (fd : Z) : M W Z :=
  let! bad := bad_fd fd in
  if bad then ret (-1) else let! f := file fd in ret (i32 (f_size f)).

Definition fs_sync (fd : Z) : M W os_error_t :=
  let! bad := bad_fd fd in
  if bad then ret OS_ERROR_INVALID_PARAM
  else
    let! _ := fs_sync_cache in
    let! d := gets device in
    match d with Some dev => on_optional (bd_sync dev) | None => ret tt end ;;;
    ret OS_OK.

(** ** Names *)

(** The first entry of [buffer] from number [i] on that refers to [inode] is replaced by [g] of it. *)
Fixpoint update_entry (n i : nat) (g : fs_dentry_t → fs_dentry_t) (inode : Z) (buffer : list Z) :
    option (list Z) :=
  match n with
  | O => None
  | S n =>
      let e := entry_get buffer i in
      if d_inode e =? inode then Some (entry_set buffer i (g e))
      else update_entry n (i + 1) g inode buffer
  end.
(** The loop over the blocks of a directory of [fs_remove], [fs_rename] and [fs_rmdir]: the first
    entry for [inode] is changed and its block written back. *)
Fixpoint update_dir (g : fs_dentry_t → fs_dentry_t) (inode : Z) (l : list Z) (dir_buffer : list Z) : M W bool :=
  match l with
  | [] => ret false
  | b :: l =>
      if b =? 0 then ret false
      else
        let! r := fs_read_block b dir_buffer in
        match update_entry entries_per_block 0 g inode r.2 with
        | Some dir_buffer =>
            let! _ := fs_write_block b dir_buffer in
            ret true
        | None => update_dir g inode l r.2
        end
  end.
(** [memset (&entries[i], 0, sizeof (fs_dentry_t))] *)
Definition wipe (_ : fs_dentry_t) : fs_dentry_t := dentry_zero.

Definition fs_remove (path : option (list Z)) : M W os_error_t :=
  let! m := gets mounted in
  match path with
  | None => ret OS_ERROR_INVALID_PARAM
  | Some path =>
      if negb m then ret OS_ERROR_INVALID_PARAM
      else
        let! root := gets (λ w, sb_root_inode (superblock w)) in
        let! inode_num := fs_find_in_dir root (skip_slash path) in
        if inode_num <? 0 then ret OS_ERROR
        else
          let! _ := fs_free_inode inode_num in
          let! r := fs_read_inode root uninit_inode in
          let! _ := update_dir wipe inode_num (i_blocks r.2) uninit_block in
          ret OS_OK
  end.

(** [fs_stat (path, stat)]: the result and the structure afterwards ([None]: a null pointer). *)
Definition fs_stat (path : option (list Z)) (stat : option fs_stat_t) :
    M W (os_error_t * option fs_stat_t) :=
  let! m := gets mounted in
  match path, stat with
  | Some path, Some _ =>
      if negb m then ret (OS_ERROR_INVALID_PARAM, stat)
      else
        let! root := gets (λ w, sb_root_inode (superblock w)) in
        let! inode_num := fs_find_in_dir root (skip_slash path) in
        if inode_num <? 0 then ret (OS_ERROR, stat)
        else
          let! r := fs_read_inode inode_num uninit_inode in
          if decide (r.1 ≠ OS_OK) then ret (OS_ERROR, stat)
          else
            let blocks := length (filter (λ b, b ≠ 0) (i_blocks r.2)) in
            ret (OS_OK, Some (Stat (i_type r.2) (i_size r.2) (Z.of_nat blocks)
                                   (i_mtime r.2) (i_ctime r.2)))
  | _, _ => ret (OS_ERROR_INVALID_PARAM, stat)
  end.

Definition fs_get_stats (stats : option fs_stats_t) : M W (os_error_t * option fs_stats_t) :=
  let! m := gets mounted in
  match stats with
  | None => ret (OS_ERROR_INVALID_PARAM, stats)
  | Some _ =>
      if negb m then ret (OS_ERROR_INVALID_PARAM, stats)
      else
        let! sb := gets superblock in
        ret (OS_OK, Some (Stats (sb_total_blocks sb) (u32 (sb_total_blocks sb - sb_free_blocks sb))
          (sb_free_blocks sb) (u32 (sb_total_inodes sb - sb_free_inodes sb)) 1 (sb_block_size sb)))
  end.

Definition fs_get_free_space : M W Z :=
  let! m := gets mounted in
  if negb m then ret 0
  else let! sb := gets superblock in ret (u32 (sb_free_blocks sb * sb_block_size sb)).
Definition fs_get_total_space : M W Z :=
  let! m := gets mounted in
  if negb m then ret 0
  else let! sb := gets superblock in ret (u32 (sb_total_blocks sb * sb_block_size sb)).

(** [size] is an [uint32_t]: [size + FS_BLOCK_SIZE - 1] wraps around. *)
Definition fs_truncate (fd size : Z) : M W os_error_t :=
  let! bad := bad_fd fd in
  if bad then ret OS_ERROR_INVALID_PARAM
  else
    let! _ := svc_mutex_lock (file_lock fd) 1000 in
    let! f := file fd in
    let! r := fs_read_inode (f_inode f) uninit_inode in
    let! inode :=
      (if size <? i_size r.2 then
         let new_blocks := Z.to_nat (u32 (size + FS_BLOCK_SIZE - 1) / FS_BLOCK_SIZE) in
         free_blocks_of (drop new_blocks (i_blocks r.2)) ;;;
         ret (r.2 <| i_blocks ::= λ l, take new_blocks l ++ replicate (6 - new_blocks) 0 |>)
       else ret r.2) in
    let! now := svc_get_tick_count in
    let inode := inode <| i_size := size |> <| i_mtime := now |> in
    let! f := file fd in
    let! _ := fs_write_inode (f_inode f) inode in
    set_file fd (λ f, f <| f_size := size |>) ;;;
    let! _ := svc_mutex_unlock (file_lock fd) in
    ret OS_OK.

Definition fs_rename (old_path new_path : option (list Z)) : M W os_error_t :=
  let! m := gets mounted in
  match old_path, new_path with
  | Some old_path, Some new_path =>
      if negb m then ret OS_ERROR_INVALID_PARAM
      else
        let new_name := skip_slash new_path in
        let! root := gets (λ w, sb_root_inode (superblock w)) in
        let! inode_num := fs_find_in_dir root (skip_slash old_path) in
        if inode_num <? 0 then ret OS_ERROR
        else
          let! other := fs_find_in_dir root new_name in
          if 0 <=? other then ret OS_ERROR
          else
            let! r := fs_read_inode root uninit_inode in
            let! done := update_dir (λ e, e <| d_name ::= λ dst, copy_name dst new_name |>)
              inode_num (i_blocks r.2) uninit_block in
            if (done : bool) then ret OS_OK else ret OS_ERROR
  | _, _ => ret OS_ERROR_INVALID_PARAM
  end.

(** ** Directories *)
Definition fs_mkdir (path : option (list Z)) : M W os_error_t :=
  let! m := gets mounted in
  match path with
  | None => ret OS_ERROR_INVALID_PARAM
  | Some path =>
      if negb m then ret OS_ERROR_INVALID_PARAM
      else
        let dirname := skip_slash path in
        let! root := gets (λ w, sb_root_inode (superblock w)) in
        let! other := fs_find_in_dir root dirname in
        if 0 <=? other then ret OS_ERROR
        else
          let! inode_num := fs_alloc_inode in
          if inode_num =? 0xFFFFFFFF then ret OS_ERROR_NO_MEMORY
          else
            let! now := svc_get_tick_count in
            let new_inode := inode_zero <| i_type := FS_TYPE_DIRECTORY |> <| i_size := 0 |>
              <| i_ctime := now |> <| i_mtime := now |> in
            let! _ := fs_write_inode inode_num new_inode in
            let! r := fs_read_inode root uninit_inode in
            let! dir_inode := need_dir_block r.2 in
            let! r := fs_read_block (blk dir_inode 0) uninit_block in
            match insert_entry entries_per_block 0 r.2 dirname inode_num FS_TYPE_DIRECTORY with
            | Some dir_buffer =>
                let! _ := fs_write_block (blk dir_inode 0) dir_buffer in
                let! _ := fs_write_inode root
                  (dir_inode <| i_size ::= λ k, u32 (k + Z.of_nat dentry_size) |>) in
                ret OS_OK
            | None =>
                let! _ := fs_free_inode inode_num in
                ret OS_ERROR_NO_MEMORY
            end
  end.

Definition fs_rmdir (path : option (list Z)) : M W os_error_t :=
  let! m := gets mounted in
  match path with
  | None => ret OS_ERROR_INVALID_PARAM
  | Some path =>
      if negb m then ret OS_ERROR_INVALID_PARAM
      else
        let! root := gets (λ w, sb_root_inode (superblock w)) in
        let! inode_num := fs_find_in_dir root (skip_slash path) in
        if inode_num <? 0 then ret OS_ERROR
        else
          let! r := fs_read_inode inode_num uninit_inode in
          if negb (i_type r.2 =? FS_TYPE_DIRECTORY) then ret OS_ERROR
          else if 0 <? i_size r.2 then ret OS_ERROR
          else
            let! _ := fs_free_inode inode_num in
            let! r := fs_read_inode root uninit_inode in
            let! _ := update_dir wipe inode_num (i_blocks r.2) uninit_block in
            ret OS_OK
  end.

(** A directory handle is the index of an entry of [fs_state.dirs]; [None]: a null pointer. *)
Definition set_dir (i : Z) (g : fs_dir_s → fs_dir_s) : M W unit :=
  let! l := gets dirs in
  let! d := arr_get l i in
  modify (λ w, w <| dirs := arr_set l i (g d) |>).

Definition is_root (path : list Z) : bool :=
  match path with [] => true | [c] => c =? SLASH | _ => false end.

Definition fs_opendir (path : option (list Z)) : M W (option Z) :=
  let! m := gets mounted in
  match path with
  | None => ret None
  | Some path =>
      if negb m then ret None
      else
        let! l := gets dirs in
        match free_handle h_in_use l 0 with
        | None => ret None
        | Some i =>
            let! root := gets (λ w, sb_root_inode (superblock w)) in
            let! dir_inode :=
              (if is_root path then ret (Some root)
               else
                 let! inode_num := fs_find_in_dir root (skip_slash path) in
                 if inode_num <? 0 then ret None
                 else
                   let! r := fs_read_inode inode_num uninit_inode in
                   if negb (i_type r.2 =? FS_TYPE_DIRECTORY) then ret None
                   else ret (Some inode_num)) in
            match dir_inode with
            | None => ret None
            | Some n =>
                set_dir i (λ _, DirHandle true n 0) ;;;
                ret (Some i)
            end
        end
  end.

(** The bytes of a character array before its first NUL. *)
Fixpoint cstring (l : list Z) : list Z :=
  match l with [] => [] | c :: l => if c =? 0 then [] else c :: cstring l end.

(** The entry of number [skip] among the entries in use from number [i] on, or how many of them are
    still to be skipped. *)
Fixpoint nth_entry (n i : nat) (buffer : list Z) (skip : Z) : fs_dentry_t + Z :=
  match n with
  | O => inr skip
  | S n =>
      let e := entry_get buffer i in
      if d_inode e =? 0 then nth_entry n (i + 1) buffer skip
      else if skip =? 0 then inl e
      else nth_entry n (i + 1) buffer (skip - 1)
  end.
Fixpoint nth_entry_in_blocks (l : list Z) (skip : Z) (buffer : list Z) : M W (option fs_dentry_t) :=
  match l with
  | [] => ret None
  | b :: l =>
      if b =? 0 then ret None
      else
        let! r := fs_read_block b buffer in
        match nth_entry entries_per_block 0 r.2 skip with
        | inl e => ret (Some e)
        | inr skip => nth_entry_in_blocks l skip r.2
        end
  end.

Definition fs_readdir (dir : option Z) (entry : option fs_dirent_t) :
    M W (os_error_t * option fs_dirent_t) :=
  match dir, entry with
  | Some i, Some out =>
      let! l := gets dirs in
      let! d := arr_get l i in
      if negb (h_in_use d) then ret (OS_ERROR_INVALID_PARAM, entry)
      else
        let! r := fs_read_inode (h_inode d) uninit_inode in
        if negb (i_type r.2 =? FS_TYPE_DIRECTORY) then ret (OS_ERROR, entry)
        else
          let! found := nth_entry_in_blocks (i_blocks r.2) (h_position d) uninit_block in
          match found with
          | None => ret (OS_ERROR, entry)
          | Some e =>
              let! fi := fs_read_inode (d_inode e) uninit_inode in
              set_dir i (λ d, d <| h_position ::= λ p, u32 (p + 1) |>) ;;;
              ret (OS_OK, Some (Dirent (copy_name (e_name out) (cstring (d_name e))) (d_type e)
                                       (i_size fi.2) (i_mtime fi.2)))
          end
  | _, _ => ret (OS_ERROR_INVALID_PARAM, entry)
  end.

Definition fs_closedir (dir : option Z) : M W os_error_t :=
  match dir with
  | None => ret OS_ERROR_INVALID_PARAM
  | Some i =>
      let! l := gets dirs in
      let! d := arr_get l i in
      if negb (h_in_use d) then ret OS_ERROR_INVALID_PARAM
      else
        set_dir i (λ d, d <| h_in_use := false |>) ;;;
        ret OS_OK
  end.
End filesystem.
