(* ===== verification/FsLayers.v ===== *)
(** FsLayers: the block cache, the inode table, the block bitmap and the files of
    [src/filesystem.c].

    The development goes up layer by layer. A disk is a function from block numbers to the bytes of
    the block; [fs_ok w V] says that the mounted file system [w] shows the disk [V] through its
    one-block cache, and the lemmas on [fs_read_block] and [fs_write_block] are the only ones that
    know of the cache. Inodes and file contents are then read off [V]. The storage is any device
    that satisfies the class [BlockDevice], the kernel any that satisfies [ServiceLaws]. *)
From Stdlib Require Import ZArith Lia.
From stdpp Require Import base numbers list sets.
From S2P Require Import Prelude Types Bytes Ramdisk Filesystem.

(** The mutexes of the file system. *)
Definition fs_mutex (m : ptr) : Prop := m = fs_lock ∨ ∃ i, 0 ≤ i < FS_MAX_OPEN_FILES ∧ m = file_lock i.

(** In the states [calm] the operations on them return; whether a lock was acquired or timed out
    does not matter, since the file system ignores the result. *)
Class ServiceLaws {K : Type} `{!Services K} (calm : K → Prop) := {
  calm_lock : ∀ m k, fs_mutex m → calm k → ∃ e k', sv_mutex_lock m 1000 k = Ret e k' ∧ calm k';
  calm_unlock : ∀ m k, fs_mutex m → calm k → ∃ e k', sv_mutex_unlock m k = Ret e k' ∧ calm k';
  calm_init : ∀ m k, fs_mutex m → calm k → ∃ k', sv_mutex_init m k = Ret tt k' ∧ calm k';
  calm_tick : ∀ k, calm k → 0 ≤ sv_get_tick_count k < 2 ^ 32
}.

(** * Disks *)
Definition disk : Type := Z → list Z.
Definition upd (V : disk) (b : Z) (bs : list Z) : disk := λ x, if x =? b then bs else V x.

Lemma upd_same V b bs : upd V b bs b = bs.
Proof. unfold upd. by rewrite Z.eqb_refl. Qed.
Lemma upd_other V b bs x : x ≠ b → upd V b bs x = V x.
Proof. intros. unfold upd. by destruct (Z.eqb_spec x b). Qed.

Lemma overwrite_full src buffer : length src = length buffer → overwrite src buffer = src.
Proof. intros E. unfold overwrite, put. rewrite take_0, drop_ge by lia. simpl. apply app_nil_r. Qed.

(** * Inodes on a disk *)

(** The inodes whose table entry lies before the data blocks, and the ranges of the fields. *)
Definition SAFE_INODES : Z := 120.
Definition inode_in (V : disk) (n : Z) : fs_inode_t :=
  inode_of (take 40 (drop (inode_offset n) (V (2 + n / 12)))).
Record inode_ok (x : fs_inode_t) : Prop := {
  io_type : 0 ≤ i_type x < 256;
  io_flags : 0 ≤ i_flags x < 256;
  io_reserved : 0 ≤ i_reserved x < 2 ^ 16;
  io_size : 0 ≤ i_size x < 2 ^ 32;
  io_count : length (i_blocks x) = 6%nat;
  io_blocks : Forall (λ b, 0 ≤ b < 2 ^ 32) (i_blocks x);
  io_mtime : 0 ≤ i_mtime x < 2 ^ 32;
  io_ctime : 0 ≤ i_ctime x < 2 ^ 32
}.
Definition put_inode (V : disk) (n : Z) (x : fs_inode_t) : disk :=
  upd V (2 + n / 12) (put (inode_offset n) (inode_bytes x) (V (2 + n / 12))).

Lemma inode_bytes_length x : length (i_blocks x) = 6%nat → length (inode_bytes x) = 40%nat.
Proof.
  destruct x as [? ? ? ? bl ? ?]. cbn [i_blocks]. intros Hb.
  do 6 (destruct bl as [|? bl]; [done|]). by destruct bl.
Qed.

Lemma inode_bytes_ok x : bytes_ok (inode_bytes x).
Proof.
  unfold inode_bytes, bytes_ok. rewrite !Forall_app. repeat split; try apply le_encode_ok.
  apply Forall_concat, Forall_fmap, Forall_true. intros b. apply le_encode_ok.
Qed.

(** A field of a structure whose bytes were just laid out. *)
Ltac field_round :=
  match goal with |- field _ ?n _ = ?v => apply (le_decode_encode n v); assumption end.

Lemma inode_of_bytes x : inode_ok x → inode_of (inode_bytes x) = x.
Proof.
  intros []. destruct x as [ty fl re sz bl mt ct]. cbn [i_type i_flags i_reserved i_size i_blocks i_mtime i_ctime] in *.
  do 6 (destruct bl as [|? bl]; [done|]). destruct bl; [|done].
  rewrite !Forall_cons in io_blocks0. destruct io_blocks0 as (?&?&?&?&?&?&_).
  unfold inode_of. change (seq 0 6) with [0; 1; 2; 3; 4; 5]%nat. cbn [fmap list_fmap].
  f_equal; try field_round. do 5 (f_equal; [field_round|]). f_equal. field_round.
Qed.

Lemma inode_of_ok bs : bytes_ok bs → inode_ok (inode_of bs).
Proof.
  intros Hbs. split; cbn [inode_of i_type i_flags i_reserved i_size i_blocks i_mtime i_ctime];
    try exact (field_range _ _ _ Hbs); [done|].
  apply Forall_fmap, Forall_true. intros i. exact (field_range _ _ _ Hbs).
Qed.

Lemma inode_place n : 0 ≤ n < SAFE_INODES →
  2 ≤ 2 + n / 12 < 12 ∧ (inode_offset n + 40 ≤ 512)%nat ∧ Z.of_nat (inode_offset n) = 40 * (n mod 12).
Proof.
  unfold SAFE_INODES, inode_offset. change inodes_per_block with 12. change inode_size with 40. intros Hn.
  pose proof (Z.mod_pos_bound n 12). pose proof (Z.div_mod n 12). lia.
Qed.

Lemma put_inode_same V n x : 0 ≤ n < SAFE_INODES → length (V (2 + n / 12)) = 512%nat → inode_ok x →
  inode_in (put_inode V n x) n = x.
Proof.
  intros Hn HV Hx. destruct (inode_place n Hn) as (_ & Hoff & _). unfold inode_in, put_inode. rewrite upd_same.
  pose proof (inode_bytes_length x (io_count _ Hx)) as Hl.
  pose proof (slice_put_same (inode_offset n) (inode_bytes x) (V (2 + n / 12))) as E.
  rewrite Hl in E. rewrite E by lia. by apply inode_of_bytes.
Qed.

Lemma put_inode_other V n m x : 0 ≤ n < SAFE_INODES → 0 ≤ m < SAFE_INODES → n ≠ m →
  length (V (2 + n / 12)) = 512%nat → length (i_blocks x) = 6%nat →
  inode_in (put_inode V n x) m = inode_in V m.
Proof.
  intros Hn Hm Hne HV Hx. destruct (inode_place n Hn) as (_ & Hoff & En), (inode_place m Hm) as (_ & _ & Em).
  unfold inode_in, put_inode. destruct (decide (n / 12 = m / 12)) as [E|]; [|rewrite upd_other by lia; done].
  rewrite <-E, upd_same. f_equal. apply slice_put_other; rewrite inode_bytes_length by done; [lia|].
  pose proof (Z.div_mod n 12). pose proof (Z.div_mod m 12). lia.
Qed.

Lemma put_inode_outside V n x b : 0 ≤ n < SAFE_INODES → ¬ 2 ≤ b < 12 → put_inode V n x b = V b.
Proof.
  intros Hn Hb. destruct (inode_place n Hn) as (Hp & _). unfold put_inode. apply upd_other. lia.
Qed.

Definition table_ok (V : disk) : Prop := ∀ b, 2 ≤ b < 12 → bytes_ok (V b) ∧ length (V b) = 512%nat.

Lemma table_put V n x : table_ok V → 0 ≤ n < SAFE_INODES → length (i_blocks x) = 6%nat →
  table_ok (put_inode V n x).
Proof.
  intros HV Hn Hx b Hb. destruct (inode_place n Hn) as (Hp & Hoff & _). destruct (HV b Hb) as [Hok Hlen].
  unfold put_inode, upd. destruct (Z.eqb_spec b (2 + n / 12)) as [<-|]; [|done].
  split; [apply put_ok; [apply inode_bytes_ok|done]|].
  rewrite put_length; [done|]. rewrite inode_bytes_length by done. lia.
Qed.

Lemma inode_in_ok V n : table_ok V → 0 ≤ n < SAFE_INODES → inode_ok (inode_in V n).
Proof.
  intros HV Hn. destruct (inode_place n Hn) as (Hp & _). apply inode_of_ok.
  apply Forall_take, Forall_drop. by apply HV.
Qed.

(** * The block bitmap *)
Definition used (bm : list Z) (i : Z) : bool := Z.testbit (nth (Z.to_nat (i / 8)) bm 0) (i mod 8).
Definition bitmap_ok (bm : list Z) : Prop := length bm = 128%nat ∧ bytes_ok bm.
Definition set_bits (bm : list Z) (i : Z) (b : bool) (bm' : list Z) : Prop :=
  bitmap_ok bm' ∧ ∀ j, 0 ≤ j → used bm' j = if j =? i then b else used bm j.

Lemma land_bit_zero x k : 0 ≤ k → (Z.land x (Z.shiftl 1 k) =? 0) = negb (Z.testbit x k).
Proof.
  intros Hk. destruct (Z.eqb_spec (Z.land x (Z.shiftl 1 k)) 0) as [E|E].
  - apply (f_equal (λ z, Z.testbit z k)) in E. rewrite Z.land_spec, testbit_pow2, Z.eqb_refl, Z.bits_0, andb_true_r in E by done.
    by rewrite E.
  - destruct (Z.testbit x k) eqn:Ek; [done|]. exfalso. apply E. apply Z.bits_inj'. intros j Hj.
    rewrite Z.land_spec, testbit_pow2, Z.bits_0 by done. destruct (Z.eqb_spec j k) as [->|]; [by rewrite Ek|].
    apply andb_false_r.
Qed.

(** A byte of the bitmap replaced by one that differs in bit [i mod 8] only. *)
Lemma set_bits_intro bm i b x : bitmap_ok bm → 0 ≤ i < FS_MAX_BLOCKS → 0 ≤ x < 256 →
  (∀ k, 0 ≤ k < 8 → Z.testbit x k = if k =? i mod 8 then b else Z.testbit (nth (Z.to_nat (i / 8)) bm 0) k) →
  set_bits bm i b (arr_set bm (i / 8) x).
Proof.
  intros [Hlen Hok] Hi Hx Hbits. unfold FS_MAX_BLOCKS in Hi.
  assert (0 ≤ i / 8 < 128) as Hd by (split; [apply Z.div_pos; lia|apply Z.div_lt_upper_bound; lia]).
  split; [split; [by rewrite arr_set_length|by apply Forall_insert]|].
  intros j Hj. unfold used. pose proof (Z.mod_pos_bound j 8). pose proof (Z.mod_pos_bound i 8).
  pose proof (Z.div_mod i 8). pose proof (Z.div_mod j 8). pose proof (Z.div_pos j 8).
  destruct (decide (j / 8 = i / 8)) as [E|E].
  - rewrite E, !nth_lookup, arr_set_lookup_eq by lia. cbn [default]. rewrite Hbits by lia.
    rewrite nth_lookup. destruct (Z.eqb_spec (j mod 8) (i mod 8)), (Z.eqb_spec j i); lia || done.
  - rewrite !nth_lookup, arr_set_lookup_ne by lia. destruct (Z.eqb_spec j i); [by subst|done].
Qed.

Lemma bitmap_byte bm i : bitmap_ok bm → 0 ≤ i < FS_MAX_BLOCKS →
  bm !! Z.to_nat (i / 8) = Some (nth (Z.to_nat (i / 8)) bm 0) ∧ 0 ≤ nth (Z.to_nat (i / 8)) bm 0 < 256 ∧ 0 ≤ i / 8.
Proof.
  intros [Hlen Hok] Hi. unfold FS_MAX_BLOCKS in Hi.
  assert (0 ≤ i / 8 < 128) as Hd by (split; [apply Z.div_pos; lia|apply Z.div_lt_upper_bound; lia]).
  destruct (lookup_lt_is_Some_2 bm (Z.to_nat (i / 8))) as [x Hx]; [lia|].
  rewrite nth_lookup, Hx. cbn. split; [done|]. split; [|lia]. by eapply Forall_lookup_1 in Hx; [|exact Hok].
Qed.

Lemma count_ext (f g : Z → bool) (l : list Z) : (∀ j, j ∈ l → g j = f j) →
  filter (λ j, f j = false) l = filter (λ j, g j = false) l.
Proof.
  induction l as [|x l IH]; intros E; [done|]. rewrite !filter_cons, (E x) by set_solver.
  rewrite IH by (intros j Hj; apply E; set_solver). done.
Qed.

Lemma count_flip (f g : Z → bool) b (l : list Z) : NoDup l → b ∈ l → f b = false → g b = true →
  (∀ j, j ∈ l → j ≠ b → g j = f j) →
  length (filter (λ j, f j = false) l) = S (length (filter (λ j, g j = false) l)).
Proof.
  intros Hnd Hin Hf Hg Ho. induction l as [|x l IH]; [by apply not_elem_of_nil in Hin|].
  apply NoDup_cons in Hnd as [Hx Hnd]. rewrite !filter_cons.
  destruct (decide (x = b)) as [->|Hne].
  - rewrite decide_True, decide_False by (done || congruence). cbn [length]. f_equal. f_equal.
    apply count_ext. intros j Hj. apply Ho; [set_solver|]. intros ->. done.
  - apply elem_of_cons in Hin as [?|Hin]; [done|].
    assert (g x = f x) as -> by (apply Ho; [set_solver|done]).
    specialize (IH Hnd Hin (λ j Hj, Ho j (list_elem_of_further _ _ _ Hj))).
    case_decide; cbn [length]; by rewrite IH.
Qed.

(** * Files on a disk *)
Definition MAX_FILE : Z := 3072.
Definition file_byte (V : disk) (x : fs_inode_t) (k : Z) : Z :=
  nth (Z.to_nat (k mod 512)) (V (blk x (Z.to_nat (k / 512)))) 0.
Definition file_bytes (V : disk) (x : fs_inode_t) : list Z := file_byte V x <$> seqZ 0 (i_size x).

(** How many of the six direct blocks are missing. *)
Definition missing (x : fs_inode_t) : nat := length (filter (λ b, b = 0) (i_blocks x)).

Definition over (ino : Z → fs_inode_t) (n : Z) (x : fs_inode_t) : Z → fs_inode_t :=
  λ m, if m =? n then x else ino m.

Lemma nth_put off src bs j : (off + length src ≤ length bs)%nat →
  nth j (put off src bs) 0 = if decide (off ≤ j < off + length src)%nat then nth (j - off) src 0 else nth j bs 0.
Proof.
  intros Hlen. unfold put. destruct (decide (j < off)%nat).
  - rewrite app_nth1 by (rewrite length_take; lia). rewrite decide_False by lia.
    rewrite !nth_lookup, lookup_take_lt by lia. done.
  - rewrite app_nth2 by (rewrite length_take; lia). rewrite length_take_le by lia.
    case_decide; [by rewrite app_nth1 by lia|].
    rewrite app_nth2 by lia. rewrite !nth_lookup, lookup_drop. do 2 f_equal. lia.
Qed.

Lemma blk_set_same x i b : (i < length (i_blocks x))%nat → blk (set_blk i b x) i = b.
Proof. intros. unfold blk, set_blk. cbn. rewrite nth_lookup, list_lookup_insert_eq by done. done. Qed.
Lemma blk_set_other x i j b : i ≠ j → blk (set_blk i b x) j = blk x j.
Proof. intros. unfold blk, set_blk. cbn. rewrite !nth_lookup, list_lookup_insert_ne by done. done. Qed.
Lemma set_blk_id x i : (i < length (i_blocks x))%nat → set_blk i (blk x i) x = x.
Proof.
  intros Hi. destruct x. unfold set_blk, blk. cbn in *. f_equal. apply list_insert_id.
  destruct (lookup_lt_is_Some_2 _ _ Hi) as [y Hy]. by rewrite nth_lookup, Hy.
Qed.
Lemma blk_out x i : (length (i_blocks x) ≤ i)%nat → blk x i = 0.
Proof. intros. unfold blk. by apply nth_overflow. Qed.

Lemma missing_pos x i : (i < length (i_blocks x))%nat → blk x i = 0 → (0 < missing x)%nat.
Proof.
  intros Hi Hb. unfold missing. destruct (lookup_lt_is_Some_2 _ _ Hi) as [y Hy].
  unfold blk in Hb. rewrite nth_lookup, Hy in Hb. cbn in Hb. subst y.
  assert (0 ∈ filter (λ b, b = 0) (i_blocks x)) as Hin.
  { apply list_elem_of_filter. split; [done|]. by eapply list_elem_of_lookup_2. }
  destruct (filter _ _); [by apply not_elem_of_nil in Hin|simpl; lia].
Qed.

Lemma missing_set x i b : (i < length (i_blocks x))%nat → blk x i = 0 → b ≠ 0 →
  missing x = S (missing (set_blk i b x)).
Proof.
  intros Hi Hb Hne. unfold missing, set_blk. cbn. destruct (lookup_lt_is_Some_2 _ _ Hi) as [y Hy].
  unfold blk in Hb. rewrite nth_lookup, Hy in Hb. cbn in Hb. subst y. clear Hi.
  revert i Hy. induction (i_blocks x) as [|c l IH]; intros i Hy; [done|].
  destruct i as [|i].
  - injection Hy as ->. change (<[0%nat:=b]> (0 :: l)) with (b :: l).
    rewrite !filter_cons, decide_True, decide_False by done. done.
  - change (<[S i:=b]> (c :: l)) with (c :: <[i:=b]> l). rewrite !filter_cons.
    specialize (IH i Hy). case_decide; cbn [length]; by rewrite IH.
Qed.

(** [m] is one of the mutexes of the file system. *)
Ltac is_fs_mutex := first [by left | match goal with H : _ |- _ => exact (H : fs_mutex _) end].

Ltac divlia := Z.div_mod_to_equations; lia.

(** The setting of the theorems: a kernel, a block device with a bitmap that covers it, and what
    uninitialised locals hold. *)
Class FsEnv (K D : Type) := {
  env_services :: Services K;
  calm : K → Prop;
  env_laws :: ServiceLaws calm;
  dev : fs_block_device_t D;
  ready : D → Prop;
  contents : D → Z → list Z;
  env_device :: BlockDevice dev ready contents;
  uninit_block : list Z;
  uninit_inode : fs_inode_t;
  uninit_length : length uninit_block = 512%nat;
  env_count : 12 ≤ bd_get_block_count dev ≤ FS_MAX_BLOCKS
}.

Section layers.
Context {K D : Type} `{!FsEnv K D}.
Abbreviation W := (fs_world K D).
Abbreviation count := (bd_get_block_count dev).
Implicit Types w : fs_world K D.

(** * The block cache *)
Definition view w : disk := λ b, if b =? cached_block w then block_cache w else contents (w_dev w) b.

Record fs_ok w (V : disk) : Prop := {
  fo_calm : calm (w_kernel w);
  fo_ready : ready (w_dev w);
  fo_mounted : mounted w = true;
  fo_device : device w = Some dev;
  fo_cached : cached_block w = 0xFFFFFFFF ∨ 2 ≤ cached_block w < count;
  fo_dirty : cache_dirty w = true → 0 ≤ cached_block w < count;
  fo_cache_length : length (block_cache w) = 512%nat;
  fo_clean : cache_dirty w = false → 0 ≤ cached_block w < count →
    block_cache w = contents (w_dev w) (cached_block w);
  fo_view : ∀ b, 0 ≤ b < count → view w b = V b
}.

(** The part of the state that reading and writing blocks leaves alone. *)
Definition core w := (superblock w, files w, dirs w, block_bitmap w, w_behind w).

Let Huninit : length uninit_block = 512%nat.
Proof. apply uninit_length. Qed.
Let Hcount : 0 < count < 0xFFFFFFFF.
Proof. pose proof env_count. unfold FS_MAX_BLOCKS in *. lia. Qed.
Let Hfits : 12 ≤ count.
Proof. apply env_count. Qed.
Let Hmax : count ≤ FS_MAX_BLOCKS.
Proof. apply env_count. Qed.

Lemma fs_ok_ext w V V' : fs_ok w V → (∀ b, 0 ≤ b < count → V b = V' b) → fs_ok w V'.
Proof. intros [] E. split; auto. intros b Hb. rewrite <-E by done. auto. Qed.

Lemma fs_ok_length w V b : fs_ok w V → 0 ≤ b < count → length (V b) = 512%nat.
Proof.
  intros [] Hb. rewrite <-fo_view0 by done. unfold view. destruct (b =? _); [done|].
  by rewrite bd_block_size.
Qed.

Lemma read_one s b : ready s → 0 ≤ b < count → bd_read dev b 1 s = Ret (0, contents s b) s.
Proof. intros. rewrite bd_read_ok by (done || lia). by rewrite blocks_one. Qed.

Lemma write_one s b bs : ready s → 0 ≤ b < count → length bs = 512%nat →
  ∃ s', bd_write dev b bs 1 s = Ret 0 s' ∧ ready s' ∧ contents s' b = bs ∧
    ∀ i, 0 ≤ i < count → i ≠ b → contents s' i = contents s i.
Proof.
  intros Hs Hb Hlen. destruct (bd_write_ok s b 1 bs) as (s' & E & Hs' & Hbs & Ho);
    [done|lia|lia|lia|unfold BLOCK_BYTES; lia|].
  rewrite blocks_one in Hbs. exists s'. split; [done|]. split; [done|]. split; [done|].
  intros i Hi Hne. apply Ho; [done|]. unfold in_blocks. lia.
Qed.

Lemma wp_on_device {A} (f : fs_block_device_t D → M D A) Q w : device w = Some dev →
  wp (on_device f) Q w = wp (f dev) (λ a s, Q a (w <| w_dev := s |>)) (w_dev w).
Proof. intros E. unfold on_device. rewrite wp_bind, wp_gets, E. apply wp_zoom. Qed.

Lemma sync_cache_ok w V : fs_ok w V →
  wp fs_sync_cache (λ r w', r = OS_OK ∧ fs_ok w' V ∧ core w' = core w ∧ cache_dirty w' = false ∧
    cached_block w' = cached_block w ∧ block_cache w' = block_cache w) w.
Proof.
  intros Hok. pose proof Hok as []. unfold fs_sync_cache. rewrite wp_bind, wp_gets, wp_bind, wp_gets.
  destruct (cache_dirty w) eqn:Ed; [|cbn [andb]; by rewrite wp_ret].
  specialize (fo_dirty0 eq_refl). destruct (Z.eqb_spec (cached_block w) 0xFFFFFFFF); [lia|]. cbn [negb andb].
  rewrite wp_bind, wp_gets, wp_bind, wp_on_device by done.
  destruct (write_one (w_dev w) (cached_block w) (block_cache w)) as (s & E & Hs & Hb & Ho); [done..|].
  unfold wp at 1. rewrite E. cbn [Z.eqb negb]. rewrite wp_bind, wp_modify, wp_ret.
  split; [done|]. split; [|done]. split; cbn; try done.
  intros b Hb'. rewrite <-fo_view0 by done. unfold view. cbn.
  destruct (Z.eqb_spec b (cached_block w)); [done|]. by rewrite Ho.
Qed.

Lemma read_block_ok w V b buffer : fs_ok w V → 2 ≤ b < count → length buffer = 512%nat →
  wp (fs_read_block b buffer) (λ r w', r = (OS_OK, V b) ∧ fs_ok w' V ∧ core w' = core w) w.
Proof.
  intros Hok Hb Hlen. pose proof Hok as []. assert (0 ≤ b < count) as Hb0 by lia. pose proof (fs_ok_length w V b Hok Hb0) as HVb.
  unfold fs_read_block. rewrite wp_bind, wp_gets, fo_mounted0. cbn [negb]. rewrite wp_bind, wp_gets.
  pose proof (fo_view0 b Hb0) as Hv. unfold view in Hv.
  destruct (Z.eqb_spec b (cached_block w)) as [Ec|Ec].
  { rewrite wp_bind, wp_gets, wp_ret, overwrite_full by lia. by rewrite Hv. }
  rewrite wp_bind, wp_on_device by done. unfold wp at 1. rewrite read_one by done. cbn [fst snd Z.eqb negb].
  rewrite overwrite_full by (rewrite Hv; lia). rewrite Hv, wp_bind, wp_gets, wp_bind.
  assert (∀ w1, fs_ok w1 V → core w1 = core w → cache_dirty w1 = false →
    fs_ok (w1 <| block_cache := take 512 (V b) |> <| cached_block := b |> <| cache_dirty := false |>) V)
    as Hfill.
  { intros w1 [] Hc1 Hd1. rewrite take_ge by lia.
    assert (∀ x, 0 ≤ x < count → contents (w_dev w1) x = V x) as Hall.
    { intros x Hx. rewrite <-fo_view1 by done. unfold view.
      destruct (Z.eqb_spec x (cached_block w1)) as [->|]; [|done]. symmetry. auto. }
    split; cbn; try done; [by right|by rewrite Hall|].
    intros x Hx. unfold view. cbn. destruct (Z.eqb_spec x b) as [->|]; [done|by apply Hall]. }
  assert (w = w <| w_dev := w_dev w |>) as Hw by (by destruct w). rewrite <-Hw.
  rewrite wp_when. destruct (cache_dirty w) eqn:Ed.
  - rewrite wp_bind. eapply wp_mono; [by apply sync_cache_ok|]. intros ? w1 (_ & Hok1 & Hc1 & Hd1 & _ & _).
    rewrite wp_ret, wp_bind, wp_modify, wp_ret. split; [done|]. split; [|done]. by apply Hfill.
  - rewrite wp_bind, wp_modify, wp_ret. split; [done|]. split; [|done]. by apply Hfill.
Qed.

Lemma write_block_ok w V b bs : fs_ok w V → 0 ≤ b < count → length bs = 512%nat →
  wp (fs_write_block b bs) (λ r w', r = OS_OK ∧ fs_ok w' (upd V b bs) ∧ core w' = core w) w.
Proof.
  intros Hok Hb Hlen. pose proof Hok as []. unfold fs_write_block.
  rewrite wp_bind, wp_gets, fo_mounted0. cbn [negb]. rewrite wp_bind, wp_gets.
  destruct (Z.eqb_spec b (cached_block w)) as [Ec|Ec].
  - rewrite wp_bind, wp_modify, wp_ret, take_ge by lia. split; [done|]. split; [|done].
    split; cbn; try done; [lia|].
    intros x Hx. pose proof (fo_view0 x Hx) as Hv. unfold view, upd in *. cbn. rewrite <-Ec in *.
    by destruct (Z.eqb_spec x b).
  - rewrite wp_bind, wp_on_device by done.
    destruct (write_one (w_dev w) b bs) as (s & E & Hs & Hbs & Ho); [done..|].
    unfold wp at 1. rewrite E. cbn [Z.eqb negb]. rewrite wp_ret. split; [done|]. split; [|done].
    split; cbn; try done.
    + intros Hd Hcb. rewrite fo_clean0 by done. by rewrite Ho by (done || lia).
    + intros x Hx. pose proof (fo_view0 x Hx) as Hv. unfold view, upd in *. cbn.
      destruct (Z.eqb_spec x (cached_block w)), (Z.eqb_spec x b) as [->|]; try done. by rewrite Ho.
Qed.

(** * The inode table *)

(** The layout that [fs_format] writes; the fields that no operation changes. *)
Record layout (sb : fs_superblock_t) : Prop := {
  lo_total : sb_total_blocks sb = count;
  lo_inodes : sb_total_inodes sb = 128;
  lo_table : sb_inode_table_block sb = 2;
  lo_data : sb_first_data_block sb = 12;
  lo_root : sb_root_inode sb = 0;
  lo_reserved : length (sb_reserved sb) = 472%nat
}.

Lemma superblock_bytes_length sb : layout sb → length (superblock_bytes sb) = 512%nat.
Proof. intros []. unfold superblock_bytes. rewrite length_app, lo_reserved0. done. Qed.

Lemma inode_block_layout sb n : layout sb → 0 ≤ n < SAFE_INODES → inode_block sb n = 2 + n / 12.
Proof.
  intros [] Hn. destruct (inode_place n Hn) as (Hp & _). unfold inode_block.
  change inodes_per_block with 12. rewrite lo_table0. apply u32_small. lia.
Qed.

Lemma read_inode_ok w V n old : fs_ok w V → layout (superblock w) → 0 ≤ n < SAFE_INODES →
  wp (fs_read_inode uninit_block n old) (λ r w', r = (OS_OK, inode_in V n) ∧ fs_ok w' V ∧ core w' = core w) w.
Proof.
  intros Hok Hlo Hn. destruct (inode_place n Hn) as (Hp & _).
  unfold fs_read_inode. rewrite wp_bind, wp_gets.
  destruct (Z.leb_spec (sb_total_inodes (superblock w)) n);
    [rewrite (lo_inodes _ Hlo) in *; unfold SAFE_INODES in *; lia|].
  rewrite inode_block_layout by done. rewrite wp_bind.
  eapply wp_mono; [apply read_block_ok; [done|lia|done]|]. intros r w' (-> & Hok' & Hc).
  cbn [fst snd]. rewrite decide_False by (intros Hne; by apply Hne). by rewrite wp_ret.
Qed.

Lemma write_inode_ok w V n x : fs_ok w V → layout (superblock w) → 0 ≤ n < SAFE_INODES →
  length (i_blocks x) = 6%nat →
  wp (fs_write_inode uninit_block n x) (λ r w', r = OS_OK ∧ fs_ok w' (put_inode V n x) ∧ core w' = core w) w.
Proof.
  intros Hok Hlo Hn Hx. destruct (inode_place n Hn) as (Hp & Hoff & _).
  unfold fs_write_inode. rewrite wp_bind, wp_gets.
  destruct (Z.leb_spec (sb_total_inodes (superblock w)) n);
    [rewrite (lo_inodes _ Hlo) in *; unfold SAFE_INODES in *; lia|].
  rewrite inode_block_layout by done. rewrite wp_bind.
  eapply wp_mono; [apply read_block_ok; [done|lia|done]|]. intros r w' (-> & Hok' & Hc).
  cbn [fst snd]. rewrite decide_False by (intros Hne; by apply Hne).
  eapply wp_mono; [apply write_block_ok; [done|lia|]|].
  - rewrite put_length; [by eapply fs_ok_length; [done|lia]|].
    rewrite inode_bytes_length, (fs_ok_length w V) by (done || lia). lia.
  - intros r' w2 (-> & Hok2 & Hc2). split; [done|]. split; [done|congruence].
Qed.

Lemma wp_bitmap_bit w i Q : bitmap_ok (block_bitmap w) → 0 ≤ i < FS_MAX_BLOCKS →
  Q (used (block_bitmap w) i) w → wp (bitmap_bit i) Q w.
Proof.
  intros Hbm Hi HQ. destruct (bitmap_byte _ _ Hbm Hi) as (Hl & _ & Hd).
  unfold bitmap_bit. rewrite wp_bind, wp_gets, wp_bind. eapply wp_arr_get; [done|exact Hl|].
  rewrite wp_ret, land_bit_zero, negb_involutive by (apply Z.mod_pos_bound; lia). exact HQ.
Qed.

Lemma wp_bitmap_set w i Q : bitmap_ok (block_bitmap w) → 0 ≤ i < FS_MAX_BLOCKS →
  (∀ bm, set_bits (block_bitmap w) i true bm → Q tt (w <| block_bitmap := bm |>)) → wp (bitmap_set i) Q w.
Proof.
  intros Hbm Hi HQ. destruct (bitmap_byte _ _ Hbm Hi) as (Hl & Hx & Hd). pose proof (Z.mod_pos_bound i 8).
  unfold bitmap_set. rewrite wp_bind, wp_gets, wp_bind. eapply wp_arr_get; [done|exact Hl|].
  rewrite wp_modify. apply HQ, set_bits_intro; [done|done|apply u8_range|].
  intros k Hk. unfold u8. rewrite Z.mod_pow2_bits_low, Z.lor_spec, testbit_pow2 by lia.
  destruct (k =? i mod 8); [apply orb_true_r|apply orb_false_r].
Qed.

Lemma wp_bitmap_clear w i Q : bitmap_ok (block_bitmap w) → 0 ≤ i < FS_MAX_BLOCKS →
  (∀ bm, set_bits (block_bitmap w) i false bm → Q tt (w <| block_bitmap := bm |>)) → wp (bitmap_clear i) Q w.
Proof.
  intros Hbm Hi HQ. destruct (bitmap_byte _ _ Hbm Hi) as (Hl & Hx & Hd). pose proof (Z.mod_pos_bound i 8).
  unfold bitmap_clear. rewrite wp_bind, wp_gets, wp_bind. eapply wp_arr_get; [done|exact Hl|].
  rewrite wp_modify. apply HQ, set_bits_intro; [done|done|apply u8_range|].
  intros k Hk. unfold u8. rewrite Z.mod_pow2_bits_low, Z.land_spec, Z.lnot_spec, testbit_pow2 by lia.
  destruct (k =? i mod 8); [apply andb_false_r|apply andb_true_r].
Qed.

(** * Allocation of blocks *)

(** The free data blocks, and what the superblock says of them. *)
Definition free_list (bm : list Z) : list Z := filter (λ b, used bm b = false) (seqZ 12 (count - 12)).
Definition nfree (bm : list Z) : nat := length (free_list bm).

Lemma free_list_spec bm b : b ∈ free_list bm ↔ used bm b = false ∧ 12 ≤ b < count.
Proof. unfold free_list. rewrite list_elem_of_filter, elem_of_seqZ. naive_solver lia. Qed.

Lemma nfree_set bm bm' b : 12 ≤ b < count → used bm b = false → set_bits bm b true bm' →
  nfree bm = S (nfree bm').
Proof.
  intros Hb Hu [_ Hbits]. apply (count_flip (used bm) (used bm') b).
  - apply NoDup_seqZ.
  - apply elem_of_seqZ. lia.
  - done.
  - rewrite Hbits by lia. by rewrite Z.eqb_refl.
  - intros j Hj Hne. apply elem_of_seqZ in Hj. rewrite Hbits by lia. by destruct (Z.eqb_spec j b).
Qed.

Lemma nfree_clear bm bm' b : 12 ≤ b < count → used bm b = true → set_bits bm b false bm' →
  nfree bm' = S (nfree bm).
Proof.
  intros Hb Hu [_ Hbits]. apply (count_flip (used bm') (used bm) b).
  - apply NoDup_seqZ.
  - apply elem_of_seqZ. lia.
  - rewrite Hbits by lia. by rewrite Z.eqb_refl.
  - done.
  - intros j Hj Hne. apply elem_of_seqZ in Hj. rewrite Hbits by lia. by destruct (Z.eqb_spec j b).
Qed.

(** The superblock has the layout of [fs_format]. *)
Record accounted w : Prop := {
  ac_layout : layout (superblock w);
  ac_bitmap : bitmap_ok (block_bitmap w)
}.

Lemma accounted_core w w' : core w' = core w → accounted w → accounted w'.
Proof. intros E []. injection E as E1 _ _ E2 _. split; rewrite ?E1, ?E2; done. Qed.

(** A change of the bitmap and of the free counter only. *)
Lemma fs_ok_bitmap w V bm g : fs_ok w V → fs_ok (w <| block_bitmap := bm |> <| superblock ::= g |>) V.
Proof. by intros []. Qed.

Lemma layout_free sb g : layout sb → layout (sb <| sb_free_blocks ::= g |>).
Proof. by intros []. Qed.

Lemma nfree_bound bm : Z.of_nat (nfree bm) ≤ count.
Proof.
  unfold nfree, free_list. pose proof (length_filter (λ b, used bm b = false) (seqZ 12 (count - 12))) as Hl.
  rewrite length_seqZ in Hl. lia.
Qed.

Definition handles w := (files w, dirs w, w_behind w).

(** [fs_alloc_block]: a block that was free and is now marked, or, with no free block left,
    [NO_BLOCK] and no change. *)
Definition allocated w w' (b : Z) : Prop :=
  (b = NO_BLOCK ∧ nfree (block_bitmap w) = 0%nat ∧ core w' = core w) ∨
  (12 ≤ b < count ∧ used (block_bitmap w) b = false ∧
   set_bits (block_bitmap w) b true (block_bitmap w') ∧ nfree (block_bitmap w) = S (nfree (block_bitmap w')) ∧
   sb_free_blocks (superblock w') = u32 (sb_free_blocks (superblock w) - 1)).

Lemma alloc_from_ok w V n : ∀ i, fs_ok w V → accounted w → 12 ≤ i → i + Z.of_nat n = count →
  (∀ j, 12 ≤ j < i → used (block_bitmap w) j = true) →
  wp (alloc_from n i) (λ b w', fs_ok w' V ∧ accounted w' ∧ handles w' = handles w ∧ allocated w w' b) w.
Proof.
  induction n as [|n IH]; intros i Hok Hac Hi Hend Hall; cbn [alloc_from].
  { rewrite wp_ret. split; [done|]. split; [done|]. split; [done|]. left. split; [done|]. split; [|done].
    unfold nfree. destruct (free_list (block_bitmap w)) as [|b l] eqn:E; [done|].
    assert (b ∈ free_list (block_bitmap w)) as Hb by (rewrite E; set_solver).
    apply free_list_spec in Hb as [Hu Hb]. rewrite Hall in Hu by lia. done. }
  rewrite wp_bind. apply wp_bitmap_bit; [apply Hac|lia|]. destruct (used (block_bitmap w) i) eqn:Eu; cbn [negb].
  { apply IH; [done..|lia|lia|]. intros j Hj. destruct (decide (j = i)) as [->|]; [done|]. apply Hall. lia. }
  rewrite wp_bind. apply wp_bitmap_set; [apply Hac|lia|]. intros bm Hbm.
  rewrite wp_bind, wp_modify, wp_ret. pose proof (nfree_set (block_bitmap w) bm i ltac:(lia) Eu Hbm) as Hn.
  pose proof (nfree_bound (block_bitmap w)).
  split; [by apply fs_ok_bitmap|]. split.
  { split; [exact (layout_free _ (λ k, u32 (k - 1)) (ac_layout _ Hac))|apply Hbm]. }
  split; [done|]. right. split; [lia|]. done.
Qed.

Lemma alloc_block_ok w V : fs_ok w V → accounted w →
  wp fs_alloc_block (λ b w', fs_ok w' V ∧ accounted w' ∧ handles w' = handles w ∧ allocated w w' b) w.
Proof.
  intros Hok Hac. unfold fs_alloc_block. rewrite wp_bind, wp_gets. destruct (ac_layout _ Hac) as [Ht _ _ Hd _ _].
  rewrite Ht, Hd. apply alloc_from_ok; [done|done|lia|lia|]. intros j ?. lia.
Qed.

(** [fs_free_block] of a data block in use. *)
Lemma free_block_ok w V b : fs_ok w V → accounted w → 12 ≤ b < count → used (block_bitmap w) b = true →
  wp (fs_free_block b) (λ r w', r = OS_OK ∧ fs_ok w' V ∧ accounted w' ∧ handles w' = handles w ∧
    set_bits (block_bitmap w) b false (block_bitmap w') ∧
    nfree (block_bitmap w') = S (nfree (block_bitmap w)) ∧
    sb_free_blocks (superblock w') = u32 (sb_free_blocks (superblock w) + 1)) w.
Proof.
  intros Hok Hac Hb Hu. unfold fs_free_block. rewrite wp_bind, wp_gets.
  rewrite (lo_total _ (ac_layout _ Hac)). destruct (Z.leb_spec count b); [lia|].
  rewrite wp_bind. apply wp_bitmap_clear; [apply Hac|lia|]. intros bm Hbm.
  rewrite wp_bind, wp_modify, wp_ret. pose proof (nfree_clear _ _ _ Hb Hu Hbm) as Hn.
  pose proof (nfree_bound bm).
  split; [done|]. split; [by apply fs_ok_bitmap|]. split.
  { split; [exact (layout_free _ (λ k, u32 (k + 1)) (ac_layout _ Hac))|apply Hbm]. }
  by split.
Qed.

(** * Blocks and their owners *)

(** Every block that an inode names is a data block marked in the bitmap, and no two entries name
    the same block. *)
Definition entry_of (ino : Z → fs_inode_t) (n : Z) (i : nat) : Prop :=
  0 ≤ n < SAFE_INODES ∧ blk (ino n) i ≠ 0.
Record inodes_ok (ino : Z → fs_inode_t) (bm : list Z) : Prop := {
  in_count : ∀ n, 0 ≤ n < SAFE_INODES → length (i_blocks (ino n)) = 6%nat;
  in_refs : ∀ n i, entry_of ino n i → 12 ≤ blk (ino n) i < count ∧ used bm (blk (ino n) i) = true;
  in_own : ∀ n i m j, entry_of ino n i → entry_of ino m j → blk (ino n) i = blk (ino m) j → n = m ∧ i = j
}.

Lemma over_same ino n x : over ino n x n = x.
Proof. unfold over. by rewrite Z.eqb_refl. Qed.

Lemma inodes_ok_ext ino ino' bm : inodes_ok ino bm →
  (∀ n, 0 ≤ n < SAFE_INODES → i_blocks (ino n) = i_blocks (ino' n)) → inodes_ok ino' bm.
Proof.
  intros [Hc Hr Ho] E. split; unfold entry_of, blk in *.
  - intros n Hn. rewrite <-E by done. auto.
  - intros n i [Hn Hb]. rewrite <-(E n Hn) in Hb |- *. auto.
  - intros n i m j [Hn Hb] [Hm Hb']. rewrite <-(E n Hn) in Hb |- *. rewrite <-(E m Hm) in Hb' |- *. auto.
Qed.

(** A fresh block becomes entry [i] of inode [n]. *)
Lemma inodes_ok_alloc ino n x i b bm bm' : 0 ≤ n < SAFE_INODES → (i < 6)%nat →
  inodes_ok (over ino n x) bm → 12 ≤ b < count → used bm b = false → set_bits bm b true bm' →
  inodes_ok (over ino n (set_blk i b x)) bm'.
Proof.
  intros Hn Hi [Hc Hr Ho] Hb Hu [Hbm Hbits].
  assert (length (i_blocks x) = 6%nat) as Hlen by (specialize (Hc n Hn); by rewrite over_same in Hc).
  assert (∀ m j, (m = n ∧ j = i) ∨ blk (over ino n (set_blk i b x) m) j = blk (over ino n x m) j) as Hcases.
  { intros m j. unfold over. destruct (Z.eqb_spec m n); [|by right].
    destruct (decide (j = i)); [by left|right]. by apply blk_set_other. }
  assert (blk (over ino n (set_blk i b x) n) i = b) as Hnew.
  { rewrite over_same. apply blk_set_same. lia. }
  assert (∀ m j, entry_of (over ino n x) m j → blk (over ino n x m) j ≠ b) as Hfresh.
  { intros m j He E. destruct (Hr m j He) as [_ Hu']. congruence. }
  unfold entry_of in *. split.
  - intros m Hm. specialize (Hc m Hm). unfold over in *. destruct (m =? n); [|done].
    unfold set_blk. cbn. by rewrite length_insert.
  - intros m j [Hm Hbk]. destruct (Hcases m j) as [[-> ->]|E].
    + rewrite Hnew. split; [lia|]. rewrite Hbits by lia. by rewrite Z.eqb_refl.
    + rewrite E in *. destruct (Hr m j (conj Hm Hbk)) as [Hrange Hus]. split; [done|].
      rewrite Hbits by lia. by destruct (_ =? _).
  - intros m j m' j' [Hm Hbk] [Hm' Hbk'] E.
    destruct (Hcases m j) as [[-> ->]|E1], (Hcases m' j') as [[-> ->]|E2]; [done|..].
    + rewrite Hnew, E2 in E. rewrite E2 in Hbk'. by destruct (Hfresh m' j' (conj Hm' Hbk')).
    + rewrite Hnew, E1 in E. rewrite E1 in Hbk. by destruct (Hfresh m j (conj Hm Hbk)).
    + rewrite E1, E2 in *. by apply Ho.
Qed.

(** * Writing to a file *)

(** What happens to the disk, to the inode [x] in memory and to the bitmap when [src] is written at
    [pos]: nothing but blocks of this file and blocks that were free. *)
Record wrote (V : disk) (x : fs_inode_t) (bm : list Z) (V' : disk) (x' : fs_inode_t) (bm' : list Z)
    (pos : Z) (src : list Z) : Prop := {
  wr_table : ∀ b, 0 ≤ b < 12 → V' b = V b;
  wr_others : ∀ b, 12 ≤ b < count → used bm b = true → (∀ i, blk x i ≠ b) → V' b = V b;
  wr_meta : x' = x <| i_blocks := i_blocks x' |>;
  wr_keep : ∀ i, blk x i ≠ 0 → blk x' i = blk x i;
  wr_fresh : ∀ i, blk x' i ≠ 0 → blk x i = blk x' i ∨ 12 ≤ blk x' i ∧ used bm (blk x' i) = false;
  wr_in : ∀ k, pos ≤ k < pos + Z.of_nat (length src) →
    blk x' (Z.to_nat (k / 512)) ≠ 0 ∧ file_byte V' x' k = nth (Z.to_nat (k - pos)) src 0;
  wr_out : ∀ k, 0 ≤ k → ¬ pos ≤ k < pos + Z.of_nat (length src) → blk x (Z.to_nat (k / 512)) ≠ 0 →
    file_byte V' x' k = file_byte V x k;
  wr_used : ∀ b, 12 ≤ b → used bm b = true → used bm' b = true
}.

Lemma wrote_trans V x bm V1 x1 bm1 V2 x2 bm2 pos src1 src2 : 0 ≤ pos →
  wrote V x bm V1 x1 bm1 pos src1 →
  wrote V1 x1 bm1 V2 x2 bm2 (pos + Z.of_nat (length src1)) src2 →
  wrote V x bm V2 x2 bm2 pos (src1 ++ src2).
Proof.
  intros Hpos [T1 O1 M1 K1 F1 I1 Q1 U1] [T2 O2 M2 K2 F2 I2 Q2 U2]. split.
  - intros b Hb. by rewrite T2, T1.
  - intros b Hb Hu Hno. rewrite O2, O1; [done|done|done|done|done|by apply U1; [lia|]|].
    intros i Ei. destruct (decide (blk x1 i = 0)) as [E0|E0]; [lia|].
    destruct (F1 i E0) as [E|[_ E]]; [by apply (Hno i); congruence|congruence].
  - rewrite M2, M1. by destruct x, x1, x2.
  - intros i Hi. rewrite K2; [by apply K1|]. by rewrite K1.
  - intros i Hi. destruct (decide (blk x1 i = 0)) as [E0|E0].
    + right. destruct (F2 i Hi) as [E|[Hge E]]; [lia|]. split; [done|].
      destruct (used bm (blk x2 i)) eqn:Eu; [|done]. by rewrite U1 in E.
    + rewrite (K2 i E0). by apply F1.
  - rewrite length_app. intros k Hk. destruct (decide (k < pos + Z.of_nat (length src1))).
    + destruct (I1 k ltac:(lia)) as [Hb E]. split; [by rewrite K2|].
      rewrite Q2 by (done || lia). rewrite E, app_nth1 by lia. done.
    + destruct (I2 k ltac:(lia)) as [Hb E]. split; [done|]. rewrite E, app_nth2 by lia. f_equal. lia.
  - rewrite length_app. intros k Hk0 Hk Hb. rewrite Q2, Q1; [done|lia|lia|done|lia|lia|by rewrite K1].
  - auto.
Qed.

(** A fresh block, filled with zeros, becomes entry [i]. *)
Lemma wrote_fresh V x bm bm' i b ino n pos : 0 ≤ n < SAFE_INODES → (i < 6)%nat →
  inodes_ok (over ino n x) bm → blk x i = 0 → 12 ≤ b < count → used bm b = false → set_bits bm b true bm' →
  wrote V x bm (upd V b (replicate 512 0)) (set_blk i b x) bm' pos [].
Proof.
  intros Hn Hi Hino Hz Hb Hu [_ Hbits]. pose proof (in_count _ _ Hino n Hn) as Hlen. rewrite over_same in Hlen.
  assert (∀ j, blk x j ≠ 0 → blk x j ≠ b) as Hne.
  { intros j Hj E. destruct (in_refs _ _ Hino n j) as [_ Hu']; [split; [done|by rewrite over_same]|].
    rewrite over_same in Hu'. congruence. }
  assert (∀ j, blk x j ≠ 0 → blk (set_blk i b x) j = blk x j) as Hkeep.
  { intros j Hj. apply blk_set_other. congruence. }
  split.
  - intros c Hc. apply upd_other. lia.
  - intros c Hc Hcu _. apply upd_other. congruence.
  - done.
  - done.
  - intros j Hj. destruct (decide (j = i)) as [->|].
    + right. rewrite blk_set_same by lia. split; [lia|done].
    + left. by rewrite blk_set_other.
  - simpl. lia.
  - intros k Hk _ Hbk. unfold file_byte. rewrite Hkeep, upd_other by auto. done.
  - intros c Hc Hcu. rewrite Hbits by lia. by destruct (c =? b).
Qed.

(** A chunk within block [i] of the file. *)
Lemma wrote_chunk V x bm i b off src ino n : 0 ≤ n < SAFE_INODES →
  inodes_ok (over ino n x) bm → blk x i = b → b ≠ 0 → length (V b) = 512%nat → (off + length src ≤ 512)%nat →
  wrote V x bm (upd V b (put off src (V b))) x bm (512 * Z.of_nat i + Z.of_nat off) src.
Proof.
  intros Hn Hino Hbi Hb HV Hoff.
  destruct (in_refs _ _ Hino n i) as [Hrange _]; [split; [done|by rewrite over_same, Hbi]|].
  rewrite over_same, Hbi in Hrange. split.
  - intros c Hc. apply upd_other. lia.
  - intros c Hc _ Hno. apply upd_other. intros ->. by apply (Hno i).
  - by destruct x.
  - done.
  - by left.
  - intros k Hk. assert (Z.to_nat (k / 512) = i) as Ei by divlia.
    assert (Z.to_nat (k mod 512) = (off + Z.to_nat (k - (512 * Z.of_nat i + Z.of_nat off)))%nat) as Em by divlia.
    unfold file_byte. rewrite Ei, Em, Hbi, upd_same. split; [done|].
    rewrite nth_put, decide_True by lia. f_equal. lia.
  - intros k Hk0 Hk Hbk. unfold file_byte. destruct (decide (Z.to_nat (k / 512) = i)) as [Ei|Ei].
    + rewrite Ei, Hbi, upd_same, nth_put, decide_False by divlia. done.
    + rewrite upd_other; [done|]. intros E. apply Ei.
      apply (in_own _ _ Hino n (Z.to_nat (k / 512)) n i); try (split; [done|]); rewrite ?over_same; congruence.
  - auto.
Qed.

(** The state in the loop of [fs_write] to inode [n], whose current value is [x]; [ino] are the
    inodes on disk. *)
Record writing (ino : Z → fs_inode_t) (n : Z) w (V : disk) (x : fs_inode_t) : Prop := {
  wt_ok : fs_ok w V;
  wt_accounted : accounted w;
  wt_inodes : inodes_ok (over ino n x) (block_bitmap w);
  wt_room : (missing x ≤ nfree (block_bitmap w))%nat
}.

Lemma writing_count ino n w V x : 0 ≤ n < SAFE_INODES → writing ino n w V x → length (i_blocks x) = 6%nat.
Proof. intros Hn Hw. pose proof (in_count _ _ (wt_inodes _ _ _ _ _ Hw) n Hn) as E. by rewrite over_same in E. Qed.

(** Blocks change, the rest of the state does not. *)
Lemma writing_core ino n w V x w' V' : writing ino n w V x → fs_ok w' V' → core w' = core w →
  writing ino n w' V' x.
Proof.
  intros [] Hok E. pose proof E as E'. injection E as _ _ _ Eb _.
  split; rewrite ?Eb; try done. by eapply accounted_core.
Qed.

Lemma core_handles w w' : core w' = core w → handles w' = handles w ∧ block_bitmap w' = block_bitmap w.
Proof. intros [= _ E1 E2 E3 E4]. unfold handles. by rewrite E1, E2, E3, E4. Qed.

(** A missing block is allocated and cleared. *)
Lemma alloc_step {A} ino n w V x i pos (e : Z → M W A) (f : Z → list Z → M W A) Q :
  0 ≤ n < SAFE_INODES → (i < 6)%nat → writing ino n w V x → blk x i = 0 →
  (∀ b w' V', writing ino n w' V' (set_blk i b x) → 12 ≤ b < count → handles w' = handles w →
     wrote V x (block_bitmap w) V' (set_blk i b x) (block_bitmap w') pos [] →
     wp (f b (replicate 512 0)) Q w') →
  wp (let! b := fs_alloc_block in
      if true && (b =? 0xFFFFFFFF) then e b
      else
        let! bb := (let! _ := fs_write_block b (replicate 512 0) in ret (replicate 512 0)) in
        f b bb) Q w.
Proof.
  intros Hn Hi Hw Hz Hf. pose proof (writing_count _ _ _ _ _ Hn Hw) as Hlen. pose proof Hw as [Hok Hac Hin Hroom].
  rewrite wp_bind. eapply wp_mono; [by apply alloc_block_ok|]. intros b w1 (Hok1 & Hac1 & Hh1 & Hal).
  pose proof (missing_pos x i ltac:(lia) Hz).
  destruct Hal as [(_ & Hno & _)|(Hb & Hu & Hbits & Hn1 & _)]; [lia|].
  destruct (Z.eqb_spec b 0xFFFFFFFF); [lia|]. cbn [andb].
  rewrite !wp_bind. eapply wp_mono; [apply write_block_ok; [done|lia|apply length_replicate]|].
  intros r w2 (-> & Hok2 & Hc2). rewrite wp_ret. destruct (core_handles _ _ Hc2) as [Hh2 Hbm2].
  apply (Hf b w2 (upd V b (replicate 512 0))); [|done|congruence|].
  - split; [done|by eapply accounted_core|..]; rewrite Hbm2.
    + by eapply inodes_ok_alloc.
    + rewrite (missing_set x i b) in Hroom by (done || lia). lia.
  - rewrite Hbm2. by eapply wrote_fresh.
Qed.

(** The file has all the blocks of a range of positions. *)
Definition has_blocks (x : fs_inode_t) (pos len : Z) : Prop :=
  ∀ k, pos ≤ k < pos + len → blk x (Z.to_nat (k / 512)) ≠ 0.

(** The result of the loop: the rest of [buffer] was written at [pos]; the inode changes only if a
    block was missing. *)
Definition loop_post (ino : Z → fs_inode_t) (n : Z) w (V : disk) (x : fs_inode_t) (pos size : Z) (rest : list Z)
    (r : fs_inode_t * Z * Z) (w' : W) : Prop :=
  ∃ V' x', r = (x', pos + Z.of_nat (length rest), size) ∧ writing ino n w' V' x' ∧ handles w' = handles w ∧
    wrote V x (block_bitmap w) V' x' (block_bitmap w') pos rest ∧
    (has_blocks x pos (Z.of_nat (length rest)) → x' = x).

Lemma loop_post_trans ino n w V x w1 V1 x1 pos size src1 src2 r w2 : 0 ≤ pos →
  handles w1 = handles w → wrote V x (block_bitmap w) V1 x1 (block_bitmap w1) pos src1 →
  (has_blocks x pos (Z.of_nat (length (src1 ++ src2))) → x1 = x) →
  loop_post ino n w1 V1 x1 (pos + Z.of_nat (length src1)) size src2 r w2 →
  loop_post ino n w V x pos size (src1 ++ src2) r w2.
Proof.
  intros Hpos Hh Hwr Hsame (V2 & x2 & -> & Hw2 & Hh2 & Hwr2 & Hsame2). exists V2, x2.
  split; [rewrite length_app; do 2 f_equal; lia|]. split; [done|]. split; [congruence|].
  split; [by eapply wrote_trans|]. intros Hall. specialize (Hsame Hall). subst x1. apply Hsame2.
  intros k Hk. apply Hall. rewrite length_app. lia.
Qed.

(** Read-modify-write of one chunk in block [i]. *)
Lemma chunk_step {A} ino n w V x i off src bb (f : list Z → M W A) Q : 0 ≤ n < SAFE_INODES →
  writing ino n w V x → blk x i ≠ 0 → (off + length src ≤ 512)%nat → length bb = 512%nat →
  (∀ w' bb', length bb' = 512%nat →
    writing ino n w' (upd V (blk x i) (put off src (V (blk x i)))) x → core w' = core w → wp (f bb') Q w') →
  wp (let! r := fs_read_block (blk x i) bb in
      let block_buffer := put off src r.2 in
      let! _ := fs_write_block (blk x i) block_buffer in f block_buffer) Q w.
Proof.
  intros Hn Hw Hb Hoff Hbb Hf.
  destruct (in_refs _ _ (wt_inodes _ _ _ _ _ Hw) n i) as [Hrange _]; [split; [done|by rewrite over_same]|].
  rewrite over_same in Hrange. pose proof Hw as [Hok _ _ _].
  rewrite wp_bind. eapply wp_mono; [apply read_block_ok; [done|lia|done]|]. intros r w1 (-> & Hok1 & Hc1).
  cbn [snd]. assert (length (put off src (V (blk x i))) = 512%nat) as Hput.
  { rewrite put_length; rewrite (fs_ok_length w V) by (done || lia); done. }
  rewrite wp_bind. eapply wp_mono; [apply write_block_ok; [done|lia|done]|]. intros r' w2 (-> & Hok2 & Hc2).
  apply Hf; [done| |congruence]. eapply writing_core; [exact Hw|done|congruence].
Qed.

Lemma loop_post_refl ino n w V x pos size : writing ino n w V x →
  loop_post ino n w V x pos size [] (x, pos, size) w.
Proof.
  intros Hw. exists V, x. cbn [length]. rewrite Z.add_0_r. split; [done|]. split; [done|]. split; [done|].
  split; [|done]. split; try (by destruct x); auto. simpl. lia.
Qed.

Lemma write_loop_ok ino n buffer size fuel : 0 ≤ n < SAFE_INODES → size = Z.of_nat (length buffer) →
  ∀ w V x pos written bb, writing ino n w V x → 0 ≤ written ≤ size → 0 ≤ pos →
  pos + (size - written) ≤ MAX_FILE → length bb = 512%nat →
  size - written ≤ 512 * Z.of_nat fuel - pos mod 512 ∨ written = size →
  wp (write_loop fuel x pos size written buffer bb)
    (loop_post ino n w V x pos size (drop (Z.to_nat written) buffer)) w.
Proof.
  intros Hn Hsize. unfold MAX_FILE. induction fuel as [|fuel IH]; intros w V x pos written bb Hw Hwr Hpos Hmax' Hbb Hfuel;
    cbn [write_loop].
  all: destruct (Z.ltb_spec written size) as [Hlt|];
    [|rewrite wp_ret, drop_ge by lia; replace written with size by lia; by apply loop_post_refl].
  { exfalso. divlia. }
  change FS_BLOCK_SIZE with 512. set (i := Z.to_nat (pos / 512)). set (chunk := Z.min _ _).
  set (off := Z.to_nat (pos mod 512)).
  assert (i < 6)%nat as Hi by (subst i; divlia).
  assert (0 < chunk ∧ chunk ≤ size - written ∧ (off + Z.to_nat chunk ≤ 512)%nat) as (Hc0 & Hc1 & Hc2)
    by (subst chunk off; divlia).
  destruct (Z.leb_spec 6 (pos / 512)); [subst i; divlia|].
  destruct (Z.ltb_spec (Z.of_nat (length buffer)) (written + chunk)); [lia|].
  set (src := take (Z.to_nat chunk) (drop (Z.to_nat written) buffer)).
  assert (length src = Z.to_nat chunk) as Hsrc by (subst src; rewrite length_take, length_drop; lia).
  assert (drop (Z.to_nat written) buffer = src ++ drop (Z.to_nat (written + chunk)) buffer) as Esplit.
  { subst src. rewrite <-(take_drop (Z.to_nat chunk) (drop (Z.to_nat written) buffer)) at 1.
    rewrite drop_drop. do 2 f_equal. lia. }
  assert (∀ w1 V1 x1 bb1, writing ino n w1 V1 x1 → blk x1 i ≠ 0 → length bb1 = 512%nat →
    wp (let! r := fs_read_block (blk x1 i) bb1 in
        let block_buffer := put off src r.2 in
        let! _ := fs_write_block (blk x1 i) block_buffer in
        write_loop fuel x1 (u32 (pos + chunk)) size (written + chunk) buffer block_buffer)
      (loop_post ino n w1 V1 x1 pos size (drop (Z.to_nat written) buffer)) w1) as Hchunk.
  { intros w1 V1 x1 bb1 Hw1 Hb1 Hbb1. eapply chunk_step; [done|done|done|lia|done|].
    intros w2 bb2 Hbb2 Hw2 Hc. rewrite (u32_small (pos + chunk)) by lia.
    eapply wp_mono; [apply IH; [exact Hw2|lia|lia|lia|done|]|].
    { destruct (decide (written + chunk = size)); [by right|left]. subst chunk. divlia. }
    intros r w3 Hpost. rewrite Esplit.
    destruct (core_handles _ _ Hc) as [Hh Hbm].
    eapply (loop_post_trans _ _ _ _ _ w2); [done|done| |done|by replace (pos + Z.of_nat (length src)) with (pos + chunk) by lia].
    rewrite Hbm. replace pos with (512 * Z.of_nat i + Z.of_nat off) by (subst i off; divlia).
    eapply wrote_chunk; [done|apply Hw1|done|done| |lia].
    destruct (in_refs _ _ (wt_inodes _ _ _ _ _ Hw1) n i) as [Hrange _]; [split; [done|by rewrite over_same]|].
    rewrite over_same in Hrange. eapply fs_ok_length; [apply Hw1|lia]. }
  pose proof (writing_count _ _ _ _ _ Hn Hw) as Hlen.
  destruct (Z.eqb_spec (blk x i) 0) as [Hz|Hz].
  - apply (alloc_step ino n w V x i pos); [done..|]. intros b w1 V1 Hw1 Hb Hh Hwr1.
    assert (blk (set_blk i b x) i = b) as Eb by (apply blk_set_same; lia).
    specialize (Hchunk w1 V1 (set_blk i b x) (replicate 512 0) Hw1). rewrite Eb in Hchunk.
    eapply wp_mono; [apply Hchunk; [lia|apply length_replicate]|]. intros r w2 Hpost.
    apply (loop_post_trans ino n w V x w1 V1 (set_blk i b x) pos size [] (drop (Z.to_nat written) buffer) r w2);
      [done|done|done| |].
    { intros Hall. exfalso. apply (Hall pos); [rewrite app_nil_l, length_drop; lia|done]. }
    cbn [length]. by rewrite Z.add_0_r.
  - cbn [andb]. rewrite wp_bind, wp_ret, wp_bind, wp_ret, set_blk_id by lia. by apply Hchunk.
Qed.

(** * Reading from a file *)
Lemma slice_bytes V x pos c : 0 ≤ pos → 0 ≤ c → pos mod 512 + c ≤ 512 →
  length (V (blk x (Z.to_nat (pos / 512)))) = 512%nat →
  take (Z.to_nat c) (drop (Z.to_nat (pos mod 512)) (V (blk x (Z.to_nat (pos / 512))))) =
  file_byte V x <$> seqZ pos c.
Proof.
  intros Hpos Hc Hoff HV. apply list_eq_same_length with (n := Z.to_nat c).
  - by rewrite length_fmap, length_seqZ.
  - rewrite length_take, length_drop. divlia.
  - intros j y z Hj. rewrite lookup_take_lt, lookup_drop, list_lookup_fmap, lookup_seqZ_lt by lia.
    cbn. intros Hy [= <-]. unfold file_byte.
    assert ((pos + Z.of_nat j) / 512 = pos / 512) as -> by divlia.
    rewrite nth_lookup. replace (Z.to_nat ((pos + Z.of_nat j) mod 512)) with (Z.to_nat (pos mod 512) + j)%nat by divlia.
    by rewrite Hy.
Qed.

Lemma read_loop_ok n fuel : 0 ≤ n < SAFE_INODES →
  ∀ w V pos total out bb, fs_ok w V → inodes_ok (inode_in V) (block_bitmap w) →
  let x := inode_in V n in let left := total - Z.of_nat (length out) in
  0 ≤ pos → 0 ≤ left → pos + left ≤ MAX_FILE ∨ left = 0 → has_blocks x pos left → length bb = 512%nat →
  left ≤ 512 * Z.of_nat fuel - pos mod 512 ∨ left = 0 →
  wp (read_loop fuel x pos total out bb) (λ r w', r = (pos + left, out ++ (file_byte V x <$> seqZ pos left)) ∧
    fs_ok w' V ∧ core w' = core w) w.
Proof.
  intros Hn. unfold MAX_FILE. induction fuel as [|fuel IH]; intros w V pos total out bb Hok Hin Hpos Hleft Hmax' Hhas Hbb Hfuel;
    set (x := inode_in V n) in *; set (left := total - Z.of_nat (length out)) in *; cbn [read_loop].
  all: destruct (Z.ltb_spec (Z.of_nat (length out)) total);
    [|rewrite wp_ret; replace left with 0 by lia; rewrite Z.add_0_r; cbn; by rewrite app_nil_r].
  { exfalso. subst left. divlia. }
  change FS_BLOCK_SIZE with 512. set (chunk := Z.min _ _).
  assert (0 < chunk ≤ left ∧ pos mod 512 + chunk ≤ 512) as [Hc Hc2] by (subst chunk left; divlia).
  destruct (Z.leb_spec 6 (pos / 512)); [divlia|]. cbn [orb].
  assert (blk x (Z.to_nat (pos / 512)) ≠ 0) as Hb by (apply Hhas; lia).
  destruct (Z.eqb_spec (blk x (Z.to_nat (pos / 512))) 0); [done|].
  destruct (in_refs _ _ Hin n (Z.to_nat (pos / 512))) as [Hrange _]; [done|]. fold x in Hrange.
  rewrite wp_bind. eapply wp_mono; [apply read_block_ok; [done|lia|done]|]. intros r w1 (-> & Hok1 & Hc1).
  cbn [snd]. assert (length (V (blk x (Z.to_nat (pos / 512)))) = 512%nat) as HV by (eapply fs_ok_length; [done|lia]).
  rewrite slice_bytes by (done || lia). rewrite (u32_small (pos + chunk)) by lia.
  destruct (core_handles _ _ Hc1) as [_ Hbm].
  set (out' := out ++ _). assert (Z.of_nat (length out') = Z.of_nat (length out) + chunk) as Hout.
  { subst out'. rewrite length_app, length_fmap, length_seqZ. lia. }
  eapply wp_mono; [apply IH; [done|by rewrite Hbm|lia|lia|lia| |done|]|].
  - intros k Hk. apply Hhas. lia.
  - subst left. destruct (decide (total - Z.of_nat (length out') = 0)); [by right|].
    destruct Hfuel; [left|lia]. subst chunk. divlia.
  - intros r w2 (-> & Hok2 & Hc2'). split; [|split; [done|congruence]].
    rewrite Hout. replace (total - (Z.of_nat (length out) + chunk)) with (left - chunk) by lia.
    f_equal; [lia|]. subst out'. rewrite <-app_assoc. f_equal.
    replace left with (chunk + (left - chunk)) at 2 by lia. rewrite seqZ_app by lia. by rewrite fmap_app.
Qed.

(** * Well-formed file systems *)
Record fs_wf w (V : disk) : Prop := {
  fw_ok : fs_ok w V;
  fw_accounted : accounted w;
  fw_table : table_ok V;
  fw_inodes : inodes_ok (inode_in V) (block_bitmap w);
  fw_files : length (files w) = Z.to_nat FS_MAX_OPEN_FILES;
  fw_super : V 0 = superblock_bytes (format_superblock count);
  fw_behind : length (w_behind w) = 384%nat
}.
(** A file without holes whose missing blocks are available. *)
Record file_ok w (x : fs_inode_t) : Prop := {
  fi_size : 0 ≤ i_size x ≤ MAX_FILE;
  fi_blocks : has_blocks x 0 (i_size x);
  fi_room : (missing x ≤ nfree (block_bitmap w))%nat
}.
(** Descriptor [fd] refers to the handle [f]. *)
Definition opened w (fd : Z) (f : fs_file_handle_t) : Prop :=
  0 ≤ fd < FS_MAX_OPEN_FILES ∧ files w !! Z.to_nat fd = Some f ∧ f_in_use f = true ∧ 0 ≤ f_inode f < SAFE_INODES.

Lemma wp_file w fd f Q : opened w fd f → Q f w → wp (file fd) Q w.
Proof.
  intros (Hfd & Hf & _) HQ. unfold file. rewrite wp_bind, wp_gets. by eapply wp_arr_get; [lia|..].
Qed.
Lemma wp_bad_fd w fd f Q : opened w fd f → Q false w → wp (bad_fd fd) Q w.
Proof.
  intros (Hfd & Hf & Hu & _) HQ. unfold bad_fd, FS_MAX_OPEN_FILES in *.
  destruct (Z.ltb_spec fd 0); [lia|]. destruct (Z.leb_spec 8 fd); [lia|]. cbn [orb].
  rewrite wp_bind, wp_gets, wp_bind. eapply wp_arr_get; [lia|done|]. rewrite wp_ret, Hu. exact HQ.
Qed.
Lemma wp_set_file w fd f g Q : opened w fd f →
  Q tt (w <| files := <[Z.to_nat fd := g f]> (files w) |>) → wp (set_file fd g) Q w.
Proof.
  intros (Hfd & Hf & _) HQ. unfold set_file. rewrite wp_bind, wp_gets, wp_bind.
  eapply wp_arr_get; [lia|done|]. by rewrite wp_modify.
Qed.

Lemma fs_ok_kernel w V k : fs_ok w V → calm k → fs_ok (w <| w_kernel := k |>) V.
Proof. by intros [] ?. Qed.
Lemma wp_lock w V m Q : fs_ok w V → fs_mutex m →
  (∀ e k, calm k → Q e (w <| w_kernel := k |>)) → wp (svc_mutex_lock m 1000) Q w.
Proof.
  intros Hok Hm HQ. unfold svc_mutex_lock. rewrite wp_zoom.
  destruct (calm_lock m _ Hm (fo_calm _ _ Hok)) as (e & k & E & Hk). eapply wp_intro; [exact E|]. by apply HQ.
Qed.
Lemma wp_unlock w V m Q : fs_ok w V → fs_mutex m →
  (∀ e k, calm k → Q e (w <| w_kernel := k |>)) → wp (svc_mutex_unlock m) Q w.
Proof.
  intros Hok Hm HQ. unfold svc_mutex_unlock. rewrite wp_zoom.
  destruct (calm_unlock m _ Hm (fo_calm _ _ Hok)) as (e & k & E & Hk). eapply wp_intro; [exact E|]. by apply HQ.
Qed.
Lemma opened_mutex w fd f : opened w fd f → fs_mutex (file_lock fd).
Proof. intros (Hfd & _). right. by exists fd. Qed.

(** Another file keeps its inode and its bytes. *)
Definition others_same (n : Z) (V V' : disk) : Prop := ∀ m, 0 ≤ m < SAFE_INODES → m ≠ n →
  inode_in V' m = inode_in V m ∧
  ∀ k, 0 ≤ k → blk (inode_in V m) (Z.to_nat (k / 512)) ≠ 0 →
    file_byte V' (inode_in V m) k = file_byte V (inode_in V m) k.

Lemma inode_in_table V V' n : 0 ≤ n < SAFE_INODES → (∀ b, 0 ≤ b < 12 → V' b = V b) →
  inode_in V' n = inode_in V n.
Proof. intros Hn E. destruct (inode_place n Hn) as (Hp & _). unfold inode_in. by rewrite E by lia. Qed.

Lemma inode_ok_blocks x bm ino n : 0 ≤ n < SAFE_INODES → inode_ok x →
  (∀ x', x' = x <| i_blocks := i_blocks x' |> → inodes_ok (over ino n x') bm → inode_ok x').
Proof.
  intros Hn [] x' Hx' [Hc Hr _]. specialize (Hc n Hn). rewrite over_same in Hc.
  assert (Forall (λ b, 0 ≤ b < 2 ^ 32) (i_blocks x')) as Hall.
  { apply Forall_lookup. intros i b Hb. assert (blk x' i = b) as Eb by (unfold blk; by rewrite nth_lookup, Hb).
    destruct (decide (b = 0)); [lia|]. destruct (Hr n i) as [Hrange _]; [split; [done|by rewrite over_same, Eb]|].
    rewrite over_same, Eb in Hrange. unfold FS_MAX_BLOCKS in Hmax. lia. }
  rewrite Hx'. by split.
Qed.

(** The state after the loop of [fs_write], seen from the other files. *)
Lemma wrote_others w V n V' x' bm' pos src : fs_wf w V → 0 ≤ n < SAFE_INODES →
  wrote V (inode_in V n) (block_bitmap w) V' x' bm' pos src → others_same n V V'.
Proof.
  intros [_ _ _ Hin _ _ _] Hn [T O _ _ _ _ _ _] m Hm Hne. split; [by apply inode_in_table|].
  intros k Hk Hb. unfold file_byte. destruct (in_refs _ _ Hin m (Z.to_nat (k / 512))) as [Hrange Hu]; [done|].
  rewrite O; [done|done|done|]. intros i Ei.
  destruct (in_own _ _ Hin n i m (Z.to_nat (k / 512))) as [E _]; [split; [done|congruence]|done|done|congruence].
Qed.

Lemma writing_start w V n : fs_wf w V → 0 ≤ n < SAFE_INODES → file_ok w (inode_in V n) →
  writing (inode_in V) n w V (inode_in V n).
Proof.
  intros [] Hn []. split; [done..| |done]. eapply inodes_ok_ext; [done|]. intros m Hm.
  unfold over. by destruct (Z.eqb_spec m n) as [->|].
Qed.

(** The bytes of the file after [src] was written at [pos], at most at its end. *)
Definition splice (pos : Z) (src old : list Z) : list Z :=
  take (Z.to_nat pos) old ++ src ++ drop (Z.to_nat pos + length src) old.

Lemma file_bytes_length V x : length (file_bytes V x) = Z.to_nat (i_size x).
Proof. unfold file_bytes. by rewrite length_fmap, length_seqZ. Qed.

Lemma file_bytes_lookup V x k : (k < Z.to_nat (i_size x))%nat → file_bytes V x !! k = Some (file_byte V x (Z.of_nat k)).
Proof. intros. unfold file_bytes. rewrite list_lookup_fmap, lookup_seqZ_lt by lia. done. Qed.

Lemma wrote_bytes V x bm V' x' bm' y pos src : 0 ≤ pos ≤ i_size x → has_blocks x 0 (i_size x) →
  wrote V x bm V' x' bm' pos src → i_blocks y = i_blocks x' →
  i_size y = Z.max (i_size x) (pos + Z.of_nat (length src)) →
  file_bytes V' y = splice pos src (file_bytes V x) ∧ has_blocks y 0 (i_size y).
Proof.
  intros Hpos Hhas [_ _ _ Hkeep _ I Q _] Eb Es.
  assert (∀ k, file_byte V' y k = file_byte V' x' k) as Ey by (intros k; unfold file_byte, blk; by rewrite Eb).
  split.
  - unfold splice. apply list_eq_same_length with (n := Z.to_nat (i_size y)).
    + rewrite !length_app, length_take, length_drop, file_bytes_length. lia.
    + apply file_bytes_length.
    + intros k a b Hk. rewrite file_bytes_lookup by done. intros [= <-]. rewrite Ey.
      destruct (decide (k < Z.to_nat pos)%nat).
      { rewrite lookup_app_l by (rewrite length_take, file_bytes_length; lia).
        rewrite lookup_take_lt, file_bytes_lookup by lia. intros [= <-]. apply Q; [lia|lia|apply Hhas; lia]. }
      rewrite lookup_app_r, length_take_le by (rewrite ?length_take, file_bytes_length; lia).
      destruct (decide (k < Z.to_nat pos + length src)%nat).
      { rewrite lookup_app_l by lia. intros Hb. destruct (I (Z.of_nat k)) as [_ E]; [lia|].
        rewrite E, nth_lookup. replace (Z.to_nat (Z.of_nat k - pos)) with (k - Z.to_nat pos)%nat by lia. by rewrite Hb. }
      rewrite lookup_app_r, lookup_drop by lia.
      replace (Z.to_nat pos + length src + (k - Z.to_nat pos - length src))%nat with k by lia.
      rewrite file_bytes_lookup by lia. intros [= <-]. apply Q; [lia|lia|apply Hhas; lia].
  - intros k Hk. unfold blk. rewrite Eb. fold (blk x' (Z.to_nat (k / 512))).
    destruct (decide (pos ≤ k < pos + Z.of_nat (length src))) as [Hr|Hr]; [by apply I|].
    assert (blk x (Z.to_nat (k / 512)) ≠ 0) by (apply Hhas; lia). by rewrite Hkeep.
Qed.

(** ** The operations on an open file *)
Lemma opened_core w w' fd f : core w' = core w → opened w fd f → opened w' fd f.
Proof. intros [= _ E _ _ _]. unfold opened. by rewrite E. Qed.

Lemma fs_wf_handle w V w' fd f : fs_wf w V → fs_ok w' V → core w' = core w →
  fs_wf (w' <| files := <[Z.to_nat fd := f]> (files w') |>) V.
Proof.
  intros [Hok Hac Ht Hin Hf Hs Hb] Hok' Hc. pose proof (accounted_core _ _ Hc Hac) as [].
  injection Hc as Es Ef _ Eb Eh. split; try done; cbn; [by destruct Hok'|by rewrite Eb| |by rewrite Eh].
  by rewrite length_insert, Ef.
Qed.

Lemma fs_wf_kernel w V k : fs_wf w V → calm k → fs_wf (w <| w_kernel := k |>) V.
Proof. intros [? [] ? ? ? ? ?] ?. split; try done. by apply fs_ok_kernel. Qed.

(** [fs_read]: the bytes from the position on, as many as there are. *)
Lemma fs_read_ok w V fd f size : fs_wf w V → opened w fd f → file_ok w (inode_in V (f_inode f)) →
  Z.land (f_flags f) FS_O_RDONLY ≠ 0 → 0 ≤ f_position f → 0 ≤ size →
  let data := take (Z.to_nat size) (drop (Z.to_nat (f_position f)) (file_bytes V (inode_in V (f_inode f)))) in
  wp (fs_read uninit_block uninit_inode fd size) (λ r w',
    r = (Z.of_nat (length data), data) ∧ fs_wf w' V ∧ block_bitmap w' = block_bitmap w ∧
    files w' = <[Z.to_nat fd := f <| f_position ::= λ p, p + Z.of_nat (length data) |>]> (files w)) w.
Proof.
  intros Hwf Hop [Hsz Hhas _] Hfl Hpos Hsize. set (x := inode_in V (f_inode f)) in *. intros data.
  pose proof Hop as (_ & _ & _ & Hn). unfold fs_read.
  pose proof (opened_mutex _ _ _ Hop) as Hmx. rewrite wp_bind. eapply wp_bad_fd; [done|]. rewrite wp_bind. eapply wp_file; [done|].
  destruct (Z.eqb_spec (Z.land (f_flags f) FS_O_RDONLY) 0) as [|_]; [done|].
  rewrite wp_bind. eapply wp_lock; [apply Hwf|is_fs_mutex|]. intros e k Hk. set (w1 := w <| w_kernel := k |>).
  assert (fs_ok w1 V) as Hok1 by (apply fs_ok_kernel; [apply Hwf|done]).
  assert (core w1 = core w) as Hc1 by done. clearbody w1.
  rewrite wp_bind. eapply wp_file; [by eapply opened_core|].
  rewrite wp_bind. eapply wp_mono; [apply read_inode_ok; [done| |done]|].
  { injection Hc1 as -> _ _ _ _. apply Hwf. }
  intros r w2 (-> & Hok2 & Hc2). cbn [snd]. fold x. rewrite wp_bind.
  eapply wp_file; [apply (opened_core w); [by rewrite Hc2|done]|]. cbv zeta.
  set (remaining := if f_position f <? i_size x then _ else 0).
  set (to_read := if size <? remaining then size else remaining).
  assert (to_read = Z.of_nat (length data)) as Elen.
  { subst data to_read remaining. rewrite length_take, length_drop, file_bytes_length.
    destruct (Z.ltb_spec (f_position f) (i_size x)); case_match; lia. }
  assert (data = file_byte V x <$> seqZ (f_position f) to_read) as Edata.
  { apply list_eq_same_length with (n := length data);
      [rewrite length_fmap, length_seqZ; lia|done|]. intros j a b Hj. unfold data at 1.
    subst data. rewrite length_take, length_drop, file_bytes_length in Hj, Elen.
    rewrite lookup_take_lt, lookup_drop, file_bytes_lookup, list_lookup_fmap, lookup_seqZ_lt by lia.
    cbn. intros [= <-] [= <-]. f_equal. lia. }
  assert (0 ≤ to_read ∧ (to_read = 0 ∨ f_position f + to_read ≤ i_size x)) as [H0 H1].
  { subst data. rewrite length_take, length_drop, file_bytes_length in Elen. lia. }
  rewrite wp_bind. assert (core w2 = core w) as Hc by (by rewrite Hc2, Hc1).
  eapply wp_mono; [apply read_loop_ok; [done|done| |done|..]|].
  - injection Hc as _ _ _ -> _. apply Hwf.
  - cbn [length]. lia.
  - cbn [length]. lia.
  - cbn [length]. intros j Hj. apply Hhas. lia.
  - done.
  - cbn [length]. left. unfold rw_fuel, MAX_FILE in *. pose proof (Z.mod_pos_bound (f_position f) 512). lia.
  - intros r w3 (-> & Hok3 & Hc3). cbn [length fst snd app]. rewrite Z.sub_0_r. fold x. rewrite <-Edata, <-Elen.
    assert (core w3 = core w) as Hcw by (by rewrite Hc3).
    rewrite wp_bind. eapply wp_set_file; [by apply (opened_core w)|].
    pose proof (fs_wf_handle w V w3 fd (f <| f_position := f_position f + to_read |>) Hwf Hok3 Hcw) as Hwf3.
    rewrite wp_bind. eapply wp_unlock; [apply Hwf3|is_fs_mutex|]. intros e' k' Hk'. rewrite wp_ret, i32_small by (unfold MAX_FILE in Hsz; lia).
    split; [done|]. split; [by apply fs_wf_kernel|]. injection Hcw as _ Ef _ Eb _. cbn. by rewrite Ef, Eb.
Qed.

(** The file system after the loop, with the inode [y] on disk. *)
Lemma wrote_wf w V n w1 V1 x1 pos src y : fs_wf w V → 0 ≤ n < SAFE_INODES →
  writing (inode_in V) n w1 V1 x1 → handles w1 = handles w →
  wrote V (inode_in V n) (block_bitmap w) V1 x1 (block_bitmap w1) pos src →
  inode_ok y → i_blocks y = i_blocks x1 →
  table_ok (put_inode V1 n y) ∧ inodes_ok (inode_in (put_inode V1 n y)) (block_bitmap w1) ∧
  inode_in (put_inode V1 n y) n = y ∧ others_same n V (put_inode V1 n y) ∧
  (∀ x k, 0 ≤ k → x = y ∨ x = inode_in V n → 12 ≤ blk x (Z.to_nat (k / 512)) →
     file_byte (put_inode V1 n y) x k = file_byte V1 x k).
Proof.
  intros Hwf Hn [Hok1 Hac1 Hin1 _] Hh Hwr Hy Eb. pose proof Hwr as [T _ _ _ _ _ _ _].
  assert (table_ok V1) as Ht by (intros b Hb; rewrite T by lia; by apply (fw_table _ _ Hwf)).
  destruct (inode_place n Hn) as (Hp & _).
  assert (length (V1 (2 + n / 12)) = 512%nat) as HV by (by apply Ht).
  assert (inode_in (put_inode V1 n y) n = y) as Ey by (by apply put_inode_same).
  assert (∀ m, 0 ≤ m < SAFE_INODES → m ≠ n → inode_in (put_inode V1 n y) m = inode_in V m) as Eo.
  { intros m Hm Hne. rewrite put_inode_other by (done || apply Hy). by apply inode_in_table. }
  split; [by apply table_put; [..|apply Hy]|]. split; [|split; [done|split]].
  - eapply inodes_ok_ext; [exact Hin1|]. intros m Hm. unfold over.
    destruct (Z.eqb_spec m n) as [->|Hne]; [by rewrite Ey, Eb|by rewrite Eo].
  - intros m Hm Hne. split; [by apply Eo|]. intros k Hk Hb. unfold file_byte.
    destruct (in_refs _ _ (fw_inodes _ _ Hwf) m (Z.to_nat (k / 512))) as [Hrange _]; [done|].
    rewrite put_inode_outside by (done || lia).
    by apply (wrote_others w V n V1 x1 (block_bitmap w1) pos src Hwf Hn Hwr m Hm Hne).
  - intros x k Hk _ Hb. unfold file_byte. by rewrite put_inode_outside by (done || lia).
Qed.

(** The outcome of [fs_write] on disk. *)
Record file_written w V (n : Z) (pos : Z) (src : list Z) w' V' : Prop := {
  fwr_ok : fs_ok w' V';
  fwr_accounted : accounted w';
  fwr_table : table_ok V';
  fwr_inodes : inodes_ok (inode_in V') (block_bitmap w');
  fwr_file : file_ok w' (inode_in V' n);
  fwr_bytes : file_bytes V' (inode_in V' n) = splice pos src (file_bytes V (inode_in V n));
  fwr_others : others_same n V V';
  fwr_type : i_type (inode_in V' n) = i_type (inode_in V n);
  fwr_super : V' 0 = V 0;
  fwr_behind : w_behind w' = w_behind w
}.

(** The update of the inode at the end of [fs_write]. *)
Lemma update_inode_ok w V n fd f w1 V1 x1 src : fs_wf w V → opened w fd f → f_inode f = n →
  f_size f = i_size (inode_in V n) →
  file_ok w (inode_in V n) → 0 ≤ f_position f ≤ i_size (inode_in V n) →
  f_position f + Z.of_nat (length src) ≤ MAX_FILE →
  writing (inode_in V) n w1 V1 x1 → handles w1 = handles w →
  wrote V (inode_in V n) (block_bitmap w) V1 x1 (block_bitmap w1) (f_position f) src →
  (has_blocks (inode_in V n) (f_position f) (Z.of_nat (length src)) → x1 = inode_in V n) →
  let pos := f_position f + Z.of_nat (length src) in
  wp (when (i_size x1 <? pos)
    (let! now := svc_get_tick_count in
     let inode := x1 <| i_size := pos |> <| i_mtime := now |> in
     let! f := file fd in
     let! _ := fs_write_inode uninit_block (f_inode f) inode in
     set_file fd (λ f, f <| f_size := i_size inode |>)))
  (λ _ w', ∃ V', file_written w V n (f_position f) src w' V' ∧
     files w' = <[Z.to_nat fd := f <| f_size := i_size (inode_in V' n) |>]> (files w)) w1.
Proof.
  intros Hwf Hop En Efs [Hsz Hhas Hroom] Hpos Hmax' Hw1 Hh Hwr Hsame pos. set (x := inode_in V n) in *.
  pose proof Hop as (Hfd & Hf & _ & Hn). rewrite En in Hn.
  assert (inode_ok x) as Hx by (by apply inode_in_ok; [apply Hwf|]).
  assert (inode_ok x1) as Hx1 by (eapply (inode_ok_blocks x); [done|done|by destruct Hwr|apply Hw1]).
  assert (i_size x1 = i_size x) as Es by (destruct Hwr as [_ _ -> _ _ _ _ _]; done).
  pose proof Hh as Hh'. injection Hh' as Ef Ed Ebh.
  assert (opened w1 fd f) as Hop1 by (unfold opened; rewrite Ef; done).
  rewrite Es, wp_when. destruct (Z.ltb_spec (i_size x) pos).
  - rewrite wp_bind. unfold svc_get_tick_count. rewrite wp_gets. cbv zeta.
    pose proof (calm_tick _ (fo_calm _ _ (wt_ok _ _ _ _ _ Hw1))) as Hnow.
    set (y := x1 <| i_size := pos |> <| i_mtime := _ |>).
    assert (inode_ok y) as Hy by (destruct Hx1; split; cbn; unfold pos, MAX_FILE in *; done || lia).
    rewrite wp_bind. eapply wp_file; [done|]. rewrite En, wp_bind.
    eapply wp_mono; [apply write_inode_ok; [apply Hw1|apply Hw1|done|apply Hy]|].
    intros r w2 (-> & Hok2 & Hc2). destruct (core_handles _ _ Hc2) as [_ Hbm2].
    eapply wp_set_file; [by apply (opened_core w1)|].
    destruct (wrote_wf w V n w1 V1 x1 (f_position f) src y) as (Ht & Hin & Ey & Ho & Hby); [done..|].
    destruct (wrote_bytes V x (block_bitmap w) V1 x1 (block_bitmap w1) y (f_position f) src) as [Hbytes Hhas'];
      [done..|change (pos = Z.max (i_size x) pos); lia|].
    set (w3 := w2 <| files := _ |>). assert (fs_ok w3 (put_inode V1 n y)) as Hok3 by (by destruct Hok2).
    assert (accounted w3) as Hac3.
    { destruct (accounted_core _ _ Hc2 (wt_accounted _ _ _ _ _ Hw1)). by split. }
    assert (block_bitmap w3 = block_bitmap w1) as Hbm3 by done.
    exists (put_inode V1 n y). rewrite Ey. split; [|cbn; injection Hc2 as _ -> _ _ _; by rewrite Ef].
    assert (w_behind w3 = w_behind w) as Hbh3 by (injection Hc2 as _ _ _ _ E; cbn; congruence).
    clearbody w3. split; rewrite ?Ey, ?Hbm3; [done|done|done|done| | |done| | |done].
    + split; [change (0 ≤ pos ≤ MAX_FILE); unfold pos, MAX_FILE in *; lia|done|]. rewrite Hbm3. apply Hw1.
    + fold x. rewrite <-Hbytes. unfold file_bytes. apply list_fmap_ext. intros j k' Hk'.
      apply lookup_seqZ in Hk' as [-> Hk']. apply Hby; [lia|by left|].
      specialize (Hhas' (0 + Z.of_nat j) ltac:(lia)).
      destruct (in_refs _ _ (wt_inodes _ _ _ _ _ Hw1) n (Z.to_nat ((0 + Z.of_nat j) / 512))) as [Hr _];
        [split; [done|by rewrite over_same]|]. rewrite over_same in Hr. apply Hr.
    + change (i_type x1 = i_type x). by destruct Hwr as [_ _ -> _ _ _ _ _].
    + rewrite put_inode_outside by (done || lia). apply Hwr. lia.
  - assert (x1 = x) as -> by (apply Hsame; intros k Hk; apply Hhas; unfold pos in *; lia).
    destruct (wrote_bytes V x (block_bitmap w) V1 x (block_bitmap w1) x (f_position f) src) as [Hbytes Hhas'];
      [done..|unfold pos in *; lia|].
    assert (inode_in V1 n = x) as Ex by (apply inode_in_table; [done|apply Hwr]).
    exists V1. rewrite Ex. split.
    + split; rewrite ?Ex; try done; try apply Hw1.
      * intros b Hb. rewrite (wr_table _ _ _ _ _ _ _ _ Hwr) by lia. by apply (fw_table _ _ Hwf).
      * eapply inodes_ok_ext; [apply (wt_inodes _ _ _ _ _ Hw1)|]. intros m Hm. unfold over.
        rewrite (inode_in_table V V1) by (done || apply Hwr). by destruct (Z.eqb_spec m n) as [->|].
      * split; [done|done|apply Hw1].
      * by eapply wrote_others.
      * apply Hwr. lia.
    + rewrite Ef. symmetry. apply list_insert_id. rewrite Hf. f_equal. destruct f. cbn in *. by rewrite Efs.
Qed.

(** [fs_write]: the bytes of the buffer at the position, all of them; no other file changes. *)
Lemma fs_write_ok w V fd f src : fs_wf w V → opened w fd f → file_ok w (inode_in V (f_inode f)) →
  Z.land (f_flags f) FS_O_WRONLY ≠ 0 → 0 ≤ f_position f ≤ i_size (inode_in V (f_inode f)) →
  f_size f = i_size (inode_in V (f_inode f)) →
  f_position f + Z.of_nat (length src) ≤ MAX_FILE →
  wp (fs_write uninit_block uninit_inode fd src (Z.of_nat (length src))) (λ r w', ∃ V',
    r = Z.of_nat (length src) ∧ fs_wf w' V' ∧ file_ok w' (inode_in V' (f_inode f)) ∧
    file_bytes V' (inode_in V' (f_inode f)) = splice (f_position f) src (file_bytes V (inode_in V (f_inode f))) ∧
    others_same (f_inode f) V V' ∧ i_type (inode_in V' (f_inode f)) = i_type (inode_in V (f_inode f)) ∧
    files w' = <[Z.to_nat fd := f <| f_position ::= λ p, p + Z.of_nat (length src) |>
                                  <| f_size := i_size (inode_in V' (f_inode f)) |>]> (files w)) w.
Proof.
  intros Hwf Hop Hfile Hfl Hpos Hfs Hmax'. remember (f_inode f) as n eqn:En. symmetry in En.
  pose proof Hop as (Hfd & Hf & _ & Hn). rewrite En in Hn. unfold fs_write.
  pose proof (opened_mutex _ _ _ Hop) as Hmx. rewrite wp_bind. eapply wp_bad_fd; [done|]. rewrite wp_bind. eapply wp_file; [done|].
  destruct (Z.eqb_spec (Z.land (f_flags f) FS_O_WRONLY) 0) as [|_]; [done|].
  rewrite wp_bind. eapply wp_lock; [apply Hwf|is_fs_mutex|]. intros e k Hk. set (w1 := w <| w_kernel := k |>).
  assert (fs_wf w1 V) as Hwf1 by (by apply fs_wf_kernel).
  assert (core w1 = core w) as Hc1 by done. clearbody w1.
  rewrite wp_bind. eapply wp_file; [by apply (opened_core w)|]. rewrite En.
  rewrite wp_bind. eapply wp_mono; [apply read_inode_ok; [apply Hwf1|apply Hwf1|done]|].
  intros r w2 (-> & Hok2 & Hc2). cbn [snd].
  assert (core w2 = core w) as Hc by (by rewrite Hc2). clear Hc1 Hc2 Hwf1 w1.
  destruct (core_handles _ _ Hc) as [Hh2 Hbm2].
  rewrite wp_bind. eapply wp_file; [by apply (opened_core w)|].
  rewrite wp_bind. eapply wp_mono; [apply (write_loop_ok (inode_in V) n); [done|done| |lia|lia|lia|done|]|].
  { eapply writing_core; [by apply writing_start|done|done]. }
  { left. unfold rw_fuel, MAX_FILE in *. pose proof (Z.mod_pos_bound (f_position f) 512). lia. }
  intros r w3 (V3 & x3 & -> & Hw3 & Hh3 & Hwr & Hsame). change (Z.to_nat 0) with 0%nat in *. rewrite drop_0 in *.
  rewrite Hbm2 in Hwr. rewrite wp_bind.
  eapply wp_mono; [apply (update_inode_ok w V n fd f w3 V3 x3 src); (done || congruence)|].
  intros _ w4 (V4 & [] & Ef4). rewrite wp_bind. eapply wp_set_file.
  { split; [done|]. rewrite Ef4. split; [apply list_lookup_insert_eq; by eapply lookup_lt_Some|].
    destruct Hop as (_ & _ & ? & _). split; [done|]. cbn. by rewrite En. }
  rewrite wp_bind. set (w5 := w4 <| files := _ |>).
  assert (fs_ok w5 V4) as Hok5 by (by destruct fwr_ok0).
  eapply wp_unlock; [exact Hok5|is_fs_mutex|]. intros e' k' Hk'. rewrite wp_ret. exists V4.
  assert (fs_wf w5 V4) as Hwf5.
  { split; [done|by destruct fwr_accounted0|done|done| |by rewrite fwr_super0; apply Hwf|].
    - cbn. rewrite length_insert, Ef4, length_insert. apply Hwf.
    - cbn. rewrite fwr_behind0. apply Hwf. }
  split; [apply i32_small; unfold MAX_FILE in *; lia|]. split; [by apply fs_wf_kernel|].
  split; [by destruct fwr_file0|]. split; [done|]. split; [done|]. split; [done|].
  cbn. by rewrite Ef4, list_insert_insert_eq.
Qed.
End layers.
