(* ===== verification/FsTheorems.v ===== *)
(** FsTheorems: what the file system of [src/filesystem.c] promises.

    An open file is a byte array with a cursor; reads, writes and seeks on a descriptor behave like
    the operations on that array and leave every other file alone. *)
From Stdlib Require Import ZArith Lia.
From stdpp Require Import base numbers list sets.
From S2P Require Import Prelude Types Bytes Ramdisk Filesystem FsLayers.

(** * Files as byte arrays *)
Record afile := AFile { a_bytes : list Z; a_pos : Z }.
Inductive file_op :=
| Read (size : Z)
| Write (src : list Z)
| Seek (offset whence : Z).
Inductive file_res :=
| RData (n : Z) (data : list Z)
| RInt (n : Z).

(** The target of a seek. *)
Definition seek_target (offset whence : Z) (a : afile) : option Z :=
  if whence =? FS_SEEK_SET then Some offset
  else if whence =? FS_SEEK_CUR then Some (a_pos a + offset)
  else if whence =? FS_SEEK_END then Some (Z.of_nat (length (a_bytes a)) + offset)
  else None.

(** One operation; [None]: the promise does not cover it (a write that leaves a hole or exceeds the
    six blocks of a file, an offset that is not an [int32_t]). *)
Definition file_step (op : file_op) (a : afile) : option (file_res * afile) :=
  match op with
  | Read size =>
      if 0 <=? size then
        let data := take (Z.to_nat size) (drop (Z.to_nat (a_pos a)) (a_bytes a)) in
        Some (RData (Z.of_nat (length data)) data, AFile (a_bytes a) (a_pos a + Z.of_nat (length data)))
      else None
  | Write src =>
      if (a_pos a <=? Z.of_nat (length (a_bytes a))) && (a_pos a + Z.of_nat (length src) <=? MAX_FILE) then
        Some (RInt (Z.of_nat (length src)),
              AFile (splice (a_pos a) src (a_bytes a)) (a_pos a + Z.of_nat (length src)))
      else None
  | Seek offset whence =>
      match seek_target offset whence a with
      | None => Some (RInt (-1), a)
      | Some p =>
          if (- 2 ^ 31 <=? p) && (p <? 2 ^ 31) then
            Some (RInt (Z.max 0 p), AFile (a_bytes a) (Z.max 0 p))
          else None
      end
  end.
Fixpoint file_run (ops : list file_op) (a : afile) : option (list file_res * afile) :=
  match ops with
  | [] => Some ([], a)
  | op :: ops =>
      match file_step op a with
      | None => None
      | Some (r, a) =>
          match file_run ops a with None => None | Some (rs, a) => Some (r :: rs, a) end
      end
  end.

Section files.
Context {K D : Type} `{!FsEnv K D}.
Abbreviation W := (fs_world K D).
Implicit Types w : fs_world K D.

(** The same operations of the implementation. *)
Definition fs_do (fd : Z) (op : file_op) : M W file_res :=
  match op with
  | Read size => let! r := fs_read uninit_block uninit_inode fd size in ret (RData r.1 r.2)
  | Write src => let! r := fs_write uninit_block uninit_inode fd src (Z.of_nat (length src)) in ret (RInt r)
  | Seek offset whence => let! r := fs_seek fd offset whence in ret (RInt r)
  end.
Fixpoint fs_do_all (fd : Z) (ops : list file_op) : M W (list file_res) :=
  match ops with
  | [] => ret []
  | op :: ops => let! r := fs_do fd op in let! rs := fs_do_all fd ops in ret (r :: rs)
  end.

(** Descriptor [fd], opened for reading and writing, shows the array [a] stored in inode [n]. *)
Record shows w (V : disk) (fd n : Z) (a : afile) : Prop := {
  sh_wf : fs_wf w V;
  sh_handle : ∃ f, opened w fd f ∧ f_inode f = n ∧ f_position f = a_pos a ∧
    f_size f = i_size (inode_in V n) ∧
    Z.land (f_flags f) FS_O_RDONLY ≠ 0 ∧ Z.land (f_flags f) FS_O_WRONLY ≠ 0;
  sh_file : file_ok w (inode_in V n);
  sh_type : i_type (inode_in V n) ≠ 0;
  sh_bytes : file_bytes V (inode_in V n) = a_bytes a;
  sh_pos : 0 ≤ a_pos a
}.

Lemma opened_insert w w' fd f f' : opened w fd f → files w' = <[Z.to_nat fd := f']> (files w) →
  f_in_use f' = f_in_use f → f_inode f' = f_inode f → opened w' fd f'.
Proof.
  intros (Hfd & Hf & Hu & Hn) E Eu En. split; [done|]. rewrite E, Eu, En. split; [|done].
  apply list_lookup_insert_eq. by eapply lookup_lt_Some.
Qed.

Lemma shows_size w V fd n a : shows w V fd n a → i_size (inode_in V n) = Z.of_nat (length (a_bytes a)).
Proof. intros [_ _ [Hsz _ _] _ <- _]. rewrite file_bytes_length. lia. Qed.

Lemma others_same_trans n V V1 V2 : others_same n V V1 → others_same n V1 V2 → others_same n V V2.
Proof.
  intros H1 H2 m Hm Hne. destruct (H1 m Hm Hne) as [E1 B1], (H2 m Hm Hne) as [E2 B2].
  rewrite E1 in *. split; [done|]. intros k Hk Hb. by rewrite B2, B1.
Qed.
Lemma others_same_refl n V : others_same n V V.
Proof. by intros m Hm Hne. Qed.

(** The other handles stay as they are. *)
Definition other_handles (fd : Z) w w' : Prop := ∀ i, i ≠ Z.to_nat fd → files w' !! i = files w !! i.
Lemma other_handles_insert fd w w' f : files w' = <[Z.to_nat fd := f]> (files w) → other_handles fd w w'.
Proof. intros E i Hi. by rewrite E, list_lookup_insert_ne. Qed.

(** [fs_seek] with a valid [whence]. *)
Lemma fs_seek_ok w V fd f offset whence target : fs_wf w V → opened w fd f →
  (if whence =? FS_SEEK_SET then Some offset
   else if whence =? FS_SEEK_CUR then Some (f_position f + offset)
   else if whence =? FS_SEEK_END then Some (f_size f + offset) else None) = target →
  (∀ p, target = Some p → - 2 ^ 31 ≤ p < 2 ^ 31) →
  wp (fs_seek fd offset whence) (λ r w', fs_wf w' V ∧ block_bitmap w' = block_bitmap w ∧
    match target with
    | None => r = -1 ∧ files w' = files w
    | Some p => r = Z.max 0 p ∧ files w' = <[Z.to_nat fd := f <| f_position := Z.max 0 p |>]> (files w)
    end) w.
Proof.
  intros Hwf Hop Ht Hrange. unfold fs_seek. pose proof (opened_mutex _ _ _ Hop) as Hmx. rewrite wp_bind. eapply wp_bad_fd; [done|].
  rewrite wp_bind. eapply wp_lock; [apply Hwf|is_fs_mutex|]. intros e k Hk. set (w1 := w <| w_kernel := k |>).
  assert (fs_wf w1 V) as Hwf1 by (by apply fs_wf_kernel).
  assert (core w1 = core w) as Hc by done. clearbody w1.
  rewrite wp_bind. eapply wp_file; [by apply (opened_core w)|].
  assert (target = if whence =? FS_SEEK_SET then Some offset
    else if whence =? FS_SEEK_CUR then Some (i32 (f_position f + offset))
    else if whence =? FS_SEEK_END then Some (i32 (f_size f + offset)) else None) as <-.
  { subst target. destruct (whence =? FS_SEEK_SET); [done|].
    destruct (whence =? FS_SEEK_CUR); [by rewrite (i32_small (f_position f + offset)) by auto|].
    destruct (whence =? FS_SEEK_END); [by rewrite (i32_small (f_size f + offset)) by auto|done]. }
  destruct target as [p|].
  - assert ((if p <? 0 then 0 else p) = Z.max 0 p) as -> by (destruct (Z.ltb_spec p 0); lia).
    rewrite wp_bind. eapply wp_set_file; [by apply (opened_core w)|]. rewrite wp_bind.
    pose proof (fs_wf_handle w V w1 fd (f <| f_position := Z.max 0 p |>) Hwf (fw_ok _ _ Hwf1) Hc) as Hwf2.
    eapply wp_unlock; [apply Hwf2|is_fs_mutex|]. intros e' k' Hk'. rewrite wp_ret.
    split; [by apply fs_wf_kernel|]. injection Hc as _ Ef _ Eb _. cbn. by rewrite Ef.
  - rewrite wp_bind. eapply wp_unlock; [apply Hwf1|is_fs_mutex|]. intros e' k' Hk'. rewrite wp_ret.
    split; [by apply fs_wf_kernel|]. injection Hc as _ Ef _ Eb _. done.
Qed.

Lemma fs_do_refines w V fd n a op r a' : shows w V fd n a → file_step op a = Some (r, a') →
  wp (fs_do fd op) (λ r' w', r' = r ∧ other_handles fd w w' ∧ ∃ V', shows w' V' fd n a' ∧ others_same n V V') w.
Proof.
  intros Hsh Hstep. pose proof (shows_size _ _ _ _ _ Hsh) as Hlen.
  pose proof Hsh as [Hwf (f & Hop & En & Ep & Es & Hr & Hw) Hfile Hty Hby Hpos]. subst n.
  destruct op as [size|src|offset whence]; cbn [file_step fs_do] in *.
  - destruct (Z.leb_spec 0 size); [|done]. injection Hstep as <- <-. rewrite wp_bind.
    eapply wp_mono; [apply (fs_read_ok w V fd f size); (done || lia)|]. cbv zeta. rewrite Hby, Ep.
    intros r w' (-> & Hwf' & Hbm & Ef). rewrite wp_ret. split; [done|]. split; [by eapply other_handles_insert|]. exists V. split; [|apply others_same_refl].
    set (data := take _ _) in *. split; cbn [a_bytes a_pos]; try done; [| |lia].
    + eexists. split; [by eapply opened_insert|]. cbn. rewrite Ep. by repeat split.
    + destruct Hfile. split; [done|done|]. by rewrite Hbm.
  - destruct (Z.leb_spec (a_pos a) (Z.of_nat (length (a_bytes a)))); [|done].
    destruct (Z.leb_spec (a_pos a + Z.of_nat (length src)) MAX_FILE); [|done]. injection Hstep as <- <-. rewrite wp_bind.
    eapply wp_mono; [apply (fs_write_ok w V fd f src); (done || lia)|].
    intros r w' (V' & -> & Hwf' & Hfile' & Hby' & Ho & Hty' & Ef). rewrite wp_ret. split; [done|]. split; [by eapply other_handles_insert|]. exists V'. split; [|done].
    split; cbn [a_bytes a_pos]; try done; [|by rewrite Hty'| |lia].
    + eexists. split; [by eapply opened_insert|]. cbn. rewrite Ep. by repeat split.
    + by rewrite Hby', Hby, Ep.
  - rewrite wp_bind. eapply wp_mono; [eapply (fs_seek_ok w V fd f offset whence (seek_target offset whence a)); [done|done|..]|].
    + unfold seek_target. by rewrite Ep, Es, Hlen.
    + intros p E. rewrite E in Hstep. destruct (Z.leb_spec (- 2 ^ 31) p), (Z.ltb_spec p (2 ^ 31)); done.
    + intros r' w' (Hwf' & Hbm & Hcase). rewrite wp_ret. destruct (seek_target offset whence a) as [p|].
      * destruct ((- 2 ^ 31 <=? p) && (p <? 2 ^ 31)); [|done]. injection Hstep as <- <-.
        destruct Hcase as [-> Ef]. split; [done|]. split; [by eapply other_handles_insert|]. exists V. split; [|apply others_same_refl].
        split; cbn [a_bytes a_pos]; try done; [| |lia].
        -- eexists. split; [by eapply opened_insert|]. by repeat split.
        -- destruct Hfile. split; [done|done|]. by rewrite Hbm.
      * injection Hstep as <- <-. destruct Hcase as [-> Ef]. split; [done|]. split; [intros i _; by rewrite Ef|]. exists V.
        split; [|apply others_same_refl]. split; try done.
        -- exists f. unfold opened in *. by rewrite Ef.
        -- destruct Hfile. split; [done|done|]. by rewrite Hbm.
Qed.

Lemma fs_do_all_refines fd n ops : ∀ w V a rs a', shows w V fd n a → file_run ops a = Some (rs, a') →
  wp (fs_do_all fd ops) (λ rs' w', rs' = rs ∧ other_handles fd w w' ∧ ∃ V', shows w' V' fd n a' ∧ others_same n V V') w.
Proof.
  induction ops as [|op ops IH]; intros w V a rs a' Hsh Hrun; cbn [file_run fs_do_all] in *.
  { injection Hrun as <- <-. rewrite wp_ret. split; [done|]. split; [done|]. exists V. split; [done|apply others_same_refl]. }
  destruct (file_step op a) as [[r a1]|] eqn:Est; [|done].
  destruct (file_run ops a1) as [[rs1 a2]|] eqn:Erun; [|done]. injection Hrun as <- <-.
  rewrite wp_bind. eapply wp_mono; [by eapply fs_do_refines|]. intros r' w1 (-> & Hh1 & V1 & Hsh1 & Ho1).
  rewrite wp_bind. eapply wp_mono; [by eapply IH|]. intros rs' w2 (-> & Hh2 & V2 & Hsh2 & Ho2). rewrite wp_ret.
  split; [done|]. split; [intros i Hi; rewrite Hh2, Hh1; done|]. exists V2. split; [done|]. by eapply others_same_trans.
Qed.
End files.

(** * A new file system *)

(** Erasing a device leaves zeros, as on the RAM disk; [fs_format] relies on it for the inodes it
    does not write. *)
Class ErasesToZero (K D : Type) `{!FsEnv K D} := erases_to_zero : ∃ erase, bd_erase dev = Some erase ∧
  ∀ s, ready s → ∃ s', erase 0 (bd_get_block_count dev) s = Ret 0 s' ∧ ready s' ∧
    ∀ i, 0 ≤ i < bd_get_block_count dev → contents s' i = replicate 512 0.

Definition fresh_bitmap : list Z := 255 :: 15 :: replicate 126 0.
Definition root_inode (now : Z) : fs_inode_t := Inode FS_TYPE_DIRECTORY 0 0 0 (replicate 6 0) now now.

Lemma superblock_round x : Forall (λ v, 0 ≤ v < 2 ^ 32) [sb_magic x; sb_version x; sb_block_size x; sb_total_blocks x;
    sb_free_blocks x; sb_total_inodes x; sb_free_inodes x; sb_first_data_block x;
    sb_inode_table_block x; sb_root_inode x] → superblock_of (superblock_bytes x) = x.
Proof.
  rewrite !Forall_cons. intros (?&?&?&?&?&?&?&?&?&?&_).
  destruct x as [m v bs tb fb ti fi fd it ri rs]. unfold superblock_of. f_equal; field_round.
Qed.

Lemma inode_of_zeros n : 0 ≤ n < SAFE_INODES →
  inode_of (take 40 (drop (inode_offset n) (replicate 512 0))) = inode_zero.
Proof.
  intros Hn. destruct (inode_place n Hn) as (_ & Hoff & _). rewrite drop_replicate, take_replicate.
  replace (40 `min` (512 - inode_offset n))%nat with 40%nat by lia. reflexivity.
Qed.

(** Assignments to and reads of the fields of a state that is written out. *)
Ltac world_simpl := cbn [set_field w_kernel w_dev mounted device superblock files dirs block_cache cached_block
  cache_dirty block_bitmap w_behind].

Lemma count_all (f : Z → bool) (l : list Z) : (∀ j, j ∈ l → f j = false) → filter (λ j, f j = false) l = l.
Proof.
  induction l as [|x l IH]; intros Hf; [done|]. rewrite filter_cons, decide_True by (apply Hf; set_solver).
  rewrite IH by (intros j Hj; apply Hf; set_solver). done.
Qed.

Section boot.
Context {K D : Type} `{!FsEnv K D} `{!ErasesToZero K D}.
Abbreviation W := (fs_world K D).
Abbreviation count := (bd_get_block_count dev).
Implicit Types w : fs_world K D.

Definition boot : M W os_error_t :=
  let! _ := fs_init in let! _ := fs_format (Some dev) in fs_mount (Some dev).

(** The state after [fs_init]. *)
Definition initial (k : K) (s : D) (bm behind : list Z) : W :=
  World k s false None superblock_zero (replicate 8 file_handle_zero) (replicate 4 (DirHandle false 0 0))
    (replicate 512 0) 0xFFFFFFFF false bm behind.

Lemma init_locks_ok n : ∀ i w, calm (w_kernel w) → files w = replicate 8 file_handle_zero → 0 ≤ i → i + Z.of_nat n ≤ 8 →
  wp (init_locks n i) (λ _ w', ∃ k, calm k ∧ w' = w <| w_kernel := k |>) w.
Proof.
  induction n as [|n IH]; intros i w Hk Hf Hi Hend; cbn [init_locks].
  { rewrite wp_ret. exists (w_kernel w). split; [done|]. by destruct w. }
  assert (arr_set (files w) i (nth (Z.to_nat i) (files w) file_handle_zero <| f_in_use := false |>) = files w) as Ef.
  { rewrite Hf. unfold arr_set. destruct (decide (Z.to_nat i < 8)%nat).
    - rewrite nth_lookup, lookup_replicate_2 by done. apply list_insert_id. by rewrite lookup_replicate_2.
    - apply list_insert_ge. rewrite length_replicate. lia. }
  rewrite wp_bind, wp_modify. match goal with |- wp _ _ ?s => assert (s = w) as -> end.
  { destruct w. cbn in *. f_equal. exact Ef. }
  clear Ef. destruct w as [k0 s0 mo dv sb fs ds bc cb cd bm bh]. cbn in Hk, Hf |- *.
  rewrite wp_bind. unfold svc_mutex_init. rewrite wp_zoom. cbn.
  assert (fs_mutex (file_lock i)) as Hmx by (right; exists i; unfold FS_MAX_OPEN_FILES; split; [lia|done]).
  destruct (calm_init (file_lock i) _ Hmx Hk) as (k1 & E & Hk1). eapply wp_intro; [exact E|].
  eapply wp_mono; [apply IH; [done|done|lia|lia]|].
  intros _ w' (k2 & Hk2 & ->). by exists k2.
Qed.

Lemma fs_init_ok w : calm (w_kernel w) →
  wp fs_init (λ r w', r = OS_OK ∧ ∃ k, calm k ∧ w' = initial k (w_dev w) (block_bitmap w) (w_behind w)) w.
Proof.
  intros Hk. unfold fs_init. rewrite wp_bind, wp_modify, wp_bind. unfold svc_mutex_init. rewrite wp_zoom.
  destruct (calm_init fs_lock _ (or_introl eq_refl) Hk) as (k1 & E & Hk1). eapply wp_intro; [exact E|].
  rewrite wp_bind. eapply wp_mono; [apply init_locks_ok; done|]. intros _ w' (k2 & Hk2 & ->).
  rewrite wp_bind, wp_modify, wp_bind, wp_modify, wp_ret. split; [done|]. exists k2. done.
Qed.

(** The disk that [fs_format] writes. *)
Record formatted (V : disk) (now : Z) (behind : list Z) : Prop := {
  fm_superblock : V 0 = superblock_bytes (format_superblock count);
  fm_bitmap : V 1 = fresh_bitmap ++ behind;
  fm_root : V 2 = put 0 (inode_bytes (root_inode now)) (replicate 512 0);
  fm_rest : ∀ b, 3 ≤ b < count → V b = replicate 512 0
}.

Lemma count_bounds : 12 ≤ count ≤ 1024.
Proof. exact env_count. Qed.

Lemma superblock_length : length (superblock_bytes (format_superblock count)) = 512%nat.
Proof. reflexivity. Qed.

Lemma format_round : superblock_of (superblock_bytes (format_superblock count)) = format_superblock count.
Proof.
  pose proof count_bounds. apply superblock_round.
  repeat (apply Forall_cons_2); [done..| | |done|done|done|done|done|constructor].
  - change (0 ≤ count < 2 ^ 32). lia.
  - apply u32_range.
Qed.

Lemma reserve_fresh k s mo dv sb fs ds bc cb cd bh :
  reserve_blocks 12 0 (World (K := K) (D := D) k s mo dv sb fs ds bc cb cd (replicate 128 0) bh) =
  Ret tt (World k s mo dv sb fs ds bc cb cd fresh_bitmap bh).
Proof. reflexivity. Qed.

Lemma wp_optional_sync s w : ready s → w_dev w = s →
  wp (on_optional (bd_sync dev)) (λ _ w', ∃ s', ready s' ∧ w' = w <| w_dev := s' |> ∧
    ∀ i, contents s' i = contents s i) w.
Proof.
  intros Hs Ew. unfold on_optional. destruct (bd_sync dev) as [sync|] eqn:Es.
  - destruct (bd_sync_ok sync s Es Hs) as (r & s' & E & Hs' & Hc).
    rewrite wp_bind, wp_zoom, Ew. eapply wp_intro; [exact E|]. rewrite wp_ret. by exists s'.
  - rewrite wp_ret. exists s. split; [done|]. split; [|done]. destruct w. cbn in *. by subst.
Qed.

Lemma fs_format_ok k s bm behind : calm k → ready s → length behind = 384%nat →
  wp (fs_format (Some dev)) (λ r w', r = OS_OK ∧ ∃ s', ready s' ∧ w' = initial k s' fresh_bitmap behind ∧
    formatted (contents s') (sv_get_tick_count k) behind) (initial k s bm behind).
Proof.
  intros Hk Hs Hbeh. pose proof count_bounds as Hcount. unfold fs_format. cbv zeta.
  destruct (erases_to_zero (K := K)) as (erase & Ee & Herase).
  rewrite wp_bind, Ee. cbn [fmap option_fmap option_map on_optional]. rewrite wp_bind, wp_zoom.
  destruct (Herase s Hs) as (s1 & E1 & Hs1 & Hz). eapply wp_intro; [exact E1|]. rewrite wp_ret.
  unfold initial, set_field. cbn beta iota. rewrite wp_bind, wp_zoom.
  destruct (write_one s1 0 _ Hs1 ltac:(lia) superblock_length) as (s2 & E2 & Hs2 & H20 & H2).
  eapply wp_intro; [exact E2|]. rewrite wp_bind, wp_modify, wp_bind.
  eapply wp_intro; [apply reserve_fresh|]. rewrite wp_bind, wp_gets, wp_bind, wp_zoom. cbn [block_bitmap w_behind].
  destruct (write_one s2 1 (fresh_bitmap ++ behind) Hs2 ltac:(lia)) as (s3 & E3 & Hs3 & H31 & H3).
  { rewrite length_app, Hbeh. reflexivity. }
  eapply wp_intro; [exact E3|]. rewrite wp_bind. unfold svc_get_tick_count. rewrite wp_gets. cbn [w_kernel].
  fold (root_inode (sv_get_tick_count k)). set (now := sv_get_tick_count k). rewrite wp_bind, wp_zoom.
  destruct (write_one s3 2 (put 0 (inode_bytes (root_inode now)) (replicate 512 0)) Hs3 ltac:(lia)) as (s4 & E4 & Hs4 & H42 & H4).
  { reflexivity. }
  eapply wp_intro; [exact E4|]. rewrite wp_bind.
  eapply wp_mono; [by apply (wp_optional_sync s4)|]. intros _ w' (s5 & Hs5 & -> & H5). rewrite wp_ret.
  split; [done|]. exists s5. split; [done|]. split; [done|]. split; rewrite ?H5.
  - by rewrite H4, H3, H20 by lia.
  - by rewrite H4, H31 by lia.
  - done.
  - intros b Hb. rewrite H5, H4, H3, H2, Hz by lia. done.
Qed.

(** The state after [fs_mount]. *)
Definition mounted_state (k : K) (s : D) (behind : list Z) : W :=
  World k s true (Some dev) (format_superblock count) (replicate 8 file_handle_zero)
    (replicate 4 (DirHandle false 0 0)) (replicate 512 0) 0xFFFFFFFF false fresh_bitmap behind.

Lemma fs_mount_ok k s now behind : calm k → ready s → length behind = 384%nat →
  formatted (contents s) now behind →
  wp (fs_mount (Some dev)) (λ r w', r = OS_OK ∧ ∃ k', calm k' ∧ w' = mounted_state k' s behind)
    (initial k s fresh_bitmap behind).
Proof.
  intros Hk Hs Hbeh Hf. pose proof count_bounds as Hcount. unfold fs_mount, initial. rewrite wp_bind. unfold svc_mutex_lock. rewrite wp_zoom.
  destruct (calm_lock fs_lock k (or_introl eq_refl) Hk) as (e & k1 & E1 & Hk1). eapply wp_intro; [exact E1|]. world_simpl.
  rewrite wp_bind, wp_gets. world_simpl. rewrite wp_bind, wp_zoom. world_simpl.
  eapply wp_intro; [apply read_one; [done|lia]|]. world_simpl. cbn [fst snd].
  rewrite wp_bind. eapply wp_intro; [reflexivity|]. world_simpl.
  rewrite overwrite_full by (by rewrite (fm_superblock _ _ _ Hf)).
  rewrite (fm_superblock _ _ _ Hf), format_round.
  cbn [Z.eqb negb]. rewrite wp_bind, wp_gets. world_simpl.
  cbn [format_superblock sb_magic]. rewrite Z.eqb_refl. cbn [negb]. rewrite wp_bind, wp_zoom. world_simpl.
  eapply wp_intro; [apply read_one; [done|lia]|]. world_simpl. cbn [fst snd]. rewrite (fm_bitmap _ _ _ Hf).
  rewrite wp_bind. eapply wp_intro; [reflexivity|]. world_simpl.
  rewrite wp_bind. eapply wp_intro; [reflexivity|]. world_simpl.
  rewrite wp_bind. unfold svc_mutex_unlock. rewrite wp_zoom. world_simpl.
  destruct (calm_unlock fs_lock k1 (or_introl eq_refl) Hk1) as (e2 & k2 & E2 & Hk2). eapply wp_intro; [exact E2|]. rewrite wp_ret.
  split; [done|]. exists k2. split; [done|]. world_simpl. rewrite overwrite_full by done. reflexivity.
Qed.

Lemma formatted_inodes V now behind n : formatted V now behind → 0 ≤ now < 2 ^ 32 → 0 ≤ n < SAFE_INODES →
  inode_in V n = if n =? 0 then root_inode now else inode_zero.
Proof.
  intros [_ _ Hr Hz] Hnow Hn. pose proof count_bounds. destruct (inode_place n Hn) as (Hp & Hoff & Eoff).
  assert (length (inode_bytes (root_inode now)) = 40%nat) as Hl by reflexivity.
  unfold inode_in. destruct (decide (n / 12 = 0)) as [E|E].
  - rewrite E. change (2 + 0) with 2. rewrite Hr. destruct (Z.eqb_spec n 0) as [->|].
    + change (inode_offset 0) with 0%nat. rewrite <-Hl, slice_put_same by (rewrite Hl, length_replicate; lia).
      apply inode_of_bytes. split; try done. apply Forall_replicate. lia.
    + rewrite slice_put_other; [by apply inode_of_zeros|rewrite Hl, length_replicate; lia|].
      right. rewrite Hl. pose proof (Z.div_mod n 12). lia.
  - destruct (Z.eqb_spec n 0) as [->|]; [done|]. rewrite Hz by lia. by apply inode_of_zeros.
Qed.

Lemma blk_zeros i : nth i (replicate 6 0) 0 = 0.
Proof. rewrite nth_lookup. destruct (replicate 6 0 !! i) eqn:E; [|done]. by apply lookup_replicate in E as [-> _]. Qed.

Lemma fresh_used b : 0 ≤ b → used fresh_bitmap b = bool_decide (b < 12).
Proof.
  intros Hb. unfold used, fresh_bitmap. pose proof (Z.mod_pos_bound b 8) as Hm. pose proof (Z.div_mod b 8) as Hd.
  destruct (decide (b < 16)) as [Hlt|Hge].
  - assert (b ∈ seqZ 0 16) as Hin by (apply elem_of_seqZ; lia). revert Hin. clear.
    change (seqZ 0 16) with [0; 1; 2; 3; 4; 5; 6; 7; 8; 9; 10; 11; 12; 13; 14; 15].
    rewrite !elem_of_cons. intros Hin. repeat destruct Hin as [->|Hin]; try reflexivity. by apply not_elem_of_nil in Hin.
  - rewrite bool_decide_false by lia. destruct (Z.to_nat (b / 8)) as [|[|j]] eqn:E; [lia|lia|]. cbn [nth].
    rewrite nth_lookup. destruct (replicate 126 0 !! j) eqn:El; cbn [default]; [|by rewrite Z.bits_0].
    apply lookup_replicate in El as [-> _]. apply Z.bits_0.
Qed.

(** After [boot] the file system is well formed; every inode but the root is free. *)
Lemma mounted_wf k s now behind : calm k → ready s → 0 ≤ now < 2 ^ 32 → length behind = 384%nat →
  formatted (contents s) now behind → fs_wf (mounted_state k s behind) (contents s).
Proof.
  intros Hk Hs Hnow Hbh Hf. pose proof count_bounds as Hcount.
  assert (∀ n i, 0 ≤ n < SAFE_INODES → blk (inode_in (contents s) n) i = 0) as Hzero.
  { intros n i Hn. rewrite (formatted_inodes _ now behind) by done. unfold blk.
    destruct (n =? 0); apply blk_zeros. }
  split.
  - split; try done; cbn.
    + by left.
    + lia.
    + intros b Hb. unfold view. cbn [cached_block mounted_state w_dev block_cache]. destruct (Z.eqb_spec b 4294967295); [lia|done].
  - split; cbn [mounted_state superblock block_bitmap].
    + split; done.
    + split; [done|]. unfold fresh_bitmap, bytes_ok. rewrite !Forall_cons. split; [lia|]. split; [lia|]. apply Forall_replicate. lia.
  - intros b Hb. assert (length (contents s b) = 512%nat) as Hl by (by rewrite bd_block_size by (done || lia)).
    split; [|done].
    destruct (decide (b = 2)) as [->|].
    + rewrite (fm_root _ _ _ Hf). apply put_ok; [apply inode_bytes_ok|apply Forall_replicate; lia].
    + rewrite (fm_rest _ _ _ Hf) by lia. apply Forall_replicate. lia.
  - split.
    + intros n Hn. rewrite (formatted_inodes _ now behind) by done. by destruct (n =? 0).
    + intros n i [Hn Hb]. by rewrite Hzero in Hb.
    + intros n i m j [Hn Hb]. by rewrite Hzero in Hb.
  - done.
  - apply Hf.
  - done.
Qed.

(** The free counter of the superblock is exact after [fs_format]. *)
Lemma fresh_nfree : Z.of_nat (nfree fresh_bitmap) = count - 12.
Proof.
  pose proof count_bounds. unfold nfree, free_list. rewrite count_all; [rewrite length_seqZ; lia|].
  intros j Hj. apply elem_of_seqZ in Hj. rewrite fresh_used, bool_decide_false by lia. done.
Qed.
End boot.
