(* ===== verification/FsNames.v ===== *)
(** FsNames: the root directory of [src/filesystem.c]: looking up, creating and opening files by
    name, and the file system from [fs_format] to the contents of a file. *)
From Stdlib Require Import ZArith Lia.
From stdpp Require Import base numbers list sets.
From S2P Require Import Prelude Types Bytes Ramdisk Filesystem FsLayers FsTheorems.

(** * Directory blocks *)

(** A C string has no NUL byte and fits into the name field. *)
Definition name_ok (name : list Z) : Prop := (0 ∉ name) ∧ (length name ≤ 31)%nat.
Record dentry_ok (e : fs_dentry_t) : Prop := {
  de_name : length (d_name e) = 32%nat;
  de_inode : 0 ≤ d_inode e < 2 ^ 32;
  de_type : 0 ≤ d_type e < 256;
  de_reserved : length (d_reserved e) = 27%nat
}.

Lemma dentry_bytes_length e : dentry_ok e → length (dentry_bytes e) = 64%nat.
Proof. intros []. unfold dentry_bytes. rewrite !length_app, !le_encode_length. lia. Qed.

Lemma field_app_r a b off n : (length a ≤ off)%nat → field off n (a ++ b) = field (off - length a) n b.
Proof. intros. unfold field. by rewrite drop_app_ge. Qed.
Lemma field_app_l n v b : 0 ≤ v < 256 ^ Z.of_nat n → field 0 n (le_encode n v ++ b) = v.
Proof.
  intros. unfold field. rewrite drop_0, take_app_length' by (by rewrite le_encode_length). by apply le_decode_encode.
Qed.

Lemma dentry_of_bytes e : dentry_ok e → dentry_of (dentry_bytes e) = e.
Proof.
  intros []. destruct e as [nm ino ty rs]. cbn [d_name d_inode d_type d_reserved] in *.
  unfold dentry_of, dentry_bytes. cbn [d_name d_inode d_type d_reserved].
  f_equal.
  - by rewrite take_app_length'.
  - rewrite field_app_r, de_name0 by lia. by apply field_app_l.
  - rewrite field_app_r, de_name0, field_app_r, le_encode_length by (rewrite ?le_encode_length; lia).
    by apply field_app_l.
  - rewrite drop_app_ge, de_name0, drop_app_ge, le_encode_length, drop_app_ge, le_encode_length
      by (rewrite ?le_encode_length; lia).
    apply take_ge. lia.
Qed.

Lemma entry_get_same buffer i e : length buffer = 512%nat → (i < 8)%nat → dentry_ok e →
  entry_get (entry_set buffer i e) i = e.
Proof.
  intros Hb Hi He. unfold entry_get, entry_set, dentry_size. pose proof (dentry_bytes_length e He) as Hl.
  pose proof (slice_put_same (64 * i) (dentry_bytes e) buffer) as E. rewrite Hl in E.
  rewrite E by lia. by apply dentry_of_bytes.
Qed.

Lemma entry_get_other buffer i j e : length buffer = 512%nat → (i < 8)%nat → i ≠ j → dentry_ok e →
  entry_get (entry_set buffer i e) j = entry_get buffer j.
Proof.
  intros Hb Hi Hne He. unfold entry_get, entry_set, dentry_size. pose proof (dentry_bytes_length e He) as Hl.
  f_equal. apply slice_put_other; lia.
Qed.

Lemma entry_set_length buffer i e : length buffer = 512%nat → (i < 8)%nat → dentry_ok e →
  length (entry_set buffer i e) = 512%nat.
Proof.
  intros Hb Hi He. unfold entry_set, dentry_size. rewrite put_length; [done|].
  rewrite dentry_bytes_length by done. lia.
Qed.

(** The name of an entry lies at its start. *)
Lemma entry_name buffer i : length buffer = 512%nat → (i < 8)%nat →
  drop (dentry_size * i) buffer = d_name (entry_get buffer i) ++ drop (dentry_size * i + 32) buffer.
Proof.
  intros Hb Hi. unfold entry_get, dentry_of, dentry_size. cbn [d_name].
  rewrite take_take. change (32 `min` 64)%nat with 32%nat.
  rewrite <-(take_drop 32 (drop (64 * i) buffer)) at 1. by rewrite drop_drop.
Qed.

(** * Comparing names *)
Lemma strcmp_spec nm rest : ∀ name, 0 ∉ name → 0 ∈ nm →
  strcmp_eq (nm ++ rest) name = Some (bool_decide (cstring nm = name)).
Proof.
  induction nm as [|b nm IH]; intros name Hname Hnm; [by apply not_elem_of_nil in Hnm|].
  cbn [app strcmp_eq cstring]. destruct name as [|c name].
  - destruct (b =? 0); [by rewrite bool_decide_true|by rewrite bool_decide_false].
  - destruct (Z.eqb_spec b c) as [->|Hne].
    + destruct (Z.eqb_spec c 0) as [->|]; [set_solver|]. rewrite IH by set_solver. f_equal.
      apply bool_decide_ext. split; [by intros ->|by intros [= ->]].
    + rewrite bool_decide_false; [done|]. destruct (b =? 0); [done|]. intros [= -> _]. done.
Qed.

Lemma cstring_pad name n : 0 ∉ name → (0 < n)%nat → cstring (name ++ replicate n 0) = name.
Proof.
  intros Hname Hn. induction name as [|c name IH]; [by destruct n; [lia|]|].
  cbn [app cstring]. destruct (Z.eqb_spec c 0) as [->|]; [set_solver|]. f_equal. apply IH. set_solver.
Qed.

Lemma copy_name_spec dst name : length dst = 32%nat → name_ok name →
  copy_name dst name = name ++ replicate (32 - length name) 0.
Proof.
  intros Hd [_ Hlen]. unfold copy_name, strncpy, FS_MAX_FILENAME_LENGTH. change (32 - 1)%nat with 31%nat.
  rewrite take_app_ge, take_replicate by done.
  assert (∃ z, drop 31 dst = [z]) as [z ->].
  { assert (length (drop 31 dst) = 1%nat) as Hl by (rewrite length_drop; lia).
    destruct (drop 31 dst) as [|z [|]]; [done|by exists z|done]. }
  replace ((31 - length name) `min` 31)%nat with (31 - length name)%nat by lia.
  rewrite insert_app_r_alt by (rewrite length_app, length_replicate; lia).
  rewrite length_app, length_replicate. replace (31 - (length name + (31 - length name)))%nat with 0%nat by lia. change (<[0%nat:=0]> [z]) with [0].
  rewrite <-app_assoc. replace (32 - length name)%nat with (31 - length name + 1)%nat by lia.
  by rewrite replicate_add.
Qed.

(** * Directories *)

(** The inode that entry [i] of a directory block gives for [name], and the first one. *)
Definition entry_named (buffer name : list Z) (i : nat) : option Z :=
  let e := entry_get buffer i in
  if d_inode e =? 0 then None
  else if bool_decide (cstring (d_name e) = name) then Some (d_inode e) else None.
Definition block_lookup (buffer name : list Z) : option Z :=
  head (omap (entry_named buffer name) (seq 0 8)).
(** The directory as a map from names to inodes. *)
Definition dir_lookup (V : disk) (name : list Z) : option Z :=
  let d := blk (inode_in V 0) 0 in if d =? 0 then None else block_lookup (V d) name.

(** A directory block: every entry in use has a terminated name and an inode number that is not
    negative as an [int32_t]. *)
Definition block_ok (buffer : list Z) : Prop := length buffer = 512%nat ∧ bytes_ok buffer ∧
  ∀ i, (i < 8)%nat → d_inode (entry_get buffer i) ≠ 0 →
    0 ∈ d_name (entry_get buffer i) ∧ 0 < d_inode (entry_get buffer i) < 2 ^ 31.
(** The root directory uses at most its first block. *)
Record dir_ok (V : disk) : Prop := {
  dk_type : i_type (inode_in V 0) = FS_TYPE_DIRECTORY;
  dk_one : ∀ i, (0 < i)%nat → blk (inode_in V 0) i = 0;
  dk_block : blk (inode_in V 0) 0 ≠ 0 → block_ok (V (blk (inode_in V 0) 0))
}.

Lemma entry_get_ok buffer i : length buffer = 512%nat → bytes_ok buffer → (i < 8)%nat →
  dentry_ok (entry_get buffer i).
Proof.
  intros Hl Hb Hi. unfold entry_get, dentry_size, dentry_of.
  assert (bytes_ok (take 64 (drop (64 * i) buffer))) as Hok by (by apply Forall_take, Forall_drop).
  assert (length (take 64 (drop (64 * i) buffer)) = 64%nat) as Hlen by (rewrite length_take, length_drop; lia).
  split; cbn [d_name d_inode d_type d_reserved]; rewrite ?length_take, ?length_drop, ?Hlen; try lia;
    exact (field_range _ _ _ Hok).
Qed.

(** An entry [i] that was free becomes [(name, n)]. *)
Lemma block_lookup_insert buffer buffer' name n i : (i < 8)%nat →
  entry_named buffer name i = None → (∀ name', entry_named buffer name' i = None) →
  (∀ name', entry_named buffer' name' i = if bool_decide (name = name') then Some n else None) →
  (∀ j name', j ≠ i → entry_named buffer' name' j = entry_named buffer name' j) →
  block_lookup buffer name = None →
  ∀ name', block_lookup buffer' name' = if bool_decide (name = name') then Some n else block_lookup buffer name'.
Proof.
  intros Hi _ Hfree Hnew Hold Hnone name'. unfold block_lookup in *.
  assert (∀ j, j ∈ seq 0 8 → entry_named buffer name j = None) as Hall.
  { intros j Hj. destruct (entry_named buffer name j) as [x|] eqn:E; [|done].
    assert (x ∈ omap (entry_named buffer name) (seq 0 8)) as Hx by (apply list_elem_of_omap; eauto).
    destruct (omap _ _); [by apply not_elem_of_nil in Hx|done]. }
  case_bool_decide as En.
  - subst name'. assert (∀ l, NoDup l → (∀ j, j ∈ l → j ∈ seq 0 8) → i ∈ l → head (omap (entry_named buffer' name) l) = Some n) as Hl.
    { induction l as [|j l IH]; intros Hnd Hsub Hin; [by apply not_elem_of_nil in Hin|].
      apply NoDup_cons in Hnd as [Hj Hnd]. cbn [omap list_omap]. destruct (decide (j = i)) as [->|Hne].
      - by rewrite Hnew, bool_decide_true.
      - rewrite Hold, Hall by (done || (apply Hsub; set_solver)). apply IH; [done|set_solver|set_solver]. }
    apply Hl; [apply NoDup_seq|done|apply elem_of_seq; lia].
  - f_equal. clear Hnone Hall. induction (seq 0 8) as [|j l IH]; [done|]. cbn [omap list_omap].
    assert (entry_named buffer' name' j = entry_named buffer name' j) as ->; [|by rewrite IH].
    destruct (decide (j = i)) as [->|]; [by rewrite Hnew, bool_decide_false, Hfree|by apply Hold].
Qed.

(** * Creating an entry *)
Definition new_entry (e : fs_dentry_t) (name : list Z) (n ty : Z) : fs_dentry_t :=
  e <| d_name ::= λ dst, copy_name dst name |> <| d_inode := n |> <| d_type := ty |>.

Lemma insert_entry_spec buffer name n ty : (∃ i, (i < 8)%nat ∧ d_inode (entry_get buffer i) = 0) →
  ∃ i, (i < 8)%nat ∧ d_inode (entry_get buffer i) = 0 ∧
    insert_entry entries_per_block 0 buffer name n ty = Some (entry_set buffer i (new_entry (entry_get buffer i) name n ty)).
Proof.
  intros (i & Hi & Ei). change entries_per_block with 8%nat.
  assert (∀ m j, (j ≤ i < j + m)%nat → (j + m ≤ 8)%nat → ∃ k, (k < 8)%nat ∧ d_inode (entry_get buffer k) = 0 ∧
    insert_entry m j buffer name n ty = Some (entry_set buffer k (new_entry (entry_get buffer k) name n ty))) as H.
  { induction m as [|m IH]; intros j Hj Hm; [lia|]. cbn [insert_entry].
    destruct (Z.eqb_spec (d_inode (entry_get buffer j)) 0) as [E|E]; [exists j; split; [lia|done]|].
    apply IH; [|lia]. destruct (decide (i = j)) as [->|]; [done|lia]. }
  apply H; lia.
Qed.

Lemma bytes_app l k : bytes_ok l → bytes_ok k → bytes_ok (l ++ k).
Proof. intros. by apply Forall_app. Qed.

Section entry.
Context (buffer name : list Z) (n ty : Z) (i : nat).
Context (Hbuf : block_ok buffer) (Hi : (i < 8)%nat) (Hname : name_ok name) (Hbytes : bytes_ok name).
Context (Hn : 0 < n < 2 ^ 31) (Hty : 0 ≤ ty < 256) (Hfree : d_inode (entry_get buffer i) = 0).
Let e := new_entry (entry_get buffer i) name n ty.

Lemma new_entry_name : d_name e = name ++ replicate (32 - length name) 0.
Proof.
  destruct Hbuf as (Hl & Hb & _). unfold e, new_entry. cbn [d_name set_field].
  apply copy_name_spec; [|done]. by apply entry_get_ok.
Qed.

Lemma new_entry_ok : dentry_ok e.
Proof.
  destruct Hbuf as (Hl & Hb & _). destruct (entry_get_ok buffer i Hl Hb Hi). split; [|cbn; lia|done|done].
  rewrite new_entry_name, length_app, length_replicate. destruct Hname. lia.
Qed.

Lemma entry_set_ok : block_ok (entry_set buffer i e).
Proof.
  pose proof Hbuf as (Hl & Hb & Hent). pose proof new_entry_ok as He. split; [by apply entry_set_length|]. split.
  - unfold entry_set. apply put_ok; [|done]. unfold dentry_bytes. rewrite new_entry_name.
    repeat apply bytes_app; try apply le_encode_ok; [done|apply Forall_replicate; lia|].
    unfold e, new_entry, entry_get, dentry_of. cbn [d_reserved set_field]. by repeat (apply Forall_take || apply Forall_drop).
  - intros j Hj. destruct (decide (i = j)) as [<-|Hne].
    + rewrite entry_get_same by done. intros _. split; [|exact Hn]. rewrite new_entry_name.
      apply elem_of_app. right. apply elem_of_replicate. split; [done|]. destruct Hname. lia.
    + rewrite entry_get_other by done. by apply Hent.
Qed.

Lemma entry_set_lookup : block_lookup buffer name = None → ∀ name',
  block_lookup (entry_set buffer i e) name' = if bool_decide (name = name') then Some n else block_lookup buffer name'.
Proof.
  pose proof Hbuf as (Hl & Hb & _). pose proof new_entry_ok as He.
  assert (∀ name', entry_named buffer name' i = None) as Hno by (intros name'; unfold entry_named; by rewrite Hfree).
  apply (block_lookup_insert _ _ _ _ i); [done|done|done|..].
  - intros name'. unfold entry_named. rewrite entry_get_same by done. rewrite new_entry_name.
    destruct Hname. rewrite cstring_pad by (done || lia). change (d_inode e) with n.
    destruct (Z.eqb_spec n 0); [lia|done].
  - intros j name' Hne. unfold entry_named. by rewrite entry_get_other by done.
Qed.
End entry.

Section names.
Context {K D : Type} `{!FsEnv K D}.
Abbreviation W := (fs_world K D).
Abbreviation count := (bd_get_block_count dev).
Implicit Types w : fs_world K D.

Lemma find_entry_ok buffer name w : block_ok buffer → 0 ∉ name → ∀ n i, (i + n ≤ 8)%nat →
  find_entry n i buffer name w = Ret (head (omap (entry_named buffer name) (seq i n))) w.
Proof.
  intros (Hl & _ & Hb) Hname. induction n as [|n IH]; intros i Hi; [done|].
  cbn [find_entry seq omap list_omap]. unfold entry_named at 1.
  destruct (Z.eqb_spec (d_inode (entry_get buffer i)) 0) as [E|E].
  { rewrite IH by lia. by replace (i + 1)%nat with (S i) by lia. }
  destruct (Hb i ltac:(lia) E) as [H0 _].
  rewrite entry_name, strcmp_spec by (done || lia). case_bool_decide; [done|].
  rewrite IH by lia. by replace (i + 1)%nat with (S i) by lia.
Qed.

(** [fs_find_in_dir] of the root directory. *)
Lemma find_ok w V name : fs_wf w V → dir_ok V → 0 ∉ name →
  wp (fs_find_in_dir uninit_block uninit_inode 0 name) (λ r w',
    r = default (-1) (dir_lookup V name) ∧ fs_ok w' V ∧ core w' = core w) w.
Proof.
  intros Hwf [Hty Hone Hblock] Hname. pose proof env_count as Hcount. unfold fs_find_in_dir. rewrite wp_bind.
  eapply wp_mono; [apply read_inode_ok; [apply Hwf|apply Hwf|by unfold SAFE_INODES]|].
  intros r w1 (-> & Hok1 & Hc1). cbn [fst snd]. rewrite decide_False by (intros Hne; by apply Hne).
  rewrite Hty, Z.eqb_refl. cbn [negb]. rewrite wp_bind.
  pose proof (in_count _ _ (fw_inodes _ _ Hwf) 0 ltac:(done)) as Hlen. unfold dir_lookup. unfold blk in Hone, Hblock |- *.
  destruct (i_blocks (inode_in V 0)) as [|d l] eqn:El; [done|]. cbn [nth] in Hblock |- *.
  cbn [find_in_blocks]. destruct (Z.eqb_spec d 0) as [|Hd]; [by rewrite !wp_ret|].
  destruct (in_refs _ _ (fw_inodes _ _ Hwf) 0 0) as [Hrange _]; [split; [done|]; unfold blk; by rewrite El|].
  unfold blk in Hrange. rewrite El in Hrange. cbn [nth] in Hrange.
  rewrite wp_bind. eapply wp_mono; [apply read_block_ok; [done|lia|apply uninit_length]|].
  intros r w2 (-> & Hok2 & Hc2). cbn [fst snd]. rewrite decide_False by (intros Hne; by apply Hne).
  rewrite wp_bind. eapply wp_intro; [apply find_entry_ok; [by apply Hblock|done|done]|].
  fold (block_lookup (V d) name). unfold block_lookup.
  destruct (head _) as [x|] eqn:Ehd.
  - rewrite wp_ret, wp_ret. split; [|split; [done|congruence]]. cbn [default].
    assert (0 ≤ x < 2 ^ 31) as Hx; [|rewrite i32_small by lia; done].
    apply head_Some_elem_of, list_elem_of_omap in Ehd as (i & Hi & Ei). unfold entry_named in Ei.
    apply elem_of_seq in Hi. change (0 + entries_per_block)%nat with 8%nat in Hi.
    destruct (Z.eqb_spec (d_inode (entry_get (V d) i)) 0) as [|Hne]; [done|]. case_bool_decide; [|done].
    assert (x = d_inode (entry_get (V d) i)) as -> by congruence. clear Ei. destruct (Hblock Hd) as (_ & _ & Hb). destruct (Hb i ltac:(lia) Hne) as [_ Hr]. lia.
  - destruct l as [|b l]; [done|]. cbn [find_in_blocks].
    assert (b = 0) as -> by apply (Hone 1%nat ltac:(lia)). cbn [Z.eqb]. rewrite !wp_ret. split; [done|]. split; [done|congruence].
Qed.

(** * Allocating an inode *)
Lemma layout_free_inodes sb g : layout sb → layout (sb <| sb_free_inodes ::= g |>).
Proof. by intros []. Qed.

(** [n] is the first free inode. *)
Definition first_free (V : disk) (n : Z) : Prop := 0 < n < SAFE_INODES ∧ i_type (inode_in V n) = 0 ∧
  ∀ m, 0 ≤ m < n → i_type (inode_in V m) ≠ 0.

Lemma alloc_inode_from_ok V n fuel : first_free V n → ∀ i w, fs_ok w V → accounted w → 0 ≤ i ≤ n → n < i + Z.of_nat fuel →
  wp (alloc_inode_from uninit_block uninit_inode fuel i) (λ r w', r = n ∧ fs_ok w' V ∧ accounted w' ∧
    block_bitmap w' = block_bitmap w ∧ handles w' = handles w) w.
Proof.
  intros (Hn & Hty & Hall). induction fuel as [|fuel IH]; intros i w Hok Hac Hi Hf; [lia|].
  cbn [alloc_inode_from]. rewrite wp_bind.
  eapply wp_mono; [apply read_inode_ok; [done|apply Hac|lia]|]. intros r w1 (-> & Hok1 & Hc1). cbn [fst snd].
  rewrite decide_True by done. destruct (core_handles _ _ Hc1) as [Hh1 Hb1].
  pose proof (accounted_core _ _ Hc1 Hac) as Hac1.
  destruct (Z.eqb_spec (i_type (inode_in V i)) 0) as [E|E].
  - assert (i = n) as -> by (destruct (decide (i < n)); [by destruct (Hall i); [lia|]|lia]).
    rewrite wp_bind, wp_modify, wp_ret. split; [done|]. split; [by destruct Hok1|]. split; [|done].
    destruct Hac1 as [Hlo ?]. split; [by destruct Hlo|done].
  - assert (i ≠ n) by congruence. eapply wp_mono; [apply IH; [done|done|lia|lia]|].
    intros r w2 (-> & Hok2 & Hac2 & Hb2 & Hh2). split; [done|]. split; [done|]. split; [done|]. split; congruence.
Qed.

Lemma alloc_inode_ok V n w : first_free V n → fs_ok w V → accounted w →
  wp (fs_alloc_inode uninit_block uninit_inode) (λ r w', r = n ∧ fs_ok w' V ∧ accounted w' ∧
    block_bitmap w' = block_bitmap w ∧ handles w' = handles w) w.
Proof.
  intros Hff Hok Hac. unfold fs_alloc_inode. rewrite wp_bind, wp_gets, (lo_inodes _ (ac_layout _ Hac)).
  apply alloc_inode_from_ok; [done|done|done|..]; destruct Hff as [Hn _]; unfold SAFE_INODES in Hn; lia.
Qed.

(** * Creating a file *)

(** Inode [m] and the bytes of its file are the same on both disks. *)
Definition unchanged (V V' : disk) (m : Z) : Prop := inode_in V' m = inode_in V m ∧
  ∀ k, 0 ≤ k → blk (inode_in V m) (Z.to_nat (k / 512)) ≠ 0 →
    file_byte V' (inode_in V m) k = file_byte V (inode_in V m) k.

(** There is room for one more entry. *)
Definition dir_room (V : disk) (bm : list Z) : Prop :=
  let d := blk (inode_in V 0) 0 in
  if d =? 0 then (0 < nfree bm)%nat else ∃ i, (i < 8)%nat ∧ d_inode (entry_get (V d) i) = 0.

(** Inode [n] gets no blocks. *)
Lemma inodes_ok_empty ino n x bm : inodes_ok ino bm → i_blocks x = replicate 6 0 → inodes_ok (over ino n x) bm.
Proof.
  intros [Hc Hr Ho] Hx. assert (∀ i, blk x i = 0) as Hz by (intros i; unfold blk; rewrite Hx; apply blk_zeros).
  assert (∀ m i, entry_of (over ino n x) m i → entry_of ino m i ∧ over ino n x m = ino m) as He.
  { intros m i [Hm Hb]. unfold over in *. destruct (m =? n); [by rewrite Hz in Hb|done]. }
  split.
  - intros m Hm. unfold over. destruct (m =? n); [by rewrite Hx|by apply Hc].
  - intros m i Hmi. destruct (He m i Hmi) as [He1 ->]. by apply Hr.
  - intros m i m' j Hmi Hmj. destruct (He m i Hmi) as [He1 ->], (He m' j Hmj) as [He2 ->]. by apply Ho.
Qed.

Lemma zero_block_ok : block_ok (replicate 512 0) ∧ ∀ i, (i < 8)%nat → d_inode (entry_get (replicate 512 0) i) = 0.
Proof.
  assert (∀ i, (i < 8)%nat → d_inode (entry_get (replicate 512 0) i) = 0) as Hz.
  { intros i Hi. do 8 (destruct i as [|i]; [reflexivity|]). lia. }
  split; [|done]. split; [done|]. split; [by apply Forall_replicate|]. intros i Hi Hne. by rewrite Hz in Hne.
Qed.

(** The directory gets its block if it has none: the block [d] of the inode [y] then holds a
    directory block with a free entry. *)
Lemma need_dir_block_ok w V x : fs_ok w V → accounted w → inodes_ok (over (inode_in V) 0 x) (block_bitmap w) →
  (if blk x 0 =? 0 then (0 < nfree (block_bitmap w))%nat
   else block_ok (V (blk x 0)) ∧ ∃ i, (i < 8)%nat ∧ d_inode (entry_get (V (blk x 0)) i) = 0) →
  wp (need_dir_block x) (λ y w', ∃ V', fs_ok w' V' ∧ accounted w' ∧ handles w' = handles w ∧
    inodes_ok (over (inode_in V) 0 y) (block_bitmap w') ∧ 12 ≤ blk y 0 < count ∧
    (∀ i, (0 < i)%nat → blk y i = blk x i) ∧ y = x <| i_blocks := i_blocks y |> ∧
    (∀ b, 0 ≤ b < count → b ≠ blk y 0 → V' b = V b) ∧
    block_ok (V' (blk y 0)) ∧ (∃ i, (i < 8)%nat ∧ d_inode (entry_get (V' (blk y 0)) i) = 0) ∧
    (blk x 0 ≠ 0 → y = x ∧ ∀ b, V' b = V b) ∧
    (blk x 0 = 0 → V' (blk y 0) = replicate 512 0) ∧
    nfree (block_bitmap w) = (nfree (block_bitmap w') + (if (blk x 0 =? 0)%Z then 1 else 0))%nat) w.
Proof.
  intros Hok Hac Hin Hroom. assert (length (i_blocks x) = 6%nat) as Hlen.
  { pose proof (in_count _ _ Hin 0 ltac:(done)) as E. by rewrite over_same in E. }
  unfold need_dir_block. destruct (Z.eqb_spec (blk x 0) 0) as [Hz|Hz].
  - rewrite wp_bind. eapply wp_mono; [by apply alloc_block_ok|]. intros b w1 (Hok1 & Hac1 & Hh1 & Hal).
    destruct Hal as [(_ & Hno & _)|(Hb & Hu & Hbits & Hn1 & _)]; [lia|].
    rewrite wp_bind. eapply wp_mono; [apply write_block_ok; [done|lia|apply length_replicate]|].
    intros r w2 (-> & Hok2 & Hc2). rewrite wp_ret. destruct (core_handles _ _ Hc2) as [Hh2 Hbm2].
    destruct zero_block_ok as [Hzb Hze].
    assert (blk (set_blk 0 b x) 0 = b) as Eb by (apply blk_set_same; lia).
    exists (upd V b (replicate 512 0)). rewrite Eb, upd_same, Hbm2.
    split; [done|]. split; [by eapply accounted_core|]. split; [congruence|].
    split; [eapply inodes_ok_alloc; [done|lia|done|done|done|done]|]. split; [done|].
    split; [intros i Hi; apply blk_set_other; lia|]. split; [done|].
    split; [intros c Hc Hne; by apply upd_other|]. split; [done|]. split; [exists 0%nat; split; [lia|apply Hze; lia]|].
    split; [done|]. split; [done|]. lia.
  - rewrite wp_ret. destruct Hroom as [Hbk Hfree]. exists V.
    destruct (in_refs _ _ Hin 0 0) as [Hrange _]; [split; [done|by rewrite over_same]|]. rewrite over_same in Hrange.
    do 5 (split; [done|]). split; [done|]. split; [by destruct x|]. do 5 (split; [done|]). lia.
Qed.

(** The directory entry for [n] is added to the root directory. *)
Record linked w V (name : list Z) (n : Z) w' V' : Prop := {
  lk_ok : fs_ok w' V';
  lk_accounted : accounted w';
  lk_table : table_ok V';
  lk_inodes : inodes_ok (inode_in V') (block_bitmap w');
  lk_dir : dir_ok V';
  lk_lookup : ∀ name', dir_lookup V' name' = if bool_decide (name = name') then Some n else dir_lookup V name';
  lk_others : ∀ m, 0 ≤ m < SAFE_INODES → m ≠ 0 → unchanged V V' m;
  lk_free : nfree (block_bitmap w) = (nfree (block_bitmap w') + (if (blk (inode_in V 0) 0 =? 0)%Z then 1 else 0))%nat;
  lk_handles : handles w' = handles w;
  lk_super : V' 0 = V 0
}.

(** The disk after the directory block [d] of the root inode [z] was written as [buffer']. *)
Lemma link_disk V V1 y z d buffer' bm : table_ok V → inodes_ok (over (inode_in V) 0 y) bm →
  blk y 0 = d → 12 ≤ d < count → (∀ b, 0 ≤ b < count → b ≠ d → V1 b = V b) → inode_ok z → i_blocks z = i_blocks y →
  let V' := put_inode (upd V1 d buffer') 0 z in
  table_ok V' ∧ inodes_ok (inode_in V') bm ∧ inode_in V' 0 = z ∧ V' d = buffer' ∧
  ∀ m, 0 ≤ m < SAFE_INODES → m ≠ 0 → unchanged V V' m.
Proof.
  intros Ht Hin Hd Hrange HV1 Hz Ez V'. pose proof env_count as Hcount. assert (0 ≤ 0 < SAFE_INODES) as H0 by done.
  set (V2 := upd V1 d buffer') in *.
  assert (∀ b, 0 ≤ b < count → b ≠ d → V2 b = V b) as HV2 by (intros b Hb Hne; unfold V2; rewrite upd_other; auto).
  assert (table_ok V2) as Ht2 by (intros b Hb; rewrite HV2 by lia; by apply Ht).
  assert (∀ m, 0 ≤ m < SAFE_INODES → m ≠ 0 → inode_in V' m = inode_in V m) as Eo.
  { intros m Hm Hne. unfold V'. rewrite put_inode_other; [|done..|by apply Ht2|apply Hz].
    apply inode_in_table; [done|]. intros b Hb. apply HV2; lia. }
  assert (inode_in V' 0 = z) as Ez0 by (apply put_inode_same; [done|by apply Ht2|done]).
  split; [by apply table_put; [..|apply Hz]|]. split; [|split; [done|split]].
  - eapply inodes_ok_ext; [exact Hin|]. intros m Hm. unfold over.
    destruct (Z.eqb_spec m 0) as [->|]; [by rewrite Ez0|by rewrite Eo].
  - unfold V'. rewrite put_inode_outside by (done || lia). apply upd_same.
  - intros m Hm Hne. split; [by apply Eo|]. intros k Hk Hb. unfold file_byte.
    assert (over (inode_in V) 0 y m = inode_in V m) as Em by (unfold over; by destruct (Z.eqb_spec m 0)).
    destruct (in_refs _ _ Hin m (Z.to_nat (k / 512))) as [Hr _]; [split; [done|by rewrite Em]|]. rewrite Em in Hr.
    unfold V'. rewrite put_inode_outside by (done || lia). rewrite HV2; [done|lia|]. intros E.
    destruct (in_own _ _ Hin m (Z.to_nat (k / 512)) 0 0) as [? _];
      [split; [done|by rewrite Em]|split; [done|rewrite over_same; lia]|by rewrite Em, over_same, Hd|done].
Qed.

Lemma block_lookup_zeros name : block_lookup (replicate 512 0) name = None.
Proof.
  unfold block_lookup. destruct zero_block_ok as [_ Hz].
  assert (∀ l, (∀ i, i ∈ l → (i < 8)%nat) → head (omap (entry_named (replicate 512 0) name) l) = None) as H.
  { induction l as [|i l IH]; intros Hl; [done|]. cbn [omap list_omap]. unfold entry_named at 1.
    rewrite (Hz i) by (apply Hl; set_solver). apply IH. set_solver. }
  apply H. intros i Hi. apply elem_of_seq in Hi. lia.
Qed.

Definition link (x : fs_inode_t) (name : list Z) (n : Z) : M W (option Z) :=
  let! dir_inode := need_dir_block x in
  let! r := fs_read_block (blk dir_inode 0) uninit_block in
  let dir_buffer := default r.2 (insert_entry entries_per_block 0 r.2 name n FS_TYPE_REGULAR) in
  let! _ := fs_write_block (blk dir_inode 0) dir_buffer in
  let dir_inode := dir_inode <| i_size ::= λ k, u32 (k + Z.of_nat dentry_size) |> in
  let! _ := fs_write_inode uninit_block 0 dir_inode in
  ret (Some n).

Lemma link_ok w V name n : fs_ok w V → accounted w → table_ok V → inodes_ok (inode_in V) (block_bitmap w) →
  dir_ok V → name_ok name → bytes_ok name → dir_lookup V name = None → dir_room V (block_bitmap w) → 0 < n < SAFE_INODES →
  wp (link (inode_in V 0) name n) (λ r w', r = Some n ∧ ∃ V', linked w V name n w' V') w.
Proof.
  intros Hok Hac Ht Hin [Hty Hone Hblk] Hname Hbytes Hnone Hroom Hn. set (x := inode_in V 0) in *.
  pose proof env_count as Hcount. assert (0 ≤ 0 < SAFE_INODES) as H0 by done.
  unfold link. rewrite wp_bind. eapply wp_mono; [apply (need_dir_block_ok w V x); [done|done|..]|].
  { eapply inodes_ok_ext; [exact Hin|]. intros m Hm. unfold over. by destruct (Z.eqb_spec m 0) as [->|]. }
  { unfold dir_room in Hroom. fold x in Hroom. destruct (Z.eqb_spec (blk x 0) 0); [done|]. split; [by apply Hblk|done]. }
  intros y w1 (V1 & Hok1 & Hac1 & Hh1 & Hin1 & Hd & Hkeep & Ey & HV1 & Hbk1 & Hfree & Hsame & Hzero & Hnf).
  set (d := blk y 0) in *.
  rewrite wp_bind. eapply wp_mono; [apply read_block_ok; [done|lia|apply uninit_length]|].
  intros r w2 (-> & Hok2 & Hc2). cbn [snd].
  destruct (insert_entry_spec (V1 d) name n FS_TYPE_REGULAR Hfree) as (i & Hi & Ei & Eins). rewrite Eins. cbn [default].
  set (buffer' := entry_set (V1 d) i _). unfold SAFE_INODES in Hn.
  assert (block_ok buffer') as Hbuf' by (apply entry_set_ok; (done || lia)).
  assert (∀ name', block_lookup buffer' name' = if bool_decide (name = name') then Some n else dir_lookup V name') as Hlk.
  { assert (∀ name', block_lookup (V1 d) name' = dir_lookup V name') as Hold.
    { intros name'. unfold dir_lookup. fold x. destruct (Z.eqb_spec (blk x 0) 0) as [E|E].
      - by rewrite (Hzero E), block_lookup_zeros.
      - destruct (Hsame E) as [E1 E2]. unfold d. by rewrite E2, E1. }
    intros name'. unfold buffer'. rewrite entry_set_lookup by (done || lia || by rewrite Hold). by rewrite Hold. }
  rewrite wp_bind. eapply wp_mono; [apply write_block_ok; [done|lia|apply Hbuf']|]. intros r w3 (-> & Hok3 & Hc3).
  assert (core w3 = core w1) as Hc13 by congruence. destruct (core_handles _ _ Hc13) as [Hh3 Hbm3].
  pose proof (accounted_core _ _ Hc13 Hac1) as Hac3.
  set (z := y <| i_size ::= _ |>).
  assert (inode_ok z) as Hz.
  { assert (inode_ok y) as [] by (eapply (inode_ok_blocks x); [exact H0|by apply inode_in_ok|done|exact Hin1]).
    split; try done. apply u32_range. }
  destruct (link_disk V V1 y z d buffer' (block_bitmap w1)) as (Ht' & Hin' & Ez & Ed & Ho); [done..|].
  rewrite wp_bind. eapply wp_mono; [apply write_inode_ok; [done|apply Hac3|done|apply Hz]|].
  intros r w4 (-> & Hok4 & Hc4). rewrite wp_ret. split; [done|].
  destruct (core_handles _ _ Hc4) as [Hh4 Hbm4]. set (V' := put_inode _ 0 z) in *.
  assert (blk (inode_in V' 0) 0 = d) as Eb by (by rewrite Ez).
  exists V'. split; try done.
  - by eapply accounted_core.
  - by rewrite Hbm4, Hbm3.
  - split.
    + rewrite Ez. change (i_type y = FS_TYPE_DIRECTORY). rewrite Ey. exact Hty.
    + intros j Hj. rewrite Ez. change (blk y j = 0). rewrite Hkeep by done. by apply Hone.
    + intros _. rewrite Eb. unfold V'. rewrite put_inode_outside by (done || lia). by rewrite upd_same.
  - intros name'. unfold dir_lookup at 1. rewrite Eb. destruct (Z.eqb_spec d 0); [lia|].
    unfold V'. rewrite put_inode_outside by (done || lia). rewrite upd_same. apply Hlk.
  - rewrite Hbm4, Hbm3. exact Hnf.
  - by rewrite Hh4, Hh3.
  - unfold V'. rewrite put_inode_outside, upd_other by (done || lia). apply HV1; lia.
Qed.

Definition new_file (now : Z) : fs_inode_t := Inode FS_TYPE_REGULAR 0 0 0 (replicate 6 0) now now.
Lemma new_file_ok now : 0 ≤ now < 2 ^ 32 → inode_ok (new_file now).
Proof. intros. split; try done. by apply Forall_replicate. Qed.

(** What a successful creation of [name] with inode [n] does. *)
Record created w V (name : list Z) (n : Z) w' V' : Prop := {
  cr_wf : fs_wf w' V';
  cr_dir : dir_ok V';
  cr_file : ∃ now, inode_in V' n = new_file now;
  cr_lookup : ∀ name', dir_lookup V' name' = if bool_decide (name = name') then Some n else dir_lookup V name';
  cr_others : ∀ m, 0 ≤ m < SAFE_INODES → m ≠ 0 → m ≠ n → unchanged V V' m;
  cr_free : nfree (block_bitmap w) = (nfree (block_bitmap w') + (if (blk (inode_in V 0) 0 =? 0)%Z then 1 else 0))%nat;
  cr_handles : handles w' = handles w
}.

Lemma create_file_ok w V name n : fs_wf w V → dir_ok V → name_ok name → bytes_ok name →
  dir_lookup V name = None → first_free V n → dir_room V (block_bitmap w) →
  wp (create_file uninit_block uninit_inode name) (λ r w', r = Some n ∧ ∃ V', created w V name n w' V') w.
Proof.
  intros Hwf Hdir Hname Hbytes Hnone Hff Hroom. pose proof env_count as Hcount.
  pose proof Hff as (Hn & _ & _). set (x := inode_in V 0) in *.
  assert (0 ≤ 0 < SAFE_INODES) as H0 by done. assert (0 ≤ n < SAFE_INODES) as Hn' by lia.
  destruct (inode_place 0 H0) as (Hp0 & _), (inode_place n Hn') as (Hpn & _).
  unfold create_file. rewrite wp_bind.
  eapply wp_mono; [apply (alloc_inode_ok V n); [done|apply Hwf|apply Hwf]|].
  intros r w1 (-> & Hok1 & Hac1 & Hbm1 & Hh1). unfold SAFE_INODES in Hn. rewrite i32_small by lia.
  destruct (Z.ltb_spec n 0); [lia|]. rewrite wp_bind. unfold svc_get_tick_count. rewrite wp_gets.
  set (now := sv_get_tick_count (w_kernel w1)).
  assert (0 ≤ now < 2 ^ 32) as Hnow by (apply calm_tick, Hok1). change (inode_zero <| i_type := _ |> <| i_size := _ |> <| i_ctime := _ |> <| i_mtime := _ |>) with (new_file now).
  pose proof (new_file_ok now Hnow) as Hnew. clearbody now.
  rewrite wp_bind. eapply wp_mono; [apply write_inode_ok; [done|apply Hac1|done|apply Hnew]|].
  intros r w2 (-> & Hok2 & Hc2). destruct (core_handles _ _ Hc2) as [Hh2 Hbm2].
  pose proof (accounted_core _ _ Hc2 Hac1) as Hac2. set (V1 := put_inode V n (new_file now)) in *.
  pose proof (fw_table _ _ Hwf) as Ht.
  assert (table_ok V1) as Ht1 by (apply table_put; [done|done|apply Hnew]).
  assert (∀ m, 0 ≤ m < SAFE_INODES → inode_in V1 m = over (inode_in V) n (new_file now) m) as Ein1.
  { intros m Hm. unfold over. destruct (Z.eqb_spec m n) as [->|]; [apply put_inode_same; [done|by apply Ht|done]|].
    apply put_inode_other; [done|done|done|by apply Ht|apply Hnew]. }
  assert (inode_in V1 0 = x) as Ex1 by (rewrite Ein1 by done; unfold over; destruct (Z.eqb_spec 0 n); [lia|done]).
  assert (inodes_ok (inode_in V1) (block_bitmap w2)) as Hin1.
  { eapply inodes_ok_ext; [apply (inodes_ok_empty (inode_in V) n (new_file now)); [|done]|].
    - rewrite Hbm2, Hbm1. apply Hwf.
    - intros m Hm. by rewrite Ein1. }
  rewrite wp_bind, wp_gets, (lo_root _ (ac_layout _ Hac2)), wp_bind.
  eapply wp_mono; [apply read_inode_ok; [done|apply Hac2|done]|]. intros r w3 (-> & Hok3 & Hc3).
  destruct (core_handles _ _ Hc3) as [Hh3 Hbm3]. pose proof (accounted_core _ _ Hc3 Hac2) as Hac3.
  cbn [snd]. rewrite Ex1. change (wp (link x name n) (λ r w', r = Some n ∧ ∃ V', created w V name n w' V') w3).
  assert (block_bitmap w3 = block_bitmap w) as Hbm by congruence.
  assert (∀ b, 12 ≤ b → V1 b = V b) as HV1 by (intros b Hb; apply put_inode_outside; [done|lia]).
  assert (blk x 0 ≠ 0 → 12 ≤ blk x 0) as Hx0.
  { intros Hb. destruct (in_refs _ _ (fw_inodes _ _ Hwf) 0 0) as [Hr _]; [by split|]. fold x in Hr. lia. }
  assert (∀ name', dir_lookup V1 name' = dir_lookup V name') as Hlk1.
  { intros name'. unfold dir_lookup. rewrite Ex1. fold x. destruct (Z.eqb_spec (blk x 0) 0); [done|]. by rewrite HV1 by auto. }
  rewrite <-Ex1. eapply wp_mono; [apply (link_ok w3 V1); try done|].
  - by rewrite Hbm3.
  - destruct Hdir as [Hty Hone Hblk]. split; rewrite ?Ex1; try done. intros Hb. rewrite HV1 by auto. by apply Hblk.
  - by rewrite Hlk1.
  - rewrite Hbm. unfold dir_room in *. rewrite Ex1. fold x in Hroom. destruct (Z.eqb_spec (blk x 0) 0); [done|].
    by rewrite HV1 by auto.
  - intros r w' (-> & V' & []). split; [done|]. exists V'.
    destruct (lk_others0 n Hn' ltac:(lia)) as [En _].
    split; try done.
    + assert (handles w' = handles w) as Hh by (by rewrite lk_handles0, Hh3, Hh2, Hh1). injection Hh as Ef _ Eb.
      split; try done; [rewrite Ef; apply Hwf| |rewrite Eb; apply Hwf].
      rewrite lk_super0. unfold V1. rewrite put_inode_outside by (done || lia). apply Hwf.
    + exists now. rewrite En, Ein1 by done. by rewrite over_same.
    + intros name'. by rewrite lk_lookup0, Hlk1.
    + intros m Hm Hm0 Hmn. destruct (lk_others0 m Hm Hm0) as [Em Bm].
      assert (inode_in V1 m = inode_in V m) as E1 by (rewrite Ein1 by done; unfold over; by destruct (Z.eqb_spec m n)).
      rewrite E1 in *. split; [done|]. intros k Hk Hb. rewrite Bm by done. unfold file_byte.
      destruct (in_refs _ _ (fw_inodes _ _ Hwf) m (Z.to_nat (k / 512))) as [Hr _]; [done|]. by rewrite HV1 by lia.
    + rewrite <-Hbm. rewrite Ex1 in lk_free0. exact lk_free0.
    + by rewrite lk_handles0, Hh3, Hh2, Hh1.
Qed.
End names.
