(* ===== verification/FsOpen.v ===== *)
(** FsOpen: the file system of [src/filesystem.c] as a map from names to contents.

    [fs_file V] is that map for the disk [V]. Opening a file, using it through its descriptor and
    closing it changes the map at one name only, to what the operations make of the contents;
    unmounting and mounting again keeps the map. The theorems follow the program from [fs_format]
    on. *)
From Stdlib Require Import ZArith Lia.
From stdpp Require Import base numbers list sets.
From S2P Require Import Prelude Types Bytes Ramdisk Filesystem FsLayers FsTheorems FsNames.

Definition fs_file (V : disk) (name : list Z) : option (list Z) :=
  match dir_lookup V name with
  | None => None
  | Some n => Some (file_bytes V (inode_in V n))
  end.

Section map.
Context {K D : Type} `{!FsEnv K D}.
Abbreviation W := (fs_world K D).
Abbreviation count := (bd_get_block_count dev).
Implicit Types w : fs_world K D.

(** * The invariant *)

(** A name refers to an inode in use whose file has all its blocks; no two names share one. *)
Definition file_entry (V : disk) (n : Z) : Prop := 0 < n < SAFE_INODES ∧ i_type (inode_in V n) ≠ 0 ∧
  0 ≤ i_size (inode_in V n) ≤ MAX_FILE ∧ has_blocks (inode_in V n) 0 (i_size (inode_in V n)).
Record fs_inv w (V : disk) : Prop := {
  iv_wf : fs_wf w V;
  iv_dir : dir_ok V;
  iv_entry : ∀ name n, dir_lookup V name = Some n → file_entry V n;
  iv_inj : ∀ name name' n, dir_lookup V name = Some n → dir_lookup V name' = Some n → name = name'
}.

Lemma unchanged_bytes V V' m : unchanged V V' m → has_blocks (inode_in V m) 0 (i_size (inode_in V m)) →
  file_bytes V' (inode_in V' m) = file_bytes V (inode_in V m).
Proof.
  intros [-> Hb] Hhas. unfold file_bytes. apply list_fmap_ext. intros i k Hk. apply lookup_seqZ in Hk as [-> Hk].
  apply Hb; [lia|]. apply Hhas. lia.
Qed.

Lemma unchanged_entry V V' m : unchanged V V' m → file_entry V m → file_entry V' m.
Proof. intros [E _]. unfold file_entry. by rewrite E. Qed.

Lemma unchanged_block V V' m i : unchanged V V' m → blk (inode_in V m) i ≠ 0 →
  length (V (blk (inode_in V m) i)) = 512%nat → length (V' (blk (inode_in V m) i)) = 512%nat →
  V' (blk (inode_in V m) i) = V (blk (inode_in V m) i).
Proof.
  intros [_ Hb] Hi Hl Hl'. apply list_eq_same_length with (n := 512%nat); [done|done|].
  intros j a b Hj Ha Hb'. specialize (Hb (512 * Z.of_nat i + Z.of_nat j) ltac:(lia)). unfold file_byte in Hb.
  assert (Z.to_nat ((512 * Z.of_nat i + Z.of_nat j) / 512) = i) as Ei by divlia.
  assert (Z.to_nat ((512 * Z.of_nat i + Z.of_nat j) mod 512) = j) as Ej by divlia.
  rewrite Ei, Ej, !nth_lookup, Ha, Hb' in Hb. by apply Hb.
Qed.

(** The directory is the same when the root inode and its block are. *)
Lemma unchanged_dir w V w' V' : fs_wf w V → fs_wf w' V' → unchanged V V' 0 → dir_ok V →
  dir_ok V' ∧ ∀ name, dir_lookup V' name = dir_lookup V name.
Proof.
  intros Hwf Hwf' Hun [Hty Hone Hblk]. pose proof Hun as [E _].
  assert (blk (inode_in V 0) 0 ≠ 0 → V' (blk (inode_in V 0) 0) = V (blk (inode_in V 0) 0)) as Hd.
  { intros Hne. destruct (in_refs _ _ (fw_inodes _ _ Hwf) 0 0) as [Hr _]; [done|]. pose proof env_count.
    apply unchanged_block; [done|done|..]; (eapply fs_ok_length; [|split; [lia|apply Hr]]); [apply Hwf|apply Hwf']. }
  split.
  - split; rewrite E; [done|done|]. intros Hne. rewrite (Hd Hne). by apply Hblk.
  - intros name. unfold dir_lookup. rewrite E. destruct (Z.eqb_spec (blk (inode_in V 0) 0) 0) as [|Hne]; [done|].
    by rewrite (Hd Hne).
Qed.

(** * Opening *)
Lemma free_handle_spec {A} (in_use : A → bool) l : ∀ i fd, free_handle in_use l i = Some fd →
  i ≤ fd ∧ ∃ f, l !! Z.to_nat (fd - i) = Some f.
Proof.
  induction l as [|x l IH]; intros i fd E; [done|]. cbn [free_handle] in E. destruct (in_use x).
  - destruct (IH _ _ E) as (Hle & f & Hf). split; [lia|]. exists f.
    replace (Z.to_nat (fd - i)) with (S (Z.to_nat (fd - (i + 1)))) by lia. done.
  - injection E as <-. split; [lia|]. exists x. by rewrite Z.sub_diag.
Qed.

(** What [fs_open] leaves in the handle. *)
Definition handle_of (V : disk) (n flags : Z) : fs_file_handle_t :=
  FileHandle true n flags
    (if negb (Z.land flags FS_O_APPEND =? 0) then i_size (inode_in V n) else 0) (i_size (inode_in V n)).

Lemma open_inode_ok w V fd f n flags : fs_wf w V → 0 ≤ fd → files w !! Z.to_nat fd = Some f →
  0 ≤ n < SAFE_INODES → Z.land flags FS_O_TRUNC = 0 →
  wp (open_inode uninit_block uninit_inode fd n flags) (λ r w', r = fd ∧ fs_wf w' V ∧
    block_bitmap w' = block_bitmap w ∧ files w' = <[Z.to_nat fd := handle_of V n flags]> (files w)) w.
Proof.
  intros Hwf Hfd Hf Hn Htr. unfold open_inode. rewrite wp_bind.
  eapply wp_mono; [apply read_inode_ok; [apply Hwf|apply Hwf|done]|]. intros r w1 (-> & Hok1 & Hc1).
  cbn [snd]. rewrite Htr. cbn [Z.eqb negb andb]. rewrite wp_bind, wp_ret, wp_bind.
  unfold set_file. rewrite wp_bind, wp_gets, wp_bind. pose proof Hc1 as Hc. injection Hc as _ Ef _ Eb _.
  eapply wp_arr_get; [done|by rewrite Ef|]. rewrite wp_modify.
  pose proof (fs_wf_handle w V w1 fd (handle_of V n flags) Hwf Hok1 Hc1) as Hwf2.
  rewrite wp_bind. eapply wp_unlock; [apply Hwf2|is_fs_mutex|]. intros e k Hk. rewrite wp_ret.
  split; [done|]. split; [by apply fs_wf_kernel|]. split; [done|]. cbn. by rewrite Ef.
Qed.

(** A new name can be created: a free inode and a free directory entry. *)
Definition can_create (V : disk) : Prop := (∃ n, first_free V n) ∧
  (blk (inode_in V 0) 0 ≠ 0 → ∃ i, (i < 8)%nat ∧ d_inode (entry_get (V (blk (inode_in V 0) 0)) i) = 0).

(** The invariant after a file was created. *)
Lemma created_inv w V name n w' V' : fs_inv w V → first_free V n → dir_lookup V name = None →
  created w V name n w' V' →
  fs_inv w' V' ∧ (∀ name', fs_file V' name' = if bool_decide (name = name') then Some [] else fs_file V name').
Proof.
  intros [Hwf Hdir Hent Hinj] (Hn & Hty & _) Hnone [Hwf' Hdir' [now Hnew] Hlk Hoth _ _].
  assert (∀ name' m, dir_lookup V name' = Some m → m ≠ 0 ∧ m ≠ n ∧ 0 ≤ m < SAFE_INODES) as Hne.
  { intros name' m E. destruct (Hent name' m E) as (Hm & Hu & _). split; [lia|]. split; [congruence|lia]. }
  split.
  - split; [done|done|..].
    + intros name' m. rewrite Hlk. case_bool_decide.
      * intros [= <-]. split; [done|]. rewrite Hnew. by split; [|split; [|intros k Hk; cbn in Hk; lia]].
      * intros E. destruct (Hne name' m E) as (? & ? & ?). eapply unchanged_entry; [by apply Hoth|]. by eapply Hent.
    + intros n1 n2 m. rewrite !Hlk. repeat case_bool_decide; subst; try done.
      * intros [= <-] E. by destruct (Hne n2 n E) as (_ & ? & _).
      * intros E [= <-]. by destruct (Hne n1 n E) as (_ & ? & _).
      * apply Hinj.
  - intros name'. unfold fs_file. rewrite Hlk. case_bool_decide; [by rewrite Hnew|].
    destruct (dir_lookup V name') as [m|] eqn:E; [|done]. destruct (Hne name' m E) as (? & ? & ?).
    f_equal. apply unchanged_bytes; [by apply Hoth|]. by destruct (Hent name' m E) as (_ & _ & _ & ?).
Qed.

(** The state after [fs_open] returned [fd] for [name]; a file that did not exist is empty. *)
Record open_post w V (name : list Z) (flags fd : Z) w' V' (n : Z) : Prop := {
  op_inv : fs_inv w' V';
  op_lookup : dir_lookup V' name = Some n;
  op_files : files w' = <[Z.to_nat fd := handle_of V' n flags]> (files w);
  op_map : ∀ name', fs_file V' name' =
    if bool_decide (name = name') then Some (default [] (fs_file V name)) else fs_file V name';
  op_room : (missing (inode_in V' n) ≤ nfree (block_bitmap w'))%nat
}.

Lemma missing_bound x : length (i_blocks x) = 6%nat → (missing x ≤ 6)%nat.
Proof. intros E. unfold missing. pose proof (length_filter (λ b, b = 0) (i_blocks x)). lia. Qed.

(** Room for the blocks that a file may still need, and for the file itself if it is new. *)
Definition room w (V : disk) (name : list Z) : Prop :=
  match dir_lookup V name with
  | Some n => (missing (inode_in V n) ≤ nfree (block_bitmap w))%nat
  | None => can_create V ∧ (7 ≤ nfree (block_bitmap w))%nat
  end.

Lemma fs_inv_wf w V w' : fs_inv w V → fs_wf w' V → fs_inv w' V.
Proof. by intros [] ?. Qed.

(** [fs_open (path, flags)] with [FS_O_CREAT] and without [FS_O_TRUNC]. *)
Lemma fs_open_ok w V path flags fd : let name := skip_slash path in
  fs_inv w V → name_ok name → bytes_ok name → free_handle f_in_use (files w) 0 = Some fd →
  Z.land flags FS_O_CREAT ≠ 0 → Z.land flags FS_O_TRUNC = 0 →
  room w V name →
  wp (fs_open uninit_block uninit_inode (Some path) flags) (λ r w', r = fd ∧
    ∃ V' n, open_post w V name flags fd w' V' n) w.
Proof.
  intros name Hinv Hname Hbytes Hfree Hcr Htr Hcan. pose proof Hinv as [Hwf Hdir Hent Hinj]. unfold room in Hcan.
  destruct (free_handle_spec _ _ _ _ Hfree) as (Hfd & f & Hf). rewrite Z.sub_0_r in Hf.
  unfold fs_open. rewrite wp_bind, wp_gets, (fo_mounted _ _ (fw_ok _ _ Hwf)). cbn [negb].
  rewrite wp_bind. eapply wp_lock; [apply Hwf|is_fs_mutex|]. intros e k Hk. set (w1 := w <| w_kernel := k |>).
  assert (fs_wf w1 V) as Hwf1 by (by apply fs_wf_kernel).
  assert (core w1 = core w) as Hc1 by done. clearbody w1.
  rewrite wp_bind, wp_gets. pose proof Hc1 as Hc1'. injection Hc1' as _ Ef1 _ Eb1 _. rewrite Ef1, Hfree.
  rewrite wp_bind, wp_gets, (lo_root _ (ac_layout _ (fw_accounted _ _ Hwf1))). fold name.
  rewrite wp_bind. eapply wp_mono; [by apply (find_ok w1 V name); [..|apply Hname]|].
  intros r w2 (-> & Hok2 & Hc2). destruct (core_handles _ _ Hc2) as [Hh2 Hbm2].
  assert (fs_wf w2 V) as Hwf2.
  { injection Hc2 as Es Ef _ Eb Eh. destruct Hwf1 as [? [] ? ? ? ? ?]. split; try done; rewrite ?Eb, ?Ef, ?Eh; try done.
    split; rewrite ?Es, ?Eb; done. }
  assert (files w2 = files w) as Ef2 by (injection Hh2 as -> _ _; done).
  destruct (dir_lookup V name) as [n|] eqn:El; cbn [default from_option]; unfold id.
  - destruct (Hent name n El) as (Hn & Hty & Hsz & Hhas). destruct (Z.ltb_spec n 0); [unfold SAFE_INODES in *; lia|].
    eapply wp_mono; [apply (open_inode_ok w2 V fd f n flags); [done|done|by rewrite Ef2|lia|done]|].
    intros r w3 (-> & Hwf3 & Hbm3 & Ef3). split; [done|]. exists V, n.
    split; [by eapply fs_inv_wf|done|by rewrite Ef3, Ef2| |].
    + intros name'. case_bool_decide; [|done]. subst name'. unfold fs_file. by rewrite El.
    + by rewrite Hbm3, Hbm2, Eb1.
  - cbn [Z.ltb Z.compare]. destruct (Z.eqb_spec (Z.land flags FS_O_CREAT) 0) as [|_]; [done|]. cbn [negb].
    assert (fs_file V name = None) as Hno by (unfold fs_file; by rewrite El).
    destruct Hcan as [[[n Hff] Hent0] Hnf]. rewrite wp_bind.
    eapply wp_mono; [apply (create_file_ok w2 V name n); try done|].
    { unfold dir_room. destruct (Z.eqb_spec (blk (inode_in V 0) 0) 0); [rewrite Hbm2, Eb1; lia|by apply Hent0]. }
    intros r w3 (-> & V3 & Hcrd). pose proof Hcrd as [Hwf3 _ [now Enew] Hlk _ Hnf3 Hh3].
    assert (files w3 = files w) as Ef3 by (injection Hh3 as -> _ _; done).
    pose proof Hff as (Hn & _ & _).
    eapply wp_mono; [apply (open_inode_ok w3 V3 fd f n flags); [done|done|by rewrite Ef3|lia|done]|].
    intros r w4 (-> & Hwf4 & Hbm4 & Ef4). split; [done|]. exists V3, n.
    destruct (created_inv w2 V name n w3 V3) as [Hinv3 Hmap3]; [by eapply fs_inv_wf|done|done|done|].
    split; [by eapply fs_inv_wf|by rewrite Hlk, bool_decide_true|by rewrite Ef4, Ef3| |].
    + intros name'. by rewrite Hmap3, Hno.
    + rewrite Hbm4. rewrite Hbm2, Eb1 in Hnf3. pose proof (missing_bound _ (in_count _ _ (fw_inodes _ _ Hwf3) n ltac:(lia))).
      destruct (blk (inode_in V 0) 0 =? 0); lia.
Qed.

(** * Closing *)
Lemma fs_close_ok w V fd f : fs_inv w V → opened w fd f →
  wp (fs_close fd) (λ r w', r = OS_OK ∧ fs_inv w' V ∧ block_bitmap w' = block_bitmap w ∧
    files w' = <[Z.to_nat fd := f <| f_in_use := false |>]> (files w)) w.
Proof.
  intros Hinv Hop. pose proof (iv_wf _ _ Hinv) as Hwf. unfold fs_close. pose proof (opened_mutex _ _ _ Hop) as Hmx. rewrite wp_bind. eapply wp_bad_fd; [done|].
  rewrite wp_bind. eapply wp_lock; [apply Hwf|is_fs_mutex|]. intros e k Hk. set (w1 := w <| w_kernel := k |>).
  assert (fs_ok w1 V) as Hok1 by (apply fs_ok_kernel; [apply Hwf|done]).
  assert (core w1 = core w) as Hc1 by done. clearbody w1.
  rewrite wp_bind. eapply wp_mono; [by apply sync_cache_ok|]. intros r w2 (-> & Hok2 & Hc2 & _).
  assert (core w2 = core w) as Hc by congruence.
  rewrite wp_bind. eapply wp_set_file; [by apply (opened_core w)|].
  pose proof (fs_wf_handle w V w2 fd (f <| f_in_use := false |>) Hwf Hok2 Hc) as Hwf3.
  rewrite wp_bind. eapply wp_unlock; [apply Hwf3|is_fs_mutex|]. intros e' k' Hk'. rewrite wp_ret.
  split; [done|]. split; [eapply fs_inv_wf; [done|by apply fs_wf_kernel]|].
  injection Hc as _ Ef _ Eb _. cbn. by rewrite Ef.
Qed.

Lemma free_handle_same {A} (in_use : A → bool) l : ∀ l' i fd f, free_handle in_use l i = Some fd →
  (∀ j, j ≠ Z.to_nat (fd - i) → l' !! j = l !! j) → l' !! Z.to_nat (fd - i) = Some f → in_use f = false →
  free_handle in_use l' i = Some fd.
Proof.
  induction l as [|x l IH]; intros l' i fd f E Hsame Hf Hu; [done|].
  cbn [free_handle] in E. destruct (in_use x) eqn:Ex.
  - pose proof (free_handle_spec _ _ _ _ E) as [Hle' _].
    assert (Z.to_nat (fd - i) = S (Z.to_nat (fd - (i + 1)))) as Efd by lia. rewrite Efd in *.
    pose proof (Hsame 0%nat ltac:(done)) as H0. destruct l' as [|x' l']; [done|]. cbn in H0. injection H0 as ->.
    cbn [free_handle]. rewrite Ex. eapply IH; [done| |exact Hf|done].
    intros j Hj. apply (Hsame (S j)). congruence.
  - injection E as <-. rewrite Z.sub_diag in Hf. destruct l' as [|x' l']; [done|]. cbn in Hf. injection Hf as ->.
    cbn [free_handle]. by rewrite Hu.
Qed.

(** * A session: open, use, close *)
Definition session (path : list Z) (flags : Z) (ops : list file_op) : M W (list file_res) :=
  let! fd := fs_open uninit_block uninit_inode (Some path) flags in
  let! rs := fs_do_all fd ops in
  let! _ := fs_close fd in
  ret rs.

(** The array that [fs_open] shows. *)
Definition start (V : disk) (name : list Z) (flags : Z) : afile :=
  let old := default [] (fs_file V name) in
  AFile old (if negb (Z.land flags FS_O_APPEND =? 0) then Z.of_nat (length old) else 0).

(** The invariant and the map after the operations on an open file. *)
Lemma shows_inv w V w' V' fd name n a : fs_inv w V → dir_lookup V name = Some n →
  shows w' V' fd n a → others_same n V V' →
  fs_inv w' V' ∧ ∀ name', fs_file V' name' = if bool_decide (name = name') then Some (a_bytes a) else fs_file V name'.
Proof.
  intros [Hwf Hdir Hent Hinj] El [Hwf' _ [Hsz Hhas _] Hty Hby _] Ho.
  destruct (Hent name n El) as (Hn & _). assert (unchanged V V' 0) as H0 by (apply Ho; [done|lia]).
  destruct (unchanged_dir w V w' V' Hwf Hwf' H0 Hdir) as [Hdir' Hlk].
  split.
  - split; [done|done|..].
    + intros name' m. rewrite Hlk. intros E. destruct (decide (m = n)) as [->|Hne]; [done|].
      destruct (Hent name' m E) as (Hm & _). eapply unchanged_entry; [apply Ho; [lia|done]|]. by eapply Hent.
    + intros n1 n2 m. rewrite !Hlk. apply Hinj.
  - intros name'. unfold fs_file. rewrite Hlk. case_bool_decide as En; [subst; by rewrite El, Hby|].
    destruct (dir_lookup V name') as [m|] eqn:E; [|done]. f_equal.
    assert (m ≠ n) as Hne by (intros ->; apply En; by eapply Hinj).
    destruct (Hent name' m E) as (Hm & _ & _ & ?). apply unchanged_bytes; [apply Ho; [lia|done]|done].
Qed.

Lemma session_ok w V path flags fd ops rs a : let name := skip_slash path in
  fs_inv w V → name_ok name → bytes_ok name → free_handle f_in_use (files w) 0 = Some fd → fd < FS_MAX_OPEN_FILES →
  Z.land flags FS_O_CREAT ≠ 0 → Z.land flags FS_O_TRUNC = 0 →
  Z.land flags FS_O_RDONLY ≠ 0 → Z.land flags FS_O_WRONLY ≠ 0 →
  room w V name → file_run ops (start V name flags) = Some (rs, a) →
  wp (session path flags ops) (λ r w', r = rs ∧ ∃ V', fs_inv w' V' ∧
    free_handle f_in_use (files w') 0 = Some fd ∧ room w' V' name ∧
    ∀ name', fs_file V' name' = if bool_decide (name = name') then Some (a_bytes a) else fs_file V name') w.
Proof.
  intros name Hinv Hname Hbytes Hfree Hfd8 Hcr Htr Hrd Hwr Hroom Hrun.
  destruct (free_handle_spec _ _ _ _ Hfree) as (Hfd & f & Hf). rewrite Z.sub_0_r in Hf.
  unfold session. rewrite wp_bind. eapply wp_mono; [apply (fs_open_ok w V path flags fd); try done|].
  intros r w1 (-> & V1 & n & [Hinv1 Hl1 Hf1 Hm1 Hfr1]). fold name in Hl1, Hm1.
  pose proof (iv_wf _ _ Hinv1) as Hwf1. destruct (iv_entry _ _ Hinv1 name n Hl1) as (Hn & Hty & Hsz & Hhas).
  assert (file_bytes V1 (inode_in V1 n) = default [] (fs_file V name)) as Hb1.
  { specialize (Hm1 name). unfold fs_file at 1 in Hm1. rewrite Hl1, bool_decide_true in Hm1 by done. by injection Hm1. }
  assert (shows w1 V1 fd n (start V name flags)) as Hsh.
  { split; try done.
    - exists (handle_of V1 n flags). split; [|split; [done|split]].
      + split; [done|]. rewrite Hf1. split; [apply list_lookup_insert_eq; by eapply lookup_lt_Some|]. split; [done|cbn; lia].
      + unfold handle_of, start. cbn [f_position a_pos]. rewrite <-Hb1, file_bytes_length. destruct (negb _); lia.
      + done.
    - cbn. destruct (negb _); lia. }
  rewrite wp_bind. eapply wp_mono; [by eapply fs_do_all_refines|]. intros r w2 (-> & Hh2 & V2 & Hsh2 & Ho2).
  destruct (shows_inv w1 V1 w2 V2 fd name n a Hinv1 Hl1 Hsh2 Ho2) as [Hinv2 Hm2].
  pose proof (sh_handle _ _ _ _ _ Hsh2) as (f2 & Hop2 & _).
  rewrite wp_bind. eapply wp_mono; [by eapply fs_close_ok|]. intros r w3 (-> & Hinv3 & Hbm3 & Ef3). rewrite wp_ret.
  split; [done|]. exists V2. split; [done|]. split; [|split].
  - eapply (free_handle_same f_in_use _ _ _ _ (f2 <| f_in_use := false |>)); [exact Hfree|..|done]; rewrite Z.sub_0_r, Ef3.
    + intros j Hj. rewrite list_lookup_insert_ne, Hh2, Hf1, list_lookup_insert_ne by done. done.
    + apply list_lookup_insert_eq. destruct Hop2 as (_ & E & _). by eapply lookup_lt_Some.
  - assert (unchanged V1 V2 0) as H0 by (apply Ho2; [done|lia]).
    destruct (unchanged_dir w1 V1 w2 V2 Hwf1 (sh_wf _ _ _ _ _ Hsh2) H0 (iv_dir _ _ Hinv1)) as [_ Hlk].
    unfold room. rewrite Hlk, Hl1, Hbm3. apply (sh_file _ _ _ _ _ Hsh2).
  - intros name'. rewrite Hm2. case_bool_decide; [done|]. by rewrite Hm1, bool_decide_false.
Qed.

(** * Unmounting and mounting again *)
Definition remount : M W os_error_t := let! _ := fs_unmount in fs_mount (Some dev).

(** With a clean cache the device holds what the file system shows. *)
Lemma clean_contents w V : fs_ok w V → cache_dirty w = false → ∀ b, 0 ≤ b < count → contents (w_dev w) b = V b.
Proof.
  intros [_ _ _ _ _ _ _ Hclean Hv] Hd b Hb. rewrite <-Hv by done. unfold view.
  destruct (Z.eqb_spec b (cached_block w)) as [->|]; [symmetry; auto|done].
Qed.

(** The state between [fs_unmount] and [fs_mount]. *)
Record unmounted w V w' : Prop := {
  um_calm : calm (w_kernel w');
  um_ready : ready (w_dev w');
  um_mounted : mounted w' = false;
  um_cached : cached_block w' = 0xFFFFFFFF ∨ 2 ≤ cached_block w' < count;
  um_clean : cache_dirty w' = false;
  um_length : length (block_cache w') = 512%nat;
  um_cache : 0 ≤ cached_block w' < count → block_cache w' = V (cached_block w');
  um_contents : ∀ b, 0 ≤ b < count → b ≠ 1 → contents (w_dev w') b = V b;
  um_bitmap : contents (w_dev w') 1 = block_bitmap w ++ w_behind w;
  um_core : core w' = core w
}.

Lemma fs_unmount_ok w V : fs_wf w V →
  wp fs_unmount (λ r w', r = OS_OK ∧ unmounted w V w') w.
Proof.
  intros Hwf. pose proof env_count as Hcount. unfold fs_unmount. rewrite wp_bind. eapply wp_lock; [apply Hwf|is_fs_mutex|]. intros e k Hk.
  set (w1 := w <| w_kernel := k |>). assert (fs_ok w1 V) as Hok1 by (apply fs_ok_kernel; [apply Hwf|done]).
  assert (core w1 = core w) as Hc1 by done. clearbody w1.
  rewrite wp_bind, wp_gets, (fo_mounted _ _ Hok1). cbn [negb].
  rewrite wp_bind. eapply wp_mono; [by apply sync_cache_ok|]. intros r w2 (-> & Hok2 & Hc2 & Hd2 & _).
  assert (core w2 = core w) as Hc by congruence. pose proof (clean_contents w2 V Hok2 Hd2) as Hcon.
  pose proof Hok2 as [Hk2 Hr2 Hm2 Hdv2 Hcb2 _ Hl2 Hcl2 _].
  rewrite wp_bind, wp_gets. pose proof Hc as Hc'. injection Hc' as _ _ _ Eb Eh. rewrite Eb, Eh.
  rewrite wp_bind, wp_on_device by done.
  destruct (write_one (w_dev w2) 1 (block_bitmap w ++ w_behind w)) as (s & E & Hs & Hbs & Ho); [done|lia| |].
  { rewrite length_app, (proj1 (ac_bitmap _ (fw_accounted _ _ Hwf))), (fw_behind _ _ Hwf). done. }
  eapply wp_intro; [exact E|]. rewrite wp_bind. unfold sync_device. rewrite wp_bind, wp_gets. cbn [device set_field]. rewrite Hdv2.
  eapply wp_mono; [by apply (wp_optional_sync s)|]. intros _ w3 (s3 & Hs3 & -> & Hcon3).
  rewrite wp_bind, wp_modify, wp_bind. unfold svc_mutex_unlock. rewrite wp_zoom.
  destruct (calm_unlock fs_lock _ (or_introl eq_refl) Hk2) as (e4 & k4 & E4 & Hk4). eapply wp_intro; [exact E4|]. rewrite wp_ret.
  split; [done|]. split; try done; cbn.
  - intros Hb. rewrite Hcl2 by done. by apply Hcon.
  - intros b Hb Hne. by rewrite Hcon3, Ho, Hcon.
  - by rewrite Hcon3.
Qed.

Lemma fs_mount_again w V w1 : fs_wf w V → unmounted w V w1 →
  wp (fs_mount (Some dev)) (λ r w', r = OS_OK ∧ ∃ V', fs_wf w' V' ∧
    (∀ b, 0 ≤ b < count → b ≠ 1 → V' b = V b) ∧ files w' = files w ∧ block_bitmap w' = block_bitmap w ∧
    superblock w' = format_superblock count) w1.
Proof.
  intros Hwf [Hk Hr Hm Hcb Hd Hl Hcc Hcon Hbm Hcore]. pose proof env_count as Hcount. unfold FS_MAX_BLOCKS in Hcount.
  destruct w1 as [k s mo dv sb fs ds bc cb cd bm bh]. cbn in Hk, Hr, Hm, Hcb, Hd, Hl, Hcc, Hcon, Hbm. subst mo cd.
  injection Hcore as Esb Efs Eds Ebm Ebh. subst sb fs ds bm bh.
  unfold fs_mount. rewrite wp_bind. unfold svc_mutex_lock. rewrite wp_zoom.
  destruct (calm_lock fs_lock k (or_introl eq_refl) Hk) as (e & k1 & E1 & Hk1). eapply wp_intro; [exact E1|]. world_simpl.
  rewrite wp_bind, wp_gets. world_simpl. rewrite wp_bind, wp_zoom. world_simpl.
  eapply wp_intro; [apply read_one; [done|lia]|]. world_simpl. cbn [fst snd].
  rewrite wp_bind. eapply wp_intro; [reflexivity|]. world_simpl.
  rewrite Hcon, (fw_super _ _ Hwf) by lia.
  rewrite overwrite_full, format_round by (by rewrite (superblock_bytes_length (superblock w)) by apply Hwf).
  cbn [Z.eqb negb]. rewrite wp_bind, wp_gets. world_simpl.
  cbn [format_superblock sb_magic]. rewrite Z.eqb_refl. cbn [negb]. rewrite wp_bind, wp_zoom. world_simpl.
  eapply wp_intro; [apply read_one; [done|lia]|]. world_simpl. cbn [fst snd]. rewrite Hbm.
  pose proof (proj1 (ac_bitmap _ (fw_accounted _ _ Hwf))) as Hlen.
  rewrite wp_bind. eapply wp_intro; [reflexivity|]. world_simpl.
  rewrite overwrite_full, (take_app_length' _ _ 128), (drop_app_length' _ _ 128) by done.
  rewrite wp_bind. eapply wp_intro; [reflexivity|]. world_simpl.
  rewrite wp_bind. unfold svc_mutex_unlock. rewrite wp_zoom. world_simpl.
  destruct (calm_unlock fs_lock k1 (or_introl eq_refl) Hk1) as (e2 & k2 & E2 & Hk2). eapply wp_intro; [exact E2|]. rewrite wp_ret. world_simpl.
  split; [done|]. set (V' := λ b, if b =? 1 then block_bitmap w ++ w_behind w else V b).
  assert (∀ b, b ≠ 1 → V' b = V b) as HV by (intros b Hb; unfold V'; by destruct (Z.eqb_spec b 1)).
  assert (∀ b, 0 ≤ b < count → contents s b = V' b) as Hcon'.
  { intros b Hb. destruct (decide (b = 1)) as [->|]; [done|]. by rewrite HV, Hcon. }
  exists V'. split; [|by split; [intros b _; apply HV|]].
  assert (∀ n, 0 ≤ n < SAFE_INODES → inode_in V' n = inode_in V n) as Ein.
  { intros n Hn. unfold inode_in. destruct (inode_place n Hn) as (Hp & _). by rewrite HV by lia. }
  split; cbn [block_bitmap files w_behind]; try apply Hwf.
  - split; try done; cbn [cached_block block_cache w_dev].
    + intros _ Hb. rewrite Hcc, Hcon' by done. symmetry. apply HV. lia.
    + intros b Hb. unfold view. cbn [cached_block block_cache w_dev].
      destruct (Z.eqb_spec b cb) as [->|]; [|by apply Hcon']. rewrite Hcc by done. symmetry. apply HV. lia.
  - split; [done|apply Hwf].
  - intros b Hb. rewrite HV by lia. by apply (fw_table _ _ Hwf).
  - eapply inodes_ok_ext; [apply (fw_inodes _ _ Hwf)|]. intros n Hn. by rewrite Ein.
Qed.

(** [fs_unmount] and [fs_mount] keep every file. *)
Lemma remount_ok w V : fs_inv w V →
  wp remount (λ r w', r = OS_OK ∧ ∃ V', fs_inv w' V' ∧ (∀ name, fs_file V' name = fs_file V name) ∧
    (∀ name n, dir_lookup V name = Some n → room w V name → room w' V' name) ∧ files w' = files w ∧
    superblock w' = format_superblock count) w.
Proof.
  intros Hinv. pose proof Hinv as [Hwf Hdir Hent Hinj]. unfold remount. rewrite wp_bind.
  eapply wp_mono; [by apply fs_unmount_ok|]. intros r w1 (-> & Hum).
  eapply wp_mono; [by eapply fs_mount_again|]. intros r w2 (-> & V' & Hwf' & HV & Ef & Eb & Es). split; [done|].
  assert (∀ m, 0 ≤ m < SAFE_INODES → unchanged V V' m) as Hun.
  { intros m Hm. pose proof env_count. destruct (inode_place m Hm) as (Hp & _). split; [unfold inode_in; by rewrite HV by lia|].
    intros k Hk Hb. destruct (in_refs _ _ (fw_inodes _ _ Hwf) m (Z.to_nat (k / 512))) as [Hr _]; [done|].
    unfold file_byte. by rewrite HV by lia. }
  destruct (unchanged_dir w V w2 V' Hwf Hwf' (Hun 0 ltac:(done)) Hdir) as [Hdir' Hlk].
  exists V'. split; [|split; [|split; [|done]]].
  - split; [done|done|..].
    + intros name n. rewrite Hlk. intros E. pose proof (Hent name n E) as (Hn & _).
      eapply unchanged_entry; [apply Hun; lia|by eapply Hent].
    + intros n1 n2 m. rewrite !Hlk. apply Hinj.
  - intros name. unfold fs_file. rewrite Hlk. destruct (dir_lookup V name) as [n|] eqn:E; [|done].
    destruct (Hent name n E) as (Hn & _ & _ & ?). f_equal. apply unchanged_bytes; [apply Hun; lia|done].
  - intros name n E. unfold room. rewrite Hlk, E, Eb. pose proof (Hent name n E) as (Hn & _).
    by rewrite (proj1 (Hun n ltac:(lia))).
Qed.
End map.

Section fresh.
Context {K D : Type} `{!FsEnv K D} `{!ErasesToZero K D}.
Implicit Types w : fs_world K D.

(** A formatted and mounted device is an empty file system. *)
Lemma boot_ok w : calm (w_kernel w) → ready (w_dev w) → length (w_behind w) = 384%nat →
  wp boot (λ r w', r = OS_OK ∧ ∃ V, fs_inv w' V ∧ (∀ name, fs_file V name = None) ∧ can_create V ∧
    files w' = replicate 8 file_handle_zero ∧
    Z.of_nat (nfree (block_bitmap w')) = bd_get_block_count dev - 12 ∧
    superblock w' = format_superblock (bd_get_block_count dev)) w.
Proof.
  intros Hk Hs Hbh. unfold boot. rewrite wp_bind. eapply wp_mono; [by apply fs_init_ok|].
  intros r w1 (-> & k1 & Hk1 & ->). rewrite wp_bind. eapply wp_mono; [by apply fs_format_ok|].
  intros r w2 (-> & s2 & Hs2 & -> & Hf). eapply wp_mono; [by eapply fs_mount_ok|].
  intros r w3 (-> & k3 & Hk3 & ->). split; [done|]. pose proof (calm_tick k1 Hk1) as Hnow.
  assert (∀ n, 0 ≤ n < SAFE_INODES → inode_in (contents s2) n = if n =? 0 then root_inode (sv_get_tick_count k1) else inode_zero) as Hin.
  { intros n Hn. by eapply formatted_inodes. }
  assert (∀ name, dir_lookup (contents s2) name = None) as Hno by (intros name; unfold dir_lookup; by rewrite Hin).
  exists (contents s2). split; [|split; [|split; [|split; [done|split; [apply fresh_nfree|done]]]]].
  - split; [by eapply mounted_wf| |intros name n; by rewrite Hno|intros ? ? n; by rewrite Hno].
    split; rewrite Hin by done; [done| |done]. intros i _. apply blk_zeros.
  - intros name. unfold fs_file. by rewrite Hno.
  - split; [|rewrite Hin by done; done]. exists 1. split; [done|]. rewrite Hin by done. split; [done|].
    intros m Hm. assert (m = 0) as -> by lia. by rewrite Hin.
Qed.
End fresh.

(** * An instance: the RAM disk under a kernel without contention *)

(** The kernel is its tick counter; every lock is free. *)
Definition clock := Z.
#[export] Instance clock_services : Services clock := {|
  sv_mutex_init := λ _, ret tt;
  sv_mutex_lock := λ _ _, ret OS_OK;
  sv_mutex_unlock := λ _, ret OS_OK;
  sv_get_tick_count := u32
|}.
#[export] Instance clock_laws : ServiceLaws (K := clock) (λ _, True).
Proof. split; intros; [by eexists _, _|by eexists _, _|by eexists|apply u32_range]. Qed.

#[export] Program Instance ramdisk_env : FsEnv clock ramdisk_t := {|
  calm := λ _, True;
  dev := ramdisk_device;
  ready := disk_ready;
  contents := disk_block;
  uninit_block := replicate 512 0xAA;
  uninit_inode := inode_zero;
  uninit_length := eq_refl
|}.
Solve All Obligations with (split; vm_compute; done).

#[export] Instance ramdisk_erases : ErasesToZero clock ramdisk_t.
Proof.
  exists ramdisk_erase. split; [done|]. intros s Hs. cbn [ready contents dev ramdisk_env bd_get_block_count ramdisk_device].
  change (ready s) with (disk_ready s) in Hs. unfold ramdisk_get_block_count.
  destruct (erase_blocks_spec 256 s 0 0 Hs) as (s' & E & Hs' & Hz & _); [done|done|].
  exists s'. split; [|split; [done|]].
  - unfold ramdisk_erase, bind at 1, gets. rewrite (proj1 Hs). cbn [negb].
    change (out_of_bounds 0 RAMDISK_BLOCKS) with false. unfold bind.
    change (Z.to_nat RAMDISK_BLOCKS) with 256%nat. by rewrite E.
  - intros i Hi. apply Hz. unfold in_blocks, RAMDISK_BLOCKS in *. lia.
Qed.

(** A machine with a blank RAM disk. *)
Definition blank : fs_world clock ramdisk_t :=
  World 5 (Ramdisk (replicate 256 (replicate 512 0)) true) false None superblock_zero [] [] [] 0 false []
    (replicate 384 0).

Lemma blank_ready : disk_ready (w_dev blank).
Proof. split; [done|]. split; [done|]. by apply Forall_replicate. Qed.

(** * Theorems *)
Definition RDWR_CREAT : Z := 7.

Section claims.
Context {K D : Type} `{!FsEnv K D}.
Implicit Types w : fs_world K D.


End claims.


