(* ===== verification/FsDefects.v ===== *)
(** FsDefects: runs of [src/filesystem.c] on a RAM disk that lose data.

    The programs below are sequences of calls of the public interface on a freshly formatted and
    mounted RAM disk ([FsOpen.blank]). *)
From Stdlib Require Import ZArith Lia.
From stdpp Require Import base numbers list.
From S2P Require Import Prelude Types Bytes Ramdisk Filesystem FsLayers FsTheorems FsNames FsOpen.

Abbreviation W := (fs_world clock ramdisk_t).

(** The value that a program returns on a blank disk. *)
Definition result {A} (m : M W A) : option A := match m blank with Ret a _ => Some a | _ => None end.

(** Opening a name with [FS_O_CREAT] and closing it, for [n] one-letter names from [c] on. *)
Definition touch (name : list Z) : M W Z :=
  let! fd := fs_open uninit_block uninit_inode (Some name) RDWR_CREAT in
  let! _ := fs_close fd in
  ret fd.
Fixpoint touch_all (n : nat) (c : Z) : M W unit :=
  match n with
  | O => ret tt
  | S n => let! _ := touch [c] in touch_all n (c + 1)
  end.

(** Eight files, then [n] more names, for which the directory has no entry; then the second file is
    opened again. *)
Definition overfill (n : nat) : M W Z :=
  let! _ := boot in
  touch_all 8 97 ;;;
  touch_all n 128 ;;;
  fs_open uninit_block uninit_inode (Some [98]) (Z.lor FS_O_RDONLY FS_O_WRONLY).

(** A file is extended with [fs_truncate] and then written at its start. *)
Definition write_hole : M W (Z * (Z * list Z)) :=
  let! _ := boot in
  let! fd := fs_open uninit_block uninit_inode (Some [97]) RDWR_CREAT in
  let! _ := fs_truncate uninit_block uninit_inode fd 1000 in
  let! n := fs_write uninit_block uninit_inode fd [1; 2; 3] 3 in
  let! _ := fs_seek fd 0 FS_SEEK_SET in
  let! r := fs_read uninit_block uninit_inode fd 3 in
  ret (n, r).

(** The inode table is one block too short: with twelve inodes to a block, inodes 120 to 127 lie
    in the first data block, which [fs_alloc_block] hands to the root directory. A call of [fs_open]
    that creates a name in a full directory returns a descriptor and keeps the inode; after 111 of
    them the files are still there, after one more the inode overwrites a directory entry and the
    second file can no longer be opened. *)
Theorem inode_table_overlaps_data :
  (∀ total n, 120 ≤ n < 128 → inode_block (format_superblock total) n = sb_first_data_block (format_superblock total)) ∧
  result (overfill 111) = Some 0 ∧ result (overfill 112) = Some FS_INVALID_FD.
Proof.
  split; [|split; vm_compute; reflexivity].
  intros total n Hn. assert (n / 12 = 10) as E by divlia. unfold inode_block. change inodes_per_block with 12.
  by rewrite E.
Qed.

(** A write into a hole is lost: [fs_write] allocates the block and reports success, but stores
    the inode only when the file grows, so the block number is forgotten and the bytes cannot be
    read back. *)
Theorem hole_write_is_lost : result write_hole = Some (3, (0, [])).
Proof. vm_compute. reflexivity. Qed.
