(* ===== verification/FsKernel.v ===== *)
(** FsKernel: the mutexes of [src/sync.c] provide what the file system asks of the kernel.

    The class [ServiceLaws] of [FsLayers] is discharged by the model of the mutexes: whatever task
    runs and whoever holds a mutex, [os_mutex_lock] with the timeout of the file system returns (at
    once, or with a timeout), and so does [os_mutex_unlock]. With it the theorems on the file
    system hold for the kernel of [src/kernel.c] and the RAM disk. *)
From Stdlib Require Import ZArith Lia.
From stdpp Require Import base numbers gmap list.
From S2P Require Import Prelude Types Kernel ReadyQueue Scheduler KernelApi KernelTheorems Sync SyncTheorems.
From S2P Require Import Ramdisk Filesystem FsLayers FsTheorems FsNames FsOpen.

Section kernel.
Context `{!Platform}.

(** The lock loop runs at most once per tick of its timeout. *)
Definition lock_fuel : nat := 1001.
#[export] Instance sync_services : Services sys_t := {|
  sv_mutex_init := Sync.os_mutex_init;
  sv_mutex_lock := Sync.os_mutex_lock id lock_fuel;
  sv_mutex_unlock := Sync.os_mutex_unlock id;
  sv_get_tick_count := λ s, tick_count (kget s)
|}.

(** A mutex that is free and without an owner, or held by a task that exists. *)
Definition mutex_ok (m : ptr) (s : sys_t) : Prop := ∃ x, mutexes s !! m = Some x ∧
  if m_locked x then present (m_owner x) s else m_owner x = NULL.
Definition sync_calm (s : sys_t) : Prop := live (kget s) ∧ ∀ m, fs_mutex m → mutex_ok m s.

(** The other mutexes of the file system. *)
Definition others_ok (m : ptr) (s : sys_t) : Prop := ∀ m', fs_mutex m' → m' ≠ m → mutex_ok m' s.

Lemma fs_mutex_not_null m : fs_mutex m → m ≠ NULL.
Proof. unfold fs_mutex, fs_lock, file_lock, NULL. intros [->|(i & Hi & ->)]; lia. Qed.

Lemma current_present s : live (kget s) → present (current_task (kget s)) s.
Proof. intros ([q Hk] & _ & Hc). by destruct (kr_current _ _ Hk). Qed.

Lemma mutex_ok_kput m k s : mutex_ok m s →
  (∀ a, is_Some (tasks (kget s) !! a) → is_Some (tasks k !! a)) → mutex_ok m (kput k s).
Proof.
  intros (x & Hx & Hl) Hk. exists x. split; [done|]. destruct (m_locked x); [by apply present_kput|done].
Qed.

Lemma others_ok_kput m k s : others_ok m s →
  (∀ a, is_Some (tasks (kget s) !! a) → is_Some (tasks k !! a)) → others_ok m (kput k s).
Proof. intros Ho Hk m' Hm Hne. apply mutex_ok_kput; [by apply Ho|done]. Qed.

Lemma others_ok_set m y s : others_ok m s → others_ok m (s <| mutexes ::= <[m := y]> |>).
Proof.
  intros Ho m' Hm Hne. destruct (Ho m' Hm Hne) as (x & Hx & Hl). exists x. split; [|done].
  cbn. by rewrite lookup_insert_ne.
Qed.

Lemma calm_split m s : fs_mutex m → sync_calm s → live (kget s) ∧ mutex_ok m s ∧ others_ok m s.
Proof. intros Hm [Hl Hall]. split; [done|]. split; [by apply Hall|]. intros m' Hm' _. by apply Hall. Qed.
Lemma calm_join m s : live (kget s) → mutex_ok m s → others_ok m s → sync_calm s.
Proof. intros Hl Hm Ho. split; [done|]. intros m' Hm'. destruct (decide (m' = m)) as [->|]; [done|by apply Ho]. Qed.

#[local] Instance rely_lock m c me : Rely id (λ s, held m c s ∧ present me s ∧ others_ok m s).
Proof.
  apply rely_id. intros k s (Hh & Hp & Ho) Hk.
  split; [by apply held_kput|]. split; [by apply present_kput|by apply others_ok_kput].
Qed.
#[local] Instance rely_unlock m c : Rely id (λ s, held m c s ∧ others_ok m s).
Proof. apply rely_id. intros k s [Hh Ho] Hk. split; [by apply held_kput|by apply others_ok_kput]. Qed.

#[export] Instance sync_laws : ServiceLaws sync_calm.
Proof.
  split.
  - intros m s Hm Hs. destruct (calm_split m s Hm Hs) as (Hl & (x & Hx & Hlk) & Ho).
    pose proof (fs_mutex_not_null m Hm) as Hnn. pose proof (current_present s Hl) as Hcur.
    set (me := current_task (kget s)) in *. apply wp_elim. cbn [sv_mutex_lock sync_services].
    destruct (m_locked x) eqn:El.
    + eapply wp_mono; [apply (lock_held_times_out id m (m_owner x) me lock_fuel 1000
        (λ s, present me s ∧ others_ok m s)); try done|].
      * by intros s0 [? _].
      * split; [done|]. by exists x.
      * unfold lock_fuel. lia.
      * intros e s' (_ & _ & Hl' & (Hc & y & Hy & Hyl & Hyo) & [_ Ho'] & _).
        apply (calm_join m); [done| |done]. exists y. split; [done|]. by rewrite Hyl, Hyo.
    + eapply wp_mono; [apply (lock_free id m me); [done|done|done|by exists x]|].
      intros e s' (_ & p & ->). apply (calm_join m); [done| |by apply others_ok_set].
      exists (Mutex true me p). split; [apply lookup_insert_eq|done].
  - intros m s Hm Hs. destruct (calm_split m s Hm Hs) as (Hl & (x & Hx & Hlk) & Ho).
    pose proof (fs_mutex_not_null m Hm) as Hnn. pose proof (current_present s Hl) as Hcur.
    set (me := current_task (kget s)) in *. apply wp_elim. cbn [sv_mutex_unlock sync_services].
    destruct (decide (m_owner x = me)) as [Eo|Eo].
    + destruct (m_locked x) eqn:El; [|by destruct (task_not_null s me Hl Hcur); congruence].
      eapply wp_mono; [apply (unlock_owner id m me (others_ok m) sync_calm); try done|].
      * intros s0 k H0 Hk. by apply others_ok_kput.
      * intros s0 y. apply others_ok_set.
      * split; [done|]. by exists x.
      * intros s1 Hl1 (y & Hy & Hyl) Hnone Ho1. apply (calm_join m); [done| |done].
        exists y. split; [done|]. rewrite Hyl. by apply Hnone.
      * by intros e s' [_ ?].
    + eapply wp_mono; [by apply (unlock_not_owner id m me s x)|]. by intros e s' [_ ->].
  - intros m s Hm Hs. destruct (calm_split m s Hm Hs) as (Hl & (x & Hx & _) & Ho).
    cbn [sv_mutex_init sync_services]. unfold Sync.os_mutex_init, obj_set.
    destruct (Z.eqb_spec m NULL) as [E|_]; [by apply fs_mutex_not_null in Hm|]. rewrite Hx. eexists.
    split; [reflexivity|]. apply (calm_join m); [done| |by apply others_ok_set].
    exists (Mutex false NULL PRIORITY_IDLE). split; [apply lookup_insert_eq|done].
  - intros s [([q Hk] & _) _]. apply (kr_tick _ _ Hk).
Qed.
End kernel.
