(* ===== verification/Coap.v ===== *)
(** Coap: the CoAP client and server of [src/coap.c].

    The memory that CoAP messages point into is a set of byte objects: a pointer is an object and an
    offset, and an access outside its object, or to an object whose lifetime has ended, is undefined
    behaviour. Structures ([coap_pdu_t], [coap_context_t], [coap_resource_t], [coap_response_t])
    have an address in a map of their type; the byte array [buffer] of the message at address [a] is
    the byte object [a]. Local variables get a new (negative) address when their block is entered
    and lose it when it is left; a local that has not been assigned holds what the parameters
    [junk] and [junk_pdu] say. The sockets of src/net/socket.c, the allocator of src/memory.c and the
    tick counter are reached through the class [CoapServices].

    A pointer that is moved behind the end of its array ([ptr + opt_length]) is only compared, and
    has the value that the target's linear address space gives it. *)
From Stdlib Require Import ZArith Lia String.
From stdpp Require Import base numbers list gmap.
From S2P Require Import Prelude Types Bytes.

(** * Constants and types of include/tinyos/coap.h *)
Definition COAP_VERSION : Z := 1.
Definition COAP_DEFAULT_PORT : Z := 5683.
Definition COAP_MAX_PDU_SIZE : Z := 1152.
Definition COAP_MAX_TOKEN_LEN : Z := 8.
Definition COAP_MAX_OPTION_COUNT : Z := 16.
Definition COAP_MAX_PAYLOAD_SIZE : Z := 1024.
Definition COAP_HEADER_SIZE : Z := 4.
Definition COAP_PAYLOAD_MARKER : Z := 0xFF.

Inductive coap_msg_type_t := COAP_TYPE_CON | COAP_TYPE_NON | COAP_TYPE_ACK | COAP_TYPE_RST.
Definition msg_type_code (t : coap_msg_type_t) : Z :=
  match t with COAP_TYPE_CON => 0 | COAP_TYPE_NON => 1 | COAP_TYPE_ACK => 2 | COAP_TYPE_RST => 3 end.
(** The enumeration constant with the value [z], for [z] of two bits. *)
Definition msg_type_of (z : Z) : coap_msg_type_t :=
  match z with 0 => COAP_TYPE_CON | 1 => COAP_TYPE_NON | 2 => COAP_TYPE_ACK | _ => COAP_TYPE_RST end.

Inductive coap_method_t := COAP_METHOD_GET | COAP_METHOD_POST | COAP_METHOD_PUT | COAP_METHOD_DELETE.
Definition method_code (m : coap_method_t) : Z :=
  match m with
  | COAP_METHOD_GET => 1 | COAP_METHOD_POST => 2 | COAP_METHOD_PUT => 3 | COAP_METHOD_DELETE => 4
  end.
#[global] Instance coap_method_eq_dec : EqDecision coap_method_t.
Proof. solve_decision. Defined.

Definition COAP_RESPONSE_201_CREATED : Z := 65.
Definition COAP_RESPONSE_202_DELETED : Z := 66.
Definition COAP_RESPONSE_203_VALID : Z := 67.
Definition COAP_RESPONSE_204_CHANGED : Z := 68.
Definition COAP_RESPONSE_205_CONTENT : Z := 69.
Definition COAP_RESPONSE_400_BAD_REQUEST : Z := 128.
Definition COAP_RESPONSE_404_NOT_FOUND : Z := 132.
Definition COAP_RESPONSE_405_METHOD_NOT_ALLOWED : Z := 133.
Definition COAP_RESPONSE_500_INTERNAL_ERROR : Z := 160.
Definition COAP_OPTION_URI_PATH : Z := 11.
Definition COAP_OPTION_CONTENT_FORMAT : Z := 12.
Definition COAP_CONTENT_FORMAT_TEXT_PLAIN : Z := 0.

Inductive coap_error_t :=
| COAP_OK | COAP_ERROR_INVALID_PARAM | COAP_ERROR_NO_MEMORY | COAP_ERROR_TIMEOUT
| COAP_ERROR_NETWORK | COAP_ERROR_PARSE | COAP_ERROR_INVALID_MESSAGE | COAP_ERROR_NOT_FOUND
| COAP_ERROR_OBSERVE_FAILED | COAP_ERROR_MAX_RETRANSMIT.
#[global] Instance coap_error_eq_dec : EqDecision coap_error_t.
Proof. solve_decision. Defined.

(** A pointer into a byte object; object 0 is [NULL]. *)
Record loc := Loc { l_obj : Z; l_off : Z }.
Definition null_loc : loc := Loc 0 0.
Definition is_null (p : loc) : bool := l_obj p =? 0.
Definition loc_add (p : loc) (n : Z) : loc := Loc (l_obj p) (l_off p + n).

Record coap_option_t := Option { o_number : Z; o_length : Z; o_value : loc }.
Definition option_zero : coap_option_t := Option 0 0 null_loc.

Record coap_pdu_t := Pdu {
  p_version : Z;
  p_type : coap_msg_type_t;
  p_token_length : Z;
  p_code : Z;
  p_message_id : Z;
  p_token : list Z;
  p_options : list coap_option_t;
  p_option_count : Z;
  p_payload : loc;
  p_payload_length : Z;
  p_buffer_length : Z
}.
#[export] Instance pdu_eta : Eta coap_pdu_t := λ r,
  Pdu (p_version r) (p_type r) (p_token_length r) (p_code r) (p_message_id r) (p_token r)
    (p_options r) (p_option_count r) (p_payload r) (p_payload_length r) (p_buffer_length r).
Definition pdu_zero : coap_pdu_t :=
  Pdu 0 COAP_TYPE_CON 0 0 0 (replicate 8 0) (replicate 16 option_zero) 0 null_loc 0 0.

Record coap_response_t := Response {
  r_code : Z; r_content_format : Z; r_payload : loc; r_payload_length : Z; r_success : bool
}.
#[export] Instance response_eta : Eta coap_response_t := λ r,
  Response (r_code r) (r_content_format r) (r_payload r) (r_payload_length r) (r_success r).

Record coap_resource_t := Resource {
  uri_path : list Z; handler : Z; user_data : Z; observable : bool; max_age : Z; next : Z
}.
#[export] Instance resource_eta : Eta coap_resource_t := λ r,
  Resource (uri_path r) (handler r) (user_data r) (observable r) (max_age r) (next r).

Record coap_endpoint_t := Endpoint { ip_address : Z; port : Z }.
Record coap_context_t := Context {
  endpoint : coap_endpoint_t;
  socket_fd : Z;
  next_message_id : Z;
  resources : Z;
  response_handler : Z;
  observe_handler : Z;
  c_user_data : Z;
  is_server : bool
}.
#[export] Instance context_eta : Eta coap_context_t := λ r,
  Context (endpoint r) (socket_fd r) (next_message_id r) (resources r) (response_handler r)
    (observe_handler r) (c_user_data r) (is_server r).

Record coap_config_t := Config {
  bind_address : Z; cfg_port : Z; enable_observe : bool; ack_timeout_ms : Z; max_retransmit : Z
}.

(** What CoAP uses of the rest of the system, on a state [E]: UDP sockets, memory, time. A socket
    address is a pair of an IP address and a port; [sv_recvfrom] returns the length, the bytes
    received and the sender. *)
Class CoapServices (E : Type) := {
  sv_socket : M E Z;
  sv_bind : Z → Z * Z → M E os_error_t;
  sv_close : Z → M E unit;
  sv_sendto : Z → list Z → Z * Z → M E Z;
  sv_recvfrom : Z → Z → M E (Z * list Z * (Z * Z));
  sv_malloc : Z → M E Z;
  sv_free : Z → M E unit;
  sv_ticks : E → Z
}.

Record coap_world (E : Type) := World {
  env : E;
  objs : gmap Z (list Z);
  pdus : gmap Z coap_pdu_t;
  contexts : gmap Z coap_context_t;
  resource_at : gmap Z coap_resource_t;
  responses : gmap Z coap_response_t;
  locals : Z
}.
Arguments World {E} _ _ _ _ _ _ _.
Arguments env {E} _.
Arguments objs {E} _.
Arguments pdus {E} _.
Arguments contexts {E} _.
Arguments resource_at {E} _.
Arguments responses {E} _.
Arguments locals {E} _.
#[export] Instance coap_world_eta E : Eta (coap_world E) := λ r,
  World (env r) (objs r) (pdus r) (contexts r) (resource_at r) (responses r) (locals r).

(** * Strings *)

(** The characters before the first NUL. *)
Fixpoint c_string (l : list Z) : list Z :=
  match l with
  | [] => []
  | c :: l => if c =? 0 then [] else c :: c_string l
  end.
(** [strchr (s, c)]: the offset of the first [c]. *)
Fixpoint strchr (s : list Z) (c : Z) : option nat :=
  match s with
  | [] => None
  | x :: s => if x =? c then Some O else S <$> strchr s c
  end.
(** [strcmp (a, b) == 0] of two arrays; [None]: the comparison runs off one of them. *)
Fixpoint same_string (a b : list Z) : option bool :=
  match a, b with
  | x :: a, y :: b => if x =? y then if x =? 0 then Some true else same_string a b else Some false
  | _, _ => None
  end.
(** [strncpy (dst, src, n)]: at most [n] characters of the string [src], the rest of the [n] filled
    with NUL. *)
Definition strncpy (src : list Z) (n : nat) : list Z := take n (src ++ replicate n 0).

Definition SLASH : Z := 47.

(** * The operations *)
Section coap.
Context {E : Type} `{!CoapServices E}.
(** What unassigned memory holds. *)
Context (junk : nat → Z) (junk_pdu : coap_pdu_t).
(** The resource handlers, by the value of the function pointer: the arguments are the addresses of
    the context, the resource, the request and the response, and the user data. *)
Context (call_handler : Z → Z → Z → Z → Z → Z → M (coap_world E) unit).
Abbreviation W := (coap_world E).

Definition uninit (n : Z) : list Z := junk <$> seq 0 (Z.to_nat n).

(** ** Access to memory *)

(** The [n] bytes at [p]; reading no bytes accesses nothing. *)
Definition load (p : loc) (n : Z) : M W (list Z) :=
  if n =? 0 then ret []
  else
  let! m := gets objs in
  match m !! l_obj p with
  | Some bs =>
      if (0 <=? l_off p) && (l_off p + n <=? Z.of_nat (length bs)) && negb (is_null p)
      then ret (take (Z.to_nat n) (drop (Z.to_nat (l_off p)) bs)) else undef
  | None => undef
  end.
Definition load1 (p : loc) : M W Z :=
  let! l := load p 1 in
  match l with b :: _ => ret b | [] => undef end.
Definition store_bytes (p : loc) (src : list Z) : M W unit :=
  let! m := gets objs in
  match m !! l_obj p with
  | Some bs =>
      if (0 <=? l_off p) && (l_off p + Z.of_nat (length src) <=? Z.of_nat (length bs)) && negb (is_null p)
      then modify (λ w, w <| objs ::= <[l_obj p := put (Z.to_nat (l_off p)) src bs]> |>) else undef
  | None => undef
  end.

(** A structure in the map [proj]: read, and modified by [f]. *)
Definition deref {T} (proj : W → gmap Z T) (a : Z) : M W T :=
  let! m := gets proj in
  match m !! a with Some x => ret x | None => undef end.
Definition assign {T} (proj : W → gmap Z T) `{!Setter proj} (a : Z) (f : T → T) : M W unit :=
  let! x := deref proj a in
  modify (λ w, w <| proj ::= <[a := f x]> |>).

(** Local variables. *)
Definition local_address : M W Z :=
  let! a := gets locals in
  modify (λ w, w <| locals := a - 1 |>) ;;;
  ret a.
Definition local_array (bs : list Z) : M W Z :=
  let! a := local_address in
  modify (λ w, w <| objs ::= <[a := bs]> |>) ;;;
  ret a.
Definition local_pdu : M W Z :=
  let! a := local_address in
  modify (λ w, w <| pdus ::= <[a := junk_pdu]> |> <| objs ::= <[a := uninit COAP_MAX_PDU_SIZE]> |>) ;;;
  ret a.
(** The end of the lifetime of the locals at the addresses [l]. *)
Definition leave (l : list Z) : M W unit :=
  modify (λ w, w <| objs ::= λ m, foldr delete m l |> <| pdus ::= λ m, foldr delete m l |>).

(** ** Helpers *)
Definition coap_generate_message_id (context : Z) : M W Z :=
  let! c := deref contexts context in
  assign contexts context (λ c, c <| next_message_id := u16 (next_message_id c + 1) |>) ;;;
  ret (next_message_id c).

(** The bytes stored into [token]; a shift by 32 or more is undefined. *)
Fixpoint token_bytes (n : nat) (i tick : Z) : M W (list Z) :=
  match n with
  | O => ret []
  | S n =>
      if i <? COAP_MAX_TOKEN_LEN then
        if 32 <=? i * 8 then undef
        else
          let! l := token_bytes n (i + 1) tick in
          ret (Z.land (Z.shiftr tick (i * 8)) 0xFF :: l)
      else ret []
  end.
Definition coap_generate_token (len : Z) : M W (list Z) :=
  let! tick := gets (λ w, sv_ticks (env w)) in
  token_bytes (Z.to_nat len) 0 tick.

(** The nibble for [value] and the bytes stored into [buffer]. *)
Definition coap_encode_option_delta_length (value : Z) : Z * list Z :=
  if value <? 13 then (value, [])
  else if value <? 269 then (13, [u8 (value - 13)])
  else (14, [u8 (Z.shiftr (value - 269) 8); Z.land (value - 269) 0xFF]).

(** The value for the nibble [encoded] and the pointer [*buffer] afterwards. *)
Definition coap_decode_option_delta_length (buffer : loc) (encoded : Z) : M W (Z * loc) :=
  if encoded <? 13 then ret (encoded, buffer)
  else if encoded =? 13 then
    let! val := load1 buffer in
    ret (val + 13, loc_add buffer 1)
  else if encoded =? 14 then
    let! hi := load1 buffer in
    let! lo := load1 (loc_add buffer 1) in
    ret (u16 (Z.lor (Z.shiftl hi 8) lo + 269), loc_add buffer 2)
  else ret (0, buffer).

(** ** Messages *)
Definition coap_pdu_init (pdu : Z) (type : coap_msg_type_t) (code message_id : Z) : M W coap_error_t :=
  if pdu =? 0 then ret COAP_ERROR_INVALID_PARAM
  else
    assign pdus pdu (λ _, pdu_zero) ;;;
    store_bytes (Loc pdu 0) (replicate (Z.to_nat COAP_MAX_PDU_SIZE) 0) ;;;
    assign pdus pdu (λ p, p <| p_version := COAP_VERSION |> <| p_type := type |> <| p_code := code |>
      <| p_message_id := message_id |> <| p_token_length := 0 |> <| p_option_count := 0 |>
      <| p_payload := null_loc |> <| p_payload_length := 0 |>) ;;;
    ret COAP_OK.

(** [token]: the bytes from the pointer on, [None] for a null pointer. *)
Definition coap_pdu_set_token (pdu : Z) (token : option (list Z)) (token_length : Z) : M W coap_error_t :=
  if (pdu =? 0) || (COAP_MAX_TOKEN_LEN <? token_length) then ret COAP_ERROR_INVALID_PARAM
  else
    match token with
    | Some t =>
        if 0 <? token_length then
          if Z.of_nat (length t) <? token_length then undef
          else assign pdus pdu (λ p, p <| p_token := put 0 (take (Z.to_nat token_length) t) (p_token p) |>)
        else ret tt
    | None => ret tt
    end ;;;
    assign pdus pdu (λ p, p <| p_token_length := token_length |>) ;;;
    ret COAP_OK.

Definition coap_pdu_add_option (pdu option_num : Z) (value : loc) (len : Z) : M W coap_error_t :=
  if pdu =? 0 then ret COAP_ERROR_INVALID_PARAM
  else
    let! p := deref pdus pdu in
    if COAP_MAX_OPTION_COUNT <=? p_option_count p then ret COAP_ERROR_INVALID_PARAM
    else
      assign pdus pdu (λ p, p <| p_options := arr_set (p_options p) (p_option_count p) (Option option_num len value) |>
        <| p_option_count := u8 (p_option_count p + 1) |>) ;;;
      ret COAP_OK.

Definition coap_pdu_set_payload (pdu : Z) (payload : loc) (len : Z) : M W coap_error_t :=
  if (pdu =? 0) || (COAP_MAX_PAYLOAD_SIZE <? len) then ret COAP_ERROR_INVALID_PARAM
  else
    assign pdus pdu (λ p, p <| p_payload := payload |> <| p_payload_length := len |>) ;;;
    ret COAP_OK.

(** The first of the options [i], [i + 1], ..., below [option_count], that has the number. *)
Fixpoint get_option_from (n : nat) (i : Z) (p : coap_pdu_t) (option_num : Z) : M W (option coap_option_t) :=
  match n with
  | O => ret None
  | S n =>
      let! o := arr_get (p_options p) i in
      if o_number o =? option_num then ret (Some o) else get_option_from n (i + 1) p option_num
  end.
Definition coap_pdu_get_option (pdu option_num : Z) : M W (option coap_option_t) :=
  if pdu =? 0 then ret None
  else
    let! p := deref pdus pdu in
    get_option_from (Z.to_nat (p_option_count p)) 0 p option_num.

(** *** Encoding *)

(** [if (remaining < n) return -1; ... ptr += n; remaining -= n;] around storing [n] bytes: [None]
    is the early return, otherwise the new [ptr - buffer] and [remaining]. *)
Definition emit (buffer : loc) (at_ : Z * Z) (bs : M W (list Z)) (n : Z) : M W (option (Z * Z)) :=
  if at_.2 <? n then ret None
  else
    let! bs := bs in
    store_bytes (loc_add buffer at_.1) bs ;;;
    ret (Some (at_.1 + n, at_.2 - n)).
(** Continue unless the function has returned. *)
Definition and_then {A B} (m : M W (option A)) (f : A → M W (option B)) : M W (option B) :=
  let! r := m in
  match r with Some a => f a | None => ret None end.
Definition emit_ext (buffer : loc) (at_ : Z * Z) (nibble : Z) (ext : list Z) : M W (option (Z * Z)) :=
  if nibble =? 13 then emit buffer at_ (ret (take 1 ext)) 1
  else if nibble =? 14 then emit buffer at_ (ret (take 2 ext)) 2
  else ret (Some at_).

Definition encode_option (buffer : loc) (at_ : Z * Z) (prev : Z) (opt : coap_option_t) : M W (option (Z * Z)) :=
  let delta := u16 (o_number opt - prev) in
  let '(delta_nibble, delta_ext) := coap_encode_option_delta_length delta in
  let '(length_nibble, length_ext) := coap_encode_option_delta_length (o_length opt) in
  and_then (emit buffer at_ (ret [u8 (Z.lor (Z.shiftl delta_nibble 4) length_nibble)]) 1) (λ at_,
  and_then (emit_ext buffer at_ delta_nibble delta_ext) (λ at_,
  and_then (emit_ext buffer at_ length_nibble length_ext) (λ at_,
  if 0 <? o_length opt then emit buffer at_ (load (o_value opt) (o_length opt)) (o_length opt)
  else ret (Some at_)))).

Fixpoint encode_options (n : nat) (i : Z) (p : coap_pdu_t) (buffer : loc) (at_ : Z * Z) (prev : Z) :
    M W (option (Z * Z)) :=
  match n with
  | O => ret (Some at_)
  | S n =>
      let! opt := arr_get (p_options p) i in
      and_then (encode_option buffer at_ prev opt) (λ at_,
      encode_options n (i + 1) p buffer at_ (o_number opt))
  end.

Definition coap_pdu_encode (pdu : Z) (buffer : loc) (buffer_size : Z) : M W Z :=
  if (pdu =? 0) || is_null buffer || (buffer_size <? COAP_HEADER_SIZE) then ret (-1)
  else
    let! p := deref pdus pdu in
    store_bytes buffer
      [u8 (Z.lor (Z.lor (Z.shiftl (p_version p) 6) (Z.shiftl (msg_type_code (p_type p)) 4)) (p_token_length p));
       p_code p; Z.shiftr (p_message_id p) 8; Z.land (p_message_id p) 0xFF] ;;;
    let at_ := (4, buffer_size - COAP_HEADER_SIZE) in
    let! r :=
      and_then
        (if 0 <? p_token_length p then
           emit buffer at_
             (if Z.of_nat (length (p_token p)) <? p_token_length p then undef
              else ret (take (Z.to_nat (p_token_length p)) (p_token p))) (p_token_length p)
         else ret (Some at_)) (λ at_,
      and_then (encode_options (Z.to_nat (p_option_count p)) 0 p buffer at_ 0) (λ at_,
      if 0 <? p_payload_length p then
        if at_.2 <? 1 + p_payload_length p then ret None
        else
          store_bytes (loc_add buffer at_.1) [COAP_PAYLOAD_MARKER] ;;;
          let! bs := load (p_payload p) (p_payload_length p) in
          store_bytes (loc_add buffer (at_.1 + 1)) bs ;;;
          ret (Some (at_.1 + 1 + p_payload_length p))
      else ret (Some at_.1))) in
    ret (default (-1) r).

(** *** Decoding *)

(** The loop of [coap_pdu_decode] with [ptr = buffer + pos]. *)
Fixpoint decode_loop (fuel : nat) (pdu : Z) (buffer : loc) (len pos option_num : Z) : M W coap_error_t :=
  if pos <? len then
    match fuel with
    | O => nofuel
    | S fuel =>
        let! b := load1 (loc_add buffer pos) in
        if b =? COAP_PAYLOAD_MARKER then
          let pos := pos + 1 in
          let payload_length := u16 (len - pos) in
          assign pdus pdu (λ p, p <| p_payload_length := payload_length |>) ;;;
          when (0 <? payload_length)
            (let! bs := load (loc_add buffer pos) payload_length in
             store_bytes (Loc pdu 0) bs ;;;
             assign pdus pdu (λ p, p <| p_payload := Loc pdu 0 |>)) ;;;
          ret COAP_OK
        else
          let! p := deref pdus pdu in
          if COAP_MAX_OPTION_COUNT <=? p_option_count p then ret COAP_ERROR_INVALID_MESSAGE
          else
            let delta_nibble := Z.land (Z.shiftr b 4) 0x0F in
            let length_nibble := Z.land b 0x0F in
            let! d := coap_decode_option_delta_length (loc_add buffer (pos + 1)) delta_nibble in
            let! l := coap_decode_option_delta_length d.2 length_nibble in
            let option_num := u16 (option_num + d.1) in
            let ptr := l.2 in
            if l_off buffer + len <? l_off ptr + l.1 then ret COAP_ERROR_INVALID_MESSAGE
            else
              assign pdus pdu (λ p, p
                <| p_options := arr_set (p_options p) (p_option_count p) (Option option_num l.1 ptr) |>
                <| p_option_count := u8 (p_option_count p + 1) |>) ;;;
              decode_loop fuel pdu buffer len (l_off ptr + l.1 - l_off buffer) option_num
    end
  else ret COAP_OK.
(** Every round but the last stores an option, and there are at most 16 of them. *)
Definition decode_fuel : nat := 18.

(** From the check of the version on: the token and the options. *)
Definition decode_body (pdu : Z) (buffer : loc) (len : Z) : M W coap_error_t :=
  let! p := deref pdus pdu in
  if negb (p_version p =? COAP_VERSION) then ret COAP_ERROR_INVALID_MESSAGE
  else
    let tl := p_token_length p in
    if (0 <? tl) && ((COAP_MAX_TOKEN_LEN <? tl) || (len <? 4 + tl)) then ret COAP_ERROR_INVALID_MESSAGE
    else
      when (0 <? tl)
        (let! t := load (loc_add buffer 4) tl in
         assign pdus pdu (λ p, p <| p_token := put 0 t (p_token p) |>)) ;;;
      assign pdus pdu (λ p, p <| p_option_count := 0 |>) ;;;
      decode_loop decode_fuel pdu buffer len (4 + tl) 0.

Definition coap_pdu_decode (pdu : Z) (buffer : loc) (len : Z) : M W coap_error_t :=
  if (pdu =? 0) || is_null buffer || (len <? COAP_HEADER_SIZE) then ret COAP_ERROR_INVALID_PARAM
  else
    let! b0 := load1 buffer in
    assign pdus pdu (λ p, p <| p_version := Z.land (Z.shiftr b0 6) 0x03 |>
      <| p_type := msg_type_of (Z.land (Z.shiftr b0 4) 0x03) |> <| p_token_length := Z.land b0 0x0F |>) ;;;
    let! b1 := load1 (loc_add buffer 1) in
    let! b2 := load1 (loc_add buffer 2) in
    let! b3 := load1 (loc_add buffer 3) in
    assign pdus pdu (λ p, p <| p_code := b1 |> <| p_message_id := Z.lor (Z.shiftl b2 8) b3 |>) ;;;
    decode_body pdu buffer len.

(** ** Contexts *)
Definition on_env {A} (m : M E A) : M W A := zoom env m.

Definition coap_init (context : Z) (config : option coap_config_t) (server : bool) : M W coap_error_t :=
  match config with
  | None => ret COAP_ERROR_INVALID_PARAM
  | Some cfg =>
      if context =? 0 then ret COAP_ERROR_INVALID_PARAM
      else
        assign contexts context (λ _,
          Context (Endpoint (bind_address cfg) (if cfg_port cfg =? 0 then COAP_DEFAULT_PORT else cfg_port cfg))
            (-1) 1 0 0 0 0 server) ;;;
        ret COAP_OK
  end.

Definition coap_start (context : Z) : M W coap_error_t :=
  if context =? 0 then ret COAP_ERROR_INVALID_PARAM
  else
    let! fd := on_env sv_socket in
    assign contexts context (λ c, c <| socket_fd := fd |>) ;;;
    let! c := deref contexts context in
    if socket_fd c <? 0 then ret COAP_ERROR_NETWORK
    else
      let! e := on_env (sv_bind (socket_fd c) (ip_address (endpoint c), port (endpoint c))) in
      if bool_decide (e ≠ OS_OK) then
        on_env (sv_close (socket_fd c)) ;;;
        assign contexts context (λ c, c <| socket_fd := -1 |>) ;;;
        ret COAP_ERROR_NETWORK
      else ret COAP_OK.

(** [os_free (resource)]: the structure is gone. *)
Definition free_resource (resource : Z) : M W unit :=
  on_env (sv_free resource) ;;;
  modify (λ w, w <| resource_at ::= delete resource |>).
Fixpoint free_resources (fuel : nat) (resource : Z) : M W unit :=
  if resource =? 0 then ret tt
  else
    match fuel with
    | O => nofuel
    | S fuel =>
        let! r := deref resource_at resource in
        free_resource resource ;;;
        free_resources fuel (next r)
    end.
Definition coap_stop (context : Z) : M W unit :=
  if context =? 0 then ret tt
  else
    let! c := deref contexts context in
    when (0 <=? socket_fd c)
      (on_env (sv_close (socket_fd c)) ;;;
       assign contexts context (λ c, c <| socket_fd := -1 |>)) ;;;
    let! c := deref contexts context in
    let! n := gets (λ w, size (resource_at w)) in
    free_resources n (resources c) ;;;
    assign contexts context (λ c, c <| resources := 0 |>).

(** ** Client *)

(** The loop that adds the Uri-Path options: [path] is the rest of the path ([None] for a null
    pointer), [slash] the offset of the next slash in it. *)
Fixpoint add_segments (fuel : nat) (request path_segment : Z) (path : option (list Z)) (slash : option nat) :
    M W unit :=
  match path with
  | None | Some [] => ret tt
  | Some s =>
      match fuel with
      | O => nofuel
      | S fuel =>
          let! rest :=
            match slash with
            | Some k =>
                let len := if (64 <=? k)%nat then 63%nat else k in
                store_bytes (Loc path_segment 0) (take len s) ;;;
                store_bytes (Loc path_segment (Z.of_nat len)) [0] ;;;
                let path := drop (S k) s in
                ret (Some path, strchr path SLASH)
            | None =>
                store_bytes (Loc path_segment 0) (strncpy s 63) ;;;
                store_bytes (Loc path_segment 63) [0] ;;;
                ret (None, None)
            end in
          let! seg := load (Loc path_segment 0) 64 in
          let len := Z.of_nat (length (c_string seg)) in
          when (0 <? len)
            (let! _ := coap_pdu_add_option request COAP_OPTION_URI_PATH (Loc path_segment 0) len in
             ret tt) ;;;
          add_segments fuel request path_segment rest.1 rest.2
      end
  end.

(** [memcmp (a, b, n) != 0] *)
Definition differ (n : Z) (a b : list Z) : bool := bool_decide (take (Z.to_nat n) a ≠ take (Z.to_nat n) b).
(** [COAP_CODE_CLASS (c)] *)
Definition code_class (c : Z) : Z := Z.shiftr c 5.

(** From the decoded answer on. *)
Definition fill_response (request resp_pdu response : Z) : M W coap_error_t :=
  let! rp := deref pdus resp_pdu in
  let! rq := deref pdus request in
  if negb (p_token_length rp =? p_token_length rq) || differ (p_token_length rq) (p_token rp) (p_token rq)
  then ret COAP_ERROR_INVALID_MESSAGE
  else
    assign responses response (λ r, r <| r_code := p_code rp |> <| r_success := code_class (p_code rp) =? 2 |>) ;;;
    let! cf_opt := coap_pdu_get_option resp_pdu COAP_OPTION_CONTENT_FORMAT in
    let! format :=
      match cf_opt with
      | Some o => if 0 <? o_length o then load1 (o_value o) else ret COAP_CONTENT_FORMAT_TEXT_PLAIN
      | None => ret COAP_CONTENT_FORMAT_TEXT_PLAIN
      end in
    assign responses response (λ r, r <| r_content_format := format |>) ;;;
    (if 0 <? p_payload_length rp then
       let! a := on_env (sv_malloc (p_payload_length rp)) in
       when (negb (a =? 0)) (modify (λ w, w <| objs ::= <[a := uninit (p_payload_length rp)]> |>)) ;;;
       assign responses response (λ r, r <| r_payload := Loc a 0 |>) ;;;
       when (negb (a =? 0))
         (let! bs := load (p_payload rp) (p_payload_length rp) in
          store_bytes (Loc a 0) bs ;;;
          assign responses response (λ r, r <| r_payload_length := p_payload_length rp |>))
     else assign responses response (λ r, r <| r_payload := null_loc |> <| r_payload_length := 0 |>)) ;;;
    ret COAP_OK.

(** From the encoded request on: send it, wait for an answer and decode it. *)
Definition exchange (context request : Z) (server : Z * Z) (buffer recv_buffer resp_pdu : Z)
    (response : Z) : M W coap_error_t :=
  let! len := coap_pdu_encode request (Loc buffer 0) COAP_MAX_PDU_SIZE in
  if len <? 0 then ret COAP_ERROR_PARSE
  else
    let! c := deref contexts context in
    let! bs := load (Loc buffer 0) len in
    let! sent := on_env (sv_sendto (socket_fd c) bs server) in
    if sent <? 0 then ret COAP_ERROR_NETWORK
    else
      let! r := on_env (sv_recvfrom (socket_fd c) COAP_MAX_PDU_SIZE) in
      store_bytes (Loc recv_buffer 0) r.1.2 ;;;
      if r.1.1 <=? 0 then ret COAP_ERROR_TIMEOUT
      else
        let! e := coap_pdu_decode resp_pdu (Loc recv_buffer 0) r.1.1 in
        if bool_decide (e ≠ COAP_OK) then ret COAP_ERROR_PARSE
        else fill_response request resp_pdu response.

Definition coap_send_request_internal (context : Z) (server : Z * Z) (method : coap_method_t)
    (path : option (list Z)) (content_format : Z) (payload : loc) (payload_length response : Z) :
    M W coap_error_t :=
  match path with
  | None => ret COAP_ERROR_INVALID_PARAM
  | Some path =>
      if (context =? 0) || (response =? 0) then ret COAP_ERROR_INVALID_PARAM
      else
        let! request := local_pdu in
        let! path_segment := local_array (uninit 64) in
        let! buffer := local_array (uninit COAP_MAX_PDU_SIZE) in
        let! recv_buffer := local_array (uninit COAP_MAX_PDU_SIZE) in
        let! resp_pdu := local_pdu in
        let! msg_id := coap_generate_message_id context in
        let! _ := coap_pdu_init request COAP_TYPE_CON (method_code method) msg_id in
        let! token := coap_generate_token 4 in
        let! _ := coap_pdu_set_token request (Some token) 4 in
        let path := match path with c :: rest => if c =? SLASH then rest else path | [] => path end in
        add_segments (S (length path)) request path_segment (Some path) (strchr path SLASH) ;;;
        when (bool_decide (method = COAP_METHOD_POST ∨ method = COAP_METHOD_PUT) && (0 <? payload_length))
          (let! format := local_array [u8 content_format] in
           let! _ := coap_pdu_add_option request COAP_OPTION_CONTENT_FORMAT (Loc format 0) 1 in
           let! _ := coap_pdu_set_payload request payload payload_length in
           leave [format]) ;;;
        let! e := exchange context request server buffer recv_buffer resp_pdu response in
        leave [request; path_segment; buffer; recv_buffer; resp_pdu] ;;;
        ret e
  end.

Definition coap_get (context : Z) (server : Z * Z) (path : option (list Z)) (response : Z) : M W coap_error_t :=
  coap_send_request_internal context server COAP_METHOD_GET path COAP_CONTENT_FORMAT_TEXT_PLAIN null_loc 0 response.
Definition coap_post (context : Z) (server : Z * Z) (path : option (list Z)) (content_format : Z)
    (payload : loc) (payload_length response : Z) : M W coap_error_t :=
  coap_send_request_internal context server COAP_METHOD_POST path content_format payload payload_length response.
Definition coap_put (context : Z) (server : Z * Z) (path : option (list Z)) (content_format : Z)
    (payload : loc) (payload_length response : Z) : M W coap_error_t :=
  coap_send_request_internal context server COAP_METHOD_PUT path content_format payload payload_length response.
Definition coap_delete (context : Z) (server : Z * Z) (path : option (list Z)) (response : Z) : M W coap_error_t :=
  coap_send_request_internal context server COAP_METHOD_DELETE path COAP_CONTENT_FORMAT_TEXT_PLAIN null_loc 0 response.

(** ** Server *)

(** [sizeof (coap_resource_t)]: 64 characters, two pointers, a padded [bool], an integer, a pointer. *)
Definition resource_size : Z := 84.
Definition coap_resource_create (context : Z) (path : option (list Z)) (h data : Z) : M W Z :=
  match path with
  | None => ret 0
  | Some path =>
      if (context =? 0) || (h =? 0) then ret 0
      else
        let! resource := on_env (sv_malloc resource_size) in
        if resource =? 0 then ret 0
        else
          let! c := deref contexts context in
          modify (λ w, w <| resource_at ::= <[resource :=
            Resource (strncpy path 63 ++ [0]) h data false 60 (resources c)]> |>) ;;;
          assign contexts context (λ c, c <| resources := resource |>) ;;;
          ret resource
  end.
Definition coap_resource_set_observable (resource age : Z) : M W coap_error_t :=
  if resource =? 0 then ret COAP_ERROR_INVALID_PARAM
  else
    assign resource_at resource (λ r, r <| observable := true |> <| max_age := age |>) ;;;
    ret COAP_OK.

Fixpoint find_resource_from (fuel : nat) (resource : Z) (path : list Z) : M W Z :=
  if resource =? 0 then ret 0
  else
    match fuel with
    | O => nofuel
    | S fuel =>
        let! r := deref resource_at resource in
        match same_string (uri_path r) path with
        | Some true => ret resource
        | Some false => find_resource_from fuel (next r) path
        | None => undef
        end
    end.
Definition coap_find_resource (context : Z) (path : list Z) : M W Z :=
  let! c := deref contexts context in
  let! n := gets (λ w, size (resource_at w)) in
  find_resource_from n (resources c) path.

(** The loop over the options that builds the path: [uri] is the array, [path_len] its used part. *)
Fixpoint build_path (n : nat) (i : Z) (request : Z) (uri : list Z) (path_len : Z) : M W (list Z * Z) :=
  match n with
  | O => ret (uri, path_len)
  | S n =>
      let! p := deref pdus request in
      let! o := arr_get (p_options p) i in
      if (o_number o =? COAP_OPTION_URI_PATH) && (path_len + o_length o + 1 <? 128) then
        let! bs := load (o_value o) (o_length o) in
        let uri := put (Z.to_nat (path_len + o_length o)) [SLASH] (put (Z.to_nat path_len) bs uri) in
        build_path n (i + 1) request uri (path_len + o_length o + 1)
      else build_path n (i + 1) request uri path_len
  end.

(** A request to the server: [request] has been decoded, [response] and [resp_buffer] are locals. *)
Definition serve (context request response resp_buffer : Z) (from : Z * Z) : M W unit :=
  let! rq := deref pdus request in
  let! u := build_path (Z.to_nat (p_option_count rq)) 0 request (SLASH :: replicate 127 0) 1 in
  let uri := if 1 <? u.2 then put (Z.to_nat (u.2 - 1)) [0] u.1 else u.1 in
  let! resource := coap_find_resource context uri in
  let! _ := coap_pdu_init response COAP_TYPE_ACK COAP_RESPONSE_404_NOT_FOUND (p_message_id rq) in
  let! _ := coap_pdu_set_token response (Some (p_token rq)) (p_token_length rq) in
  when (negb (resource =? 0))
    (assign pdus response (λ p, p <| p_code := COAP_RESPONSE_205_CONTENT |>) ;;;
     let! r := deref resource_at resource in
     call_handler (handler r) context resource request response (user_data r)) ;;;
  let! len := coap_pdu_encode response (Loc resp_buffer 0) COAP_MAX_PDU_SIZE in
  when (0 <? len)
    (let! c := deref contexts context in
     let! bs := load (Loc resp_buffer 0) len in
     let! _ := on_env (sv_sendto (socket_fd c) bs from) in
     ret tt).

Definition coap_process (context : Z) : M W coap_error_t :=
  if context =? 0 then ret COAP_ERROR_INVALID_PARAM
  else
    let! c := deref contexts context in
    if socket_fd c <? 0 then ret COAP_ERROR_INVALID_PARAM
    else
      let! buffer := local_array (uninit COAP_MAX_PDU_SIZE) in
      let! request := local_pdu in
      let! response := local_pdu in
      let! resp_buffer := local_array (uninit COAP_MAX_PDU_SIZE) in
      let! r := on_env (sv_recvfrom (socket_fd c) COAP_MAX_PDU_SIZE) in
      store_bytes (Loc buffer 0) r.1.2 ;;;
      let! res :=
        (if r.1.1 <=? 0 then ret COAP_ERROR_TIMEOUT
         else
           let! e := coap_pdu_decode request (Loc buffer 0) r.1.1 in
           if bool_decide (e ≠ COAP_OK) then ret COAP_ERROR_PARSE
           else
             let! rq := deref pdus request in
             let! c := deref contexts context in
             when (is_server c && (code_class (p_code rq) =? 0))
               (serve context request response resp_buffer r.2) ;;;
             ret COAP_OK) in
      leave [buffer; request; response; resp_buffer] ;;;
      ret res.

(** ** Utilities *)
Definition coap_response_free (response : Z) : M W unit :=
  if response =? 0 then ret tt
  else
    let! r := deref responses response in
    if is_null (r_payload r) then ret tt
    else
      on_env (sv_free (l_obj (r_payload r))) ;;;
      modify (λ w, w <| objs ::= delete (l_obj (r_payload r)) |>) ;;;
      assign responses response (λ r, r <| r_payload := null_loc |> <| r_payload_length := 0 |>).
End coap.

#[local] Open Scope string_scope.
Definition coap_error_to_string (error : coap_error_t) : string :=
  match error with
  | COAP_OK => "OK"
  | COAP_ERROR_INVALID_PARAM => "Invalid parameter"
  | COAP_ERROR_NO_MEMORY => "No memory"
  | COAP_ERROR_TIMEOUT => "Timeout"
  | COAP_ERROR_NETWORK => "Network error"
  | COAP_ERROR_PARSE => "Parse error"
  | COAP_ERROR_INVALID_MESSAGE => "Invalid message"
  | COAP_ERROR_NOT_FOUND => "Not found"
  | _ => "Unknown error"
  end.
Definition coap_response_code_to_string (code : Z) : string :=
  if (code =? COAP_RESPONSE_201_CREATED)%Z then "2.01 Created"
  else if (code =? COAP_RESPONSE_202_DELETED)%Z then "2.02 Deleted"
  else if (code =? COAP_RESPONSE_203_VALID)%Z then "2.03 Valid"
  else if (code =? COAP_RESPONSE_204_CHANGED)%Z then "2.04 Changed"
  else if (code =? COAP_RESPONSE_205_CONTENT)%Z then "2.05 Content"
  else if (code =? COAP_RESPONSE_400_BAD_REQUEST)%Z then "4.00 Bad Request"
  else if (code =? COAP_RESPONSE_404_NOT_FOUND)%Z then "4.04 Not Found"
  else if (code =? COAP_RESPONSE_405_METHOD_NOT_ALLOWED)%Z then "4.05 Method Not Allowed"
  else if (code =? COAP_RESPONSE_500_INTERNAL_ERROR)%Z then "5.00 Internal Server Error"
  else "Unknown".
Close Scope string_scope.
