(* ===== verification/CoapTheorems.v ===== *)
(** CoapTheorems: the message codec of [src/coap.c].

    A message is a value ([message]) with a reference encoding ([wire], the format of RFC 7252);
    [shows w a m] says that the structure at address [a] represents the message [m], its options and
    its payload wherever their pointers lead. Encoding writes the reference encoding, decoding it
    gives the message back, and decoding arbitrary bytes is safe. *)
From Stdlib Require Import ZArith Lia.
From stdpp Require Import base numbers list gmap.
From S2P Require Import Prelude Types Bytes Coap.

(** * Messages *)
Record message := Message {
  m_type : coap_msg_type_t;
  m_code : Z;
  m_id : Z;
  m_token : list Z;
  m_options : list (Z * list Z);
  m_payload : list Z
}.

Definition len (l : list Z) : Z := Z.of_nat (length l).

Definition nibble (v : Z) : Z := if v <? 13 then v else if v <? 269 then 13 else 14.
Definition ext (v : Z) : list Z :=
  if v <? 13 then [] else if v <? 269 then [v - 13] else [(v - 269) / 256; (v - 269) mod 256].
Definition wire_option (prev : Z) (o : Z * list Z) : list Z :=
  [16 * nibble (o.1 - prev) + nibble (len o.2)] ++ ext (o.1 - prev) ++ ext (len o.2) ++ o.2.
Fixpoint wire_options (prev : Z) (l : list (Z * list Z)) : list Z :=
  match l with
  | [] => []
  | o :: l => wire_option prev o ++ wire_options o.1 l
  end.
Definition wire_payload (l : list Z) : list Z := match l with [] => [] | _ => COAP_PAYLOAD_MARKER :: l end.
Definition wire_header (m : message) : list Z :=
  [64 + 16 * msg_type_code (m_type m) + len (m_token m); m_code m; m_id m / 256; m_id m mod 256].
Definition wire (m : message) : list Z :=
  wire_header m ++ m_token m ++ wire_options 0 (m_options m) ++ wire_payload (m_payload m).

(** Option numbers in non-decreasing order from [prev] on. *)
Fixpoint options_ok (prev : Z) (l : list (Z * list Z)) : Prop :=
  match l with
  | [] => True
  | o :: l => prev ≤ o.1 < 2 ^ 16 ∧ len o.2 < 2 ^ 16 ∧ bytes_ok o.2 ∧ options_ok o.1 l
  end.
Record message_ok (m : message) : Prop := {
  ok_code : 0 ≤ m_code m < 256;
  ok_id : 0 ≤ m_id m < 2 ^ 16;
  ok_token : len (m_token m) ≤ COAP_MAX_TOKEN_LEN ∧ bytes_ok (m_token m);
  ok_options : options_ok 0 (m_options m) ∧ (length (m_options m) ≤ 16)%nat;
  ok_payload : len (m_payload m) < 2 ^ 16 ∧ bytes_ok (m_payload m)
}.

(** * Memory *)
Abbreviation objects := (gmap Z (list Z)).

(** The bytes [bs] are at [p]. *)
Definition mem_at (g : objects) (p : loc) (bs : list Z) : Prop :=
  l_obj p ≠ 0 ∧ 0 ≤ l_off p ∧
  ∃ obj, g !! l_obj p = Some obj ∧ l_off p + len bs ≤ len obj ∧
    take (length bs) (drop (Z.to_nat (l_off p)) obj) = bs.

(** Data that is empty or at [p], and not in the object [b]. *)
Definition data_at (g : objects) (p : loc) (bs : list Z) : Prop := bs = [] ∨ mem_at g p bs.
Definition apart (b : Z) (p : loc) (bs : list Z) : Prop := bs = [] ∨ l_obj p ≠ b.

Lemma data_at_frame g b x p bs : data_at g p bs → apart b p bs → data_at (<[b := x]> g) p bs.
Proof.
  intros [->|(Hn & Hoff & obj & Hobj & Hr)] [?|Hb]; try (by left).
  right. split; [done|]. split; [done|]. exists obj. by rewrite lookup_insert_ne.
Qed.

Section memory.
(** Early returns associate. *)
Lemma and_then_assoc {E A B C} (m : M (coap_world E) (option A)) (f : A → M (coap_world E) (option B))
    (g : B → M (coap_world E) (option C)) Q w :
  wp (and_then m (λ a, and_then (f a) g)) Q w = wp (and_then (and_then m f) g) Q w.
Proof.
  unfold wp, and_then, bind. destruct (m w) as [[a|] w'| |]; [|reflexivity..].
  by destruct (f a w') as [[b|] w''| |].
Qed.
Lemma wp_and_then {E A B} (m : M (coap_world E) (option A)) (f : A → M (coap_world E) (option B)) Q w :
  wp (and_then m f) Q w =
  wp m (λ r w', match r with Some a => wp (f a) Q w' | None => Q None w' end) w.
Proof. unfold and_then. rewrite wp_bind. unfold wp. by destruct (m w) as [[a|] w'| |]. Qed.

Context {E : Type}.
Implicit Types (w : coap_world E) (p : loc) (bs : list Z).

Lemma load_ok w p bs Q : mem_at (objs w) p bs → Q bs w → wp (load p (len bs)) Q w.
Proof.
  intros (Hn & Hoff & obj & Hobj & Hr & Ht) HQ. unfold load, is_null.
  destruct (Z.eqb_spec (len bs) 0) as [H0|_]; [destruct bs; [done|by unfold len in H0]|].
  wp_step. rewrite Hobj.
  destruct (Z.eqb_spec (l_obj p) 0); [done|].
  rewrite (proj2 (Z.leb_le 0 (l_off p))), (proj2 (Z.leb_le (l_off p + len bs) _)) by (unfold len in *; lia).
  cbn. unfold len. rewrite Nat2Z.id, Ht. done.
Qed.

Lemma load_data w p bs Q : data_at (objs w) p bs → Q bs w → wp (load p (len bs)) Q w.
Proof. intros [->|Hm] HQ; [done|by apply load_ok]. Qed.

Lemma load1_ok w p (x : Z) Q : mem_at (objs w) p [x] → Q x w → wp (load1 p) Q w.
Proof. intros Hx HQ. unfold load1. wp_step. apply (load_ok w p [x]); done. Qed.

(** Any read inside an object. *)
Lemma load_in w p n obj Q : objs w !! l_obj p = Some obj → l_obj p ≠ 0 → 0 ≤ l_off p → 0 ≤ n →
  l_off p + n ≤ len obj → Q (take (Z.to_nat n) (drop (Z.to_nat (l_off p)) obj)) w → wp (load p n) Q w.
Proof.
  intros Hobj Hn Hoff Hpos Hr HQ. set (bs := take _ _) in HQ.
  assert (len bs = n) as Hlen.
  { unfold bs, len in *. rewrite length_take, length_drop. lia. }
  rewrite <-Hlen. apply load_ok; [|done]. split; [done|]. split; [done|]. exists obj.
  split; [done|]. split; [lia|]. unfold bs at 2. f_equal. unfold len in Hlen. lia.
Qed.
Lemma load1_in w p obj (P : Z → Prop) Q : objs w !! l_obj p = Some obj → Forall P obj → l_obj p ≠ 0 → 0 ≤ l_off p →
  l_off p + 1 ≤ len obj → (∀ x, P x → Q x w) → wp (load1 p) Q w.
Proof.
  intros Hobj HP Hn Hoff Hr HQ. unfold load1. wp_step. eapply load_in; eauto; [lia|].
  unfold len in *. destruct (lookup_lt_is_Some_2 obj (Z.to_nat (l_off p))) as [x Hx]; [lia|].
  rewrite (drop_S _ x) by done. cbn. apply HQ. by eapply Forall_lookup_1.
Qed.

Lemma store_ok w p bs obj Q : objs w !! l_obj p = Some obj → l_obj p ≠ 0 → 0 ≤ l_off p →
  l_off p + len bs ≤ len obj →
  Q tt (w <| objs ::= <[l_obj p := put (Z.to_nat (l_off p)) bs obj]> |>) → wp (store_bytes p bs) Q w.
Proof.
  intros Hobj Hn Hoff Hr HQ. unfold store_bytes, is_null. wp_step. rewrite Hobj.
  destruct (Z.eqb_spec (l_obj p) 0); [done|].
  rewrite (proj2 (Z.leb_le 0 (l_off p))), (proj2 (Z.leb_le (_ + _) _)) by (unfold len in *; lia).
  done.
Qed.

Lemma deref_ok {T} (proj : coap_world E → gmap Z T) w a x Q :
  proj w !! a = Some x → Q x w → wp (deref proj a) Q w.
Proof. intros Hx HQ. unfold deref. wp_step. by rewrite Hx. Qed.
Lemma assign_ok {T} (proj : coap_world E → gmap Z T) `{!Setter proj} w a x (f : T → T) Q :
  proj w !! a = Some x → Q tt (w <| proj ::= <[a := f x]> |>) → wp (assign proj a f) Q w.
Proof. intros Hx HQ. unfold assign. wp_step. eapply deref_ok; [done|]. done. Qed.
End memory.

(** What was stored at the start of an object is there. *)
Lemma put_mem_at g b bs obj : b ≠ 0 → len bs ≤ len obj → mem_at (<[b := put 0 bs obj]> g) (Loc b 0) bs.
Proof.
  intros Hb Hlen. split; [done|]. split; [done|]. exists (put 0 bs obj). cbn [l_obj l_off].
  rewrite lookup_insert_eq. unfold len in *. rewrite put_length by lia. split; [done|]. split; [lia|].
  apply (slice_put_same 0). lia.
Qed.

(** * Representation *)
Definition shows_option (g : objects) (o : coap_option_t) (x : Z * list Z) : Prop :=
  o_number o = x.1 ∧ o_length o = len x.2 ∧ data_at g (o_value o) x.2.

Record represents (g : objects) (p : coap_pdu_t) (m : message) : Prop := {
  rep_version : p_version p = COAP_VERSION;
  rep_type : p_type p = m_type m;
  rep_code : p_code p = m_code m;
  rep_id : p_message_id p = m_id m;
  rep_token : length (p_token p) = 8%nat ∧ p_token_length p = len (m_token m) ∧
    take (length (m_token m)) (p_token p) = m_token m;
  rep_options : length (p_options p) = 16%nat ∧ p_option_count p = Z.of_nat (length (m_options m)) ∧
    Forall2 (shows_option g) (take (length (m_options m)) (p_options p)) (m_options m);
  rep_payload : p_payload_length p = len (m_payload m) ∧ data_at g (p_payload p) (m_payload m)
}.
Definition shows {E} (w : coap_world E) (a : Z) (m : message) : Prop :=
  ∃ p, pdus w !! a = Some p ∧ represents (objs w) p m.
(** The structure as far as the decoder assigns it: without a payload marker in the message,
    [payload_length] keeps its old value. *)
Definition settled (m : message) (p : coap_pdu_t) : coap_pdu_t :=
  match m_payload m with [] => p <| p_payload_length := 0 |> | _ => p end.
Definition shows_request {E} (w : coap_world E) (a : Z) (m : message) : Prop :=
  ∃ p, pdus w !! a = Some p ∧ represents (objs w) (settled m p) m.
(** No data of the message is in the object [b]. *)
Definition pdu_apart (b : Z) (p : coap_pdu_t) (m : message) : Prop :=
  Forall2 (λ o x, apart b (o_value o) x.2) (take (length (m_options m)) (p_options p)) (m_options m) ∧
  apart b (p_payload p) (m_payload m).

(** * Encoding *)
Lemma encode_delta_length v : 0 ≤ v < 2 ^ 16 → coap_encode_option_delta_length v = (nibble v, ext v).
Proof.
  intros Hv. unfold coap_encode_option_delta_length, nibble, ext.
  destruct (Z.ltb_spec v 13); [done|]. destruct (Z.ltb_spec v 269).
  - by rewrite u8_small by lia.
  - rewrite Z.shiftr_div_pow2, (land_ones_mod 8) by lia. change (2 ^ 8) with 256.
    rewrite u8_small; [done|]. split; [apply Z.div_pos; lia|]. apply Z.div_lt_upper_bound; lia.
Qed.
Lemma nibble_range v : 0 ≤ v → 0 ≤ nibble v < 15.
Proof. intros. unfold nibble. destruct (Z.ltb_spec v 13), (Z.ltb_spec v 269); lia. Qed.

Section encode.
Context {E : Type} (w0 : coap_world E) (b size : Z) (n : nat).
Hypotheses (Hb : b ≠ 0) (Hsize : size ≤ Z.of_nat n).

(** The worlds that differ from [w0] in the contents of the object [b] only. *)
Definition with_buffer (obj : list Z) : coap_world E := w0 <| objs ::= <[b := obj]> |>.

(** The program stores [bs] at its position and advances, or reports that they do not fit. *)
Definition emits (f : Z * Z → M (coap_world E) (option (Z * Z))) (bs : list Z) : Prop :=
  ∀ obj pos, length obj = n → 0 ≤ pos ≤ size →
  wp (f (pos, size - pos)) (λ r w',
    if pos + len bs <=? size
    then r = Some (pos + len bs, size - (pos + len bs)) ∧ w' = with_buffer (put (Z.to_nat pos) bs obj)
    else r = None ∧ ∃ obj', length obj' = n ∧ w' = with_buffer obj') (with_buffer obj).

Lemma with_buffer_again obj obj' : with_buffer obj <| objs ::= <[b := obj']> |> = with_buffer obj'.
Proof. unfold with_buffer. destruct w0. cbn. by rewrite insert_insert_eq. Qed.

Lemma with_buffer_lookup obj : objs (with_buffer obj) !! b = Some obj.
Proof. unfold with_buffer. cbn. by rewrite lookup_insert_eq. Qed.

Lemma store_buffer obj pos bs Q : length obj = n → 0 ≤ pos → pos + len bs ≤ size →
  Q tt (with_buffer (put (Z.to_nat pos) bs obj)) →
  wp (store_bytes (Loc b pos) bs) Q (with_buffer obj).
Proof.
  intros Hn Hpos Hfit HQ. eapply store_ok; cbn [l_obj l_off];
    [by apply with_buffer_lookup|done|done|idtac|].
  { unfold len in *. lia. }
  by rewrite with_buffer_again.
Qed.

Lemma emits_nothing : emits (λ at_, ret (Some at_)) [].
Proof.
  intros obj pos Hn Hpos. wp_step. unfold len. cbn. rewrite Z.add_0_r.
  rewrite (proj2 (Z.leb_le _ _)) by lia. split; [done|]. by rewrite put_nil.
Qed.

Lemma emits_emit (m : M (coap_world E) (list Z)) bs k : k = len bs →
  (∀ obj Q, length obj = n → Q bs (with_buffer obj) → wp m Q (with_buffer obj)) →
  emits (λ at_, emit (Loc b 0) at_ m k) bs.
Proof.
  intros -> Hm obj pos Hn Hpos. unfold emit. cbn [fst snd].
  destruct (Z.ltb_spec (size - pos) (len bs)), (Z.leb_spec (pos + len bs) size); try lia.
  - wp_step. eauto.
  - wp_step. apply Hm; [done|]. wp_step. unfold loc_add. cbn [l_obj l_off].
    apply store_buffer; [done|lia|lia|]. wp_step. split; [|done]. do 2 f_equal; lia.
Qed.

Lemma emits_bytes bs k : k = len bs → emits (λ at_, emit (Loc b 0) at_ (ret bs) k) bs.
Proof. intros Hk. apply emits_emit; [done|]. intros obj Q _ HQ. by wp_step. Qed.

Lemma emits_data p bs k : k = len bs → 0 < k → data_at (objs w0) p bs → apart b p bs →
  emits (λ at_, emit (Loc b 0) at_ (load p k) k) bs.
Proof.
  intros -> Hk Hat Hap. apply emits_emit; [done|]. intros obj Q _ HQ. apply load_ok; [|done].
  destruct (data_at_frame _ b obj p bs Hat Hap) as [->|Hmem]; [by unfold len in Hk|]. done.
Qed.

Lemma emits_then f g bs bs' : emits f bs → emits g bs' →
  emits (λ at_, and_then (f at_) g) (bs ++ bs').
Proof.
  intros Hf Hg obj pos Hn Hpos. unfold and_then. wp_step. eapply wp_mono; [by apply Hf|].
  intros r w' Hr. cbv beta in Hr.
  assert (len (bs ++ bs') = len bs + len bs') as Elen by (unfold len; rewrite length_app; lia).
  assert (0 ≤ len bs ∧ 0 ≤ len bs') as [H1 H2] by (unfold len; lia).
  destruct (Z.leb_spec (pos + len bs) size) as [Hfit|Hno].
  - destruct Hr as [-> ->]. eapply wp_mono.
    { apply Hg; [rewrite put_length; [done|unfold len in *; lia]|lia]. }
    intros r w' Hr. cbv beta in Hr. rewrite Elen, Z.add_assoc.
    destruct (Z.leb_spec (pos + len bs + len bs') size) as [Hfit'|]; [|done].
    destruct Hr as [-> ->]. split; [done|]. f_equal. rewrite <-put_app by (unfold len in *; lia).
    f_equal. unfold len. lia.
  - destruct Hr as [-> Hr]. wp_step. rewrite Elen. destruct (Z.leb_spec (pos + (len bs + len bs')) size); [lia|].
    done.
Qed.

(** ** Options *)
Lemma emits_ext v : emits (λ at_, emit_ext (Loc b 0) at_ (nibble v) (ext v)) (ext v).
Proof.
  unfold emit_ext, nibble, ext. destruct (Z.ltb_spec v 13) as [H1|H1].
  - destruct (Z.eqb_spec v 13); [lia|]. destruct (Z.eqb_spec v 14); [lia|]. apply emits_nothing.
  - destruct (Z.ltb_spec v 269); cbn [Z.eqb Pos.eqb take]; by apply emits_bytes.
Qed.

Lemma emits_option prev opt x : 0 ≤ prev → prev ≤ x.1 < 2 ^ 16 → len x.2 < 2 ^ 16 →
  shows_option (objs w0) opt x → apart b (o_value opt) x.2 →
  emits (λ at_, encode_option (Loc b 0) at_ prev opt) (wire_option prev x).
Proof.
  intros Hprev Hnum Hlen (En & El & Hval) Hap. unfold encode_option, wire_option.
  assert (0 ≤ len x.2) as H0 by (unfold len; lia).
  rewrite En, El, u16_small by lia. rewrite !encode_delta_length by lia.
  pose proof (nibble_range (x.1 - prev) ltac:(lia)). pose proof (nibble_range (len x.2) H0).
  rewrite lor_shiftl, u8_small by lia.
  rewrite (Z.mul_comm (nibble _)). change (2 ^ 4) with 16.
  apply emits_then; [by apply emits_bytes|]. apply emits_then; [apply emits_ext|].
  apply emits_then; [apply emits_ext|].
  destruct (Z.ltb_spec 0 (len x.2)); [by apply emits_data|].
  destruct x as [k [|c l]]; [apply emits_nothing|]. unfold len in *. cbn [snd length] in *. lia.
Qed.

Lemma emits_token p m : length (p_token p) = 8%nat → p_token_length p = len (m_token m) →
  len (m_token m) ≤ 8 → take (length (m_token m)) (p_token p) = m_token m →
  emits (λ at_, if 0 <? p_token_length p then
         emit (Loc b 0) at_
           (if Z.of_nat (length (p_token p)) <? p_token_length p then undef
            else ret (take (Z.to_nat (p_token_length p)) (p_token p))) (p_token_length p)
       else ret (Some at_)) (m_token m).
Proof.
  intros Hl -> Hn Ht. rewrite Hl. destruct (Z.ltb_spec (Z.of_nat 8) (len (m_token m))); [lia|].
  destruct (Z.ltb_spec 0 (len (m_token m))) as [H0|H0].
  - replace (take (Z.to_nat (len (m_token m))) (p_token p)) with (m_token m); [by apply emits_bytes|].
    unfold len. by rewrite Nat2Z.id.
  - destruct (m_token m); [apply emits_nothing|]. unfold len in H0. cbn [length] in H0. lia.
Qed.

Lemma encode_payload p bs obj pos : length obj = n → 0 ≤ pos ≤ size →
  p_payload_length p = len bs → data_at (objs w0) (p_payload p) bs → apart b (p_payload p) bs →
  wp (if 0 <? p_payload_length p then
        if size - pos <? 1 + p_payload_length p then ret None
        else
          store_bytes (loc_add (Loc b 0) pos) [COAP_PAYLOAD_MARKER] ;;;
          let! bs := load (p_payload p) (p_payload_length p) in
          store_bytes (loc_add (Loc b 0) (pos + 1)) bs ;;;
          ret (Some (pos + 1 + p_payload_length p))
      else ret (Some pos)) (λ r w',
    if pos + len (wire_payload bs) <=? size
    then r = Some (pos + len (wire_payload bs)) ∧ w' = with_buffer (put (Z.to_nat pos) (wire_payload bs) obj)
    else r = None ∧ ∃ obj', length obj' = n ∧ w' = with_buffer obj') (with_buffer obj).
Proof.
  intros Hn Hpos -> Hat Hap. unfold loc_add. cbn [l_obj l_off]. rewrite !Z.add_0_l.
  destruct (Z.ltb_spec 0 (len bs)) as [H0|H0]; cycle 1.
  { destruct bs as [|c bs]; [|unfold len in H0; cbn [length] in H0; lia].
    wp_step. cbn [wire_payload]. rewrite put_nil. unfold len. cbn [length]. rewrite Z.add_0_r.
    by rewrite (proj2 (Z.leb_le pos size)) by lia. }
  assert (wire_payload bs = [COAP_PAYLOAD_MARKER] ++ bs) as -> by (by destruct bs).
  assert (len ([COAP_PAYLOAD_MARKER] ++ bs) = 1 + len bs) as -> by (unfold len; rewrite length_app; cbn; lia).
  destruct (Z.ltb_spec (size - pos) (1 + len bs)), (Z.leb_spec (pos + (1 + len bs)) size); try lia; [wp_step; eauto|].
  rewrite wp_bind. apply store_buffer; [done|lia|unfold len in *; cbn; lia|].
  rewrite wp_bind. apply load_ok.
  { destruct (data_at_frame _ b (put (Z.to_nat pos) [COAP_PAYLOAD_MARKER] obj) _ _ Hat Hap) as [->|]; [by unfold len in H0|].
    done. }
  rewrite wp_bind. apply store_buffer; [rewrite put_length; [done|]|..]; try (unfold len in *; cbn [length] in *; lia).
  wp_step. split; [f_equal; lia|]. f_equal. rewrite <-put_app by (unfold len in *; cbn; lia). f_equal. cbn. lia.
Qed.

Lemma emits_options l : ∀ k prev p opts, drop k (p_options p) = opts →
  0 ≤ prev → options_ok prev l → Forall2 (shows_option (objs w0)) (take (length l) opts) l →
  Forall2 (λ o x, apart b (o_value o) x.2) (take (length l) opts) l →
  emits (λ at_, encode_options (length l) (Z.of_nat k) p (Loc b 0) at_ prev) (wire_options prev l).
Proof.
  induction l as [|x l IH]; intros k prev p opts Hk Hprev Hok Hshow Hap; [apply emits_nothing|].
  destruct opts as [|o opts]; [by apply Forall2_length in Hshow|].
  cbn [length take] in *. apply Forall2_cons in Hshow as [Ho Hshow]. apply Forall2_cons in Hap as [Ha Hap].
  destruct Hok as (Hnum & Hlen & _ & Hok).
  assert (p_options p !! k = Some o) as Hlk.
  { rewrite <-(Nat.add_0_r k), <-lookup_drop, Hk. done. }
  assert (emits (λ at_, and_then (encode_option (Loc b 0) at_ prev o) (λ at_,
    encode_options (length l) (Z.of_nat (S k)) p (Loc b 0) at_ (o_number o))) (wire_options prev (x :: l))) as He.
  { cbn [wire_options]. apply emits_then; [by apply emits_option|].
    destruct Ho as (-> & _). apply (IH _ _ _ opts); [|lia|done|done|done].
    rewrite <-Nat.add_1_r, <-drop_drop, Hk. done. }
  intros obj pos Hn Hpos. cbn [encode_options]. rewrite wp_bind.
  eapply wp_arr_get; [lia|by rewrite Nat2Z.id|].
  replace (Z.of_nat k + 1) with (Z.of_nat (S k)) by lia. by apply He.
Qed.
End encode.

Lemma world_with_buffer {E} (w : coap_world E) b obj : objs w !! b = Some obj → w = with_buffer w b obj.
Proof. intros Hb. unfold with_buffer. destruct w. cbn in *. by rewrite insert_id. Qed.

Lemma header_bytes p m : p_version p = COAP_VERSION → p_type p = m_type m → p_code p = m_code m →
  p_message_id p = m_id m → p_token_length p = len (m_token m) → 0 ≤ m_id m < 2 ^ 16 → len (m_token m) ≤ COAP_MAX_TOKEN_LEN →
  wire_header m =
  [u8 (Z.lor (Z.lor (Z.shiftl (p_version p) 6) (Z.shiftl (msg_type_code (p_type p)) 4)) (p_token_length p));
   p_code p; Z.shiftr (p_message_id p) 8; Z.land (p_message_id p) 0xFF].
Proof.
  intros -> -> -> -> -> Hid Htok. unfold wire_header, COAP_MAX_TOKEN_LEN, COAP_VERSION in *.
  assert (0 ≤ msg_type_code (m_type m) < 4) by (destruct (m_type m); cbn; lia).
  assert (0 ≤ len (m_token m)) by (unfold len; lia).
  rewrite <-Z.lor_assoc, (lor_shiftl 4), (lor_shiftl 6), Z.shiftr_div_pow2, (land_ones_mod 8), u8_small by lia.
  f_equal. lia.
Qed.

(** [coap_pdu_encode] writes the reference encoding, if it fits, and otherwise returns -1; nothing
    but the buffer changes. *)
Lemma encode_ok {E} (w : coap_world E) a p m b obj size :
  a ≠ 0 → b ≠ 0 → pdus w !! a = Some p → represents (objs w) p m → pdu_apart b p m → message_ok m →
  objs w !! b = Some obj → COAP_HEADER_SIZE ≤ size ≤ len obj →
  wp (coap_pdu_encode a (Loc b 0) size) (λ r w',
    if len (wire m) <=? size
    then r = len (wire m) ∧ w' = with_buffer w b (put 0 (wire m) obj)
    else r = -1 ∧ ∃ obj', length obj' = length obj ∧ w' = with_buffer w b obj') w.
Proof.
  intros Ha Hb Hp [Hv Ht Hc Hid (Htl & Htn & Htk) (Hol & Hoc & Hos) (Hpn & Hpl)] [Hapo Happ]
    [Hok1 Hok2 [Hok3 Hok3b] [Hok4 Hok4n] [Hok5 Hok5b]] Hobj Hsize.
  unfold coap_pdu_encode, is_null. cbn [l_obj].
  rewrite (proj2 (Z.eqb_neq a 0)), (proj2 (Z.eqb_neq b 0)) by done.
  destruct (Z.ltb_spec size COAP_HEADER_SIZE); [lia|]. cbn [orb].
  rewrite wp_bind. eapply deref_ok; [done|]. rewrite wp_bind.
  assert (length (wire_header m) = 4%nat) as Hh by done.
  replace [_; _; _; _] with (wire_header m) by (by apply header_bytes).
  rewrite (world_with_buffer w b obj Hobj) at 1.
  eapply store_buffer with (size := size) (n := length obj); try (unfold len, COAP_HEADER_SIZE in *; lia); try done.
  set (n := length obj) in *. assert (size ≤ Z.of_nat n) as Hsn by (unfold len, n in *; lia).
  assert (emits w b size n (λ at_, and_then
      (if 0 <? p_token_length p then
         emit (Loc b 0) at_
           (if Z.of_nat (length (p_token p)) <? p_token_length p then undef
            else ret (take (Z.to_nat (p_token_length p)) (p_token p))) (p_token_length p)
       else ret (Some at_))
      (λ at_, encode_options (Z.to_nat (p_option_count p)) 0 p (Loc b 0) at_ 0))
    (m_token m ++ wire_options 0 (m_options m))) as He.
  { apply emits_then; [done|by apply emits_token|].
    rewrite Hoc, Nat2Z.id. eapply (emits_options w b size n Hb Hsn _ 0%nat); [done|lia|done|done|done]. }
  rewrite wp_bind, and_then_assoc, wp_and_then.
  eapply wp_mono; [apply (He _ 4); [rewrite put_length; [done|unfold len, COAP_HEADER_SIZE in *; lia]|
    unfold COAP_HEADER_SIZE in *; lia]|].
  intros r w' Hr. cbv beta in Hr.
  set (body := m_token m ++ wire_options 0 (m_options m)) in *.
  assert (wire m = wire_header m ++ body ++ wire_payload (m_payload m)) as Ew.
  { unfold wire, body. by rewrite <-app_assoc. }
  assert (len (wire m) = 4 + len body + len (wire_payload (m_payload m))) as El.
  { rewrite Ew. unfold len. rewrite !length_app, Hh. lia. }
  assert (0 ≤ len (wire_payload (m_payload m)) ∧ 0 ≤ len body) as [Hp0 Hb0] by (unfold len; lia).
  destruct (Z.leb_spec (4 + len body) size) as [Hfit|Hno]; cycle 1.
  { destruct Hr as [-> Hr]. wp_step. destruct (Z.leb_spec (len (wire m)) size); [lia|]. done. }
  destruct Hr as [-> ->]. cbn [fst snd].
  eapply wp_mono; [eapply (encode_payload w b size n Hb Hsn p (m_payload m)); try done; try lia|].
  { rewrite !put_length; unfold len, COAP_HEADER_SIZE in *; try done; try lia. rewrite put_length; lia. }
  intros r w' Hr. cbv beta in Hr. wp_step. rewrite El.
  destruct (Z.leb_spec (4 + len body + len (wire_payload (m_payload m))) size); destruct Hr as [-> Hr]; [|done].
  split; [done|]. rewrite Hr, Ew. f_equal.
  rewrite <-put_app by (rewrite length_app; unfold len, n in *; lia). rewrite Hh.
  rewrite <-put_app by (rewrite put_length; unfold len, n in *; lia).
  f_equal. unfold len. lia.
Qed.

(** * Decoding *)
Lemma len_app l1 l2 : len (l1 ++ l2) = len l1 + len l2.
Proof. unfold len. rewrite length_app. lia. Qed.
Lemma len_nonneg l : 0 ≤ len l.
Proof. unfold len. lia. Qed.
Lemma wire_size m : 4 + len (m_payload m) ≤ len (wire m).
Proof.
  unfold wire. rewrite !len_app. change (len (wire_header m)) with 4.
  pose proof (len_nonneg (m_token m)). pose proof (len_nonneg (wire_options 0 (m_options m))).
  destruct (m_payload m); unfold wire_payload, len in *; cbn [length] in *; lia.
Qed.

Lemma mem_at_app g p l1 l2 : mem_at g p (l1 ++ l2) → mem_at g p l1 ∧ mem_at g (loc_add p (len l1)) l2.
Proof.
  intros (Hn & Hoff & obj & Hobj & Hr & Ht). rewrite len_app in Hr.
  pose proof (len_nonneg l1). pose proof (len_nonneg l2).
  assert (take (length l1) (drop (Z.to_nat (l_off p)) obj) = l1 ∧
    take (length l2) (drop (length l1) (drop (Z.to_nat (l_off p)) obj)) = l2) as [H1 H2].
  { set (d := drop _ obj) in *. rewrite length_app, <-take_take_drop in Ht. apply app_inj_1 in Ht; [done|].
    unfold len, d in *. rewrite length_take, length_drop. lia. }
  split.
  - split; [done|]. split; [done|]. exists obj. repeat split; [done|lia|done].
  - split; [done|]. cbn. split; [lia|]. exists obj. repeat split; [done|lia|].
    rewrite drop_drop in H2. rewrite <-H2 at 2. do 2 f_equal. unfold len. lia.
Qed.

Lemma nibbles_of d l : 0 ≤ d < 16 → 0 ≤ l < 16 →
  Z.land (Z.shiftr (16 * d + l) 4) 0x0F = d ∧ Z.land (16 * d + l) 0x0F = l.
Proof.
  intros Hd Hl. rewrite Z.shiftr_div_pow2, !(land_ones_mod 4) by lia. change (2 ^ 4) with 16.
  split; Z.div_mod_to_equations; lia.
Qed.

Section decode.
Context {E : Type} (a b L : Z).
Hypotheses (Ha : a ≠ 0) (Hb : b ≠ 0) (Hab : a ≠ b).
Implicit Types (w : coap_world E) (p : coap_pdu_t).

Lemma decode_delta w q v Q : 0 ≤ v < 2 ^ 16 → mem_at (objs w) q (ext v) →
  Q (v, loc_add q (len (ext v))) w → wp (coap_decode_option_delta_length q (nibble v)) Q w.
Proof.
  intros Hv Hm HQ. unfold coap_decode_option_delta_length, nibble, ext in *.
  destruct (Z.ltb_spec v 13) as [H1|H1].
  { rewrite (proj2 (Z.ltb_lt v 13)) by done. wp_step. unfold loc_add, len in HQ. cbn in HQ.
    rewrite Z.add_0_r in HQ. by destruct q. }
  destruct (Z.ltb_spec v 269) as [H2|H2]; cbn [Z.ltb Z.eqb Z.compare Pos.compare Pos.compare_cont Pos.eqb].
  - wp_step. eapply load1_ok; [done|]. wp_step. by replace (v - 13 + 13) with v by lia.
  - apply (mem_at_app _ _ [_] [_]) in Hm as [Hm1 Hm2].
    wp_step. eapply load1_ok; [done|]. wp_step. eapply load1_ok; [done|]. wp_step.
    rewrite lor_shiftl by (try lia; apply Z.mod_pos_bound; lia). change (2 ^ 8) with 256.
    rewrite u16_small by (Z.div_mod_to_equations; lia).
    replace ((v - 269) / 256 * 256 + (v - 269) mod 256 + 269) with v by (Z.div_mod_to_equations; lia).
    done.
Qed.

(** The place of the value of the option [o] whose encoding starts at [pos]. *)
Definition value_at (pos prev : Z) (o : Z * list Z) : Z := pos + 1 + len (ext (o.1 - prev)) + len (ext (len o.2)).
Definition store_option (o : coap_option_t) p : coap_pdu_t :=
  p <| p_options := arr_set (p_options p) (p_option_count p) o |> <| p_option_count := p_option_count p + 1 |>.

Lemma decode_option fuel w p prev pos o Q : pdus w !! a = Some p → 0 ≤ p_option_count p < 16 →
  0 ≤ prev → prev ≤ o.1 < 2 ^ 16 → len o.2 < 2 ^ 16 →
  mem_at (objs w) (Loc b pos) (wire_option prev o) → pos + len (wire_option prev o) ≤ L →
  wp (decode_loop fuel a (Loc b 0) L (pos + len (wire_option prev o)) o.1) Q
    (w <| pdus ::= <[a := store_option (Option o.1 (len o.2) (Loc b (value_at pos prev o))) p]> |>) →
  wp (decode_loop (S fuel) a (Loc b 0) L pos prev) Q w.
Proof.
  intros Hp Hc Hprev Hnum Hlen Hm HL HQ. pose proof (len_nonneg o.2) as Hl0.
  unfold wire_option in Hm. apply mem_at_app in Hm as [Hm0 Hm]. apply mem_at_app in Hm as [Hm1 Hm].
  apply mem_at_app in Hm as [Hm2 _].
  assert (len (wire_option prev o) = 1 + len (ext (o.1 - prev)) + len (ext (len o.2)) + len o.2) as El.
  { unfold wire_option. rewrite !len_app. unfold len at 1. cbn [length]. lia. }
  pose proof (len_nonneg (ext (o.1 - prev))). pose proof (len_nonneg (ext (len o.2))).
  pose proof (nibble_range (o.1 - prev) ltac:(lia)) as Hn1. pose proof (nibble_range (len o.2) Hl0) as Hn2.
  set (byte := 16 * nibble (o.1 - prev) + nibble (len o.2)) in *.
  destruct (nibbles_of (nibble (o.1 - prev)) (nibble (len o.2))) as [Hd1 Hd2]; [lia|lia|].
  cbn [decode_loop]. destruct (Z.ltb_spec pos L); [|lia]. unfold loc_add at 1. cbn [l_obj l_off].
  rewrite wp_bind, Z.add_0_l. eapply load1_ok; [exact Hm0|].
  destruct (Z.eqb_spec byte COAP_PAYLOAD_MARKER) as [Hx|_]; [unfold byte, COAP_PAYLOAD_MARKER in Hx; lia|].
  rewrite wp_bind. eapply deref_ok; [done|].
  destruct (Z.leb_spec COAP_MAX_OPTION_COUNT (p_option_count p)) as [Hx|_]; [unfold COAP_MAX_OPTION_COUNT in Hx; lia|].
  fold byte in Hd1, Hd2. rewrite Hd1, Hd2, wp_bind.
  unfold loc_add in Hm1, Hm2. cbn [l_obj l_off] in Hm1, Hm2.
  eapply decode_delta; [lia|exact Hm1|]. rewrite wp_bind. eapply decode_delta; [lia|exact Hm2|].
  cbn [loc_add l_obj l_off fst snd]. change (len [byte]) with 1.
  destruct (Z.ltb_spec (0 + L) (0 + (pos + 1) + len (ext (o.1 - prev)) + len (ext (len o.2)) + len o.2)); [lia|].
  rewrite wp_bind. eapply assign_ok; [done|].
  replace (prev + (o.1 - prev)) with o.1 by lia. rewrite u16_small, u8_small by lia.
  replace (0 + (pos + 1) + len (ext (o.1 - prev)) + len (ext (len o.2)) + len o.2 - 0) with
    (pos + len (wire_option prev o)) by lia.
  exact HQ.
Qed.

Fixpoint decoded (pos prev : Z) (l : list (Z * list Z)) : list coap_option_t :=
  match l with
  | [] => []
  | o :: l => Option o.1 (len o.2) (Loc b (value_at pos prev o)) :: decoded (pos + len (wire_option prev o)) o.1 l
  end.
(** The number of the last option of [l]. *)
Fixpoint last_number (prev : Z) (l : list (Z * list Z)) : Z :=
  match l with [] => prev | o :: l => last_number o.1 l end.

Lemma decode_options l : ∀ fuel w p prev pos tail Q, pdus w !! a = Some p →
  0 ≤ p_option_count p → p_option_count p + Z.of_nat (length l) ≤ 16 →
  0 ≤ prev → options_ok prev l →
  mem_at (objs w) (Loc b pos) (wire_options prev l ++ tail) → pos + len (wire_options prev l) ≤ L →
  wp (decode_loop fuel a (Loc b 0) L (pos + len (wire_options prev l)) (last_number prev l)) Q
    (w <| pdus ::= <[a := foldl (flip store_option) p (decoded pos prev l)]> |>) →
  wp (decode_loop (length l + fuel) a (Loc b 0) L pos prev) Q w.
Proof.
  induction l as [|o l IH]; intros fuel w p prev pos tail Q Hp Hc Hn Hprev Hok Hm HL HQ.
  { cbn in HQ. rewrite insert_id in HQ by done. unfold len in HQ. cbn in HQ. rewrite Z.add_0_r in HQ. by destruct w. }
  destruct Hok as (Hnum & Hlen & _ & Hok). cbn [wire_options length] in *.
  rewrite <-app_assoc in Hm. apply mem_at_app in Hm as [Hm1 Hm2]. rewrite len_app in HL, HQ.
  pose proof (len_nonneg (wire_options o.1 l)). pose proof (len_nonneg (wire_option prev o)).
  cbn [Nat.add]. eapply decode_option; [done|lia|done|done|done|done|lia|].
  eapply IH; [cbn; by rewrite lookup_insert_eq|cbn; lia|cbn; lia|lia|done|exact Hm2|lia|].
  rewrite <-Z.add_assoc. cbn [last_number decoded foldl flip] in HQ. destruct w. cbn in *.
  by rewrite insert_insert_eq.
Qed.

Lemma decoded_length l : ∀ pos prev, length (decoded pos prev l) = length l.
Proof. induction l as [|o l IH]; intros pos prev; cbn; [done|]. by rewrite IH. Qed.

Lemma decoded_shows g l : ∀ pos prev tail, mem_at g (Loc b pos) (wire_options prev l ++ tail) →
  Forall2 (shows_option g) (decoded pos prev l) l.
Proof.
  induction l as [|o l IH]; intros pos prev tail Hm; constructor.
  - cbn [wire_options] in Hm. rewrite <-app_assoc in Hm. apply mem_at_app in Hm as [Hm _].
    unfold wire_option in Hm. do 3 (apply mem_at_app in Hm as [_ Hm]).
    split; [done|]. split; [done|]. right. exact Hm.
  - cbn [wire_options] in Hm. rewrite <-app_assoc in Hm. apply mem_at_app in Hm as [_ Hm]. by eapply IH.
Qed.

(** The world after decoding into [p], with the payload copied into the buffer [abuf] of the structure. *)
Definition with_decoded w p (abuf pl : list Z) : coap_world E :=
  match pl with
  | [] => w <| pdus ::= <[a := p]> |>
  | _ => w <| pdus ::= <[a := p <| p_payload_length := len pl |> <| p_payload := Loc a 0 |>]> |>
           <| objs ::= <[a := put 0 pl abuf]> |>
  end.

Lemma decode_end fuel w p abuf pl pos prev Q : pdus w !! a = Some p → objs w !! a = Some abuf →
  len pl ≤ len abuf → len pl < 2 ^ 16 → data_at (objs w) (Loc b pos) (wire_payload pl) → L = pos + len (wire_payload pl) →
  Q COAP_OK (with_decoded w p abuf pl) → wp (decode_loop (S fuel) a (Loc b 0) L pos prev) Q w.
Proof.
  intros Hp Habuf Hfit Hlt Hm HL HQ. cbn [decode_loop]. destruct pl as [|c pl].
  { unfold len in HL. cbn in HL. destruct (Z.ltb_spec pos L); [lia|]. wp_step. unfold with_decoded in HQ.
    cbn in HQ. rewrite insert_id in HQ by done. by destruct w. }
  destruct Hm as [?|Hm]; [done|]. cbn [wire_payload] in *. set (l := c :: pl) in *.
  change (COAP_PAYLOAD_MARKER :: l) with ([COAP_PAYLOAD_MARKER] ++ l) in *.
  assert (0 < len l) as H0 by (unfold l, len; cbn; lia). rewrite len_app in HL. change (len [COAP_PAYLOAD_MARKER]) with 1 in *.
  apply mem_at_app in Hm as [Hm1 Hm2]. destruct (Z.ltb_spec pos L); [|lia].
  unfold loc_add. cbn [l_obj l_off]. rewrite !Z.add_0_l, wp_bind. eapply load1_ok; [exact Hm1|].
  rewrite Z.eqb_refl. replace (L - (pos + 1)) with (len l) by lia. rewrite u16_small by lia.
  rewrite wp_bind. eapply assign_ok; [done|]. rewrite wp_bind, wp_when, (proj2 (Z.ltb_lt _ _)) by done.
  rewrite wp_bind. apply load_ok; [exact Hm2|].
  rewrite wp_bind. eapply store_ok; cbn [l_obj l_off]; [exact Habuf|done|lia|lia|].
  eapply assign_ok; [cbn; by rewrite lookup_insert_eq|]. wp_step.
  unfold with_decoded in HQ. destruct w. cbn in *. by rewrite insert_insert_eq.
Qed.
End decode.

Lemma foldl_store opts : ∀ p, 0 ≤ p_option_count p → length (p_options p) = 16%nat →
  (Z.to_nat (p_option_count p) + length opts ≤ 16)%nat →
  let p' := foldl (flip store_option) p opts in
  p_option_count p' = p_option_count p + Z.of_nat (length opts) ∧ length (p_options p') = 16%nat ∧
  take (Z.to_nat (p_option_count p) + length opts) (p_options p') = take (Z.to_nat (p_option_count p)) (p_options p) ++ opts ∧
  (p_version p', p_type p', p_token_length p', p_code p', p_message_id p', p_token p', p_payload p', p_payload_length p') =
  (p_version p, p_type p, p_token_length p, p_code p, p_message_id p, p_token p, p_payload p, p_payload_length p).
Proof.
  induction opts as [|o opts IH]; intros p Hc Hl Hn; cbn [foldl length].
  { rewrite Nat.add_0_r, app_nil_r. cbn. repeat split; try done. lia. }
  cbn [length] in Hn. destruct (IH (store_option o p)) as (H1 & H2 & H3 & H4); cbn in *.
  { lia. }
  { unfold arr_set. by rewrite length_insert. }
  { lia. }
  rewrite H1, H2, H4. repeat split; [lia|].
  replace (Z.to_nat (p_option_count p + 1)) with (S (Z.to_nat (p_option_count p))) in H3 by lia.
  replace (Z.to_nat (p_option_count p) + S (length opts))%nat with (S (Z.to_nat (p_option_count p)) + length opts)%nat by lia.
  rewrite H3. unfold arr_set.
  rewrite (take_S_r _ _ o) by (apply list_lookup_insert_eq; lia).
  rewrite take_insert_ge by lia. by rewrite <-app_assoc.
Qed.

Lemma header_bits t n : 0 ≤ n < 16 → let x := 64 + 16 * msg_type_code t + n in
  Z.land (Z.shiftr x 6) 0x03 = 1 ∧ msg_type_of (Z.land (Z.shiftr x 4) 0x03) = t ∧ Z.land x 0x0F = n.
Proof.
  intros Hn x. rewrite !Z.shiftr_div_pow2, !(land_ones_mod 2), (land_ones_mod 4) by lia.
  assert (x / 2 ^ 4 = 4 + msg_type_code t) as -> by (unfold x; change (2 ^ 4) with 16; Z.div_mod_to_equations; lia).
  change (2 ^ 4) with 16. change (2 ^ 6) with 64. change (2 ^ 2) with 4.
  assert (0 ≤ msg_type_code t < 4) by (destruct t; cbn; lia).
  split; [unfold x; Z.div_mod_to_equations; lia|]. split; [by destruct t|].
  unfold x; Z.div_mod_to_equations; lia.
Qed.

Definition with_header (m : message) (p : coap_pdu_t) : coap_pdu_t :=
  p <| p_version := COAP_VERSION |> <| p_type := m_type m |> <| p_token_length := len (m_token m) |>
    <| p_code := m_code m |> <| p_message_id := m_id m |> <| p_token := put 0 (m_token m) (p_token p) |>
    <| p_option_count := 0 |>.

Lemma decode_header {E} (w : coap_world E) a b m p L tail Q :
  a ≠ 0 → b ≠ 0 → 0 ≤ m_id m < 2 ^ 16 → len (m_token m) ≤ COAP_MAX_TOKEN_LEN → 4 + len (m_token m) ≤ L →
  mem_at (objs w) (Loc b 0) (wire_header m ++ m_token m ++ tail) → pdus w !! a = Some p →
  wp (decode_loop decode_fuel a (Loc b 0) L (4 + len (m_token m)) 0) Q (w <| pdus ::= <[a := with_header m p]> |>) →
  wp (coap_pdu_decode a (Loc b 0) L) Q w.
Proof.
  intros Ha Hb Hid Htok HL Hm Hp HQ. pose proof (len_nonneg (m_token m)) as Ht0.
  destruct (header_bits (m_type m) (len (m_token m))) as (Hx1 & Hx2 & Hx3); [unfold COAP_MAX_TOKEN_LEN in Htok; lia|].
  unfold coap_pdu_decode, is_null. cbn [l_obj].
  rewrite (proj2 (Z.eqb_neq a 0)), (proj2 (Z.eqb_neq b 0)) by done.
  destruct (Z.ltb_spec L COAP_HEADER_SIZE); [unfold COAP_HEADER_SIZE in *; lia|]. cbn [orb].
  apply mem_at_app in Hm as [Hm1 Hm]. apply mem_at_app in Hm as [Hm2 _].
  apply (mem_at_app _ _ [_]) in Hm1 as [Hb0 Hm1]. apply (mem_at_app _ _ [_]) in Hm1 as [Hb1 Hm1].
  apply (mem_at_app _ _ [_] [_]) in Hm1 as [Hb2 Hb3].
  rewrite wp_bind. eapply load1_ok; [exact Hb0|].
  rewrite wp_bind. eapply assign_ok; [done|].
  do 3 (rewrite wp_bind; eapply load1_ok; [first [exact Hb1|exact Hb2|exact Hb3]|]).
  rewrite wp_bind. eapply assign_ok; [cbn; by rewrite lookup_insert_eq|].
  unfold decode_body. rewrite wp_bind. eapply deref_ok; [cbn; by rewrite lookup_insert_eq|]. cbn.
  rewrite Hx1, Hx2, Hx3, lor_shiftl by (try lia; apply Z.mod_pos_bound; lia).
  replace (m_id m / 256 * 2 ^ 8 + m_id m mod 256) with (m_id m) by (change (2 ^ 8) with 256; Z.div_mod_to_equations; lia).
  change (negb (1 =? COAP_VERSION)) with false. cbv iota.
  destruct (Z.ltb_spec COAP_MAX_TOKEN_LEN (len (m_token m))); [lia|].
  destruct (Z.ltb_spec L (4 + len (m_token m))); [lia|]. cbn [orb]. rewrite andb_false_r.
  rewrite insert_insert_eq, wp_bind, wp_when. destruct w as [e o ps c ra re lo]. cbn in HQ, Hp, Hm2 |- *.
  destruct (Z.ltb_spec 0 (len (m_token m))) as [Hpos|Hzero].
  - rewrite wp_bind. apply load_ok; [exact Hm2|]. eapply assign_ok; [cbn; by rewrite lookup_insert_eq|]. cbn.
    rewrite wp_bind. eapply assign_ok; [cbn; by rewrite lookup_insert_eq|]. cbn. by rewrite !insert_insert_eq.
  - destruct (m_token m) eqn:Et; [|unfold len in Hzero; cbn in Hzero; lia].
    rewrite wp_bind. eapply assign_ok; [cbn; by rewrite lookup_insert_eq|]. cbn. rewrite !insert_insert_eq.
    unfold with_header in HQ. rewrite Et in HQ. cbn in HQ. by rewrite put_nil in HQ.
Qed.

Lemma mem_at_frame g c x p bs : l_obj p ≠ c → mem_at g p bs → mem_at (<[c := x]> g) p bs.
Proof. intros Hc (Hn & Hoff & obj & Hobj & Hr). split; [done|]. split; [done|]. exists obj. by rewrite lookup_insert_ne. Qed.

Lemma decoded_apart b x l : x ≠ b → ∀ pos prev,
  Forall2 (λ o y, apart x (o_value o) y.2) (decoded b pos prev l) l.
Proof.
  intros Hx. induction l as [|o l IH]; intros pos prev; constructor; [|by apply IH]. right. cbn. congruence.
Qed.

(** The structure that the decoder leaves represents the message. *)
Lemma decoded_represents (g : objects) a b m p abuf (pl := m_payload m) :
  let p2 := foldl (flip store_option) (with_header m p) (decoded b (4 + len (m_token m)) 0 (m_options m)) in
  a ≠ 0 → a ≠ b → message_ok m → len pl ≤ len abuf →
  mem_at g (Loc b (4 + len (m_token m))) (wire_options 0 (m_options m) ++ wire_payload pl) →
  length (p_token p) = 8%nat → length (p_options p) = 16%nat →
  (pl = [] → represents g (p2 <| p_payload_length := 0 |>) m) ∧
  (pl ≠ [] → represents (<[a := put 0 pl abuf]> g) (p2 <| p_payload_length := len pl |> <| p_payload := Loc a 0 |>) m) ∧
  p_payload_length p2 = p_payload_length p ∧
  take (length (m_options m)) (p_options p2) = decoded b (4 + len (m_token m)) 0 (m_options m).
Proof.
  intros p2 Ha Hab [Hok1 Hok2 [Hok3 Hok3b] [Hok4 Hok4n] [Hok5 Hok5b]] Hfit Hm Htl Hol.
  destruct (foldl_store (decoded b (4 + len (m_token m)) 0 (m_options m)) (with_header m p)) as (H1 & H2 & H3 & H4);
    [done|done|cbn; by rewrite decoded_length|].
  fold p2 in H1, H2, H3, H4. cbn in H1, H3, H4. rewrite decoded_length in H1, H3.
  change (Z.to_nat 0) with 0%nat in H3. rewrite take_0 in H3. cbn [Nat.add app] in H3. injection H4 as E1 E2 E3 E4 E5 E6 E7 E8.
  assert (length (put 0 (m_token m) (p_token p)) = 8%nat ∧
    take (length (m_token m)) (put 0 (m_token m) (p_token p)) = m_token m) as [T1 T2].
  { unfold COAP_MAX_TOKEN_LEN, len in Hok3. split; [rewrite put_length; [done|lia]|].
    apply (slice_put_same 0). lia. }
  split; [|split; [|done]].
  - intros Hnil. constructor; cbn; rewrite ?E1, ?E2, ?E3, ?E4, ?E5, ?E6, ?E7, ?E8, ?H1, ?H2, ?H3; auto.
    + split; [done|]. split; [done|]. by eapply decoded_shows.
    + fold pl. rewrite Hnil. split; [done|]. by left.
  - intros Hne. constructor; cbn; rewrite ?E1, ?E2, ?E3, ?E4, ?E5, ?E6, ?E7, ?E8, ?H1, ?H2, ?H3; auto.
    + split; [done|]. split; [done|]. eapply decoded_shows. apply mem_at_frame; [|exact Hm]. cbn. congruence.
    + split; [done|]. right. split; [done|]. split; [done|]. exists (put 0 pl abuf). cbn.
      rewrite lookup_insert_eq. fold pl. split; [done|]. unfold len in *. rewrite put_length by lia. split; [lia|].
      apply (slice_put_same 0). lia.
Qed.

(** Decoding the reference encoding of [m] gives the message. A message without payload leaves
    [payload_length] as it was. *)
Lemma decode_ok {E} (w : coap_world E) a b m p abuf :
  a ≠ 0 → b ≠ 0 → a ≠ b → message_ok m → mem_at (objs w) (Loc b 0) (wire m) →
  pdus w !! a = Some p → length (p_token p) = 8%nat → length (p_options p) = 16%nat →
  objs w !! a = Some abuf → len abuf = COAP_MAX_PDU_SIZE → len (m_payload m) ≤ COAP_MAX_PDU_SIZE →
  wp (coap_pdu_decode a (Loc b 0) (len (wire m))) (λ r w', r = COAP_OK ∧
    (∃ p', w' = with_decoded a w p' abuf (m_payload m)) ∧
    ∃ q, pdus w' !! a = Some q ∧ represents (objs w') (settled m q) m ∧
      (m_payload m = [] → p_payload_length q = p_payload_length p) ∧
      ∀ x, x ≠ a → x ≠ b → pdu_apart x (settled m q) m) w.
Proof.
  intros Ha Hb Hab Hok Hm Hp Htl Hol Habuf Hal Hpl.
  pose proof Hok as [_ Hok2 [Hok3 _] [Hok4 Hok4n] [Hok5 _]].
  assert (len (wire m) = 4 + len (m_token m) + len (wire_options 0 (m_options m)) + len (wire_payload (m_payload m))) as El.
  { unfold wire. rewrite !len_app. change (len (wire_header m)) with 4. lia. }
  pose proof (len_nonneg (m_token m)). pose proof (len_nonneg (wire_options 0 (m_options m))).
  pose proof (len_nonneg (wire_payload (m_payload m))).
  eapply decode_header; try done; [lia|].
  unfold wire in Hm. apply mem_at_app in Hm as [_ Hm]. apply mem_at_app in Hm as [_ Hm].
  unfold loc_add in Hm. cbn [l_obj l_off] in Hm.
  change (0 + len (wire_header m)) with 4 in Hm.
  replace decode_fuel with (length (m_options m) + S (17 - length (m_options m)))%nat by (unfold decode_fuel; lia).
  eapply decode_options; try done; [cbn; by rewrite lookup_insert_eq|done|cbn; lia|lia|].
  destruct (decoded_represents (objs w) a b m p abuf) as (R1 & R2 & R3 & R4); try done; [lia|].
  set (p2 := foldl _ _ _) in *.
  eapply (decode_end _ _ _ Ha Hb Hab _ _ p2 abuf (m_payload m)); [cbn; by rewrite lookup_insert_eq|done|lia|lia| |lia|].
  { destruct (m_payload m); [by left|]. right. by apply mem_at_app in Hm as [_ Hm]. }
  split; [done|]. unfold settled. split.
  { exists p2. clear. destruct w. destruct (m_payload m); unfold with_decoded; cbn; by rewrite !insert_insert_eq. }
  destruct (m_payload m) as [|c pl] eqn:Ep; cbn; rewrite !insert_insert_eq, lookup_insert_eq;
    (eexists; split; [done|]).
  - split; [by apply R1|]. split; [intros _; exact R3|]. intros x Hxa Hxb. split; cbn; [|rewrite Ep; by left].
    rewrite R4. by apply decoded_apart.
  - split; [by apply R2|]. split; [done|]. intros x Hxa Hxb. split; cbn; [|right; cbn; congruence].
    rewrite R4. by apply decoded_apart.
Qed.

(** * Decoding arbitrary bytes *)
Section safe.
Context {E : Type} (a b L : Z) (obj : list Z).
Hypotheses (Ha : a ≠ 0) (Hb : b ≠ 0) (Hab : a ≠ b) (Hbytes : bytes_ok obj).
(** An option that starts in the last byte of the message has up to four more bytes. *)
Hypotheses (HL : 0 ≤ L ≤ COAP_MAX_PDU_SIZE) (Hroom : L + 4 ≤ len obj).
Implicit Types (w : coap_world E) (p : coap_pdu_t).

Definition in_message (o : coap_option_t) : Prop :=
  l_obj (o_value o) = b ∧ 0 ≤ l_off (o_value o) ∧ 0 ≤ o_length o ∧ l_off (o_value o) + o_length o ≤ L.
Record decoding w p : Prop := {
  dec_pdu : pdus w !! a = Some p;
  dec_obj : objs w !! b = Some obj;
  dec_buf : ∃ abuf, objs w !! a = Some abuf ∧ len abuf = COAP_MAX_PDU_SIZE;
  dec_token : length (p_token p) = 8%nat;
  dec_options : length (p_options p) = 16%nat
}.
Definition options_in p : Prop :=
  0 ≤ p_option_count p ≤ 16 ∧ Forall in_message (take (Z.to_nat (p_option_count p)) (p_options p)).
(** Only the structure and its buffer change; after a success the options lie in the message. *)
Definition decode_post w (r : coap_error_t) w' : Prop :=
  (r = COAP_OK ∨ r = COAP_ERROR_INVALID_MESSAGE) ∧
  (∃ p', decoding w' p' ∧ (r = COAP_OK → options_in p' ∧ p_version p' = COAP_VERSION ∧ 0 ≤ p_token_length p' ≤ 8)) ∧
  ∃ p' abuf', w' = w <| pdus ::= <[a := p']> |> <| objs ::= <[a := abuf']> |>.

Lemma delta_safe w off x Q : objs w !! b = Some obj → 0 ≤ off → off + 2 ≤ len obj → 0 ≤ x →
  (∀ v off', 0 ≤ v → off ≤ off' ≤ off + 2 → Q (v, Loc b off') w) →
  wp (coap_decode_option_delta_length (Loc b off) x) Q w.
Proof.
  intros Hobj Hoff Hfit Hx HQ. unfold coap_decode_option_delta_length.
  destruct (Z.ltb_spec x 13); [wp_step; apply HQ; lia|].
  destruct (x =? 13); [|destruct (x =? 14)]; [| |wp_step; apply HQ; lia].
  - rewrite wp_bind. eapply load1_in; [done|exact Hbytes|done|done|cbn; lia|]. intros v [Hv _]. wp_step.
    apply HQ; cbn; lia.
  - rewrite wp_bind. eapply load1_in; [done|exact Hbytes|done|done|cbn; lia|]. intros hi Hhi.
    rewrite wp_bind. eapply load1_in; [done|exact Hbytes|done|cbn; lia|cbn; lia|]. intros lo Hlo. wp_step.
    apply HQ; [apply u16_range|cbn; lia].
Qed.

Lemma decode_post_trans w p q w' r : pdus w !! a = Some p →
  decode_post (w <| pdus ::= <[a := q]> |>) r w' → decode_post w r w'.
Proof.
  intros Hp (Hr & Hd & p' & abuf' & ->). split; [done|]. split; [done|]. exists p', abuf'.
  destruct w. cbn in *. by rewrite insert_insert_eq.
Qed.

Lemma decode_post_intro w p r : decoding w p → r = COAP_OK ∨ r = COAP_ERROR_INVALID_MESSAGE →
  (r = COAP_OK → options_in p ∧ p_version p = COAP_VERSION ∧ 0 ≤ p_token_length p ≤ 8) → decode_post w r w.
Proof.
  intros Hd Hr Hok. split; [done|]. split; [by exists p|]. destruct (dec_buf w p Hd) as (abuf & Habuf & _).
  pose proof (dec_pdu w p Hd) as Hp. exists p, abuf. clear Hd Hok. destruct w. cbn in *. by rewrite !insert_id.
Qed.

Lemma decoding_update w p q : decoding w p → length (p_token q) = 8%nat → length (p_options q) = 16%nat →
  decoding (w <| pdus ::= <[a := q]> |>) q.
Proof. intros [H1 H2 H3 H4 H5] Ht Ho. split; cbn; auto. by rewrite lookup_insert_eq. Qed.

Lemma options_in_store p o : options_in p → p_option_count p < 16 → length (p_options p) = 16%nat → in_message o →
  options_in (store_option o p) ∧ length (p_options (store_option o p)) = 16%nat.
Proof.
  intros [Hc Hall] Hlt Hl Ho. unfold store_option, arr_set. cbn. rewrite length_insert. split; [|done].
  split; cbn; [lia|]. replace (Z.to_nat (p_option_count p + 1)) with (S (Z.to_nat (p_option_count p))) by lia.
  rewrite (take_S_r _ _ o) by (apply list_lookup_insert_eq; lia). rewrite take_insert_ge by lia.
  by apply Forall_app_2; [|constructor].
Qed.

Lemma payload_safe w p n pos : decoding w p → options_in p → p_version p = COAP_VERSION →
  0 ≤ p_token_length p ≤ 8 → 0 ≤ pos → 0 ≤ n → pos + n ≤ L →
  wp (assign pdus a (λ p, p <| p_payload_length := n |>) ;;;
      when (0 <? n)
        (let! bs := load (Loc b pos) n in
         store_bytes (Loc a 0) bs ;;;
         assign pdus a (λ p, p <| p_payload := Loc a 0 |>)) ;;;
      ret COAP_OK) (decode_post w) w.
Proof.
  intros Hd Hopt Hv Ht Hpos Hn Hfit. pose proof Hd as [Hp Hobj (abuf & Habuf & Hal) Htok Hol].
  rewrite wp_bind. eapply assign_ok; [done|]. rewrite wp_bind, wp_when.
  destruct (Z.ltb_spec 0 n).
  - rewrite wp_bind. eapply load_in; cbn [l_obj l_off]; [exact Hobj|done|done|done|lia|].
    set (bs := take _ _). assert (len bs = n) as Hbs.
    { unfold bs, len in *. rewrite length_take, length_drop. lia. }
    rewrite wp_bind. eapply store_ok; cbn [l_obj l_off]; [exact Habuf|done|lia|lia|].
    eapply assign_ok; [cbn; by rewrite lookup_insert_eq|]. wp_step.
    split; [by left|]. split.
    + eexists. split; [split; cbn|].
      * by rewrite lookup_insert_eq.
      * by rewrite lookup_insert_ne.
      * exists (put 0 bs abuf). rewrite lookup_insert_eq. split; [done|]. unfold len in *. rewrite put_length; lia.
      * done.
      * done.
      * intros _. done.
    + eexists _, (put 0 bs abuf). destruct w. cbn. by rewrite insert_insert_eq.
  - wp_step. eapply decode_post_trans; [done|]. eapply decode_post_intro; [by apply decoding_update with p|by left|].
    intros _. done.
Qed.

Lemma decode_loop_safe fuel : ∀ w p pos num, decoding w p → options_in p → p_version p = COAP_VERSION →
  0 ≤ p_token_length p ≤ 8 → 4 ≤ pos ≤ L → 16 - p_option_count p < Z.of_nat fuel →
  wp (decode_loop fuel a (Loc b 0) L pos num) (decode_post w) w.
Proof.
  induction fuel as [|fuel IH]; intros w p pos num Hd Hopt Hv Ht Hpos Hfuel; [destruct Hopt; lia|].
  pose proof Hd as [Hp Hobj (abuf & Habuf & Hal) Htok Hol].
  cbn [decode_loop]. destruct (Z.ltb_spec pos L) as [Hlt|]; cycle 1.
  { wp_step. eapply decode_post_intro; eauto. }
  unfold loc_add at 1. cbn [l_obj l_off]. rewrite wp_bind, Z.add_0_l.
  eapply load1_in; [done|exact Hbytes|done|cbn; lia|cbn; lia|]. intros byte Hbyte.
  destruct (Z.eqb_spec byte COAP_PAYLOAD_MARKER) as [_|_].
  { replace (loc_add (Loc b 0) (pos + 1)) with (Loc b (pos + 1)) by done.
    assert (u16 (L - (pos + 1)) = L - (pos + 1)) as ->.
    { apply u16_small. unfold COAP_MAX_PDU_SIZE in HL. lia. }
    eapply payload_safe; eauto; lia. }
  rewrite wp_bind. eapply deref_ok; [done|].
  destruct (Z.leb_spec COAP_MAX_OPTION_COUNT (p_option_count p)) as [|Hc].
  { wp_step. eapply decode_post_intro; eauto; done. }
  unfold COAP_MAX_OPTION_COUNT in Hc.
  rewrite wp_bind. eapply delta_safe; [done|cbn; lia|cbn; lia|apply Z.land_nonneg; lia|]. cbn [l_off l_obj loc_add].
  intros d off1 Hd0 Hoff1. rewrite wp_bind. cbn [snd].
  eapply delta_safe; [done|lia|lia|apply Z.land_nonneg; lia|]. intros l off2 Hl0 Hoff2. cbn [fst snd l_off].
  destruct (Z.ltb_spec (0 + L) (off2 + l)) as [|Hin].
  { wp_step. eapply decode_post_intro; eauto; done. }
  rewrite wp_bind. eapply assign_ok; [done|].
  destruct (options_in_store p (Option (u16 (num + d)) l (Loc b off2))) as [Hs1 Hs2];
    [done|lia|done|split; cbn; [done|lia]|].
  assert (0 ≤ p_option_count p) as Hc0 by (destruct Hopt; lia).
  rewrite u8_small by lia.
  eapply wp_mono; [eapply (IH _ (store_option (Option (u16 (num + d)) l (Loc b off2)) p))|].
  - by eapply decoding_update.
  - done.
  - done.
  - done.
  - lia.
  - cbn. lia.
  - intros r w' Hr. by eapply decode_post_trans.
Qed.

Lemma body_safe w p : decoding w p → 4 ≤ L → 0 ≤ p_token_length p →
  wp (decode_body a (Loc b 0) L) (decode_post w) w.
Proof.
  intros Hd HL4 Ht0. pose proof Hd as [Hp Hobj (abuf & Habuf & Hal) Htok Hol].
  unfold decode_body. rewrite wp_bind. eapply deref_ok; [done|].
  destruct (Z.eqb_spec (p_version p) COAP_VERSION) as [Hv|]; cbn [negb]; cycle 1.
  { wp_step. eapply decode_post_intro; eauto; done. }
  destruct ((0 <? p_token_length p) && _) eqn:Ebad.
  { wp_step. eapply decode_post_intro; eauto; done. }
  assert (p_token_length p ≤ 8 ∧ 4 + p_token_length p ≤ L) as [Ht8 HtL].
  { unfold COAP_MAX_TOKEN_LEN in Ebad.
    destruct (Z.ltb_spec 0 (p_token_length p)), (Z.ltb_spec 8 (p_token_length p)),
      (Z.ltb_spec L (4 + p_token_length p)); cbn in Ebad; try done; lia. }
  rewrite wp_bind, wp_when. destruct (Z.ltb_spec 0 (p_token_length p)).
  - rewrite wp_bind. eapply load_in; cbn [l_obj l_off loc_add]; [exact Hobj|done|lia|lia|lia|].
    set (bs := take _ _). assert (len bs = p_token_length p) as Hbs.
    { unfold bs, len in *. rewrite length_take, length_drop. lia. }
    eapply assign_ok; [done|]. rewrite wp_bind. eapply assign_ok; [cbn; by rewrite lookup_insert_eq|].
    eapply wp_mono; [eapply decode_loop_safe|intros r w' Hr; eapply decode_post_trans; [done|];
      eapply decode_post_trans; [|exact Hr]; cbn; by rewrite lookup_insert_eq].
    + eapply decoding_update; [eapply decoding_update; [done|..]|..]; cbn; try done;
        rewrite put_length; unfold len in *; lia.
    + split; cbn; [lia|constructor].
    + done.
    + cbn. lia.
    + lia.
    + unfold decode_fuel. cbn. lia.
  - rewrite wp_bind. eapply assign_ok; [done|].
    eapply wp_mono; [eapply decode_loop_safe|intros r w' Hr; by eapply decode_post_trans].
    + by eapply decoding_update.
    + split; cbn; [lia|constructor].
    + done.
    + cbn. lia.
    + lia.
    + unfold decode_fuel. cbn. lia.
Qed.

Lemma decode_safe w p : decoding w p →
  wp (coap_pdu_decode a (Loc b 0) L) (λ r w',
    (L < COAP_HEADER_SIZE → r = COAP_ERROR_INVALID_PARAM ∧ w' = w) ∧
    (COAP_HEADER_SIZE ≤ L → decode_post w r w')) w.
Proof.
  intros Hd. pose proof Hd as [Hp Hobj (abuf & Habuf & Hal) Htok Hol].
  unfold coap_pdu_decode, is_null. cbn [l_obj].
  rewrite (proj2 (Z.eqb_neq a 0)), (proj2 (Z.eqb_neq b 0)) by done. cbn [orb].
  destruct (Z.ltb_spec L COAP_HEADER_SIZE) as [Hsmall|Hbig].
  { wp_step. split; [done|lia]. }
  eapply wp_mono with (P := decode_post w); [|intros r w' Hr; split; [lia|done]].
  unfold COAP_HEADER_SIZE in *.
  rewrite wp_bind. eapply load1_in; [done|exact Hbytes|done|done|cbn; lia|]. intros b0 Hb0.
  rewrite wp_bind. eapply assign_ok; [done|].
  do 3 (rewrite wp_bind; eapply load1_in; [done|exact Hbytes|done|cbn; lia|cbn; lia|]; intros ? ?).
  rewrite wp_bind. eapply assign_ok; [cbn; by rewrite lookup_insert_eq|].
  eapply wp_mono; [eapply body_safe|intros r w' Hr; eapply decode_post_trans; [done|];
    eapply decode_post_trans; [|exact Hr]; cbn; by rewrite lookup_insert_eq].
  - eapply decoding_update; [by eapply decoding_update|done|done].
  - done.
  - cbn. apply Z.land_nonneg. lia.
Qed.
End safe.

(** * The theorems *)


(** Messages for the witnesses: a request for the path /temp, and an answer. *)
Definition get_temp : message := Message COAP_TYPE_CON 1 7 [1; 2; 3; 4] [(11, [116; 101; 109; 112])] [].
Definition answer_21 : message := Message COAP_TYPE_ACK 69 7 [1; 2; 3; 4] [(12, [0])] [50; 49].
Definition answer_pdu : coap_pdu_t := pdu_zero <| p_version := 1 |> <| p_type := COAP_TYPE_ACK |>
  <| p_token_length := 4 |> <| p_code := 69 |> <| p_message_id := 7 |> <| p_token := [1; 2; 3; 4; 0; 0; 0; 0] |>
  <| p_options := Option 12 1 (Loc 5 2) :: replicate 15 option_zero |> <| p_option_count := 1 |>
  <| p_payload := Loc 5 0 |> <| p_payload_length := 2 |>.
Definition example_world : coap_world unit :=
  World tt {[ 2 := replicate 1152 0; 3 := replicate 1152 0; 5 := [50; 49; 0] ]} {[ 1 := answer_pdu; 3 := pdu_zero ]}
    ∅ ∅ ∅ (-1).

Lemma answer_ok : message_ok answer_21.
Proof.
  split; cbn; repeat split; repeat constructor; unfold COAP_MAX_TOKEN_LEN, len; cbn; try done; try lia.
Qed.

Lemma answer_represents : represents (objs example_world) answer_pdu answer_21.
Proof.
  split; try done.
  - do 2 (split; [done|]). constructor; [|constructor]. do 2 (split; [done|]). right. do 2 (split; [done|]).
    exists [50; 49; 0]. by vm_compute.
  - split; [done|]. right. split; [done|]. split; [done|]. exists [50; 49; 0]. by vm_compute.
Qed.
Lemma answer_apart : pdu_apart 2 answer_pdu answer_21.
Proof. split; [constructor; [|constructor]|]; by right. Qed.



