(* ===== verification/CoapServer.v ===== *)
(** CoapServer: the server of [src/coap.c], against the sockets it is given.

    [coap_process] decodes a request, looks its path up in the list of resources, lets the handler
    of the resource fill in the response and sends it. What a handler must do is the class
    [ResourceHandler]; what is sent is then the reference encoding of the reply. *)
From Stdlib Require Import ZArith Lia.
From stdpp Require Import base numbers list gmap.
From S2P Require Import Prelude Types Bytes Coap CoapTheorems.

(** * Strings *)
Lemma c_string_zeros l n : Forall (λ c, c ≠ 0) l → (0 < n)%nat → c_string (l ++ replicate n 0) = l.
Proof.
  intros Hl Hn. induction Hl as [|c l Hc _ IH]; cbn.
  - by destruct n as [|n]; [lia|].
  - destruct (Z.eqb_spec c 0); [done|]. by rewrite IH.
Qed.

Lemma same_string_ok a : ∀ b, 0 ∈ a → 0 ∈ b → same_string a b = Some (bool_decide (c_string a = c_string b)).
Proof.
  induction a as [|x a IH]; intros [|y b] Ha Hb; try (by apply not_elem_of_nil in Ha); try (by apply not_elem_of_nil in Hb).
  cbn. destruct (Z.eqb_spec x y) as [->|Hxy].
  - destruct (Z.eqb_spec y 0) as [->|Hy]; [done|].
    apply elem_of_cons in Ha as [?|Ha]; [done|]. apply elem_of_cons in Hb as [?|Hb]; [done|].
    rewrite IH by done. f_equal. apply bool_decide_ext. split; [by intros ->|]. by intros [= ->].
  - f_equal. symmetry. apply bool_decide_eq_false. intros Heq.
    destruct (Z.eqb_spec x 0), (Z.eqb_spec y 0); congruence.
Qed.

(** * The path of a request *)
Definition segments (l : list (Z * list Z)) : list (list Z) :=
  (filter (λ o, o.1 = COAP_OPTION_URI_PATH) l).*2.
(** The segments, each after a slash; the root is a single slash. *)
Definition path_of (m : message) : list Z :=
  match segments (m_options m) with
  | [] => [SLASH]
  | l => concat ((λ s, SLASH :: s) <$> l)
  end.

(** The array [uri_path] that holds the characters [s]. *)
Definition uri_array (s : list Z) : list Z := s ++ replicate (128 - length s) 0.
Definition with_slashes (l : list (list Z)) : list Z := concat ((λ s, s ++ [SLASH]) <$> l).

Lemma slashes_around l : l ≠ [] →
  SLASH :: with_slashes l = concat ((λ s, SLASH :: s) <$> l) ++ [SLASH].
Proof.
  unfold with_slashes. intros Hne. destruct l as [|s l]; [done|]. clear Hne. revert s.
  induction l as [|t l IH]; intros s; cbn in *.
  - by rewrite !app_nil_r.
  - specialize (IH t). rewrite <-!app_assoc in *. cbn in *. rewrite <-!app_assoc. by rewrite IH.
Qed.

Lemma put_uri s bs : (length s + length bs ≤ 128)%nat → put (length s) bs (uri_array s) = uri_array (s ++ bs).
Proof.
  intros Hlen. unfold put, uri_array. rewrite take_app_length, <-app_assoc. do 2 f_equal.
  rewrite drop_app_ge by lia. rewrite drop_replicate, length_app. f_equal. lia.
Qed.

(** The array after the last slash has been overwritten. *)
Definition final_uri (s : list Z) : list Z :=
  if 1 <? len s then put (Z.to_nat (len s - 1)) [0] (uri_array s) else uri_array s.

Lemma final_uri_ok m : let s := SLASH :: with_slashes (segments (m_options m)) in
  (length s < 128)%nat → Forall (λ c, c ≠ 0) s →
  c_string (final_uri s) = path_of m ∧ 0 ∈ final_uri s.
Proof.
  intros s Hlen Hnz. unfold final_uri, path_of. destruct (segments (m_options m)) as [|x l] eqn:El.
  - unfold s, uri_array. cbn. split; [done|]. set_solver.
  - pose proof (slashes_around (x :: l) ltac:(done)) as Es. fold s in Es.
    set (P := concat _) in Es |- *. rewrite Es in *. rewrite length_app in Hlen. cbn [length] in Hlen.
    apply Forall_app in Hnz as [Hnz _].
    assert (0 < length P)%nat by (unfold P; cbn; lia).
    rewrite (proj2 (Z.ltb_lt 1 _)) by (rewrite len_app; unfold len; cbn; lia).
    assert (put (Z.to_nat (len (P ++ [SLASH]) - 1)) [0] (uri_array (P ++ [SLASH])) = P ++ replicate (128 - length P) 0) as ->.
    { replace (Z.to_nat (len (P ++ [SLASH]) - 1)) with (length P) by (rewrite len_app; unfold len; cbn; lia).
      unfold put, uri_array. rewrite <-app_assoc, take_app_length. f_equal.
      rewrite drop_app_ge by (cbn; lia). cbn [length]. replace (length P + 1 - length P)%nat with 1%nat by lia.
      rewrite length_app. cbn [length app drop].
      replace (128 - length P)%nat with (S (128 - (length P + 1)))%nat by lia. done. }
    split; [apply c_string_zeros; [done|lia]|]. apply elem_of_app. right. apply elem_of_replicate. lia.
Qed.

(** * Resources *)

(** The linked list of resources from the address [a] on. *)
Fixpoint chain (g : gmap Z coap_resource_t) (a : Z) (l : list (Z * coap_resource_t)) : Prop :=
  match l with
  | [] => a = 0
  | x :: l => a = x.1 ∧ x.1 ≠ 0 ∧ g !! x.1 = Some x.2 ∧ 0 ∈ uri_path x.2 ∧ chain g (next x.2) l
  end.
(** The first resource with the path. *)
Definition lookup_path (path : list Z) (l : list (Z * coap_resource_t)) : option (Z * coap_resource_t) :=
  head (filter (λ x, c_string (uri_path x.2) = path) l).

Lemma chain_lookup g l : ∀ a, chain g a l → Forall (λ x, g !! x.1 = Some x.2 ∧ x.1 ≠ 0) l.
Proof. induction l as [|x l IH]; intros a; cbn; [done|]. intros (-> & Hn & Hg & _ & Hl). constructor; eauto. Qed.

Lemma chain_size g a l : chain g a l → NoDup l.*1 → (length l ≤ size g)%nat.
Proof.
  intros Hc Hnd. apply chain_lookup in Hc. rewrite <-size_dom, <-(length_fmap fst l).
  rewrite <-(size_list_to_set (C := gset Z)) by done. apply subseteq_size. intros x Hx.
  apply elem_of_list_to_set, list_elem_of_fmap in Hx as (y & -> & Hy).
  eapply Forall_forall in Hc as [Hg _]; [|exact Hy]. by apply elem_of_dom_2 in Hg.
Qed.

Section server.
Context {E : Type} `{!CoapServices E} (junk : nat → Z) (junk_pdu : coap_pdu_t).
Context (call_handler : Z → Z → Z → Z → Z → Z → M (coap_world E) unit).
Abbreviation W := (coap_world E).
Implicit Types (w : W) (m : message).

Lemma build_path_ok w a p l : ∀ k s opts Q, pdus w !! a = Some p → drop k (p_options p) = opts →
  Forall2 (shows_option (objs w)) (take (length l) opts) l →
  (length (s ++ with_slashes (segments l)) < 128)%nat →
  Q (uri_array (s ++ with_slashes (segments l)), len (s ++ with_slashes (segments l))) w →
  wp (build_path (length l) (Z.of_nat k) a (uri_array s) (len s)) Q w.
Proof.
  induction l as [|o l IH]; intros k s opts Q Hp Hk Hshow Hfit HQ.
  { cbn [length build_path]. wp_step. cbn in HQ. by rewrite app_nil_r in HQ. }
  destruct opts as [|x opts]; [by apply Forall2_length in Hshow|].
  cbn [length take] in *. apply Forall2_cons in Hshow as [(En & El & Hval) Hshow].
  assert (p_options p !! k = Some x) as Hlk by (by rewrite <-(Nat.add_0_r k), <-lookup_drop, Hk).
  assert (drop (S k) (p_options p) = opts) as Hk' by (by rewrite <-Nat.add_1_r, <-drop_drop, Hk).
  cbn [build_path]. rewrite wp_bind. eapply deref_ok; [done|]. rewrite wp_bind.
  eapply wp_arr_get; [lia|by rewrite Nat2Z.id|]. replace (Z.of_nat k + 1) with (Z.of_nat (S k)) by lia.
  rewrite En, El. unfold segments in *. rewrite filter_cons in *.
  destruct (decide (o.1 = COAP_OPTION_URI_PATH)) as [->|Hno]; cycle 1.
  { rewrite (proj2 (Z.eqb_neq _ _)) by done. cbn [andb]. by eapply IH. }
  cbn [fmap list_fmap] in *. unfold with_slashes in *. cbn [fmap list_fmap concat] in *.
  rewrite <-app_assoc in *. cbn [app] in *.
  assert (length s + length o.2 + 1 < 128)%nat as Hstep.
  { rewrite !length_app in Hfit. cbn [length] in Hfit. lia. }
  rewrite Z.eqb_refl. rewrite (proj2 (Z.ltb_lt _ 128)) by (unfold len; lia). cbn [andb].
  rewrite wp_bind. apply load_data; [done|].
  replace (Z.to_nat (len s)) with (length s) by (unfold len; lia). rewrite put_uri by lia.
  replace (Z.to_nat (len s + len o.2)) with (length (s ++ o.2)) by (rewrite length_app; unfold len; lia).
  rewrite put_uri by (rewrite length_app; cbn; lia).
  replace (len s + len o.2 + 1) with (len ((s ++ o.2) ++ [SLASH])) by (by rewrite !len_app).
  eapply IH; [done|done|done|..]; rewrite <-!app_assoc; cbn [app]; done.
Qed.

Lemma find_resource_ok w uri l : ∀ fuel a Q, chain (resource_at w) a l → (length l ≤ fuel)%nat → 0 ∈ uri →
  Q (from_option fst 0 (lookup_path (c_string uri) l)) w → wp (find_resource_from fuel a uri) Q w.
Proof.
  induction l as [|x l IH]; intros fuel a Q Hc Hfuel Huri HQ.
  { cbn in Hc. subst a. by destruct fuel. }
  destruct Hc as (-> & Hn & Hg & Hz & Hc). cbn [length] in Hfuel. destruct fuel as [|fuel]; [lia|].
  cbn [find_resource_from]. rewrite (proj2 (Z.eqb_neq _ _)) by done. rewrite wp_bind. eapply deref_ok; [done|].
  rewrite same_string_ok by done. unfold lookup_path in HQ. rewrite filter_cons in HQ.
  case_bool_decide; [by rewrite decide_True in HQ by done|]. rewrite decide_False in HQ by done.
  eapply IH; [done|lia|done|done].
Qed.

(** * Responses *)
Definition blank (type : coap_msg_type_t) (code id : Z) (token : list Z) (n : Z) : coap_pdu_t :=
  pdu_zero <| p_version := COAP_VERSION |> <| p_type := type |> <| p_code := code |> <| p_message_id := id |>
    <| p_token := put 0 (take (Z.to_nat n) token) (replicate 8 0) |> <| p_token_length := n |>.

Lemma blank_represents g type code id token n : 0 ≤ n ≤ 8 → n ≤ len token →
  represents g (blank type code id token n) (Message type code id (take (Z.to_nat n) token) [] []).
Proof.
  intros Hn Hlen. assert (length (take (Z.to_nat n) token) = Z.to_nat n) as El.
  { unfold len in *. rewrite length_take. lia. }
  set (t := take (Z.to_nat n) token) in *. set (z := replicate 8 0).
  assert (length (put 0 t z) = 8%nat) as T1 by (rewrite put_length; [done|rewrite El; cbn; lia]).
  assert (take (length t) (put 0 t z) = t) as T2 by (apply (slice_put_same 0); rewrite El; cbn; lia).
  assert (n = len t) as T3 by (unfold len; lia).
  split; try done. split; [done|]. by left.
Qed.

Lemma init_only_ok w a q buf type code id Q : a ≠ 0 → pdus w !! a = Some q → objs w !! a = Some buf →
  len buf = COAP_MAX_PDU_SIZE →
  Q COAP_OK (w <| pdus ::= <[a := blank type code id [] 0]> |> <| objs ::= <[a := replicate 1152 0]> |>) →
  wp (coap_pdu_init a type code id) Q w.
Proof.
  intros Ha Hq Hbuf Hlen HQ. unfold coap_pdu_init. rewrite (proj2 (Z.eqb_neq a 0)) by done.
  rewrite wp_bind. eapply assign_ok; [done|]. rewrite wp_bind.
  eapply store_ok; cbn [l_obj l_off]; [exact Hbuf|done|done|unfold len, COAP_MAX_PDU_SIZE in *; rewrite length_replicate; lia|].
  assert (put (Z.to_nat 0) (replicate (Z.to_nat COAP_MAX_PDU_SIZE) 0) buf = replicate 1152 0) as ->.
  { unfold put. rewrite length_replicate. change (Z.to_nat 0) with 0%nat. rewrite take_0, drop_ge, app_nil_r; [done|].
    unfold len, COAP_MAX_PDU_SIZE in *. lia. }
  rewrite wp_bind. eapply assign_ok; [cbn; by rewrite lookup_insert_eq|]. rewrite wp_ret.
  destruct w. cbn in *. by rewrite !insert_insert_eq.
Qed.

Lemma set_token_ok w a p token n Q : a ≠ 0 → pdus w !! a = Some p → 0 ≤ n ≤ 8 → n ≤ len token →
  Q COAP_OK (w <| pdus ::= <[a := p <| p_token := put 0 (take (Z.to_nat n) token) (p_token p) |> <| p_token_length := n |>]> |>) →
  wp (coap_pdu_set_token a (Some token) n) Q w.
Proof.
  intros Ha Hp Hn Htok HQ. unfold coap_pdu_set_token. rewrite (proj2 (Z.eqb_neq a 0)) by done.
  rewrite (proj2 (Z.ltb_ge COAP_MAX_TOKEN_LEN n)) by (unfold COAP_MAX_TOKEN_LEN; lia). cbn [orb].
  rewrite (proj2 (Z.ltb_ge (Z.of_nat (length token)) n)) by (unfold len in *; lia).
  rewrite wp_bind. destruct (Z.ltb_spec 0 n).
  - eapply assign_ok; [done|]. rewrite wp_bind. eapply assign_ok; [cbn; by rewrite lookup_insert_eq|]. rewrite wp_ret.
    destruct w. cbn in *. by rewrite !insert_insert_eq.
  - rewrite wp_ret, wp_bind. eapply assign_ok; [done|]. rewrite wp_ret. replace n with 0 in * by lia.
    change (Z.to_nat 0) with 0%nat in HQ. rewrite take_0, put_nil in HQ. exact HQ.
Qed.

Lemma init_ok {A} w a q buf type code id token n (K : M W A) Q : a ≠ 0 → pdus w !! a = Some q → objs w !! a = Some buf →
  len buf = COAP_MAX_PDU_SIZE → 0 ≤ n ≤ 8 → n ≤ len token →
  wp K Q (w <| pdus ::= <[a := blank type code id token n]> |> <| objs ::= <[a := replicate 1152 0]> |>) →
  wp (let! _ := coap_pdu_init a type code id in let! _ := coap_pdu_set_token a (Some token) n in K) Q w.
Proof.
  intros Ha Hq Hbuf Hlen Hn Htok HQ. rewrite wp_bind. eapply init_only_ok; [done..|]. rewrite wp_bind.
  eapply set_token_ok; [done|cbn; by rewrite lookup_insert_eq|done|done|].
  destruct w. cbn in *. by rewrite insert_insert_eq.
Qed.

(** What the handlers of the resources promise: from static data, they fill in the response. *)
Definition not_found m : message := Message COAP_TYPE_ACK COAP_RESPONSE_404_NOT_FOUND (m_id m) (m_token m) [] [].
Definition found m : message := Message COAP_TYPE_ACK COAP_RESPONSE_205_CONTENT (m_id m) (m_token m) [] [].
Class ResourceHandlers := {
  known : Z → Prop;
  static : objects → Prop;
  reply : Z → message → message;
  static_local g a x : a < 0 → static g → static (<[a := x]> g);
  reply_ok h m : known h → message_ok m → message_ok (reply h m);
  handler_ok h w context resource request response data m : known h → static (objs w) →
    response < request → response < 0 → shows_request w request m → shows w response (found m) →
    wp (call_handler h context resource request response data) (λ _ w', ∃ q,
      w' = w <| pdus ::= <[response := q]> |> ∧ represents (objs w) q (reply h m) ∧
      ∀ b, b < response → pdu_apart b q (reply h m)) w
}.
Context `{!ResourceHandlers}.

(** The reply to a request, given the resources. *)
Definition answer (l : list (Z * coap_resource_t)) m : message :=
  match lookup_path (path_of m) l with
  | None => not_found m
  | Some x => reply (handler x.2) m
  end.
(** Sending the message [m] takes the services from [e] to [e']; one that is too long is not sent. *)
Definition sends (fd : Z) m (to : Z * Z) (e e' : E) : Prop :=
  if len (wire m) <=? COAP_MAX_PDU_SIZE then ∃ n, sv_sendto fd (wire m) to e = Ret n e' else e' = e.

Lemma options_frame g b x os l : Forall2 (shows_option g) os l →
  Forall2 (λ o y, apart b (o_value o) y.2) os l → Forall2 (shows_option (<[b := x]> g)) os l.
Proof.
  induction 1 as [|o y os l (? & ? & ?) _ IH]; intros Hao; [constructor|]. apply Forall2_cons in Hao as [? Hao].
  constructor; [|by apply IH]. split; [done|]. split; [done|]. by apply data_at_frame.
Qed.
Lemma represents_frame g p m b x : represents g p m → pdu_apart b p m → represents (<[b := x]> g) p m.
Proof.
  intros [? ? ? ? ? (? & ? & Hos) (? & Hpl)] [Hao Hap]. split; try done.
  - split; [done|]. split; [done|].
    by apply options_frame.
  - split; [done|]. by apply data_at_frame.
Qed.

(** The end of [serve]: the response is encoded and sent. *)
Lemma send_ok w context c response rb q m obuf from e' :
  response ≠ 0 → rb ≠ 0 → contexts w !! context = Some c →
  pdus w !! response = Some q → represents (objs w) q m → pdu_apart rb q m → message_ok m →
  objs w !! rb = Some obuf → len obuf = COAP_MAX_PDU_SIZE → sends (socket_fd c) m from (env w) e' →
  wp (let! n := coap_pdu_encode response (Loc rb 0) COAP_MAX_PDU_SIZE in
      when (0 <? n)
        (let! c := deref contexts context in
         let! bs := load (Loc rb 0) n in
         let! _ := on_env (sv_sendto (socket_fd c) bs from) in
         ret tt))
    (λ _ w', ∃ x, w' = w <| env := e' |> <| objs ::= <[rb := x]> |>) w.
Proof.
  intros Hr Hrb Hc Hq Hrep Hap Hok Hobuf Hlen Hsend. unfold sends in Hsend.
  rewrite wp_bind. eapply wp_mono; [eapply (encode_ok w response q m rb obuf); try done|].
  { rewrite Hlen. unfold COAP_MAX_PDU_SIZE, COAP_HEADER_SIZE. lia. }
  intros n w1 Hn. cbv beta in Hn. rewrite wp_when.
  destruct (Z.leb_spec (len (wire m)) COAP_MAX_PDU_SIZE) as [Hfit|].
  - destruct Hn as [-> ->]. destruct Hsend as [s Hs].
    assert (0 < len (wire m)) as Hpos.
    { pose proof (wire_size m). pose proof (len_nonneg (m_payload m)). lia. }
    rewrite (proj2 (Z.ltb_lt _ _)) by done. rewrite wp_bind. eapply deref_ok; [done|].
    rewrite wp_bind. apply load_ok.
    { apply put_mem_at; [done|lia]. }
    rewrite wp_bind. unfold on_env. rewrite wp_zoom. eapply wp_intro; [exact Hs|]. rewrite wp_ret.
    eexists. unfold with_buffer. by destruct w.
  - destruct Hn as (-> & x & _ & ->). exists x. subst e'. unfold with_buffer. by destruct w.
Qed.

Lemma settled_fields m p : p_options (settled m p) = p_options p ∧ p_option_count (settled m p) = p_option_count p ∧
  p_message_id (settled m p) = p_message_id p ∧ p_token (settled m p) = p_token p ∧
  p_token_length (settled m p) = p_token_length p ∧ p_code (settled m p) = p_code p.
Proof. unfold settled. by destruct (m_payload m). Qed.

Record path_ok m : Prop := {
  path_short : (length (SLASH :: with_slashes (segments (m_options m))) < 128)%nat;
  path_chars : Forall (λ c, c ≠ 0) (SLASH :: with_slashes (segments (m_options m)))
}.

Lemma reply_messages m : message_ok m → message_ok (not_found m) ∧ message_ok (found m).
Proof.
  intros [_ Hid Htok _ _].
  assert (∀ code, 0 ≤ code < 256 → message_ok (Message COAP_TYPE_ACK code (m_id m) (m_token m) [] [])) as Hall.
  { intros code Hcode. split; cbn; [done|done|done|split; [done|lia]|split; [done|constructor]]. }
  split; apply Hall; unfold COAP_RESPONSE_404_NOT_FOUND, COAP_RESPONSE_205_CONTENT; lia.
Qed.

Lemma lookup_path_in path l x : lookup_path path l = Some x → x ∈ l.
Proof.
  unfold lookup_path. intros Hx. apply head_Some_elem_of, list_elem_of_filter in Hx. tauto.
Qed.

(** The handler of the resource, if there is one, and then the reply is sent. *)
Lemma respond_ok w context c req resp rb p m l obuf from e' :
  contexts w !! context = Some c → chain (resource_at w) (resources c) l →
  Forall (λ x, known (handler x.2)) l → static (objs w) → message_ok m →
  pdus w !! req = Some p → represents (objs w) (settled m p) m → resp < req → resp < 0 → rb < resp →
  pdus w !! resp = Some (blank COAP_TYPE_ACK COAP_RESPONSE_404_NOT_FOUND (m_id m) (p_token p) (len (m_token m))) →
  objs w !! rb = Some obuf → len obuf = COAP_MAX_PDU_SIZE → sends (socket_fd c) (answer l m) from (env w) e' →
  wp (let resource := from_option fst 0 (lookup_path (path_of m) l) in
      when (negb (resource =? 0))
        (assign pdus resp (λ p, p <| p_code := COAP_RESPONSE_205_CONTENT |>) ;;;
         let! r := deref resource_at resource in
         call_handler (handler r) context resource req resp (user_data r)) ;;;
      let! n := coap_pdu_encode resp (Loc rb 0) COAP_MAX_PDU_SIZE in
      when (0 <? n)
        (let! c := deref contexts context in
         let! bs := load (Loc rb 0) n in
         let! _ := on_env (sv_sendto (socket_fd c) bs from) in
         ret tt))
    (λ _ w', ∃ q y, w' = w <| env := e' |> <| pdus ::= <[resp := q]> |> <| objs ::= <[rb := y]> |>) w.
Proof.
  intros Hc Hchain Hknown Hstat Hok Hp Hrep Hlt Hneg Hrb Hq Hobuf Hol Hsend. cbv zeta.
  destruct (reply_messages m Hok) as [Hok404 Hok205].
  pose proof Hok as [_ _ [Htok _] _ _]. unfold COAP_MAX_TOKEN_LEN in Htok. pose proof (len_nonneg (m_token m)).
  pose proof (rep_token _ _ _ Hrep) as (Htl & Htn & Htk).
  destruct (settled_fields m p) as (_ & _ & _ & F4 & _). rewrite F4 in Htl, Htk.
  assert (∀ code, represents (objs w) (blank COAP_TYPE_ACK code (m_id m) (p_token p) (len (m_token m)))
    (Message COAP_TYPE_ACK code (m_id m) (m_token m) [] [])) as Hblank.
  { intros code. pose proof (blank_represents (objs w) COAP_TYPE_ACK code (m_id m) (p_token p) (len (m_token m))) as Hb.
    replace (Z.to_nat (len (m_token m))) with (length (m_token m)) in Hb by (unfold len; lia).
    rewrite Htk in Hb. apply Hb; [lia|unfold len in *; lia]. }
  unfold answer in Hsend. rewrite wp_bind, wp_when.
  destruct (lookup_path (path_of m) l) as [x|] eqn:Ex; cbn [from_option]; cycle 1.
  { cbn [Z.eqb negb]. eapply wp_mono; [eapply send_ok; try done; try lia|].
    - split; cbn; [constructor|by left].
    - intros _ w' [y ->]. eexists _, y. clear -Hq. destruct w. cbn in *.
      rewrite (insert_id pdus _ _ Hq). done. }
  apply lookup_path_in in Ex. eapply Forall_forall in Hknown as Hkn; [|exact Ex].
  apply chain_lookup in Hchain. eapply Forall_forall in Hchain as [Hres Hnz]; [|exact Ex].
  rewrite (proj2 (Z.eqb_neq _ _)) by done. cbn [negb].
  rewrite wp_bind. eapply assign_ok; [done|]. rewrite wp_bind. eapply deref_ok; [done|].
  eapply wp_mono; [eapply (handler_ok (handler x.2) _ _ _ req resp _ m); try done|].
  - exists p. cbn. rewrite lookup_insert_ne by lia. done.
  - eexists. cbn. rewrite lookup_insert_eq. split; [done|]. apply (Hblank COAP_RESPONSE_205_CONTENT).
  - intros _ w1 (q & -> & Hq1 & Hap). cbn in Hq1.
    eapply wp_mono; [eapply (send_ok _ context c resp rb q (reply (handler x.2) m)); try done; try lia|].
    + cbn. by rewrite lookup_insert_eq.
    + apply Hap. lia.
    + by apply reply_ok.
    + intros _ w' [y ->]. exists q, y. destruct w. cbn. by rewrite insert_insert_eq.
Qed.

Lemma serve_ok w context c req resp rb p q0 buf obuf m l from e' :
  contexts w !! context = Some c → chain (resource_at w) (resources c) l → NoDup l.*1 →
  Forall (λ x, known (handler x.2)) l → static (objs w) → message_ok m → path_ok m →
  pdus w !! req = Some p → represents (objs w) (settled m p) m → pdu_apart resp (settled m p) m →
  resp < req → resp < 0 → rb < resp →
  pdus w !! resp = Some q0 → objs w !! resp = Some buf → len buf = COAP_MAX_PDU_SIZE →
  objs w !! rb = Some obuf → len obuf = COAP_MAX_PDU_SIZE → sends (socket_fd c) (answer l m) from (env w) e' →
  wp (serve call_handler context req resp rb from) (λ _ w', ∃ q x y,
    w' = w <| env := e' |> <| pdus ::= <[resp := q]> |> <| objs ::= λ g, <[rb := y]> (<[resp := x]> g) |>) w.
Proof.
  intros Hc Hchain Hnd Hknown Hstat Hok [Hshort Hchars] Hp Hrep Hap Hlt Hneg Hrb Hq0 Hbuf Hbl Hobuf Hol Hsend.
  destruct (settled_fields m p) as (F1 & F2 & F3 & F4 & F5 & F6).
  pose proof Hrep as [_ _ _ Hid (Htl & Htn & Htk) (_ & Hoc & Hos) _]. rewrite F1 in Hos. rewrite F2 in Hoc.
  rewrite F3 in Hid. rewrite F4 in Htl, Htk. rewrite F5 in Htn.
  destruct (final_uri_ok m Hshort Hchars) as [Huri Hz].
  unfold serve. rewrite wp_bind. eapply deref_ok; [done|]. rewrite wp_bind, Hoc, Nat2Z.id.
  eapply (build_path_ok w req p (m_options m) 0 [SLASH] (p_options p)); [done|done|exact Hos|exact Hshort|]. cbn [fst snd].
  rewrite wp_bind. unfold coap_find_resource. rewrite wp_bind. eapply deref_ok; [done|].
  rewrite wp_bind, wp_gets. eapply find_resource_ok; [done|by eapply chain_size|exact Hz|].
  change (if 1 <? _ then _ else _) with (final_uri (SLASH :: with_slashes (segments (m_options m)))).
  rewrite Huri.
  pose proof Hok as [_ _ [Htok _] _ _]. unfold COAP_MAX_TOKEN_LEN in Htok. pose proof (len_nonneg (m_token m)).
  eapply init_ok; [lia|done|done|done|lia|unfold len in *; lia|].
  rewrite Hid, Htn. eapply wp_mono.
  - eapply (respond_ok _ context c req resp rb p m l obuf); try done; cbn.
    + by apply static_local.
    + by rewrite lookup_insert_ne by lia.
    + by apply represents_frame.
    + by rewrite lookup_insert_eq.
    + by rewrite lookup_insert_ne by lia.
  - intros _ w' (q & y & ->). exists q, (replicate 1152 0), y. destruct w. cbn. by rewrite insert_insert_eq.
Qed.

(** * Processing a datagram *)

(** No object lives at the addresses that locals get. *)
Definition fresh_locals w : Prop :=
  locals w < 0 ∧ ∀ x, x ≤ locals w → objs w !! x = None ∧ pdus w !! x = None.

Lemma foldr_delete_fresh {A} (g g' : gmap Z A) l : (∀ i, i ∉ l → g' !! i = g !! i) → (∀ i, i ∈ l → g !! i = None) →
  foldr delete g' l = g.
Proof.
  intros Hout Hin. apply map_eq. intros i. destruct (decide (i ∈ l)) as [Hi|Hi].
  - rewrite lookup_foldr_delete by done. by rewrite Hin.
  - rewrite lookup_foldr_delete_not_elem_of by done. by apply Hout.
Qed.

Lemma with_decoded_fields a w p abuf pl : ∃ g p',
  with_decoded a w p abuf pl = World (env w) g (<[a := p']> (pdus w)) (contexts w) (resource_at w) (responses w) (locals w) ∧
  (g = objs w ∨ ∃ x, g = <[a := x]> (objs w)).
Proof. destruct w, pl; cbn; eexists _, _; eauto. Qed.

(** The arrays of an unassigned structure have their size. *)
Hypotheses (Hjt : length (p_token junk_pdu) = 8%nat) (Hjo : length (p_options junk_pdu) = 16%nat).

(** From the decoded request on: [og] and [ps] are the objects and structures of the caller, [g] the
    objects now. *)
Lemma process_decoded context c e og ps cs ras rs lo g p1 q u m l from e' :
  let req := lo - 1 in let resp := req - 1 in let rb := resp - 1 in
  let w1 := World e g (<[req := p1]> (<[resp := junk_pdu]> (<[req := junk_pdu]> ps))) cs ras rs (rb - 1) in
  cs !! context = Some c → is_server c = true → code_class (m_code m) = 0 → len u = COAP_MAX_PDU_SIZE → lo < 0 →
  chain ras (resources c) l → NoDup l.*1 → Forall (λ x, known (handler x.2)) l →
  message_ok m → path_ok m → static g → (∀ x, x ≤ lo → og !! x = None ∧ ps !! x = None) →
  (∀ i, i ≠ req → i ≠ lo → g !! i = <[rb:=u]> (<[resp:=u]> og) !! i) →
  pdus w1 !! req = Some q → represents g (settled m q) m → (∀ x, x ≠ req → x ≠ lo → pdu_apart x (settled m q) m) →
  sends (socket_fd c) (answer l m) from e e' →
  wp (let! rq := deref pdus req in
      let! c := deref contexts context in
      when (is_server c && (code_class (p_code rq) =? 0)) (serve call_handler context req resp rb from) ;;;
      ret COAP_OK)
    (λ r, wp (leave [lo; req; resp; rb] ;;; ret r)
      (λ r w', r = COAP_OK ∧ w' = World e' og ps cs ras rs (lo - 4))) w1.
Proof.
  intros req resp rb w1 Hc Hsrv Hclass Hu Hneg Hchain Hnd Hknown Hok Hpath Hsg Hfresh Hgi Hq Hrep Hap Hsend. unfold w1.
  rewrite wp_bind. eapply deref_ok; [exact Hq|]. rewrite wp_bind. eapply deref_ok; [exact Hc|].
  assert (p_code q = m_code m) as Hcode.
  { destruct (settled_fields m q) as (_ & _ & _ & _ & _ & F6). rewrite <-F6. by apply rep_code in Hrep. }
  rewrite Hsrv, Hcode, Hclass. cbn [andb Z.eqb]. rewrite wp_bind, wp_when.
  eapply wp_mono; [eapply (serve_ok _ context c req resp rb q junk_pdu u u m l); try done; try (unfold rb, resp, req; lia)|].
  { apply Hap; unfold resp, req; lia. }
  { cbn. rewrite lookup_insert_ne by (unfold resp; lia). by rewrite lookup_insert_eq. }
  { cbn. rewrite Hgi by (unfold resp, req; lia). rewrite lookup_insert_ne by (unfold rb; lia). by rewrite lookup_insert_eq. }
  { cbn. rewrite Hgi by (unfold rb, resp, req; lia). by rewrite lookup_insert_eq. }
  intros _ w2 (q2 & x & y & ->). rewrite wp_ret, wp_bind. unfold leave. rewrite wp_modify, wp_ret. split; [done|].
  cbn [env objs pdus contexts resource_at responses locals set_field].
  f_equal; [apply foldr_delete_fresh|apply foldr_delete_fresh|unfold rb, resp, req; lia].
  - intros i Hi. rewrite !not_elem_of_cons in Hi. destruct Hi as (? & ? & ? & ? & _).
    rewrite !lookup_insert_ne by done. rewrite Hgi by done. by rewrite !lookup_insert_ne by done.
  - intros i Hi. apply Hfresh. rewrite !elem_of_cons, elem_of_nil in Hi. unfold rb, resp, req in Hi. lia.
  - intros i Hi. rewrite !not_elem_of_cons in Hi. destruct Hi as (? & ? & ? & ? & _).
    by rewrite !lookup_insert_ne by done.
  - intros i Hi. apply Hfresh. rewrite !elem_of_cons, elem_of_nil in Hi. unfold rb, resp, req in Hi. lia.
Qed.

(** The server answers: for every well-formed request that arrives, [coap_process] sends exactly
    one datagram to the sender (none if it would be too long), the encoding of the reply: with the
    identifier and the token of the request, it is what the handler of the first resource with the
    path of the request makes it, or 4.04 Not Found if there is no such resource. Nothing else
    changes, and no memory of the call is left over. *)
Theorem coap_server_answers w context c m l e from e' :
  context ≠ 0 → contexts w !! context = Some c → 0 ≤ socket_fd c → is_server c = true →
  sv_recvfrom (socket_fd c) COAP_MAX_PDU_SIZE (env w) = Ret (len (wire m), wire m, from) e →
  message_ok m → path_ok m → code_class (m_code m) = 0 → len (wire m) ≤ COAP_MAX_PDU_SIZE →
  chain (resource_at w) (resources c) l → NoDup l.*1 → Forall (λ x, known (handler x.2)) l →
  static (objs w) → fresh_locals w → sends (socket_fd c) (answer l m) from e e' →
  wp (coap_process junk junk_pdu call_handler context) (λ r w',
    r = COAP_OK ∧ w' = w <| env := e' |> <| locals ::= λ x, x - 4 |>) w.
Proof.
  intros Hctx Hc Hfd Hsrv Hrecv Hok Hpath Hclass Hlen Hchain Hnd Hknown Hstat [Hneg Hfresh] Hsend.
  unfold coap_process. rewrite (proj2 (Z.eqb_neq _ _)) by done. rewrite wp_bind. eapply deref_ok; [done|].
  rewrite (proj2 (Z.ltb_ge _ 0)) by done. unfold local_array, local_pdu, local_address.
  wp_step. destruct w as [e0 og ps cs ras rs lo].
  cbn [env objs pdus contexts resource_at responses locals set_field] in *.
  unfold on_env. rewrite wp_zoom. eapply wp_intro; [exact Hrecv|]. cbn [fst snd set_field env objs pdus contexts resource_at responses locals].
  set (req := lo - 1). set (resp := req - 1). set (rb := resp - 1).
  set (u := uninit junk COAP_MAX_PDU_SIZE).
  assert (len u = COAP_MAX_PDU_SIZE) as Hu.
  { unfold u, uninit, len. rewrite length_fmap, length_seq. done. }
  rewrite wp_bind. eapply (store_ok _ _ _ u); cbn [l_obj l_off objs]; [|lia|done|lia|].
  { rewrite !lookup_insert_ne by (unfold rb, resp, req; lia). by rewrite lookup_insert_eq. }
  assert (0 < len (wire m)) as Hpos.
  { pose proof (wire_size m). pose proof (len_nonneg (m_payload m)). lia. }
  rewrite (proj2 (Z.leb_gt _ 0)) by done. rewrite wp_bind, wp_bind.
  eapply wp_mono; [eapply (decode_ok _ req lo m junk_pdu u); try done; try (unfold req; lia)|].
  { apply put_mem_at; lia. }
  { cbn. rewrite lookup_insert_ne by (unfold resp; lia). by rewrite lookup_insert_eq. }
  { cbn. rewrite !lookup_insert_ne by (unfold rb, resp, req; lia). by rewrite lookup_insert_eq. }
  { pose proof (wire_size m). unfold COAP_MAX_PDU_SIZE in *. lia. }
  intros r w1 (-> & (p' & Hw1) & q & Hq & Hrep & _ & Hap).
  edestruct (with_decoded_fields req) as (g & p1 & Ew & Hg). rewrite Ew in Hw1. clear Ew.
  cbn [env objs pdus contexts resource_at responses locals set_field] in Hw1, Hg.
  assert (static g) as Hsg by (destruct Hg as [->|[x ->]]; repeat (apply static_local; [unfold rb, resp, req; lia|]); done).
  assert (∀ i, i ≠ req → i ≠ lo → g !! i = <[rb:=u]> (<[resp:=u]> og) !! i) as Hgi.
  { intros i Hi1 Hi2. destruct Hg as [->|[x ->]]; rewrite ?(lookup_insert_ne _ req) by done;
      rewrite (lookup_insert_ne _ lo) by done; destruct (decide (i = rb)) as [->|];
      rewrite ?lookup_insert_eq, ?(lookup_insert_ne _ rb) by done; try done;
      destruct (decide (i = resp)) as [->|]; rewrite ?lookup_insert_eq, ?(lookup_insert_ne _ resp) by done; try done;
      by rewrite !lookup_insert_ne by done. }
  rewrite bool_decide_eq_false_2 by (intros Hno; by apply Hno).
  subst w1. by eapply process_decoded.
Qed.
End server.

(** * An example *)

(** Sockets and memory for the witnesses: datagrams to be received, datagrams sent (the last one
    first), and the address of the next block of memory. *)
Record host := Host { inbox : list (list Z * (Z * Z)); outbox : list (list Z * (Z * Z)); brk : Z }.
#[export] Instance host_eta : Eta host := λ h, Host (inbox h) (outbox h) (brk h).
#[export] Instance host_services : CoapServices host := {|
  sv_socket := ret 0;
  sv_bind _ _ := ret OS_OK;
  sv_close _ := ret tt;
  sv_sendto _ bs to := modify (λ h, h <| outbox ::= cons (bs, to) |>) ;;; ret (Z.of_nat (length bs));
  sv_recvfrom _ _ :=
    let! l := gets inbox in
    match l with
    | [] => ret (0, [], (0, 0))
    | (bs, from) :: l => modify (λ h, h <| inbox := l |>) ;;; ret (Z.of_nat (length bs), bs, from)
    end;
  sv_malloc n := let! a := gets brk in modify (λ h, h <| brk := a + n |>) ;;; ret a;
  sv_free _ := ret tt;
  sv_ticks _ := 7
|}.

(** A handler that answers 21 in plain text, with the function pointer 1; its data is in the objects
    5 and 6. *)
Definition temp_handler {E} (_ _ _ _ response _ : Z) : M (coap_world E) unit :=
  let! _ := coap_pdu_add_option response COAP_OPTION_CONTENT_FORMAT (Loc 6 0) 1 in
  let! _ := coap_pdu_set_payload response (Loc 5 0) 2 in
  ret tt.
Definition temp_reply (m : message) : message :=
  Message COAP_TYPE_ACK COAP_RESPONSE_205_CONTENT (m_id m) (m_token m) [(COAP_OPTION_CONTENT_FORMAT, [0])] [50; 49].

#[local] Obligation Tactic := idtac.
#[export] Program Instance temp_handlers E : ResourceHandlers (temp_handler (E := E)) := {|
  known h := h = 1;
  static g := mem_at g (Loc 5 0) [50; 49] ∧ mem_at g (Loc 6 0) [0];
  reply _ := temp_reply
|}.
Next Obligation. intros E g a x Ha [H5 H6]. split; apply mem_at_frame; cbn; lia || done. Qed.
Next Obligation.
  intros E h m _ [_ Hid Htok _ _]. split; cbn; [done|done|done| |].
  - split; [|lia]. unfold COAP_OPTION_CONTENT_FORMAT, len. cbn. repeat split; try lia. repeat constructor; lia.
  - unfold len. cbn. split; [lia|]. repeat constructor; lia.
Qed.
Next Obligation.
  intros E h w ctx res req resp data m _ [H5 H6] Hlt Hneg _ (p & Hp & [Hv Ht Hc Hid Htok (Hol & Hoc & _) _]).
  cbn in Hoc. unfold temp_handler, coap_pdu_add_option, coap_pdu_set_payload.
  rewrite (proj2 (Z.eqb_neq resp 0)) by lia. rewrite wp_bind, wp_bind. eapply deref_ok; [done|].
  destruct (Z.leb_spec COAP_MAX_OPTION_COUNT (p_option_count p)) as [Hx|_]; [unfold COAP_MAX_OPTION_COUNT in Hx; lia|].
  rewrite wp_bind. eapply assign_ok; [done|]. rewrite wp_ret, wp_bind.
  destruct (Z.ltb_spec COAP_MAX_PAYLOAD_SIZE 2) as [Hx|_]; [unfold COAP_MAX_PAYLOAD_SIZE in Hx; lia|]. cbn [orb].
  rewrite wp_bind. eapply assign_ok; [cbn; by rewrite lookup_insert_eq|]. rewrite !wp_ret. rewrite Hoc.
  eexists. split; [destruct w; cbn; by rewrite insert_insert_eq|].
  destruct (p_options p) as [|o os] eqn:Eo; [done|]. split.
  - split; cbn; try done.
    + split; [done|]. split; [done|]. constructor; [|constructor]. split; [done|]. split; [done|]. by right.
    + split; [done|]. by right.
  - intros b Hb. split; [constructor; [|constructor]|]; right; cbn; lia.
Qed.

(** A server with the resource /temp, to which a request for it is on its way. *)
Definition temp_path : list Z := [47; 116; 101; 109; 112].
Definition temp_resource : coap_resource_t := Resource (strncpy temp_path 63 ++ [0]) 1 0 false 60 0.
Definition temp_world : coap_world host :=
  World (Host [(wire get_temp, (77, 5683))] [] 100) {[ 5 := [50; 49]; 6 := [0] ]} ∅
    {[ 1 := Context (Endpoint 0 5683) 0 1 10 0 0 0 true ]} {[ 10 := temp_resource ]} ∅ (-1).

Lemma get_temp_ok : message_ok get_temp.
Proof.
  split; unfold COAP_MAX_TOKEN_LEN, len; cbn; try lia.
  - split; [lia|]. repeat constructor; lia.
  - split; [|lia]. repeat split; try lia. repeat constructor; lia.
  - split; [lia|constructor].
Qed.
Lemma get_temp_path : path_ok get_temp.
Proof. split; vm_compute; [lia|]. repeat constructor; lia. Qed.
Lemma temp_world_ok : static (temp_handler (E := host)) (objs temp_world) ∧ fresh_locals temp_world.
Proof.
  split; [split; (split; [done|]; split; [done|]; eexists; by vm_compute)|].
  split; [cbn; lia|]. intros x Hx. cbn in Hx.
  split; [|done]. cbn. by rewrite lookup_insert_ne, lookup_singleton_ne by lia.
Qed.

Lemma coap_server_answers_witness :
  wp (coap_process (λ _, 0) pdu_zero temp_handler 1) (λ r w', r = COAP_OK ∧
    env w' = Host [] [(wire (temp_reply get_temp), (77, 5683))] 100) temp_world.
Proof.
  eapply wp_mono; [eapply (coap_server_answers (λ _, 0) pdu_zero temp_handler eq_refl eq_refl temp_world 1
    (Context (Endpoint 0 5683) 0 1 10 0 0 0 true) get_temp [(10, temp_resource)]
    (Host [] [] 100) (77, 5683) (Host [] [(wire (temp_reply get_temp), (77, 5683))] 100))|];
    [done|done|done|done|vm_compute; reflexivity|exact get_temp_ok|exact get_temp_path|done|vm_compute; done| | | |
     exact (proj1 temp_world_ok)|exact (proj2 temp_world_ok)| |by intros r w' [-> ->]].
  - cbn. repeat split; [done|]. vm_compute. set_solver.
  - cbn. apply NoDup_singleton.
  - by repeat constructor.
  - vm_compute. by eexists.
Defined.
