(* ===== verification/CoapClient.v ===== *)
(** CoapClient: requests of the client of [src/coap.c].

    A GET for a path of one segment sends the encoding of the request and returns the code, the
    content format and the payload of the answer. Paths of several segments are garbled, since all
    Uri-Path options point to one array, and requests with a payload use a variable behind its
    lifetime. *)
From Stdlib Require Import ZArith Lia.
From stdpp Require Import base numbers list gmap.
From S2P Require Import Prelude Types Bytes Coap CoapTheorems CoapServer.

(** A segment of a path. *)
Record segment_ok (s : list Z) : Prop := {
  seg_length : (0 < length s < 64)%nat;
  seg_chars : Forall (λ c, c ≠ 0 ∧ c ≠ SLASH) s;
  seg_bytes : bytes_ok s
}.

Lemma strchr_none s : Forall (λ c, c ≠ 0 ∧ c ≠ SLASH) s → strchr s SLASH = None.
Proof.
  induction 1 as [|c s [_ Hc] _ IH]; [done|]. cbn. rewrite (proj2 (Z.eqb_neq _ _)) by done. by rewrite IH.
Qed.

(** The array [path_segment] with the segment. *)
Lemma strncpy_segment s : (length s < 64)%nat → strncpy s 63 ++ [0] = s ++ replicate (64 - length s) 0.
Proof.
  intros Hlen. unfold strncpy. rewrite take_app_ge by lia. rewrite take_replicate, Nat.min_l by lia.
  rewrite <-app_assoc. f_equal. rewrite <-(replicate_S_end _ 0). f_equal. lia.
Qed.

(** The content format of a message: the first byte of the first such option. *)
Definition content_format (m : message) : Z :=
  match head (filter (λ o, o.1 = COAP_OPTION_CONTENT_FORMAT) (m_options m)) with
  | Some (_, b :: _) => b
  | _ => COAP_CONTENT_FORMAT_TEXT_PLAIN
  end.

(** The token made from the tick counter. *)
Definition token_of (tick : Z) : list Z :=
  [Z.land (Z.shiftr tick 0) 0xFF; Z.land (Z.shiftr tick 8) 0xFF; Z.land (Z.shiftr tick 16) 0xFF; Z.land (Z.shiftr tick 24) 0xFF].
Lemma token_of_ok tick : bytes_ok (token_of tick).
Proof.
  assert (∀ z, 0 ≤ Z.land z 0xFF < 256) as Hb.
  { intros z. rewrite (land_ones_mod 8) by lia. apply Z.mod_pos_bound. lia. }
  by repeat constructor; apply Hb.
Qed.

Section client.
Context {E : Type} `{!CoapServices E} (junk : nat → Z) (junk_pdu : coap_pdu_t).
Hypotheses (Hjt : length (p_token junk_pdu) = 8%nat) (Hjo : length (p_options junk_pdu) = 16%nat).
Abbreviation W := (coap_world E).
Implicit Types (w : W) (m : message).

(** * The request *)
Lemma add_segment_ok w req ps p buf s Q : segment_ok s → req ≠ 0 → ps ≠ 0 → pdus w !! req = Some p →
  p_option_count p = 0 → objs w !! ps = Some buf → length buf = 64%nat →
  Q tt (w <| objs ::= <[ps := s ++ replicate (64 - length s) 0]> |>
          <| pdus ::= <[req := store_option (Option COAP_OPTION_URI_PATH (len s) (Loc ps 0)) p]> |>) →
  wp (add_segments (S (length s)) req ps (Some s) (strchr s SLASH)) Q w.
Proof.
  intros [Hlen Hchars _] Hreq Hps Hp Hcnt Hbuf Hbl HQ. rewrite strchr_none by done.
  destruct s as [|c s]; [cbn in Hlen; lia|]. cbn [add_segments]. set (seg := c :: s) in *. rewrite wp_bind.
  assert (length (strncpy seg 63) = 63%nat) as Hsn.
  { unfold strncpy. rewrite length_take, length_app, length_replicate. lia. }
  rewrite wp_bind. eapply store_ok; cbn [l_obj l_off]; [done|done|done|unfold len; lia|].
  rewrite wp_bind. eapply (store_ok _ _ _ (put 0 (strncpy seg 63) buf)); cbn [l_obj l_off];
    [exact (lookup_insert_eq _ _ _)|done|done| |].
  { unfold len. rewrite put_length; cbn [length]; lia. }
  replace (put (Z.to_nat 63) [0] (put 0 (strncpy seg 63) buf)) with (seg ++ replicate (64 - length seg) 0); cycle 1.
  { rewrite <-strncpy_segment by lia. change (Z.to_nat 63) with 63%nat.
    rewrite <-Hsn at 2. change (length (strncpy seg 63)) with (0 + length (strncpy seg 63))%nat.
    rewrite put_app by (rewrite Hsn; cbn; lia). unfold put. rewrite take_0, drop_ge, app_nil_r; [done|].
    rewrite length_app, Hsn. cbn. lia. }
  rewrite wp_ret, wp_bind.
  set (arr := seg ++ replicate (64 - length seg) 0) in *.
  assert (length arr = 64%nat) as Harr by (unfold arr; rewrite length_app, length_replicate; lia).
  eapply (load_in _ _ _ arr); cbn [l_obj l_off];
    [exact (lookup_insert_eq _ _ _)|done|done|done|unfold len; lia|].
  change (Z.to_nat 0) with 0%nat. rewrite drop_0, take_ge by (rewrite Harr; cbn; lia).
  assert (c_string arr = seg) as ->.
  { apply c_string_zeros; [|lia]. eapply Forall_impl; [exact Hchars|]. by intros x [? _]. }
  fold (len seg). rewrite wp_bind, wp_when, (proj2 (Z.ltb_lt 0 _)) by (unfold len; lia).
  unfold coap_pdu_add_option. rewrite (proj2 (Z.eqb_neq req 0)) by done.
  rewrite wp_bind, wp_bind. eapply deref_ok; [done|]. rewrite Hcnt.
  destruct (Z.leb_spec COAP_MAX_OPTION_COUNT 0) as [Hx|_]; [by unfold COAP_MAX_OPTION_COUNT in Hx|].
  rewrite wp_bind. eapply assign_ok; [done|]. rewrite !wp_ret. cbn [fst snd].
  assert (∀ fuel, wp (add_segments fuel req ps None None) Q =
    wp (ret tt) Q) as -> by (by intros [|]). rewrite wp_ret.
  unfold store_option in HQ. rewrite Hcnt in *. destruct w. cbn in *. rewrite insert_insert_eq. exact HQ.
Qed.

Lemma get_option_ok w p m l : ∀ k opts num Q, drop k (p_options p) = opts →
  Forall2 (shows_option (objs w)) (take (length l) opts) l →
  (∀ r, match head (filter (λ o, o.1 = num) l) with
        | Some x => ∃ o, r = Some o ∧ shows_option (objs w) o x
        | None => r = None
        end → Q r w) →
  wp (get_option_from (length l) (Z.of_nat k) p num) Q w.
Proof.
  induction l as [|x l IH]; intros k opts num Q Hk Hshow HQ; cbn [length get_option_from].
  { wp_step. by apply HQ. }
  destruct opts as [|o opts]; [by apply Forall2_length in Hshow|].
  cbn [length take] in *. apply Forall2_cons in Hshow as [Ho Hshow].
  assert (p_options p !! k = Some o) as Hlk by (by rewrite <-(Nat.add_0_r k), <-lookup_drop, Hk).
  rewrite wp_bind. eapply wp_arr_get; [lia|by rewrite Nat2Z.id|].
  rewrite filter_cons in HQ. pose proof Ho as (En & _). rewrite En.
  destruct (Z.eqb_spec x.1 num) as [Heq|Hne].
  - rewrite decide_True in HQ by done. wp_step. apply HQ. by exists o.
  - rewrite decide_False in HQ by done. replace (Z.of_nat k + 1) with (Z.of_nat (S k)) by lia.
    eapply IH; [|done|done]. by rewrite <-Nat.add_1_r, <-drop_drop, Hk.
Qed.

(** * The answer *)
Lemma format_ok {A} w p m (K : Z → M W A) Q : length (p_options p) = 16%nat → p_option_count p = Z.of_nat (length (m_options m)) →
  Forall2 (shows_option (objs w)) (take (length (m_options m)) (p_options p)) (m_options m) →
  wp (K (content_format m)) Q w →
  wp (get_option_from (Z.to_nat (p_option_count p)) 0 p COAP_OPTION_CONTENT_FORMAT) (λ cf_opt, wp (
      let! format :=
        match cf_opt with
        | Some o => if 0 <? o_length o then load1 (o_value o) else ret COAP_CONTENT_FORMAT_TEXT_PLAIN
        | None => ret COAP_CONTENT_FORMAT_TEXT_PLAIN
        end in
      K format) Q) w.
Proof.
  intros Hol Hoc Hos HK. rewrite Hoc, Nat2Z.id.
  eapply (get_option_ok w p m (m_options m) 0 (p_options p)); [done|done|]. intros r Hr.
  unfold content_format in HK. rewrite wp_bind. destruct (head _) as [[num bs]|].
  - destruct Hr as (o & -> & _ & Hl & Hd). cbn [snd] in Hl, Hd. rewrite Hl. destruct bs as [|c bs].
    + by wp_step.
    + rewrite (proj2 (Z.ltb_lt 0 _)) by (unfold len; cbn; lia). destruct Hd as [?|Hd]; [done|].
      apply (mem_at_app _ _ [c] bs) in Hd as [Hd _]. eapply load1_ok; [exact Hd|]. done.
  - subst r. by wp_step.
Qed.

Lemma put_all bs u : length u = length bs → put 0 bs u = bs.
Proof. intros Hl. unfold put. rewrite take_0, drop_ge by lia. by rewrite app_nil_r. Qed.

Lemma fill_ok w req rp response prq p m r0 a e' :
  rp ≠ 0 → pdus w !! req = Some prq → pdus w !! rp = Some p → represents (objs w) p m → responses w !! response = Some r0 →
  p_token_length prq = len (m_token m) → take (length (m_token m)) (p_token prq) = m_token m →
  m_payload m ≠ [] → sv_malloc (len (m_payload m)) (env w) = Ret a e' → a ≠ 0 → l_obj (p_payload p) ≠ a →
  wp (fill_response junk req rp response) (λ r w', r = COAP_OK ∧
    w' = w <| env := e' |> <| objs ::= <[a := m_payload m]> |>
           <| responses ::= <[response := Response (m_code m) (content_format m) (Loc a 0) (len (m_payload m))
                                (code_class (m_code m) =? 2)]> |>) w.
Proof.
  intros Hrp Hprq Hp [_ _ Hcode _ (Htl & Htn & Htk) (Hol & Hoc & Hos) (Hpn & Hpl)] Hr0 Hqn Hqk Hne Hmal Ha Hap.
  assert (0 < len (m_payload m)) as Hpos by (destruct (m_payload m); [done|unfold len; cbn; lia]).
  unfold fill_response. rewrite wp_bind. eapply deref_ok; [done|]. rewrite wp_bind. eapply deref_ok; [done|].
  rewrite Htn, Hqn, Z.eqb_refl. unfold differ. replace (Z.to_nat (len (m_token m))) with (length (m_token m)) by (unfold len; lia).
  rewrite Htk, Hqk, bool_decide_eq_false_2 by (intros Hno; by apply Hno). cbn [negb orb].
  rewrite wp_bind. eapply assign_ok; [done|]. rewrite wp_bind.
  unfold coap_pdu_get_option. rewrite (proj2 (Z.eqb_neq rp 0)) by done. rewrite wp_bind. eapply deref_ok; [done|].
  eapply (format_ok _ p m); [done|done|done|].
  rewrite wp_bind. eapply assign_ok; [cbn; by rewrite lookup_insert_eq|].
  rewrite Hpn, (proj2 (Z.ltb_lt 0 _)), wp_bind by done. unfold on_env. rewrite wp_bind, wp_zoom.
  eapply wp_intro; [exact Hmal|]. rewrite (proj2 (Z.eqb_neq a 0)) by done. cbn [negb].
  rewrite wp_bind, wp_when, wp_modify.
  rewrite wp_bind. eapply assign_ok; [cbn; by rewrite lookup_insert_eq|]. rewrite wp_when, wp_bind.
  eapply load_data.
  { apply data_at_frame; [exact Hpl|by right]. }
  set (u := uninit junk (len (m_payload m))). assert (length u = length (m_payload m)) as Hu.
  { unfold u, uninit, len. by rewrite length_fmap, length_seq, Nat2Z.id. }
  rewrite wp_bind. eapply (store_ok _ _ _ u); cbn [l_obj l_off];
    [exact (lookup_insert_eq _ _ _)|done|done|unfold len; lia|].
  change (Z.to_nat 0) with 0%nat. rewrite put_all by done.
  eapply assign_ok; [cbn; by rewrite lookup_insert_eq|]. rewrite wp_ret. split; [done|].
  destruct w, r0. cbn. rewrite !insert_insert_eq, Hcode. done.
Qed.

(** The request [rq] goes out, the answer [m] comes in. *)
Lemma exchange_ok w context c req prq rq server buffer rb rp bobj robj abuf response r0 m n e1 from e2 a e3 :
  contexts w !! context = Some c → pdus w !! req = Some prq → represents (objs w) prq rq → pdu_apart buffer prq rq →
  message_ok rq → len (wire rq) ≤ COAP_MAX_PDU_SIZE →
  sv_sendto (socket_fd c) (wire rq) server (env w) = Ret n e1 → 0 ≤ n →
  sv_recvfrom (socket_fd c) COAP_MAX_PDU_SIZE e1 = Ret (len (wire m), wire m, from) e2 →
  message_ok m → len (wire m) ≤ COAP_MAX_PDU_SIZE → m_payload m ≠ [] → m_token m = m_token rq →
  sv_malloc (len (m_payload m)) e2 = Ret a e3 → 0 < a →
  rp < rb → rb < buffer → buffer < req → req < 0 →
  objs w !! buffer = Some bobj → len bobj = COAP_MAX_PDU_SIZE → objs w !! rb = Some robj → len robj = COAP_MAX_PDU_SIZE →
  pdus w !! rp = Some junk_pdu → objs w !! rp = Some abuf → len abuf = COAP_MAX_PDU_SIZE →
  responses w !! response = Some r0 →
  wp (exchange junk context req server buffer rb rp response) (λ r w', r = COAP_OK ∧ ∃ q x y z,
    w' = w <| env := e3 |> <| pdus ::= <[rp := q]> |>
      <| objs ::= λ g, <[a := m_payload m]> (<[rp := x]> (<[rb := y]> (<[buffer := z]> g))) |>
      <| responses ::= <[response := Response (m_code m) (content_format m) (Loc a 0) (len (m_payload m))
                                       (code_class (m_code m) =? 2)]> |>) w.
Proof.
  intros Hc Hprq Hrq Hap Hrqok Hfit Hsend Hn Hrecv Hok Hlen Hne Htok Hmal Ha H1 H2 H3 H4 Hb Hbl Hr Hrl Hrp Habuf Hal Hresp.
  pose proof (wire_size m) as Hws. pose proof (wire_size rq) as Hws2. pose proof (len_nonneg (m_payload m)).
  pose proof (len_nonneg (m_payload rq)).
  unfold exchange. rewrite wp_bind. eapply wp_mono; [eapply (encode_ok w req prq rq buffer bobj); try done; try lia|].
  { rewrite Hbl. unfold COAP_MAX_PDU_SIZE, COAP_HEADER_SIZE. lia. }
  intros r w1 Hr1. cbv beta in Hr1. rewrite (proj2 (Z.leb_le _ _)) in Hr1 by done. destruct Hr1 as [-> ->].
  rewrite (proj2 (Z.ltb_ge _ 0)) by lia. rewrite wp_bind. eapply deref_ok; [exact Hc|].
  rewrite wp_bind. eapply load_ok; [apply put_mem_at; lia|].
  unfold on_env. rewrite wp_bind, wp_zoom. eapply wp_intro; [exact Hsend|]. rewrite (proj2 (Z.ltb_ge n 0)) by done.
  rewrite wp_bind, wp_zoom. eapply wp_intro; [exact Hrecv|]. cbn [fst snd].
  rewrite wp_bind. eapply (store_ok _ _ _ robj); cbn [l_obj l_off]; [|lia|done|lia|].
  { cbn. by rewrite lookup_insert_ne by lia. }
  rewrite (proj2 (Z.leb_gt _ 0)) by lia. rewrite wp_bind.
  eapply wp_mono; [eapply (decode_ok _ rp rb m junk_pdu abuf); try done; try lia|].
  { apply put_mem_at; lia. }
  { cbn. by rewrite !lookup_insert_ne by lia. }
  intros r w1 (-> & (p' & Hw1) & q & Hq & Hrep & _ & Hapq).
  rewrite bool_decide_eq_false_2 by (intros Hno; by apply Hno).
  assert (settled m q = q) as Es by (unfold settled; by destruct (m_payload m)). rewrite Es in *.
  pose proof (rep_token _ _ _ Hrq) as (_ & Hqn & Hqk).
  assert (env w1 = e2 ∧ responses w1 = responses w ∧ pdus w1 !! req = Some prq) as (F1 & F2 & F3).
  { rewrite Hw1. unfold with_decoded. destruct (m_payload m); cbn; by rewrite lookup_insert_ne by lia. }
  eapply wp_mono; [eapply (fill_ok w1 req rp response prq q m r0 a e3); try done; try lia|].
  - by rewrite F2.
  - by rewrite Htok.
  - by rewrite Htok.
  - by rewrite F1.
  - destruct (Hapq a) as [_ [?|?]]; [lia|lia|done|done].
  - intros r w2 [-> ->]. split; [done|]. clear Hq Hrep F1 F2 F3. subst w1.
    unfold with_decoded. destruct (m_payload m) as [|b0 pl]; [done|]. destruct w. unfold with_buffer. cbn.
    eexists _, _, _, _. done.
Qed.

(** * A GET request *)
Definition get_request (c : coap_context_t) (tick : Z) (seg : list Z) : message :=
  Message COAP_TYPE_CON (method_code COAP_METHOD_GET) (next_message_id c) (token_of tick) [(COAP_OPTION_URI_PATH, seg)] [].

Lemma get_request_ok c tick seg : 0 ≤ next_message_id c < 2 ^ 16 → segment_ok seg →
  message_ok (get_request c tick seg) ∧ len (wire (get_request c tick seg)) ≤ COAP_MAX_PDU_SIZE.
Proof.
  intros Hid [Hlen _ Hby]. split.
  - split; unfold COAP_MAX_TOKEN_LEN, COAP_OPTION_URI_PATH, len; cbn -[token_of Z.pow].
    + lia.
    + done.
    + split; [cbn; lia|apply token_of_ok].
    + unfold COAP_OPTION_URI_PATH, len. split; [|lia]. split; [lia|]. split; [lia|]. done.
    + split; [lia|constructor].
  - unfold wire, wire_options, wire_option, get_request. cbn [m_token m_options m_payload wire_payload fst snd]. rewrite !len_app.
    assert (∀ v, len (ext v) ≤ 2) as Hext.
    { intros v. unfold ext. destruct (v <? 13); [|destruct (v <? 269)]; unfold len; cbn; lia. }
    pose proof (Hext (COAP_OPTION_URI_PATH - 0)). pose proof (Hext (len seg)).
    unfold COAP_MAX_PDU_SIZE, len in *. cbn [length wire_header token_of] in *. lia.
Qed.

(** The structure of the request. *)
Definition get_pdu (c : coap_context_t) (tick : Z) (seg : list Z) (ps : Z) : coap_pdu_t :=
  store_option (Option COAP_OPTION_URI_PATH (len seg) (Loc ps 0))
    (blank COAP_TYPE_CON (method_code COAP_METHOD_GET) (next_message_id c) (token_of tick) 4).
Lemma get_pdu_represents g c tick seg ps : ps ≠ 0 → segment_ok seg → g !! ps = Some (seg ++ replicate (64 - length seg) 0) →
  represents g (get_pdu c tick seg ps) (get_request c tick seg) ∧
  ∀ b, b ≠ ps → pdu_apart b (get_pdu c tick seg ps) (get_request c tick seg).
Proof.
  intros Hps [Hlen _ _] Hg.
  assert (mem_at g (Loc ps 0) seg) as Hm.
  { split; [done|]. split; [done|]. eexists. split; [exact Hg|]. cbn [l_off]. unfold len. rewrite length_app, length_replicate.
    split; [lia|]. change (Z.to_nat 0) with 0%nat. by rewrite drop_0, take_app_length. }
  split; [split; try done|].
  - split; [done|]. split; [done|]. constructor; [|constructor]. split; [done|]. split; [done|]. by right.
  - split; [done|by left].
  - intros b Hb. split; [|by left]. constructor; [|constructor]. right. cbn. congruence.
Qed.

(** From the complete request on: [og] and [ps] are the objects and structures of the caller, [g] and
    [psm] those now. *)
Lemma get_exchange context c e0 og ps cs' ras rs g psm seg response r0 server m n e1 from e2 a e3 u tick
    req seg_ buffer rb rp lo (rq := get_request c tick seg) :
  (∃ c', cs' !! context = Some c' ∧ socket_fd c' = socket_fd c) → rp < rb < buffer → buffer < seg_ < req → req < 0 →
  (∀ x, x ≤ req → og !! x = None ∧ ps !! x = None) → rs !! response = Some r0 → segment_ok seg →
  message_ok rq → len (wire rq) ≤ COAP_MAX_PDU_SIZE →
  g !! seg_ = Some (seg ++ replicate (64 - length seg) 0) → len u = COAP_MAX_PDU_SIZE →
  (∀ i, i ∈ [buffer; rb; rp] → g !! i = Some u) → (∀ i, i ∉ [req; seg_; buffer; rb; rp] → g !! i = og !! i) →
  psm !! req = Some (get_pdu c tick seg seg_) → psm !! rp = Some junk_pdu → (∀ i, i ≠ req → i ≠ rp → psm !! i = ps !! i) →
  sv_sendto (socket_fd c) (wire rq) server e0 = Ret n e1 → 0 ≤ n →
  sv_recvfrom (socket_fd c) COAP_MAX_PDU_SIZE e1 = Ret (len (wire m), wire m, from) e2 →
  message_ok m → len (wire m) ≤ COAP_MAX_PDU_SIZE → m_payload m ≠ [] → m_token m = m_token rq →
  sv_malloc (len (m_payload m)) e2 = Ret a e3 → 0 < a →
  wp (exchange junk context req server buffer rb rp response)
    (λ r, wp (leave [req; seg_; buffer; rb; rp] ;;; ret r) (λ r w', r = COAP_OK ∧
      w' = World e3 (<[a := m_payload m]> og) ps cs' ras
        (<[response := Response (m_code m) (content_format m) (Loc a 0) (len (m_payload m)) (code_class (m_code m) =? 2)]> rs)
        lo)) (World e0 g psm cs' ras rs lo).
Proof.
  intros (c' & Hc & Efd) Hlt1 Hlt2 Hneg Hfresh Hr0 Hseg Hrqok Hrqlen Hgs Hu Hgu Hgo Hp1 Hp2 Hpo
    Hsend Hn Hrecv Hok Hlen Hne Htok Hmal Ha.
  rewrite <-Efd in Hsend, Hrecv.
  destruct (get_pdu_represents g c tick seg seg_) as [Hrep Hap]; [lia|done|done|].
  eapply wp_mono; [eapply (exchange_ok _ context c' req _ rq server buffer rb rp u u u response r0 m n e1 from e2 a e3);
    try done; try lia|].
  { apply Hap. lia. }
  1-3: cbn; apply Hgu; set_solver.
  intros r w1 (-> & q & x & y & z & ->). rewrite wp_bind. unfold leave. rewrite wp_modify, wp_ret. split; [done|].
  cbn [env objs pdus contexts resource_at responses locals set_field].
  assert (∀ i, i ∈ [req; seg_; buffer; rb; rp] → i ≤ req) as Hloc.
  { intros i Hi. rewrite !elem_of_cons, elem_of_nil in Hi. lia. }
  f_equal; apply foldr_delete_fresh.
  - intros i Hi. destruct (decide (i = a)) as [->|]; [by rewrite !lookup_insert_eq|].
    rewrite !not_elem_of_cons in Hi. destruct Hi as (? & ? & ? & ? & ? & _). rewrite !lookup_insert_ne by done.
    apply Hgo. rewrite !not_elem_of_cons. repeat split; try done. apply not_elem_of_nil.
  - intros i Hi. apply Hloc in Hi. rewrite lookup_insert_ne by lia. by apply Hfresh.
  - intros i Hi. rewrite !not_elem_of_cons in Hi. destruct Hi as (? & ? & ? & ? & ? & _).
    rewrite lookup_insert_ne by done. by apply Hpo.
  - intros i Hi. apply Hfresh. by apply Hloc.
Qed.

(** C23. A GET works: for a path of one segment, [coap_get] sends the encoding of a confirmable GET
    with the next message identifier, a token from the clock and the segment as Uri-Path option; if
    an answer with this token and a payload arrives, it returns [COAP_OK] with the code, the content
    format and a copy of the payload in new memory. Nothing else changes. *)
Theorem coap_get_works w context c path seg response r0 server m n e1 from e2 a e3
    (rq := get_request c (sv_ticks (env w)) seg) :
  context ≠ 0 → response ≠ 0 → contexts w !! context = Some c → 0 ≤ next_message_id c < 2 ^ 16 →
  responses w !! response = Some r0 → segment_ok seg → path = seg ∨ path = SLASH :: seg → fresh_locals w →
  sv_sendto (socket_fd c) (wire rq) server (env w) = Ret n e1 → 0 ≤ n →
  sv_recvfrom (socket_fd c) COAP_MAX_PDU_SIZE e1 = Ret (len (wire m), wire m, from) e2 →
  message_ok m → len (wire m) ≤ COAP_MAX_PDU_SIZE → m_payload m ≠ [] → m_token m = m_token rq →
  sv_malloc (len (m_payload m)) e2 = Ret a e3 → 0 < a →
  wp (coap_get junk junk_pdu context server (Some path) response) (λ r w', r = COAP_OK ∧
    w' = w <| env := e3 |> <| contexts ::= <[context := c <| next_message_id := u16 (next_message_id c + 1) |>]> |>
      <| objs ::= <[a := m_payload m]> |>
      <| responses ::= <[response := Response (m_code m) (content_format m) (Loc a 0) (len (m_payload m))
                                       (code_class (m_code m) =? 2)]> |>
      <| locals ::= λ x, x - 5 |>) w.
Proof.
  intros Hctx Hres Hc Hid Hr0 Hseg Hpath [Hneg Hfresh] Hsend Hn Hrecv Hok Hlen Hne Htok Hmal Ha.
  destruct (get_request_ok c (sv_ticks (env w)) seg Hid Hseg) as [Hrqok Hrqlen]. fold rq in Hrqok, Hrqlen.
  unfold coap_get, coap_send_request_internal. rewrite (proj2 (Z.eqb_neq context 0)), (proj2 (Z.eqb_neq response 0)) by done.
  cbn [orb]. unfold local_array, local_pdu, local_address. wp_step. destruct w as [e0 og ps cs ras rs lo].
  cbn [env objs pdus contexts resource_at responses locals set_field] in *.
  set (req := lo). set (seg_ := req - 1). set (buffer := seg_ - 1). set (rb := buffer - 1). set (rp := rb - 1).
  set (u := uninit junk COAP_MAX_PDU_SIZE). set (u64 := uninit junk 64).
  assert (len u = COAP_MAX_PDU_SIZE ∧ length u64 = 64%nat) as [Hu Hu64].
  { unfold u, u64, uninit, len. by rewrite !length_fmap, !length_seq. }
  unfold coap_generate_message_id. rewrite wp_bind. eapply deref_ok; [exact Hc|].
  rewrite wp_bind. eapply assign_ok; [exact Hc|]. rewrite wp_ret, wp_bind.
  eapply (init_only_ok _ req junk_pdu u); [unfold req; lia| | |done|]; cbn [objs pdus set_field].
  { rewrite lookup_insert_ne by (unfold rp, rb, buffer, seg_; lia). by rewrite lookup_insert_eq. }
  { rewrite !lookup_insert_ne by (unfold rp, rb, buffer, seg_; lia). by rewrite lookup_insert_eq. }
  rewrite wp_bind. eapply (wp_intro _ _ _ (token_of (sv_ticks e0))); [reflexivity|].
  rewrite wp_bind. eapply set_token_ok; [unfold req; lia|cbn; by rewrite lookup_insert_eq|lia|done|].
  replace (match path with [] => path | c0 :: rest => if c0 =? SLASH then rest else path end) with seg; cycle 1.
  { destruct Hseg as [Hl Hch _], Hpath as [->| ->]; [|done]. destruct Hch as [|x ? [_ Hx] _]; [done|].
    by rewrite (proj2 (Z.eqb_neq _ _)). }
  rewrite wp_bind. eapply (add_segment_ok _ req seg_ _ u64); [done|unfold req; lia|unfold seg_, req; lia|
    cbn; by rewrite lookup_insert_eq|done| |done|].
  { cbn. rewrite !lookup_insert_ne by (unfold rp, rb, buffer, seg_; lia). by rewrite lookup_insert_eq. }
  rewrite wp_bind, wp_when, andb_false_r, wp_bind.
  cbn [env objs pdus contexts resource_at responses locals set_field].
  replace (req - 5) with (rp - 1) by (unfold rp, rb, buffer, seg_; lia).
  eapply (get_exchange context c e0 og ps _ ras rs _ _ seg response r0 server m n e1 from e2 a e3 u (sv_ticks e0)
    req seg_ buffer rb rp (rp - 1)); try done; try (unfold rp, rb, buffer, seg_, req; lia).
  - eexists. by rewrite lookup_insert_eq.
  - by rewrite lookup_insert_eq.
  - intros i Hi. rewrite !elem_of_cons, elem_of_nil in Hi.
    destruct Hi as [->|[->|[->|[]]]]; unfold rp, rb, buffer, seg_, req;
      repeat first [rewrite lookup_insert_eq; done|rewrite lookup_insert_ne by lia].
  - intros i Hi. rewrite !not_elem_of_cons in Hi. destruct Hi as (? & ? & ? & ? & ? & _).
    by rewrite !lookup_insert_ne by done.
  - by rewrite lookup_insert_eq.
  - rewrite !(lookup_insert_ne _ req) by (unfold rp, rb, buffer, seg_; lia). by rewrite lookup_insert_eq.
  - intros i Hi1 Hi2. by rewrite !lookup_insert_ne by done.
Qed.
End client.

(** * Runs *)

(** A client with the response structure 2 and the datagrams [l] on their way to it. *)
Definition client_world (l : list (list Z * (Z * Z))) : coap_world host :=
  World (Host l [] 100) {[ 5 := [50; 49] ]} ∅ {[ 1 := Context (Endpoint 0 5683) 0 9 0 0 0 0 false ]} ∅
    {[ 2 := Response 0 0 null_loc 0 false ]} (-1).
Definition the_server : Z * Z := (77, 5683).
Definition the_answer : message := Message COAP_TYPE_ACK 69 9 (token_of 7) [(12, [50])] [50; 49].

Lemma coap_get_works_witness :
  wp (coap_get (λ _, 0) pdu_zero 1 the_server (Some temp_path) 2) (λ r w', r = COAP_OK ∧
    responses w' !! 2 = Some (Response 69 50 (Loc 100 0) 2 true) ∧ objs w' !! 100 = Some [50; 49])
    (client_world [(wire the_answer, the_server)]).
Proof.
  eapply wp_mono; [eapply (coap_get_works (λ _, 0) pdu_zero eq_refl eq_refl (client_world [(wire the_answer, the_server)]) 1
    (Context (Endpoint 0 5683) 0 9 0 0 0 0 false) temp_path [116; 101; 109; 112] 2 (Response 0 0 null_loc 0 false)
    the_server the_answer 13 (Host [(wire the_answer, the_server)]
      [(wire (get_request (Context (Endpoint 0 5683) 0 9 0 0 0 0 false) 7 [116; 101; 109; 112]), the_server)] 100) the_server
    (Host [] [(wire (get_request (Context (Endpoint 0 5683) 0 9 0 0 0 0 false) 7 [116; 101; 109; 112]), the_server)] 100) 100
    (Host [] [(wire (get_request (Context (Endpoint 0 5683) 0 9 0 0 0 0 false) 7 [116; 101; 109; 112]), the_server)] 102));
    [done|done|done|cbn; lia|done| |by right| |vm_compute; reflexivity|done|vm_compute; reflexivity| |vm_compute; done|done|
     done|vm_compute; reflexivity|done]|intros r w' [-> ->]; done].
  - split; [cbn; lia|repeat constructor; done|repeat constructor; done].
  - split; [cbn; lia|]. intros x Hx. cbn in Hx |- *. split; [|done]. by rewrite lookup_singleton_ne by lia.
  - split; unfold COAP_MAX_TOKEN_LEN, len; cbn -[token_of]; try lia.
    + split; [cbn; lia|apply token_of_ok].
    + split; [|lia]. repeat split; try lia. repeat constructor; lia.
    + split; [lia|]. repeat constructor; lia.
Defined.

(** What a program returns, and what has been sent. *)
Definition outcome_of (m : M (coap_world host) coap_error_t) (w : coap_world host) :
    option (coap_error_t * list (list Z * (Z * Z))) :=
  match m w with Ret r w' => Some (r, outbox (env w')) | _ => None end.
(** A structure whose unassigned fields hold 5 bytes at a wild pointer. *)
Definition wild_pdu : coap_pdu_t := pdu_zero <| p_payload := Loc 999 0 |> <| p_payload_length := 5 |>.

(** The client's defects. All Uri-Path options of a request point to the one array that holds
    the last segment: a GET for /a/bc asks for /b/bc. The Content-Format option of a request with a
    payload points to a variable whose block has been left: [coap_post] is undefined behaviour. And
    an answer without payload leaves the length and the pointer of the payload unassigned: with
    other memory contents than zero, [coap_get] copies from a wild pointer. *)
Theorem coap_client_defects :
  (let asked := Message COAP_TYPE_CON 1 9 (token_of 7) [(COAP_OPTION_URI_PATH, [98]); (COAP_OPTION_URI_PATH, [98; 99])] [] in
   outcome_of (coap_get (λ _, 0) pdu_zero 1 the_server (Some [47; 97; 47; 98; 99]) 2) (client_world []) =
     Some (COAP_ERROR_TIMEOUT, [(wire asked, the_server)]) ∧ path_of asked = [47; 98; 47; 98; 99]) ∧
  coap_post (λ _, 0) pdu_zero 1 the_server (Some temp_path) 0 (Loc 5 0) 2 2 (client_world []) = Undef ∧
  (let empty := Message COAP_TYPE_ACK 68 9 (token_of 7) [] [] in
   outcome_of (coap_get (λ _, 0) pdu_zero 1 the_server (Some temp_path) 2) (client_world [(wire empty, the_server)]) ≠ None ∧
   coap_get (λ _, 0) wild_pdu 1 the_server (Some temp_path) 2 (client_world [(wire empty, the_server)]) = Undef).
Proof. repeat split; vm_compute; done. Qed.
