(* ===== verification/Net.v ===== *)
(** Net: the network stack of [src/net/network.c], [ethernet.c], [ip.c] and [socket.c].

    A packet in memory is reached through a pointer into the array that holds it; every function
    only moves that pointer forwards and never writes through it, so a pointer is the list of the
    bytes from there to the end of the array. An access behind the end is undefined behaviour. The
    length that travels with the pointer is kept apart from it, as in the code. A structure laid over
    a packet is a record, read from and written as its bytes in the memory of the (little-endian)
    target. A variable that has no value yet is [None], and its use undefined behaviour.

    [net_world] is the state of the stack with the state of the driver and of the kernel. The
    kernel's operations are reached through the class [NetServices]; they act on the whole state, as
    other tasks may run in them. *)
From Stdlib Require Import ZArith Lia.
From stdpp Require Import base numbers list gmap.
From S2P Require Import Prelude Types Bytes.

(** * Constants and types of include/tinyos/net.h *)
Definition NET_MAX_SOCKETS : Z := 8.
Definition NET_BUFFER_SIZE : Z := 1500.
Definition NET_MAX_BUFFERS : Z := 8.
Definition OS_WAIT_FOREVER : Z := 0.

Record mac_addr_t := MAC { mac0 : Z; mac1 : Z; mac2 : Z; mac3 : Z; mac4 : Z; mac5 : Z }.
Record ipv4_addr_t := IPV4 { ip0 : Z; ip1 : Z; ip2 : Z; ip3 : Z }.
#[export] Instance mac_eq_dec : EqDecision mac_addr_t.
Proof. solve_decision. Defined.
#[export] Instance ipv4_eq_dec : EqDecision ipv4_addr_t.
Proof. solve_decision. Defined.

Definition mac_bytes (m : mac_addr_t) : list Z := [mac0 m; mac1 m; mac2 m; mac3 m; mac4 m; mac5 m].
Definition ip_bytes (a : ipv4_addr_t) : list Z := [ip0 a; ip1 a; ip2 a; ip3 a].
(** The address at offset [off] of the bytes [l]. *)
Definition mac_at (off : nat) (l : list Z) : mac_addr_t :=
  let b i := nth (off + i) l 0 in MAC (b 0%nat) (b 1%nat) (b 2%nat) (b 3%nat) (b 4%nat) (b 5%nat).
Definition ip_at (off : nat) (l : list Z) : ipv4_addr_t :=
  let b i := nth (off + i) l 0 in IPV4 (b 0%nat) (b 1%nat) (b 2%nat) (b 3%nat).
(** [ip->addr[i] = v], for [i < 4]. *)
Definition set_octet (i : nat) (v : Z) (a : ipv4_addr_t) : ipv4_addr_t :=
  match i with
  | O => IPV4 v (ip1 a) (ip2 a) (ip3 a)
  | 1%nat => IPV4 (ip0 a) v (ip2 a) (ip3 a)
  | 2%nat => IPV4 (ip0 a) (ip1 a) v (ip3 a)
  | _ => IPV4 (ip0 a) (ip1 a) (ip2 a) v
  end.

(** [next] is an address, [NULL] at the end of the list. *)
Record net_buffer_t := NetBuffer {
  nb_data : list Z; nb_length : Z; nb_offset : Z; nb_next : ptr; nb_in_use : bool
}.
#[export] Instance net_buffer_eta : Eta net_buffer_t := λ b,
  NetBuffer (nb_data b) (nb_length b) (nb_offset b) (nb_next b) (nb_in_use b).

Record net_config_t := NetConfig {
  cfg_mac : mac_addr_t; cfg_ip : ipv4_addr_t; cfg_netmask : ipv4_addr_t;
  cfg_gateway : ipv4_addr_t; cfg_dns : ipv4_addr_t
}.

(** The driver is a table of functions, each of which may be absent, on a state [D] of its own. The
    buffer that [receive] fills is passed and returned. *)
Record net_driver_t (D : Type) := NetDriver {
  drv_init : option (M D os_error_t);
  drv_send : option (list Z → Z → M D os_error_t);
  drv_receive : option (list Z → Z → M D (Z * list Z));
  drv_get_mac : option (M D mac_addr_t);
  drv_is_link_up : option (M D bool)
}.
Arguments NetDriver {D} _ _ _ _ _.
Arguments drv_init {D} _.
Arguments drv_send {D} _.
Arguments drv_receive {D} _.
Arguments drv_get_mac {D} _.
Arguments drv_is_link_up {D} _.

Inductive socket_type_t := SOCK_STREAM | SOCK_DGRAM.
#[export] Instance socket_type_eq_dec : EqDecision socket_type_t.
Proof. solve_decision. Defined.
Definition INVALID_SOCKET : Z := -1.

Record sockaddr_in_t := SockAddr { sa_addr : ipv4_addr_t; sa_port : Z }.
#[export] Instance sockaddr_eta : Eta sockaddr_in_t := λ a, SockAddr (sa_addr a) (sa_port a).

Inductive tcp_state_t :=
| TCP_CLOSED | TCP_LISTEN | TCP_SYN_SENT | TCP_SYN_RECEIVED | TCP_ESTABLISHED | TCP_FIN_WAIT_1
| TCP_FIN_WAIT_2 | TCP_CLOSE_WAIT | TCP_CLOSING | TCP_LAST_ACK | TCP_TIME_WAIT.
#[export] Instance tcp_state_eq_dec : EqDecision tcp_state_t.
Proof. solve_decision. Defined.

Record net_stats_t := NetStats {
  eth_rx_packets : Z; eth_tx_packets : Z; eth_rx_errors : Z; eth_tx_errors : Z;
  ip_rx_packets : Z; ip_tx_packets : Z; ip_rx_errors : Z;
  icmp_rx_packets : Z; icmp_tx_packets : Z;
  udp_rx_packets : Z; udp_tx_packets : Z;
  tcp_rx_packets : Z; tcp_tx_packets : Z; tcp_connections : Z; tcp_resets : Z
}.
#[export] Instance net_stats_eta : Eta net_stats_t := λ s,
  NetStats (eth_rx_packets s) (eth_tx_packets s) (eth_rx_errors s) (eth_tx_errors s)
    (ip_rx_packets s) (ip_tx_packets s) (ip_rx_errors s) (icmp_rx_packets s) (icmp_tx_packets s)
    (udp_rx_packets s) (udp_tx_packets s) (tcp_rx_packets s) (tcp_tx_packets s) (tcp_connections s)
    (tcp_resets s).
Definition net_stats_zero : net_stats_t := NetStats 0 0 0 0 0 0 0 0 0 0 0 0 0 0 0.

(** * Headers *)
Definition ETH_HEADER_SIZE : Z := 14.
Definition ETH_TYPE_IP : Z := 0x0800.
Definition ETH_TYPE_ARP : Z := 0x0806.
Record eth_header_t := EthHeader { eth_dest : mac_addr_t; eth_src : mac_addr_t; eth_type : Z }.
Definition eth_bytes (h : eth_header_t) : list Z :=
  mac_bytes (eth_dest h) ++ mac_bytes (eth_src h) ++ le_encode 2 (eth_type h).
Definition eth_of (l : list Z) : eth_header_t := EthHeader (mac_at 0 l) (mac_at 6 l) (field 12 2 l).

Definition ARP_HARDWARE_ETHERNET : Z := 1.
Definition ARP_PROTOCOL_IP : Z := 0x0800.
Definition ARP_OP_REQUEST : Z := 1.
Definition ARP_OP_REPLY : Z := 2.
Record arp_packet_t := ArpPacket {
  arp_hardware_type : Z; arp_protocol_type : Z; arp_hardware_size : Z; arp_protocol_size : Z;
  arp_opcode : Z; arp_sender_mac : mac_addr_t; arp_sender_ip : ipv4_addr_t;
  arp_target_mac : mac_addr_t; arp_target_ip : ipv4_addr_t
}.
Definition ARP_PACKET_SIZE : Z := 28.
Definition arp_bytes (a : arp_packet_t) : list Z :=
  le_encode 2 (arp_hardware_type a) ++ le_encode 2 (arp_protocol_type a) ++
  [arp_hardware_size a; arp_protocol_size a] ++ le_encode 2 (arp_opcode a) ++
  mac_bytes (arp_sender_mac a) ++ ip_bytes (arp_sender_ip a) ++
  mac_bytes (arp_target_mac a) ++ ip_bytes (arp_target_ip a).
Definition arp_of (l : list Z) : arp_packet_t :=
  ArpPacket (field 0 2 l) (field 2 2 l) (field 4 1 l) (field 5 1 l) (field 6 2 l)
    (mac_at 8 l) (ip_at 14 l) (mac_at 18 l) (ip_at 24 l).

Definition IP_PROTOCOL_ICMP : Z := 1.
Definition IP_PROTOCOL_TCP : Z := 6.
Definition IP_PROTOCOL_UDP : Z := 17.
Record ip_header_t := IpHeader {
  ip_version_ihl : Z; ip_tos : Z; ip_total_length : Z; ip_identification : Z; ip_flags_fragment : Z;
  ip_ttl : Z; ip_protocol : Z; ip_checksum : Z; ip_src : ipv4_addr_t; ip_dest : ipv4_addr_t
}.
#[export] Instance ip_header_eta : Eta ip_header_t := λ h,
  IpHeader (ip_version_ihl h) (ip_tos h) (ip_total_length h) (ip_identification h)
    (ip_flags_fragment h) (ip_ttl h) (ip_protocol h) (ip_checksum h) (ip_src h) (ip_dest h).
Definition IP_HEADER_SIZE : Z := 20.
Definition ip_header_bytes (h : ip_header_t) : list Z :=
  [ip_version_ihl h; ip_tos h] ++ le_encode 2 (ip_total_length h) ++
  le_encode 2 (ip_identification h) ++ le_encode 2 (ip_flags_fragment h) ++
  [ip_ttl h; ip_protocol h] ++ le_encode 2 (ip_checksum h) ++
  ip_bytes (ip_src h) ++ ip_bytes (ip_dest h).
Definition ip_header_of (l : list Z) : ip_header_t :=
  IpHeader (field 0 1 l) (field 1 1 l) (field 2 2 l) (field 4 2 l) (field 6 2 l) (field 8 1 l)
    (field 9 1 l) (field 10 2 l) (ip_at 12 l) (ip_at 16 l).

Definition ICMP_TYPE_ECHO_REPLY : Z := 0.
Definition ICMP_TYPE_ECHO_REQUEST : Z := 8.
Record icmp_header_t := IcmpHeader {
  icmp_type : Z; icmp_code : Z; icmp_checksum : Z; icmp_id : Z; icmp_sequence : Z
}.
#[export] Instance icmp_header_eta : Eta icmp_header_t := λ h,
  IcmpHeader (icmp_type h) (icmp_code h) (icmp_checksum h) (icmp_id h) (icmp_sequence h).
Definition ICMP_HEADER_SIZE : Z := 8.
Definition icmp_bytes (h : icmp_header_t) : list Z :=
  [icmp_type h; icmp_code h] ++ le_encode 2 (icmp_checksum h) ++ le_encode 2 (icmp_id h) ++
  le_encode 2 (icmp_sequence h).
Definition icmp_of (l : list Z) : icmp_header_t :=
  IcmpHeader (field 0 1 l) (field 1 1 l) (field 2 2 l) (field 4 2 l) (field 6 2 l).

Record udp_header_t := UdpHeader { udp_src_port : Z; udp_dest_port : Z; udp_length : Z; udp_checksum : Z }.
Definition UDP_HEADER_SIZE : Z := 8.
Definition udp_bytes (h : udp_header_t) : list Z :=
  le_encode 2 (udp_src_port h) ++ le_encode 2 (udp_dest_port h) ++ le_encode 2 (udp_length h) ++
  le_encode 2 (udp_checksum h).
Definition udp_of (l : list Z) : udp_header_t :=
  UdpHeader (field 0 2 l) (field 2 2 l) (field 4 2 l) (field 6 2 l).

Record tcp_header_t := TcpHeader {
  tcp_src_port : Z; tcp_dest_port : Z; tcp_seq_num : Z; tcp_ack_num : Z; tcp_data_offset_flags : Z;
  tcp_flags : Z; tcp_window : Z; tcp_checksum : Z; tcp_urgent_ptr : Z
}.
Definition TCP_HEADER_SIZE : Z := 20.
Definition tcp_bytes (h : tcp_header_t) : list Z :=
  le_encode 2 (tcp_src_port h) ++ le_encode 2 (tcp_dest_port h) ++ le_encode 4 (tcp_seq_num h) ++
  le_encode 4 (tcp_ack_num h) ++ [tcp_data_offset_flags h; tcp_flags h] ++
  le_encode 2 (tcp_window h) ++ le_encode 2 (tcp_checksum h) ++ le_encode 2 (tcp_urgent_ptr h).
Definition tcp_of (l : list Z) : tcp_header_t :=
  TcpHeader (field 0 2 l) (field 2 2 l) (field 4 4 l) (field 8 4 l) (field 12 1 l) (field 13 1 l)
    (field 14 2 l) (field 16 2 l) (field 18 2 l).
Definition TCP_FLAG_FIN : Z := 0x01.
Definition TCP_FLAG_SYN : Z := 0x02.
Definition TCP_FLAG_RST : Z := 0x04.
Definition TCP_FLAG_PSH : Z := 0x08.
Definition TCP_FLAG_ACK : Z := 0x10.

(** * Static variables *)
Definition ARP_CACHE_SIZE : Z := 8.
Record arp_entry_t := ArpEntry {
  ae_ip : ipv4_addr_t; ae_mac : mac_addr_t; ae_timestamp : Z; ae_valid : bool
}.
#[export] Instance arp_entry_eta : Eta arp_entry_t := λ e,
  ArpEntry (ae_ip e) (ae_mac e) (ae_timestamp e) (ae_valid e).

(** The semaphore [rx_sem] of socket [i] is at [rx_sem i]. *)
Definition RX_BUFFER_SIZE : Z := 1024.
Record socket_t := Socket {
  so_type : socket_type_t; so_in_use : bool; so_local : sockaddr_in_t; so_remote : sockaddr_in_t;
  so_state : tcp_state_t; so_rx_buffer : list Z; so_rx_length : Z; so_seq_num : Z; so_ack_num : Z
}.
#[export] Instance socket_eta : Eta socket_t := λ s,
  Socket (so_type s) (so_in_use s) (so_local s) (so_remote s) (so_state s) (so_rx_buffer s)
    (so_rx_length s) (so_seq_num s) (so_ack_num s).

(** Addresses of the kernel objects of the stack, and of its buffers. *)
Definition buffer_mutex : ptr := 1.
Definition arp_mutex : ptr := 2.
Definition ping_mutex : ptr := 3.
Definition socket_mutex : ptr := 4.
Definition ping_sem : ptr := 5.
Definition rx_sem (i : Z) : ptr := 16 + i.
Definition buffer_pool (i : Z) : ptr := 1 + i.

Record net_world (K D : Type) := NetWorld {
  kern : K;
  device : D;
  current_driver : option (net_driver_t D);
  buffers : gmap Z net_buffer_t;
  buffer_free_list : ptr;
  current_config : net_config_t;
  net_statistics : net_stats_t;
  arp_cache : list arp_entry_t;
  ping_id : Z;
  ping_sequence : Z;
  ping_reply_received : bool;
  ping_reply_time : Z;
  sockets : list socket_t;
  next_ephemeral_port : Z
}.
Arguments NetWorld {K D} _ _ _ _ _ _ _ _ _ _ _ _ _ _.
Arguments kern {K D} _.
Arguments device {K D} _.
Arguments current_driver {K D} _.
Arguments buffers {K D} _.
Arguments buffer_free_list {K D} _.
Arguments current_config {K D} _.
Arguments net_statistics {K D} _.
Arguments arp_cache {K D} _.
Arguments ping_id {K D} _.
Arguments ping_sequence {K D} _.
Arguments ping_reply_received {K D} _.
Arguments ping_reply_time {K D} _.
Arguments sockets {K D} _.
Arguments next_ephemeral_port {K D} _.
#[export] Instance net_world_eta K D : Eta (net_world K D) := λ r,
  NetWorld (kern r) (device r) (current_driver r) (buffers r) (buffer_free_list r) (current_config r)
    (net_statistics r) (arp_cache r) (ping_id r) (ping_sequence r) (ping_reply_received r)
    (ping_reply_time r) (sockets r) (next_ephemeral_port r).

(** What the stack uses of the kernel. *)
Class NetServices (K D : Type) := {
  nv_mutex_init : ptr → M (net_world K D) unit;
  nv_mutex_lock : ptr → Z → M (net_world K D) os_error_t;
  nv_mutex_unlock : ptr → M (net_world K D) os_error_t;
  nv_semaphore_init : ptr → Z → M (net_world K D) unit;
  nv_semaphore_wait : ptr → Z → M (net_world K D) os_error_t;
  nv_semaphore_post : ptr → M (net_world K D) os_error_t;
  nv_task_delay : Z → M (net_world K D) unit;
  nv_task_create : Z → M (net_world K D) os_error_t;
  nv_ticks : K → Z
}.

(** * Memory *)
Section memory.
Context {S : Type}.

(** [n] bytes at offset [off] from the pointer [p]. *)
Definition peek (p : list Z) (off n : Z) : M S (list Z) :=
  if (0 <=? off) && (off + n <=? Z.of_nat (length p))
  then ret (take (Z.to_nat n) (drop (Z.to_nat off) p)) else undef.
(** [p + n] *)
Definition advance_ptr (p : list Z) (n : Z) : list Z := drop (Z.to_nat n) p.
(** [memcpy (p, src, length (src))] *)
Definition poke (p : list Z) (off : Z) (src : list Z) : M S (list Z) :=
  if (0 <=? off) && (off + Z.of_nat (length src) <=? Z.of_nat (length p))
  then ret (put (Z.to_nat off) src p) else undef.
(** The use of a variable that may have no value, or of a pointer that may be null. *)
Definition assigned {A} (v : option A) : M S A := match v with Some a => ret a | None => undef end.
End memory.

(** * Utility functions (network.c) *)
Definition htons (h : Z) : Z := u16 (Z.lor (Z.shiftl (Z.land h 0xFF) 8) (Z.shiftr (Z.land h 0xFF00) 8)).
Definition ntohs (n : Z) : Z := htons n.
Definition htonl (h : Z) : Z :=
  u32 (Z.lor (Z.lor (Z.lor (Z.shiftl (Z.land h 0x000000FF) 24) (Z.shiftl (Z.land h 0x0000FF00) 8))
    (Z.shiftr (Z.land h 0x00FF0000) 8)) (Z.shiftr (Z.land h 0xFF000000) 24)).
Definition ntohl (n : Z) : Z := htonl n.

Definition net_ipv4_equal (a b : ipv4_addr_t) : bool :=
  (ip0 a =? ip0 b) && (ip1 a =? ip1 b) && (ip2 a =? ip2 b) && (ip3 a =? ip3 b).

(** The loops of [net_checksum]: the sum of the 16-bit words and of a last byte, and the folding. *)
Fixpoint sum_words (l : list Z) (sum : Z) : Z :=
  match l with
  | lo :: hi :: l => sum_words l (u32 (sum + le_decode [lo; hi]))
  | [b] => u32 (sum + b)
  | [] => sum
  end.
(** A 32-bit sum is folded at most twice. *)
Fixpoint fold_sum (fuel : nat) (sum : Z) : Z :=
  if Z.shiftr sum 16 =? 0 then sum
  else match fuel with
       | O => sum
       | S fuel => fold_sum fuel (u32 (Z.land sum 0xFFFF + Z.shiftr sum 16))
       end.
Definition net_checksum {S} (data : list Z) (len : Z) : M S Z :=
  let! l := peek data 0 len in
  ret (u16 (Z.lnot (fold_sum 3 (sum_words l 0)))).

(** The loop over at most three digits, with [n = 3 - digits]: the value, the number of digits, and
    [p] afterwards. *)
Fixpoint parse_digits {S} (n : nat) (p : list Z) (value digits : Z) : M S (Z * Z * list Z) :=
  match p with
  | [] => undef
  | c :: p' =>
      if (48 <=? c) && (c <=? 57) then
        match n with
        | O => ret (value, digits, p)
        | Datatypes.S n => parse_digits n p' (value * 10 + (c - 48)) (digits + 1)
        end
      else ret (value, digits, p)
  end.
(** The rounds [i], [i + 1], ..., 3 of the loop, and the check after it. *)
Fixpoint parse_octets {S} (rounds i : nat) (p : list Z) (ip : ipv4_addr_t) : M S (bool * ipv4_addr_t) :=
  match rounds with
  | O => let! c := peek p 0 1 in ret (bool_decide (c = [0]), ip)
  | Datatypes.S rounds =>
      let! r := parse_digits 3 p 0 0 in
      let value := r.1.1 in
      let p := r.2 in
      if (255 <? value) || (r.1.2 =? 0) then ret (false, ip)
      else
        let ip := set_octet i (u8 value) ip in
        if (i <? 3)%nat then
          let! c := peek p 0 1 in
          if bool_decide (c = [46]) then parse_octets rounds (Datatypes.S i) (advance_ptr p 1) ip else ret (false, ip)
        else parse_octets rounds (Datatypes.S i) p ip
  end.
(** The result, and [*ip] afterwards. *)
Definition net_parse_ipv4 {S} (str : option (list Z)) (ip : option ipv4_addr_t) : M S (bool * option ipv4_addr_t) :=
  match str, ip with
  | Some str, Some ip => let! r := parse_octets 4 0 str ip in ret (r.1, Some r.2)
  | _, _ => ret (false, ip)
  end.

(** The characters for one octet, up to the dot. *)
Definition octet_chars (value : Z) : list Z :=
  let hundreds := 100 <=? value in
  let v := if hundreds then value mod 100 else value in
  let tens := (10 <=? v) || hundreds in
  (if hundreds then [48 + value / 100] else []) ++
  (if tens then [48 + v / 10] else []) ++
  [48 + (if tens then v mod 10 else v)].
Fixpoint format_octets {S} (l : list Z) (str : list Z) (pos : Z) : M S (list Z) :=
  match l with
  | [] => poke str pos [0]
  | v :: l =>
      let cs := octet_chars v ++ (if (0 <? length l)%nat then [46] else []) in
      let! str := poke str pos cs in
      format_octets l str (pos + Z.of_nat (length cs))
  end.
Definition net_format_ipv4 {S} (ip : ipv4_addr_t) (str : option (list Z)) : M S (option (list Z)) :=
  match str with
  | None => ret None
  | Some str => let! str := format_octets (ip_bytes ip) str 0 in ret (Some str)
  end.

(** * The stack *)
Section net.
Context {K D : Type} `{!NetServices K D}.
Abbreviation W := (net_world K D).

Definition lock (m : ptr) : M W unit := let! _ := nv_mutex_lock m OS_WAIT_FOREVER in ret tt.
Definition unlock (m : ptr) : M W unit := let! _ := nv_mutex_unlock m in ret tt.
Definition ticks : M W Z := gets (λ w, nv_ticks (kern w)).

(** ** Buffers (network.c) *)
Definition buffer_update (b : ptr) (f : net_buffer_t → net_buffer_t) : M W unit :=
  let! m := gets buffers in
  match m !! b with
  | Some x => modify (λ w, w <| buffers ::= <[b := f x]> |>)
  | None => undef
  end.

Fixpoint buffer_pool_init_from (n : nat) (i : Z) : M W unit :=
  match n with
  | O => ret tt
  | S n =>
      buffer_update (buffer_pool i) (λ b, b <| nb_in_use := false |> <| nb_length := 0 |> <| nb_offset := 0 |>
        <| nb_next := if i + 1 <? NET_MAX_BUFFERS then buffer_pool (i + 1) else NULL |>) ;;;
      buffer_pool_init_from n (i + 1)
  end.
Definition net_buffer_pool_init : M W unit :=
  nv_mutex_init buffer_mutex ;;;
  modify (λ w, w <| buffer_free_list := buffer_pool 0 |>) ;;;
  buffer_pool_init_from (Z.to_nat NET_MAX_BUFFERS) 0.

Definition net_buffer_alloc : M W ptr :=
  lock buffer_mutex ;;;
  let! buf := gets buffer_free_list in
  (if buf =? NULL then ret tt
   else
     let! m := gets buffers in
     let! x := assigned (m !! buf) in
     modify (λ w, w <| buffer_free_list := nb_next x |>) ;;;
     buffer_update buf (λ b, b <| nb_in_use := true |> <| nb_length := 0 |> <| nb_offset := 0 |> <| nb_next := NULL |>)) ;;;
  unlock buffer_mutex ;;;
  ret buf.

Definition net_buffer_free (buf : ptr) : M W unit :=
  if buf =? NULL then ret tt
  else
    lock buffer_mutex ;;;
    let! first := gets buffer_free_list in
    buffer_update buf (λ b, b <| nb_in_use := false |> <| nb_length := 0 |> <| nb_offset := 0 |> <| nb_next := first |>) ;;;
    modify (λ w, w <| buffer_free_list := buf |>) ;;;
    unlock buffer_mutex.

(** ** Access to the driver and the configuration (network.c) *)
Definition net_driver_send (data : list Z) (len : Z) : M W os_error_t :=
  let! d := gets current_driver in
  match d ≫= drv_send with
  | Some send =>
      let! err := zoom device (send data len) in
      (if bool_decide (err = OS_OK)
       then modify (λ w, w <| net_statistics ::= λ s, s <| eth_tx_packets ::= λ n, u32 (n + 1) |> |>)
       else modify (λ w, w <| net_statistics ::= λ s, s <| eth_tx_errors ::= λ n, u32 (n + 1) |> |>)) ;;;
      ret err
  | None => ret OS_ERROR_NOT_INITIALIZED
  end.
(** The value assigned to [*mac], if any. *)
Definition net_get_mac_addr : M W (option mac_addr_t) :=
  let! d := gets current_driver in
  match d ≫= drv_get_mac with
  | Some get_mac => let! m := zoom device get_mac in ret (Some m)
  | None => ret None
  end.
Definition net_get_ip_addr : M W ipv4_addr_t := gets (λ w, cfg_ip (current_config w)).
Definition net_get_gateway : M W ipv4_addr_t := gets (λ w, cfg_gateway (current_config w)).
Definition net_get_dns : M W ipv4_addr_t := gets (λ w, cfg_dns (current_config w)).
(** [*stats] and [*config] afterwards, [None] for a null pointer. *)
Definition net_get_stats (stats : option net_stats_t) : M W (option net_stats_t) :=
  match stats with Some _ => gets (λ w, Some (net_statistics w)) | None => ret None end.
Definition net_get_config (config : option net_config_t) : M W (option net_config_t) :=
  match config with Some _ => gets (λ w, Some (current_config w)) | None => ret None end.
Definition net_set_config (config : option net_config_t) : M W os_error_t :=
  match config with
  | None => ret OS_ERROR_INVALID_PARAM
  | Some c => modify (λ w, w <| current_config := c |>) ;;; ret OS_OK
  end.

(** ** Ethernet and ARP (ethernet.c) *)
Definition net_ethernet_init : M W unit :=
  nv_mutex_init arp_mutex ;;;
  modify (λ w, w <| arp_cache ::= fmap (λ e, e <| ae_valid := false |>) |>).

(** The loop of [arp_cache_add] over the entries [l] from index [i] on. *)
Fixpoint oldest_from (l : list arp_entry_t) (i oldest_idx oldest_time : Z) : Z :=
  match l with
  | [] => oldest_idx
  | e :: l =>
      if negb (ae_valid e) then i
      else if ae_timestamp e <? oldest_time then oldest_from l (i + 1) i (ae_timestamp e)
      else oldest_from l (i + 1) oldest_idx oldest_time
  end.
Definition arp_cache_add (ip : ipv4_addr_t) (mac : mac_addr_t) : M W unit :=
  lock arp_mutex ;;;
  let! cache := gets arp_cache in
  let! first := arr_get cache 0 in
  let idx := oldest_from cache 0 0 (ae_timestamp first) in
  let! now := ticks in
  modify (λ w, w <| arp_cache ::= λ c, arr_set c idx (ArpEntry ip mac now true) |>) ;;;
  unlock arp_mutex.

Definition arp_cache_lookup (ip : ipv4_addr_t) : M W (option mac_addr_t) :=
  lock arp_mutex ;;;
  let! cache := gets arp_cache in
  let found := (λ e, ae_mac e.2) <$> list_find (λ e, ae_valid e && net_ipv4_equal (ae_ip e) ip) cache in
  unlock arp_mutex ;;;
  ret found.

Definition arp_send_request (target_ip : ipv4_addr_t) : M W os_error_t :=
  let! mac := net_get_mac_addr in
  let! my_ip := net_get_ip_addr in
  let! my_mac := assigned mac in
  let eth := EthHeader (MAC 0xFF 0xFF 0xFF 0xFF 0xFF 0xFF) my_mac (htons ETH_TYPE_ARP) in
  let arp := ArpPacket (htons ARP_HARDWARE_ETHERNET) (htons ARP_PROTOCOL_IP) 6 4 (htons ARP_OP_REQUEST)
    my_mac my_ip (MAC 0 0 0 0 0 0) target_ip in
  net_driver_send (eth_bytes eth ++ arp_bytes arp) (ETH_HEADER_SIZE + ARP_PACKET_SIZE).

Definition arp_send_reply (target_ip : ipv4_addr_t) (target_mac : mac_addr_t) : M W os_error_t :=
  let! mac := net_get_mac_addr in
  let! my_ip := net_get_ip_addr in
  let! my_mac := assigned mac in
  let eth := EthHeader target_mac my_mac (htons ETH_TYPE_ARP) in
  let arp := ArpPacket (htons ARP_HARDWARE_ETHERNET) (htons ARP_PROTOCOL_IP) 6 4 (htons ARP_OP_REPLY)
    my_mac my_ip target_mac target_ip in
  net_driver_send (eth_bytes eth ++ arp_bytes arp) (ETH_HEADER_SIZE + ARP_PACKET_SIZE).

Definition arp_input (data : list Z) (len : Z) : M W unit :=
  if len <? ARP_PACKET_SIZE then ret tt
  else
    let! my_ip := net_get_ip_addr in
    let! hdr := peek data 0 ARP_PACKET_SIZE in
    let arp := arp_of hdr in
    let opcode := ntohs (arp_opcode arp) in
    arp_cache_add (arp_sender_ip arp) (arp_sender_mac arp) ;;;
    if (opcode =? ARP_OP_REQUEST) && net_ipv4_equal (arp_target_ip arp) my_ip then
      let! _ := arp_send_reply (arp_sender_ip arp) (arp_sender_mac arp) in ret tt
    else ret tt.

Definition net_ethernet_send_ip (dest_ip : ipv4_addr_t) (data : list Z) (len : Z) : M W os_error_t :=
  if NET_BUFFER_SIZE - ETH_HEADER_SIZE <? len then ret OS_ERROR_INVALID_PARAM
  else
    let! found := arp_cache_lookup dest_ip in
    match found with
    | None =>
        let! _ := arp_send_request dest_ip in
        ret OS_ERROR_TIMEOUT
    | Some dest_mac =>
        let! src := net_get_mac_addr in
        let! my_mac := assigned src in
        let! payload := peek data 0 len in
        net_driver_send (eth_bytes (EthHeader dest_mac my_mac (htons ETH_TYPE_IP)) ++ payload)
          (ETH_HEADER_SIZE + len)
    end.

(** The loop of [net_arp_resolve]. *)
Fixpoint resolve_loop (fuel : nat) (ip : ipv4_addr_t) (start_time timeout_ms : Z) :
    M W (os_error_t * option mac_addr_t) :=
  let! now := ticks in
  if u32 (now - start_time) <? timeout_ms then
    match fuel with
    | O => nofuel
    | S fuel =>
        nv_task_delay 10 ;;;
        let! found := arp_cache_lookup ip in
        match found with
        | Some m => ret (OS_OK, Some m)
        | None => resolve_loop fuel ip start_time timeout_ms
        end
    end
  else ret (OS_ERROR_TIMEOUT, None).
(** The result and the value assigned to [*mac], if any; [mac] is whether the pointer is not null. *)
Definition net_arp_resolve (fuel : nat) (ip : ipv4_addr_t) (mac : bool) (timeout_ms : Z) :
    M W (os_error_t * option mac_addr_t) :=
  if negb mac then ret (OS_ERROR_INVALID_PARAM, None)
  else
    let! start_time := ticks in
    let! found := arp_cache_lookup ip in
    match found with
    | Some m => ret (OS_OK, Some m)
    | None =>
        let! _ := arp_send_request ip in
        resolve_loop fuel ip start_time timeout_ms
    end.

(** ** IP and ICMP (ip.c) *)
Definition net_ip_init : M W unit :=
  modify (λ w, w <| ping_id := 0 |> <| ping_sequence := 0 |> <| ping_reply_received := false |>).
Definition net_icmp_init : M W unit :=
  nv_mutex_init ping_mutex ;;;
  nv_semaphore_init ping_sem 0.

(** A header as the three senders fill it in: the checksum is computed over the header with a
    checksum of 0. *)
Definition build_ip_header (total_length identification protocol : Z) (src dest : ipv4_addr_t) : M W (list Z) :=
  let hdr := IpHeader 0x45 0 (htons total_length) identification 0 64 protocol 0 src dest in
  let! sum := net_checksum (ip_header_bytes hdr) IP_HEADER_SIZE in
  ret (ip_header_bytes (hdr <| ip_checksum := sum |>)).

Definition net_ip_send (dest_ip : ipv4_addr_t) (protocol : Z) (data : list Z) (len : Z) : M W os_error_t :=
  if NET_BUFFER_SIZE - IP_HEADER_SIZE <? len then ret OS_ERROR_INVALID_PARAM
  else
    let! my_ip := net_get_ip_addr in
    let! hdr := build_ip_header (IP_HEADER_SIZE + len) 0 protocol my_ip dest_ip in
    let! payload := peek data 0 len in
    net_ethernet_send_ip dest_ip (hdr ++ payload) (IP_HEADER_SIZE + len).

Definition icmp_input (data : list Z) (len : Z) (src_ip : ipv4_addr_t) : M W unit :=
  if len <? ICMP_HEADER_SIZE then ret tt
  else
    let! h := peek data 0 ICMP_HEADER_SIZE in
    let icmp := icmp_of h in
    if icmp_type icmp =? ICMP_TYPE_ECHO_REQUEST then
      let! my_ip := net_get_ip_addr in
      let! hdr := build_ip_header (u16 (IP_HEADER_SIZE + len)) 0 IP_PROTOCOL_ICMP my_ip src_ip in
      let! message := peek data 0 len in
      let reply := put 2 [0; 0] (put 0 [ICMP_TYPE_ECHO_REPLY] message) in
      let! sum := net_checksum reply len in
      let! _ := net_ethernet_send_ip src_ip (hdr ++ put 2 (le_encode 2 sum) reply) (u16 (IP_HEADER_SIZE + len)) in
      ret tt
    else if icmp_type icmp =? ICMP_TYPE_ECHO_REPLY then
      let! id := gets ping_id in
      let! seq := gets ping_sequence in
      if (ntohs (icmp_id icmp) =? id) && (ntohs (icmp_sequence icmp) =? seq) then
        let! now := ticks in
        modify (λ w, w <| ping_reply_received := true |> <| ping_reply_time := now |>) ;;;
        let! _ := nv_semaphore_post ping_sem in ret tt
      else ret tt
    else ret tt.

Definition ping_payload : list Z := seqZ 0 32.
(** The result and the value assigned to [*rtt]; [rtt] is whether the pointer is not null. *)
Definition net_ping (dest_ip : ipv4_addr_t) (timeout_ms : Z) (rtt : bool) : M W (os_error_t * option Z) :=
  let! my_ip := net_get_ip_addr in
  lock ping_mutex ;;;
  modify (λ w, w <| ping_id ::= λ n, u16 (n + 1) |> <| ping_sequence ::= λ n, u16 (n + 1) |>
    <| ping_reply_received := false |>) ;;;
  let! current_id := gets ping_id in
  let! current_seq := gets ping_sequence in
  let! hdr := build_ip_header 60 (htons current_id) IP_PROTOCOL_ICMP my_ip dest_ip in
  let icmp := IcmpHeader ICMP_TYPE_ECHO_REQUEST 0 0 (htons current_id) (htons current_seq) in
  let! sum := net_checksum (icmp_bytes icmp ++ ping_payload) (ICMP_HEADER_SIZE + 32) in
  let packet := hdr ++ icmp_bytes (icmp <| icmp_checksum := sum |>) ++ ping_payload in
  let! start_time := ticks in
  let! err := net_ethernet_send_ip dest_ip packet 60 in
  if negb (bool_decide (err = OS_OK)) then
    unlock ping_mutex ;;;
    ret (err, None)
  else
    let! err := nv_semaphore_wait ping_sem timeout_ms in
    let! received := gets ping_reply_received in
    if bool_decide (err = OS_OK) && received then
      let! reply_time := gets ping_reply_time in
      unlock ping_mutex ;;;
      ret (OS_OK, if rtt : bool then Some (u32 (reply_time - start_time)) else None)
    else
      unlock ping_mutex ;;;
      ret (OS_ERROR_TIMEOUT, None).

(** ** Sockets (socket.c) *)
Definition socket_at (i : Z) : M W socket_t := let! l := gets sockets in arr_get l i.
Definition socket_update (i : Z) (f : socket_t → socket_t) : M W unit :=
  let! s := socket_at i in
  modify (λ w, w <| sockets ::= λ l, arr_set l i (f s) |>).
(** The socket, unless [sock < 0 || sock >= NET_MAX_SOCKETS || !sockets[sock].in_use]. *)
Definition valid_socket (sock : Z) : M W (option socket_t) :=
  if (sock <? 0) || (NET_MAX_SOCKETS <=? sock) then ret None
  else
    let! s := socket_at sock in
    ret (if so_in_use s then Some s else None).

Fixpoint init_sems (n : nat) (i : Z) : M W unit :=
  match n with
  | O => ret tt
  | S n =>
      socket_update i (λ s, s <| so_in_use := false |> <| so_rx_length := 0 |>) ;;;
      nv_semaphore_init (rx_sem i) 0 ;;;
      init_sems n (i + 1)
  end.
Definition net_udp_init : M W unit :=
  nv_mutex_init socket_mutex ;;;
  init_sems (Z.to_nat NET_MAX_SOCKETS) 0.
Definition net_tcp_init : M W unit := ret tt.

(** The assignments of [net_socket] to the socket it hands out. *)
Definition fresh_socket (type : socket_type_t) (now : Z) (s : socket_t) : socket_t :=
  Socket type true (so_local s <| sa_port := 0 |>) (so_remote s <| sa_port := 0 |>) TCP_CLOSED
    (so_rx_buffer s) 0 now 0.
Definition net_socket (type : socket_type_t) : M W Z :=
  lock socket_mutex ;;;
  let! l := gets sockets in
  match list_find (λ s, so_in_use s = false) l with
  | Some (i, _) =>
      let i := Z.of_nat i in
      let! now := ticks in
      socket_update i (fresh_socket type now) ;;;
      unlock socket_mutex ;;;
      ret i
  | None =>
      unlock socket_mutex ;;;
      ret INVALID_SOCKET
  end.

Definition net_bind (sock : Z) (addr : option sockaddr_in_t) : M W os_error_t :=
  let! s := valid_socket sock in
  match s with
  | None => ret OS_ERROR_INVALID_PARAM
  | Some _ =>
      let! a := assigned addr in
      socket_update sock (λ s, s <| so_local := a |>) ;;;
      ret OS_OK
  end.

Definition net_close (sock : Z) : M W os_error_t :=
  let! s := valid_socket sock in
  match s with
  | None => ret OS_ERROR_INVALID_PARAM
  | Some s =>
      when (bool_decide (so_type s = SOCK_STREAM) && bool_decide (so_state s = TCP_ESTABLISHED))
        (socket_update sock (λ s, s <| so_state := TCP_CLOSED |>)) ;;;
      socket_update sock (λ s, s <| so_in_use := false |> <| so_rx_length := 0 |>) ;;;
      ret OS_OK
  end.

(** *** UDP *)
Definition udp_match (dest_port : Z) (s : socket_t) : Prop :=
  so_in_use s = true ∧ so_type s = SOCK_DGRAM ∧ sa_port (so_local s) = dest_port.
#[export] Instance udp_match_dec dest_port s : Decision (udp_match dest_port s).
Proof. unfold udp_match. apply _. Defined.

Definition net_udp_input (data : list Z) (len : Z) (src_ip : ipv4_addr_t) : M W unit :=
  if len <? UDP_HEADER_SIZE then ret tt
  else
    let! h := peek data 0 UDP_HEADER_SIZE in
    let udp := udp_of h in
    let dest_port := ntohs (udp_dest_port udp) in
    let src_port := ntohs (udp_src_port udp) in
    let! l := gets sockets in
    match list_find (udp_match dest_port) l with
    | Some (i, _) =>
        let i := Z.of_nat i in
        let payload_len := u16 (ntohs (udp_length udp) - UDP_HEADER_SIZE) in
        let payload_len := if RX_BUFFER_SIZE <? payload_len then RX_BUFFER_SIZE else payload_len in
        let! bytes := peek data UDP_HEADER_SIZE payload_len in
        socket_update i (λ s, s <| so_rx_buffer ::= put 0 bytes |> <| so_rx_length := payload_len |>
          <| so_remote := SockAddr src_ip src_port |>) ;;;
        let! _ := nv_semaphore_post (rx_sem i) in ret tt
    | None => ret tt
    end.

Definition net_sendto (sock : Z) (data : list Z) (len : Z) (addr : option sockaddr_in_t) : M W Z :=
  let! s := valid_socket sock in
  match s with
  | None => ret (-1)
  | Some s =>
      if negb (bool_decide (so_type s = SOCK_DGRAM)) then ret (-1)
      else
        let! a := assigned addr in
        let udp := UdpHeader (htons (sa_port (so_local s))) (htons (sa_port a))
          (htons (u16 (UDP_HEADER_SIZE + len))) 0 in
        let! payload := peek data 0 len in
        let! err := net_ip_send (sa_addr a) 17 (udp_bytes udp ++ payload) (u16 (UDP_HEADER_SIZE + len)) in
        ret (if bool_decide (err = OS_OK) then len else -1)
  end.

(** [memcpy (buffer, sockets[sock].rx_buffer, copy_len)] with the lengths of the two receive
    functions: the length and [buffer] afterwards. *)
Definition copy_received (sock : Z) (buffer : list Z) (max_length : Z) : M W (Z * list Z) :=
  let! s := socket_at sock in
  let copy_len := if max_length <? so_rx_length s then max_length else so_rx_length s in
  let! bytes := peek (so_rx_buffer s) 0 copy_len in
  let! buffer := poke buffer 0 bytes in
  ret (copy_len, buffer).

(** The result, [buffer] and the value assigned to [*addr]; [addr] is whether the pointer is not
    null. *)
Definition net_recvfrom (sock : Z) (buffer : list Z) (max_length : Z) (addr : bool) :
    M W (Z * list Z * option sockaddr_in_t) :=
  let! s := valid_socket sock in
  match s with
  | None => ret (-1, buffer, None)
  | Some s =>
      if negb (bool_decide (so_type s = SOCK_DGRAM)) then ret (-1, buffer, None)
      else
        let! err := nv_semaphore_wait (rx_sem sock) 5000 in
        if negb (bool_decide (err = OS_OK)) then ret (0, buffer, None)
        else
          let! r := copy_received sock buffer max_length in
          let! s := socket_at sock in
          socket_update sock (λ s, s <| so_rx_length := 0 |>) ;;;
          ret (r.1, r.2, if addr : bool then Some (so_remote s) else None)
  end.

(** *** TCP *)
Definition tcp_match (dest_port src_port : Z) (src_ip : ipv4_addr_t) (s : socket_t) : Prop :=
  so_in_use s = true ∧ so_type s = SOCK_STREAM ∧ sa_port (so_local s) = dest_port ∧
  net_ipv4_equal (sa_addr (so_remote s)) src_ip = true ∧ sa_port (so_remote s) = src_port.
#[export] Instance tcp_match_dec dest_port src_port src_ip s : Decision (tcp_match dest_port src_port src_ip s).
Proof. unfold tcp_match. apply _. Defined.

Definition net_tcp_input (data : list Z) (len : Z) (src_ip : ipv4_addr_t) : M W unit :=
  if len <? TCP_HEADER_SIZE then ret tt
  else
    let! h := peek data 0 TCP_HEADER_SIZE in
    let tcp := tcp_of h in
    let dest_port := ntohs (tcp_dest_port tcp) in
    let src_port := ntohs (tcp_src_port tcp) in
    let! l := gets sockets in
    match list_find (tcp_match dest_port src_port src_ip) l with
    | Some (i, s) =>
        let i := Z.of_nat i in
        let flags := tcp_flags tcp in
        if negb (Z.land flags TCP_FLAG_ACK =? 0) && bool_decide (so_state s = TCP_SYN_SENT) then
          socket_update i (λ s, s <| so_state := TCP_ESTABLISHED |>
            <| so_ack_num := u32 (ntohl (tcp_seq_num tcp) + 1) |>) ;;;
          let! _ := nv_semaphore_post (rx_sem i) in ret tt
        else if negb (Z.land flags TCP_FLAG_PSH =? 0) && bool_decide (so_state s = TCP_ESTABLISHED) then
          let data_offset := u8 (Z.shiftr (tcp_data_offset_flags tcp) 4 * 4) in
          let payload_len := u16 (len - data_offset) in
          if (0 <? payload_len) && (payload_len <=? RX_BUFFER_SIZE) then
            let! bytes := peek data data_offset payload_len in
            socket_update i (λ s, s <| so_rx_buffer ::= put 0 bytes |> <| so_rx_length := payload_len |>) ;;;
            let! _ := nv_semaphore_post (rx_sem i) in ret tt
          else ret tt
        else ret tt
    | None => ret tt
    end.

Definition net_connect (sock : Z) (addr : option sockaddr_in_t) (timeout_ms : Z) : M W os_error_t :=
  let! s := valid_socket sock in
  match s with
  | None => ret OS_ERROR_INVALID_PARAM
  | Some s =>
      if negb (bool_decide (so_type s = SOCK_STREAM)) then ret OS_ERROR_INVALID_PARAM
      else
        when (sa_port (so_local s) =? 0)
          (let! port := gets next_ephemeral_port in
           socket_update sock (λ s, s <| so_local ::= λ a, a <| sa_port := port |> |>) ;;;
           modify (λ w, w <| next_ephemeral_port := if u16 (port + 1) =? 0 then 49152 else u16 (port + 1) |>)) ;;;
        let! a := assigned addr in
        socket_update sock (λ s, s <| so_remote := a |>) ;;;
        let! s := socket_at sock in
        let tcp := TcpHeader (htons (sa_port (so_local s))) (htons (sa_port a)) (htonl (so_seq_num s)) 0 0x50
          TCP_FLAG_SYN (htons 1024) 0 0 in
        socket_update sock (λ s, s <| so_state := TCP_SYN_SENT |>) ;;;
        let! err := net_ip_send (sa_addr a) 6 (tcp_bytes tcp) TCP_HEADER_SIZE in
        if negb (bool_decide (err = OS_OK)) then ret OS_ERROR
        else
          let! err := nv_semaphore_wait (rx_sem sock) timeout_ms in
          if negb (bool_decide (err = OS_OK)) then
            socket_update sock (λ s, s <| so_state := TCP_CLOSED |>) ;;;
            ret OS_ERROR_TIMEOUT
          else
            let! s := socket_at sock in
            ret (if bool_decide (so_state s = TCP_ESTABLISHED) then OS_OK else OS_ERROR)
  end.

Definition net_send (sock : Z) (data : list Z) (len timeout_ms : Z) : M W Z :=
  let! s := valid_socket sock in
  match s with
  | None => ret (-1)
  | Some s =>
      if bool_decide (so_type s = SOCK_STREAM) then
        if negb (bool_decide (so_state s = TCP_ESTABLISHED)) then ret (-1)
        else
          let tcp := TcpHeader (htons (sa_port (so_local s))) (htons (sa_port (so_remote s)))
            (htonl (so_seq_num s)) (htonl (so_ack_num s)) 0x50 (Z.lor TCP_FLAG_PSH TCP_FLAG_ACK) (htons 1024) 0 0 in
          let! payload := peek data 0 len in
          let! err := net_ip_send (sa_addr (so_remote s)) 6 (tcp_bytes tcp ++ payload) (u16 (TCP_HEADER_SIZE + len)) in
          if bool_decide (err = OS_OK) then
            socket_update sock (λ s, s <| so_seq_num ::= λ n, u32 (n + len) |>) ;;;
            ret len
          else ret (-1)
      else ret (-1)
  end.

Definition net_recv (sock : Z) (buffer : list Z) (max_length timeout_ms : Z) : M W (Z * list Z) :=
  let! s := valid_socket sock in
  match s with
  | None => ret (-1, buffer)
  | Some s =>
      if bool_decide (so_type s = SOCK_STREAM) then
        if negb (bool_decide (so_state s = TCP_ESTABLISHED)) then ret (-1, buffer)
        else
          let! err := nv_semaphore_wait (rx_sem sock) timeout_ms in
          if negb (bool_decide (err = OS_OK)) then ret (0, buffer)
          else
            let! r := copy_received sock buffer max_length in
            socket_update sock (λ s, s <| so_rx_length := 0 |>) ;;;
            ret r
      else ret (-1, buffer)
  end.

Definition net_listen (sock backlog : Z) : M W os_error_t := ret OS_ERROR_NOT_IMPLEMENTED.
Definition net_accept (sock : Z) : M W Z := ret INVALID_SOCKET.

(** ** Input (ip.c, ethernet.c) *)
Definition net_ip_input (data : list Z) (len : Z) : M W unit :=
  if len <? IP_HEADER_SIZE then ret tt
  else
    let! h := peek data 0 IP_HEADER_SIZE in
    let ip_hdr := ip_header_of h in
    if negb (Z.shiftr (ip_version_ihl ip_hdr) 4 =? 4) then ret tt
    else
      let ihl := u8 (Z.land (ip_version_ihl ip_hdr) 0x0F * 4) in
      if (ihl <? 20) || (len <? ihl) then ret tt
      else
        let! copy := peek data 0 ihl in
        let! calculated_checksum := net_checksum (put 10 [0; 0] copy) ihl in
        if negb (ip_checksum ip_hdr =? calculated_checksum) then ret tt
        else
          let! my_ip := net_get_ip_addr in
          if negb (net_ipv4_equal (ip_dest ip_hdr) my_ip) then ret tt
          else
            let total_length := ntohs (ip_total_length ip_hdr) in
            if len <? total_length then ret tt
            else
              let payload := advance_ptr data ihl in
              let payload_length := u16 (total_length - ihl) in
              if ip_protocol ip_hdr =? IP_PROTOCOL_ICMP then icmp_input payload payload_length (ip_src ip_hdr)
              else if ip_protocol ip_hdr =? IP_PROTOCOL_UDP then net_udp_input payload payload_length (ip_src ip_hdr)
              else if ip_protocol ip_hdr =? IP_PROTOCOL_TCP then net_tcp_input payload payload_length (ip_src ip_hdr)
              else ret tt.

Definition net_ethernet_input (data : list Z) (len : Z) : M W unit :=
  if len <? ETH_HEADER_SIZE then ret tt
  else
    let! h := peek data 0 ETH_HEADER_SIZE in
    let eth := eth_of h in
    let type := ntohs (eth_type eth) in
    let payload := advance_ptr data ETH_HEADER_SIZE in
    let payload_length := u16 (len - ETH_HEADER_SIZE) in
    let! mac := net_get_mac_addr in
    let! my_mac := assigned mac in
    let is_for_us := bool_decide (eth_dest eth = my_mac) in
    let is_broadcast := bool_decide (eth_dest eth = MAC 0xFF 0xFF 0xFF 0xFF 0xFF 0xFF) in
    if negb is_for_us && negb is_broadcast then ret tt
    else if type =? ETH_TYPE_IP then net_ip_input payload payload_length
    else if type =? ETH_TYPE_ARP then arp_input payload payload_length
    else ret tt.

(** ** Initialisation and the network task (network.c) *)
Definition net_init (driver : option (net_driver_t D)) (config : option net_config_t) : M W os_error_t :=
  match driver, config with
  | Some d, Some c =>
      net_buffer_pool_init ;;;
      modify (λ w, w <| current_driver := Some d |> <| current_config := c |>
        <| net_statistics := net_stats_zero |>) ;;;
      let! err := match drv_init d with Some init => zoom device init | None => ret OS_OK end in
      if negb (bool_decide (err = OS_OK)) then ret err
      else
        net_ethernet_init ;;;
        net_ip_init ;;;
        net_icmp_init ;;;
        net_udp_init ;;;
        net_tcp_init ;;;
        ret OS_OK
  | _, _ => ret OS_ERROR_INVALID_PARAM
  end.

(** A round of the loop of [network_task_func] up to the delay; the argument and the result are the
    local array [rx_buffer]. *)
Definition network_task_poll (rx_buffer : list Z) : M W (list Z) :=
  let! d := gets current_driver in
  match d ≫= drv_receive with
  | Some receive =>
      let! r := zoom device (receive rx_buffer NET_BUFFER_SIZE) in
      (if 0 <? r.1 then
         net_ethernet_input r.2 (u16 r.1) ;;;
         modify (λ w, w <| net_statistics ::= λ s, s <| eth_rx_packets ::= λ n, u32 (n + 1) |> |>)
       else ret tt) ;;;
      ret r.2
  | None => ret rx_buffer
  end.
(** The first [n] rounds of the task. *)
Fixpoint network_task_func (n : nat) (rx_buffer : list Z) : M W (list Z) :=
  match n with
  | O => ret rx_buffer
  | S n =>
      let! rx_buffer := network_task_poll rx_buffer in
      nv_task_delay 1 ;;;
      network_task_func n rx_buffer
  end.

Definition net_start : M W os_error_t := nv_task_create PRIORITY_HIGH.
End net.

(** * Lemmas on memory *)
Lemma peek_ok {S} p off n (Q : list Z → S → Prop) s :
  0 ≤ off → off + n ≤ Z.of_nat (length p) →
  Q (take (Z.to_nat n) (drop (Z.to_nat off) p)) s → wp (peek p off n) Q s.
Proof.
  intros ? ? HQ. unfold peek. destruct (Z.leb_spec 0 off); [|lia].
  by destruct (Z.leb_spec (off + n) (Z.of_nat (length p))); [|lia].
Qed.
Lemma poke_ok {S} p off src (Q : list Z → S → Prop) s :
  0 ≤ off → off + Z.of_nat (length src) ≤ Z.of_nat (length p) →
  Q (put (Z.to_nat off) src p) s → wp (poke p off src) Q s.
Proof.
  intros ? ? HQ. unfold poke. destruct (Z.leb_spec 0 off); [|lia].
  by destruct (Z.leb_spec (off + Z.of_nat (length src)) (Z.of_nat (length p))); [|lia].
Qed.
