(* ===== verification/Loopback.v ===== *)
(** Loopback: the driver of [drivers/loopback_net.c], which hands every frame it sends back to the
    stack, and its refinement of a bounded queue of frames. *)
From Stdlib Require Import ZArith Lia.
From stdpp Require Import base numbers list gmap.
From S2P Require Import Prelude Types Bytes Net.

(** * The driver *)
Definition QUEUE_SIZE : Z := 4.
Record packet_t := Packet { pk_data : list Z; pk_length : Z; pk_valid : bool }.
#[export] Instance packet_eta : Eta packet_t := λ p, Packet (pk_data p) (pk_length p) (pk_valid p).
Record loopback_t := Loopback { packet_queue : list packet_t; queue_head : Z; queue_tail : Z }.
#[export] Instance loopback_eta : Eta loopback_t := λ l, Loopback (packet_queue l) (queue_head l) (queue_tail l).
Definition loopback_mac : mac_addr_t := MAC 0x02 0 0 0 0 0x01.

Definition loopback_init : M loopback_t os_error_t :=
  modify (λ l, l <| packet_queue ::= fmap (λ p, p <| pk_valid := false |>) |>
    <| queue_head := 0 |> <| queue_tail := 0 |>) ;;;
  ret OS_OK.

Definition loopback_send (data : list Z) (len : Z) : M loopback_t os_error_t :=
  if NET_BUFFER_SIZE <? len then ret OS_ERROR_INVALID_PARAM
  else
    let! tail := gets queue_tail in
    let! head := gets queue_head in
    let next_tail := (tail + 1) mod QUEUE_SIZE in
    if next_tail =? head then ret OS_ERROR_NO_RESOURCE
    else
      let! slots := gets packet_queue in
      let! slot := arr_get slots tail in
      let! bytes := peek data 0 len in
      let! stored := poke (pk_data slot) 0 bytes in
      modify (λ l, l <| packet_queue ::= λ q, arr_set q tail (Packet stored len true) |>) ;;;
      modify (λ l, l <| queue_tail := next_tail |>) ;;;
      ret OS_OK.

Definition loopback_receive (buffer : list Z) (max_length : Z) : M loopback_t (Z * list Z) :=
  let! tail := gets queue_tail in
  let! head := gets queue_head in
  if head =? tail then ret (0, buffer)
  else
    let! slots := gets packet_queue in
    let! slot := arr_get slots head in
    if negb (pk_valid slot) then ret (0, buffer)
    else
      let len := if max_length <? pk_length slot then max_length else pk_length slot in
      let! bytes := peek (pk_data slot) 0 len in
      let! buffer := poke buffer 0 bytes in
      modify (λ l, l <| packet_queue ::= λ q, arr_set q head (slot <| pk_valid := false |>) |>) ;;;
      modify (λ l, l <| queue_head := (head + 1) mod QUEUE_SIZE |>) ;;;
      ret (len, buffer).

Definition loopback_get_mac : M loopback_t mac_addr_t := ret loopback_mac.
Definition loopback_is_link_up : M loopback_t bool := ret true.
Definition loopback_driver : net_driver_t loopback_t :=
  NetDriver (Some loopback_init) (Some loopback_send) (Some loopback_receive) (Some loopback_get_mac)
    (Some loopback_is_link_up).

(** * The queue of frames *)
(** The slot holds the frame [f]. *)
Definition holds (slot : packet_t) (f : list Z) : Prop :=
  pk_valid slot = true ∧ pk_length slot = Z.of_nat (length f) ∧ take (length f) (pk_data slot) = f ∧
  Z.of_nat (length f) ≤ NET_BUFFER_SIZE.
(** The frames [q], the oldest one first, are in the driver. *)
Record frames (q : list (list Z)) (l : loopback_t) : Prop := {
  fr_slots : length (packet_queue l) = Z.to_nat QUEUE_SIZE;
  fr_sizes : Forall (λ p, length (pk_data p) = Z.to_nat NET_BUFFER_SIZE) (packet_queue l);
  fr_head : 0 ≤ queue_head l < QUEUE_SIZE;
  fr_tail : queue_tail l = (queue_head l + Z.of_nat (length q)) mod QUEUE_SIZE;
  fr_room : Z.of_nat (length q) < QUEUE_SIZE;
  fr_held : ∀ i f, q !! i = Some f → ∃ slot,
    packet_queue l !! Z.to_nat ((queue_head l + Z.of_nat i) mod QUEUE_SIZE) = Some slot ∧ holds slot f
}.

Lemma slot_index l q i : frames q l → (i < 4)%nat →
  (Z.to_nat ((queue_head l + Z.of_nat i) mod QUEUE_SIZE) < length (packet_queue l))%nat.
Proof. intros [Hs _ _ _ _ _] _. rewrite Hs. unfold QUEUE_SIZE. Z.div_mod_to_equations; lia. Qed.

Lemma loopback_init_ok l : length (packet_queue l) = Z.to_nat QUEUE_SIZE →
  Forall (λ p, length (pk_data p) = Z.to_nat NET_BUFFER_SIZE) (packet_queue l) →
  wp loopback_init (λ r l', r = OS_OK ∧ frames [] l') l.
Proof.
  intros Hs Hz. unfold loopback_init. wp_step. split; [done|]. split; cbn; try (unfold QUEUE_SIZE; lia || done).
  - by rewrite length_fmap.
  - apply Forall_fmap. by eapply Forall_impl; [exact Hz|].
Qed.

(** Sending: the frame is the first [n] bytes of [data]. *)
Lemma loopback_send_ok q l data n : frames q l → 0 ≤ n ≤ Z.of_nat (length data) →
  wp (loopback_send data n) (λ r l',
    if NET_BUFFER_SIZE <? n then r = OS_ERROR_INVALID_PARAM ∧ l' = l
    else if Z.of_nat (length q) + 1 =? QUEUE_SIZE then r = OS_ERROR_NO_RESOURCE ∧ l' = l
    else r = OS_OK ∧ frames (q ++ [take (Z.to_nat n) data]) l') l.
Proof.
  intros Hf Hn. pose proof Hf as [Hs Hz Hh Ht Hr Hheld]. unfold loopback_send.
  destruct (Z.ltb_spec NET_BUFFER_SIZE n) as [|Hn']; [done|]. wp_step. rewrite Ht.
  unfold QUEUE_SIZE, NET_BUFFER_SIZE in *.
  destruct (Z.eqb_spec (Z.of_nat (length q) + 1) 4) as [E|E].
  { destruct (Z.eqb_spec (((queue_head l + Z.of_nat (length q)) mod 4 + 1) mod 4) (queue_head l)) as [|E']; [done|].
    exfalso. apply E'. Z.div_mod_to_equations; lia. }
  destruct (Z.eqb_spec (((queue_head l + Z.of_nat (length q)) mod 4 + 1) mod 4) (queue_head l)) as [E'|_].
  { exfalso. apply E. Z.div_mod_to_equations; lia. }
  set (j := Z.to_nat ((queue_head l + Z.of_nat (length q)) mod 4)).
  assert (j < length (packet_queue l))%nat as Hj by (apply (slot_index l q (length q)); [done|lia]).
  destruct (lookup_lt_is_Some_2 _ _ Hj) as [slot Hslot].
  assert (length (pk_data slot) = 1500%nat) as Hlen by exact (Forall_lookup_1 _ _ _ _ Hz Hslot).
  wp_step. eapply wp_arr_get; [Z.div_mod_to_equations; lia|exact Hslot|]. wp_step.
  apply peek_ok; [lia|lia|]. wp_step. rewrite drop_0.
  apply poke_ok; [lia|rewrite length_take, Hlen; lia|]. wp_step. split; [done|].
  unfold arr_set. fold j. split; cbn; rewrite ?length_insert, ?length_app; cbn; unfold QUEUE_SIZE; try (Z.div_mod_to_equations; lia).
  - apply Forall_insert; [done|]. cbn. rewrite put_length; [done|]. rewrite length_take, Hlen. lia.
  - intros i f Hi. destruct (decide (i < length q)%nat) as [Hlt|Hge].
    + rewrite lookup_app_l in Hi by done. destruct (Hheld i f Hi) as (sl & Hsl & Hh').
      exists sl. split; [|done]. rewrite list_lookup_insert_ne; [done|]. unfold j. Z.div_mod_to_equations; lia.
    + rewrite lookup_app_r in Hi by lia. apply list_lookup_singleton_Some in Hi as [Hi <-].
      replace i with (length q) by lia. eexists. split; [by apply list_lookup_insert_eq|].
      unfold holds, NET_BUFFER_SIZE. cbn. rewrite length_take, Nat.min_l by lia. split_and!; try lia; try done.
      rewrite <-(length_take_le data (Z.to_nat n)) at 1 by lia. apply (slice_put_same 0). rewrite length_take, Hlen. lia.
Qed.

(** Receiving: the oldest frame, cut off at the size of the buffer. *)
Lemma loopback_receive_ok q l buffer n : frames q l → 0 ≤ n ≤ Z.of_nat (length buffer) →
  wp (loopback_receive buffer n) (λ r l',
    match q with
    | [] => r = (0, buffer) ∧ l' = l
    | f :: q => r = (Z.of_nat (length (take (Z.to_nat n) f)), put 0 (take (Z.to_nat n) f) buffer) ∧ frames q l'
    end) l.
Proof.
  intros Hf Hn. pose proof Hf as [Hs Hz Hh Ht Hr Hheld]. unfold loopback_receive. wp_step. rewrite Ht.
  unfold QUEUE_SIZE in *. destruct q as [|f q].
  { rewrite (proj2 (Z.eqb_eq _ _)); [done|]. cbn. Z.div_mod_to_equations; lia. }
  rewrite (proj2 (Z.eqb_neq _ _)); [|cbn [length] in *; Z.div_mod_to_equations; lia].
  destruct (Hheld 0%nat f eq_refl) as (slot & Hslot & Hv & Hl & Hd & Hlen).
  unfold QUEUE_SIZE in Hslot. rewrite Z.add_0_r, Z.mod_small in Hslot by lia.
  assert (length (pk_data slot) = 1500%nat) as Hsz by exact (Forall_lookup_1 _ _ _ _ Hz Hslot).
  unfold NET_BUFFER_SIZE in *.
  wp_step. eapply wp_arr_get; [lia|exact Hslot|]. rewrite Hv. cbn [negb]. wp_step. rewrite Hl.
  set (m := if n <? _ then _ else _).
  assert (Z.to_nat m = length (take (Z.to_nat n) f) ∧ 0 ≤ m ≤ Z.of_nat (length f)) as [Hm Hm'].
  { subst m. rewrite length_take. destruct (Z.ltb_spec n (Z.of_nat (length f))); lia. }
  apply peek_ok; [lia|lia|]. wp_step. rewrite drop_0.
  assert (take (Z.to_nat m) (pk_data slot) = take (Z.to_nat n) f) as ->.
  { rewrite Hm, <-Hd at 1. rewrite take_take, length_take, Nat.min_l by lia. rewrite <-Hd at 2. by rewrite take_take. }
  apply poke_ok; [lia|rewrite length_take; lia|]. wp_step. split; [f_equal; lia|].
  unfold arr_set. split; cbn; rewrite ?length_insert; try (cbn [length] in *; unfold QUEUE_SIZE; Z.div_mod_to_equations; lia).
  - apply Forall_insert; [done|]. by cbn.
  - intros i g Hi. destruct (Hheld (S i) g Hi) as (sl & Hsl & Hh'). exists sl. split; [|done].
    apply lookup_lt_Some in Hi. cbn [length] in *. rewrite list_lookup_insert_ne.
    + rewrite <-Hsl. do 2 f_equal. unfold QUEUE_SIZE. Z.div_mod_to_equations; lia.
    + unfold QUEUE_SIZE. Z.div_mod_to_equations; lia.
Qed.

(** * Refinement *)

(** What the stack does with the driver, and what it gets back. *)
Inductive event := SendFrame (f : list Z) | ReceiveFrame.
Inductive answer := Sent (e : os_error_t) | Received (f : list Z).
Definition run_event (e : event) : M loopback_t answer :=
  match e with
  | SendFrame f => let! r := loopback_send f (Z.of_nat (length f)) in ret (Sent r)
  | ReceiveFrame =>
      let! r := loopback_receive (replicate (Z.to_nat NET_BUFFER_SIZE) 0) NET_BUFFER_SIZE in
      ret (Received (take (Z.to_nat r.1) r.2))
  end.
Fixpoint run_events (es : list event) : M loopback_t (list answer) :=
  match es with
  | [] => ret []
  | e :: es => let! a := run_event e in let! l := run_events es in ret (a :: l)
  end.

(** The specification: a first-in first-out queue with room for three frames. *)
Definition queue_event (q : list (list Z)) (e : event) : answer * list (list Z) :=
  match e with
  | SendFrame f =>
      if NET_BUFFER_SIZE <? Z.of_nat (length f) then (Sent OS_ERROR_INVALID_PARAM, q)
      else if Z.of_nat (length q) =? 3 then (Sent OS_ERROR_NO_RESOURCE, q)
      else (Sent OS_OK, q ++ [f])
  | ReceiveFrame => match q with [] => (Received [], []) | f :: q => (Received f, q) end
  end.
Fixpoint queue_events (q : list (list Z)) (es : list event) : list answer :=
  match es with
  | [] => []
  | e :: es => let r := queue_event q e in r.1 :: queue_events r.2 es
  end.

Lemma run_event_ok q l e : frames q l →
  wp (run_event e) (λ a l', a = (queue_event q e).1 ∧ frames (queue_event q e).2 l') l.
Proof.
  intros Hf. destruct e as [f|]; cbn [run_event queue_event]; wp_step.
  - eapply wp_mono; [apply (loopback_send_ok q); [done|lia]|]. intros r l' Hr. wp_step.
    rewrite Nat2Z.id, firstn_all in Hr. unfold QUEUE_SIZE in Hr.
    destruct (NET_BUFFER_SIZE <? _); [by destruct Hr as [-> ->]|].
    replace (Z.of_nat (length q) =? 3) with (Z.of_nat (length q) + 1 =? 4)
      by (destruct (Z.eqb_spec (Z.of_nat (length q) + 1) 4), (Z.eqb_spec (Z.of_nat (length q)) 3); lia || done).
    destruct (_ =? 4); [by destruct Hr as [-> ->]|by destruct Hr as [-> ?]].
  - eapply wp_mono; [apply (loopback_receive_ok q); [done|rewrite length_replicate; unfold NET_BUFFER_SIZE; lia]|].
    intros r l' Hr. wp_step. destruct q as [|f q]; [by destruct Hr as [-> ->]|]. destruct Hr as [-> Hl].
    split; [|done]. cbn [fst snd]. f_equal. rewrite Nat2Z.id.
    destruct (fr_held _ _ Hf 0%nat f eq_refl) as (slot & _ & _ & _ & _ & Hlen). unfold NET_BUFFER_SIZE in *.
    rewrite (take_ge f) by lia. apply (slice_put_same 0). rewrite length_replicate. lia.
Qed.

Lemma run_events_ok es : ∀ q l, frames q l → wp (run_events es) (λ rs _, rs = queue_events q es) l.
Proof.
  induction es as [|e es IH]; intros q l Hf; cbn [run_events queue_events]; [done|]. wp_step.
  eapply wp_mono; [by apply run_event_ok|]. intros a l' [-> Hf']. wp_step.
  eapply wp_mono; [by apply IH|]. intros rs l0 ->. done.
Qed.

(** The driver's memory before it was initialised. *)
Definition driver_memory (l : loopback_t) : Prop :=
  length (packet_queue l) = Z.to_nat QUEUE_SIZE ∧
  Forall (λ p, length (pk_data p) = Z.to_nat NET_BUFFER_SIZE) (packet_queue l).

(** C31. The loopback driver, once initialised, behaves as a first-in first-out queue of frames for
    every sequence of sends and receives: a frame of up to 1500 bytes is taken and comes back
    unchanged and in order, a fourth waiting frame is refused with [OS_ERR_NO_RESOURCE], a longer
    one with [OS_ERR_INVALID_PARAM], and an empty queue gives no frame. *)
Theorem loopback_refines_fifo es l : driver_memory l →
  wp (let! _ := loopback_init in run_events es) (λ rs _, rs = queue_events [] es) l.
Proof.
  intros [Hs Hz]. wp_step. eapply wp_mono; [by apply loopback_init_ok|]. intros r l' [_ Hf].
  by apply run_events_ok.
Qed.

Definition blank_loopback : loopback_t := Loopback (replicate 4 (Packet (replicate 1500 0) 0 true)) 3 1.
Lemma loopback_refines_fifo_witness :
  wp (let! _ := loopback_init in run_events [SendFrame [1; 2]; SendFrame [3]; ReceiveFrame; ReceiveFrame; ReceiveFrame])
    (λ rs _, rs = [Sent OS_OK; Sent OS_OK; Received [1; 2]; Received [3]; Received []]) blank_loopback.
Proof.
  apply (loopback_refines_fifo [SendFrame [1; 2]; SendFrame [3]; ReceiveFrame; ReceiveFrame; ReceiveFrame] blank_loopback).
  split; [reflexivity|]. repeat constructor.
Defined.
