(* ===== verification/NetTheorems.v ===== *)
(** NetTheorems: byte order, the internet checksum and IPv4 addresses in text form.

    [net_checksum] is compared with the definition of RFC 1071 (the complement of the one's
    complement sum of the 16-bit words), which gives what a receiver relies on: a message with its
    checksum sums up to zero, and a change of one word shows. *)
From Stdlib Require Import ZArith Lia.
From stdpp Require Import base numbers list gmap.
From S2P Require Import Prelude Types Bytes Net.

(** * Byte order *)
Lemma htons_spec h : 0 ≤ h < 2 ^ 16 → htons h = h mod 256 * 256 + h / 256.
Proof.
  intros Hh. unfold htons. change 0xFF with (2 ^ 8 - 1). rewrite land_ones_mod by lia.
  assert (Z.shiftr (Z.land h 0xFF00) 8 = h / 256) as ->.
  { rewrite Z.shiftr_land, !Z.shiftr_div_pow2 by lia. change (0xFF00 / 2 ^ 8) with (2 ^ 8 - 1).
    rewrite land_ones_mod by lia. apply Z.mod_small. Z.div_mod_to_equations; lia. }
  rewrite lor_shiftl by (try (Z.div_mod_to_equations; lia)). apply u16_small. Z.div_mod_to_equations; lia.
Qed.
Lemma htons_range h : 0 ≤ htons h < 2 ^ 16.
Proof. apply u16_range. Qed.
(** The bytes of [htons h] in memory are those of [h], the high one first. *)
Lemma htons_bytes h : 0 ≤ h < 2 ^ 16 → le_encode 2 (htons h) = [h / 256; h mod 256].
Proof.
  intros Hh. rewrite htons_spec by done. cbn [le_encode]. f_equal; [|f_equal]; Z.div_mod_to_equations; lia.
Qed.
Lemma ntohs_htons h : 0 ≤ h < 2 ^ 16 → ntohs (htons h) = h.
Proof.
  intros Hh. unfold ntohs. rewrite htons_spec by apply htons_range. rewrite htons_spec by done.
  Z.div_mod_to_equations; lia.
Qed.
Lemma htonl_bytes a b c d : bytes_ok [a; b; c; d] → htonl (le_decode [a; b; c; d]) = le_decode [d; c; b; a].
Proof.
  intros Hok. unfold bytes_ok in Hok. rewrite !Forall_cons in Hok. destruct Hok as (Ha & Hb & Hc & Hd & _).
  cbn [le_decode]. set (h := a + _).
  assert (∀ k, 0 ≤ k → Z.land h (Z.shiftl 0xFF k) = (h / 2 ^ k) mod 256 * 2 ^ k) as Hbyte.
  { intros k Hk. rewrite <-Z.shiftl_mul_pow2 by done. change 256 with (2 ^ 8).
    rewrite <-land_ones_mod, <-Z.shiftr_div_pow2 by lia. apply Z.bits_inj'. intros i Hi.
    rewrite Z.land_spec, !Z.shiftl_spec by lia. destruct (decide (i < k)) as [|].
    - rewrite !(Z.testbit_neg_r _ (i - k)) by lia. by rewrite andb_false_r.
    - rewrite Z.land_spec, Z.shiftr_spec by lia. f_equal. f_equal. lia. }
  unfold htonl. change 0x000000FF with (Z.shiftl 0xFF 0). change 0x0000FF00 with (Z.shiftl 0xFF 8).
  change 0x00FF0000 with (Z.shiftl 0xFF 16). change 0xFF000000 with (Z.shiftl 0xFF 24).
  rewrite !Hbyte by lia.
  assert ((h / 2 ^ 0) mod 256 = a) as -> by (subst h; Z.div_mod_to_equations; lia).
  assert ((h / 2 ^ 8) mod 256 = b) as -> by (subst h; Z.div_mod_to_equations; lia).
  assert ((h / 2 ^ 16) mod 256 = c) as -> by (subst h; Z.div_mod_to_equations; lia).
  assert ((h / 2 ^ 24) mod 256 = d) as -> by (subst h; Z.div_mod_to_equations; lia).
  assert (Z.shiftl (a * 2 ^ 0) 24 = Z.shiftl a 24) as -> by (by rewrite Z.mul_1_r).
  assert (Z.shiftl (b * 2 ^ 8) 8 = Z.shiftl b 16) as -> by (rewrite !Z.shiftl_mul_pow2 by lia; lia).
  assert (Z.shiftr (c * 2 ^ 16) 8 = Z.shiftl c 8) as ->
    by (rewrite Z.shiftr_div_pow2, Z.shiftl_mul_pow2 by lia; Z.div_mod_to_equations; lia).
  assert (Z.shiftr (d * 2 ^ 24) 24 = d) as -> by (rewrite Z.shiftr_div_pow2 by lia; Z.div_mod_to_equations; lia).
  assert (Z.lor (Z.shiftl a 24) (Z.shiftl b 16) = Z.shiftl (Z.lor (Z.shiftl a 8) b) 16) as ->
    by (rewrite Z.shiftl_lor, Z.shiftl_shiftl by lia; done).
  rewrite (lor_shiftl 8 a b) by lia.
  assert (Z.lor (Z.shiftl (a * 2 ^ 8 + b) 16) (Z.shiftl c 8) = Z.shiftl (Z.lor (Z.shiftl (a * 2 ^ 8 + b) 8) c) 8) as ->
    by (rewrite Z.shiftl_lor, Z.shiftl_shiftl by lia; done).
  rewrite !lor_shiftl by lia. rewrite u32_small by lia. lia.
Qed.

(** * The checksum *)

(** RFC 1071: the 16-bit words of a message (a last byte alone is the low byte of a word), their
    one's complement sum, and its complement. *)
Fixpoint word_sum (l : list Z) : Z :=
  match l with
  | lo :: hi :: l => le_decode [lo; hi] + word_sum l
  | [b] => b
  | [] => 0
  end.
(** Addition of 16-bit words with end-around carry, on sums of such words. *)
Definition ones_complement (s : Z) : Z := if s =? 0 then 0 else (s - 1) mod 65535 + 1.
Definition internet_checksum (l : list Z) : Z := 65535 - ones_complement (word_sum l).

Lemma bytes_ok_cons a l : bytes_ok (a :: l) ↔ 0 ≤ a < 256 ∧ bytes_ok l.
Proof. unfold bytes_ok. by rewrite Forall_cons. Qed.

(** Lists are taken two elements at a time. *)
Lemma pairs_ind (P : list Z → Prop) : P [] → (∀ b, P [b]) → (∀ a b l, P l → P (a :: b :: l)) → ∀ l, P l.
Proof.
  intros H0 H1 H2 l. enough (P l ∧ ∀ a, P (a :: l)) by tauto.
  induction l as [|a l [IH IH']]; [auto|]. split; [apply IH'|]. intros b. by apply H2.
Qed.

Lemma word_sum_bound l : bytes_ok l → 0 ≤ word_sum l ≤ 32768 * Z.of_nat (length l).
Proof.
  induction l as [|b|a b l IH] using pairs_ind; rewrite ?bytes_ok_cons; cbn [word_sum length le_decode].
  - lia.
  - lia.
  - intros (Ha & Hb & Hl). specialize (IH Hl). lia.
Qed.

Lemma sum_words_spec l : ∀ s, bytes_ok l → 0 ≤ s → s + 32768 * Z.of_nat (length l) < 2 ^ 32 →
  sum_words l s = s + word_sum l.
Proof.
  induction l as [|b|a b l IH] using pairs_ind; intros s; rewrite ?bytes_ok_cons; cbn [sum_words word_sum length].
  - lia.
  - intros [Hb _] ? ?. apply u32_small. lia.
  - intros (Ha & Hb & Hl) ? ?. cbn [le_decode]. rewrite u32_small by lia. rewrite IH by (auto; lia). lia.
Qed.

Lemma ones_complement_range s : 0 ≤ s → 0 ≤ ones_complement s < 2 ^ 16.
Proof. intros. unfold ones_complement. destruct (Z.eqb_spec s 0); [lia|]. Z.div_mod_to_equations; lia. Qed.
Lemma ones_complement_small s : 0 ≤ s < 2 ^ 16 → ones_complement s = s.
Proof. intros. unfold ones_complement. destruct (Z.eqb_spec s 0); [lia|]. Z.div_mod_to_equations; lia. Qed.
Lemma ones_complement_fold s : 0 ≤ s → ones_complement (s mod 65536 + s / 65536) = ones_complement s.
Proof.
  intros. unfold ones_complement. destruct (Z.eqb_spec s 0) as [->|]; [done|].
  destruct (Z.eqb_spec (s mod 65536 + s / 65536) 0); [exfalso; Z.div_mod_to_equations; lia|].
  replace (s - 1) with (s mod 65536 + s / 65536 - 1 + (s / 65536) * 65535) by (Z.div_mod_to_equations; lia).
  by rewrite Z.mod_add.
Qed.

(** The loop ends, and with the one's complement sum. *)
Lemma fold_sum_spec s : 0 ≤ s < 2 ^ 32 → fold_sum 3 s = ones_complement s.
Proof.
  assert (∀ s, 0 ≤ s < 2 ^ 32 →
    Z.shiftr s 16 = s / 65536 ∧ u32 (Z.land s 0xFFFF + Z.shiftr s 16) = s mod 65536 + s / 65536) as Hstep.
  { clear s. intros s Hs. rewrite Z.shiftr_div_pow2 by lia. change 0xFFFF with (2 ^ 16 - 1).
    rewrite land_ones_mod by lia. split; [done|]. apply u32_small. Z.div_mod_to_equations; lia. }
  assert (∀ n s, 0 ≤ s < 2 ^ 16 → fold_sum n s = ones_complement s) as Hend.
  { intros n s' Hs. rewrite ones_complement_small by done.
    destruct n; cbn [fold_sum]; rewrite (proj1 (Hstep s' ltac:(lia))), Z.div_small by lia; done. }
  assert (∀ n s, 0 ≤ s < 2 ^ 32 →
    fold_sum n (s mod 65536 + s / 65536) = ones_complement (s mod 65536 + s / 65536) →
    fold_sum (S n) s = ones_complement s) as Hround.
  { intros n s' Hs IH. cbn [fold_sum]. destruct (Hstep s' Hs) as [E1 E2]. rewrite E2, E1.
    destruct (Z.eqb_spec (s' / 65536) 0) as [E|].
    - rewrite ones_complement_small; [done|]. Z.div_mod_to_equations; lia.
    - rewrite IH. apply ones_complement_fold. lia. }
  intros Hs. apply Hround; [done|].
  assert (0 ≤ s mod 65536 + s / 65536 < 131071) as Hs1 by (Z.div_mod_to_equations; lia).
  apply Hround; [lia|]. apply Hend. Z.div_mod_to_equations; lia.
Qed.

(** The value [net_checksum] computes of the bytes [l]. *)
Definition checksum_of (l : list Z) : Z := u16 (Z.lnot (fold_sum 3 (sum_words l 0))).
Lemma checksum_of_spec l : bytes_ok l → Z.of_nat (length l) < 2 ^ 16 → checksum_of l = internet_checksum l.
Proof.
  intros Hok Hlen. unfold checksum_of, internet_checksum.
  pose proof (word_sum_bound l Hok) as Hb. rewrite sum_words_spec by (done || lia). rewrite Z.add_0_l.
  rewrite fold_sum_spec by lia. pose proof (ones_complement_range (word_sum l) (proj1 Hb)).
  unfold Z.lnot, u16. rewrite <-Z.sub_1_r, <-(Z.mod_add _ 1), Z.mod_small by lia. lia.
Qed.
Lemma checksum_of_range l : 0 ≤ checksum_of l < 2 ^ 16.
Proof. apply u16_range. Qed.
Lemma net_checksum_ok {S} p n (Q : Z → S → Prop) s : 0 ≤ n ≤ Z.of_nat (length p) →
  Q (checksum_of (take (Z.to_nat n) p)) s → wp (net_checksum p n) Q s.
Proof. intros Hn HQ. unfold net_checksum. wp_step. apply peek_ok; [lia|lia|]. by wp_step. Qed.

Lemma word_sum_app l1 l2 : Nat.Even (length l1) → word_sum (l1 ++ l2) = word_sum l1 + word_sum l2.
Proof.
  induction l1 as [|b|a b l1 IH] using pairs_ind; intros He; cbn [app word_sum length] in *.
  - done.
  - by apply Nat.even_spec in He.
  - rewrite IH; [lia|]. by apply Nat.even_spec in He; apply Nat.even_spec.
Qed.
Lemma word_sum_word l1 x l2 : Nat.Even (length l1) → 0 ≤ x < 2 ^ 16 →
  word_sum (l1 ++ le_encode 2 x ++ l2) = word_sum l1 + x + word_sum l2.
Proof.
  intros He Hx. rewrite word_sum_app by done.
  change (le_encode 2 x ++ l2) with (x mod 256 :: (x / 256) mod 256 :: l2). cbn [word_sum le_decode].
  Z.div_mod_to_equations; lia.
Qed.

Lemma ones_complement_self t : 0 ≤ t → 65535 - ones_complement (t + (65535 - ones_complement t)) = 0.
Proof.
  intros Ht. unfold ones_complement. destruct (Z.eqb_spec t 0) as [->|]; [done|].
  destruct (Z.eqb_spec (t + (65535 - ((t - 1) mod 65535 + 1))) 0); Z.div_mod_to_equations; lia.
Qed.
Lemma ones_complement_inj t x y : 0 ≤ t → 0 ≤ x < 2 ^ 16 → 0 ≤ y < 2 ^ 16 →
  65535 - ones_complement (t + y) = 65535 - ones_complement (t + x) →
  x = y ∨ (x = 0 ∧ y = 65535) ∨ (x = 65535 ∧ y = 0).
Proof.
  intros Ht Hx Hy. unfold ones_complement.
  destruct (Z.eqb_spec (t + x) 0), (Z.eqb_spec (t + y) 0); intros Eq; Z.div_mod_to_equations; lia.
Qed.

(** C32. The internet checksum. [net_checksum] of up to 65535 bytes is the checksum of RFC 1071,
    whatever the bytes; a message whose checksum field (a word, zero while the checksum is computed)
    is then filled with it has the checksum 0; and a message in which one 16-bit word was altered has
    another checksum, unless a word 0 became 0xFFFF or the other way round (the two zeros of one's
    complement arithmetic). *)
Theorem net_checksum_rfc1071 {S} (l1 l2 : list Z) (x y : Z) (s : S) :
  let message w := l1 ++ le_encode 2 w ++ l2 in
  let sum w := net_checksum (message w) (Z.of_nat (length (message w))) in
  bytes_ok l1 → bytes_ok l2 → Nat.Even (length l1) → Z.of_nat (length l1 + length l2) + 2 < 2 ^ 16 →
  0 ≤ x < 2 ^ 16 → 0 ≤ y < 2 ^ 16 →
  wp (sum x) (λ c _, c = internet_checksum (message x)) s ∧
  wp (sum 0) (λ c s', wp (sum c) (λ c' _, c' = 0) s') s ∧
  (x ≠ y → {[ x; y ]} ≠ ({[ 0; 0xFFFF ]} : gset Z) →
   wp (sum x) (λ c s', wp (sum y) (λ c' _, c' ≠ c) s') s).
Proof.
  intros message sum H1 H2 He Hlen Hx Hy.
  pose proof (word_sum_bound l1 H1) as B1. pose proof (word_sum_bound l2 H2) as B2.
  set (t := word_sum l1 + word_sum l2).
  assert (∀ w Q, 0 ≤ w < 2 ^ 16 → Q (65535 - ones_complement (t + w)) s → wp (sum w) Q s) as Hsum.
  { intros w Q Hw HQ.
    assert (bytes_ok (message w)) as Hok
      by (unfold message, bytes_ok; rewrite !Forall_app; split; [done|split; [apply le_encode_ok|done]]).
    assert (Z.of_nat (length (message w)) < 2 ^ 16) as Hl
      by (unfold message; rewrite !length_app, le_encode_length; lia).
    apply net_checksum_ok; [lia|]. rewrite Nat2Z.id, firstn_all, checksum_of_spec by done.
    unfold internet_checksum, message. rewrite word_sum_word by done.
    by replace (word_sum l1 + w + word_sum l2) with (t + w) by lia. }
  assert (∀ w, 0 ≤ w → 0 ≤ ones_complement (t + w) < 2 ^ 16) as Hr by (intros; apply ones_complement_range; lia).
  split_and!.
  - apply Hsum; [done|]. unfold internet_checksum, message. rewrite word_sum_word by done. do 2 f_equal. lia.
  - apply Hsum; [lia|]. apply Hsum; [specialize (Hr 0); lia|]. rewrite Z.add_0_r. apply ones_complement_self. lia.
  - intros Hne Hz. apply Hsum; [done|]. apply Hsum; [done|]. intros Eq.
    destruct (ones_complement_inj t x y ltac:(lia) Hx Hy Eq) as [?|[[-> ->]|[-> ->]]]; [done|apply Hz; set_solver..].
Qed.

Lemma net_checksum_rfc1071_witness :
  wp (net_checksum [69; 0; 1; 2; 3] 5) (λ c _, c = internet_checksum [69; 0; 1; 2; 3]) tt ∧
  wp (net_checksum [69; 0; 0; 0; 3] 5)
    (λ c s', wp (net_checksum ([69; 0] ++ le_encode 2 c ++ [3]) 5) (λ c' _, c' = 0) s') tt.
Proof.
  destruct (net_checksum_rfc1071 [69; 0] [3] 513 7 tt) as (H1 & H2 & _);
    [repeat constructor; lia|repeat constructor; lia|by exists 1%nat|cbn; lia|lia|lia|].
  split; [exact H1|exact H2].
Defined.

(** * Addresses in text form *)
Lemma octet_chars_digits v : 0 ≤ v < 256 → Forall (λ c, 48 ≤ c ≤ 57) (octet_chars v).
Proof.
  intros Hv. unfold octet_chars. destruct (Z.leb_spec 100 v); [|destruct (Z.leb_spec 10 v)]; cbn.
  - rewrite orb_true_r. repeat constructor; Z.div_mod_to_equations; lia.
  - repeat constructor; Z.div_mod_to_equations; lia.
  - repeat constructor; lia.
Qed.
(** The digits of an octet are read back, up to a character that is not a digit. *)
Lemma parse_octet {S} v c p (s : S) : 0 ≤ v < 256 → (c < 48 ∨ 57 < c) →
  parse_digits 3 (octet_chars v ++ c :: p) 0 0 s = Ret (v, Z.of_nat (length (octet_chars v)), c :: p) s.
Proof.
  intros Hv Hc.
  assert (∀ n a d, parse_digits n (c :: p) a d s = Ret (a, d, c :: p) s) as Hstop.
  { intros n a d. destruct n; cbn; destruct (Z.leb_spec 48 c), (Z.leb_spec c 57); (exfalso; lia) || done. }
  assert (∀ n x l a d, 0 ≤ x ≤ 9 →
    parse_digits (Datatypes.S n) (48 + x :: l) a d s = parse_digits n l (a * 10 + x) (d + 1) s) as Hdigit.
  { intros n x l a d Hx. cbn. destruct (Z.leb_spec 48 (48 + x)), (Z.leb_spec (48 + x) 57); try (exfalso; lia).
    cbn. do 2 f_equal. lia. }
  unfold octet_chars. destruct (Z.leb_spec 100 v); [|destruct (Z.leb_spec 10 v)]; cbn [orb app].
  - rewrite orb_true_r. cbn [app]. rewrite !Hdigit, Hstop by (Z.div_mod_to_equations; lia).
    do 3 f_equal. Z.div_mod_to_equations; lia.
  - rewrite !Hdigit, Hstop by (Z.div_mod_to_equations; lia). do 3 f_equal. Z.div_mod_to_equations; lia.
  - rewrite Hdigit, Hstop by lia. do 2 f_equal.
Qed.

Lemma parse_octets_spec {S} a b c d p ip (s : S) : bytes_ok [a; b; c; d] →
  parse_octets 4 0 (octet_chars a ++ 46 :: octet_chars b ++ 46 :: octet_chars c ++ 46 :: octet_chars d ++ 0 :: p) ip s =
  Ret (true, IPV4 a b c d) s.
Proof.
  intros Hok. rewrite !bytes_ok_cons in Hok. destruct Hok as (Ha & Hb & Hc & Hd & _).
  assert (∀ v, (Z.of_nat (length (octet_chars v)) =? 0) = false) as Hdigits.
  { intros v. unfold octet_chars. rewrite !length_app. apply Z.eqb_neq. cbn [length]. lia. }
  assert (∀ rounds i v p ip, 0 ≤ v < 256 → (i < 3)%nat →
    parse_octets (Datatypes.S rounds) i (octet_chars v ++ 46 :: p) ip s =
    parse_octets rounds (Datatypes.S i) p (set_octet i v ip) s) as Hround.
  { intros rounds i v p' ip' Hv Hi. cbn [parse_octets]. unfold bind at 1. rewrite parse_octet by lia. cbn [fst snd].
    destruct (Z.ltb_spec 255 v); [lia|]. rewrite Hdigits. cbn [orb]. rewrite u8_small by lia.
    destruct (Nat.ltb_spec i 3); [|lia]. unfold bind at 1, peek.
    rewrite (proj2 (Z.leb_le (0 + 1) _)) by (cbn [length]; lia). done. }
  rewrite !Hround by lia. cbn [parse_octets]. unfold bind at 1. rewrite parse_octet by lia. cbn [fst snd].
  destruct (Z.ltb_spec 255 d); [lia|]. rewrite Hdigits. cbn [orb]. rewrite u8_small by lia.
  destruct (Nat.ltb_spec 3 3); [lia|]. unfold bind at 1, peek.
  rewrite (proj2 (Z.leb_le (0 + 1) _)) by (cbn [length]; lia). done.
Qed.

Lemma put_app_head (l1 l2 src str : list Z) : length l1 = length l2 → put (length l1) src (l2 ++ str) = l2 ++ put 0 src str.
Proof.
  intros E. unfold put. rewrite E, take_app_length, drop_app_ge by lia. by replace (length l2 + length src - length l2)%nat with (length src) by lia.
Qed.
Lemma poke_next {S} (done src rest : list Z) (s : S) : (length src ≤ length rest)%nat →
  poke (done ++ rest) (Z.of_nat (length done)) src s = Ret (done ++ src ++ drop (length src) rest) s.
Proof.
  intros Hl. unfold poke. rewrite (proj2 (Z.leb_le 0 _)), (proj2 (Z.leb_le (_ + _) _)) by (rewrite ?length_app; lia).
  cbn [andb]. unfold ret. f_equal. rewrite Nat2Z.id. by rewrite put_app_head.
Qed.
Lemma octet_chars_length v : 0 ≤ v < 256 → (1 ≤ length (octet_chars v) ≤ 3)%nat.
Proof.
  intros Hv. unfold octet_chars. rewrite !length_app. cbn [length].
  destruct (100 <=? v), (10 <=? _); cbn [orb length]; lia.
Qed.

Fixpoint octets_text (l : list Z) : list Z :=
  match l with
  | [] => [0]
  | v :: l => (octet_chars v ++ (if (0 <? length l)%nat then [46] else [])) ++ octets_text l
  end.
Lemma format_octets_spec {S} str (s : S) l : ∀ done, bytes_ok l →
  (length done + (4 * length l) `max` 1 ≤ length str)%nat →
  format_octets l (done ++ drop (length done) str) (Z.of_nat (length done)) s =
  Ret (done ++ octets_text l ++ drop (length (done ++ octets_text l)) str) s.
Proof.
  induction l as [|v l IH]; intros done Hok Hlen; cbn [format_octets octets_text length] in *.
  { rewrite poke_next by (rewrite length_drop; cbn [length]; lia). by rewrite drop_drop, length_app. }
  rewrite bytes_ok_cons in Hok. destruct Hok as [Hv Hok].
  set (cs := octet_chars v ++ _).
  assert (length cs + (4 * length l) `max` 1 ≤ 4 * (length l + 1))%nat as Hcs.
  { subst cs. rewrite length_app. pose proof (octet_chars_length v Hv). destruct (Nat.ltb_spec 0 (length l)); cbn [length]; lia. }
  unfold bind. rewrite poke_next by (rewrite length_drop; lia).
  rewrite drop_drop, <-length_app, app_assoc, <-Nat2Z.inj_add, <-length_app.
  rewrite IH by (rewrite ?length_app; auto; lia). by rewrite <-!app_assoc.
Qed.

(** IPv4 addresses as text: [net_format_ipv4] into a buffer of at least 16 bytes stays within it
    and leaves a string that [net_parse_ipv4] reads back as the same address, whatever is behind
    it; both return without undefined behaviour. *)
Theorem ipv4_text_roundtrip {S} ip str ip' (s : S) : bytes_ok (ip_bytes ip) → (16 ≤ length str)%nat →
  ∃ str', net_format_ipv4 ip (Some str) s = Ret (Some str') s ∧ length str' = length str ∧
    ∀ rest, net_parse_ipv4 (Some (take 16 str' ++ rest)) (Some ip') s = Ret (true, Some ip) s.
Proof.
  intros Hok Hlen. destruct ip as [a b c d]. set (text := octets_text (ip_bytes (IPV4 a b c d))).
  assert (length text ≤ 16)%nat as Htext.
  { pose proof Hok as Hb. unfold ip_bytes in Hb. rewrite !bytes_ok_cons in Hb. cbn in Hb. destruct Hb as (? & ? & ? & ? & _).
    subst text. cbn [ip_bytes octets_text length Nat.ltb Nat.leb ip0 ip1 ip2 ip3]. rewrite !length_app. cbn [length].
    pose proof (octet_chars_length a). pose proof (octet_chars_length b). pose proof (octet_chars_length c).
    pose proof (octet_chars_length d). lia. }
  exists (text ++ drop (length text) str). split_and!.
  - unfold net_format_ipv4, bind.
    pose proof (format_octets_spec str s (ip_bytes (IPV4 a b c d)) []) as E. cbn [app length drop] in E.
    change (Z.of_nat 0) with 0 in E. rewrite drop_0 in E. rewrite E by (done || cbn; lia). done.
  - rewrite length_app, length_drop. lia.
  - intros rest. rewrite take_app_ge by done. unfold net_parse_ipv4, bind.
    assert (∀ r, text ++ r = octet_chars a ++ 46 :: octet_chars b ++ 46 :: octet_chars c ++ 46 :: octet_chars d ++ 0 :: r) as E.
    { intros r. subst text. cbn [ip_bytes octets_text length Nat.ltb Nat.leb ip0 ip1 ip2 ip3].
      rewrite app_nil_r, <-!app_assoc. done. }
    rewrite <-app_assoc, E, parse_octets_spec by done. done.
Qed.

Lemma ipv4_text_roundtrip_witness :
  ∃ str', net_format_ipv4 (IPV4 192 168 1 20) (Some (replicate 16 7)) tt = Ret (Some str') tt ∧
    length str' = 16%nat ∧ ∀ rest, net_parse_ipv4 (Some (take 16 str' ++ rest)) (Some (IPV4 0 0 0 0)) tt =
      Ret (true, Some (IPV4 192 168 1 20)) tt.
Proof.
  apply (ipv4_text_roundtrip (IPV4 192 168 1 20) (replicate 16 7) (IPV4 0 0 0 0) tt); [|cbn; lia].
  unfold bytes_ok, ip_bytes. cbn. repeat constructor; lia.
Defined.
