(* ===== verification/NetStack.v ===== *)
(** NetStack: what the operations of the network stack do.

    [NetLaws] states what the stack relies on of the kernel while no other task interferes: a mutex
    that the caller does not hold is taken and released again, semaphores count, and none of this
    touches the state of the stack. [calm L] is the state of the kernel in which the caller holds the
    mutexes [L], the last one taken first. [OutDriver] states what the stack relies on of a driver: it
    knows its address, and it takes the frames that are sent, as far as it has room. *)
From Stdlib Require Import ZArith Lia.
From stdpp Require Import base numbers list gmap.
From S2P Require Import Prelude Types Bytes Net NetTheorems.

(** * The kernel and the driver, seen from the stack *)
Definition net_mutex (m : ptr) : Prop := 1 ≤ m ≤ 4.
Definition net_sem (s : ptr) : Prop := s = 5 ∨ 16 ≤ s < 24.

(** Only the kernel has changed, and of the semaphores at most [s], by [d]. *)
Definition kernel_only {K D} (count : ptr → K → Z) (s : ptr) (d : Z) (w w' : net_world K D) : Prop :=
  ∃ k, w' = w <| kern := k |> ∧
    ∀ s', net_sem s' → count s' k = count s' (kern w) + (if bool_decide (s' = s) then d else 0).

Class NetLaws {K D : Type} `{!NetServices K D} (calm : list ptr → K → Prop) (count : ptr → K → Z) := {
  nl_mutex_init m w : net_mutex m → calm [] (kern w) →
    wp (nv_mutex_init m) (λ _ w', kernel_only count 0 0 w w' ∧ calm [] (kern w')) w;
  nl_lock m L w : net_mutex m → m ∉ L → calm L (kern w) →
    wp (nv_mutex_lock m OS_WAIT_FOREVER) (λ _ w', kernel_only count 0 0 w w' ∧ calm (m :: L) (kern w')) w;
  nl_unlock m L w : calm (m :: L) (kern w) →
    wp (nv_mutex_unlock m) (λ _ w', kernel_only count 0 0 w w' ∧ calm L (kern w')) w;
  nl_semaphore_init s n w : net_sem s → calm [] (kern w) →
    wp (nv_semaphore_init s n)
      (λ _ w', kernel_only count s (n - count s (kern w)) w w' ∧ calm [] (kern w')) w;
  nl_semaphore_post s L w : net_sem s → calm L (kern w) → count s (kern w) < 2 ^ 31 - 1 →
    wp (nv_semaphore_post s) (λ r w', r = OS_OK ∧ kernel_only count s 1 w w' ∧ calm L (kern w')) w;
  nl_semaphore_wait s t L w : net_sem s → calm L (kern w) → 0 < count s (kern w) →
    wp (nv_semaphore_wait s t) (λ r w', r = OS_OK ∧ kernel_only count s (-1) w w' ∧ calm L (kern w')) w
}.

(** [queued q δ]: the frames [q] have been handed to the driver and are waiting, the oldest one
    first. *)
Class OutDriver {D : Type} (d : net_driver_t D) (mac : mac_addr_t) (queued : list (list Z) → D → Prop)
    (capacity : nat) := {
  od_mac : ∃ get, drv_get_mac d = Some get ∧ ∀ δ, get δ = Ret mac δ;
  od_mac_ok : bytes_ok (mac_bytes mac);
  od_send : ∃ send, drv_send d = Some send ∧
    ∀ q δ data n, queued q δ → 0 ≤ n ≤ NET_BUFFER_SIZE → n ≤ Z.of_nat (length data) →
      wp (send data n) (λ r δ', ∃ q', queued q' δ' ∧
        ((length q < capacity)%nat → r = OS_OK ∧ q' = q ++ [take (Z.to_nat n) data])) δ
}.

(** * Wire formats *)
Lemma le2_decode x : 0 ≤ x < 2 ^ 16 → x mod 256 + 256 * ((x / 256) mod 256 + 256 * 0) = x.
Proof. intros. Z.div_mod_to_equations; lia. Qed.
Lemma le1_decode x : x + 256 * 0 = x.
Proof. lia. Qed.

(** The header [build_ip_header] makes. *)
Definition plain_header (total_length identification protocol : Z) (src dest : ipv4_addr_t) : ip_header_t :=
  IpHeader 0x45 0 (htons total_length) identification 0 64 protocol 0 src dest.
Definition summed_header (total_length identification protocol : Z) (src dest : ipv4_addr_t) : ip_header_t :=
  let h := plain_header total_length identification protocol src dest in
  h <| ip_checksum := checksum_of (ip_header_bytes h) |>.

Lemma ip_header_length h : length (ip_header_bytes h) = 20%nat.
Proof. done. Qed.
Lemma eth_length h : length (eth_bytes h) = 14%nat.
Proof. done. Qed.
Lemma udp_length_bytes h : length (udp_bytes h) = 8%nat.
Proof. done. Qed.
Lemma arp_length a : length (arp_bytes a) = 28%nat.
Proof. done. Qed.

(** A header is read back from its bytes. *)
Lemma eth_of_bytes dest src type : 0 ≤ type < 2 ^ 16 →
  eth_of (eth_bytes (EthHeader dest src type)) = EthHeader dest src type.
Proof. intros Ht. destruct dest, src. cbv -[Z.add Z.mul Z.div Z.modulo]. by rewrite le2_decode. Qed.

Lemma arp_of_bytes ht pt op smac sip tmac tip : 0 ≤ ht < 2 ^ 16 → 0 ≤ pt < 2 ^ 16 → 0 ≤ op < 2 ^ 16 →
  arp_of (arp_bytes (ArpPacket ht pt 6 4 op smac sip tmac tip)) = ArpPacket ht pt 6 4 op smac sip tmac tip.
Proof.
  intros. destruct smac, sip, tmac, tip. cbv -[Z.add Z.mul Z.div Z.modulo]. rewrite !le2_decode by done. done.
Qed.

Lemma ip_header_of_bytes h : 0 ≤ ip_total_length h < 2 ^ 16 → 0 ≤ ip_identification h < 2 ^ 16 →
  0 ≤ ip_flags_fragment h < 2 ^ 16 → 0 ≤ ip_checksum h < 2 ^ 16 → ip_header_of (ip_header_bytes h) = h.
Proof.
  intros. destruct h as [? ? tl id fl ? ? cs [] []]. cbn in *. cbv -[Z.add Z.mul Z.div Z.modulo].
  rewrite !le2_decode, !le1_decode by done. done.
Qed.

Lemma udp_of_bytes sp dp n cs : 0 ≤ sp < 2 ^ 16 → 0 ≤ dp < 2 ^ 16 → 0 ≤ n < 2 ^ 16 → 0 ≤ cs < 2 ^ 16 →
  udp_of (udp_bytes (UdpHeader sp dp n cs)) = UdpHeader sp dp n cs.
Proof. intros. cbv -[Z.add Z.mul Z.div Z.modulo]. rewrite !le2_decode by done. done. Qed.

(** The checksum field of a header set to 0. *)
Lemma clear_checksum h : put 10 [0; 0] (ip_header_bytes h) = ip_header_bytes (h <| ip_checksum := 0 |>).
Proof. by destruct h as [? ? ? ? ? ? ? ? [] []]. Qed.

(** * Operations *)

(** What sending leaves alone: everything but the kernel, the driver and the statistics. *)
Record output {K D} (w w' : net_world K D) : Prop := {
  out_driver : current_driver w' = current_driver w;
  out_config : current_config w' = current_config w;
  out_arp : arp_cache w' = arp_cache w;
  out_sockets : sockets w' = sockets w;
  out_ping : ping_id w' = ping_id w ∧ ping_sequence w' = ping_sequence w ∧
    ping_reply_received w' = ping_reply_received w ∧ ping_reply_time w' = ping_reply_time w;
  out_port : next_ephemeral_port w' = next_ephemeral_port w;
  out_buffers : buffers w' = buffers w ∧ buffer_free_list w' = buffer_free_list w
}.
#[export] Instance output_preorder {K D} : PreOrder (@output K D).
Proof.
  split; [by split|]. intros w w' w'' [? ? ? ? (? & ? & ? & ?) ? [? ?]] [? ? ? ? (? & ? & ? & ?) ? [? ?]].
  split; try congruence; split_and!; congruence.
Qed.

(** The entry for [ip] that [arp_cache_lookup] finds. *)
Definition arp_find (ip : ipv4_addr_t) (cache : list arp_entry_t) : option mac_addr_t :=
  (λ e, ae_mac e.2) <$> list_find (λ e, ae_valid e && net_ipv4_equal (ae_ip e) ip) cache.

Lemma ipv4_equal_spec a b : net_ipv4_equal a b = bool_decide (a = b).
Proof.
  destruct a as [a0 a1 a2 a3], b as [b0 b1 b2 b3]. unfold net_ipv4_equal. cbn [ip0 ip1 ip2 ip3].
  destruct (Z.eqb_spec a0 b0), (Z.eqb_spec a1 b1), (Z.eqb_spec a2 b2), (Z.eqb_spec a3 b3); cbn [andb];
    symmetry; (apply bool_decide_eq_true_2; congruence) || (apply bool_decide_eq_false_2; congruence).
Qed.

(** An address that was not in the cache is found after it was added. *)
Lemma arp_find_added ip m now n cache : (n < length cache)%nat → arp_find ip cache = None →
  arp_find ip (<[n := ArpEntry ip m now true]> cache) = Some m.
Proof.
  intros Hn Hnone. unfold arp_find in *. apply fmap_None, list_find_None in Hnone.
  assert (list_find (λ e, ae_valid e && net_ipv4_equal (ae_ip e) ip) (<[n := ArpEntry ip m now true]> cache) =
    Some (n, ArpEntry ip m now true)) as ->; [|done].
  apply list_find_Some. split; [by apply list_lookup_insert_eq|]. split.
  - cbn. by rewrite ipv4_equal_spec, bool_decide_eq_true_2.
  - intros j e He Hj. rewrite list_lookup_insert_ne in He by lia. eapply Forall_lookup_1 in Hnone; [|exact He]. done.
Qed.

(** The other addresses are found as before if the overwritten entry was not one of theirs. *)
Lemma arp_find_others ip ip' m now n e cache : cache !! n = Some e → ip' ≠ ip →
  ae_valid e = false ∨ ae_ip e ≠ ip' →
  arp_find ip' (<[n := ArpEntry ip m now true]> cache) = arp_find ip' cache.
Proof.
  intros Hn Hne He. unfold arp_find. revert n Hn. induction cache as [|x cache IH]; intros n Hn; [done|].
  destruct n as [|n]; cbn [insert list_insert].
  - injection Hn as ->. cbn [list_find ae_valid ae_ip]. rewrite !ipv4_equal_spec.
    destruct (decide (true && bool_decide (ip = ip'))) as [H1|_]; [by rewrite bool_decide_eq_false_2 in H1 by done|].
    destruct (decide (ae_valid e && bool_decide (ae_ip e = ip'))) as [H2|_]; [|done].
    exfalso. destruct He as [Hv|Hi]; [by rewrite Hv in H2|]. by rewrite bool_decide_eq_false_2, andb_false_r in H2 by done.
  - cbn [list_find]. destruct (decide _); [done|]. specialize (IH n Hn).
    destruct (list_find _ (<[n:=_]> cache)) as [[]|], (list_find _ cache) as [[]|]; cbn in *; congruence.
Qed.

Section stack.
Context {K D : Type} `{!NetServices K D} {calm : list ptr → K → Prop} {count : ptr → K → Z}.
Context `{!NetLaws calm count}.
Context {d : net_driver_t D} {mac : mac_addr_t} {queued : list (list Z) → D → Prop} {capacity : nat}.
Context `{!OutDriver d mac queued capacity}.
Implicit Types w : net_world K D.

Definition same_counts (k k' : K) : Prop := ∀ s, net_sem s → count s k' = count s k.
#[export] Instance same_counts_preorder : PreOrder same_counts.
Proof. split; [by intros k s|]. intros k k' k'' H1 H2 s Hs. by rewrite H2, H1. Qed.

Lemma kernel_only_same w w' : kernel_only count 0 0 w w' → ∃ k, w' = w <| kern := k |> ∧ same_counts (kern w) k.
Proof.
  intros (k & -> & Hk). exists k. split; [done|]. intros s Hs. cbn. rewrite (Hk s Hs). case_bool_decide; lia.
Qed.
Lemma kernel_only_output s n w w' : kernel_only count s n w w' → output w w' ∧ device w' = device w.
Proof. intros (k & -> & _). split; [|done]. by split. Qed.

(** The driver is in place with the frames [q], and the caller holds the mutexes [L]. *)
Record up (L : list ptr) (q : list (list Z)) w : Prop := {
  up_calm : calm L (kern w);
  up_driver : current_driver w = Some d;
  up_queue : queued q (device w)
}.

Lemma up_kernel L L' q w k : up L q w → calm L' k → up L' q (w <| kern := k |>).
Proof. intros [? ? ?] ?. by split. Qed.

Lemma lock_ok m L w (Q : unit → net_world K D → Prop) : net_mutex m → m ∉ L → calm L (kern w) →
  (∀ k, calm (m :: L) k → same_counts (kern w) k → Q tt (w <| kern := k |>)) → wp (lock m) Q w.
Proof.
  intros Hm HL Hc HQ. unfold lock. rewrite wp_bind. eapply wp_mono; [by apply nl_lock|].
  intros r w' [Hk Hc']. apply kernel_only_same in Hk as (k & -> & Hs). by apply HQ.
Qed.
Lemma unlock_ok m L w (Q : unit → net_world K D → Prop) : calm (m :: L) (kern w) →
  (∀ k, calm L k → same_counts (kern w) k → Q tt (w <| kern := k |>)) → wp (unlock m) Q w.
Proof.
  intros Hc HQ. unfold unlock. rewrite wp_bind. eapply wp_mono; [by eapply nl_unlock|].
  intros r w' [Hk Hc']. apply kernel_only_same in Hk as (k & -> & Hs). by apply HQ.
Qed.

(** ** Address resolution *)
Lemma arp_lookup_ok ip L w (Q : option mac_addr_t → net_world K D → Prop) : arp_mutex ∉ L → calm L (kern w) →
  (∀ k, calm L k → same_counts (kern w) k → Q (arp_find ip (arp_cache w)) (w <| kern := k |>)) →
  wp (arp_cache_lookup ip) Q w.
Proof.
  intros HL Hc HQ. unfold arp_cache_lookup. rewrite wp_bind. apply (lock_ok _ L); [unfold net_mutex, arp_mutex; lia|done..|].
  intros k Hk Hs. rewrite wp_bind, wp_gets, wp_bind. apply (unlock_ok arp_mutex L); [done|]. intros k' Hk' Hs'.
  rewrite wp_ret. apply HQ; [done|]. by transitivity k.
Qed.

(** The slot that [arp_cache_add] overwrites: an invalid entry if there is one, otherwise one with
    the smallest time stamp. *)
Lemma oldest_from_spec l : ∀ i b t, let j := oldest_from l i b t in
  (j = b ∧ (∀ e, e ∈ l → ae_valid e = true ∧ t ≤ ae_timestamp e)) ∨
  (∃ n e, j = i + Z.of_nat n ∧ l !! n = Some e ∧
    ((ae_valid e = false ∧ ∀ m e', (m < n)%nat → l !! m = Some e' → ae_valid e' = true) ∨
     (ae_timestamp e < t ∧ ∀ e', e' ∈ l → ae_valid e' = true ∧ ae_timestamp e ≤ ae_timestamp e'))).
Proof.
  induction l as [|e l IH]; intros i b t; cbn [oldest_from].
  { left. split; [done|]. intros e He. by apply elem_of_nil in He. }
  destruct (ae_valid e) eqn:Ev; cbn [negb].
  2: { right. exists O, e. split; [lia|]. split; [done|]. left. split; [done|]. intros m e' Hm. lia. }
  destruct (Z.ltb_spec (ae_timestamp e) t) as [Hlt|Hge].
  - destruct (IH (i + 1) i (ae_timestamp e)) as [[-> Hall]|(n & e0 & -> & Hn & Hcase)].
    + right. exists O, e. split; [lia|]. split; [done|]. right. split; [done|]. intros e' He.
      apply elem_of_cons in He as [->|He]; [split; [done|lia]|]. by apply Hall.
    + right. exists (S n), e0. split; [lia|]. split; [done|]. destruct Hcase as [[Hv Hb]|[Ht Hall]].
      * left. split; [done|]. intros [|m] e' Hm He; [by simplify_eq/=|]. apply (Hb m); [lia|done].
      * right. split; [lia|]. intros e' He. apply elem_of_cons in He as [->|He]; [split; [done|lia]|]. by apply Hall.
  - destruct (IH (i + 1) b t) as [[-> Hall]|(n & e0 & -> & Hn & Hcase)].
    + left. split; [done|]. intros e' He. apply elem_of_cons in He as [->|He]; [done|]. by apply Hall.
    + right. exists (S n), e0. split; [lia|]. split; [done|]. destruct Hcase as [[Hv Hb]|[Ht Hall]].
      * left. split; [done|]. intros [|m] e' Hm He; [by simplify_eq/=|]. apply (Hb m); [lia|done].
      * right. split; [done|]. intros e' He. apply elem_of_cons in He as [->|He]; [split; [done|lia]|]. by apply Hall.
Qed.

Lemma arp_add_ok ip m L w (Q : unit → net_world K D → Prop) : arp_mutex ∉ L → calm L (kern w) → arp_cache w ≠ [] →
  (∀ k n now e, calm L k → same_counts (kern w) k → arp_cache w !! n = Some e →
    (∀ e', e' ∈ arp_cache w → ae_valid e' = false → ae_valid e = false) →
    (ae_valid e = true → ∀ e', e' ∈ arp_cache w → ae_timestamp e ≤ ae_timestamp e') →
    Q tt (w <| kern := k |> <| arp_cache ::= <[n := ArpEntry ip m now true]> |>)) →
  wp (arp_cache_add ip m) Q w.
Proof.
  intros HL Hc Hne HQ. unfold arp_cache_add. rewrite wp_bind.
  apply (lock_ok _ L); [unfold net_mutex, arp_mutex; lia|done..|]. intros k Hk Hs.
  rewrite wp_bind, wp_gets, wp_bind. cbn [arp_cache set_field].
  assert (∃ first, arp_cache w !! O = Some first) as [first Hfirst] by (destruct (arp_cache w); [done|by eexists]).
  eapply wp_arr_get; [lia|exact Hfirst|]. rewrite wp_bind. unfold ticks. rewrite wp_gets, wp_bind, wp_modify.
  apply (unlock_ok arp_mutex L); [done|]. intros k' Hk' Hs'.
  pose proof (oldest_from_spec (arp_cache w) 0 0 (ae_timestamp first)) as Hspec.
  assert (∃ n e, oldest_from (arp_cache w) 0 0 (ae_timestamp first) = Z.of_nat n ∧ arp_cache w !! n = Some e ∧
    (∀ e', e' ∈ arp_cache w → ae_valid e' = false → ae_valid e = false) ∧
    (ae_valid e = true → ∀ e', e' ∈ arp_cache w → ae_timestamp e ≤ ae_timestamp e')) as (n & e & En & He & Hv & Ht).
  { destruct Hspec as [[-> Hall]|(n & e & -> & He & [[Hv Hb]|[Ht Hall]])].
    - exists O, first. split_and!; [done|done| |by intros _ e' He'; apply Hall].
      intros e' He' Hv. destruct (Hall e' He') as [Hv' _]. congruence.
    - exists n, e. split_and!; [lia|done|done|congruence].
    - exists n, e. split_and!; [lia|done| |by intros _ e' He'; apply Hall].
      intros e' He' Hv. destruct (Hall e' He') as [Hv' _]. congruence. }
  rewrite En. unfold arr_set. rewrite Nat2Z.id.
  apply (HQ k' n (nv_ticks k) e); auto. by transitivity k.
Qed.

(** ** Sending *)

(** The result is [OS_OK] and [frame] is the newest waiting frame if the driver had room; in any case
    the call returns and only the kernel, the driver and the statistics have changed. *)
Definition sends (L : list ptr) (q : list (list Z)) (frame : list Z) w (r : os_error_t) w' : Prop :=
  output w w' ∧ same_counts (kern w) (kern w') ∧
  ∃ q', up L q' w' ∧ ((length q < capacity)%nat → r = OS_OK ∧ q' = q ++ [frame]).

Lemma driver_send_ok L q data n w : up L q w → 0 ≤ n ≤ NET_BUFFER_SIZE → n ≤ Z.of_nat (length data) →
  wp (net_driver_send data n) (sends L q (take (Z.to_nat n) data) w) w.
Proof.
  intros [Hc Hd Hq] Hn Hlen. destruct od_send as (send & Es & Hsend). unfold net_driver_send.
  rewrite wp_bind, wp_gets, Hd. cbn [mbind option_bind]. rewrite Es, wp_bind, wp_zoom.
  eapply wp_mono; [by eapply Hsend|]. intros r δ (q' & Hq' & Hr). rewrite wp_bind.
  case_bool_decide; rewrite wp_modify, wp_ret; (split; [by split|split; [done|]]; exists q'; split; [by split|done]).
Qed.

Lemma get_mac_ok w (Q : option mac_addr_t → net_world K D → Prop) : current_driver w = Some d →
  Q (Some mac) w → wp net_get_mac_addr Q w.
Proof.
  intros Hd HQ. destruct od_mac as (get & Eg & Hget). unfold net_get_mac_addr.
  rewrite wp_bind, wp_gets, Hd. cbn [mbind option_bind]. rewrite Eg, wp_bind, wp_zoom.
  unfold wp at 1. rewrite Hget. rewrite wp_ret. by destruct w.
Qed.

Definition broadcast : mac_addr_t := MAC 0xFF 0xFF 0xFF 0xFF 0xFF 0xFF.
Definition arp_frame (op : Z) (smac : mac_addr_t) (sip : ipv4_addr_t) (dmac tmac : mac_addr_t) (tip : ipv4_addr_t) : list Z :=
  eth_bytes (EthHeader dmac smac (htons ETH_TYPE_ARP)) ++
  arp_bytes (ArpPacket (htons 1) (htons 0x0800) 6 4 (htons op) smac sip tmac tip).

Lemma arp_request_ok L q ip w : up L q w →
  wp (arp_send_request ip)
    (sends L q (arp_frame ARP_OP_REQUEST mac (cfg_ip (current_config w)) broadcast (MAC 0 0 0 0 0 0) ip) w) w.
Proof.
  intros Hup. unfold arp_send_request. rewrite wp_bind. apply get_mac_ok; [apply Hup|].
  rewrite wp_bind. unfold net_get_ip_addr. rewrite wp_gets, wp_bind. cbn [assigned]. rewrite wp_ret.
  by apply (driver_send_ok L q).
Qed.
Lemma arp_reply_ok L q ip m w : up L q w →
  wp (arp_send_reply ip m) (sends L q (arp_frame ARP_OP_REPLY mac (cfg_ip (current_config w)) m m ip) w) w.
Proof.
  intros Hup. unfold arp_send_reply. rewrite wp_bind. apply get_mac_ok; [apply Hup|].
  rewrite wp_bind. unfold net_get_ip_addr. rewrite wp_gets, wp_bind. cbn [assigned]. rewrite wp_ret.
  by apply (driver_send_ok L q).
Qed.

Definition ip_frame (smac dmac : mac_addr_t) (packet : list Z) : list Z :=
  eth_bytes (EthHeader dmac smac (htons ETH_TYPE_IP)) ++ packet.

(** Three cases: the packet is too long, the address is not known and is asked for, the frame is
    sent. *)
Lemma ethernet_send_ok L q ip data n w : up L q w → arp_mutex ∉ L → 0 ≤ n ≤ Z.of_nat (length data) →
  wp (net_ethernet_send_ip ip data n) (λ r w',
    if NET_BUFFER_SIZE - ETH_HEADER_SIZE <? n then r = OS_ERROR_INVALID_PARAM ∧ w' = w
    else match arp_find ip (arp_cache w) with
    | None => r = OS_ERROR_TIMEOUT ∧
        sends L q (arp_frame ARP_OP_REQUEST mac (cfg_ip (current_config w)) broadcast (MAC 0 0 0 0 0 0) ip) w OS_OK w'
    | Some m => sends L q (ip_frame mac m (take (Z.to_nat n) data)) w r w'
    end) w.
Proof.
  intros Hup HL Hn. unfold net_ethernet_send_ip. destruct (Z.ltb_spec (NET_BUFFER_SIZE - ETH_HEADER_SIZE) n) as [|Hlt]; [done|].
  rewrite wp_bind. apply (arp_lookup_ok ip L); [done|apply Hup|]. intros k Hk Hs.
  assert (up L q (w <| kern := k |>)) as Hup' by by eapply up_kernel.
  destruct (arp_find ip (arp_cache w)) as [m|].
  - rewrite wp_bind. apply get_mac_ok; [apply Hup'|]. rewrite wp_bind. cbn [assigned]. rewrite wp_ret, wp_bind.
    apply peek_ok; [lia|lia|]. rewrite drop_0. unfold NET_BUFFER_SIZE, ETH_HEADER_SIZE in *.
    eapply wp_mono; [apply (driver_send_ok L q); [done|unfold NET_BUFFER_SIZE; lia|
      rewrite length_app, length_take, eth_length; lia]|].
    intros r w' (Ho & Hc & q' & Hq' & Hr). split; [by destruct Ho|]. split; [by transitivity k|].
    exists q'. split; [done|]. intros Hcap. destruct (Hr Hcap) as [-> ->]. split; [done|]. do 2 f_equal.
    unfold ip_frame. apply take_ge. rewrite length_app, length_take, eth_length. lia.
  - rewrite wp_bind. eapply wp_mono; [by apply (arp_request_ok L q)|].
    intros r w' (Ho & Hc & q' & Hq' & Hr). rewrite wp_ret. split; [done|]. split; [by destruct Ho|].
    split; [by transitivity k|]. exists q'. split; [done|]. intros Hcap. by destruct (Hr Hcap) as [-> ->].
Qed.

Lemma build_header_ok n id proto src dest w (Q : list Z → net_world K D → Prop) :
  Q (ip_header_bytes (summed_header n id proto src dest)) w → wp (build_ip_header n id proto src dest) Q w.
Proof.
  intros HQ. unfold build_ip_header. rewrite wp_bind. apply net_checksum_ok; [done|]. rewrite wp_ret.
  by rewrite firstn_all2 by done.
Qed.

Definition ip_packet (id proto : Z) (src dest : ipv4_addr_t) (payload : list Z) : list Z :=
  ip_header_bytes (summed_header (IP_HEADER_SIZE + Z.of_nat (length payload)) id proto src dest) ++ payload.

(** With the address in the cache, the packet is sent; the limit is that of the Ethernet layer. *)
Lemma ip_send_ok L q ip proto data n m w : up L q w → arp_mutex ∉ L → 0 ≤ n ≤ Z.of_nat (length data) →
  n ≤ NET_BUFFER_SIZE - IP_HEADER_SIZE - ETH_HEADER_SIZE → arp_find ip (arp_cache w) = Some m →
  wp (net_ip_send ip proto data n)
    (sends L q (ip_frame mac m (ip_packet 0 proto (cfg_ip (current_config w)) ip (take (Z.to_nat n) data))) w) w.
Proof.
  intros Hup HL Hn Hmax Hm. unfold net_ip_send, NET_BUFFER_SIZE, IP_HEADER_SIZE, ETH_HEADER_SIZE in *.
  rewrite (proj2 (Z.ltb_ge _ _)) by lia. rewrite wp_bind. unfold net_get_ip_addr. rewrite wp_gets, wp_bind.
  apply build_header_ok. rewrite wp_bind. apply peek_ok; [lia|lia|]. rewrite drop_0.
  eapply wp_mono; [apply (ethernet_send_ok L q); [done|done|rewrite length_app, ip_header_length, length_take; lia]|].
  intros r w'. unfold NET_BUFFER_SIZE, ETH_HEADER_SIZE. rewrite (proj2 (Z.ltb_ge _ _)) by lia. rewrite Hm.
  rewrite take_ge by (rewrite length_app, ip_header_length, length_take; lia).
  unfold ip_packet, IP_HEADER_SIZE. by rewrite length_take, Nat.min_l, Z2Nat.id by lia.
Qed.

(** Without it, the caller is told to try again, and the address is asked for. *)
Lemma ip_send_unknown L q ip proto data n w : up L q w → arp_mutex ∉ L → 0 ≤ n ≤ Z.of_nat (length data) →
  n ≤ NET_BUFFER_SIZE - IP_HEADER_SIZE - ETH_HEADER_SIZE → arp_find ip (arp_cache w) = None →
  wp (net_ip_send ip proto data n) (λ r w', r = OS_ERROR_TIMEOUT ∧
    sends L q (arp_frame ARP_OP_REQUEST mac (cfg_ip (current_config w)) broadcast (MAC 0 0 0 0 0 0) ip) w OS_OK w') w.
Proof.
  intros Hup HL Hn Hmax Hm. unfold net_ip_send, NET_BUFFER_SIZE, IP_HEADER_SIZE, ETH_HEADER_SIZE in *.
  rewrite (proj2 (Z.ltb_ge _ _)) by lia. rewrite wp_bind. unfold net_get_ip_addr. rewrite wp_gets, wp_bind.
  apply build_header_ok. rewrite wp_bind. apply peek_ok; [lia|lia|]. rewrite drop_0.
  eapply wp_mono; [apply (ethernet_send_ok L q); [done|done|rewrite length_app, ip_header_length, length_take; lia]|].
  intros r w'. unfold NET_BUFFER_SIZE, ETH_HEADER_SIZE. rewrite (proj2 (Z.ltb_ge _ _)) by lia. by rewrite Hm.
Qed.

(** ** Sockets *)
Definition socket_is (i : Z) (s : socket_t) w : Prop := 0 ≤ i < NET_MAX_SOCKETS ∧ sockets w !! Z.to_nat i = Some s.

Lemma socket_at_ok i s w (Q : socket_t → net_world K D → Prop) : socket_is i s w → Q s w → wp (socket_at i) Q w.
Proof. intros [Hi Hs] HQ. unfold socket_at. rewrite wp_bind, wp_gets. eapply wp_arr_get; [lia|done|done]. Qed.
Lemma valid_socket_ok i s w (Q : option socket_t → net_world K D → Prop) : socket_is i s w → so_in_use s = true →
  Q (Some s) w → wp (valid_socket i) Q w.
Proof.
  intros Hs Hu HQ. unfold valid_socket. destruct Hs as [Hi Hs].
  rewrite (proj2 (Z.ltb_ge i 0)), (proj2 (Z.leb_gt NET_MAX_SOCKETS i)) by lia. cbn [orb].
  rewrite wp_bind. eapply socket_at_ok; [by split|]. rewrite wp_ret. by rewrite Hu.
Qed.
Lemma socket_update_ok i s f w (Q : unit → net_world K D → Prop) : socket_is i s w →
  Q tt (w <| sockets ::= <[Z.to_nat i := f s]> |>) → wp (socket_update i f) Q w.
Proof. intros Hs HQ. unfold socket_update. rewrite wp_bind. by eapply socket_at_ok. Qed.

(** A datagram and the packet it travels in. *)
Definition udp_datagram (sport dport : Z) (payload : list Z) : list Z :=
  udp_bytes (UdpHeader (htons sport) (htons dport) (htons (UDP_HEADER_SIZE + Z.of_nat (length payload))) 0) ++ payload.

(** The largest payload a frame has room for. *)
Definition UDP_MAX : Z := 1458.

Lemma sendto_peek (data : list Z) n : 0 ≤ n ≤ Z.of_nat (length data) → Z.of_nat (length (take (Z.to_nat n) data)) = n.
Proof. intros. rewrite length_take. lia. Qed.

Lemma sendto_prefix i s data n a w (Q : Z → net_world K D → Prop) : socket_is i s w → so_in_use s = true →
  so_type s = SOCK_DGRAM → 0 ≤ n ≤ Z.of_nat (length data) → n ≤ UDP_MAX →
  wp (net_ip_send (sa_addr a) 17 (udp_datagram (sa_port (so_local s)) (sa_port a) (take (Z.to_nat n) data)) (8 + n))
    (λ err w', Q (if bool_decide (err = OS_OK) then n else -1) w') w →
  wp (net_sendto i data n (Some a)) Q w.
Proof.
  intros Hs Hu Ht Hn Hmax HQ. unfold net_sendto, UDP_MAX in *. rewrite wp_bind. eapply valid_socket_ok; [done|done|].
  rewrite bool_decide_eq_true_2 by done. cbn [negb]. rewrite wp_bind. cbn [assigned]. rewrite wp_ret, wp_bind. apply peek_ok; [lia|lia|]. rewrite drop_0.
  unfold udp_datagram in HQ. rewrite sendto_peek in HQ by done. unfold UDP_HEADER_SIZE in *.
  rewrite u16_small by lia. rewrite wp_bind. eapply wp_mono; [exact HQ|]. done.
Qed.

(** ** Receiving *)

(** The first bytes of a packet, and what is behind them. *)
Lemma peek_head {S} (l1 l2 : list Z) n (Q : list Z → S → Prop) (s : S) : n = Z.of_nat (length l1) →
  Q l1 s → wp (peek (l1 ++ l2) 0 n) Q s.
Proof.
  intros -> HQ. apply peek_ok; [lia|rewrite length_app; lia|]. rewrite drop_0, Nat2Z.id. by rewrite take_app_length.
Qed.
Lemma advance_head (l1 l2 : list Z) n : n = Z.of_nat (length l1) → advance_ptr (l1 ++ l2) n = l2.
Proof. intros ->. unfold advance_ptr. rewrite Nat2Z.id. apply drop_app_length. Qed.

(** A frame to this host is handed to the layer of its type; [rest] is what follows it in memory. *)
Lemma ethernet_input_ok smac dmac type payload rest w (Q : unit → net_world K D → Prop) :
  current_driver w = Some d → dmac = mac ∨ dmac = broadcast → 0 ≤ type < 2 ^ 16 → Z.of_nat (length payload) < 2 ^ 16 →
  wp (if type =? ETH_TYPE_IP then net_ip_input (payload ++ rest) (Z.of_nat (length payload))
      else if type =? ETH_TYPE_ARP then arp_input (payload ++ rest) (Z.of_nat (length payload)) else ret tt) Q w →
  wp (net_ethernet_input ((eth_bytes (EthHeader dmac smac (htons type)) ++ payload) ++ rest)
    (14 + Z.of_nat (length payload))) Q w.
Proof.
  intros Hd Hdest Htype Hlen HQ. unfold net_ethernet_input. rewrite (proj2 (Z.ltb_ge _ _)) by (unfold ETH_HEADER_SIZE; lia).
  rewrite <-app_assoc, wp_bind. apply peek_head; [done|].
  rewrite eth_of_bytes by apply htons_range. cbn [eth_dest eth_type]. rewrite ntohs_htons by done.
  rewrite (advance_head (eth_bytes _)) by done. rewrite wp_bind. apply get_mac_ok; [done|]. rewrite wp_bind. cbn [assigned].
  rewrite wp_ret. replace (14 + Z.of_nat (length payload) - ETH_HEADER_SIZE) with (Z.of_nat (length payload))
    by (unfold ETH_HEADER_SIZE; lia).
  rewrite u16_small by lia.
  destruct Hdest as [->| ->].
  - rewrite (bool_decide_eq_true_2 (mac = mac)) by done. exact HQ.
  - rewrite (bool_decide_eq_true_2 (broadcast = MAC _ _ _ _ _ _)) by done. by rewrite andb_false_r.
Qed.

(** A packet to this host is handed to the layer of its protocol. *)
Lemma ip_input_ok id proto src payload rest w (Q : unit → net_world K D → Prop) :
  0 ≤ id < 2 ^ 16 → 20 + Z.of_nat (length payload) < 2 ^ 16 →
  wp (if proto =? IP_PROTOCOL_ICMP then icmp_input (payload ++ rest) (Z.of_nat (length payload)) src
      else if proto =? IP_PROTOCOL_UDP then net_udp_input (payload ++ rest) (Z.of_nat (length payload)) src
      else if proto =? IP_PROTOCOL_TCP then net_tcp_input (payload ++ rest) (Z.of_nat (length payload)) src
      else ret tt) Q w →
  wp (net_ip_input (ip_packet id proto src (cfg_ip (current_config w)) payload ++ rest)
    (20 + Z.of_nat (length payload))) Q w.
Proof.
  intros Hid Hlen HQ. unfold net_ip_input, ip_packet, IP_HEADER_SIZE.
  set (n := Z.of_nat (length payload)) in *. set (h := summed_header _ _ _ _ _).
  assert (ip_header_of (ip_header_bytes h) = h) as Hof.
  { apply ip_header_of_bytes; cbn; [apply htons_range|done|lia|apply checksum_of_range]. }
  rewrite (proj2 (Z.ltb_ge _ _)) by lia. rewrite <-app_assoc, wp_bind. apply peek_head; [done|]. rewrite Hof.
  cbn [h summed_header plain_header set_field ip_version_ihl ip_checksum ip_dest ip_total_length ip_protocol ip_src].
  change (Z.shiftr 0x45 4 =? 4) with true. change (u8 (Z.land 0x45 0x0F * 4)) with 20. cbn [negb].
  rewrite (proj2 (Z.ltb_ge 20 20)), (proj2 (Z.ltb_ge _ 20)) by lia. cbn [orb].
  rewrite wp_bind. apply peek_head; [done|]. rewrite clear_checksum, wp_bind. apply net_checksum_ok; [done|].
  rewrite firstn_all2 by done. change (h <| ip_checksum := 0 |>) with (plain_header (20 + n) id proto src (cfg_ip (current_config w))).
  rewrite Z.eqb_refl. cbn [negb]. rewrite wp_bind. unfold net_get_ip_addr. rewrite wp_gets.
  rewrite ipv4_equal_spec, bool_decide_eq_true_2 by done. cbn [negb]. rewrite ntohs_htons by lia.
  rewrite (proj2 (Z.ltb_ge _ _)) by lia. rewrite (advance_head (ip_header_bytes _)) by done.
  replace (20 + n - 20) with n by lia. rewrite u16_small by lia. exact HQ.
Qed.

(** An ARP packet: its sender is added to the cache, and a request for this host's address is
    answered. *)
Lemma arp_input_ok op smac sip tmac tip rest q w (Q : unit → net_world K D → Prop) :
  up [] q w → arp_cache w ≠ [] → 0 ≤ op < 2 ^ 16 →
  (∀ w1 n now e, up [] q w1 → same_counts (kern w) (kern w1) → arp_cache w !! n = Some e →
    (∀ e', e' ∈ arp_cache w → ae_valid e' = false → ae_valid e = false) →
    w1 = w <| kern := kern w1 |> <| arp_cache ::= <[n := ArpEntry sip smac now true]> |> →
    if (op =? ARP_OP_REQUEST) && bool_decide (tip = cfg_ip (current_config w)) then
      ∀ r w2, sends [] q (arp_frame ARP_OP_REPLY mac (cfg_ip (current_config w)) smac smac sip) w1 r w2 → Q tt w2
    else Q tt w1) →
  wp (arp_input (arp_bytes (ArpPacket (htons 1) (htons 0x0800) 6 4 (htons op) smac sip tmac tip) ++ rest) 28) Q w.
Proof.
  intros Hup Hne Hop HQ. unfold arp_input. cbn [Z.ltb]. change (28 <? ARP_PACKET_SIZE) with false. cbv iota.
  rewrite wp_bind. unfold net_get_ip_addr. rewrite wp_gets, wp_bind. apply peek_head; [done|].
  rewrite arp_of_bytes by apply htons_range. cbn [arp_opcode arp_sender_ip arp_sender_mac arp_target_ip].
  rewrite ntohs_htons by done. rewrite wp_bind. apply (arp_add_ok _ _ []); [by apply not_elem_of_nil|apply Hup|done|].
  intros k n now e Hk Hs He Hv _. rewrite ipv4_equal_spec. set (w1 := _ <| arp_cache ::= _ |>).
  assert (up [] q w1) as Hup1 by (destruct Hup; by split).
  specialize (HQ w1 n now e Hup1 Hs He Hv eq_refl). destruct (_ && _); [|by rewrite wp_ret].
  rewrite wp_bind. eapply wp_mono; [by apply (arp_reply_ok [] q)|]. intros r w2 Hw2. rewrite wp_ret. by eapply HQ.
Qed.

(** The socket that a datagram to [port] is for. *)
Definition bound (port : Z) (i : Z) (s : socket_t) w : Prop :=
  0 ≤ i < NET_MAX_SOCKETS ∧ list_find (udp_match port) (sockets w) = Some (Z.to_nat i, s).
Lemma bound_socket port i s w : bound port i s w → socket_is i s w ∧ udp_match port s.
Proof. intros [Hi Hf]. apply list_find_Some in Hf as (Hs & Hm & _). by split. Qed.

Definition received (src : ipv4_addr_t) (sport : Z) (payload : list Z) (s : socket_t) : socket_t :=
  s <| so_rx_buffer ::= put 0 payload |> <| so_rx_length := Z.of_nat (length payload) |>
    <| so_remote := SockAddr src sport |>.

(** A datagram is stored in the socket's buffer, as far as it fits. *)
Lemma udp_input_ok sport dport i s src payload rest w (Q : unit → net_world K D → Prop) :
  bound dport i s w → calm [] (kern w) → count (rx_sem i) (kern w) < 2 ^ 31 - 1 →
  0 ≤ sport < 2 ^ 16 → 0 ≤ dport < 2 ^ 16 → 8 + Z.of_nat (length payload) < 2 ^ 16 →
  (∀ k, calm [] k → count (rx_sem i) k = count (rx_sem i) (kern w) + 1 →
    (∀ s', net_sem s' → s' ≠ rx_sem i → count s' k = count s' (kern w)) →
    Q tt (w <| kern := k |> <| sockets ::= <[Z.to_nat i := received src sport (take (Z.to_nat RX_BUFFER_SIZE) payload) s]> |>)) →
  wp (net_udp_input (udp_datagram sport dport payload ++ rest) (8 + Z.of_nat (length payload)) src) Q w.
Proof.
  intros Hb Hc Hcnt Hsp Hdp Hlen HQ. pose proof (bound_socket _ _ _ _ Hb) as [Hs _]. destruct Hb as [Hi Hf].
  unfold net_udp_input, udp_datagram, UDP_HEADER_SIZE. rewrite (proj2 (Z.ltb_ge _ _)) by lia.
  rewrite <-app_assoc, wp_bind. apply peek_head; [done|].
  rewrite udp_of_bytes by (apply htons_range || lia). cbn [udp_dest_port udp_src_port udp_length].
  rewrite !ntohs_htons by lia. rewrite wp_bind, wp_gets, Hf. rewrite Z2Nat.id by lia.
  replace (8 + Z.of_nat (length payload) - 8) with (Z.of_nat (length payload)) by lia. rewrite u16_small by lia.
  set (n := if _ <? _ then _ else _).
  assert (0 ≤ n ≤ Z.of_nat (length payload) ∧ take (Z.to_nat n) payload = take (Z.to_nat RX_BUFFER_SIZE) payload ∧
    n = Z.of_nat (length (take (Z.to_nat RX_BUFFER_SIZE) payload))) as (Hn & Etake & En).
  { subst n. unfold RX_BUFFER_SIZE. rewrite length_take. destruct (Z.ltb_spec 1024 (Z.of_nat (length payload))).
    - split_and!; [lia..|done|lia].
    - split_and!; [lia..| |lia]. rewrite !take_ge by lia. done. }
  rewrite wp_bind. apply peek_ok; [lia|rewrite length_app, length_app, udp_length_bytes; lia|].
  rewrite (drop_app_length' (udp_bytes _)) by done. rewrite take_app_le by lia. rewrite Etake.
  rewrite wp_bind. eapply socket_update_ok; [done|]. rewrite wp_bind.
  eapply wp_mono; [apply (nl_semaphore_post (rx_sem i) []); [unfold net_sem, rx_sem, NET_MAX_SOCKETS in *; lia|done|done]|].
  intros r w' (_ & (k & -> & Hk) & Hck). rewrite wp_ret. rewrite En. apply (HQ k); [done| |].
  - rewrite (Hk (rx_sem i)) by (unfold net_sem, rx_sem, NET_MAX_SOCKETS in *; lia). by rewrite bool_decide_eq_true_2.
  - intros s' Hs' Hne. rewrite (Hk s' Hs'). rewrite bool_decide_eq_false_2 by done. cbn. lia.
Qed.

(** The bytes that [net_recvfrom] and [net_recv] copy out of a socket's buffer. *)
Lemma copy_received_ok i s payload buffer max w (Q : Z * list Z → net_world K D → Prop) : socket_is i s w →
  so_rx_length s = Z.of_nat (length payload) → take (length payload) (so_rx_buffer s) = payload →
  0 ≤ max ≤ Z.of_nat (length buffer) →
  (let got := take (Z.to_nat max) payload in Q (Z.of_nat (length got), put 0 got buffer) w) →
  wp (copy_received i buffer max) Q w.
Proof.
  intros Hs Hrl Hrb Hmax HQ. unfold copy_received. rewrite wp_bind. eapply (socket_at_ok i s); [done|]. rewrite Hrl.
  set (got := take (Z.to_nat max) payload) in *. set (n := if _ <? _ then _ else _).
  assert (length payload ≤ length (so_rx_buffer s))%nat as Hrb'.
  { rewrite <-Hrb at 1. rewrite length_take. lia. }
  assert (n = Z.of_nat (length got) ∧ 0 ≤ n ≤ Z.of_nat (length payload) ∧ n ≤ max) as (En & Hn & Hnm).
  { subst n got. rewrite length_take. destruct (Z.ltb_spec max (Z.of_nat (length payload))); lia. }
  assert (take (Z.to_nat n) (so_rx_buffer s) = got) as Egot.
  { rewrite En, Nat2Z.id. subst got. rewrite length_take.
    transitivity (take (Z.to_nat max) (take (length payload) (so_rx_buffer s))); [by rewrite take_take|by rewrite Hrb]. }
  rewrite wp_bind. apply peek_ok; [lia|lia|]. rewrite drop_0, Egot, wp_bind. apply poke_ok; [lia|lia|]. rewrite wp_ret.
  rewrite En. exact HQ.
Qed.

(** With a datagram waiting, [net_recvfrom] returns it. *)
Lemma recvfrom_ok i s payload buffer max w (Q : Z * list Z * option sockaddr_in_t → net_world K D → Prop) :
  socket_is i s w → so_in_use s = true → so_type s = SOCK_DGRAM → calm [] (kern w) → 0 < count (rx_sem i) (kern w) →
  so_rx_length s = Z.of_nat (length payload) → take (length payload) (so_rx_buffer s) = payload →
  0 ≤ max ≤ Z.of_nat (length buffer) →
  (∀ k, calm [] k → count (rx_sem i) k = count (rx_sem i) (kern w) - 1 →
    let got := take (Z.to_nat max) payload in
    Q (Z.of_nat (length got), put 0 got buffer, Some (so_remote s))
      (w <| kern := k |> <| sockets ::= <[Z.to_nat i := s <| so_rx_length := 0 |>]> |>)) →
  wp (net_recvfrom i buffer max true) Q w.
Proof.
  intros Hs Hu Ht Hc Hcnt Hrl Hrb Hmax HQ. unfold net_recvfrom. rewrite wp_bind. eapply valid_socket_ok; [done|done|].
  rewrite bool_decide_eq_true_2 by done. cbn [negb]. rewrite wp_bind.
  assert (net_sem (rx_sem i)) as Hsem by (destruct Hs; unfold net_sem, rx_sem, NET_MAX_SOCKETS in *; lia).
  eapply wp_mono; [by apply (nl_semaphore_wait (rx_sem i) _ [])|]. intros r w' (-> & (k & -> & Hk) & Hck).
  rewrite bool_decide_eq_true_2 by done. cbn [negb]. rewrite wp_bind. eapply (copy_received_ok i s payload); [done..|].
  rewrite wp_bind. eapply (socket_at_ok i s); [done|]. rewrite wp_bind. eapply (socket_update_ok i s); [done|]. rewrite wp_ret. cbn [fst snd].
  apply (HQ k); [done|]. rewrite (Hk _ Hsem). rewrite bool_decide_eq_true_2 by done. lia.
Qed.
End stack.
