(* ===== verification/NetDelivery.v ===== *)
(** NetDelivery: two hosts that run the stack.

    Host A and host B have the same kernel services and two drivers, each with its own hardware
    address. A frame that one of them hands to its driver is given to [net_ethernet_input] of the
    other as its network task does, in a buffer with arbitrary bytes behind the frame. *)
From Stdlib Require Import ZArith Lia.
From stdpp Require Import base numbers list gmap.
From S2P Require Import Prelude Types Bytes Net NetTheorems NetStack.

Section hosts.
Context {K D : Type} `{!NetServices K D} {calm : list ptr → K → Prop} {count : ptr → K → Z}.
Context `{!NetLaws calm count}.
Context {dA : net_driver_t D} {macA : mac_addr_t} {queuedA : list (list Z) → D → Prop} {capA : nat}.
Context `{!OutDriver dA macA queuedA capA}.
Context {dB : net_driver_t D} {macB : mac_addr_t} {queuedB : list (list Z) → D → Prop} {capB : nat}.
Context `{!OutDriver dB macB queuedB capB}.

(** The kernel is calm and the frames [q] are waiting in the driver of A, of B. *)
Definition upA (q : list (list Z)) (w : net_world K D) : Prop := up (calm := calm) (d := dA) (queued := queuedA) [] q w.
Definition upB (q : list (list Z)) (w : net_world K D) : Prop := up (calm := calm) (d := dB) (queued := queuedB) [] q w.
Definition ip_of (w : net_world K D) : ipv4_addr_t := cfg_ip (current_config w).

(** What the network task does with a received frame. *)
Definition deliver (frame rest : list Z) : M (net_world K D) unit :=
  net_ethernet_input (frame ++ rest) (Z.of_nat (length frame)).

Lemma deliver_ip_ok {d mac} {queued : list (list Z) → D → Prop} {cap} `{!OutDriver d mac queued cap}
    smac proto src payload rest w (Q : unit → net_world K D → Prop) :
  current_driver w = Some d → 20 + Z.of_nat (length payload) < 2 ^ 16 →
  wp (if proto =? IP_PROTOCOL_ICMP then icmp_input (payload ++ rest) (Z.of_nat (length payload)) src
      else if proto =? IP_PROTOCOL_UDP then net_udp_input (payload ++ rest) (Z.of_nat (length payload)) src
      else if proto =? IP_PROTOCOL_TCP then net_tcp_input (payload ++ rest) (Z.of_nat (length payload)) src
      else ret tt) Q w →
  wp (deliver (ip_frame smac mac (ip_packet 0 proto src (ip_of w) payload)) rest) Q w.
Proof.
  intros Hd Hlen HQ. unfold deliver, ip_frame. set (packet := ip_packet _ _ _ _ _).
  assert (Z.of_nat (length packet) = 20 + Z.of_nat (length payload)) as Hp
    by (subst packet; unfold ip_packet; rewrite length_app, ip_header_length; lia).
  rewrite length_app, eth_length. replace (Z.of_nat (14 + length packet)) with (14 + Z.of_nat (length packet)) by lia.
  apply (ethernet_input_ok (mac := mac)); [done|by left|unfold ETH_TYPE_IP; lia|lia|].
  rewrite Z.eqb_refl, Hp. by apply ip_input_ok; [lia|..].
Qed.

Lemma deliver_arp_ok {d mac} {queued : list (list Z) → D → Prop} {cap} `{!OutDriver d mac queued cap}
    op smac sip dmac tmac tip rest q w (Q : unit → net_world K D → Prop) :
  up (calm := calm) (d := d) (queued := queued) [] q w → dmac = mac ∨ dmac = broadcast → arp_cache w ≠ [] → 0 ≤ op < 2 ^ 16 →
  (∀ w1 n now e, up (calm := calm) (d := d) (queued := queued) [] q w1 →
    same_counts (count := count) (kern w) (kern w1) → arp_cache w !! n = Some e →
    (∀ e', e' ∈ arp_cache w → ae_valid e' = false → ae_valid e = false) →
    w1 = w <| kern := kern w1 |> <| arp_cache ::= <[n := ArpEntry sip smac now true]> |> →
    if (op =? ARP_OP_REQUEST) && bool_decide (tip = ip_of w) then
      ∀ w2 q', output w1 w2 → same_counts (count := count) (kern w1) (kern w2) → up (calm := calm) (d := d) (queued := queued) [] q' w2 →
        ((length q < cap)%nat → q' = q ++ [arp_frame ARP_OP_REPLY mac (ip_of w) smac smac sip]) → Q tt w2
    else Q tt w1) →
  wp (deliver (arp_frame op smac sip dmac tmac tip) rest) Q w.
Proof.
  intros Hup Hdest Hne Hop HQ. unfold deliver, arp_frame. rewrite length_app, eth_length, arp_length.
  apply (ethernet_input_ok (mac := mac)); [apply Hup|done|unfold ETH_TYPE_ARP; lia|rewrite arp_length; lia|].
  change (ETH_TYPE_ARP =? ETH_TYPE_IP) with false. change (ETH_TYPE_ARP =? ETH_TYPE_ARP) with true. cbv iota.
  eapply (arp_input_ok (mac := mac) op smac sip tmac tip rest q); [done..|].
  intros w1 n now e Hup1 Hs1 He Hv Ew. specialize (HQ w1 n now e Hup1 Hs1 He Hv Ew). unfold ip_of in HQ.
  destruct (_ && _); [|done]. intros r w2 (Ho & Hs2 & q' & Hq' & Hr). apply (HQ w2 q'); [done|done|done|].
  intros Hcap. by destruct (Hr Hcap).
Qed.

(** Adding an entry in a free slot changes what is found for no other address. *)
Lemma arp_others_kept ip m now n e cache : cache !! n = Some e →
  (∀ e', e' ∈ cache → ae_valid e' = false → ae_valid e = false) →
  (∃ e', e' ∈ cache ∧ ae_valid e' = false) → ∀ ip', ip' ≠ ip →
  arp_find ip' (<[n := ArpEntry ip m now true]> cache) = arp_find ip' cache.
Proof. intros He Hv (e' & He' & Hf) ip' Hne. eapply arp_find_others; [done|done|]. left. by eapply Hv. Qed.

(** UDP, end to end. Host A knows host B's hardware address and has a datagram socket; B has a
    datagram socket bound to the destination port. [net_sendto] of up to 1458 bytes returns their
    number and hands one frame to A's driver; when B's network task gets that frame, whatever is
    behind it in the receive buffer, [net_recvfrom] on B's socket returns the payload, cut off only
    at the 1024 bytes of the socket's buffer and at the caller's limit, together with A's address and
    port. *)
Theorem udp_end_to_end qA wA i s data n port wB qB j t buffer max rest :
  upA qA wA → (length qA < capA)%nat → arp_find (ip_of wB) (arp_cache wA) = Some macB →
  socket_is i s wA → so_in_use s = true → so_type s = SOCK_DGRAM → 0 ≤ sa_port (so_local s) < 2 ^ 16 →
  0 ≤ n ≤ Z.of_nat (length data) → n ≤ UDP_MAX → 0 ≤ port < 2 ^ 16 →
  upB qB wB → bound port j t wB → length (so_rx_buffer t) = Z.to_nat RX_BUFFER_SIZE →
  0 ≤ count (rx_sem j) (kern wB) < 2 ^ 31 - 1 → 0 ≤ max ≤ Z.of_nat (length buffer) →
  wp (net_sendto i data n (Some (SockAddr (ip_of wB) port)))
    (λ r wA', r = n ∧ ∃ frame, upA (qA ++ [frame]) wA' ∧
      wp (let! _ := deliver frame rest in net_recvfrom j buffer max true)
        (λ r wB', let got := take (Z.to_nat max) (take (Z.to_nat RX_BUFFER_SIZE) (take (Z.to_nat n) data)) in
           r = (Z.of_nat (length got), put 0 got buffer, Some (SockAddr (ip_of wA) (sa_port (so_local s)))))
        wB) wA.
Proof.
  intros HupA Hcap Harp Hs Hu Ht Hsp Hn Hmax Hport HupB Hb Hrx Hcnt Hbuf.
  apply (sendto_prefix i s); [done..|]. unfold UDP_MAX in *. set (dgram := udp_datagram _ _ _).
  assert (Z.of_nat (length dgram) = 8 + n) as Hd
    by (subst dgram; unfold udp_datagram; rewrite length_app, udp_length_bytes, length_take; lia).
  eapply wp_mono; [eapply (ip_send_ok (d := dA) (mac := macA) (queued := queuedA) (capacity := capA) [] qA); [exact HupA|by apply not_elem_of_nil|lia| |exact Harp]|].
  { unfold NET_BUFFER_SIZE, IP_HEADER_SIZE, ETH_HEADER_SIZE. lia. }
  intros r wA' (Ho & _ & q' & Hq' & Hr). destruct (Hr Hcap) as [-> ->]. split; [done|]. eexists. split; [exact Hq'|].
  rewrite take_ge by lia. destruct (bound_socket _ _ _ _ Hb) as [Ht' (Hu' & Hty' & _)].
  rewrite wp_bind. apply (deliver_ip_ok (queued := queuedB) (cap := capB)); [apply HupB|lia|].
  rewrite Hd. cbn [Z.eqb]. change (17 =? IP_PROTOCOL_ICMP) with false. change (17 =? IP_PROTOCOL_UDP) with true. cbv iota.
  replace (8 + n) with (8 + Z.of_nat (length (take (Z.to_nat n) data))) by (rewrite length_take; lia).
  eapply udp_input_ok; [exact Hb|apply HupB|lia|lia|done|rewrite length_take; lia|].
  intros k Hk Hck _. set (payload := take (Z.to_nat RX_BUFFER_SIZE) _). set (t' := received _ _ _ _).
  assert (length payload ≤ 1024)%nat as Hp by (subst payload; unfold RX_BUFFER_SIZE; rewrite length_take; lia).
  eapply (recvfrom_ok j t' payload).
  - destruct Ht' as [Hj Hjt]. split; [done|]. cbn. apply list_lookup_insert_eq. by eapply lookup_lt_Some.
  - done.
  - done.
  - done.
  - cbn. lia.
  - done.
  - cbn. unfold RX_BUFFER_SIZE in *. apply (slice_put_same 0). lia.
  - done.
  - intros k' _ _. done.
Qed.

(** C25. Address resolution between two hosts that do not know each other. A packet to B is not sent;
    the caller gets [OS_ERR_TIMEOUT] and a request is broadcast. B learns A's address from the request
    and answers; A learns B's address from the answer, so that the same call now sends the packet to
    B's hardware address. Each host loses no entry of its cache as long as the cache has a free one. *)
Theorem arp_resolution qA wA qB wB data n rest rest' :
  upA qA wA → upB qB wB → (length qA + 1 < capA)%nat → (length qB < capB)%nat →
  arp_cache wA ≠ [] → arp_cache wB ≠ [] →
  arp_find (ip_of wB) (arp_cache wA) = None → arp_find (ip_of wA) (arp_cache wB) = None →
  0 ≤ n ≤ Z.of_nat (length data) → n ≤ NET_BUFFER_SIZE - ETH_HEADER_SIZE →
  let send := net_ethernet_send_ip (ip_of wB) data n in
  let free w := ∃ e, e ∈ arp_cache w ∧ ae_valid e = false in
  wp send (λ r wA1, r = OS_ERROR_TIMEOUT ∧ ∃ request, upA (qA ++ [request]) wA1 ∧
    wp (deliver request rest) (λ _ wB1, arp_find (ip_of wA) (arp_cache wB1) = Some macA ∧
      (free wB → ∀ ip, ip ≠ ip_of wA → arp_find ip (arp_cache wB1) = arp_find ip (arp_cache wB)) ∧
      ∃ reply, upB (qB ++ [reply]) wB1 ∧
      wp (deliver reply rest') (λ _ wA2,
        (free wA → ∀ ip, ip ≠ ip_of wB → arp_find ip (arp_cache wA2) = arp_find ip (arp_cache wA)) ∧
        wp send (λ r wA3, r = OS_OK ∧
          upA ((qA ++ [request]) ++ [ip_frame macA macB (take (Z.to_nat n) data)]) wA3) wA2) wA1) wB) wA.
Proof.
  intros HupA HupB HcapA HcapB HneA HneB HA HB Hn Hmax send free.
  assert (∀ q w, upA q w → wp send (λ r w', match arp_find (ip_of wB) (arp_cache w) with
    | None => r = OS_ERROR_TIMEOUT ∧ sends (d := dA) (queued := queuedA) (capacity := capA) (calm := calm) (count := count)
        [] q (arp_frame ARP_OP_REQUEST macA (ip_of w) broadcast (MAC 0 0 0 0 0 0) (ip_of wB)) w OS_OK w'
    | Some m => sends (d := dA) (queued := queuedA) (capacity := capA) (calm := calm) (count := count)
        [] q (ip_frame macA m (take (Z.to_nat n) data)) w r w' end) w) as Hsend.
  { intros q w Hw. eapply wp_mono; [apply (ethernet_send_ok (d := dA) (mac := macA) (queued := queuedA) (capacity := capA) [] q);
      [exact Hw|by apply not_elem_of_nil|done]|]. intros r w'. by rewrite (proj2 (Z.ltb_ge _ _)) by lia. }
  eapply wp_mono; [by apply (Hsend qA)|]. rewrite HA. intros r wA1 (-> & Ho & _ & q1 & Hq1 & Hr).
  destruct (Hr ltac:(lia)) as [_ ->]. split; [done|]. eexists. split; [exact Hq1|].
  apply (deliver_arp_ok (d := dB) (mac := macB) (queued := queuedB) (cap := capB) _ _ _ _ _ _ _ qB);
    [done|by right|done|unfold ARP_OP_REQUEST; lia|].
  intros w1 nB now e Hup1 _ He Hv Ew. rewrite (bool_decide_eq_true_2 (ip_of wB = _)) by done.
  change ((ARP_OP_REQUEST =? ARP_OP_REQUEST) && true) with true. cbv iota. intros wB1 q2 Ho2 _ Hq2 Hr2.
  rewrite (Hr2 HcapB) in Hq2. assert (arp_cache wB1 = <[nB := ArpEntry (ip_of wA) macA now true]> (arp_cache wB)) as ->.
  { rewrite (out_arp _ _ Ho2), Ew. done. }
  split; [apply arp_find_added; [by eapply lookup_lt_Some|done]|]. split; [by eapply arp_others_kept|].
  eexists. split; [exact Hq2|]. assert (arp_cache wA1 = arp_cache wA) as EA by apply Ho.
  eapply (deliver_arp_ok (d := dA) (mac := macA) (queued := queuedA) (cap := capA));
    [exact Hq1|by left|by rewrite EA|unfold ARP_OP_REPLY; lia|].
  change (ARP_OP_REPLY =? ARP_OP_REQUEST) with false. cbn [andb]. intros wA2 nA now' e' Hup2 _ He' Hv' Ew'.
  assert (arp_cache wA2 = <[nA := ArpEntry (ip_of wB) macB now' true]> (arp_cache wA)) as EA2 by (rewrite Ew', <-EA; done).
  rewrite EA in He', Hv'. rewrite EA2. split; [by eapply arp_others_kept|].
  eapply wp_mono; [by eapply Hsend|]. rewrite EA2, arp_find_added by (try done; by eapply lookup_lt_Some).
  intros r wA3 (_ & _ & q3 & Hq3 & Hr3). destruct Hr3 as [-> ->]; [rewrite length_app; cbn [length]; lia|]. done.
Qed.
End hosts.
