(* ===== verification/NetBuffers.v ===== *)
(** NetBuffers: the pool of packet buffers of [src/net/network.c] as a stack of free buffers. *)
From Stdlib Require Import ZArith Lia.
From stdpp Require Import base numbers list gmap.
From S2P Require Import Prelude Types Bytes Net NetStack.

(** The free list from [a] on: the addresses [l], each of a buffer that is not in use. *)
Fixpoint chain (m : gmap Z net_buffer_t) (a : ptr) (l : list ptr) : Prop :=
  match l with
  | [] => a = NULL
  | b :: l => a = b ∧ b ≠ NULL ∧ ∃ x, m !! b = Some x ∧ nb_in_use x = false ∧ chain m (nb_next x) l
  end.
(** The addresses of the pool. *)
Definition pool_addresses : list ptr := buffer_pool <$> seqZ 0 NET_MAX_BUFFERS.

Record pool {K D} (free used : list ptr) (w : net_world K D) : Prop := {
  pl_chain : chain (buffers w) (buffer_free_list w) free;
  pl_all : free ++ used ≡ₚ pool_addresses;
  pl_used : ∀ b, b ∈ used → ∃ x, buffers w !! b = Some x ∧ nb_in_use x = true
}.

Lemma chain_insert m a l b x : (b ∉ l) → chain m a l → chain (<[b := x]> m) a l.
Proof.
  revert a. induction l as [|c l IH]; intros a Hb; [done|]. intros (-> & Hn & y & Hy & Hu & Hc).
  rewrite not_elem_of_cons in Hb. split_and!; [done|done|]. exists y. rewrite lookup_insert_ne by naive_solver.
  split_and!; [done|done|]. apply IH; [tauto|done].
Qed.
Lemma pool_nodup {K D} free used (w : net_world K D) : pool free used w → NoDup (free ++ used).
Proof. intros [_ Hp _]. rewrite Hp. by apply (bool_decide_eq_true_1 (NoDup pool_addresses)). Qed.
Lemma pool_not_null {K D} free used (w : net_world K D) b : pool free used w → b ∈ free ++ used → b ≠ NULL.
Proof.
  intros [_ Hp _]. rewrite Hp. unfold pool_addresses. intros (i & -> & Hi%elem_of_seqZ)%list_elem_of_fmap.
  unfold buffer_pool, NULL. lia.
Qed.

Section pool.
Context {K D : Type} `{!NetServices K D} {calm : list ptr → K → Prop} {count : ptr → K → Z}.
Context `{!NetLaws calm count}.
Implicit Types w : net_world K D.

Lemma buffer_update_ok b x f w (Q : unit → net_world K D → Prop) : buffers w !! b = Some x →
  Q tt (w <| buffers ::= <[b := f x]> |>) → wp (buffer_update b f) Q w.
Proof. intros Hb HQ. unfold buffer_update. rewrite wp_bind, wp_gets, Hb. done. Qed.

(** Everything but the kernel and the buffers. *)
Definition stack_same w w' : Prop :=
  w' = w <| kern := kern w' |> <| buffers := buffers w' |> <| buffer_free_list := buffer_free_list w' |>.

Lemma alloc_ok free used w : calm [] (kern w) → pool free used w →
  wp net_buffer_alloc (λ b w', calm [] (kern w') ∧ stack_same w w' ∧
    match free with
    | [] => b = NULL ∧ pool [] used w'
    | a :: free => b = a ∧ pool free (a :: used) w' ∧
        ∃ x, buffers w' !! a = Some x ∧ nb_length x = 0 ∧ nb_offset x = 0 ∧ nb_in_use x = true
    end) w.
Proof.
  intros Hc Hp. pose proof (pool_nodup _ _ _ Hp) as Hnd. destruct Hp as [Hch Hall Hused]. unfold net_buffer_alloc. rewrite wp_bind.
  apply (lock_ok _ []); [unfold net_mutex, buffer_mutex; lia|by apply not_elem_of_nil|done|]. intros k Hk _.
  rewrite wp_bind, wp_gets, wp_bind. cbn [buffer_free_list set_field]. destruct free as [|a free].
  - cbn in Hch. rewrite Hch, Z.eqb_refl, wp_ret, wp_bind. apply (unlock_ok buffer_mutex []); [done|]. intros k' Hk' _.
    rewrite wp_ret. split; [done|]. split; [by destruct w|]. split; [done|]. by split.
  - destruct Hch as (E & Hn & x & Hx & Hu & Hch). rewrite E, (proj2 (Z.eqb_neq _ _)) by done.
    rewrite wp_bind, wp_gets, wp_bind. cbn [buffers set_field]. rewrite Hx. cbn [assigned]. rewrite wp_ret, wp_bind, wp_modify.
    eapply buffer_update_ok; [exact Hx|]. rewrite wp_bind. apply (unlock_ok buffer_mutex []); [done|]. intros k' Hk' _.
    rewrite wp_ret. split; [done|]. split; [by destruct w|]. split; [done|].
    rewrite <-app_comm_cons, NoDup_cons in Hnd. destruct Hnd as [Hni Hnd].
    split; [split|]; cbn [buffers buffer_free_list set_field].
    + apply chain_insert; [set_solver|done].
    + rewrite <-Hall. by rewrite <-Permutation_middle.
    + intros b [->|Hb]%elem_of_cons; [eexists; by rewrite lookup_insert_eq|].
      rewrite lookup_insert_ne by set_solver. by apply Hused.
    + eexists. by rewrite lookup_insert_eq.
Qed.

Lemma free_ok free used b w : calm [] (kern w) → pool free used w → b ∈ used →
  wp (net_buffer_free b) (λ _ w', calm [] (kern w') ∧ stack_same w w' ∧
    ∃ used', used ≡ₚ b :: used' ∧ pool (b :: free) used' w') w.
Proof.
  intros Hc Hp Hb. pose proof (pool_nodup _ _ _ Hp) as Hnd.
  assert (b ≠ NULL) as Hn by (eapply pool_not_null; [done|set_solver]).
  destruct Hp as [Hch Hall Hused]. unfold net_buffer_free. rewrite (proj2 (Z.eqb_neq _ _)) by done. rewrite wp_bind.
  apply (lock_ok _ []); [unfold net_mutex, buffer_mutex; lia|by apply not_elem_of_nil|done|]. intros k Hk _.
  rewrite wp_bind, wp_gets, wp_bind. cbn [buffer_free_list set_field]. destruct (Hused b Hb) as (x & Hx & Hu).
  eapply buffer_update_ok; [exact Hx|]. rewrite wp_bind, wp_modify. apply (unlock_ok buffer_mutex []); [done|]. intros k' Hk' _.
  split; [done|]. split; [by destruct w|]. apply elem_of_Permutation in Hb as [used' Hu']. exists used'. split; [done|].
  rewrite Hu', <-Permutation_middle, NoDup_cons in Hnd. destruct Hnd as [Hni Hnd].
  split; cbn [buffers buffer_free_list set_field].
  - split_and!; [done|done|]. eexists. rewrite lookup_insert_eq. split; [done|]. cbn. split; [done|].
    apply chain_insert; [set_solver|done].
  - rewrite <-Hall, Hu'. by rewrite <-Permutation_middle.
  - intros c Hc'. rewrite lookup_insert_ne by set_solver. apply Hused. rewrite Hu'. set_solver.
Qed.

(** Initialisation links the buffers [i], ..., 7. *)
Lemma pool_init_from_ok n : ∀ i w, i + Z.of_nat n = NET_MAX_BUFFERS → 0 ≤ i →
  (∀ j, 0 ≤ j < NET_MAX_BUFFERS → is_Some (buffers w !! buffer_pool j)) →
  wp (buffer_pool_init_from n i) (λ _ w', w' = w <| buffers := buffers w' |> ∧
    (∀ a, a < buffer_pool i → buffers w' !! a = buffers w !! a) ∧
    (∀ j, 0 ≤ j < NET_MAX_BUFFERS → is_Some (buffers w' !! buffer_pool j)) ∧
    chain (buffers w') (if i <? NET_MAX_BUFFERS then buffer_pool i else NULL) (buffer_pool <$> seqZ i (Z.of_nat n))) w.
Proof.
  induction n as [|n IH]; intros i w Hin Hi Hm.
  - cbn [buffer_pool_init_from]. rewrite wp_ret. split_and!; [by destruct w|done|done|].
    rewrite (proj2 (Z.ltb_ge _ _)) by lia. done.
  - cbn [buffer_pool_init_from]. destruct (Hm i) as [x Hx]; [lia|]. rewrite wp_bind. eapply buffer_update_ok; [done|].
    eapply wp_mono; [apply IH; [lia|lia|]|].
    { intros j Hj. cbn. destruct (decide (j = i)) as [->|]; [rewrite lookup_insert_eq; eauto|].
      rewrite lookup_insert_ne by (unfold buffer_pool; lia). by apply Hm. }
    intros _ w' (E & Hlow & Hall & Hch). cbn [buffers set_field] in Hlow. split; [|split; [|split; [done|]]].
    + rewrite E. by destruct w.
    + intros a Ha. rewrite Hlow by (unfold buffer_pool in *; lia). apply lookup_insert_ne. lia.
    + rewrite (proj2 (Z.ltb_lt _ _)) by lia. rewrite seqZ_cons by lia. cbn [fmap list_fmap chain].
      split; [done|]. split; [unfold buffer_pool, NULL; lia|]. eexists.
      rewrite Hlow, lookup_insert_eq by (unfold buffer_pool; lia). split; [done|]. cbn [nb_in_use nb_next set_field].
      split; [done|]. replace (Z.pred (Z.of_nat (S n))) with (Z.of_nat n) by lia. exact Hch.
Qed.
Lemma pool_init_ok w : calm [] (kern w) → (∀ j, 0 ≤ j < NET_MAX_BUFFERS → is_Some (buffers w !! buffer_pool j)) →
  wp net_buffer_pool_init (λ _ w', calm [] (kern w') ∧ same_counts (count := count) (kern w) (kern w') ∧
    stack_same w w' ∧ pool pool_addresses [] w') w.
Proof.
  intros Hc Hm. unfold net_buffer_pool_init. rewrite wp_bind.
  eapply wp_mono; [apply nl_mutex_init; [unfold net_mutex, buffer_mutex; lia|done]|]. intros _ w1 [Hk Hc1].
  apply kernel_only_same in Hk as (k & -> & Hs). rewrite wp_bind, wp_modify.
  eapply wp_mono; [apply pool_init_from_ok; [done|lia|done]|]. intros _ w' (E & _ & _ & Hch).
  assert (kern w' = k ∧ buffer_free_list w' = buffer_pool 0) as [Ek Ef] by (by rewrite E).
  split; [by rewrite Ek|]. split; [by rewrite Ek|]. split; [rewrite E; by destruct w|].
  split; [by rewrite Ef|by rewrite app_nil_r|]. intros b Hb. by apply not_elem_of_nil in Hb.
Qed.

(** The clients: a sequence of allocations and releases, each of a buffer they hold. *)
Inductive pool_op := Alloc | Free (b : ptr).
Definition run_pool (o : pool_op) : M (net_world K D) (option ptr) :=
  match o with
  | Alloc => let! b := net_buffer_alloc in ret (Some b)
  | Free b => net_buffer_free b ;;; ret None
  end.
Fixpoint run_pools (os : list pool_op) : M (net_world K D) (list (option ptr)) :=
  match os with
  | [] => ret []
  | o :: os => let! r := run_pool o in let! rs := run_pools os in ret (r :: rs)
  end.
End pool.

(** The specification: a stack of free buffers and the set of the buffers in use; [None] when a buffer
    is released that is not in use. *)
Fixpoint stack_run (free used : list ptr) (os : list pool_op) : option (list (option ptr)) :=
  match os with
  | [] => Some []
  | Alloc :: os =>
      match free with
      | [] => cons (Some NULL) <$> stack_run [] used os
      | b :: free => cons (Some b) <$> stack_run free (b :: used) os
      end
  | Free b :: os =>
      if bool_decide (b ∈ used) then cons None <$> stack_run (b :: free) (filter (λ c, c ≠ b) used) os else None
  end.

Lemma pool_used_perm {K D} free used used' (w : net_world K D) : used ≡ₚ used' → pool free used w → pool free used' w.
Proof. intros E [? Hall Hused]. split; [done|by rewrite <-E|]. intros b Hb. apply Hused. by rewrite E. Qed.

Lemma run_pools_ok {K D} `{!NetServices K D} {calm count} `{!NetLaws (K := K) (D := D) calm count} os : ∀ free used rs (w : net_world K D),
  calm [] (kern w) → pool free used w → stack_run free used os = Some rs →
  wp (run_pools os) (λ r w', r = rs ∧ ∃ free' used', pool free' used' w') w.
Proof.
  induction os as [|o os IH]; intros free used rs w Hc Hp Hrun; cbn [run_pools stack_run] in *.
  { injection Hrun as <-. rewrite wp_ret. eauto. }
  rewrite wp_bind. destruct o as [|b]; cbn [run_pool].
  - rewrite wp_bind. eapply wp_mono; [by apply alloc_ok|]. intros b w1 (Hc1 & _ & Hcase). rewrite wp_ret, wp_bind.
    destruct free as [|a free]; apply fmap_Some in Hrun as (rs' & Hrun & ->).
    + destruct Hcase as [-> Hp1]. eapply wp_mono; [by eapply IH|]. intros r w2 [-> Hp2]. rewrite wp_ret. by split.
    + destruct Hcase as (-> & Hp1 & _). eapply wp_mono; [by eapply IH|]. intros r w2 [-> Hp2]. rewrite wp_ret. by split.
  - case_bool_decide as Hb; [|done]. apply fmap_Some in Hrun as (rs' & Hrun & ->).
    rewrite wp_bind. eapply wp_mono; [by apply (free_ok free used)|]. intros [] w1 (Hc1 & _ & used' & Hu & Hp1).
    rewrite wp_ret, wp_bind. pose proof (pool_nodup _ _ _ Hp) as Hnd.
    apply (pool_used_perm _ _ (filter (λ c, c ≠ b) used)) in Hp1.
    + eapply wp_mono; [by eapply IH|]. intros r w2 [-> Hp2]. rewrite wp_ret. by split.
    + rewrite Hu in Hnd |- *. apply NoDup_app in Hnd as (_ & _ & Hnd). apply NoDup_cons in Hnd as [Hni _].
      rewrite filter_cons_False by naive_solver. by rewrite filter_ne_notin.
Qed.

(** The buffer pool behaves as a stack of the eight free buffers: after initialisation, for every
    sequence of allocations and releases in which a client only releases what it holds,
    [net_buffer_alloc] hands out the buffer on top of the stack, or [NULL] once all eight are in use,
    and never a buffer that is in use already. *)
Theorem buffer_pool_refines_stack {K D} `{!NetServices K D} {calm count} `{!NetLaws (K := K) (D := D) calm count}
    os rs (w : net_world K D) :
  calm [] (kern w) → (∀ j, 0 ≤ j < NET_MAX_BUFFERS → is_Some (buffers w !! buffer_pool j)) →
  stack_run pool_addresses [] os = Some rs →
  wp (net_buffer_pool_init ;;; run_pools os)
    (λ r w', r = rs ∧ ∃ free used, pool free used w' ∧ NoDup (free ++ used)) w.
Proof.
  intros Hc Hm Hrun. rewrite wp_bind. eapply wp_mono; [by apply pool_init_ok|]. intros [] w1 (Hc1 & _ & _ & Hp).
  eapply wp_mono; [by eapply run_pools_ok|]. intros r w2 (-> & free & used & Hp2). split; [done|].
  exists free, used. split; [done|]. by eapply pool_nodup.
Qed.
