(* ===== verification/NetLoopback.v ===== *)
(** NetLoopback: the stack on the loopback driver, from [net_init] on.

    The loopback driver is a driver in the sense of [OutDriver] whose waiting frames come back to the
    same host. A datagram sent to the host's own address is followed from the first, unresolved,
    attempt through the ARP exchange to the receiving socket. *)
From Stdlib Require Import ZArith Lia.
From stdpp Require Import base numbers list gmap.
From S2P Require Import Prelude Types Bytes Net Loopback NetTheorems NetStack NetDelivery NetBuffers.

#[export] Instance loopback_out : OutDriver loopback_driver loopback_mac frames 3.
Proof.
  split.
  - by eexists.
  - unfold loopback_mac, mac_bytes. cbn. repeat constructor; lia.
  - eexists. split; [done|]. intros q δ data n Hq Hn Hlen. eapply wp_mono; [apply (loopback_send_ok q); [done|lia]|].
    intros r δ' Hr. rewrite (proj2 (Z.ltb_ge _ _)) in Hr by lia. unfold QUEUE_SIZE in Hr.
    destruct (Z.eqb_spec (Z.of_nat (length q) + 1) 4) as [E|].
    + destruct Hr as [-> ->]. exists q. split; [done|]. lia.
    + destruct Hr as [-> Hf]. eexists. split; [exact Hf|]. done.
Qed.

(** A kernel for the examples: a clock, the mutexes held by the caller and the semaphore counts. Taking
    a mutex twice never returns; a wait that has to block is a timeout. *)
Record host_kernel := HostKernel { hk_ticks : Z; hk_held : list ptr; hk_counts : gmap Z Z }.
#[export] Instance host_kernel_eta : Eta host_kernel := λ k, HostKernel (hk_ticks k) (hk_held k) (hk_counts k).
Definition hk_count (s : ptr) (k : host_kernel) : Z := default 0 (hk_counts k !! s).
Definition hk_calm (L : list ptr) (k : host_kernel) : Prop := hk_held k = L.
Definition hk_add (s : ptr) (n : Z) (k : host_kernel) : host_kernel := k <| hk_counts ::= <[s := hk_count s k + n]> |>.

#[export] Instance host_services D : NetServices host_kernel D := {|
  nv_mutex_init _ := ret tt;
  nv_mutex_lock m _ :=
    let! held := gets (λ w, hk_held (kern w)) in
    if bool_decide (m ∈ held) then nofuel
    else modify (λ w, w <| kern ::= λ k, k <| hk_held ::= cons m |> |>) ;;; ret OS_OK;
  nv_mutex_unlock m :=
    let! held := gets (λ w, hk_held (kern w)) in
    match held with
    | m' :: l =>
        if m' =? m then modify (λ w, w <| kern ::= λ k, k <| hk_held := l |> |>) ;;; ret OS_OK
        else ret OS_ERROR_PERMISSION_DENIED
    | [] => ret OS_ERROR_PERMISSION_DENIED
    end;
  nv_semaphore_init s n := modify (λ w, w <| kern ::= λ k, hk_add s (n - hk_count s k) k |>);
  nv_semaphore_wait s t :=
    let! n := gets (λ w, hk_count s (kern w)) in
    if 0 <? n then modify (λ w, w <| kern ::= hk_add s (-1) |>) ;;; ret OS_OK else ret OS_ERROR_TIMEOUT;
  nv_semaphore_post s := modify (λ w, w <| kern ::= hk_add s 1 |>) ;;; ret OS_OK;
  nv_task_delay n := modify (λ w, w <| kern ::= λ k, k <| hk_ticks ::= λ t, u32 (t + n) |> |>);
  nv_task_create _ := ret OS_OK;
  nv_ticks := hk_ticks
|}.

Lemma hk_add_only {D} s n (w : net_world host_kernel D) : kernel_only hk_count s n w (w <| kern ::= hk_add s n |>).
Proof.
  exists (hk_add s n (kern w)). split; [by destruct w|]. intros s' _. unfold hk_add. cbn. unfold hk_count. cbn.
  case_bool_decide as E; [subst; by rewrite lookup_insert_eq|]. rewrite lookup_insert_ne by done. lia.
Qed.
Lemma hk_held_only {D} s (w : net_world host_kernel D) l :
  kernel_only hk_count s 0 w (w <| kern ::= λ k, k <| hk_held := l |> |>).
Proof. exists (kern w <| hk_held := l |>). split; [by destruct w|]. intros s' _. unfold hk_count. cbn. case_bool_decide; lia. Qed.

#[export] Instance host_laws D : NetLaws (K := host_kernel) (D := D) hk_calm hk_count.
Proof.
  split.
  - intros m w Hm Hc. split; [|done]. exists (kern w). split; [by destruct w|]. intros s _. case_bool_decide; lia.
  - intros m L w Hm HL Hc. cbn [nv_mutex_lock host_services]. rewrite wp_bind, wp_gets, Hc.
    rewrite bool_decide_eq_false_2 by done. rewrite wp_bind, wp_modify, wp_ret. unfold hk_calm in *.
    split; [|cbn; by rewrite Hc]. destruct w. apply hk_held_only.
  - intros m L w Hc. cbn [nv_mutex_unlock host_services]. rewrite wp_bind, wp_gets, Hc, Z.eqb_refl.
    rewrite wp_bind, wp_modify, wp_ret. split; [apply hk_held_only|done].
  - intros s n w Hs Hc. cbn [nv_semaphore_init host_services]. rewrite wp_modify. split; [|done]. destruct w. apply hk_add_only.
  - intros s L w Hs Hc Hn. cbn [nv_semaphore_post host_services]. rewrite wp_bind, wp_modify, wp_ret.
    split; [done|]. split; [apply hk_add_only|done].
  - intros s t L w Hs Hc Hn. cbn [nv_semaphore_wait host_services]. rewrite wp_bind, wp_gets.
    rewrite (proj2 (Z.ltb_lt _ _)) by done. rewrite wp_bind, wp_modify, wp_ret.
    split; [done|]. split; [apply hk_add_only|done].
Qed.

(** * Initialisation *)

(** A loop that applies [f] to the elements from index [i] on, after its first round. *)
Lemma map_from_here {A} (f : A → A) l i x : l !! i = Some x →
  take (S i) (<[i := f x]> l) ++ (f <$> drop (S i) (<[i := f x]> l)) = take i l ++ (f <$> drop i l).
Proof.
  intros Hx. assert (i < length l)%nat as Hi by by eapply lookup_lt_Some.
  rewrite (drop_S l x i Hx), (take_S_r _ _ (f x)) by by apply list_lookup_insert_eq.
  rewrite take_insert_ge, drop_insert_lt by lia. by rewrite <-app_assoc.
Qed.
Section loopback.
Context {K : Type} `{!NetServices K loopback_t} {calm : list ptr → K → Prop} {count : ptr → K → Z}.
Context `{!NetLaws calm count}.
Abbreviation W := (net_world K loopback_t).
Implicit Types w : W.
Abbreviation up_lo := (up (calm := calm) (d := loopback_driver) (queued := frames) []).

(** The memory of the stack before it is initialised: arrays of the sizes that the code declares. *)
Record net_memory w : Prop := {
  nm_calm : calm [] (kern w);
  nm_buffers : ∀ j, 0 ≤ j < NET_MAX_BUFFERS → is_Some (buffers w !! buffer_pool j);
  nm_driver : driver_memory (device w);
  nm_arp : length (arp_cache w) = Z.to_nat ARP_CACHE_SIZE;
  nm_sockets : length (sockets w) = Z.to_nat NET_MAX_SOCKETS;
  nm_rx : Forall (λ s, length (so_rx_buffer s) = Z.to_nat RX_BUFFER_SIZE) (sockets w)
}.
(** The stack after [net_init]. *)
Record initialised (c : net_config_t) w : Prop := {
  in_up : up_lo [] w;
  in_config : current_config w = c;
  in_arp : length (arp_cache w) = Z.to_nat ARP_CACHE_SIZE;
  in_arp_empty : Forall (λ e, ae_valid e = false) (arp_cache w);
  in_sockets : length (sockets w) = Z.to_nat NET_MAX_SOCKETS;
  in_unused : Forall (λ s, so_in_use s = false ∧ length (so_rx_buffer s) = Z.to_nat RX_BUFFER_SIZE) (sockets w);
  in_sems : ∀ i, 0 ≤ i < NET_MAX_SOCKETS → count (rx_sem i) (kern w) = 0
}.

Definition reset_socket (s : socket_t) : socket_t := s <| so_in_use := false |> <| so_rx_length := 0 |>.

Lemma init_sems_ok n : ∀ i w, i + Z.of_nat n = NET_MAX_SOCKETS → 0 ≤ i → calm [] (kern w) →
  length (sockets w) = Z.to_nat NET_MAX_SOCKETS →
  wp (init_sems n i) (λ _ w', calm [] (kern w') ∧
    w' = w <| kern := kern w' |> <| sockets := take (Z.to_nat i) (sockets w) ++ (reset_socket <$> drop (Z.to_nat i) (sockets w)) |> ∧
    ∀ j, 0 ≤ j < NET_MAX_SOCKETS → count (rx_sem j) (kern w') = if j <? i then count (rx_sem j) (kern w) else 0) w.
Proof.
  induction n as [|n IH]; intros i w Hin Hi Hc Hl; cbn [init_sems].
  - rewrite wp_ret. split; [done|]. split.
    + rewrite take_ge, drop_ge by lia. cbn. rewrite app_nil_r. by destruct w.
    + intros j Hj. by rewrite (proj2 (Z.ltb_lt _ _)) by lia.
  - assert (Z.to_nat i < length (sockets w))%nat as Hlt by lia.
    destruct (lookup_lt_is_Some_2 _ _ Hlt) as [s Hs]. rewrite wp_bind.
    eapply (socket_update_ok i s); [by split; [lia|]|]. rewrite wp_bind.
    assert (net_sem (rx_sem i)) as Hsem by (unfold net_sem, rx_sem, NET_MAX_SOCKETS in *; lia).
    eapply wp_mono; [by apply nl_semaphore_init|]. intros _ w1 [(k & -> & Hk) Hck].
    eapply wp_mono; [apply IH; [lia|lia|done|cbn; by rewrite length_insert]|]. intros _ w2 (Hc2 & E & Hcnt).
    split; [done|]. split.
    + rewrite E. cbn. rewrite Z2Nat.inj_add by lia. change (Z.to_nat 1) with 1%nat. rewrite Nat.add_1_r.
      f_equal. by apply (map_from_here reset_socket).
    + intros j Hj. rewrite (Hcnt j Hj). cbn. rewrite Hk by (unfold net_sem, rx_sem, NET_MAX_SOCKETS in *; lia). cbn.
      destruct (Z.ltb_spec j (i + 1)), (Z.ltb_spec j i); try lia.
      * rewrite bool_decide_eq_false_2; [lia|]. unfold rx_sem. lia.
      * replace j with i by lia. rewrite bool_decide_eq_true_2 by done. lia.
Qed.

Lemma net_init_ok c w : net_memory w →
  wp (net_init (Some loopback_driver) (Some c)) (λ r w', r = OS_OK ∧ initialised c w' ∧ pool pool_addresses [] w') w.
Proof.
  intros [Hc Hb [Hdl Hds] Ha Hs Hr]. unfold net_init. rewrite wp_bind.
  eapply wp_mono; [by apply (pool_init_ok (count := count))|]. intros [] w1 (Hc1 & _ & E1 & Hp1). rewrite wp_bind, wp_modify, wp_bind.
  cbn [drv_init loopback_driver]. rewrite wp_zoom. cbn [device set_field].
  assert (device w1 = device w ∧ arp_cache w1 = arp_cache w ∧ sockets w1 = sockets w) as (Ed & Ea & Es) by (by rewrite E1).
  rewrite Ed, Ea, Es. eapply wp_mono; [by apply loopback_init_ok|]. intros r δ [-> Hf].
  rewrite bool_decide_eq_true_2 by done. cbn [negb].
  unfold net_ethernet_init. rewrite !wp_bind. eapply wp_mono; [apply nl_mutex_init; [unfold net_mutex, arp_mutex; lia|done]|].
  intros _ w2 [(k2 & -> & _) Hc2]. rewrite wp_modify. unfold net_ip_init. rewrite wp_bind, wp_modify.
  unfold net_icmp_init. rewrite !wp_bind. eapply wp_mono; [apply nl_mutex_init; [unfold net_mutex, ping_mutex; lia|done]|].
  intros _ w3 [(k3 & -> & _) Hc3]. eapply wp_mono; [apply nl_semaphore_init; [unfold net_sem, ping_sem; lia|done]|].
  intros _ w4 [(k4 & -> & _) Hc4]. unfold net_udp_init. rewrite !wp_bind.
  eapply wp_mono; [apply nl_mutex_init; [unfold net_mutex, socket_mutex; lia|done]|]. intros _ w5 [(k5 & -> & _) Hc5].
  eapply wp_mono; [apply init_sems_ok; [done|lia|done|done]|]. intros [] w6 (Hc6 & E6 & Hcnt). cbn in E6.
  unfold net_tcp_init. rewrite wp_bind, !wp_ret. split; [done|].
  assert (current_driver w6 = Some loopback_driver ∧ device w6 = δ ∧ current_config w6 = c ∧
    arp_cache w6 = (λ e, e <| ae_valid := false |>) <$> arp_cache w ∧ sockets w6 = reset_socket <$> sockets w ∧
    buffers w6 = buffers w1 ∧ buffer_free_list w6 = buffer_free_list w1)
    as (F1 & F2 & F3 & F4 & F5 & F6 & F7) by (by rewrite E6).
  split; [|destruct Hp1; split; [by rewrite F6, F7|done|intros b; rewrite F6; auto]]. split.
  - split; [done|done|by rewrite F2].
  - done.
  - by rewrite F4, length_fmap.
  - rewrite F4. apply Forall_fmap, Forall_true. done.
  - by rewrite F5, length_fmap.
  - rewrite F5. apply Forall_fmap. eapply Forall_impl; [exact Hr|]. done.
  - intros i Hi. rewrite (Hcnt i Hi). by rewrite (proj2 (Z.ltb_ge _ _)) by lia.
Qed.

(** * A datagram to the own address *)
(** The first unused socket is handed out. *)
Lemma net_socket_ok type i s w (Q : Z → W → Prop) : calm [] (kern w) → length (sockets w) = Z.to_nat NET_MAX_SOCKETS →
  list_find (λ s, so_in_use s = false) (sockets w) = Some (i, s) →
  (∀ k now, calm [] k → same_counts (count := count) (kern w) k →
    Q (Z.of_nat i) (w <| kern := k |> <| sockets ::= <[i := fresh_socket type now s]> |>)) →
  wp (net_socket type) Q w.
Proof.
  intros Hc Hl Hf HQ. unfold net_socket. rewrite wp_bind.
  apply (lock_ok _ []); [unfold net_mutex, socket_mutex; lia|by apply not_elem_of_nil|done|]. intros k Hk Hs.
  rewrite wp_bind, wp_gets. cbn [sockets set_field]. rewrite Hf. cbv zeta. rewrite wp_bind. unfold ticks at 1. rewrite wp_gets. cbv beta. rewrite wp_bind.
  apply list_find_Some in Hf as (Hi & _). assert (i < length (sockets w))%nat by by eapply lookup_lt_Some.
  eapply (socket_update_ok _ s); [split; [lia|cbn; by rewrite Nat2Z.id]|]. rewrite wp_bind.
  apply (unlock_ok socket_mutex []); [done|]. intros k' Hk' Hs'. rewrite wp_ret, Nat2Z.id.
  apply HQ; [done|]. by transitivity k.
Qed.

Lemma net_bind_ok i s a w (Q : os_error_t → W → Prop) : socket_is i s w → so_in_use s = true →
  Q OS_OK (w <| sockets ::= <[Z.to_nat i := s <| so_local := a |>]> |>) → wp (net_bind i (Some a)) Q w.
Proof.
  intros Hs Hu HQ. unfold net_bind. rewrite wp_bind. eapply valid_socket_ok; [done|done|]. rewrite wp_bind. cbn [assigned].
  rewrite wp_ret, wp_bind. by eapply socket_update_ok.
Qed.

(** A round of the network task with the frame [f] waiting. *)
Lemma poll_ok f q rx w (Q : list Z → W → Prop) : up_lo (f :: q) w → length rx = Z.to_nat NET_BUFFER_SIZE → (0 < length f)%nat →
  (∀ δ, frames q δ → wp (deliver f (drop (length f) rx))
    (λ _ w', Q (f ++ drop (length f) rx)
      (w' <| net_statistics ::= λ s, s <| eth_rx_packets ::= λ n, u32 (n + 1) |> |>)) (w <| device := δ |>)) →
  wp (network_task_poll rx) Q w.
Proof.
  intros [Hc Hd Hf] Hrx Hpos HQ. unfold network_task_poll. rewrite wp_bind, wp_gets, Hd. cbn [mbind option_bind loopback_driver drv_receive].
  destruct (fr_held _ _ Hf 0%nat f eq_refl) as (slot & _ & _ & _ & _ & Hlen). unfold NET_BUFFER_SIZE in *.
  rewrite wp_bind, wp_zoom. eapply wp_mono; [apply (loopback_receive_ok (f :: q)); [done|lia]|]. intros r δ [-> Hq].
  rewrite (take_ge f) by lia. cbn [fst snd]. rewrite wp_bind. rewrite (proj2 (Z.ltb_lt _ _)) by lia. rewrite wp_bind, u16_small by lia.
  change (put 0 f rx) with (f ++ drop (length f) rx). eapply wp_mono; [by apply HQ|]. intros [] w' Hw. done.
Qed.

(** An entry that is added again with the same address changes nothing. *)
Lemma arp_find_again ip m now n cache : arp_find ip cache = Some m →
  arp_find ip (<[n := ArpEntry ip m now true]> cache) = Some m.
Proof.
  unfold arp_find. revert n. induction cache as [|x cache IH]; intros n Hm; [done|].
  destruct n as [|n]; cbn [insert list_insert list_find].
  - cbn [ae_valid ae_ip]. rewrite ipv4_equal_spec, bool_decide_eq_true_2 by done. done.
  - cbn [list_find] in Hm. destruct (decide _); [done|]. 
    assert (∀ l : list arp_entry_t, (λ e : nat * arp_entry_t, ae_mac e.2) <$> (prod_map S id <$> list_find (λ e, ae_valid e && net_ipv4_equal (ae_ip e) ip) l) =
      ((λ e : nat * arp_entry_t, ae_mac e.2) <$> list_find (λ e, ae_valid e && net_ipv4_equal (ae_ip e) ip) l)) as Hshift
      by (intros l; by destruct (list_find _ l) as [[]|]).
    rewrite Hshift in Hm |- *. by apply IH.
Qed.

Lemma frame_positive smac dmac packet : (0 < length (ip_frame smac dmac packet))%nat.
Proof. unfold ip_frame. rewrite length_app, eth_length. lia. Qed.

(** The frames of the exchange: the request, the reply, the datagram. *)
Lemma poll_arp_ok op smac tmac dmac rx w (Q : list Z → W → Prop) :
  let ip := ip_of w in let f := arp_frame op smac ip dmac tmac ip in
  up_lo [f] w → length rx = Z.to_nat NET_BUFFER_SIZE → dmac = loopback_mac ∨ dmac = broadcast → arp_cache w ≠ [] →
  op = ARP_OP_REQUEST ∨ op = ARP_OP_REPLY →
  (∀ rx' w' n now, length rx' = length rx → up_lo (if op =? ARP_OP_REQUEST then [arp_frame ARP_OP_REPLY loopback_mac ip smac smac ip] else []) w' →
    current_config w' = current_config w → sockets w' = sockets w → (n < length (arp_cache w))%nat →
    arp_cache w' = <[n := ArpEntry ip smac now true]> (arp_cache w) →
    same_counts (count := count) (kern w) (kern w') → Q rx' w') →
  wp (network_task_poll rx) Q w.
Proof.
  intros ip f Hup Hrx Hdest Hne Hop HQ.
  assert (length f = 42%nat) as Hf by done.
  apply (poll_ok f []); [done|done|lia|]. intros δ Hδ.
  assert (length (f ++ drop (length f) rx) = length rx) as Hrx'.
  { unfold NET_BUFFER_SIZE in Hrx. rewrite length_app, length_drop. lia. }
  set (w0 := w <| device := δ |>).
  assert (up_lo [] w0) as Hup0 by (destruct Hup; by split).
  apply (deliver_arp_ok (d := loopback_driver) (mac := loopback_mac) (queued := frames) (cap := 3) (calm := calm) (count := count)
    op smac ip dmac tmac ip _ []); [done|done|done|unfold ARP_OP_REQUEST, ARP_OP_REPLY in *; lia|].
  intros w1 n now e Hup1 Hs1 He _ Ew. rewrite (bool_decide_eq_true_2 (ip = _)) by done.
  assert (n < length (arp_cache w))%nat as Hn by by eapply (lookup_lt_Some (arp_cache w)).
  assert (arp_cache w1 = <[n := ArpEntry ip smac now true]> (arp_cache w) ∧ current_config w1 = current_config w ∧
    sockets w1 = sockets w) as (Ea & Ec & Es) by (by rewrite Ew).
  destruct Hop as [->| ->].
  - change ((ARP_OP_REQUEST =? ARP_OP_REQUEST) && true) with true. cbv iota. intros w2 q' Ho Hs2 Hq' Hr. specialize (Hr ltac:(cbn; lia)).
    apply (HQ _ _ n now); cbn [sockets current_config arp_cache set_field kern]; [done| |..|].
    + rewrite Hr in Hq'. destruct Hq'. by split.
    + by rewrite (out_config _ _ Ho).
    + by rewrite (out_sockets _ _ Ho).
    + done.
    + by rewrite (out_arp _ _ Ho).
    + by transitivity (kern w1).
  - change ((ARP_OP_REPLY =? ARP_OP_REQUEST) && true) with false. cbv iota.
    apply (HQ _ _ n now); cbn [sockets current_config arp_cache set_field kern]; try done. destruct Hup1. by split.
Qed.

(** The stack with one datagram socket, bound to [a]. *)
Record open_socket (c : net_config_t) (a : sockaddr_in_t) w : Prop := {
  os_config : current_config w = c;
  os_arp : arp_cache w ≠ [];
  os_socket : ∃ s ss, sockets w = s :: ss ∧ so_in_use s = true ∧ so_type s = SOCK_DGRAM ∧ so_local s = a ∧
    length (so_rx_buffer s) = Z.to_nat RX_BUFFER_SIZE;
  os_sem : count (rx_sem 0) (kern w) = 0
}.

Lemma open_socket_ok c a w : net_memory w →
  wp (let! _ := net_init (Some loopback_driver) (Some c) in
      let! sock := net_socket SOCK_DGRAM in
      let! _ := net_bind sock (Some a) in ret sock)
    (λ r w', r = 0 ∧ up_lo [] w' ∧ open_socket c a w' ∧ ∀ ip, arp_find ip (arp_cache w') = None) w.
Proof.
  intros Hm. rewrite wp_bind. eapply wp_mono; [by apply net_init_ok|]. intros _ w1 (_ & [Hup Hc Ha Hae Hl Hu Hsem] & _).
  rewrite wp_bind. destruct (sockets w1) as [|s0 ss] eqn:Es; [done|]. apply Forall_cons in Hu as [[Hu0 Hr0] _].
  eapply (net_socket_ok SOCK_DGRAM 0 s0); [apply Hup|by rewrite Es| |].
  { rewrite Es. cbn [list_find]. by rewrite decide_True. }
  intros k now Hk Hcnt. rewrite wp_bind. eapply (net_bind_ok _ (fresh_socket SOCK_DGRAM now s0)).
  { split; [unfold NET_MAX_SOCKETS; cbn; lia|]. cbn [sockets set_field]. by rewrite Es. }
  { done. }
  rewrite wp_ret. split; [done|]. split; [by destruct Hup; split|]. split; [split; [done| | |]|].
  - cbn. intros E. by rewrite E in Ha.
  - eexists _, ss. cbn [sockets set_field]. rewrite Es. split; [done|]. done.
  - cbn. rewrite Hcnt by (unfold net_sem, rx_sem; lia). by apply Hsem.
  - intros ip. cbn. unfold arp_find. apply fmap_None, list_find_None. eapply Forall_impl; [exact Hae|].
    intros e He Hv. cbn in He, Hv. by rewrite He in Hv.
Qed.

Lemma open_socket_is c a w s ss : open_socket c a w → sockets w = s :: ss → socket_is 0 s w.
Proof. intros _ E. split; [unfold NET_MAX_SOCKETS; lia|]. by rewrite E. Qed.

(** What the exchange of ARP frames keeps. *)
Lemma open_socket_keep c a w w' : open_socket c a w → current_config w' = current_config w → arp_cache w' ≠ [] →
  sockets w' = sockets w → same_counts (count := count) (kern w) (kern w') → open_socket c a w'.
Proof.
  intros [Hc Ha Hs Hn] Ec Ea Es Hcnt. split; [congruence|done|by rewrite Es|].
  rewrite Hcnt by (unfold net_sem, rx_sem; lia). done.
Qed.

(** [net_sendto] to the own address. *)
Definition send_self (a : sockaddr_in_t) (data : list Z) (n : Z) : M W Z := net_sendto 0 data n (Some a).

Lemma self_unknown_ok c a data n rx w : let ip := cfg_ip c in
  sa_addr a = ip → up_lo [] w → open_socket c a w → arp_find ip (arp_cache w) = None →
  0 ≤ n ≤ Z.of_nat (length data) → n ≤ UDP_MAX → length rx = Z.to_nat NET_BUFFER_SIZE →
  wp (let! r := send_self a data n in
      let! rx := network_task_poll rx in
      let! rx := network_task_poll rx in ret (r, rx))
    (λ r w', r.1 = -1 ∧ length r.2 = length rx ∧ up_lo [] w' ∧ open_socket c a w' ∧
       arp_find ip (arp_cache w') = Some loopback_mac) w.
Proof.
  intros ip Eip Hup Hos Hnone Hn Hmax Hrx. pose proof Hos as [Hc Ha (s & ss & Es & Hu & Ht & Hl & _) _].
  unfold send_self, UDP_MAX in *. rewrite wp_bind. apply (sendto_prefix 0 s); [by eapply open_socket_is|done|done|done|done|].
  eapply wp_mono; [eapply (ip_send_unknown (d := loopback_driver) (mac := loopback_mac) (queued := frames) (capacity := 3) (count := count) [] []);
    [done|by apply not_elem_of_nil| | |by rewrite Eip]|].
  { unfold udp_datagram. rewrite length_app, udp_length_bytes, length_take. lia. }
  { unfold NET_BUFFER_SIZE, IP_HEADER_SIZE, ETH_HEADER_SIZE. lia. }
  intros r w1 (-> & Ho & Hs1 & q1 & Hq1 & Hr1). destruct (Hr1 ltac:(cbn; lia)) as [_ ->].
  assert (current_config w1 = c ∧ arp_cache w1 = arp_cache w ∧ sockets w1 = sockets w) as (Ec1 & Ea1 & Es1)
    by (destruct Ho; split_and!; congruence).
  rewrite Eip, Hc in Hq1. fold ip in Hq1. assert (ip_of w1 = ip) as Ei1 by (unfold ip_of; by rewrite Ec1).
  rewrite wp_bind. eapply (poll_arp_ok ARP_OP_REQUEST); [rewrite Ei1; exact Hq1|done|by right|by rewrite Ea1|by left|].
  rewrite Ei1, Ea1. intros rx1 w2 n1 now1 Hrx1 Hq2 Ec2 Es2 Hn1 Ea2 Hs2.
  change (ARP_OP_REQUEST =? ARP_OP_REQUEST) with true in Hq2. cbv iota in Hq2.
  assert (ip_of w2 = ip) as Ei2 by (unfold ip_of; by rewrite Ec2, Ec1).
  assert (arp_find ip (arp_cache w2) = Some loopback_mac) as Hf2 by (rewrite Ea2; by apply arp_find_added).
  rewrite wp_bind. eapply (poll_arp_ok ARP_OP_REPLY); [rewrite Ei2; exact Hq2|congruence|by left| |by right|].
  { intros E. by rewrite E in Hf2. }
  rewrite Ei2. intros rx2 w3 n2 now2 Hrx2 Hq3 Ec3 Es3 Hn2 Ea3 Hs3.
  change (ARP_OP_REPLY =? ARP_OP_REQUEST) with false in Hq3. cbv iota in Hq3.
  rewrite wp_ret. cbn [fst snd]. assert (arp_find ip (arp_cache w3) = Some loopback_mac) as Hf3 by (rewrite Ea3; by apply arp_find_again).
  split; [done|]. split; [congruence|]. split; [done|]. split; [|done].
  eapply (open_socket_keep c a w); [done|congruence| |congruence|].
  - intros E. by rewrite E in Hf3.
  - transitivity (kern w1); [done|]. by transitivity (kern w2).
Qed.

Lemma self_known_ok c a data n rx buffer max w : let ip := cfg_ip c in
  sa_addr a = ip → 0 ≤ sa_port a < 2 ^ 16 → up_lo [] w → open_socket c a w → arp_find ip (arp_cache w) = Some loopback_mac →
  0 ≤ n ≤ Z.of_nat (length data) → n ≤ UDP_MAX → length rx = Z.to_nat NET_BUFFER_SIZE → 0 ≤ max ≤ Z.of_nat (length buffer) →
  wp (let! r := send_self a data n in
      let! _ := network_task_poll rx in
      let! got := net_recvfrom 0 buffer max true in ret (r, got))
    (λ r _, let got := take (Z.to_nat max) (take (Z.to_nat RX_BUFFER_SIZE) (take (Z.to_nat n) data)) in
       r = (n, (Z.of_nat (length got), put 0 got buffer, Some a))) w.
Proof.
  intros ip Eip Hport Hup Hos Hm Hn Hmax Hrx Hbuf. pose proof Hos as [Hc Ha (s & ss & Es & Hu & Ht & Hl & Hrb) Hsem].
  unfold send_self, UDP_MAX in *. rewrite wp_bind. apply (sendto_prefix 0 s); [by eapply open_socket_is|done|done|done|done|].
  set (dgram := udp_datagram _ _ _).
  assert (Z.of_nat (length dgram) = 8 + n) as Hd
    by (subst dgram; unfold udp_datagram; rewrite length_app, udp_length_bytes, length_take; lia).
  eapply wp_mono; [eapply (ip_send_ok (d := loopback_driver) (mac := loopback_mac) (queued := frames) (capacity := 3) (count := count) [] []);
    [done|by apply not_elem_of_nil|lia| |rewrite Eip; exact Hm]|].
  { unfold NET_BUFFER_SIZE, IP_HEADER_SIZE, ETH_HEADER_SIZE. lia. }
  intros r w1 (Ho & Hs1 & q1 & Hq1 & Hr1). destruct (Hr1 ltac:(cbn; lia)) as [-> ->]. rewrite bool_decide_eq_true_2 by done.
  assert (current_config w1 = c ∧ sockets w1 = sockets w) as (Ec1 & Es1) by (destruct Ho; split; congruence).
  rewrite take_ge in Hq1 by lia. rewrite Eip, Hc in Hq1. fold ip in Hq1.
  rewrite wp_bind. eapply (poll_ok _ []); [exact Hq1|done|apply frame_positive|]. intros δ Hδ.
  replace ip with (ip_of (w1 <| device := δ |>)) by (unfold ip_of; cbn; by rewrite Ec1).
  apply (deliver_ip_ok (d := loopback_driver) (mac := loopback_mac) (queued := frames) (cap := 3)); [apply Hq1|lia|].
  change (17 =? IP_PROTOCOL_ICMP) with false. change (17 =? IP_PROTOCOL_UDP) with true. cbv iota. rewrite Hd.
  replace (8 + n) with (8 + Z.of_nat (length (take (Z.to_nat n) data))) by (rewrite length_take; lia). subst dgram.
  assert (count (rx_sem 0) (kern w1) = 0) as Hsem1 by (rewrite Hs1 by (unfold net_sem, rx_sem; lia); done).
  eapply (udp_input_ok (calm := calm) (count := count) _ _ 0 s).
  { split; [unfold NET_MAX_SOCKETS; lia|]. cbn [sockets set_field]. rewrite Es1, Es. cbn [list_find].
    rewrite decide_True; [done|]. unfold udp_match. by rewrite Hl. }
  { apply Hq1. }
  { cbn. rewrite Hsem1. lia. }
  { rewrite Hl. done. }
  { done. }
  { rewrite length_take. lia. }
  intros k Hk Hck _. set (payload := take (Z.to_nat RX_BUFFER_SIZE) _). set (t' := received _ _ _ _). cbn in Hck.
  assert (length payload ≤ 1024)%nat as Hp by (subst payload; unfold RX_BUFFER_SIZE; rewrite length_take; lia).
  rewrite wp_bind. eapply (recvfrom_ok (calm := calm) (count := count) 0 t' payload).
  - split; [unfold NET_MAX_SOCKETS; lia|]. cbn [sockets set_field]. by rewrite Es1, Es.
  - done.
  - done.
  - done.
  - cbn. lia.
  - done.
  - cbn. unfold RX_BUFFER_SIZE in *. apply (slice_put_same 0). lia.
  - done.
  - intros k' _ _. rewrite wp_ret. cbv zeta. f_equal. f_equal. cbn [t' received so_remote set_field].
    unfold ip_of. cbn. rewrite Ec1, Hl. destruct a as [aa ap]. cbn in *. by rewrite Eip.
Qed.

(** The program of the goal starts with the step that the program of [H] starts with. *)
Ltac same_step H x w :=
  rewrite wp_bind in H; rewrite wp_bind; eapply wp_mono; [exact H|]; clear H; intros x w H; cbv beta in H.

(** The whole stack, from [net_init] on, on the loopback driver: a datagram of up to 1458 bytes sent
    to the host's own address. The first [net_sendto] fails, as the address is not resolved; two
    rounds of the network task exchange the ARP request and reply; the second [net_sendto] returns
    the number of bytes, a third round delivers the datagram, and [net_recvfrom] returns its bytes
    (the first 1024 of them, as far as the caller's buffer has room) and the sender. *)
Theorem udp_over_loopback c a data n buffer max rx w :
  net_memory w → length rx = Z.to_nat NET_BUFFER_SIZE → sa_addr a = cfg_ip c → 0 ≤ sa_port a < 2 ^ 16 →
  0 ≤ n ≤ Z.of_nat (length data) → n ≤ UDP_MAX → 0 ≤ max ≤ Z.of_nat (length buffer) →
  wp (let! _ := net_init (Some loopback_driver) (Some c) in
      let! sock := net_socket SOCK_DGRAM in
      let! _ := net_bind sock (Some a) in
      let! r0 := net_sendto sock data n (Some a) in
      let! rx := network_task_poll rx in
      let! rx := network_task_poll rx in
      let! r1 := net_sendto sock data n (Some a) in
      let! _ := network_task_poll rx in
      let! got := net_recvfrom sock buffer max true in
      ret (r0, r1, got))
    (λ r _, let got := take (Z.to_nat max) (take (Z.to_nat RX_BUFFER_SIZE) (take (Z.to_nat n) data)) in
       r = (-1, n, (Z.of_nat (length got), put 0 got buffer, Some a))) w.
Proof.
  intros Hm Hrx Ea Hp Hn Hmax Hbuf. pose proof (open_socket_ok c a w Hm) as H.
  same_step H e0 w0. same_step H sock w1. same_step H e2 w2. rewrite wp_ret in H. destruct H as (-> & Hup & Hos & Hnone).
  pose proof (self_unknown_ok c a data n rx w2 Ea Hup Hos (Hnone _) Hn Hmax Hrx) as H. unfold send_self in H.
  same_step H r0 w3. same_step H rx1 w4. same_step H rx2 w5. rewrite wp_ret in H. cbn [fst snd] in H.
  destruct H as (-> & Hrx2 & Hup5 & Hos5 & Hf5).
  pose proof (self_known_ok c a data n rx2 buffer max w5 Ea Hp Hup5 Hos5 Hf5 Hn Hmax ltac:(congruence) Hbuf) as H.
  unfold send_self in H. same_step H r1 w6. same_step H rx3 w7. same_step H got w8.
  rewrite wp_ret in H. rewrite wp_ret. by injection H as -> ->.
Qed.
End loopback.

(** * Examples *)
Definition ip_a : ipv4_addr_t := IPV4 10 0 0 1.
Definition ip_b : ipv4_addr_t := IPV4 10 0 0 2.
Definition config_of (ip : ipv4_addr_t) : net_config_t :=
  NetConfig loopback_mac ip (IPV4 255 255 255 0) (IPV4 10 0 0 254) (IPV4 10 0 0 254).
Definition blank_buffer : net_buffer_t := NetBuffer [] 0 0 NULL false.
Definition blank_buffers : gmap Z net_buffer_t := list_to_map ((λ a, (a, blank_buffer)) <$> pool_addresses).
Definition blank_entry : arp_entry_t := ArpEntry ip_a loopback_mac 0 false.
Definition blank_socket : socket_t :=
  Socket SOCK_DGRAM false (SockAddr ip_a 0) (SockAddr ip_a 0) TCP_CLOSED (replicate 1024 0) 0 0 0.
Definition empty_loopback : loopback_t := Loopback (replicate 4 (Packet (replicate 1500 0) 0 false)) 0 0.

(** A host with an address, its ARP cache and its sockets. *)
Definition host (ip : ipv4_addr_t) (cache : list arp_entry_t) (socks : list socket_t) : net_world host_kernel loopback_t :=
  NetWorld (HostKernel 100 [] ∅) empty_loopback (Some loopback_driver) blank_buffers NULL (config_of ip) net_stats_zero
    cache 0 0 false 0 socks 49152.
Definition datagram_socket (ip : ipv4_addr_t) (port : Z) : socket_t :=
  Socket SOCK_DGRAM true (SockAddr ip port) (SockAddr ip 0) TCP_CLOSED (replicate 1024 0) 0 0 0.
Definition host_a : net_world host_kernel loopback_t :=
  host ip_a (ArpEntry ip_b loopback_mac 5 true :: replicate 7 blank_entry)
    (datagram_socket ip_a 4000 :: replicate 7 blank_socket).
Definition host_b : net_world host_kernel loopback_t :=
  host ip_b (replicate 8 blank_entry) (datagram_socket ip_b 5000 :: replicate 7 blank_socket).

Lemma empty_frames : frames [] empty_loopback.
Proof.
  split; cbn; unfold QUEUE_SIZE, NET_BUFFER_SIZE; try lia; try done. repeat constructor.
Qed.
Lemma host_up ip cache socks : up (calm := hk_calm) (d := loopback_driver) (queued := frames) [] [] (host ip cache socks).
Proof. split; [done|done|apply empty_frames]. Qed.
Lemma blank_buffers_ok j : 0 ≤ j < NET_MAX_BUFFERS → is_Some (blank_buffers !! buffer_pool j).
Proof.
  unfold NET_MAX_BUFFERS. intros Hj.
  assert (j = 0 ∨ j = 1 ∨ j = 2 ∨ j = 3 ∨ j = 4 ∨ j = 5 ∨ j = 6 ∨ j = 7) as H by lia.
  repeat (destruct H as [->|H]; [by eexists|]). subst. by eexists.
Qed.
Lemma blank_memory ip : net_memory (calm := hk_calm) (host ip (replicate 8 blank_entry) (replicate 8 blank_socket)).
Proof.
  split; [done|apply blank_buffers_ok| |done|done|repeat constructor]. split; [done|]. cbn. repeat constructor.
Qed.

Lemma udp_over_loopback_witness :
  wp (let! _ := net_init (Some loopback_driver) (Some (config_of ip_a)) in
      let! sock := net_socket SOCK_DGRAM in
      let! _ := net_bind sock (Some (SockAddr ip_a 7)) in
      let! r0 := net_sendto sock [1; 2; 3] 3 (Some (SockAddr ip_a 7)) in
      let! rx := network_task_poll (replicate 1500 0) in
      let! rx := network_task_poll rx in
      let! r1 := net_sendto sock [1; 2; 3] 3 (Some (SockAddr ip_a 7)) in
      let! _ := network_task_poll rx in
      let! got := net_recvfrom sock [0; 0; 0; 0] 4 true in
      ret (r0, r1, got))
    (λ r _, r = (-1, 3, (3, [1; 2; 3; 0], Some (SockAddr ip_a 7))))
    (host ip_b (replicate 8 blank_entry) (replicate 8 blank_socket)).
Proof.
  apply (udp_over_loopback (calm := hk_calm) (count := hk_count) (config_of ip_a) (SockAddr ip_a 7) [1; 2; 3] 3 [0; 0; 0; 0] 4);
    [apply blank_memory|done|done|cbn; lia|cbn; lia|unfold UDP_MAX; lia|cbn; lia].
Defined.

Lemma udp_end_to_end_witness :
  wp (net_sendto 0 [1; 2; 3] 3 (Some (SockAddr ip_b 5000)))
    (λ r wA', r = 3 ∧ ∃ frame, upA (calm := hk_calm) (dA := loopback_driver) (queuedA := frames) [frame] wA' ∧
      wp (let! _ := deliver frame [9; 9] in net_recvfrom 0 [0; 0] 2 true)
        (λ r _, r = (2, [1; 2], Some (SockAddr ip_a 4000))) host_b) host_a.
Proof.
  apply (udp_end_to_end (calm := hk_calm) (count := hk_count) (dA := loopback_driver) (macA := loopback_mac) (queuedA := frames)
    (capA := 3) (dB := loopback_driver) (macB := loopback_mac) (queuedB := frames) (capB := 3)
    [] host_a 0 (datagram_socket ip_a 4000) [1; 2; 3] 3 5000 host_b [] 0 (datagram_socket ip_b 5000) [0; 0] 2 [9; 9]);
    [apply host_up|cbn; lia|done|split; [unfold NET_MAX_SOCKETS; lia|done]|done|done|cbn; lia|cbn; lia|unfold UDP_MAX; lia|lia
    |apply host_up|split; [unfold NET_MAX_SOCKETS; lia|vm_compute; reflexivity]|done|change (0 ≤ 0 < 2 ^ 31 - 1); lia|cbn; lia].
Defined.

Lemma arp_resolution_witness :
  wp (net_ethernet_send_ip ip_b [1; 2; 3] 3) (λ r wA1, r = OS_ERROR_TIMEOUT ∧
    ∃ request, upA (calm := hk_calm) (dA := loopback_driver) (queuedA := frames) [request] wA1)
    (host ip_a (replicate 8 blank_entry) []).
Proof.
  eapply wp_mono; [apply (arp_resolution (calm := hk_calm) (count := hk_count) (dA := loopback_driver) (macA := loopback_mac)
    (queuedA := frames) (capA := 3) (dB := loopback_driver) (macB := loopback_mac) (queuedB := frames) (capB := 3)
    [] (host ip_a (replicate 8 blank_entry) []) [] (host ip_b (replicate 8 blank_entry) []) [1; 2; 3] 3 [] []);
    try (cbn; unfold NET_BUFFER_SIZE, ETH_HEADER_SIZE; lia || done); try apply host_up|].
  intros r wA1 (-> & request & Hup & _). split; [done|]. by exists request.
Defined.

Lemma buffer_pool_refines_stack_witness :
  wp (net_buffer_pool_init ;;; run_pools [Alloc; Alloc; Free 1; Alloc])
    (λ r w', r = [Some 1; Some 2; None; Some 1] ∧ ∃ free used, pool free used w' ∧ NoDup (free ++ used)) host_a.
Proof.
  apply (buffer_pool_refines_stack (calm := hk_calm) (count := hk_count)); [done|apply blank_buffers_ok|vm_compute; reflexivity].
Defined.
