(* ===== verification/NetKernel.v ===== *)
(** NetKernel: the mutexes and semaphores of [src/sync.c] provide what the network stack asks of the
    kernel.

    The class [NetLaws] of [NetStack] is discharged by the models of the mutexes and semaphores, for
    a task [me] that is switched in again after each time it gives up the processor ([Resumes]). With
    it the theorems on the stack hold for the kernel of [src/kernel.c]. *)
From Stdlib Require Import ZArith Lia.
From stdpp Require Import base numbers gmap list.
From S2P Require Import Prelude Types Kernel ReadyQueue Scheduler KernelApi KernelTheorems Sync SyncTheorems.
From S2P Require Import Bytes Net Loopback NetTheorems NetStack NetBuffers NetLoopback.

Section kernel.
Context `{!Platform} (env : sys_t → sys_t) (me : ptr).

(** What the other tasks do while [me] is switched out: they leave the objects of the network stack
    alone, and [me] runs again in the end. *)
Class Resumes : Prop := {
  re_env s : live (kget s) → present me s →
    advance SWITCH_BOUND (kget s) (kget (env s)) ∧ primask (kget (env s)) = primask (kget s) ∧
    current_task (kget (env s)) = me ∧
    (∀ m, net_mutex m → mutexes (env s) !! m = mutexes s !! m) ∧
    (∀ x, net_sem x → semaphores (env s) !! x = semaphores s !! x)
}.
Context `{!Resumes}.

(** [n] bounds the rounds of the waiting loops; [network_tcb] and [network_entry] are the control block
    and the function of the network task. *)
Context (n : nat) (network_tcb network_entry : Z).
#[local] Instance net_sync_services D : NetServices sys_t D := {|
  nv_mutex_init m := zoom kern (os_mutex_init m);
  nv_mutex_lock m t := zoom kern (os_mutex_lock env (S n) m t);
  nv_mutex_unlock m := zoom kern (os_mutex_unlock env m);
  nv_semaphore_init x c := zoom kern (os_semaphore_init x c);
  nv_semaphore_wait x t := zoom kern (os_semaphore_wait env (S n) x t);
  nv_semaphore_post x := zoom kern (os_semaphore_post env x);
  nv_task_delay t := zoom kern (os_task_delay env (S n) t);
  nv_task_create p := zoom kern (in_kernel (os_task_create network_tcb None network_entry 0 p));
  nv_ticks s := tick_count (kget s)
|}.

Definition net_count (x : ptr) (s : sys_t) : Z := match semaphores s !! x with Some v => s_count v | None => 0 end.
(** The mutex [m] is held by [me], or free. *)
Definition mutex_is (b : bool) (m : ptr) (s : sys_t) : Prop :=
  ∃ x, mutexes s !! m = Some x ∧ m_locked x = b ∧ m_owner x = if b then me else NULL.
(** The objects of the stack, with the mutexes [L] held. *)
Definition objects (L : list ptr) (s : sys_t) : Prop :=
  (∀ m, net_mutex m → mutex_is (bool_decide (m ∈ L)) m s) ∧ (∀ x, net_sem x → is_Some (semaphores s !! x)).
Definition net_calm (L : list ptr) (s : sys_t) : Prop :=
  live (kget s) ∧ current_task (kget s) = me ∧ NoDup L ∧ Forall net_mutex L ∧ objects L s.

Lemma net_mutex_not_null m : net_mutex m → m ≠ NULL.
Proof. unfold net_mutex, NULL. lia. Qed.
Lemma net_sem_not_null x : net_sem x → x ≠ NULL.
Proof. unfold net_sem, NULL. lia. Qed.
Lemma calm_present L s : net_calm L s → present me s.
Proof. intros (Hl & <- & _). destruct Hl as ([q Hk] & _ & Hc). by destruct (kr_current _ _ Hk). Qed.

(** Nothing but the mutex [m] and the kernel has changed since [s0]. *)
Definition apart_from (m : ptr) (s0 s : sys_t) : Prop :=
  present me s ∧ (∀ m', net_mutex m' → m' ≠ m → mutexes s !! m' = mutexes s0 !! m') ∧
  (∀ x, net_sem x → semaphores s !! x = semaphores s0 !! x).
Lemma apart_kput m s0 s k : apart_from m s0 s → (∀ a, is_Some (tasks (kget s) !! a) → is_Some (tasks k !! a)) →
  apart_from m s0 (kput k s).
Proof. intros (Hp & Hm & Hx) Hk. split; [by apply present_kput|by split]. Qed.
Lemma apart_set m s0 s y : apart_from m s0 s → apart_from m s0 (s <| mutexes ::= <[m := y]> |>).
Proof. intros (Hp & Hm & Hx). split; [done|]. split; [|done]. intros m' Hm' Hne. cbn. rewrite lookup_insert_ne by done. by apply Hm. Qed.
Lemma apart_env m s0 s : live (kget s) → net_mutex m → apart_from m s0 s → apart_from m s0 (env s).
Proof.
  intros Hl Hn (Hp & Hm & Hx). destruct (re_env s Hl Hp) as (Had & _ & _ & Em & Ex).
  split; [by apply (ad_tasks _ _ _ Had)|]. split; [intros m' Hm' Hne; rewrite Em by done; by apply Hm|].
  intros x Hs. rewrite Ex by done. by apply Hx.
Qed.

#[local] Instance rely_net m s0 : net_mutex m → Rely env (λ s, held m me s ∧ apart_from m s0 s).
Proof.
  intros Hn. split.
  - intros k s [Hh Ha] Hk. split; [by apply held_kput|by apply apart_kput].
  - intros s Hl [(Hp & x & Hx & Hlk) Ha]. destruct (re_env s Hl (proj1 Ha)) as (Had & Hpm & _ & Em & _).
    split; [done|]. split; [done|]. split; [|by apply apart_env]. split; [by apply (ad_tasks _ _ _ Had)|].
    exists x. by rewrite Em.
Qed.

(** Giving up the processor and getting it back. *)
Lemma yield_back (X J : sys_t → Prop) s :
  (∀ s k, X s → (∀ a, is_Some (tasks (kget s) !! a) → is_Some (tasks k !! a)) → X (kput k s)) →
  live (kget s) → X s → (∀ s1, live (kget s1) → X s1 → J (env s1)) → wp (yield env) (λ _ s', J s') s.
Proof.
  intros Xk Hl HX HJ. unfold yield. wp_step. destruct Hl as ([q Hq] & Hr & Hc).
  eapply wp_mono; [by apply os_task_yield_spec|]. intros [] k' Hy. wp_step.
  apply yield_post_inv in Hy; [|done]. destruct Hy as (Hk' & Hid & Hrun & _ & _ & Hnull & _).
  apply HJ; [|apply Xk; [done|]].
  - rewrite kget_kput. split_and!; [done|congruence|tauto].
  - intros a [t Ht]. destruct (same_on_lookup _ _ _ _ _ _ Hid I Ht) as (? & ? & _). eauto.
Qed.

Lemma kernel_only_zoom {D} x d (w : net_world sys_t D) s : (∀ x', net_sem x' → net_count x' s =
  net_count x' (kern w) + (if bool_decide (x' = x) then d else 0)) → kernel_only net_count x d w (w <| kern := s |>).
Proof. intros Hs. by exists s. Qed.
Lemma same_sems_only {D} (w : net_world sys_t D) s : (∀ x, net_sem x → semaphores s !! x = semaphores (kern w) !! x) →
  kernel_only net_count 0 0 w (w <| kern := s |>).
Proof. intros Hs. apply kernel_only_zoom. intros x Hx. unfold net_count. rewrite Hs by done. case_bool_decide; lia. Qed.

(** Objects after the mutex [m] has been taken ([b]) or left. *)
Lemma objects_apart (b : bool) m L L' s0 s : objects L s0 → apart_from m s0 s → mutex_is b m s →
  bool_decide (m ∈ L') = b → (∀ m', m' ≠ m → m' ∈ L' ↔ m' ∈ L) → objects L' s.
Proof.
  intros [Hm Hx] (_ & Em & Ex) Hb Hin HL. split; [|intros x Hs; rewrite Ex by done; by apply Hx].
  intros m' Hn. destruct (decide (m' = m)) as [->|Hne]; [by rewrite Hin|].
  specialize (Hm m' Hn). unfold mutex_is. rewrite Em by done.
  by rewrite (bool_decide_ext _ _ (HL m' Hne)).
Qed.

Definition sems_kept (s0 s : sys_t) : Prop := ∀ x, net_sem x → semaphores s !! x = semaphores s0 !! x.

Lemma net_lock_ok m L s t : net_mutex m → m ∉ L → net_calm L s →
  wp (os_mutex_lock env (S n) m t) (λ _ s', sems_kept s s' ∧ net_calm (m :: L) s') s.
Proof.
  intros Hm HL Hs. pose proof (calm_present L s Hs) as Hp. destruct Hs as (Hl & Hc & Hnd & Hall & Ho).
  pose proof (proj1 Ho m Hm) as (x & Hx & Hlk & Hown). rewrite bool_decide_eq_false_2 in Hlk by done.
  eapply wp_mono; [apply (lock_free env m me); [by apply net_mutex_not_null|done|done|by exists x]|].
  intros e s' (_ & p & ->). split; [done|]. split; [done|]. split; [done|].
  split; [by apply NoDup_cons|]. split; [by apply Forall_cons|].
  apply (objects_apart true m L _ s); [done| | | |].
  - split; [done|]. split; [|done]. intros m' _ Hne. cbn. by rewrite lookup_insert_ne.
  - exists (Mutex true me p). split; [apply lookup_insert_eq|done].
  - apply bool_decide_eq_true_2. by left.
  - intros m' Hne. rewrite elem_of_cons. tauto.
Qed.

Lemma net_unlock_ok m L s : net_calm (m :: L) s →
  wp (os_mutex_unlock env m) (λ _ s', sems_kept s s' ∧ net_calm L s') s.
Proof.
  intros Hs. pose proof (calm_present _ s Hs) as Hp.
  destruct Hs as (Hl & Hc & [HL Hnd]%NoDup_cons & [Hm Hall]%Forall_cons & Ho).
  pose proof (proj1 Ho m Hm) as (x & Hx & Hlk & Hown). rewrite bool_decide_eq_true_2 in Hlk, Hown by left.
  assert (apart_from m s s) as Ha by done. pose proof (rely_net m s Hm) as Hrely.
  eapply wp_mono; [apply (unlock_owner env m me (apart_from m s) (λ s', sems_kept s s' ∧ net_calm L s')); try done|
    by intros e s' [_ ?]].
  - intros s0 k HX Hk. by apply apart_kput.
  - intros s0 y. apply apart_set.
  - by apply net_mutex_not_null.
  - split; [done|]. by exists x.
  - intros s1 Hl1 (y & Hy & Hyl) Hnone Ha1. pose proof (apart_env m s s1 Hl1 Hm Ha1) as Ha2.
    destruct (re_env s1 Hl1 (proj1 Ha1)) as (Had & _ & Hcur & Em & _). split; [by destruct Ha2 as (_ & _ & ?)|].
    split; [by eapply advance_live|]. split; [done|]. split; [done|]. split; [done|].
    apply (objects_apart false m (m :: L) _ s); [done|done| | |].
    + exists y. rewrite Em by done. split; [done|]. split; [done|]. by apply Hnone.
    + by apply bool_decide_eq_false_2.
    + intros m' Hne. rewrite elem_of_cons. tauto.
Qed.

(** Objects after a semaphore has changed. *)
Lemma calm_sem x v L s : net_calm L s → net_calm L (s <| semaphores ::= <[x := v]> |>).
Proof.
  intros (Hl & Hc & Hnd & Hall & Hm & Hx). do 5 (split; [done|]). intros x' Hs. cbn.
  destruct (decide (x' = x)) as [->|Hne]; [rewrite lookup_insert_eq by done; eauto|].
  rewrite lookup_insert_ne by done. by apply Hx.
Qed.
Lemma counts_sem x v s s' d : net_count x s + d = s_count v →
  (∀ x', net_sem x' → semaphores s' !! x' = <[x := v]> (semaphores s) !! x') →
  ∀ x', net_sem x' → net_count x' s' = net_count x' s + (if bool_decide (x' = x) then d else 0).
Proof.
  intros Hd Hs x' Hx'. unfold net_count in *. rewrite Hs by done. case_bool_decide as E.
  - subst x'. rewrite lookup_insert_eq. lia.
  - rewrite lookup_insert_ne by done. lia.
Qed.
(** What [me] finds after it gave up the processor. *)
Definition untouched (s0 s : sys_t) : Prop :=
  present me s ∧ (∀ m, net_mutex m → mutexes s !! m = mutexes s0 !! m) ∧ sems_kept s0 s.
Lemma untouched_calm L s0 s : net_calm L s0 → live (kget s) → untouched s0 s →
  sems_kept s0 (env s) ∧ net_calm L (env s).
Proof.
  intros (_ & _ & Hnd & Hall & Hm & Hx) Hl (Hp & Em & Ex).
  destruct (re_env s Hl Hp) as (Had & _ & Hcur & Em' & Ex').
  assert (sems_kept s0 (env s)) as Hk by (intros x Hs; rewrite Ex' by done; by apply Ex).
  split; [done|]. split; [by eapply advance_live|]. do 3 (split; [done|]). split.
  - intros m Hn. unfold mutex_is. rewrite Em', Em by done. by apply Hm.
  - intros x Hs. rewrite Hk by done. by apply Hx.
Qed.

Lemma net_post_ok x L s : net_sem x → net_calm L s → net_count x s < 2 ^ 31 - 1 →
  wp (os_semaphore_post env x) (λ r s', r = OS_OK ∧
    (∀ x', net_sem x' → net_count x' s' = net_count x' s + (if bool_decide (x' = x) then 1 else 0)) ∧ net_calm L s') s.
Proof.
  intros Hx Hs Hlt. unfold os_semaphore_post. destruct (Z.eqb_spec x NULL) as [E|_]; [by apply net_sem_not_null in Hx|].
  pose proof Hs as (Hl & _ & _ & _ & _ & He). destruct (He x Hx) as [v Hv].
  assert (net_count x s = s_count v) as Hcv by (unfold net_count; by rewrite Hv).
  wp_step. eapply wp_obj_get; [exact Hv|]. destruct (Z.eqb_spec (s_count v) (2 ^ 31 - 1)) as [|_]; [lia|].
  wp_step. eapply wp_obj_set; [exact Hv|]. wp_step.
  match goal with |- wp (yield env) _ ?s3 => set (s' := s3) end.
  set (v' := v <| s_count ::= λ n, n + 1 |>).
  pose proof (calm_sem x v' L s Hs) as Hs'. set (s1 := s <| semaphores ::= <[x := v']> |>) in *.
  assert (s' = s1) as -> by (subst s' s1 v'; by destruct s as [[]]).
  eapply wp_mono; [apply (yield_back (untouched s1) (λ s', sems_kept s1 s' ∧ net_calm L s'))|].
  - intros s0 k (Hp & Hr) Hk. split; [by apply present_kput|done].
  - apply Hs'.
  - split; [by eapply calm_present|done].
  - intros s2 Hl2 Hu. by apply untouched_calm.
  - intros [] s2 [Hk Hc2]. wp_step. split; [done|]. split; [|done].
    apply (counts_sem x v'); [subst v'; cbn; lia|exact Hk].
Qed.

Lemma net_wait_ok x t L s : net_sem x → net_calm L s → 0 < net_count x s →
  wp (os_semaphore_wait env (S n) x t) (λ r s', r = OS_OK ∧
    (∀ x', net_sem x' → net_count x' s' = net_count x' s + (if bool_decide (x' = x) then -1 else 0)) ∧ net_calm L s') s.
Proof.
  intros Hx Hs Hpos. unfold os_semaphore_wait. destruct (Z.eqb_spec x NULL) as [E|_]; [by apply net_sem_not_null in Hx|].
  pose proof Hs as (_ & _ & _ & _ & _ & He). destruct (He x Hx) as [v Hv].
  assert (net_count x s = s_count v) as Hcv by (unfold net_count; by rewrite Hv).
  wp_step. apply retry_now. eapply wp_mono; [by apply semaphore_try_spec|].
  destruct (Z.ltb_spec 0 (s_count v)) as [_|]; [|lia]. intros r s' [-> ->]. exists tt. split; [done|]. wp_step.
  split; [done|]. split; [|by apply calm_sem]. eapply counts_sem; [|done]. cbn. lia.
Qed.

Lemma net_sem_init_ok x c s : net_sem x → net_calm [] s →
  wp (os_semaphore_init x c) (λ _ s',
    (∀ x', net_sem x' → net_count x' s' = net_count x' s + (if bool_decide (x' = x) then c - net_count x s else 0)) ∧
    net_calm [] s') s.
Proof.
  intros Hx Hs. unfold os_semaphore_init. destruct (Z.eqb_spec x NULL) as [E|_]; [by apply net_sem_not_null in Hx|].
  pose proof Hs as (_ & _ & _ & _ & _ & He). destruct (He x Hx) as [v Hv]. eapply wp_obj_set; [exact Hv|].
  split; [|by apply calm_sem]. eapply counts_sem; [|done]. cbn. lia.
Qed.

Lemma net_mutex_init_ok m s : net_mutex m → net_calm [] s →
  wp (os_mutex_init m) (λ _ s', sems_kept s s' ∧ net_calm [] s') s.
Proof.
  intros Hm Hs. unfold os_mutex_init. destruct (Z.eqb_spec m NULL) as [E|_]; [by apply net_mutex_not_null in Hm|].
  pose proof (calm_present _ s Hs) as Hp. destruct Hs as (Hl & Hc & Hnd & Hall & Ho).
  pose proof (proj1 Ho m Hm) as (x & Hx & _). eapply wp_obj_set; [exact Hx|].
  split; [done|]. split; [done|]. split; [done|]. split; [done|]. split; [done|].
  apply (objects_apart false m [] _ s); [done|by apply apart_set| |done|done].
  exists (Mutex false NULL PRIORITY_IDLE). split; [apply lookup_insert_eq|done].
Qed.

(** The mutexes and semaphores of the kernel provide what the network stack asks of its kernel. *)
#[local] Instance kernel_serves_network D : NetLaws (K := sys_t) (D := D) net_calm net_count.
Proof.
  split; intros; cbn [nv_mutex_init nv_mutex_lock nv_mutex_unlock nv_semaphore_init nv_semaphore_wait nv_semaphore_post net_sync_services];
    rewrite wp_zoom; eapply wp_mono;
    [by apply net_mutex_init_ok| |by apply net_lock_ok| |by apply net_unlock_ok|
    |by apply net_sem_init_ok| |by eapply net_post_ok| |by eapply net_wait_ok|].
  1-3: intros e s' [Hk Hc]; split; [by apply same_sems_only|done].
  - intros e s' [Hk Hc]. split; [by apply kernel_only_zoom|done].
  - intros e s' (-> & Hk & Hc). split; [done|]. split; [by apply kernel_only_zoom|done].
  - intros e s' (-> & Hk & Hc). split; [done|]. split; [by apply kernel_only_zoom|done].
Qed.

(** C30. Kernel, mutexes, semaphores, network stack and loopback driver put together. A task runs on the
    kernel with the objects of the stack free, and gets the processor back each time it gives it up.
    Its calls from [net_init] on, with the rounds of the network task between them, all return: the
    first [net_sendto] to the own address fails as the address is not resolved, two rounds exchange
    the ARP request and reply, the second [net_sendto] returns the number of bytes, one more round
    delivers the datagram, and [net_recvfrom] returns its bytes (the first 1024 of them, as far as the
    caller's buffer has room) and the sender. Every mutex is found free at once, so one round of each
    waiting loop is enough. *)
Theorem udp_on_kernel c a data len buffer max rx (w : net_world sys_t loopback_t) :
  net_memory (calm := net_calm) w → length rx = Z.to_nat NET_BUFFER_SIZE → sa_addr a = cfg_ip c → 0 ≤ sa_port a < 2 ^ 16 →
  0 ≤ len ≤ Z.of_nat (length data) → len ≤ UDP_MAX → 0 ≤ max ≤ Z.of_nat (length buffer) →
  wp (let! _ := net_init (Some loopback_driver) (Some c) in
      let! sock := net_socket SOCK_DGRAM in
      let! _ := net_bind sock (Some a) in
      let! r0 := net_sendto sock data len (Some a) in
      let! rx := network_task_poll rx in
      let! rx := network_task_poll rx in
      let! r1 := net_sendto sock data len (Some a) in
      let! _ := network_task_poll rx in
      let! got := net_recvfrom sock buffer max true in
      ret (r0, r1, got))
    (λ r _, let got := take (Z.to_nat max) (take (Z.to_nat RX_BUFFER_SIZE) (take (Z.to_nat len) data)) in
       r = (-1, len, (Z.of_nat (length got), put 0 got buffer, Some a))) w.
Proof. apply (udp_over_loopback (calm := net_calm) (count := net_count)). Qed.
End kernel.

(** * Example *)
#[local] Existing Instance demo_platform.

(** The other tasks only hand the processor back to the task [me]. *)
Definition hand_back (me : ptr) (s : sys_t) : sys_t :=
  match tasks (kget s) !! me with Some _ => kput (kget s <| current_task := me |>) s | None => s end.
Lemma hand_back_resumes me : me ≠ NULL → Resumes (hand_back me) me.
Proof.
  intros Hme. split. intros s Hl Hp. destruct Hp as [t Ht]. unfold hand_back. rewrite Ht, kget_kput.
  destruct Hl as ([q [Hr Hcur Htick Hcount]] & Hrun & Hc). split_and!; try done. split; try done; [|exists 0].
  - exists q. split; [by apply (ready_inv_fields (kget s))|right; cbn; eauto|done|done].
  - split; [unfold SWITCH_BOUND; lia|]. rewrite Z.add_0_r. symmetry. by apply u32_small.
Qed.

(** Task 100 runs on a kernel in which the objects of the stack are free. *)
Definition network_sys : sys_t :=
  Sys demo_two (list_to_map ((λ m, (m, Mutex false NULL 255)) <$> [1; 2; 3; 4]))
    (list_to_map ((λ x, (x, Semaphore 0 NULL)) <$> [5; 16; 17; 18; 19; 20; 21; 22; 23])) ∅ ∅ ∅ ∅.
Lemma network_sys_calm : net_calm 100 [] network_sys.
Proof.
  split_and!; [apply demo_sys_live|done|constructor|constructor|]. split.
  - intros m Hm. unfold net_mutex in Hm. assert (m = 1 ∨ m = 2 ∨ m = 3 ∨ m = 4) as H by lia.
    exists (Mutex false NULL 255). repeat (destruct H as [->|H]; [done|]). by subst.
  - intros x Hx. unfold net_sem in Hx.
    assert (x = 5 ∨ x = 16 ∨ x = 17 ∨ x = 18 ∨ x = 19 ∨ x = 20 ∨ x = 21 ∨ x = 22 ∨ x = 23) as H by lia.
    exists (Semaphore 0 NULL). repeat (destruct H as [->|H]; [done|]). by subst.
Qed.
Definition network_host : net_world sys_t loopback_t :=
  NetWorld network_sys empty_loopback (Some loopback_driver) blank_buffers NULL (config_of ip_b) net_stats_zero
    (replicate 8 blank_entry) 0 0 false 0 (replicate 8 blank_socket) 49152.
Lemma network_host_memory : net_memory (calm := net_calm 100) network_host.
Proof.
  split; [apply network_sys_calm|apply blank_buffers_ok| |done|done|repeat constructor].
  split; [done|]. cbn. repeat constructor.
Qed.

#[local] Instance example_services D : NetServices sys_t D := net_sync_services (hand_back 100) 0 4000 5000 D.
Lemma udp_on_kernel_witness :
  wp (let! _ := net_init (Some loopback_driver) (Some (config_of ip_a)) in
      let! sock := net_socket SOCK_DGRAM in
      let! _ := net_bind sock (Some (SockAddr ip_a 7)) in
      let! r0 := net_sendto sock [1; 2; 3] 3 (Some (SockAddr ip_a 7)) in
      let! rx := network_task_poll (replicate 1500 0) in
      let! rx := network_task_poll rx in
      let! r1 := net_sendto sock [1; 2; 3] 3 (Some (SockAddr ip_a 7)) in
      let! _ := network_task_poll rx in
      let! got := net_recvfrom sock [0; 0; 0; 0] 4 true in
      ret (r0, r1, got))
    (λ r _, r = (-1, 3, (3, [1; 2; 3; 0], Some (SockAddr ip_a 7)))) network_host.
Proof.
  assert (100 ≠ NULL) as Hme by done. pose proof (hand_back_resumes 100 Hme) as Hre.
  unfold example_services.
  eapply wp_mono; [apply (udp_on_kernel (hand_back 100) 100 0 4000 5000 (config_of ip_a) (SockAddr ip_a 7) [1; 2; 3] 3 [0; 0; 0; 0] 4);
    [apply network_host_memory|done|done|cbn; lia|cbn; lia|unfold UDP_MAX; lia|cbn; lia]|].
  by intros r w' ->.
Defined.
