(* ===== verification/NetTcp.v ===== *)
(** NetTcp: segments of a TCP connection, from [net_send] of one host to [net_recv] of the other.

    The receive side of a stream socket is one buffer of 1024 bytes and a semaphore that counts the
    segments that came in; there is no reassembly. The lemmas say what a segment does to it and what
    [net_recv] takes out of it, the theorems what that means for the two ends of a connection. *)
From Stdlib Require Import ZArith Lia.
From stdpp Require Import base numbers list gmap.
From S2P Require Import Prelude Types Bytes Net Loopback NetTheorems NetStack NetDelivery NetBuffers NetLoopback.

(** * The wire format *)
Lemma le4_decode x : 0 ≤ x < 2 ^ 32 →
  x mod 256 + 256 * ((x / 256) mod 256 + 256 * ((x / 256 / 256) mod 256 + 256 * ((x / 256 / 256 / 256) mod 256 + 256 * 0))) = x.
Proof. intros. Z.div_mod_to_equations; lia. Qed.
Lemma htonl_range h : 0 ≤ htonl h < 2 ^ 32.
Proof. apply u32_range. Qed.

Lemma tcp_length h : length (tcp_bytes h) = 20%nat.
Proof. done. Qed.
(** A header is read back from its bytes. *)
Lemma tcp_of_bytes h : 0 ≤ tcp_src_port h < 2 ^ 16 → 0 ≤ tcp_dest_port h < 2 ^ 16 → 0 ≤ tcp_seq_num h < 2 ^ 32 →
  0 ≤ tcp_ack_num h < 2 ^ 32 → 0 ≤ tcp_window h < 2 ^ 16 → 0 ≤ tcp_checksum h < 2 ^ 16 →
  0 ≤ tcp_urgent_ptr h < 2 ^ 16 → tcp_of (tcp_bytes h) = h.
Proof.
  intros. destruct h. cbn in *. cbv -[Z.add Z.mul Z.div Z.modulo].
  rewrite !le4_decode, !le2_decode, !le1_decode by done. done.
Qed.

(** The segment that [net_send] makes. *)
Definition tcp_segment (sport dport seq ack : Z) (payload : list Z) : list Z :=
  tcp_bytes (TcpHeader (htons sport) (htons dport) (htonl seq) (htonl ack) 0x50 (Z.lor TCP_FLAG_PSH TCP_FLAG_ACK)
    (htons 1024) 0 0) ++ payload.
Lemma tcp_segment_length sport dport seq ack payload :
  length (tcp_segment sport dport seq ack payload) = (20 + length payload)%nat.
Proof. unfold tcp_segment. by rewrite length_app, tcp_length. Qed.

(** The largest payload a frame has room for. *)
Definition TCP_MAX : Z := 1446.

Section tcp.
Context {K D : Type} `{!NetServices K D} {calm : list ptr → K → Prop} {count : ptr → K → Z}.
Context `{!NetLaws calm count}.
Implicit Types w : net_world K D.

(** The socket [i] is the end [s] of an established connection. *)
Definition connected (i : Z) (s : socket_t) w : Prop :=
  socket_is i s w ∧ so_in_use s = true ∧ so_type s = SOCK_STREAM ∧ so_state s = TCP_ESTABLISHED.
(** It is the one that a segment from port [sport] of [src] to [dport] is for. *)
Definition peer_of (src : ipv4_addr_t) (sport dport i : Z) (s : socket_t) w : Prop :=
  0 ≤ i < NET_MAX_SOCKETS ∧ list_find (tcp_match dport sport src) (sockets w) = Some (Z.to_nat i, s) ∧
  so_state s = TCP_ESTABLISHED.

Lemma peer_connected src sport dport i s w : peer_of src sport dport i s w → connected i s w.
Proof. intros (Hi & Hf & Hst). apply list_find_Some in Hf as (Hs & (Hu & Ht & _) & _). by split. Qed.

Lemma rx_sem_ok i : 0 ≤ i < NET_MAX_SOCKETS → net_sem (rx_sem i).
Proof. unfold net_sem, rx_sem, NET_MAX_SOCKETS. lia. Qed.

Lemma socket_is_output i s w w' : socket_is i s w → output w w' → socket_is i s w'.
Proof. intros [? ?] Ho. split; [done|]. by rewrite (out_sockets _ _ Ho). Qed.

(** ** Sending *)
Lemma send_prefix i s data n t w (Q : Z → net_world K D → Prop) : connected i s w → 0 ≤ n ≤ Z.of_nat (length data) → n ≤ TCP_MAX →
  wp (net_ip_send (sa_addr (so_remote s)) 6
      (tcp_segment (sa_port (so_local s)) (sa_port (so_remote s)) (so_seq_num s) (so_ack_num s) (take (Z.to_nat n) data)) (20 + n))
    (λ err w', if bool_decide (err = OS_OK)
      then socket_is i s w' ∧ Q n (w' <| sockets ::= <[Z.to_nat i := s <| so_seq_num := u32 (so_seq_num s + n) |>]> |>)
      else Q (-1) w') w →
  wp (net_send i data n t) Q w.
Proof.
  intros (Hs & Hu & Ht & Hst) Hn Hmax HQ. unfold net_send, TCP_MAX, TCP_HEADER_SIZE in *. rewrite wp_bind.
  eapply valid_socket_ok; [done|done|]. rewrite !bool_decide_eq_true_2 by done. cbn [negb].
  rewrite wp_bind. apply peek_ok; [lia|lia|]. rewrite drop_0. rewrite u16_small by lia. rewrite wp_bind.
  eapply wp_mono; [exact HQ|]. intros err w' HQ'. cbv beta in HQ'. case_bool_decide; [|by rewrite wp_ret].
  destruct HQ' as [Hs' HQ']. rewrite wp_bind. eapply (socket_update_ok i s); [done|]. by rewrite wp_ret.
Qed.

(** ** Receiving *)

(** The socket after a segment, and after [net_recv]. *)
Definition filled (payload : list Z) (s : socket_t) : socket_t :=
  s <| so_rx_buffer ::= put 0 payload |> <| so_rx_length := Z.of_nat (length payload) |>.

(** A segment that fits in the buffer replaces what is in it; a larger or an empty one is dropped. *)
Lemma tcp_input_ok src sport dport seq ack i s payload rest w (Q : unit → net_world K D → Prop) :
  peer_of src sport dport i s w → calm [] (kern w) → count (rx_sem i) (kern w) < 2 ^ 31 - 1 →
  0 ≤ sport < 2 ^ 16 → 0 ≤ dport < 2 ^ 16 → 20 + Z.of_nat (length payload) < 2 ^ 16 →
  (if (0 <? Z.of_nat (length payload)) && (Z.of_nat (length payload) <=? RX_BUFFER_SIZE) then
     ∀ k, calm [] k → count (rx_sem i) k = count (rx_sem i) (kern w) + 1 →
       Q tt (w <| kern := k |> <| sockets ::= <[Z.to_nat i := filled payload s]> |>)
   else Q tt w) →
  wp (net_tcp_input (tcp_segment sport dport seq ack payload ++ rest) (20 + Z.of_nat (length payload)) src) Q w.
Proof.
  intros Hp Hc Hcnt Hsp Hdp Hlen HQ. pose proof (peer_connected _ _ _ _ _ _ Hp) as (Hs & _). destruct Hp as (Hi & Hf & Hst).
  unfold net_tcp_input, tcp_segment, TCP_HEADER_SIZE. rewrite (proj2 (Z.ltb_ge _ _)) by lia.
  rewrite <-app_assoc, wp_bind. apply peek_head; [done|].
  rewrite tcp_of_bytes by (cbn; apply htons_range || apply htonl_range || lia).
  cbn [tcp_dest_port tcp_src_port tcp_flags tcp_data_offset_flags].
  rewrite !ntohs_htons by lia. rewrite wp_bind, wp_gets, Hf. rewrite Z2Nat.id by lia. rewrite Hst.
  change (bool_decide (TCP_ESTABLISHED = TCP_SYN_SENT)) with false. change (bool_decide (TCP_ESTABLISHED = TCP_ESTABLISHED)) with true.
  rewrite andb_false_r. change (negb (Z.land (Z.lor TCP_FLAG_PSH TCP_FLAG_ACK) TCP_FLAG_PSH =? 0) && true) with true. cbv iota zeta.
  change (u8 (Z.shiftr 0x50 4 * 4)) with 20. replace (20 + Z.of_nat (length payload) - 20) with (Z.of_nat (length payload)) by lia.
  rewrite u16_small by lia. destruct (_ && _); [|done].
  rewrite wp_bind. apply peek_ok; [lia|rewrite !length_app, tcp_length; lia|]. rewrite (drop_app_length' (tcp_bytes _)) by done.
  rewrite Nat2Z.id, take_app_length, wp_bind. eapply socket_update_ok; [done|]. rewrite wp_bind.
  pose proof (rx_sem_ok i Hi) as Hsem. eapply wp_mono; [by apply (nl_semaphore_post (rx_sem i) [])|].
  intros r w' (_ & (k & -> & Hk) & Hck). rewrite wp_ret. apply (HQ k); [done|]. rewrite (Hk _ Hsem). by rewrite bool_decide_eq_true_2.
Qed.

(** [net_recv] hands out the bytes in the buffer up to the caller's limit, and empties it. *)
Lemma recv_ok i s payload buffer max t w (Q : Z * list Z → net_world K D → Prop) :
  connected i s w → calm [] (kern w) → 0 < count (rx_sem i) (kern w) →
  so_rx_length s = Z.of_nat (length payload) → take (length payload) (so_rx_buffer s) = payload →
  0 ≤ max ≤ Z.of_nat (length buffer) →
  (∀ k, calm [] k → count (rx_sem i) k = count (rx_sem i) (kern w) - 1 →
    let got := take (Z.to_nat max) payload in
    Q (Z.of_nat (length got), put 0 got buffer)
      (w <| kern := k |> <| sockets ::= <[Z.to_nat i := s <| so_rx_length := 0 |>]> |>)) →
  wp (net_recv i buffer max t) Q w.
Proof.
  intros (Hs & Hu & Ht & Hst) Hc Hcnt Hrl Hrb Hmax HQ. unfold net_recv. rewrite wp_bind. eapply valid_socket_ok; [done|done|].
  rewrite !bool_decide_eq_true_2 by done. cbn [negb]. rewrite wp_bind.
  pose proof (rx_sem_ok i (proj1 Hs)) as Hsem.
  eapply wp_mono; [by apply (nl_semaphore_wait (rx_sem i) _ [])|]. intros r w' (-> & (k & -> & Hk) & Hck).
  rewrite bool_decide_eq_true_2 by done. cbn [negb]. rewrite wp_bind. eapply (copy_received_ok i s payload); [done..|].
  rewrite wp_bind. eapply (socket_update_ok i s); [done|]. rewrite wp_ret.
  apply (HQ k); [done|]. rewrite (Hk _ Hsem). rewrite bool_decide_eq_true_2 by done. lia.
Qed.
End tcp.

(** * A connection, seen from its receiving end *)

(** The receive side as the users of the socket see it: the number of segments that were announced and
    not asked for yet, and the bytes of the last one. A segment replaces the one before; a call of
    [net_recv] takes one announcement and whatever is there, of which it returns the first bytes. *)
Record mailbox := Mailbox { announced : Z; slot : list Z }.
Inductive tcp_event := Segment (payload : list Z) | Recv (max : Z).
Definition fits (payload : list Z) : bool :=
  (0 <? Z.of_nat (length payload)) && (Z.of_nat (length payload) <=? RX_BUFFER_SIZE).
(** The event and what [net_recv] returns; [None] when [net_recv] would wait. *)
Definition mailbox_step (e : tcp_event) (m : mailbox) : option (list (list Z) * mailbox) :=
  match e with
  | Segment p => Some ([], if fits p then Mailbox (announced m + 1) p else m)
  | Recv max =>
      if 0 <? announced m then Some ([take (Z.to_nat max) (slot m)], Mailbox (announced m - 1) []) else None
  end.
Fixpoint mailbox_run (es : list tcp_event) (m : mailbox) : option (list (list Z) * mailbox) :=
  match es with
  | [] => Some ([], m)
  | e :: es =>
      r ← mailbox_step e m;
      r' ← mailbox_run es r.2;
      Some (r.1 ++ r'.1, r'.2)
  end.

Section receiver.
Context {K D : Type} `{!NetServices K D} {calm : list ptr → K → Prop} {count : ptr → K → Z}.
Context `{!NetLaws calm count}.
Implicit Types w : net_world K D.

Lemma list_find_replace {A} (P : A → Prop) `{∀ x, Decision (P x)} l n x y : list_find P l = Some (n, x) → P y →
  list_find P (<[n := y]> l) = Some (n, y).
Proof.
  intros (Hn & Hx & Hb)%list_find_Some Hy. apply list_find_Some. split_and!; [|done|].
  - by eapply list_lookup_insert_eq, lookup_lt_Some.
  - intros j z Hz Hj. rewrite list_lookup_insert_ne in Hz by lia. by eapply Hb.
Qed.

(** The bytes that [net_recv] with the limit [max] returns in a buffer of its own. *)
Definition recv_bytes (i max t : Z) : M (net_world K D) (list Z) :=
  let! r := net_recv i (replicate (Z.to_nat max) 0) max t in ret (take (Z.to_nat r.1) r.2).
(** What the network task and the user of socket [i] do, one after the other; the results of the
    calls of [net_recv]. The sequence and acknowledgement numbers play no part on this side, nor do the
    bytes behind the segment. *)
Fixpoint tcp_run (src : ipv4_addr_t) (sport dport seq ack i : Z) (rest : list Z) (es : list tcp_event) : M (net_world K D) (list (list Z)) :=
  match es with
  | [] => ret []
  | Segment p :: es =>
      let segment := tcp_segment sport dport seq ack p in
      net_tcp_input (segment ++ rest) (Z.of_nat (length segment)) src ;;;
      tcp_run src sport dport seq ack i rest es
  | Recv max :: es =>
      let! got := recv_bytes i max 0 in
      let! gots := tcp_run src sport dport seq ack i rest es in
      ret (got :: gots)
  end.

Record holds (src : ipv4_addr_t) (sport dport i : Z) (m : mailbox) w : Prop := {
  ho_calm : calm [] (kern w);
  ho_count : count (rx_sem i) (kern w) = announced m;
  ho_socket : ∃ s, peer_of src sport dport i s w ∧ length (so_rx_buffer s) = Z.to_nat RX_BUFFER_SIZE ∧
    so_rx_length s = Z.of_nat (length (slot m)) ∧ take (length (slot m)) (so_rx_buffer s) = slot m
}.

Lemma peer_update src sport dport i s s' k w : peer_of src sport dport i s w →
  tcp_match dport sport src s' → so_state s' = TCP_ESTABLISHED →
  peer_of src sport dport i s' (w <| kern := k |> <| sockets ::= <[Z.to_nat i := s']> |>).
Proof. intros (Hi & Hf & _) Hm Hst. split_and!; [lia|lia| |done]. cbn. by eapply list_find_replace. Qed.

Lemma segment_holds src sport dport i seq ack p rest m w : holds src sport dport i m w →
  0 ≤ sport < 2 ^ 16 → 0 ≤ dport < 2 ^ 16 → 20 + Z.of_nat (length p) < 2 ^ 16 → announced m < 2 ^ 31 - 1 →
  wp (net_tcp_input (tcp_segment sport dport seq ack p ++ rest) (Z.of_nat (length (tcp_segment sport dport seq ack p))) src)
    (λ _ w', holds src sport dport i (if fits p then Mailbox (announced m + 1) p else m) w') w.
Proof.
  intros Hh Hsp Hdp Hp Hann. pose proof Hh as [Hc Hcnt (s & Hpeer & Hbuf & Hlen & Htake)].
  rewrite tcp_segment_length, Nat2Z.inj_add. change (Z.of_nat 20) with 20.
  eapply tcp_input_ok; [exact Hpeer|done|lia|done|done|done|]. fold (fits p). destruct (fits p) eqn:Ef; [|done].
  intros k Hk Hck. apply andb_prop in Ef as [_ Hle%Z.leb_le]. unfold RX_BUFFER_SIZE in *.
  pose proof Hpeer as (Hi & Hf & Hst). apply list_find_Some in Hf as (_ & Hm & _).
  split; [done|cbn; lia|]. exists (filled p s). split_and!.
  - by eapply peer_update.
  - cbn. rewrite put_length; [done|lia].
  - done.
  - cbn. apply (slice_put_same 0). lia.
Qed.

Lemma net_recv_holds src sport dport i max t m w : holds src sport dport i m w → 0 ≤ max → 0 < announced m →
  wp (net_recv i (replicate (Z.to_nat max) 0) max t)
    (λ r w', let got := take (Z.to_nat max) (slot m) in
      r.1 = Z.of_nat (length got) ∧ take (length got) r.2 = got ∧ holds src sport dport i (Mailbox (announced m - 1) []) w') w.
Proof.
  intros [Hc Hcnt (s & Hpeer & Hbuf & Hlen & Htake)] Hmax Hann.
  eapply (recv_ok (calm := calm) (count := count) i s (slot m));
    [by eapply peer_connected|done|lia|done|done|rewrite length_replicate; lia|].
  intros k Hk Hck got. cbn [fst snd]. split; [done|]. split.
  - apply (slice_put_same 0). subst got. rewrite length_replicate, length_take. lia.
  - pose proof Hpeer as (Hi & Hf & Hst). apply list_find_Some in Hf as (_ & Hm & _).
    split; [done|cbn; lia|]. eexists. split_and!; [by eapply peer_update|done|done|done].
Qed.
Lemma recv_holds src sport dport i max t m w : holds src sport dport i m w → 0 ≤ max → 0 < announced m →
  wp (recv_bytes i max t)
    (λ got w', got = take (Z.to_nat max) (slot m) ∧ holds src sport dport i (Mailbox (announced m - 1) []) w') w.
Proof.
  intros Hh Hmax Hann. unfold recv_bytes. rewrite wp_bind. eapply wp_mono; [by eapply net_recv_holds|].
  intros r w' (E & Egot & Hw'). rewrite wp_ret, E, Nat2Z.id. done.
Qed.

(** C27. The receive side of a TCP connection is a mailbox with room for one segment. Whatever segments the
    peer sends and however the calls of [net_recv] lie between them, each call returns what the mailbox
    returns: the first bytes of the last segment, if that was not asked for yet, and nothing otherwise.
    So data is delivered in full exactly when every segment is read before the next one comes, with one
    call. *)
Theorem tcp_receive_refines_mailbox src sport dport seq ack i rest m w es outs m' :
  holds src sport dport i m w → 0 ≤ sport < 2 ^ 16 → 0 ≤ dport < 2 ^ 16 →
  (∀ e, e ∈ es → match e with Segment p => 20 + Z.of_nat (length p) < 2 ^ 16 | Recv max => 0 ≤ max end) →
  announced m + Z.of_nat (length es) < 2 ^ 31 → mailbox_run es m = Some (outs, m') →
  wp (tcp_run src sport dport seq ack i rest es) (λ r w', r = outs ∧ holds src sport dport i m' w') w.
Proof.
  intros Hh Hsp Hdp. revert m w outs Hh. induction es as [|e es IH]; intros m w outs Hh Hes Hann Hrun.
  { cbn in Hrun. simplify_eq. cbn [tcp_run]. by rewrite wp_ret. }
  cbn [mailbox_run] in Hrun. destruct (mailbox_step e m) as [[o m1]|] eqn:Hstep; [|done]. cbn in Hrun.
  destruct (mailbox_run es m1) as [[o' m2]|] eqn:Hrest; [|done]. cbn in Hrun. simplify_eq.
  pose proof (Hes e ltac:(left)) as He.
  cbn [length] in Hann. destruct e as [p|max]; cbn [mailbox_step] in Hstep.
  - injection Hstep as <- <-. cbn [tcp_run]. cbv zeta. rewrite wp_bind. eapply wp_mono; [apply segment_holds; [exact Hh|done|done|done|lia]|].
    intros [] w1 Hw1. eapply wp_mono; [eapply IH; [exact Hw1|intros; apply Hes; by right| |exact Hrest]|done].
    destruct (fits p); cbn [announced]; lia.
  - destruct (Z.ltb_spec 0 (announced m)); [|done]. injection Hstep as <- <-. cbn [tcp_run]. rewrite wp_bind.
    eapply wp_mono; [by eapply recv_holds|]. intros got w1 [-> Hw1]. rewrite wp_bind.
    eapply wp_mono; [eapply IH; [exact Hw1|intros; apply Hes; by right|cbn [announced]; lia|exact Hrest]|].
    intros r w2 [-> Hw2]. by rewrite wp_ret.
Qed.
End receiver.

(** * Two hosts *)
Lemma connected_update {K D} i s n (w w' : net_world K D) : connected i s w → output w w' →
  connected i (s <| so_seq_num := n |>) (w' <| sockets ::= <[Z.to_nat i := s <| so_seq_num := n |>]> |>).
Proof.
  intros ((Hi & Hl) & Hu & Ht & Hst) Ho. split; [|done]. split; [done|]. cbn. apply list_lookup_insert_eq.
  rewrite (out_sockets _ _ Ho). by eapply lookup_lt_Some.
Qed.
Section connection.
Context {K D : Type} `{!NetServices K D} {calm : list ptr → K → Prop} {count : ptr → K → Z}.
Context `{!NetLaws calm count}.
Context {dA : net_driver_t D} {macA : mac_addr_t} {queuedA : list (list Z) → D → Prop} {capA : nat}.
Context `{!OutDriver dA macA queuedA capA}.
Context {dB : net_driver_t D} {macB : mac_addr_t} {queuedB : list (list Z) → D → Prop} {capB : nat}.
Context `{!OutDriver dB macB queuedB capB}.

(** C28. TCP data transfer, end to end, over an established connection between host A, which knows host B's
    hardware address, and B. [net_send] of up to 1446 bytes returns their number, adds it to the
    sequence number and hands one frame to A's driver. When B's network task gets that frame, whatever
    is behind it in the receive buffer, a payload of 1 to 1024 bytes is returned by the next [net_recv]
    up to the caller's limit, and what is beyond the limit is discarded; a payload of more than 1024
    bytes is dropped without a trace, although [net_send] reported success. *)
Theorem tcp_end_to_end qA wA i s data n timeout wB qB j m max timeout' rest :
  let src := ip_of wA in let sport := sa_port (so_local s) in let dport := sa_port (so_remote s) in
  let payload := take (Z.to_nat n) data in
  upA (calm := calm) (dA := dA) (queuedA := queuedA) qA wA → (length qA < capA)%nat →
  arp_find (ip_of wB) (arp_cache wA) = Some macB →
  connected i s wA → sa_addr (so_remote s) = ip_of wB → 0 ≤ sport < 2 ^ 16 → 0 ≤ dport < 2 ^ 16 →
  0 ≤ n ≤ Z.of_nat (length data) → n ≤ TCP_MAX →
  upB (calm := calm) (dB := dB) (queuedB := queuedB) qB wB →
  holds (calm := calm) (count := count) src sport dport j m wB → 0 ≤ announced m < 2 ^ 31 - 1 → 0 ≤ max →
  wp (net_send i data n timeout)
    (λ r wA', r = n ∧ connected i (s <| so_seq_num := u32 (so_seq_num s + n) |>) wA' ∧
      ∃ frame, upA (calm := calm) (dA := dA) (queuedA := queuedA) (qA ++ [frame]) wA' ∧
      wp (deliver frame rest) (λ _ wB1,
        if (1 <=? n) && (n <=? RX_BUFFER_SIZE) then
          wp (recv_bytes j max timeout') (λ got wB2, got = take (Z.to_nat max) payload ∧
            holds (calm := calm) (count := count) src sport dport j (Mailbox (announced m) []) wB2) wB1
        else holds (calm := calm) (count := count) src sport dport j m wB1) wB) wA.
Proof.
  intros src sport dport payload HupA Hcap Harp Hs Hip Hsp Hdp Hn Hmax HupB Hh Hann Hm.
  apply (send_prefix i s); [done..|]. unfold TCP_MAX in *.
  fold sport dport payload. set (segment := tcp_segment _ _ _ _ _).
  assert (Z.of_nat (length payload) = n) as Hp by (by apply sendto_peek).
  assert (Z.of_nat (length segment) = 20 + n) as Hd by (subst segment; rewrite tcp_segment_length; lia).
  eapply wp_mono; [eapply (ip_send_ok (d := dA) (mac := macA) (queued := queuedA) (capacity := capA) [] qA);
    [exact HupA|by apply not_elem_of_nil|lia| |by rewrite Hip]|].
  { unfold NET_BUFFER_SIZE, IP_HEADER_SIZE, ETH_HEADER_SIZE. lia. }
  intros r wA' (Ho & _ & q' & Hq' & Hr). destruct (Hr Hcap) as [-> ->]. rewrite bool_decide_eq_true_2 by done.
  split; [by eapply socket_is_output; [apply Hs|]|]. split; [done|]. split; [by eapply connected_update|].
  eexists. split; [destruct Hq'; by split|]. rewrite take_ge by lia. rewrite Hip.
  apply (deliver_ip_ok (queued := queuedB) (cap := capB)); [apply HupB|lia|].
  change (6 =? IP_PROTOCOL_ICMP) with false. change (6 =? IP_PROTOCOL_UDP) with false. change (6 =? IP_PROTOCOL_TCP) with true. cbv iota.
  eapply wp_mono; [apply (segment_holds (calm := calm) (count := count) src sport dport j _ _ payload rest m); [done..|lia|lia]|].
  intros [] wB1 Hw1. unfold fits in Hw1. rewrite Hp in Hw1.
  replace (1 <=? n) with (0 <? n) by (destruct (Z.ltb_spec 0 n), (Z.leb_spec 1 n); lia).
  destruct (_ && _); [|done]. eapply wp_mono; [apply (recv_holds src sport dport); [exact Hw1|done|cbn; lia]|].
  intros got wB2 [-> Hw2]. split; [done|]. cbn [announced] in Hw2. by replace (announced m + 1 - 1) with (announced m) in Hw2 by lia.
Qed.
End connection.

(** * Opening a connection *)

(** The segment that opens a connection, and the answer of a host that accepts it. *)
Definition syn_segment (sport dport seq : Z) : list Z :=
  tcp_bytes (TcpHeader (htons sport) (htons dport) (htonl seq) 0 0x50 TCP_FLAG_SYN (htons 1024) 0 0).
Definition synack_segment (sport dport seq ack window : Z) : list Z :=
  tcp_bytes (TcpHeader (htons sport) (htons dport) (htonl seq) (htonl ack) 0x50 (Z.lor TCP_FLAG_SYN TCP_FLAG_ACK) (htons window) 0 0).

Lemma ntohl_htonl h : 0 ≤ h < 2 ^ 32 → ntohl (htonl h) = h.
Proof.
  intros Hh. assert (le_decode (le_encode 4 h) = h) as E by (apply le_decode_encode; exact Hh).
  pose proof (le_encode_ok 4 h) as Hok. set (a := h mod 256). set (b := h / 256 mod 256). set (c := h / 256 / 256 mod 256).
  set (e := h / 256 / 256 / 256 mod 256). change (le_encode 4 h) with [a; b; c; e] in *.
  assert (bytes_ok [e; c; b; a]) as Hok' by (unfold bytes_ok in *; rewrite !Forall_cons in *; tauto).
  unfold ntohl. rewrite <-E at 1. rewrite htonl_bytes by done. rewrite htonl_bytes by done. exact E.
Qed.

(** The port that [net_connect] gives to a socket without one, and the next one. *)
Definition next_port (port : Z) : Z := if u16 (port + 1) =? 0 then 49152 else u16 (port + 1).
Definition is_ephemeral (port : Z) : Prop := 49152 ≤ port < 2 ^ 16.
Lemma next_port_ephemeral port : is_ephemeral port → is_ephemeral (next_port port).
Proof.
  unfold is_ephemeral, next_port. intros Hp. destruct (decide (port = 65535)) as [->|]; [done|].
  rewrite u16_small by lia. destruct (Z.eqb_spec (port + 1) 0); lia.
Qed.

(** [s] is connecting to [a] from [port]. *)
Definition connecting_to (port : Z) (a : sockaddr_in_t) (s : socket_t) : socket_t :=
  s <| so_local ::= λ l, l <| sa_port := port |> |> <| so_remote := a |> <| so_state := TCP_SYN_SENT |>.

Section connect.
Context {K D : Type} `{!NetServices K D} {calm : list ptr → K → Prop} {count : ptr → K → Z}.
Context `{!NetLaws calm count}.
Context {d : net_driver_t D} {mac : mac_addr_t} {queued : list (list Z) → D → Prop} {capacity : nat}.
Context `{!OutDriver d mac queued capacity}.
Implicit Types w : net_world K D.
Abbreviation up' := (up (calm := calm) (d := d) (queued := queued) []).

(** The accepting answer establishes the connection. *)
Lemma synack_ok src sport dport seq ack window i s rest w (Q : unit → net_world K D → Prop) :
  0 ≤ i < NET_MAX_SOCKETS → list_find (tcp_match dport sport src) (sockets w) = Some (Z.to_nat i, s) → so_state s = TCP_SYN_SENT →
  calm [] (kern w) → count (rx_sem i) (kern w) < 2 ^ 31 - 1 → 0 ≤ sport < 2 ^ 16 → 0 ≤ dport < 2 ^ 16 → 0 ≤ seq < 2 ^ 32 →
  (∀ k, calm [] k → count (rx_sem i) k = count (rx_sem i) (kern w) + 1 →
    Q tt (w <| kern := k |> <| sockets ::= <[Z.to_nat i := s <| so_state := TCP_ESTABLISHED |> <| so_ack_num := u32 (seq + 1) |>]> |>)) →
  wp (net_tcp_input (synack_segment sport dport seq ack window ++ rest) 20 src) Q w.
Proof.
  intros Hi Hf Hst Hc Hcnt Hsp Hdp Hseq HQ. unfold net_tcp_input, synack_segment, TCP_HEADER_SIZE.
  change (20 <? 20) with false. cbv iota. rewrite wp_bind. apply peek_head; [done|].
  rewrite tcp_of_bytes by (cbn; apply htons_range || apply htonl_range || lia).
  cbn [tcp_dest_port tcp_src_port tcp_flags tcp_data_offset_flags tcp_seq_num]. rewrite !ntohs_htons by lia.
  rewrite wp_bind, wp_gets, Hf. rewrite Z2Nat.id by lia. rewrite Hst.
  change (negb (Z.land (Z.lor TCP_FLAG_SYN TCP_FLAG_ACK) TCP_FLAG_ACK =? 0) && bool_decide (TCP_SYN_SENT = TCP_SYN_SENT)) with true.
  cbv iota zeta. rewrite ntohl_htonl by done. rewrite wp_bind.
  eapply (socket_update_ok i s); [apply list_find_Some in Hf as (Hl & _); by split|]. rewrite wp_bind.
  pose proof (rx_sem_ok i Hi) as Hsem. eapply wp_mono; [by apply (nl_semaphore_post (rx_sem i) [])|].
  intros r w' (_ & (k & -> & Hk) & Hck). rewrite wp_ret. apply (HQ k); [done|]. rewrite (Hk _ Hsem). by rewrite bool_decide_eq_true_2.
Qed.
(** The state in which [net_connect] sends the first segment: the socket has a port of its own and is
    waiting for an answer. *)
Definition own_port (s : socket_t) w : Z := if sa_port (so_local s) =? 0 then next_ephemeral_port w else sa_port (so_local s).
Definition started (i : Z) (a : sockaddr_in_t) (s : socket_t) w : net_world K D :=
  w <| sockets ::= <[Z.to_nat i := connecting_to (own_port s w) a s]> |>
    <| next_ephemeral_port ::= λ n, if sa_port (so_local s) =? 0 then next_port n else n |>.

Lemma connect_prefix i a s t w (Q : os_error_t → net_world K D → Prop) : socket_is i s w → so_in_use s = true → so_type s = SOCK_STREAM →
  wp (net_ip_send (sa_addr a) 6 (syn_segment (own_port s w) (sa_port a) (so_seq_num s)) 20)
    (λ err w1, if bool_decide (err = OS_OK) then
       wp (nv_semaphore_wait (rx_sem i) t) (λ err w2,
         if bool_decide (err = OS_OK) then wp (socket_at i) (λ s2, Q (if bool_decide (so_state s2 = TCP_ESTABLISHED) then OS_OK else OS_ERROR)) w2
         else wp (socket_update i (λ s, s <| so_state := TCP_CLOSED |>)) (λ _, Q OS_ERROR_TIMEOUT) w2) w1
     else Q OS_ERROR w1) (started i a s w) →
  wp (net_connect i (Some a) t) Q w.
Proof.
  intros Hs Hu Ht HQ. pose proof Hs as [Hi Hl]. assert (Z.to_nat i < length (sockets w))%nat as Hlt by by eapply lookup_lt_Some.
  unfold net_connect. rewrite wp_bind. eapply (valid_socket_ok i s); [done|done|]. rewrite bool_decide_eq_true_2 by done. cbn [negb].
  rewrite wp_bind, wp_when. match goal with |- if _ then _ else wp ?m _ _ => set (rest := m) end.
  assert (∀ s1 w1, socket_is i s1 w1 → sa_port (so_local s1) = own_port s w → so_seq_num s1 = so_seq_num s →
    w1 <| sockets ::= <[Z.to_nat i := s1 <| so_remote := a |> <| so_state := TCP_SYN_SENT |>]> |> = started i a s w →
    wp rest Q w1) as Hrest.
  { intros s1 w1 Hs1 Ep Eseq Ew. subst rest. pose proof Hs1 as [_ Hl1]. apply lookup_lt_Some in Hl1.
    cbn [assigned]. rewrite wp_bind, wp_ret, wp_bind. eapply (socket_update_ok i s1); [done|].
    rewrite wp_bind. eapply (socket_at_ok i (s1 <| so_remote := a |>)); [split; [done|]; cbn; by apply list_lookup_insert_eq|].
    rewrite wp_bind. eapply (socket_update_ok i (s1 <| so_remote := a |>)); [split; [done|]; cbn; by apply list_lookup_insert_eq|].
    match goal with |- wp _ _ ?w2 => assert (w2 = started i a s w) as -> end.
    { rewrite <-Ew. destruct w1. cbn. unfold set_field. cbn. by rewrite list_insert_insert_eq. }
    change (so_local (s1 <| so_remote := a |>)) with (so_local s1). change (so_seq_num (s1 <| so_remote := a |>)) with (so_seq_num s1).
    rewrite Ep, Eseq, wp_bind. eapply wp_mono; [exact HQ|]. intros err w2 HQ2. cbv beta in HQ2. case_bool_decide; cbn [negb]; [|by rewrite wp_ret].
    rewrite wp_bind. eapply wp_mono; [exact HQ2|]. intros err2 w3 HQ3. cbv beta in HQ3. case_bool_decide; cbn [negb]; rewrite wp_bind.
    - eapply wp_mono; [exact HQ3|]. intros s3 w4 HQ4. by rewrite wp_ret.
    - eapply wp_mono; [exact HQ3|]. intros [] w4 HQ4. by rewrite wp_ret. }
  clearbody rest. unfold started, connecting_to in Hrest. unfold own_port in Hrest. destruct (sa_port (so_local s) =? 0).
  - rewrite wp_bind, wp_gets, wp_bind. eapply (socket_update_ok i s); [done|]. rewrite wp_modify.
    eapply Hrest; [split; [done|cbn; by apply list_lookup_insert_eq]|done|done|].
    destruct w. cbn. unfold set_field. cbn. by rewrite list_insert_insert_eq.
  - apply (Hrest s); [done|done|done|]. destruct w, s as [? ? [] ? ? ? ? ? ?]. done.
Qed.
(** What happens while a task waits for a semaphore with the count 0 is [peer]: when that posts the
    semaphore, the wait takes the unit and succeeds. *)
Definition waits_for (peer : M (net_world K D) unit) : Prop := ∀ sem t w (Q : os_error_t → net_world K D → Prop),
  net_sem sem → calm [] (kern w) → count sem (kern w) = 0 →
  wp peer (λ _ w1, calm [] (kern w1) ∧ 0 < count sem (kern w1) ∧
    ∀ k, calm [] k → count sem k = count sem (kern w1) - 1 → Q OS_OK (w1 <| kern := k |>)) w →
  wp (nv_semaphore_wait sem t) Q w.

(** The socket at [i] is the only one with its local port. *)
Definition port_free (port i : Z) w : Prop :=
  ∀ j s, j ≠ Z.to_nat i → sockets w !! j = Some s → sa_port (so_local s) ≠ port.
Lemma match_started port i a s w : socket_is i s w → so_in_use s = true → so_type s = SOCK_STREAM → port_free port i w →
  own_port s w = port →
  list_find (tcp_match port (sa_port a) (sa_addr a)) (sockets (started i a s w)) = Some (Z.to_nat i, connecting_to port a s).
Proof.
  intros [Hi Hl] Hu Ht Hfree <-. apply list_find_Some. split_and!.
  - cbn. by eapply list_lookup_insert_eq, lookup_lt_Some.
  - split; [done|]. split; [done|]. split; [done|]. split; [|done]. cbn. by rewrite ipv4_equal_spec, bool_decide_eq_true_2.
  - intros j s' Hj Hlt (_ & _ & Hp & _). cbn in Hj. rewrite list_lookup_insert_ne in Hj by lia. by eapply (Hfree j s'); [lia|..].
Qed.

(** C26. The TCP handshake. A stream socket calls [net_connect] for an address whose hardware address is known,
    and while the task waits, its host gets the SYN-ACK segment of the other host. Then exactly one
    frame has been sent, the SYN segment from the port of the socket (the next ephemeral port, if it had
    none, after which the counter moves on and stays among the ephemeral ports), and the call returns
    [OS_OK] with the connection established and the acknowledgement number one more than the sequence
    number of the other host. The socket's own sequence number is still that of the SYN segment. *)
Theorem tcp_handshake i a s t amac seq ack window rest q w :
  let port := own_port s w in
  let answer := ip_frame amac mac (ip_packet 0 IP_PROTOCOL_TCP (sa_addr a) (ip_of w) (synack_segment (sa_port a) port seq ack window)) in
  waits_for (deliver answer rest) →
  up' q w → (length q < capacity)%nat → arp_find (sa_addr a) (arp_cache w) = Some amac →
  socket_is i s w → so_in_use s = true → so_type s = SOCK_STREAM → count (rx_sem i) (kern w) = 0 →
  is_ephemeral (next_ephemeral_port w) → 0 ≤ sa_port (so_local s) < 2 ^ 16 → port_free port i w →
  0 ≤ sa_port a < 2 ^ 16 → 0 ≤ seq < 2 ^ 32 →
  wp (net_connect i (Some a) t) (λ r w', r = OS_OK ∧
    up' (q ++ [ip_frame mac amac (ip_packet 0 IP_PROTOCOL_TCP (ip_of w) (sa_addr a) (syn_segment port (sa_port a) (so_seq_num s)))]) w' ∧
    connected i (connecting_to port a s <| so_state := TCP_ESTABLISHED |> <| so_ack_num := u32 (seq + 1) |>) w' ∧
    is_ephemeral (next_ephemeral_port w') ∧ count (rx_sem i) (kern w') = 0) w.
Proof.
  intros port answer Hwait Hup Hcap Harp Hs Hu Ht Hcnt Heph Hlp Hfree Hap Hseq.
  apply (connect_prefix i a s); [done..|]. pose proof Hs as [Hi Hl]. fold port. set (w0 := started i a s w).
  assert (0 ≤ port < 2 ^ 16) as Hport by (subst port; unfold own_port, is_ephemeral in *; destruct (_ =? 0); lia).
  pose proof (match_started port i a s w Hs Hu Ht Hfree eq_refl) as Hfind. fold w0 in Hfind.
  assert (is_ephemeral (next_ephemeral_port w0)) as Heph0 by (subst w0; cbn; destruct (_ =? 0); [by apply next_port_ephemeral|done]).
  assert (up' q w0) as Hup0 by (destruct Hup; by split). assert (ip_of w0 = ip_of w) as Eip by done.
  assert (count (rx_sem i) (kern w0) = 0) as Hcnt0 by done. assert (arp_cache w0 = arp_cache w) as Ea by done.
  clearbody w0. eapply wp_mono; [eapply (ip_send_ok (d := d) (mac := mac) (queued := queued) (capacity := capacity) [] q);
    [exact Hup0|by apply not_elem_of_nil|cbn; lia| |by rewrite Ea]|].
  { unfold NET_BUFFER_SIZE, IP_HEADER_SIZE, ETH_HEADER_SIZE. lia. }
  intros r w1 (Ho & Hsame & q' & Hq' & Hr). destruct (Hr Hcap) as [-> ->]. rewrite bool_decide_eq_true_2 by done. clear Hr.
  pose proof (rx_sem_ok i Hi) as Hsem. change (cfg_ip (current_config w0)) with (ip_of w0) in Hq'. rewrite Eip, take_ge in Hq' by (cbn; lia).
  assert (ip_of w1 = ip_of w) as Eip1 by (unfold ip_of in *; by rewrite (out_config _ _ Ho)).
  rewrite <-(out_sockets _ _ Ho) in Hfind. rewrite <-(out_port _ _ Ho) in Heph0. rewrite <-(Hsame _ Hsem) in Hcnt0. clear Ho Hsame.
  apply Hwait; [done|apply Hq'|done|]. subst answer. rewrite <-Eip1.
  apply (deliver_ip_ok (queued := queued) (cap := capacity)); [apply Hq'|cbn; lia|].
  change (IP_PROTOCOL_TCP =? IP_PROTOCOL_ICMP) with false. change (IP_PROTOCOL_TCP =? IP_PROTOCOL_UDP) with false.
  change (IP_PROTOCOL_TCP =? IP_PROTOCOL_TCP) with true. cbv iota.
  change (Z.of_nat (length (synack_segment (sa_port a) port seq ack window))) with 20.
  eapply synack_ok; [done|exact Hfind|done|apply Hq'|lia|done|done|done|]. intros k Hk Hck. split; [done|]. split; [cbn; lia|].
  intros k' Hk' Hck'. rewrite bool_decide_eq_true_2 by done.
  set (s2 := connecting_to port a s <| so_state := TCP_ESTABLISHED |> <| so_ack_num := u32 (seq + 1) |>).
  apply list_find_Some in Hfind as (Hl1 & _). apply lookup_lt_Some in Hl1.
  assert (socket_is i s2 (w1 <| kern := k |> <| sockets ::= <[Z.to_nat i := s2]> |> <| kern := k' |>)) as Hs2
    by (split; [done|]; cbn; by apply list_lookup_insert_eq).
  eapply socket_at_ok; [exact Hs2|]. rewrite bool_decide_eq_true_2 by done. split; [done|].
  split; [rewrite Eip1; destruct Hq'; by split|]. split; [by split|]. split; [done|]. cbn in Hck' |- *. lia.
Qed.
End connect.

(** * Examples *)

(** Host A (port 4000) and host B (port 80) with a connection. *)
Definition stream_socket (local remote : sockaddr_in_t) : socket_t :=
  Socket SOCK_STREAM true local remote TCP_ESTABLISHED (replicate 1024 0) 0 7 9.
Definition stream_a : socket_t := stream_socket (SockAddr ip_a 4000) (SockAddr ip_b 80).
Definition stream_b : socket_t := stream_socket (SockAddr ip_b 80) (SockAddr ip_a 4000).
Definition client_a : net_world host_kernel loopback_t :=
  host ip_a (ArpEntry ip_b loopback_mac 5 true :: replicate 7 blank_entry) (stream_a :: replicate 7 blank_socket).
Definition server_b : net_world host_kernel loopback_t :=
  host ip_b (replicate 8 blank_entry) (stream_b :: replicate 7 blank_socket).
Lemma server_holds : holds (calm := hk_calm) (count := hk_count) ip_a 4000 80 0 (Mailbox 0 []) server_b.
Proof.
  split; [done|done|]. exists stream_b. split_and!; [|done..].
  split; [unfold NET_MAX_SOCKETS; lia|]. split; [vm_compute; reflexivity|done].
Qed.

Lemma tcp_end_to_end_witness :
  wp (net_send 0 [1; 2; 3] 3 0)
    (λ r wA', r = 3 ∧ connected 0 (stream_a <| so_seq_num := 10 |>) wA' ∧
      ∃ frame, upA (calm := hk_calm) (dA := loopback_driver) (queuedA := frames) [frame] wA' ∧
      wp (deliver frame [9; 9]) (λ _ wB1, wp (recv_bytes 0 2 0) (λ got wB2, got = [1; 2] ∧
        holds (calm := hk_calm) (count := hk_count) ip_a 4000 80 0 (Mailbox 0 []) wB2) wB1) server_b) client_a.
Proof.
  apply (tcp_end_to_end (calm := hk_calm) (count := hk_count) (dA := loopback_driver) (macA := loopback_mac) (queuedA := frames)
    (capA := 3) (dB := loopback_driver) (macB := loopback_mac) (queuedB := frames) (capB := 3)
    [] client_a 0 stream_a [1; 2; 3] 3 0 server_b [] 0 (Mailbox 0 []) 2 0 [9; 9]);
    [apply host_up|cbn; lia|done|split; [split; [unfold NET_MAX_SOCKETS; lia|done]|done]|done|cbn; lia|cbn; lia|cbn; lia
    |unfold TCP_MAX; lia|apply host_up|apply server_holds|cbn; lia|lia].
Defined.

(** Two segments before the first call: the first one is lost, and the second call returns nothing. *)
Lemma tcp_receive_refines_mailbox_witness :
  wp (tcp_run ip_a 4000 80 7 9 0 [] [Segment [1; 2; 3]; Segment [4; 5]; Recv 1; Recv 8])
    (λ r w', r = [[4]; []] ∧ holds (calm := hk_calm) (count := hk_count) ip_a 4000 80 0 (Mailbox 0 []) w') server_b.
Proof.
  apply (tcp_receive_refines_mailbox (calm := hk_calm) (count := hk_count) ip_a 4000 80 7 9 0 [] (Mailbox 0 []));
    [apply server_holds|lia|lia| |cbn; lia|reflexivity].
  intros e He. repeat (apply elem_of_cons in He as [->|He]; [cbn; lia|]). by apply elem_of_nil in He.
Defined.

(** The kernel of the examples, in which [peer] happens while a task waits. *)
Definition waiting_services (peer : M (net_world host_kernel loopback_t) unit) : NetServices host_kernel loopback_t := {|
  nv_mutex_init := nv_mutex_init;
  nv_mutex_lock := nv_mutex_lock;
  nv_mutex_unlock := nv_mutex_unlock;
  nv_semaphore_init := nv_semaphore_init;
  nv_semaphore_wait s t :=
    let! n := gets (λ w, hk_count s (kern w)) in
    (if 0 <? n then ret tt else peer) ;;;
    nv_semaphore_wait s t;
  nv_semaphore_post := nv_semaphore_post;
  nv_task_delay := nv_task_delay;
  nv_task_create := nv_task_create;
  nv_ticks := nv_ticks (D := loopback_t)
|}.
Lemma waiting_laws peer : NetLaws (NetServices0 := waiting_services peer) hk_calm hk_count.
Proof.
  destruct (host_laws loopback_t) as [H1 H2 H3 H4 H5 H6]. split; [exact H1|exact H2|exact H3|exact H4|exact H5|].
  intros s t L w Hs Hc Hn. cbn [nv_semaphore_wait waiting_services]. rewrite wp_bind, wp_gets. rewrite (proj2 (Z.ltb_lt _ _)) by done.
  rewrite wp_bind, wp_ret. by apply H6.
Qed.
Lemma waiting_waits peer : waits_for (NetServices0 := waiting_services peer) (calm := hk_calm) (count := hk_count) peer.
Proof.
  intros s t w Q Hs Hc Hn Hp. cbn [nv_semaphore_wait waiting_services]. rewrite wp_bind, wp_gets, Hn. change (0 <? 0) with false. cbv iota.
  rewrite wp_bind. eapply wp_mono; [exact Hp|]. intros [] w1 (Hc1 & Hn1 & HQ).
  destruct (host_laws loopback_t) as [_ _ _ _ _ Hwait].
  eapply wp_mono; [by apply (Hwait s t [])|]. intros r w2 (-> & (k & -> & Hk) & Hc2). apply HQ; [done|].
  rewrite (Hk s Hs), bool_decide_eq_true_2 by done. lia.
Qed.

(** Host A connects to port 80 of host B, which answers with the sequence number 1000. *)
Definition closed_a : socket_t := Socket SOCK_STREAM true (SockAddr ip_a 0) (SockAddr ip_a 0) TCP_CLOSED (replicate 1024 0) 0 7 0.
Definition opening_a : net_world host_kernel loopback_t :=
  host ip_a (ArpEntry ip_b loopback_mac 5 true :: replicate 7 blank_entry) (closed_a :: replicate 7 blank_socket).
Definition answer_b : list Z :=
  ip_frame loopback_mac loopback_mac (ip_packet 0 IP_PROTOCOL_TCP ip_b ip_a (synack_segment 80 49152 1000 8 500)).
Lemma tcp_handshake_witness :
  let _ := waiting_services (deliver answer_b []) in
  wp (net_connect 0 (Some (SockAddr ip_b 80)) 5000) (λ r w', r = OS_OK ∧ ∃ s, connected 0 s w' ∧ so_seq_num s = 7 ∧ so_ack_num s = 1001)
    opening_a.
Proof.
  eapply wp_mono; [apply (tcp_handshake (NetServices0 := waiting_services (deliver answer_b [])) (calm := hk_calm) (count := hk_count)
    (NetLaws0 := waiting_laws _) (d := loopback_driver) (mac := loopback_mac) (queued := frames) (capacity := 3)
    0 (SockAddr ip_b 80) closed_a 5000 loopback_mac 1000 8 500 [] [])|];
    [apply waiting_waits|apply host_up|cbn; lia|done|split; [unfold NET_MAX_SOCKETS; lia|done]|done|done|done|split; cbn; lia
    |cbn; lia| |cbn; lia|lia|].
  - intros j s Hj Hl. destruct j as [|j]; [done|]. change (replicate 7 blank_socket !! j = Some s) in Hl. apply lookup_replicate in Hl as [-> _]. done.
  - intros r w' (-> & _ & Hc & _). split; [done|]. eexists. by split; [exact Hc|].
Defined.
