(* ===== verification/CoapNet.v ===== *)
(** CoapNet: a CoAP server on the network stack.

    The services that [CoapServer] asks for are discharged by the sockets of [Net], so that the
    theorem on the server becomes one about the frames on the network: a frame with a request goes in,
    a frame with the reply comes out. *)
From Stdlib Require Import ZArith Lia.
From stdpp Require Import base numbers list gmap.
From S2P Require Import Prelude Types Bytes Coap CoapTheorems CoapServer.
From S2P Require Import Net Loopback NetTheorems NetStack NetDelivery NetBuffers NetLoopback.

(** * Sockets *)

(** CoAP handles an IP address as the number its four bytes are in memory. *)
Definition ip_number (a : ipv4_addr_t) : Z := le_decode (ip_bytes a).
Definition number_ip (n : Z) : ipv4_addr_t := ip_at 0 (le_encode 4 n).
Lemma number_ip_number a : bytes_ok (ip_bytes a) → number_ip (ip_number a) = a.
Proof.
  intros Ha. unfold number_ip, ip_number.
  assert (le_encode 4 (le_decode (ip_bytes a)) = ip_bytes a) as -> by by apply (le_encode_decode (ip_bytes a)).
  by destruct a.
Qed.

Section coap_net.
Context {K D : Type} `{!NetServices K D}.
Abbreviation N := (net_world K D).
(** The allocator, which the server does not use. *)
Context (malloc : Z → M N Z) (free : Z → M N unit).

(** The calls that coap.c makes. *)
#[local] Instance coap_over_net : CoapServices N := {|
  sv_socket := net_socket SOCK_DGRAM;
  sv_bind s a := net_bind s (Some (SockAddr (number_ip a.1) a.2));
  sv_close s := let! _ := net_close s in ret tt;
  sv_sendto s data a := net_sendto s data (Z.of_nat (length data)) (Some (SockAddr (number_ip a.1) a.2));
  sv_recvfrom s max :=
    let! r := net_recvfrom s (replicate (Z.to_nat max) 0) max true in
    ret (r.1.1, take (Z.to_nat r.1.1) r.1.2,
         match r.2 with Some a => (ip_number (sa_addr a), sa_port a) | None => (0, 0) end);
  sv_malloc := malloc;
  sv_free := free;
  sv_ticks w := nv_ticks (kern w)
|}.

Context {calm : list ptr → K → Prop} {count : ptr → K → Z} `{!NetLaws calm count}.
Context {d : net_driver_t D} {mac : mac_addr_t} {queued : list (list Z) → D → Prop} {capacity : nat}.
Context `{!OutDriver d mac queued capacity}.
Abbreviation up' := (up (calm := calm) (d := d) (queued := queued) []).

(** The frame in which a datagram travels. *)
Definition datagram_frame (from to : mac_addr_t) (src dest : sockaddr_in_t) (payload : list Z) : list Z :=
  ip_frame from to (ip_packet 0 IP_PROTOCOL_UDP (sa_addr src) (sa_addr dest) (udp_datagram (sa_port src) (sa_port dest) payload)).

(** A datagram is received from the network and handed to CoAP. *)
Lemma receive_datagram smac src port j t payload rest q e : up' q e → bound port j t e →
  length (so_rx_buffer t) = Z.to_nat RX_BUFFER_SIZE → 0 ≤ count (rx_sem j) (kern e) < 2 ^ 31 - 1 →
  0 ≤ sa_port src < 2 ^ 16 → 0 ≤ port < 2 ^ 16 → Z.of_nat (length payload) ≤ RX_BUFFER_SIZE →
  ∃ e1 e2, deliver (datagram_frame smac mac src (SockAddr (ip_of e) port) payload) rest e = Ret tt e1 ∧
    sv_recvfrom j COAP_MAX_PDU_SIZE e1 = Ret (len payload, payload, (ip_number (sa_addr src), sa_port src)) e2 ∧
    up' q e2 ∧ current_config e2 = current_config e ∧ arp_cache e2 = arp_cache e ∧
    ∃ t', socket_is j t' e2 ∧ so_in_use t' = true ∧ so_type t' = SOCK_DGRAM ∧ sa_port (so_local t') = port.
Proof.
  intros Hup Hb Hrx Hcnt Hsp Hp Hlen. unfold RX_BUFFER_SIZE in *. destruct (bound_socket _ _ _ _ Hb) as [Ht (Hu & Hty & Hlp)].
  assert (∃ u e1, deliver (datagram_frame smac mac src (SockAddr (ip_of e) port) payload) rest e = Ret u e1 ∧ ∃ k, calm [] k ∧
    count (rx_sem j) k = count (rx_sem j) (kern e) + 1 ∧
    e1 = e <| kern := k |> <| sockets ::= <[Z.to_nat j := received (sa_addr src) (sa_port src) payload t]> |>) as ([] & e1 & Ed & k & Hk & Hck & ->).
  { apply wp_elim. unfold datagram_frame. cbn [sa_addr sa_port].
    assert (Z.of_nat (length (udp_datagram (sa_port src) port payload)) = 8 + Z.of_nat (length payload)) as El
      by (unfold udp_datagram; rewrite length_app, udp_length_bytes; lia).
    apply (deliver_ip_ok (queued := queued) (cap := capacity)); [apply Hup|lia|].
    rewrite El. change (IP_PROTOCOL_UDP =? IP_PROTOCOL_ICMP) with false. change (IP_PROTOCOL_UDP =? IP_PROTOCOL_UDP) with true. cbv iota.
    eapply udp_input_ok; [exact Hb|apply Hup|lia|lia|lia|lia|]. intros k Hk Hck _. exists k. split; [done|]. split; [done|].
    by rewrite take_ge by (unfold RX_BUFFER_SIZE; lia). }
  set (t' := received _ _ _ _) in *. set (e1 := e <| kern := k |> <| sockets ::= _ |>) in *.
  assert (socket_is j t' e1) as Ht'.
  { destruct Ht as [Hj Hl]. split; [done|]. cbn. by eapply list_lookup_insert_eq, lookup_lt_Some. }
  exists e1. assert (∃ r e2, sv_recvfrom j COAP_MAX_PDU_SIZE e1 = Ret r e2 ∧
    r = (len payload, payload, (ip_number (sa_addr src), sa_port src)) ∧ ∃ k', calm [] k' ∧
    e2 = e1 <| kern := k' |> <| sockets ::= <[Z.to_nat j := t' <| so_rx_length := 0 |>]> |>) as (r & e2 & Er & -> & k' & Hk' & ->).
  { apply wp_elim. cbn [sv_recvfrom coap_over_net]. rewrite wp_bind. eapply (recvfrom_ok (calm := calm) (count := count) j t' payload).
    - exact Ht'.
    - done.
    - done.
    - done.
    - cbn. lia.
    - done.
    - cbn. apply (slice_put_same 0). lia.
    - rewrite length_replicate. unfold COAP_MAX_PDU_SIZE. lia.
    - intros k' Hk' _ got. rewrite wp_ret. cbn [fst snd]. rewrite Nat2Z.id.
      assert (got = payload) as -> by (apply take_ge; unfold COAP_MAX_PDU_SIZE; lia). split; [|by exists k'].
      f_equal. f_equal. apply (slice_put_same 0). rewrite length_replicate. unfold COAP_MAX_PDU_SIZE. lia. }
  eexists. split; [exact Ed|]. split; [exact Er|]. split; [destruct Hup; by split|]. split; [done|]. split; [done|].
  exists (t' <| so_rx_length := 0 |>). split; [|done]. destruct Ht' as [Hj Hl]. split; [done|]. cbn.
  eapply list_lookup_insert_eq. rewrite length_insert. eapply lookup_lt_Some, Ht.
Qed.

(** A datagram that CoAP sends goes out as a frame. *)
Lemma send_datagram j t payload dest dmac q e : up' q e → (length q < capacity)%nat → socket_is j t e → so_in_use t = true →
  so_type t = SOCK_DGRAM → bytes_ok (ip_bytes (sa_addr dest)) → arp_find (sa_addr dest) (arp_cache e) = Some dmac →
  Z.of_nat (length payload) ≤ UDP_MAX →
  ∃ n e', sv_sendto j payload (ip_number (sa_addr dest), sa_port dest) e = Ret n e' ∧
    up' (q ++ [datagram_frame mac dmac (SockAddr (ip_of e) (sa_port (so_local t))) dest payload]) e'.
Proof.
  intros Hup Hcap Ht Hu Hty Hip Harp Hlen. apply wp_elim. cbn [sv_sendto coap_over_net fst snd]. rewrite number_ip_number by done.
  unfold UDP_MAX in *. apply (sendto_prefix j t); [done|done|done|lia|unfold UDP_MAX; lia|]. rewrite Nat2Z.id, firstn_all.
  set (dgram := udp_datagram _ _ _). assert (Z.of_nat (length dgram) = 8 + Z.of_nat (length payload)) as Hd
    by (subst dgram; unfold udp_datagram; rewrite length_app, udp_length_bytes; lia).
  eapply wp_mono; [eapply (ip_send_ok (d := d) (mac := mac) (queued := queued) (capacity := capacity) [] q);
    [exact Hup|by apply not_elem_of_nil|lia| |exact Harp]|].
  { unfold NET_BUFFER_SIZE, IP_HEADER_SIZE, ETH_HEADER_SIZE. lia. }
  intros r e' (_ & _ & q' & Hq' & Hr). destruct (Hr Hcap) as [_ ->]. unfold datagram_frame. cbn [sa_addr sa_port].
  rewrite take_ge in Hq' by lia. by destruct dest.
Qed.

(** * The server *)
Section answering.
Context (junk : nat → Z) (junk_pdu : coap_pdu_t) (call_handler : Z → Z → Z → Z → Z → Z → M (coap_world N) unit).
Context `{!ResourceHandlers call_handler}.
(** The arrays of a local [coap_pdu_t] have their sizes. *)
Hypotheses (junk_token : length (p_token junk_pdu) = 8%nat) (junk_options : length (p_options junk_pdu) = 16%nat).

(** C29. CoAP over the network stack, from frame to frame. A host runs a CoAP server on a datagram socket
    and knows the hardware address of the client. When its network task gets the frame of a well-formed
    request of up to 1024 bytes (whatever is behind it in the receive buffer), the next [coap_process]
    returns [COAP_OK] and hands exactly one frame to the driver: the datagram from the server's port to
    the client's address and port with the encoding of the reply, which carries the identifier and the
    token of the request and is what the handler of the resource with the path of the request makes it,
    or 4.04 Not Found. Nothing else of the server changes. *)
Theorem coap_over_udp w context c m l src smac port t rest q :
  context ≠ 0 → contexts w !! context = Some c → is_server c = true →
  up' q (env w) → (length q < capacity)%nat → bound port (socket_fd c) t (env w) →
  length (so_rx_buffer t) = Z.to_nat RX_BUFFER_SIZE → 0 ≤ count (rx_sem (socket_fd c)) (kern (env w)) < 2 ^ 31 - 1 →
  0 ≤ sa_port src < 2 ^ 16 → 0 ≤ port < 2 ^ 16 → bytes_ok (ip_bytes (sa_addr src)) →
  arp_find (sa_addr src) (arp_cache (env w)) = Some smac →
  message_ok m → path_ok m → code_class (m_code m) = 0 → len (wire m) ≤ RX_BUFFER_SIZE →
  CoapServer.chain (resource_at w) (resources c) l → NoDup l.*1 → Forall (λ x, known call_handler (handler x.2)) l →
  static call_handler (objs w) → fresh_locals w → len (wire (CoapServer.answer call_handler l m)) ≤ COAP_MAX_PDU_SIZE →
  let here := SockAddr (ip_of (env w)) port in
  wp (on_env (deliver (datagram_frame smac mac src here (wire m)) rest) ;;; coap_process junk junk_pdu call_handler context)
    (λ r w', r = COAP_OK ∧ (∃ e, w' = w <| env := e |> <| locals ::= λ x, x - 4 |>) ∧
      up' (q ++ [datagram_frame mac smac here src (wire (CoapServer.answer call_handler l m))]) (env w')) w.
Proof.
  intros Hctx Hc Hsrv Hup Hcap Hb Hrx Hcnt Hsp Hp Hip Harp Hok Hpath Hclass Hlen Hchain Hnd Hknown Hstat Hfresh Hanswer here.
  destruct (receive_datagram smac src port (socket_fd c) t (wire m) rest q (env w)) as (e1 & e2 & Ed & Er & Hup2 & Ecfg & Earp & t' & Ht' & Hu' & Hty' & Hlp');
    [done..|].
  destruct (send_datagram (socket_fd c) t' (wire (CoapServer.answer call_handler l m)) src smac q e2) as (n & e3 & Es & Hup3);
    [done|done|done|done|done|done|by rewrite Earp|unfold COAP_MAX_PDU_SIZE, len, UDP_MAX in *; lia|].
  assert (ip_of e2 = ip_of (env w)) as Eip by (unfold ip_of; by rewrite Ecfg). rewrite Hlp', Eip in Hup3.
  unfold on_env at 1. rewrite wp_bind, wp_zoom. eapply wp_intro; [exact Ed|].
  eapply wp_mono; [eapply (coap_server_answers junk junk_pdu call_handler junk_token junk_options (w <| env := e1 |>) context c m l e2 _ e3)|].
  all: destruct w as [e0 og ps cs ras rs lo]; cbn [env objs pdus contexts resource_at responses locals set_field] in *; try done.
  - by destruct Hb as [[? ?] _].
  - unfold len, RX_BUFFER_SIZE, COAP_MAX_PDU_SIZE in *. lia.
  - unfold CoapServer.sends. rewrite (proj2 (Z.leb_le _ _)) by done. by exists n.
  - intros r w' [-> ->]. split; [done|]. split; [by exists e3|]. exact Hup3.
Qed.
End answering.
End coap_net.

(** * Example *)

(** Host B serves /temp on port 5683; host A asks for it from port 4000. *)
Definition coap_host : net_world host_kernel loopback_t :=
  host ip_b (ArpEntry ip_a loopback_mac 5 true :: replicate 7 blank_entry) (datagram_socket ip_b 5683 :: replicate 7 blank_socket).
Definition temp_server : coap_world (net_world host_kernel loopback_t) :=
  World coap_host {[ 5 := [50; 49]; 6 := [0] ]} ∅
    {[ 1 := Context (Endpoint 0 5683) 0 1 10 0 0 0 true ]} {[ 10 := temp_resource ]} ∅ (-1).
Lemma temp_server_ok : static (temp_handler (E := net_world host_kernel loopback_t)) (objs temp_server) ∧ fresh_locals temp_server.
Proof.
  split; [split; (split; [done|]; split; [done|]; eexists; by vm_compute)|].
  split; [cbn; lia|]. intros x Hx. cbn in Hx.
  split; [|done]. cbn. by rewrite lookup_insert_ne, lookup_singleton_ne by lia.
Qed.
Lemma ip_a_ok : bytes_ok (ip_bytes ip_a).
Proof. unfold bytes_ok, ip_bytes, ip_a. cbn [ip0 ip1 ip2 ip3]. rewrite !Forall_cons. repeat split; try lia. by apply Forall_nil. Qed.
Definition no_malloc (n : Z) : M (net_world host_kernel loopback_t) Z := ret 0.
Definition no_free (a : Z) : M (net_world host_kernel loopback_t) unit := ret tt.

Lemma coap_over_udp_witness :
  let _ := coap_over_net no_malloc no_free in
  wp (on_env (deliver (datagram_frame loopback_mac loopback_mac (SockAddr ip_a 4000) (SockAddr ip_b 5683) (wire get_temp)) [7]) ;;;
      coap_process (λ _, 0) pdu_zero temp_handler 1)
    (λ r w', r = COAP_OK ∧ up (calm := hk_calm) (d := loopback_driver) (queued := frames) []
      [datagram_frame loopback_mac loopback_mac (SockAddr ip_b 5683) (SockAddr ip_a 4000) (wire (temp_reply get_temp))] (env w'))
    temp_server.
Proof.
  eapply wp_mono; [apply (coap_over_udp no_malloc no_free (calm := hk_calm) (count := hk_count) (d := loopback_driver) (mac := loopback_mac)
    (queued := frames) (capacity := 3) (λ _, 0) pdu_zero temp_handler eq_refl eq_refl temp_server 1
    (Context (Endpoint 0 5683) 0 1 10 0 0 0 true) get_temp [(10, temp_resource)] (SockAddr ip_a 4000) loopback_mac 5683
    (datagram_socket ip_b 5683) [7] [])|];
    [done|done|done|apply host_up|cbn; lia|split; [unfold NET_MAX_SOCKETS; cbn; lia|vm_compute; reflexivity]|done
    |change (0 ≤ 0 < 2 ^ 31 - 1); lia|cbn; lia|lia|exact ip_a_ok|done|exact get_temp_ok|exact get_temp_path|done
    |vm_compute; done| | | |exact (proj1 temp_server_ok)|exact (proj2 temp_server_ok)|vm_compute; done|].
  - cbn. repeat split; [done|]. vm_compute. set_solver.
  - cbn. apply NoDup_singleton.
  - by repeat constructor.
  - by intros r w' (-> & _ & ?).
Defined.
