(* ===== verification/NetSafety.v ===== *)
(** NetSafety: what a frame from the network can do to the stack.

    The network task hands every received frame to [net_ethernet_input], whatever its bytes. The
    theorem of this file delimits exactly which frames are harmless; [NetDefects] has the others. *)
From Stdlib Require Import ZArith Lia.
From stdpp Require Import base numbers list gmap.
From S2P Require Import Prelude Types Bytes Net Loopback NetTheorems NetStack NetDelivery NetBuffers NetLoopback.

(** The fields of a received frame that decide: its IP header (behind the Ethernet header), the length
    of that header, and the length of the packet. *)
Definition frame_ip (frame : list Z) : ip_header_t := ip_header_of (take 20 (drop 14 frame)).
Definition frame_ihl (frame : list Z) : Z := u8 (Z.land (ip_version_ihl (frame_ip frame)) 0x0F * 4).
Definition frame_total (frame : list Z) : Z := ntohs (ip_total_length (frame_ip frame)).
(** An ICMP message in a packet that claims to be shorter than its own header. *)
Definition undersized_icmp (frame : list Z) : Prop :=
  ip_protocol (frame_ip frame) = IP_PROTOCOL_ICMP ∧ frame_total frame < frame_ihl frame.

Section safety.
Context {K D : Type} `{!NetServices K D} {calm : list ptr → K → Prop} {count : ptr → K → Z}.
Context `{!NetLaws calm count}.
Context {d : net_driver_t D} {mac : mac_addr_t} {queued : list (list Z) → D → Prop} {capacity : nat}.
Context `{!OutDriver d mac queued capacity}.
Implicit Types w : net_world K D.

(** The invariant of the stack: a working driver, a calm kernel, and arrays of the right sizes. *)
Record sound w : Prop := {
  so_up : ∃ q, up (calm := calm) (d := d) (queued := queued) [] q w;
  so_arp : arp_cache w ≠ [];
  so_sockets : length (sockets w) = Z.to_nat NET_MAX_SOCKETS;
  so_buffers : Forall (λ s, length (so_rx_buffer s) = Z.to_nat RX_BUFFER_SIZE) (sockets w)
}.
(** No semaphore is about to overflow. *)
Definition sems_room w : Prop := ∀ s, net_sem s → count s (kern w) < 2 ^ 31 - 1.

Lemma sound_output q w w' : sound w → output w w' → up (calm := calm) (d := d) (queued := queued) [] q w' → sound w'.
Proof.
  intros [_ Ha Hs Hb] Ho Hq. split; [by exists q|by rewrite (out_arp _ _ Ho)|by rewrite (out_sockets _ _ Ho)|
    by rewrite (out_sockets _ _ Ho)].
Qed.

Lemma send_safe ip data n w : sound w → 0 ≤ n ≤ Z.of_nat (length data) →
  wp (net_ethernet_send_ip ip data n) (λ _ w', sound w') w.
Proof.
  intros Hw Hn. destruct (so_up _ Hw) as [q Hq].
  eapply wp_mono; [apply (ethernet_send_ok [] q); [exact Hq|by apply not_elem_of_nil|done]|].
  intros r w' Hr. destruct (_ <? n); [by destruct Hr as [_ ->]|].
  destruct (arp_find _ _); [|destruct Hr as [_ Hr]]; destruct Hr as (Ho & _ & q' & Hq' & _); by eapply sound_output.
Qed.

Lemma post_safe s w : sound w → sems_room w → net_sem s → wp (nv_semaphore_post s) (λ _ w', sound w') w.
Proof.
  intros [[q Hq] Ha Hs Hb] Hr Hsem. eapply wp_mono; [apply (nl_semaphore_post s []); [done|apply Hq|by apply Hr]|].
  intros r w' (_ & (k & -> & _) & Hc). split; [|done..]. exists q. destruct Hq. by split.
Qed.

Lemma store_safe i s f w : sound w → sockets w !! i = Some s → length (so_rx_buffer (f s)) = Z.to_nat RX_BUFFER_SIZE →
  sound (w <| sockets ::= <[i := f s]> |>).
Proof.
  intros [[q Hq] Ha Hs Hb] Hi Hf. split; [exists q; destruct Hq; by split|done|cbn; by rewrite length_insert|].
  cbn. by apply Forall_insert.
Qed.

(** Storing [bytes] in the buffer of socket [i] and waking up its reader. *)
Lemma receive_safe i s f w : sound w → sems_room w → sockets w !! i = Some s →
  length (so_rx_buffer (f s)) = Z.to_nat RX_BUFFER_SIZE →
  wp (socket_update (Z.of_nat i) f ;;; let! _ := nv_semaphore_post (rx_sem (Z.of_nat i)) in ret tt) (λ _ w', sound w') w.
Proof.
  intros Hw Hr Hi Hf. assert (i < length (sockets w))%nat as Hlt by by eapply lookup_lt_Some.
  rewrite (so_sockets _ Hw) in Hlt. unfold NET_MAX_SOCKETS in Hlt. rewrite wp_bind.
  eapply (socket_update_ok _ s); [split; [unfold NET_MAX_SOCKETS; lia|by rewrite Nat2Z.id]|].
  rewrite wp_bind, Nat2Z.id. eapply wp_mono; [apply post_safe; [by apply store_safe|exact Hr|unfold net_sem, rx_sem; lia]|].
  intros r w' Hw'. by rewrite wp_ret.
Qed.

Lemma icmp_safe data n src w : sound w → sems_room w → 0 ≤ n ≤ Z.of_nat (length data) → n < 2 ^ 16 - 20 →
  wp (icmp_input data n src) (λ _ w', sound w') w.
Proof.
  intros Hw Hr Hn Hn'. unfold icmp_input, ICMP_HEADER_SIZE, IP_HEADER_SIZE.
  destruct (Z.ltb_spec n 8) as [|Hge]; [done|]. rewrite wp_bind. apply peek_ok; [lia|lia|].
  destruct (_ =? ICMP_TYPE_ECHO_REQUEST).
  - rewrite wp_bind. unfold net_get_ip_addr. rewrite wp_gets, wp_bind. apply build_header_ok. rewrite wp_bind.
    apply peek_ok; [lia|lia|]. rewrite drop_0.
    set (reply := put 2 [0; 0] (put 0 [ICMP_TYPE_ECHO_REPLY] (take (Z.to_nat n) data))).
    assert (length reply = Z.to_nat n) as Hlen.
    { subst reply. rewrite put_length, put_length, length_take; [lia|rewrite length_take; cbn; lia|].
      rewrite put_length, length_take; [cbn; lia|]. rewrite length_take. cbn. lia. }
    rewrite wp_bind. apply net_checksum_ok; [lia|]. rewrite u16_small by lia. rewrite wp_bind.
    eapply wp_mono; [apply send_safe; [done|]|intros r w' Hw'; by rewrite wp_ret].
    rewrite length_app, ip_header_length, put_length by (rewrite le_encode_length; lia). lia.
  - destruct (_ =? ICMP_TYPE_ECHO_REPLY); [|done]. rewrite wp_bind, wp_gets, wp_bind, wp_gets.
    destruct (_ && _); [|done]. rewrite wp_bind. unfold ticks. rewrite wp_gets, wp_bind, wp_modify, wp_bind.
    eapply wp_mono; [apply post_safe; [|exact Hr|unfold net_sem, ping_sem; lia]|intros r w' Hw'; by rewrite wp_ret].
    destruct Hw as [[q Hq] ? ? ?]. split; [|done..]. exists q. destruct Hq. by split.
Qed.

Lemma u16_nonneg z : 0 ≤ u16 z.
Proof. apply u16_range. Qed.

Lemma udp_safe data n src w : sound w → sems_room w → 1032 ≤ Z.of_nat (length data) →
  wp (net_udp_input data n src) (λ _ w', sound w') w.
Proof.
  intros Hw Hr Hlen. unfold net_udp_input, UDP_HEADER_SIZE. destruct (_ <? _); [done|]. rewrite wp_bind.
  apply peek_ok; [lia|lia|]. rewrite wp_bind, wp_gets. destruct (list_find _ _) as [[i s]|] eqn:Ef; [|done].
  apply list_find_Some in Ef as (Hi & _). cbv zeta.
  set (m := if _ <? _ then _ else _).
  assert (0 ≤ m ≤ 1024) as Hm.
  { subst m. unfold RX_BUFFER_SIZE. pose proof (u16_nonneg (ntohs (udp_length (udp_of (take (Z.to_nat 8) (drop (Z.to_nat 0) data)))) - 8)).
    destruct (Z.ltb_spec 1024 (u16 (ntohs (udp_length (udp_of (take (Z.to_nat 8) (drop (Z.to_nat 0) data)))) - 8))); lia. }
  rewrite wp_bind. apply peek_ok; [lia|lia|]. eapply receive_safe; [done|done|done|].
  cbn [so_rx_buffer set_field]. pose proof (Forall_lookup_1 _ _ _ _ (so_buffers _ Hw) Hi) as Hb. cbn in Hb.
  rewrite put_length; [done|]. unfold RX_BUFFER_SIZE in Hb. rewrite Hb, length_take, length_drop. lia.
Qed.

Lemma tcp_safe data n src w : sound w → sems_room w → 1280 ≤ Z.of_nat (length data) →
  wp (net_tcp_input data n src) (λ _ w', sound w') w.
Proof.
  intros Hw Hr Hlen. unfold net_tcp_input, TCP_HEADER_SIZE. destruct (_ <? _); [done|]. rewrite wp_bind.
  apply peek_ok; [lia|lia|]. rewrite wp_bind, wp_gets. destruct (list_find _ _) as [[i s]|] eqn:Ef; [|done].
  apply list_find_Some in Ef as (Hi & _). cbv zeta.
  pose proof (Forall_lookup_1 _ _ _ _ (so_buffers _ Hw) Hi) as Hb. cbn in Hb.
  destruct (_ && _); [by eapply receive_safe|]. destruct (_ && _); [|done].
  set (tcp := tcp_of _). pose proof (u8_range (Z.shiftr (tcp_data_offset_flags tcp) 4 * 4)) as Hoff.
  set (off := u8 _) in *. pose proof (u16_range (n - off)) as Hpl. set (m := u16 _) in *.
  destruct (Z.ltb_spec 0 m), (Z.leb_spec m RX_BUFFER_SIZE); cbn [andb]; try done. unfold RX_BUFFER_SIZE in *.
  rewrite wp_bind. apply peek_ok; [lia|lia|]. eapply receive_safe; [done|done|done|].
  cbn [so_rx_buffer set_field]. rewrite put_length; [done|]. rewrite Hb, length_take, length_drop. lia.
Qed.

Lemma ip_safe data n w : sound w → sems_room w → 0 ≤ n ≤ Z.of_nat (length data) → n < 2 ^ 16 - 20 →
  1486 ≤ Z.of_nat (length data) →
  let h := ip_header_of (take 20 data) in let ihl := u8 (Z.land (ip_version_ihl h) 0x0F * 4) in
  ¬ (ip_protocol h = IP_PROTOCOL_ICMP ∧ ntohs (ip_total_length h) < ihl) →
  wp (net_ip_input data n) (λ _ w', sound w') w.
Proof.
  intros Hw Hr Hn Hn' Hlen h ihl Hok. unfold net_ip_input, IP_HEADER_SIZE. destruct (Z.ltb_spec n 20) as [|Hge]; [done|].
  rewrite wp_bind. apply peek_ok; [lia|lia|]. rewrite drop_0. change (Z.to_nat 20) with 20%nat. fold h. fold ihl.
  assert (0 ≤ ihl ≤ 60) as Hihl.
  { subst ihl. change 0x0F with (2 ^ 4 - 1). rewrite land_ones_mod by lia. rewrite u8_small; Z.div_mod_to_equations; lia. }
  destruct (negb _); [done|]. destruct (Z.ltb_spec ihl 20), (Z.ltb_spec n ihl); cbn [orb]; try done.
  rewrite wp_bind. apply peek_ok; [lia|lia|]. rewrite drop_0, wp_bind.
  apply net_checksum_ok; [rewrite put_length; rewrite length_take; cbn; lia|].
  destruct (negb _); [done|]. rewrite wp_bind. unfold net_get_ip_addr. rewrite wp_gets. destruct (negb _); [done|].
  destruct (Z.ltb_spec n (ntohs (ip_total_length h))) as [|Htot]; [done|]. unfold advance_ptr.
  destruct (Z.eqb_spec (ip_protocol h) IP_PROTOCOL_ICMP) as [Ep|_].
  - assert (ihl ≤ ntohs (ip_total_length h)) as Hge' by (apply Z.nlt_ge; intros ?; by apply Hok).
    rewrite u16_small by lia. apply icmp_safe; [done|done|rewrite length_drop; lia|lia].
  - destruct (_ =? IP_PROTOCOL_UDP); [apply udp_safe; [done|done|rewrite length_drop; lia]|].
    destruct (_ =? IP_PROTOCOL_TCP); [apply tcp_safe; [done|done|rewrite length_drop; lia]|done].
Qed.

Lemma arp_safe data n w : sound w → 28 ≤ Z.of_nat (length data) → wp (arp_input data n) (λ _ w', sound w') w.
Proof.
  intros Hw Hlen. pose proof Hw as [[q Hq] Ha Hs Hb]. unfold arp_input, ARP_PACKET_SIZE. destruct (_ <? _); [done|].
  rewrite wp_bind. unfold net_get_ip_addr. rewrite wp_gets, wp_bind. apply peek_ok; [lia|lia|]. cbv zeta. rewrite wp_bind.
  apply (arp_add_ok _ _ []); [by apply not_elem_of_nil|apply Hq|done|]. intros k i now e Hk _ He _ _.
  set (w1 := _ <| arp_cache ::= _ |>). assert (up (calm := calm) (d := d) (queued := queued) [] q w1) as Hq1 by (destruct Hq; by split).
  assert (sound w1) as Hw1.
  { split; [by exists q| |done|done]. cbn. intros E. apply (f_equal length) in E. rewrite length_insert in E. by apply Ha, nil_length_inv. }
  destruct (_ && _); [|by rewrite wp_ret]. rewrite wp_bind. eapply wp_mono; [by apply (arp_reply_ok (calm := calm) (count := count) [] q)|].
  intros r w2 (Ho & _ & q' & Hq' & _). rewrite wp_ret. by eapply sound_output.
Qed.

(** C24. No frame from the network but one kind harms the stack: for whatever bytes are in the receive
    buffer of 1500 bytes and whatever length the driver reports for them, [net_ethernet_input] returns
    without an access out of bounds (and without a deadlock) and keeps the invariant of the stack,
    unless the frame is an ICMP message in an IP packet whose total length is smaller than its header
    length. *)
Theorem net_input_safe rx n w :
  sound w → sems_room w → length rx = Z.to_nat NET_BUFFER_SIZE → 0 ≤ n ≤ NET_BUFFER_SIZE → ¬ undersized_icmp rx →
  wp (net_ethernet_input rx n) (λ _ w', sound w') w.
Proof.
  intros Hw Hr Hlen Hn Hok. unfold NET_BUFFER_SIZE in *. destruct (so_up _ Hw) as [q Hq]. unfold net_ethernet_input, ETH_HEADER_SIZE.
  destruct (Z.ltb_spec n 14) as [|Hge]; [done|]. rewrite wp_bind. apply peek_ok; [lia|lia|]. cbv zeta. rewrite wp_bind.
  apply get_mac_ok; [apply Hq|]. rewrite wp_bind. cbn [assigned]. rewrite wp_ret. destruct (_ && _); [done|].
  rewrite u16_small by lia. unfold advance_ptr. change (Z.to_nat 14) with 14%nat.
  destruct (_ =? ETH_TYPE_IP).
  - apply ip_safe; [done|done|rewrite length_drop; lia|lia|rewrite length_drop; lia|exact Hok].
  - destruct (_ =? ETH_TYPE_ARP); [|done]. apply arp_safe; [done|]. rewrite length_drop. lia.
Qed.
End safety.

(** The witness: a frame full of ones to the hosts of the examples. *)
Lemma host_sound : sound (calm := hk_calm) (d := loopback_driver) (queued := frames) host_b.
Proof. split; [exists []; apply host_up|done|done|repeat constructor]. Qed.
Lemma net_input_safe_witness :
  wp (net_ethernet_input (replicate 1500 255) 1500)
    (λ _ w', sound (calm := hk_calm) (d := loopback_driver) (queued := frames) w') host_b.
Proof.
  apply (net_input_safe (calm := hk_calm) (count := hk_count) (d := loopback_driver) (mac := loopback_mac) (queued := frames)
    (capacity := 3)); [apply host_sound|by intros s _|done|unfold NET_BUFFER_SIZE; lia|].
  intros [E _]. vm_compute in E. discriminate.
Defined.
