(* ===== verification/NetDefects.v ===== *)
(** NetDefects: inputs on which the network stack does not do what it is meant to.

    Each example runs the operations on the hosts of [NetLoopback]. *)
From Stdlib Require Import ZArith Lia.
From stdpp Require Import base numbers list gmap.
From S2P Require Import Prelude Types Bytes Net Loopback NetTheorems NetStack NetDelivery NetBuffers NetLoopback NetSafety.

(** Running a program up to the step that is undefined. *)
Lemma bind_ret {S A B} (m : M S A) (f : A → M S B) s a s' o : m s = Ret a s' → f a s' = o → bind m f s = o.
Proof. unfold bind. by intros -> ->. Qed.
Lemma bind_undef {S A B} (m : M S A) (f : A → M S B) s : m s = Undef → bind m f s = Undef.
Proof. unfold bind. by intros ->. Qed.
Lemma peek_ret {S} p off n (s : S) : 0 ≤ off → off + n ≤ Z.of_nat (length p) →
  peek p off n s = Ret (take (Z.to_nat n) (drop (Z.to_nat off) p)) s.
Proof. intros. unfold peek. rewrite (proj2 (Z.leb_le 0 off)), (proj2 (Z.leb_le _ _)) by lia. done. Qed.
Lemma peek_undef {S} p off n (s : S) : Z.of_nat (length p) < off + n → peek p off n s = Undef.
Proof. intros. unfold peek. rewrite (proj2 (Z.leb_gt (off + n) _)) by lia. by rewrite andb_false_r. Qed.
Lemma gets_ret {S A} (f : S → A) s : gets f s = Ret (f s) s.
Proof. done. Qed.
Lemma net_checksum_ret {S} p n (s : S) : 0 ≤ n ≤ Z.of_nat (length p) →
  net_checksum p n s = Ret (checksum_of (take (Z.to_nat n) p)) s.
Proof. intros. unfold net_checksum, bind. rewrite peek_ret by lia. by rewrite drop_0. Qed.
Lemma build_header_ret {K D} `{!NetServices K D} n id proto src dest (w : net_world K D) :
  build_ip_header n id proto src dest w = Ret (ip_header_bytes (summed_header n id proto src dest)) w.
Proof. unfold build_ip_header, bind. rewrite net_checksum_ret by done. by rewrite firstn_all2 by done. Qed.

(** One packet stops the host. For every echo request whose IP header has a right checksum, names
    this host and claims a total length below its header length of 20 bytes, the length of the
    message wraps around to more than 65000 bytes, and the copy of the message into the reply reads
    far behind the receive buffer: undefined behaviour, whatever else is in the buffer. *)
Theorem short_ping_undefined {K D} `{!NetServices K D} (data : list Z) (src : ipv4_addr_t) (total : Z) (w : net_world K D) :
  0 ≤ total < 20 → 8 ≤ Z.of_nat (length data) ≤ NET_BUFFER_SIZE → field 0 1 data = ICMP_TYPE_ECHO_REQUEST →
  net_ip_input (ip_header_bytes (summed_header total 0 IP_PROTOCOL_ICMP src (cfg_ip (current_config w))) ++ data)
    (20 + Z.of_nat (length data)) w = Undef.
Proof.
  intros Htot Hlen Htype. unfold NET_BUFFER_SIZE in *. set (h := summed_header _ _ _ _ _).
  assert (ip_header_of (ip_header_bytes h) = h) as Hof.
  { apply ip_header_of_bytes; cbn; [apply htons_range|lia|lia|apply checksum_of_range]. }
  unfold net_ip_input, IP_HEADER_SIZE. rewrite (proj2 (Z.ltb_ge _ _)) by lia.
  eapply bind_ret; [apply peek_ret; [lia|rewrite length_app, ip_header_length; lia]|]. cbv zeta.
  rewrite drop_0, take_app_length' by done. rewrite Hof.
  cbn [h summed_header plain_header set_field ip_version_ihl ip_checksum ip_dest ip_total_length ip_protocol ip_src].
  change (Z.shiftr 0x45 4 =? 4) with true. change (u8 (Z.land 0x45 0x0F * 4)) with 20. cbn [negb].
  rewrite (proj2 (Z.ltb_ge 20 20)), (proj2 (Z.ltb_ge _ 20)) by lia. cbn [orb].
  eapply bind_ret; [apply peek_ret; [lia|rewrite length_app, ip_header_length; lia]|].
  rewrite drop_0, take_app_length' by done. rewrite clear_checksum.
  eapply bind_ret; [by apply net_checksum_ret|]. rewrite firstn_all2 by done.
  change (h <| ip_checksum := 0 |>) with (plain_header total 0 IP_PROTOCOL_ICMP src (cfg_ip (current_config w))).
  rewrite Z.eqb_refl. cbn [negb]. eapply bind_ret; [apply gets_ret|].
  rewrite ipv4_equal_spec, bool_decide_eq_true_2 by done. cbn [negb]. rewrite ntohs_htons by lia.
  rewrite (proj2 (Z.ltb_ge _ _)) by lia. rewrite (advance_head (ip_header_bytes _)) by done. cbn [Z.eqb].
  change (IP_PROTOCOL_ICMP =? IP_PROTOCOL_ICMP) with true. cbv iota.
  assert (65516 ≤ u16 (total - 20) < 65536) as Hn by (unfold u16; Z.div_mod_to_equations; lia).
  unfold icmp_input, ICMP_HEADER_SIZE. rewrite (proj2 (Z.ltb_ge _ _)) by lia.
  eapply bind_ret; [apply peek_ret; lia|]. cbv zeta. rewrite drop_0.
  assert (icmp_type (icmp_of (take (Z.to_nat 8) data)) = 8) as ->.
  { cbn [icmp_of icmp_type]. transitivity (field 0 1 data); [|exact Htype]. unfold field. by rewrite !drop_0, take_take. }
  change (8 =? ICMP_TYPE_ECHO_REQUEST) with true. cbv iota. eapply bind_ret; [apply gets_ret|].
  eapply bind_ret; [apply build_header_ret|].
  apply bind_undef, peek_undef. lia.
Qed.

Lemma short_ping_undefined_witness :
  net_ip_input (ip_header_bytes (summed_header 0 0 IP_PROTOCOL_ICMP ip_a ip_b) ++ [8; 0; 0; 0; 0; 1; 0; 1]) 28 host_b = Undef.
Proof. apply (short_ping_undefined [8; 0; 0; 0; 0; 1; 0; 1] ip_a 0 host_b); [lia|cbn; unfold NET_BUFFER_SIZE; lia|done]. Defined.

(** A datagram from host A (port 4000) to port 5000 of host B with [payload], whose header claims a
    length of [n]. *)
Definition claimed_datagram (n : Z) (payload : list Z) : list Z :=
  ip_frame loopback_mac loopback_mac
    (ip_packet 0 IP_PROTOCOL_UDP ip_a ip_b (udp_bytes (UdpHeader (htons 4000) (htons 5000) (htons n) 0) ++ payload)).
(** What [net_recvfrom] on socket 0 returns: the length and the first bytes. *)
Definition receive_short : M (net_world host_kernel loopback_t) (Z * list Z) :=
  let! r := net_recvfrom 0 (replicate 1024 0) 1024 true in ret (r.1.1, take 4 r.1.2).
Definition result {S A} (o : outcome S A) : option A := match o with Ret a _ => Some a | _ => None end.

(** A segment from port 80 of host B to port 4000 of host A that refuses a connection: RST and ACK. *)
Definition refusal : list Z :=
  tcp_bytes (TcpHeader (htons 80) (htons 4000) 0 0 0x50 (Z.lor TCP_FLAG_RST TCP_FLAG_ACK) 0 0 0).
Definition connecting : net_world host_kernel loopback_t :=
  host ip_a [] [Socket SOCK_STREAM true (SockAddr ip_a 4000) (SockAddr ip_b 80) TCP_SYN_SENT [] 0 0 0].

(** Five defects of the stack, each on a concrete input. (1) [net_udp_input] believes the length in
    the UDP header: a datagram of no bytes that claims 1024 delivers what earlier packets left in the
    receive buffer. (2) A socket keeps one datagram: of two that arrive before it is read the first is
    lost, and the second call of [net_recvfrom] returns 0 bytes at once. (3) A connection that the
    peer refuses with RST and ACK counts as established. (4) [arp_cache_add] does not look for an
    older entry: when an address moves to another host, the cache goes on answering with the old
    hardware address. (5) A buffer that is released twice is handed out twice. *)
Theorem network_stack_defects :
  result (bind (deliver (claimed_datagram 1032 []) (replicate 1458 42)) (λ _, receive_short) host_b) = Some (1024, [42; 42; 42; 42]) ∧
  result ((let! _ := deliver (claimed_datagram 9 [1]) [] in let! _ := deliver (claimed_datagram 9 [2]) [] in
    let! a := receive_short in let! b := receive_short in ret (a, b)) host_b) = Some (1, [2; 0; 0; 0], (0, [0; 0; 0; 0])) ∧
  result ((let! _ := net_tcp_input refusal 20 ip_b in socket_at 0) connecting) ≫= (λ s, Some (so_state s)) = Some TCP_ESTABLISHED ∧
  result ((let! _ := arp_cache_add ip_b (MAC 2 0 0 0 0 9) in arp_cache_lookup ip_b) host_a) = Some (Some loopback_mac) ∧
  result ((net_buffer_pool_init ;;; let! a := net_buffer_alloc in net_buffer_free a ;;; net_buffer_free a ;;;
    let! b := net_buffer_alloc in let! c := net_buffer_alloc in ret (bool_decide (b = c))) host_a) = Some true.
Proof. split_and!; vm_compute; reflexivity. Qed.
