(* ===== verification/Http.v ===== *)
(** Http: the HTTP client and the DNS stub of [src/net/http_dns.c].

    The sockets and the allocator are the class [HttpServices] on a state [E]. A C string is the list
    of its bytes before the NUL. The array [request] is a list of 512 bytes; of [rx_buffer] only the
    bytes received so far are kept, as no other is read. *)
From Stdlib Require Import ZArith Lia String Ascii.
From stdpp Require Import base numbers list.
From S2P Require Import Prelude Types Bytes Net.

(** * The C library *)

(** A literal. *)
Definition str (s : string) : list Z := (λ a, Z.of_nat (nat_of_ascii a)) <$> list_ascii_of_string s.
Definition CRLF : list Z := [13; 10].

(** [%d] and [%lu] of a number that is not negative. A 64-bit number has at most 20 digits. *)
Fixpoint decimal_digits (fuel : nat) (n : Z) : list Z :=
  match fuel with
  | O => []
  | S fuel => (if n <? 10 then [] else decimal_digits fuel (n / 10)) ++ [48 + n mod 10]
  end.
Definition decimal (n : Z) : list Z := decimal_digits 20 n.

Fixpoint is_prefix (p s : list Z) : bool :=
  match p, s with
  | [], _ => true
  | a :: p, b :: s => (a =? b) && is_prefix p s
  | _, [] => false
  end.
(** [strstr]: the string from the first occurrence on. *)
Fixpoint strstr (s pat : list Z) : option (list Z) :=
  if is_prefix pat s then Some s
  else match s with [] => None | _ :: s => strstr s pat end.

Definition is_digit (c : Z) : bool := (48 <=? c) && (c <=? 57).
Definition is_space (c : Z) : bool := (c =? 32) || ((9 <=? c) && (c <=? 13)).
Fixpoint skip_spaces (s : list Z) : list Z :=
  match s with c :: s' => if is_space c then skip_spaces s' else s | [] => [] end.
(** The digits at the start, their value and the rest. *)
Fixpoint scan_digits (s : list Z) (value : Z) : Z * list Z :=
  match s with
  | c :: s' => if is_digit c then scan_digits s' (value * 10 + (c - 48)) else (value, s)
  | [] => (value, [])
  end.
(** A decimal number with an optional sign, after white space: whether it is negative, its absolute
    value and the rest. *)
Definition scan_number (s : list Z) : option (bool * Z * list Z) :=
  let s := skip_spaces s in
  let negative := bool_decide (head s = Some 45) in
  let s := match s with c :: s' => if (c =? 43) || (c =? 45) then s' else s | [] => [] end in
  match s with
  | c :: _ => if is_digit c then let r := scan_digits s 0 in Some (negative, r.1, r.2) else None
  | [] => None
  end.
(** [sscanf (s, "HTTP/1.%*d %hu", &v)] for a string that starts with [HTTP/1.]: the value stored, if
    any. A number that does not fit 16 bits is undefined behaviour. *)
Definition scan_status {S} (s : list Z) : M S (option Z) :=
  match scan_number (drop 7 s) with
  | None => ret None
  | Some (_, _, s) =>
      match scan_number s with
      | None => ret None
      | Some (negative, v, _) => if (65535 <? v) || (negative && (0 <? v)) then undef else ret (Some v)
      end
  end.

(** * Types of include/tinyos/net.h *)
Inductive http_method_t := HTTP_GET | HTTP_POST | HTTP_PUT | HTTP_DELETE.
#[global] Instance http_method_eq_dec : EqDecision http_method_t.
Proof. solve_decision. Defined.
(** [body] is [None] for a null pointer. *)
Record http_response_t := HttpResponse {
  status_code : Z; rs_body : option (list Z); rs_body_length : Z; content_type : list Z
}.
#[export] Instance http_response_eta : Eta http_response_t := λ r,
  HttpResponse (status_code r) (rs_body r) (rs_body_length r) (content_type r).

(** [hv_recv sock max timeout] returns the result of [net_recv] and the bytes it stored; [hv_malloc]
    whether there is memory. *)
Class HttpServices (E : Type) := {
  hv_socket : M E Z;
  hv_connect : Z → sockaddr_in_t → Z → M E os_error_t;
  hv_close : Z → M E unit;
  hv_send : Z → list Z → Z → Z → M E Z;
  hv_recv : Z → Z → Z → M E (Z * list Z);
  hv_malloc : Z → M E bool;
  hv_free : M E unit
}.

Section http.
Context {E : Type}.

(** ** Parsing a URL *)
(** The loop that copies the characters of the address: [n = 15 - i]. *)
Fixpoint host_chars (n : nat) (p : list Z) : list Z * list Z :=
  match n, p with
  | S n, c :: p' =>
      if negb (c =? 58) && negb (c =? 47) then let r := host_chars n p' in (c :: r.1, r.2) else ([], p)
  | _, _ => ([], p)
  end.
(** The loop over the digits of the port. *)
Fixpoint port_digits (p : list Z) (port : Z) : Z * list Z :=
  match p with
  | c :: p' => if is_digit c then port_digits p' (u16 (port * 10 + (c - 48))) else (port, p)
  | [] => (port, [])
  end.
(** [*ip], [*port] and [path] on success; [ip] is the value before. The array [path] has 128 bytes. *)
Definition parse_url (url : list Z) (ip : ipv4_addr_t) : M E (option (ipv4_addr_t * Z * list Z)) :=
  let p := if is_prefix (str "http://") url then drop 7 url else url in
  let h := host_chars 15 p in
  let p := h.2 in
  let! r := net_parse_ipv4 (Some (h.1 ++ [0])) (Some ip) in
  if negb r.1 then ret None
  else
    let! ip := assigned r.2 in
    let port := match p with c :: p' => if c =? 58 then port_digits p' 0 else (80, p) | [] => (80, p) end in
    let p := port.2 in
    let path := match p with c :: _ => if c =? 47 then take 127 p else str "/" | [] => str "/" end in
    ret (Some (ip, port.1, path)).

(** ** The request *)
(** [req_len += snprintf (request + req_len, sizeof (request) - req_len, ...)], where the output is
    [text]. A pointer past the end of the array is undefined behaviour. *)
Definition append (request : list Z) (req_len : Z) (text : list Z) : M E (list Z * Z) :=
  if 512 <? req_len then undef
  else
    let room := Z.to_nat (512 - req_len) in
    let stored := match room with O => [] | S n => take n text ++ [0] end in
    ret (put (Z.to_nat req_len) stored request, req_len + Z.of_nat (length text)).

Definition request_head (method : http_method_t) (path : list Z) (ip : ipv4_addr_t) : list Z :=
  (if bool_decide (method = HTTP_GET) then str "GET" else str "POST") ++ str " " ++ path ++ str " HTTP/1.1" ++ CRLF ++
  str "Host: " ++ decimal (ip0 ip) ++ str "." ++ decimal (ip1 ip) ++ str "." ++ decimal (ip2 ip) ++ str "." ++ decimal (ip3 ip) ++ CRLF ++
  str "Connection: close" ++ CRLF.

Fixpoint add_headers (request : list Z) (req_len : Z) (headers : list (list Z)) : M E (list Z * Z) :=
  match headers with
  | [] => ret (request, req_len)
  | h :: headers =>
      let! r := append request req_len (h ++ CRLF) in
      add_headers r.1 r.2 headers
  end.

Context `{!HttpServices E}.

(** ** The response *)
(** The loop of [net_recv]: the bytes received. It receives at least one byte in every round. *)
Fixpoint receive_response (fuel : nat) (sock : Z) (received : list Z) (total_received : Z) : M E (list Z * Z) :=
  match fuel with
  | O => nofuel
  | S fuel =>
      let! r := hv_recv sock (2048 - total_received - 1) 2000 in
      if 0 <? r.1 then
        let total_received := total_received + r.1 in
        if 2047 <=? total_received then ret (received ++ r.2, total_received)
        else receive_response fuel sock (received ++ r.2) total_received
      else ret (received, total_received)
  end.

(** The string in a buffer with a NUL behind the bytes. *)
Fixpoint c_string (l : list Z) : list Z :=
  match l with c :: l => if c =? 0 then [] else c :: c_string l | [] => [] end.

(** From the parsing of the response on. *)
Definition read_response (received : list Z) (total_received : Z) (response : http_response_t) : M E http_response_t :=
  let response_str := c_string received in
  let! status :=
    match strstr response_str (str "HTTP/1.") with
    | Some status_line => scan_status status_line
    | None => ret None
    end in
  let response := match status with Some v => response <| status_code := v |> | None => response end in
  match strstr response_str (CRLF ++ CRLF) with
  | None => ret response
  | Some found =>
      let start := Z.of_nat (length response_str - length found + 4) in
      let body_length := total_received - start in
      let response := response <| rs_body_length := body_length |> in
      let! ok := hv_malloc (body_length + 1) in
      if ok : bool then
        let! bytes := peek received start body_length in
        ret (response <| rs_body := Some (bytes ++ [0]) |>)
      else ret (response <| rs_body := None |>)
  end.

(** [headers] and [body] are [None] for a null pointer. The result and [*response] afterwards. *)
Definition net_http_request (method : http_method_t) (url : list Z) (headers : option (list (list Z))) (body : option (list Z))
    (body_length : Z) (response : http_response_t) (timeout_ms : Z) : M E (os_error_t * http_response_t) :=
  let! u := parse_url url (IPV4 0 0 0 0) in
  match u with
  | None => ret (OS_ERROR_INVALID_PARAM, response)
  | Some (server_ip, port, path) =>
      let! sock := hv_socket in
      if sock =? INVALID_SOCKET then ret (OS_ERROR_NO_RESOURCE, response)
      else
        let! err := hv_connect sock (SockAddr server_ip port) timeout_ms in
        if negb (bool_decide (err = OS_OK)) then
          hv_close sock ;;;
          ret (err, response)
        else
          let! r := append (replicate 512 0) 0 (request_head method path server_ip) in
          let req_len := if 512 <=? r.2 then 511 else r.2 in
          let! r := add_headers r.1 req_len (default [] headers) in
          match body with
          | Some body =>
              if 0 <? body_length then
                let! r := append r.1 r.2 (str "Content-Length: " ++ decimal body_length ++ CRLF ++ CRLF) in
                let! _ := hv_send sock r.1 (u16 r.2) timeout_ms in
                let! _ := hv_send sock body (u16 body_length) timeout_ms in
                ret tt
              else
                let! r := append r.1 r.2 CRLF in
                let! _ := hv_send sock r.1 (u16 r.2) timeout_ms in
                ret tt
          | None =>
              let! r := append r.1 r.2 CRLF in
              let! _ := hv_send sock r.1 (u16 r.2) timeout_ms in
              ret tt
          end ;;;
          let! received := receive_response 2048 sock [] 0 in
          hv_close sock ;;;
          if received.2 =? 0 then ret (OS_ERROR_TIMEOUT, response)
          else
            let! response := read_response received.1 received.2 response in
            ret (OS_OK, response)
  end.

Definition net_http_free_response (response : option http_response_t) : M E (option http_response_t) :=
  match response with
  | Some r =>
      match rs_body r with
      | Some _ => hv_free ;;; ret (Some (r <| rs_body := None |>))
      | None => ret response
      end
  | None => ret None
  end.

Definition net_http_get (url : list Z) (response : http_response_t) (timeout_ms : Z) : M E (os_error_t * http_response_t) :=
  net_http_request HTTP_GET url None None 0 response timeout_ms.

(** [snprintf] into [ct_header], an array of 128 bytes. *)
Definition net_http_post (url content_type : list Z) (body : option (list Z)) (body_length : Z) (response : http_response_t)
    (timeout_ms : Z) : M E (os_error_t * http_response_t) :=
  let ct_header := take 127 (str "Content-Type: " ++ content_type) in
  net_http_request HTTP_POST url (Some [ct_header]) body body_length response timeout_ms.

Definition net_http_server_start (port : Z) : M E os_error_t := ret OS_ERROR_NOT_IMPLEMENTED.
Definition net_http_send_response (status_code : Z) : M E os_error_t := ret OS_ERROR_NOT_IMPLEMENTED.
End http.

(** * DNS *)
Definition net_dns_resolve {E} (hostname : option (list Z)) (ip : option ipv4_addr_t) (timeout_ms : Z) : M E (os_error_t * option ipv4_addr_t) :=
  ret (OS_ERROR_NOT_IMPLEMENTED, ip).
