(* ===== verification/HttpTheorems.v ===== *)
(** HttpTheorems: the HTTP client: URLs, the exchange with a server, and requests that do not fit. *)
From Stdlib Require Import ZArith Lia String.
From stdpp Require Import base numbers list.
From S2P Require Import Prelude Types Bytes Net NetTheorems Http.

(** * URLs *)
Definition ip_text (ip : ipv4_addr_t) : list Z :=
  octet_chars (ip0 ip) ++ 46 :: octet_chars (ip1 ip) ++ 46 :: octet_chars (ip2 ip) ++ 46 :: octet_chars (ip3 ip).

Lemma octet_chars_are_digits v : 0 ≤ v < 256 → Forall (λ c, is_digit c = true) (octet_chars v).
Proof.
  intros Hv. assert (∀ d, 0 ≤ d < 10 → is_digit (48 + d) = true) as Hd by (intros d Hd; unfold is_digit; apply andb_true_iff; split; apply Z.leb_le; lia).
  unfold octet_chars. destruct (Z.leb_spec 100 v); cbn [orb].
  - rewrite orb_true_r. repeat constructor; apply Hd; Z.div_mod_to_equations; lia.
  - destruct (Z.leb_spec 10 v); cbn [orb app]; repeat constructor; apply Hd; Z.div_mod_to_equations; lia.
Qed.
(** The characters that end the address are not in it. *)
Lemma ip_text_chars ip : bytes_ok (ip_bytes ip) → Forall (λ c, (c =? 58) = false ∧ (c =? 47) = false) (ip_text ip) ∧ (length (ip_text ip) ≤ 15)%nat.
Proof.
  destruct ip as [a b c d]. unfold ip_bytes, ip_text. cbn [ip0 ip1 ip2 ip3]. rewrite !bytes_ok_cons. intros (Ha & Hb & Hc & Hd & _).
  assert (∀ v, 0 ≤ v < 256 → Forall (λ c, (c =? 58) = false ∧ (c =? 47) = false) (octet_chars v)) as Hv.
  { intros v Hv. eapply Forall_impl; [by apply octet_chars_are_digits|]. intros x Hx. unfold is_digit in Hx.
    apply andb_true_iff in Hx as [?%Z.leb_le ?%Z.leb_le]. split; apply Z.eqb_neq; lia. }
  split.
  - rewrite !Forall_app, !Forall_cons, !Forall_app, !Forall_cons, !Forall_app, !Forall_cons. auto 10.
  - repeat (rewrite length_app; cbn [length]). pose proof (octet_chars_length a Ha). pose proof (octet_chars_length b Hb).
    pose proof (octet_chars_length c Hc). pose proof (octet_chars_length d Hd). lia.
Qed.

Lemma host_chars_spec h : ∀ n rest, Forall (λ c, (c =? 58) = false ∧ (c =? 47) = false) h → (length h ≤ n)%nat →
  match rest with [] => True | c :: _ => c = 58 ∨ c = 47 end → host_chars n (h ++ rest) = (h, rest).
Proof.
  induction h as [|x h IH]; intros n rest Hh Hn Hrest; cbn [app length] in *.
  - destruct n, rest as [|c rest]; cbn [host_chars]; try done. destruct Hrest as [-> | ->]; done.
  - destruct n as [|n]; [lia|]. apply Forall_cons in Hh as [[E1 E2] Hh]. cbn [host_chars]. rewrite E1, E2. cbn [negb andb].
    rewrite IH by (done || lia). done.
Qed.
Lemma port_digits_spec n : ∀ rest, 0 ≤ n < 2 ^ 16 → match rest with [] => True | c :: _ => is_digit c = false end →
  port_digits (decimal n ++ rest) 0 = (n, rest).
Proof.
  intros rest Hn Hrest. unfold decimal.
  enough (∀ fuel n p acc, 0 ≤ n < 10 ^ Z.of_nat fuel → 0 ≤ acc → acc * 10 ^ Z.of_nat (length (decimal_digits fuel n)) + n < 2 ^ 16 →
    port_digits (decimal_digits fuel n ++ p) acc = port_digits p (acc * 10 ^ Z.of_nat (length (decimal_digits fuel n)) + n)) as Hgen.
  { rewrite Hgen by lia. destruct rest as [|c rest]; cbn [port_digits]; [done|]. by rewrite Hrest. }
  induction fuel as [|fuel IH]; intros m p acc Hm Hacc Hsum; [change (10 ^ Z.of_nat 0) with 1 in Hm; cbn [decimal_digits length app Z.of_nat] in *; f_equal; lia|].
  cbn [decimal_digits] in *. rewrite length_app in *. cbn [length] in *. rewrite Nat2Z.inj_add, Z.pow_add_r in * by lia. change (10 ^ Z.of_nat 1) with 10 in *.
  assert (m = 10 * (m / 10) + m mod 10 ∧ 0 ≤ m mod 10 < 10) as [Em Hmod] by (Z.div_mod_to_equations; lia).
  rewrite Nat2Z.inj_succ, Z.pow_succ_r in Hm by lia.
  set (l := if m <? 10 then [] else decimal_digits fuel (m / 10)) in *. rewrite <-app_assoc.
  assert (∀ q, port_digits (l ++ q) acc = port_digits q (acc * 10 ^ Z.of_nat (length l) + m / 10)) as Hl.
  { intros q. subst l. destruct (Z.ltb_spec m 10).
    - cbn [app length Z.of_nat]. rewrite Z.div_small by lia. f_equal. lia.
    - apply IH; [split; [lia|Z.div_mod_to_equations; lia]|done|nia]. }
  rewrite Hl. cbn [app port_digits]. unfold is_digit. rewrite (proj2 (Z.leb_le 48 _)), (proj2 (Z.leb_le _ 57)) by lia. cbn [andb].
  f_equal. rewrite u16_small by nia. nia.
Qed.

Definition port_text (port : option Z) : list Z := match port with Some n => 58 :: decimal n | None => [] end.
(** The URLs that the client documents: [http://IP:PORT/path], where the scheme, the port and the path
    may be missing. *)
Definition url_text (scheme : bool) (ip : ipv4_addr_t) (port : option Z) (path : list Z) : list Z :=
  (if scheme then str "http://" else []) ++ ip_text ip ++ port_text port ++ path.
Definition port_ok (port : option Z) : Prop := match port with Some n => 0 ≤ n < 2 ^ 16 | None => True end.
Definition path_ok (path : list Z) : Prop := (length path ≤ 127)%nat ∧ match path with [] => True | c :: _ => c = 47 end.
Definition path_of (path : list Z) : list Z := match path with [] => str "/" | _ => path end.

Lemma octet_chars_head v : 0 ≤ v < 256 → ∃ c l, octet_chars v = c :: l ∧ is_digit c = true.
Proof.
  intros Hv. pose proof (octet_chars_are_digits v Hv) as Hd. pose proof (octet_chars_length v Hv).
  destruct (octet_chars v) as [|c l]; [cbn in *; lia|]. apply Forall_cons in Hd as [Hc _]. eauto.
Qed.
Lemma strip_scheme (scheme : bool) ip rest : bytes_ok (ip_bytes ip) →
  let url := (if scheme then str "http://" else []) ++ ip_text ip ++ rest in
  (if is_prefix (str "http://") url then drop 7 url else url) = ip_text ip ++ rest.
Proof.
  intros Hok. destruct scheme; cbn zeta; [reflexivity|]. cbn [app]. destruct ip as [a b c d]. unfold ip_bytes in Hok. rewrite bytes_ok_cons in Hok. destruct Hok as [Ha _].
  cbn [ip0] in Ha. destruct (octet_chars_head a Ha) as (x & l & E & Hx). unfold ip_text. cbn [ip0]. rewrite E. cbn [app].
  destruct (is_prefix (str "http://") _) eqn:Ep; [|done]. change (str "http://") with (104 :: str "ttp://") in Ep.
  cbn [is_prefix] in Ep. apply andb_true_iff in Ep as [<-%Z.eqb_eq _]. done.
Qed.

Lemma parse_url_ok {E} scheme ip port path ip' (e : E) : bytes_ok (ip_bytes ip) → port_ok port → path_ok path →
  parse_url (url_text scheme ip port path) ip' e = Ret (Some (ip, default 80 port, path_of path)) e.
Proof.
  intros Hip Hport [Hpl Hpath]. unfold parse_url, url_text. rewrite strip_scheme by done. destruct (ip_text_chars ip Hip) as [Hch Hlen].
  assert (match port_text port ++ path with [] => True | c :: _ => c = 58 ∨ c = 47 end) as Hrest.
  { destruct port as [n|]; cbn [port_text app]; [by left|]. destruct path; [done|by right]. }
  rewrite (host_chars_spec (ip_text ip) 15 (port_text port ++ path)) by done. cbn [fst snd]. unfold bind at 1.
  assert (net_parse_ipv4 (Some (ip_text ip ++ [0])) (Some ip') e = Ret (true, Some ip) e) as ->.
  { unfold net_parse_ipv4, bind. destruct ip as [a b c d]. unfold ip_text. cbn [ip0 ip1 ip2 ip3].
    repeat (rewrite <-app_assoc; cbn [app]). by rewrite parse_octets_spec. }
  cbn [fst snd negb]. unfold bind, assigned, ret.
  assert ((match port_text port ++ path with c :: p' => if c =? 58 then port_digits p' 0 else (80, port_text port ++ path) | [] => (80, port_text port ++ path) end) =
    (default 80 port, path)) as ->.
  { destruct port as [n|]; cbn [port_text app].
    - rewrite Z.eqb_refl. apply port_digits_spec; [done|]. destruct path as [|c path]; [done|]. by rewrite Hpath.
    - destruct path as [|c path]; [done|]. by rewrite Hpath. }
  cbn [fst snd]. destruct path as [|c path]; [done|]. rewrite Hpath. cbn [Z.eqb Pos.eqb]. rewrite take_ge by (cbn [length] in *; lia). done.
Qed.

(** The URLs that the client documents are parsed: with or without the scheme, the port and the
    path, [parse_url] returns the address, the port (80 if there is none) and the path (a slash if
    there is none) that were written, without undefined behaviour. *)
Theorem parse_url_roundtrip {E} scheme ip port path ip' (e : E) : bytes_ok (ip_bytes ip) → port_ok port → path_ok path →
  parse_url (url_text scheme ip port path) ip' e = Ret (Some (ip, default 80 port, path_of path)) e.
Proof. apply parse_url_ok. Qed.
Lemma parse_url_roundtrip_witness :
  url_text true (IPV4 192 168 1 100) (Some 8080) (str "/api") = str "http://192.168.1.100:8080/api" ∧
  parse_url (str "http://192.168.1.100:8080/api") (IPV4 0 0 0 0) tt = Ret (Some (IPV4 192 168 1 100, 8080, str "/api")) tt.
Proof.
  split; [reflexivity|]. apply (parse_url_roundtrip true (IPV4 192 168 1 100) (Some 8080) (str "/api")).
  - repeat constructor; cbn; lia.
  - cbn. lia.
  - split; [cbn; lia|done].
Defined.

(** * The exchange with a server *)

(** A host that reaches the server and has memory; [inp]: what the server answers, in pieces of any
    size; [out]: what was sent. *)
Class HttpLaws {E : Type} `{!HttpServices E} (inp : E → list Z) (out : E → list (list Z)) := {
  hl_socket e : wp hv_socket (λ r e', r ≠ INVALID_SOCKET ∧ inp e' = inp e ∧ out e' = out e) e;
  hl_connect s a t e : wp (hv_connect s a t) (λ r e', r = OS_OK ∧ inp e' = inp e ∧ out e' = out e) e;
  hl_close s e : wp (hv_close s) (λ _ e', out e' = out e) e;
  hl_send s data n t e : 0 ≤ n ≤ Z.of_nat (length data) →
    wp (hv_send s data n t) (λ _ e', inp e' = inp e ∧ out e' = out e ++ [take (Z.to_nat n) data]) e;
  hl_recv s max t e : 1 ≤ max →
    wp (hv_recv s max t) (λ r e', out e' = out e ∧
      match inp e with
      | [] => r = (0, [])
      | _ => ∃ k, (1 ≤ k)%nat ∧ Z.of_nat k ≤ max ∧ (k ≤ length (inp e))%nat ∧ r = (Z.of_nat k, take k (inp e)) ∧ inp e' = drop k (inp e)
      end) e;
  hl_malloc n e : wp (hv_malloc n) (λ r e', r = true ∧ out e' = out e) e
}.

Section exchange.
Context {E : Type} `{!HttpServices E} {inp : E → list Z} {out : E → list (list Z)} `{!HttpLaws inp out}.

(** The loop collects an answer that fits the buffer. *)
Lemma receive_response_ok sock fuel : ∀ received e, Z.of_nat (length received) < 2047 →
  Z.of_nat (length received + length (inp e)) ≤ 2047 → (length (inp e) < fuel)%nat →
  wp (receive_response fuel sock received (Z.of_nat (length received)))
    (λ r e', r = (received ++ inp e, Z.of_nat (length (received ++ inp e))) ∧ out e' = out e) e.
Proof.
  induction fuel as [|fuel IH]; intros received e Hr Hs Hf; [lia|]. cbn [receive_response]. rewrite wp_bind.
  eapply wp_mono; [apply hl_recv; lia|]. intros r e1 [Ho Hrecv]. destruct (inp e) as [|x s] eqn:Ei.
  { rewrite Hrecv. cbn [fst Z.ltb Z.compare]. by rewrite wp_ret, app_nil_r. }
  rewrite <-Ei in *. destruct Hrecv as (k & Hk1 & Hk2 & Hk3 & -> & Hi). cbn [fst snd]. rewrite (proj2 (Z.ltb_lt 0 _)) by lia.
  assert (length (take k (inp e)) = k) as Hlk by (rewrite length_take; lia).
  destruct (Z.leb_spec 2047 (Z.of_nat (length received) + Z.of_nat k)).
  - rewrite wp_ret. rewrite take_ge by lia. split; [|done]. f_equal. rewrite length_app. lia.
  - replace (Z.of_nat (length received) + Z.of_nat k) with (Z.of_nat (length (received ++ take k (inp e)))) by (rewrite length_app, Hlk; lia).
    eapply wp_mono; [apply IH; rewrite ?length_app, ?Hlk, ?Hi, ?length_drop; lia|].
    intros r e2 [-> Ho2]. rewrite Hi, <-app_assoc, take_drop. split; [done|congruence].
Qed.
End exchange.

(** ** The parts of an answer *)
Lemma is_prefix_app pat s t : (length pat ≤ length s)%nat → is_prefix pat (s ++ t) = is_prefix pat s.
Proof.
  revert s. induction pat as [|a pat IH]; intros [|b s] Hl; cbn [length app is_prefix] in *; try done; [lia|]. rewrite IH; [done|lia].
Qed.
Lemma is_prefix_same pat s : is_prefix pat (pat ++ s) = true.
Proof. induction pat as [|a pat IH]; cbn [app is_prefix]; [done|]. by rewrite Z.eqb_refl, IH. Qed.
Lemma strstr_here s pat : is_prefix pat s = true → strstr s pat = Some s.
Proof. intros Hp. destruct s; cbn [strstr]; by rewrite Hp. Qed.
(** The first occurrence of the pattern stays the first when more follows. *)
Lemma strstr_first pat s h : strstr (h ++ pat) pat = Some pat → strstr (h ++ pat ++ s) pat = Some (pat ++ s).
Proof.
  induction h as [|x h IH]; intros Hh; [apply strstr_here, is_prefix_same|].
  cbn [app strstr] in Hh |- *. rewrite app_assoc, (app_comm_cons (h ++ pat) s x), is_prefix_app by (cbn [length]; rewrite length_app; lia).
  destruct (is_prefix pat (x :: h ++ pat)).
  - injection Hh as Hh. apply (f_equal length) in Hh. cbn [length] in Hh. rewrite length_app in Hh. lia.
  - rewrite <-app_assoc. by apply IH.
Qed.
Lemma c_string_app l s : Forall (λ c, c ≠ 0) l → c_string (l ++ s) = l ++ c_string s.
Proof. induction 1 as [|c l Hc _ IH]; cbn [app c_string]; [done|]. by rewrite (proj2 (Z.eqb_neq c 0)), IH. Qed.

Lemma digit_code d : 0 ≤ d < 10 → is_digit (48 + d) = true.
Proof. intros Hd. unfold is_digit. apply andb_true_iff. split; apply Z.leb_le; lia. Qed.
Lemma digit_plain c : is_digit c = true → is_space c = false ∧ (c =? 43) = false ∧ (c =? 45) = false ∧ 48 ≤ c ≤ 57.
Proof.
  unfold is_digit, is_space. intros [?%Z.leb_le ?%Z.leb_le]%andb_true_iff. rewrite !(proj2 (Z.eqb_neq _ _)), (proj2 (Z.leb_gt c 13)) by lia.
  by rewrite andb_false_r.
Qed.
Lemma scan_number_digits c s : is_digit c = true → scan_number (c :: s) = Some (false, (scan_digits (c :: s) 0).1, (scan_digits (c :: s) 0).2).
Proof.
  intros Hc. destruct (digit_plain c Hc) as (E1 & E2 & E3 & Hr). unfold scan_number. cbn [skip_spaces]. rewrite E1, E2, E3. cbn [orb].
  rewrite Hc, bool_decide_eq_false_2; [done|]. cbn. intros [= ->]. lia.
Qed.
(** The status line: the minor version and three digits. *)
Lemma scan_status_ok {S} m a b c rest (s : S) : is_digit m = true → 0 ≤ a < 10 → 0 ≤ b < 10 → 0 ≤ c < 10 →
  match rest with [] => True | x :: _ => is_digit x = false end →
  scan_status (str "HTTP/1." ++ m :: 32 :: 48 + a :: 48 + b :: 48 + c :: rest) s = Ret (Some (100 * a + 10 * b + c)) s.
Proof.
  intros Hm Ha Hb Hc Hrest. unfold scan_status. change (drop 7 (str "HTTP/1." ++ ?l)) with l. rewrite scan_number_digits by done.
  cbn [scan_digits]. rewrite Hm. change (is_digit 32) with false. cbn [fst snd]. unfold scan_number. change (skip_spaces (32 :: ?l)) with (skip_spaces l).
  assert (∀ l, scan_number (48 + a :: l) = Some (false, (scan_digits (48 + a :: l) 0).1, (scan_digits (48 + a :: l) 0).2)) as Hs
    by (intros l; apply scan_number_digits, digit_code; lia).
  fold (scan_number (48 + a :: 48 + b :: 48 + c :: rest)). rewrite Hs. cbn [scan_digits]. rewrite !digit_code by lia.
  assert (scan_digits rest ((((0 * 10 + (48 + a - 48)) * 10 + (48 + b - 48)) * 10) + (48 + c - 48)) = (100 * a + 10 * b + c, rest)) as ->.
  { replace ((((0 * 10 + (48 + a - 48)) * 10 + (48 + b - 48)) * 10) + (48 + c - 48)) with (100 * a + 10 * b + c) by lia.
    destruct rest as [|x rest]; cbn [scan_digits]; [done|]. by rewrite Hrest. }
  cbn [fst snd]. rewrite (proj2 (Z.ltb_ge 65535 _)) by lia. done.
Qed.

(** The head of an answer with the status [abc]; [lines] is the rest of it up to the empty line. *)
Definition answer_head (m a b c : Z) (lines : list Z) : list Z := str "HTTP/1." ++ m :: 32 :: 48 + a :: 48 + b :: 48 + c :: lines.
Definition answer (head body : list Z) : list Z := head ++ (CRLF ++ CRLF) ++ body.
Definition head_ok (m a b c : Z) (lines : list Z) : Prop :=
  is_digit m = true ∧ 0 ≤ a < 10 ∧ 0 ≤ b < 10 ∧ 0 ≤ c < 10 ∧ match lines with [] => True | x :: _ => is_digit x = false end ∧
  Forall (λ c, c ≠ 0) lines ∧ strstr (answer_head m a b c lines ++ CRLF ++ CRLF) (CRLF ++ CRLF) = Some (CRLF ++ CRLF).

Section exchange2.
Context {E : Type} `{!HttpServices E} {inp : E → list Z} {out : E → list (list Z)} `{!HttpLaws inp out}.

Lemma read_response_ok m a b c lines body response e : head_ok m a b c lines →
  wp (read_response (answer (answer_head m a b c lines) body) (Z.of_nat (length (answer (answer_head m a b c lines) body))) response)
    (λ r e', status_code r = 100 * a + 10 * b + c ∧ rs_body r = Some (body ++ [0]) ∧ rs_body_length r = Z.of_nat (length body) ∧ out e' = out e) e.
Proof.
  intros (Hm & Ha & Hb & Hc & Hlines & Hz & Hfirst). set (head := answer_head m a b c lines) in *. unfold read_response, answer.
  assert (c_string (head ++ (CRLF ++ CRLF) ++ body) = head ++ (CRLF ++ CRLF) ++ c_string body) as ->.
  { rewrite app_assoc, c_string_app; [by rewrite <-app_assoc|]. apply Forall_app. split; [|by repeat constructor].
    unfold head, answer_head. apply Forall_app. split; [by repeat constructor|]. destruct (digit_plain m Hm) as (_ & _ & _ & ?).
    repeat (apply Forall_cons; split; [lia|]). done. }
  cbv zeta. rewrite (strstr_here (head ++ _)) by (unfold head, answer_head; rewrite <-app_assoc; apply is_prefix_same).
  assert (scan_status (head ++ (CRLF ++ CRLF) ++ c_string body) e = Ret (Some (100 * a + 10 * b + c)) e) as Hst.
  { unfold head, answer_head. rewrite <-app_assoc. cbn [app]. apply scan_status_ok; try done. by destruct lines. }
  rewrite wp_bind. unfold wp at 1. rewrite Hst. rewrite (strstr_first (CRLF ++ CRLF) (c_string body) head Hfirst).
  rewrite wp_bind. eapply wp_mono; [apply hl_malloc|]. intros ok e1 [-> Ho]. rewrite wp_bind.
  replace (Z.of_nat (length (head ++ (CRLF ++ CRLF) ++ c_string body) - length ((CRLF ++ CRLF) ++ c_string body) + 4))
    with (Z.of_nat (length (head ++ (CRLF ++ CRLF)))) by (rewrite !length_app; cbn [length CRLF]; lia).
  eapply peek_ok; [lia|rewrite !length_app; cbn [length CRLF]; lia|]. rewrite wp_ret.
  replace (Z.of_nat (length (head ++ (CRLF ++ CRLF) ++ body)) - Z.of_nat (length (head ++ (CRLF ++ CRLF)))) with (Z.of_nat (length body))
    by (rewrite !length_app; lia).
  rewrite !Nat2Z.id. rewrite (app_assoc head (CRLF ++ CRLF) body), drop_app_length, firstn_all. done.
Qed.

(** ** The request *)
Lemma append_ok pre rest text (e : E) (Q : list Z * Z → E → Prop) : length (pre ++ rest) = 512%nat → (length (pre ++ text) < 512)%nat →
  (∀ rest', length ((pre ++ text) ++ rest') = 512%nat → Q ((pre ++ text) ++ rest', Z.of_nat (length (pre ++ text))) e) →
  wp (append (pre ++ rest) (Z.of_nat (length pre)) text) Q e.
Proof.
  intros Hl Hfit HQ. rewrite length_app in Hl, Hfit. unfold append. rewrite (proj2 (Z.ltb_ge 512 _)) by lia. cbv zeta.
  destruct (Z.to_nat (512 - Z.of_nat (length pre))) as [|n] eqn:En; [lia|]. rewrite wp_ret, take_ge by lia.
  rewrite Nat2Z.id, put_app_head by done. unfold put. rewrite take_0, app_nil_l, <-!app_assoc.
  replace (Z.of_nat (length pre) + Z.of_nat (length text)) with (Z.of_nat (length (pre ++ text))) by (rewrite length_app; lia).
  rewrite app_assoc. apply HQ. rewrite !length_app, length_drop. cbn [length]. lia.
Qed.

Lemma decimal_digits_length f n : length (decimal_digits (S f) n) = if n <? 10 then 1%nat else S (length (decimal_digits f (n / 10))).
Proof. cbn [decimal_digits]. rewrite length_app. cbn [length]. destruct (n <? 10); cbn [length]; lia. Qed.
Lemma decimal_octet v : 0 ≤ v < 256 → (length (decimal v) ≤ 3)%nat.
Proof.
  intros Hv. unfold decimal. rewrite decimal_digits_length. destruct (Z.ltb_spec v 10); [lia|].
  rewrite decimal_digits_length. destruct (Z.ltb_spec (v / 10) 10); [lia|]. rewrite decimal_digits_length.
  rewrite (proj2 (Z.ltb_lt (v / 10 / 10) 10)) by (Z.div_mod_to_equations; lia). lia.
Qed.
Lemma request_head_length method path ip : bytes_ok (ip_bytes ip) → (length path ≤ 127)%nat → (length (request_head method path ip) < 400)%nat.
Proof.
  destruct ip as [a b c d]. unfold ip_bytes. cbn [ip0 ip1 ip2 ip3]. rewrite !bytes_ok_cons. intros (Ha & Hb & Hc & Hd & _) Hp.
  pose proof (decimal_octet a Ha). pose proof (decimal_octet b Hb). pose proof (decimal_octet c Hc). pose proof (decimal_octet d Hd).
  unfold request_head. cbn [ip0 ip1 ip2 ip3]. rewrite !length_app.
  set (la := length (decimal a)) in *. set (lb := length (decimal b)) in *. set (lc := length (decimal c)) in *.
  set (ld := length (decimal d)) in *. clearbody la lb lc ld. destruct (bool_decide _); cbn; lia.
Qed.

End exchange2.

(** * Requests that do not fit *)
Lemma append_past {E} request n text (e : E) : 512 < n → append request n text e = Undef.
Proof. intros Hn. unfold append. by rewrite (proj2 (Z.ltb_lt 512 n)). Qed.
Lemma append_in {E} request n text (e : E) : n ≤ 512 → ∃ request', append request n text e = Ret (request', n + Z.of_nat (length text)) e.
Proof. intros Hn. unfold append. rewrite (proj2 (Z.ltb_ge 512 n)) by lia. by eexists. Qed.
Lemma add_headers_past {E} headers : ∀ request n (e : E), 0 ≤ n →
  (∃ request' n', add_headers request n headers e = Ret (request', n') e ∧ n' = n + Z.of_nat (length (mjoin ((.++ CRLF) <$> headers)))) ∨
  add_headers request n headers e = Undef.
Proof.
  induction headers as [|h headers IH]; intros request n e Hn; cbn [add_headers].
  { left. exists request, n. split; [done|]. cbn. lia. }
  unfold bind. destruct (Z.ltb_spec 512 n); [right; by rewrite append_past|].
  destruct (append_in request n (h ++ CRLF) e) as (r1 & ->); [done|]. cbn [fst snd].
  destruct (IH r1 (n + Z.of_nat (length (h ++ CRLF))) e) as [(r' & n' & E1 & E2)|E1]; [lia|left|by right].
  exists r', n'. split; [exact E1|]. rewrite E2. change (mjoin ((.++ CRLF) <$> h :: headers)) with ((h ++ CRLF) ++ mjoin ((.++ CRLF) <$> headers)).
  rewrite (length_app (h ++ CRLF)). lia.
Qed.

(** A request whose head and headers together take more than 512 bytes is undefined behaviour:
    [req_len] grows by what [snprintf] would have written, so that the next output is placed past the
    end of the array [request]. *)
Theorem http_long_headers {E} `{!HttpServices E} method url headers body body_length response t ip port path sock (e e1 e2 : E) :
  parse_url url (IPV4 0 0 0 0) e = Ret (Some (ip, port, path)) e → bytes_ok (ip_bytes ip) → (length path ≤ 127)%nat →
  hv_socket e = Ret sock e1 → sock ≠ INVALID_SOCKET → hv_connect sock (SockAddr ip port) t e1 = Ret OS_OK e2 →
  512 < Z.of_nat (length (request_head method path ip) + length (mjoin ((.++ CRLF) <$> headers))) →
  net_http_request method url (Some headers) body body_length response t e = Undef.
Proof.
  intros Hu Hip Hp Hs Hne Hc Hlong. unfold net_http_request. unfold bind at 1. rewrite Hu. unfold bind at 1. rewrite Hs.
  rewrite (proj2 (Z.eqb_neq _ _)) by done. unfold bind at 1. rewrite Hc, bool_decide_eq_true_2 by done. cbn [negb].
  pose proof (request_head_length method path ip Hip Hp) as Hrl. set (rh := request_head method path ip) in *.
  unfold bind at 1. destruct (append_in (replicate 512 0) 0 rh e2) as (r1 & ->); [lia|]. cbn [fst snd default].
  rewrite (proj2 (Z.leb_gt 512 _)) by lia. unfold bind at 1. change (id headers) with headers.
  match goal with |- context [add_headers ?r ?n headers e2] => destruct (add_headers_past headers r n e2 ltac:(lia)) as [(r' & n' & -> & E2)| ->] end; [|done].
  cbn [fst snd]. unfold bind at 1. destruct body as [body|]; [destruct (0 <? body_length)|]; unfold bind at 1; by rewrite append_past by lia.
Qed.

(** * A host *)
Record http_host := HttpHost { hh_in : list Z; hh_out : list (list Z) }.
#[export] Instance http_host_eta : Eta http_host := λ h, HttpHost (hh_in h) (hh_out h).
(** The answer is handed over in pieces of at most ten bytes. *)
#[export] Instance host_http : HttpServices http_host := {|
  hv_socket := ret 0;
  hv_connect _ _ _ := ret OS_OK;
  hv_close _ := ret tt;
  hv_send _ data n _ := modify (λ h, h <| hh_out ::= λ o, o ++ [take (Z.to_nat n) data] |>) ;;; ret n;
  hv_recv _ max _ :=
    let! i := gets hh_in in
    let k := Nat.min (Z.to_nat max) (Nat.min 10 (length i)) in
    modify (λ h, h <| hh_in := drop k i |>) ;;;
    ret (Z.of_nat k, take k i);
  hv_malloc _ := ret true;
  hv_free := ret tt
|}.
#[export] Instance host_http_laws : HttpLaws hh_in hh_out.
Proof.
  split; cbn [hv_socket hv_connect hv_close hv_send hv_recv hv_malloc host_http].
  - intros e. by rewrite wp_ret.
  - intros s a t e. by rewrite wp_ret.
  - intros s e. by rewrite wp_ret.
  - intros s data n t e Hn. rewrite wp_bind, wp_modify, wp_ret. done.
  - intros s max t e Hmax. rewrite wp_bind, wp_gets, wp_bind, wp_modify, wp_ret. split; [done|]. destruct (hh_in e) as [|x l] eqn:Ei.
    + replace (Nat.min (Z.to_nat max) (Nat.min 10 (length []))) with 0%nat by (cbn [length]; lia). done.
    + exists (Nat.min (Z.to_nat max) (Nat.min 10 (length (x :: l)))). cbn [length]. repeat (split; [lia|]). done.
  - intros n e. by rewrite wp_ret.
Qed.
Definition no_response : http_response_t := HttpResponse 0 None 0 [].


Lemma http_long_headers_witness :
  net_http_request HTTP_GET (str "http://10.0.0.1/") (Some [replicate 460 97]) None 0 no_response 1000 (HttpHost [] []) = Undef.
Proof.
  apply (http_long_headers HTTP_GET (str "http://10.0.0.1/") [replicate 460 97] None 0 no_response 1000 (IPV4 10 0 0 1) 80 (str "/") 0
    (HttpHost [] []) (HttpHost [] []) (HttpHost [] [])); [reflexivity| |cbn; lia|reflexivity|done|reflexivity|vm_compute; reflexivity].
  repeat constructor; cbn; lia.
Defined.
