(* ===== verification/Mqtt.v ===== *)
(** Mqtt: the MQTT client of [src/mqtt.c].

    The state is one client ([mqtt_client_t]) with the rest of the system: sockets, name resolution, the
    clock, the client's mutex and its task are the class [MqttServices] on a state [E]. A function
    that takes a pointer to the client gets whether the pointer is not null. A C string is the list of
    its bytes before the NUL, [None] for a null pointer. The callbacks are parameters, selected by the
    value of the function pointer (0 is [NULL]). An access outside [tx_buffer] or [rx_buffer] is
    undefined behaviour. *)
From Stdlib Require Import ZArith Lia String.
From stdpp Require Import base numbers list gmap.
From S2P Require Import Prelude Types Bytes Net.

(** * Constants and types of include/tinyos/mqtt.h *)
Definition MQTT_MAX_PACKET_SIZE : Z := 1024.
Definition MQTT_MAX_TOPIC_LENGTH : Z := 128.
Definition MQTT_MAX_SUBSCRIPTIONS : Z := 16.
Definition MQTT_DEFAULT_KEEPALIVE : Z := 60.
Definition MQTT_DEFAULT_PORT : Z := 1883.
Definition MQTT_DEFAULT_TIMEOUT_MS : Z := 5000.
Definition MQTT_PROTOCOL_VERSION_3_1_1 : Z := 4.

Inductive mqtt_qos_t := MQTT_QOS_0 | MQTT_QOS_1 | MQTT_QOS_2.
Definition qos_code (q : mqtt_qos_t) : Z := match q with MQTT_QOS_0 => 0 | MQTT_QOS_1 => 1 | MQTT_QOS_2 => 2 end.

Inductive mqtt_error_t :=
| MQTT_OK | MQTT_ERROR_INVALID_PARAM | MQTT_ERROR_NOT_CONNECTED | MQTT_ERROR_ALREADY_CONNECTED
| MQTT_ERROR_NETWORK | MQTT_ERROR_TIMEOUT | MQTT_ERROR_PROTOCOL | MQTT_ERROR_BUFFER_OVERFLOW
| MQTT_ERROR_BROKER_REFUSED | MQTT_ERROR_SUBSCRIBE_FAILED | MQTT_ERROR_PUBLISH_FAILED | MQTT_ERROR_NO_MEMORY.
#[global] Instance mqtt_error_eq_dec : EqDecision mqtt_error_t.
Proof. solve_decision. Defined.

Inductive mqtt_state_t :=
| MQTT_STATE_DISCONNECTED | MQTT_STATE_CONNECTING | MQTT_STATE_CONNECTED | MQTT_STATE_DISCONNECTING.
#[global] Instance mqtt_state_eq_dec : EqDecision mqtt_state_t.
Proof. solve_decision. Defined.

Definition MQTT_CONNACK_ACCEPTED : Z := 0.
Definition MQTT_MSG_TYPE_CONNECT : Z := 1.
Definition MQTT_MSG_TYPE_CONNACK : Z := 2.
Definition MQTT_MSG_TYPE_PUBLISH : Z := 3.
Definition MQTT_MSG_TYPE_PUBACK : Z := 4.
Definition MQTT_MSG_TYPE_SUBSCRIBE : Z := 8.
Definition MQTT_MSG_TYPE_SUBACK : Z := 9.
Definition MQTT_MSG_TYPE_UNSUBSCRIBE : Z := 10.
Definition MQTT_MSG_TYPE_PINGREQ : Z := 12.
Definition MQTT_MSG_TYPE_PINGRESP : Z := 13.
Definition MQTT_MSG_TYPE_DISCONNECT : Z := 14.

Record mqtt_message_t := MqttMessage {
  msg_topic : list Z; msg_payload : list Z; msg_payload_length : Z; msg_qos : mqtt_qos_t; msg_retained : bool;
  msg_message_id : Z
}.

Record mqtt_config_t := MqttConfig {
  broker_host : option (list Z);
  broker_port : Z;
  client_id : option (list Z);
  username : option (list Z);
  password : option (list Z);
  keepalive_sec : Z;
  clean_session : bool;
  will_topic : option (list Z);
  will_message : option (list Z);
  will_message_len : Z;
  will_qos : mqtt_qos_t;
  will_retained : bool;
  timeout_ms : Z;
  auto_reconnect : bool;
  reconnect_interval_ms : Z
}.
#[export] Instance mqtt_config_eta : Eta mqtt_config_t := λ c,
  MqttConfig (broker_host c) (broker_port c) (client_id c) (username c) (password c) (keepalive_sec c) (clean_session c)
    (will_topic c) (will_message c) (will_message_len c) (will_qos c) (will_retained c) (timeout_ms c) (auto_reconnect c)
    (reconnect_interval_ms c).
Definition mqtt_config_zero : mqtt_config_t :=
  MqttConfig None 0 None None None 0 false None None 0 MQTT_QOS_0 false 0 false 0.

Record mqtt_subscription_t := Subscription { sub_topic : list Z; sub_qos : mqtt_qos_t; sub_active : bool }.
#[export] Instance subscription_eta : Eta mqtt_subscription_t := λ s, Subscription (sub_topic s) (sub_qos s) (sub_active s).

(** The [task] and the [mutex] of the client are objects of the kernel. *)
Record mqtt_client_t := MqttClient {
  config : mqtt_config_t;
  mq_state : mqtt_state_t;
  socket : Z;
  next_message_id : Z;
  last_activity_ms : Z;
  last_ping_ms : Z;
  message_callback : Z;
  message_callback_data : Z;
  connection_callback : Z;
  connection_callback_data : Z;
  subscriptions : list mqtt_subscription_t;
  tx_buffer : list Z;
  rx_buffer : list Z;
  rx_buffer_pos : Z;
  task_running : bool
}.
#[export] Instance mqtt_client_eta : Eta mqtt_client_t := λ c,
  MqttClient (config c) (mq_state c) (socket c) (next_message_id c) (last_activity_ms c) (last_ping_ms c)
    (message_callback c) (message_callback_data c) (connection_callback c) (connection_callback_data c)
    (subscriptions c) (tx_buffer c) (rx_buffer c) (rx_buffer_pos c) (task_running c).
(** [memset (client, 0, sizeof (mqtt_client_t))] *)
Definition mqtt_client_zero : mqtt_client_t :=
  MqttClient mqtt_config_zero MQTT_STATE_DISCONNECTED 0 0 0 0 0 0 0 0
    (replicate 16 (Subscription (replicate 128 0) MQTT_QOS_0 false)) (replicate 1024 0) (replicate 1024 0) 0 false.

(** What the client uses of the rest of the system. [mv_recv sock max timeout] returns the result of
    [net_recv] and the bytes it stored. *)
Class MqttServices (E : Type) := {
  mv_mutex_init : M E unit;
  mv_lock : M E unit;
  mv_unlock : M E unit;
  mv_socket : M E Z;
  mv_close : Z → M E unit;
  mv_resolve : option (list Z) → Z → M E (os_error_t * ipv4_addr_t);
  mv_connect : Z → sockaddr_in_t → Z → M E os_error_t;
  mv_send : Z → list Z → Z → Z → M E Z;
  mv_recv : Z → Z → Z → M E (Z * list Z);
  mv_start_task : M E unit;
  mv_delay : Z → M E unit;
  mv_uptime_ms : E → Z
}.

Record mqtt_world (E : Type) := MqttWorld { outside : E; client : mqtt_client_t }.
Arguments MqttWorld {E} _ _.
Arguments outside {E} _.
Arguments client {E} _.
#[export] Instance mqtt_world_eta E : Eta (mqtt_world E) := λ w, MqttWorld (outside w) (client w).

(** * Encoding *)

(** The loop of [mqtt_encode_remaining_length]: the bytes stored. A 32-bit length has at most five. *)
Fixpoint encode_length (fuel : nat) (length : Z) : list Z :=
  let byte := length mod 128 in
  let rest := length / 128 in
  if 0 <? rest then
    match fuel with
    | O => [Z.lor byte 0x80]
    | S fuel => Z.lor byte 0x80 :: encode_length fuel rest
    end
  else [byte].
Definition mqtt_encode_remaining_length (length : Z) : list Z := encode_length 4 length.

(** The loop of [mqtt_decode_remaining_length] from [buffer + pos] on: the value and [pos]
    afterwards; [None]: a byte that was not read is used. *)
Fixpoint decode_length (buffer : list Z) (rounds : nat) (multiplier value pos : Z) : option (Z * Z) :=
  match buffer, rounds with
  | byte :: buffer, S rounds =>
      let value := u32 (value + u32 (Z.land byte 0x7F * multiplier)) in
      let multiplier := u32 (multiplier * 128) in
      let pos := pos + 1 in
      if negb (Z.land byte 0x80 =? 0) && (pos <? 4) then decode_length buffer rounds multiplier value pos
      else Some (value, pos)
  | _, _ => None
  end.
Definition mqtt_decode_remaining_length (buffer : list Z) : option (Z * Z) := decode_length buffer 4 1 0 0.

(** The bytes [mqtt_encode_string] stores: the length (in 16 bits) and that many characters. *)
Definition encoded_string (str : option (list Z)) : list Z :=
  let s := default [] str in
  let len := u16 (Z.of_nat (length s)) in
  [Z.land (Z.shiftr len 8) 0xFF; Z.land len 0xFF] ++ take (Z.to_nat len) s.

(** The loop of [mqtt_topic_matches] on the rest [s] of the subscription and [t] of the topic. *)
Fixpoint skip_level (t : list Z) : list Z :=
  match t with
  | [] => []
  | c :: t' => if c =? 47 then t else skip_level t'
  end.
Fixpoint matches_from (fuel : nat) (s t : list Z) : bool :=
  match s, t with
  | a :: s', b :: t' =>
      if a =? 35 then true
      else
        match fuel with
        | O => false
        | S fuel =>
            if a =? 43 then
              matches_from fuel (match s' with c :: s'' => if c =? 47 then s'' else s' | [] => [] end) (skip_level t)
            else if a =? b then matches_from fuel s' t'
            else false
        end
  | [], [] => true
  | _, _ => false
  end.
(** Every round moves [s] forwards. *)
Definition mqtt_topic_matches (subscription topic : list Z) : bool :=
  matches_from (length subscription) subscription topic.

(** * The client *)
Section mqtt.
Context {E : Type} `{!MqttServices E}.
(** The callbacks, by the value of the function pointer; the last argument is the user data. *)
Context (call_message : Z → mqtt_message_t → Z → M (mqtt_world E) unit).
Context (call_connection : Z → bool → Z → M (mqtt_world E) unit).
Abbreviation W := (mqtt_world E).

Definition sys {A} (m : M E A) : M W A := zoom outside m.
Definition upd (f : mqtt_client_t → mqtt_client_t) : M W unit := modify (λ w, w <| client ::= f |>).
Definition mqtt_get_time_ms : M W Z := gets (λ w, mv_uptime_ms (outside w)).

Definition mqtt_next_message_id : M W Z :=
  upd (λ c, c <| next_message_id ::= λ n, if u16 (n + 1) =? 0 then 1 else u16 (n + 1) |>) ;;;
  gets (λ w, next_message_id (client w)).

Definition mqtt_send_packet (data : list Z) (len : Z) : M W mqtt_error_t :=
  let! c := gets client in
  if negb (bool_decide (mq_state c = MQTT_STATE_CONNECTED)) && negb (bool_decide (mq_state c = MQTT_STATE_CONNECTING))
  then ret MQTT_ERROR_NOT_CONNECTED
  else
    let! sent := sys (mv_send (socket c) data len (timeout_ms (config c))) in
    if negb (sent =? len) then ret MQTT_ERROR_NETWORK
    else
      let! now := mqtt_get_time_ms in
      upd (λ c, c <| last_activity_ms := now |>) ;;;
      ret MQTT_OK.

(** [memcpy (&buf[pos], bytes, length (bytes))], or the assignments of single bytes. *)
Definition tx_put (pos : Z) (bytes : list Z) : M W unit :=
  let! b := gets (λ w, tx_buffer (client w)) in
  let! b := poke b pos bytes in
  upd (λ c, c <| tx_buffer := b |>).
(** [pos += mqtt_encode_string (&buf[pos], str)] *)
Definition tx_string (pos : Z) (str : option (list Z)) : M W Z :=
  tx_put pos (encoded_string str) ;;;
  ret (u16 (pos + u16 (u16 (Z.of_nat (length (default [] str))) + 2))).
Definition hi_lo (v : Z) : list Z := [Z.land (Z.shiftr v 8) 0xFF; Z.land v 0xFF].
(** [mqtt_send_packet (client, buf, pos)] *)
Definition send_tx (pos : Z) : M W mqtt_error_t :=
  let! b := gets (λ w, tx_buffer (client w)) in
  mqtt_send_packet b pos.

Definition connect_flags (c : mqtt_config_t) : Z :=
  let flags := if clean_session c then 0x02 else 0 in
  let flags :=
    match will_topic c with
    | Some _ =>
        let flags := Z.lor (Z.lor flags 0x04) (Z.shiftl (Z.land (qos_code (will_qos c)) 0x03) 3) in
        if will_retained c then Z.lor flags 0x20 else flags
    | None => flags
    end in
  let flags := match username c with Some _ => Z.lor flags 0x80 | None => flags end in
  match password c with Some _ => Z.lor flags 0x40 | None => flags end.

Definition MQTT_NAME : list Z := [77; 81; 84; 84].
(** The optional part of the payload: the will, the user name, the password. *)
Definition tx_will (c : mqtt_config_t) (pos : Z) : M W Z :=
  match will_topic c with
  | None => ret pos
  | Some topic =>
      let! pos := tx_string pos (Some topic) in
      tx_put pos (hi_lo (will_message_len c)) ;;;
      let pos := u16 (pos + 2) in
      if 0 <? will_message_len c then
        let! m := assigned (will_message c) in
        let! bytes := peek m 0 (will_message_len c) in
        tx_put pos bytes ;;;
        ret (u16 (pos + will_message_len c))
      else ret pos
  end.
Definition tx_optional (str : option (list Z)) (pos : Z) : M W Z :=
  match str with Some s => tx_string pos (Some s) | None => ret pos end.

Definition mqtt_send_connect : M W mqtt_error_t :=
  let! c := gets (λ w, config (client w)) in
  tx_put 0 [Z.shiftl MQTT_MSG_TYPE_CONNECT 4] ;;;
  let pos := 1 in
  let payload_start := pos + 4 in
  let! p := tx_string payload_start (Some MQTT_NAME) in
  tx_put p [MQTT_PROTOCOL_VERSION_3_1_1] ;;;
  tx_put (p + 1) [connect_flags c] ;;;
  tx_put (p + 2) (hi_lo (keepalive_sec c)) ;;;
  let! p := tx_string (p + 4) (client_id c) in
  let! p := tx_will c p in
  let! p := tx_optional (username c) p in
  let! payload_pos := tx_optional (password c) p in
  let remaining_length := u32 (payload_pos - payload_start) in
  let len_field := mqtt_encode_remaining_length remaining_length in
  let len_bytes := Z.of_nat (length len_field) in
  tx_put pos len_field ;;;
  if len_bytes =? 4 then send_tx payload_pos
  else
    let! b := gets (λ w, tx_buffer (client w)) in
    let! body := peek b payload_start remaining_length in
    tx_put (pos + len_bytes) body ;;;
    send_tx (u16 (pos + len_bytes + remaining_length)).

Definition mqtt_send_disconnect : M W mqtt_error_t := mqtt_send_packet [Z.shiftl MQTT_MSG_TYPE_DISCONNECT 4; 0] 2.
Definition mqtt_send_pingreq : M W mqtt_error_t := mqtt_send_packet [Z.shiftl MQTT_MSG_TYPE_PINGREQ 4; 0] 2.

Definition mqtt_send_publish (topic : list Z) (payload : option (list Z)) (payload_len : Z) (qos : mqtt_qos_t)
    (retained : bool) (message_id : Z) : M W mqtt_error_t :=
  let flags := Z.lor (if retained then 0x01 else 0) (Z.shiftl (Z.land (qos_code qos) 0x03) 1) in
  tx_put 0 [Z.lor (Z.shiftl MQTT_MSG_TYPE_PUBLISH 4) flags] ;;;
  let topic_len := u16 (Z.of_nat (length topic)) in
  let remaining_length := 2 + topic_len + payload_len + (if 0 <? qos_code qos then 2 else 0) in
  let len_field := mqtt_encode_remaining_length remaining_length in
  tx_put 1 len_field ;;;
  let pos := 1 + Z.of_nat (length len_field) in
  let! pos := tx_string pos (Some topic) in
  let! pos :=
    if 0 <? qos_code qos then tx_put pos (hi_lo message_id) ;;; ret (u16 (pos + 2)) else ret pos in
  let! pos :=
    if 0 <? payload_len then
      let! p := assigned payload in
      let! bytes := peek p 0 payload_len in
      tx_put pos bytes ;;;
      ret (u16 (pos + payload_len))
    else ret pos in
  send_tx pos.

(** The part that SUBSCRIBE and UNSUBSCRIBE share, up to the topic filter; [extra] bytes follow it. *)
Definition tx_request (type : Z) (topic : list Z) (extra : Z) : M W Z :=
  tx_put 0 [Z.lor (Z.shiftl type 4) 0x02] ;;;
  let topic_len := u16 (Z.of_nat (length topic)) in
  let len_field := mqtt_encode_remaining_length (2 + 2 + topic_len + extra) in
  tx_put 1 len_field ;;;
  let pos := 1 + Z.of_nat (length len_field) in
  let! message_id := mqtt_next_message_id in
  tx_put pos (hi_lo message_id) ;;;
  tx_string (pos + 2) (Some topic).
Definition mqtt_send_subscribe (topic : list Z) (qos : mqtt_qos_t) : M W mqtt_error_t :=
  let! pos := tx_request MQTT_MSG_TYPE_SUBSCRIBE topic 1 in
  tx_put pos [qos_code qos] ;;;
  send_tx (u16 (pos + 1)).
Definition mqtt_send_unsubscribe (topic : list Z) : M W mqtt_error_t :=
  let! pos := tx_request MQTT_MSG_TYPE_UNSUBSCRIBE topic 0 in
  send_tx pos.

(** ** Receiving *)
Definition recv1 (timeout : Z) : M W (Z * list Z) :=
  let! s := gets (λ w, socket (client w)) in
  sys (mv_recv s 1 timeout).

(** The loop over the bytes of the remaining length, [n = 4 - len_bytes]; [None] is the return with
    [MQTT_ERROR_NETWORK], otherwise the bytes of [header + 1]. *)
Fixpoint read_length (n : nat) (timeout : Z) : M W (option (list Z)) :=
  match n with
  | O => ret (Some [])
  | S n =>
      let! r := recv1 timeout in
      if r.1 <=? 0 then ret None
      else
        let! byte := assigned (head r.2) in
        if negb (Z.land byte 0x80 =? 0) && (0 <? n)%nat then
          let! rest := read_length n timeout in
          ret (cons byte <$> rest)
        else ret (Some [byte])
  end.

(** [while (total_received < remaining_length)]; the result is false for the return with
    [MQTT_ERROR_NETWORK]. *)
Fixpoint read_body (fuel : nat) (total_received remaining_length timeout : Z) : M W bool :=
  if total_received <? remaining_length then
    match fuel with
    | O => nofuel
    | S fuel =>
        let! c := gets client in
        let! r := sys (mv_recv (socket c) (u16 (remaining_length - total_received)) timeout) in
        let! b := poke (rx_buffer c) total_received r.2 in
        upd (λ c, c <| rx_buffer := b |>) ;;;
        if r.1 <=? 0 then ret false else read_body fuel (u32 (total_received + r.1)) remaining_length timeout
    end
  else ret true.

(** The remaining packet, and the time of the last activity. *)
Definition read_rest (remaining_length timeout : Z) : M W mqtt_error_t :=
  if (0 <? remaining_length) && (MQTT_MAX_PACKET_SIZE <? remaining_length) then ret MQTT_ERROR_BUFFER_OVERFLOW
  else
    let! ok :=
      if 0 <? remaining_length then
        let! ok := read_body (Z.to_nat remaining_length) 0 remaining_length timeout in
        when ok (upd (λ c, c <| rx_buffer_pos := remaining_length |>)) ;;;
        ret ok
      else ret true in
    if ok : bool then
      let! now := mqtt_get_time_ms in
      upd (λ c, c <| last_activity_ms := now |>) ;;;
      ret MQTT_OK
    else ret MQTT_ERROR_NETWORK.

(** The result and the value assigned to [*msg_type], if any. *)
Definition mqtt_receive_packet (timeout : Z) : M W (mqtt_error_t * option Z) :=
  let! r := recv1 timeout in
  if r.1 <=? 0 then ret (if r.1 =? 0 then MQTT_ERROR_TIMEOUT else MQTT_ERROR_NETWORK, None)
  else
    let! first := assigned (head r.2) in
    let msg_type := Some (Z.land (Z.shiftr first 4) 0x0F) in
    let! field := read_length 4 timeout in
    match field with
    | None => ret (MQTT_ERROR_NETWORK, msg_type)
    | Some field =>
        let! len := assigned (mqtt_decode_remaining_length field) in
        let! err := read_rest len.1 timeout in
        ret (err, msg_type)
    end.

Definition notify (connected : bool) : M W unit :=
  let! c := gets client in
  when (negb (connection_callback c =? 0)) (call_connection (connection_callback c) connected (connection_callback_data c)).

Definition mqtt_handle_connack : M W mqtt_error_t :=
  let! c := gets client in
  if rx_buffer_pos c <? 2 then ret MQTT_ERROR_PROTOCOL
  else
    let! return_code := arr_get (rx_buffer c) 1 in
    if return_code =? MQTT_CONNACK_ACCEPTED then
      upd (λ c, c <| mq_state := MQTT_STATE_CONNECTED |>) ;;;
      notify true ;;;
      ret MQTT_OK
    else ret MQTT_ERROR_BROKER_REFUSED.

Definition mqtt_handle_publish : M W mqtt_error_t :=
  let! c := gets client in
  let! hi := arr_get (rx_buffer c) 0 in
  let! lo := arr_get (rx_buffer c) 1 in
  let topic_len := u16 (Z.lor (Z.shiftl hi 8) lo) in
  let pos := 2 in
  if (MQTT_MAX_TOPIC_LENGTH <=? topic_len) || (rx_buffer_pos c <? pos + topic_len) then ret MQTT_ERROR_PROTOCOL
  else
    let! topic := peek (rx_buffer c) pos topic_len in
    let pos := pos + topic_len in
    let payload_len := u16 (rx_buffer_pos c - pos) in
    let payload := advance_ptr (rx_buffer c) pos in
    when (negb (message_callback c =? 0))
      (call_message (message_callback c) (MqttMessage topic payload payload_len MQTT_QOS_0 false 0)
         (message_callback_data c)) ;;;
    ret MQTT_OK.

Definition mqtt_handle_puback : M W mqtt_error_t := ret MQTT_OK.

Definition mqtt_handle_suback : M W mqtt_error_t :=
  let! c := gets client in
  if rx_buffer_pos c <? 3 then ret MQTT_ERROR_PROTOCOL
  else
    let! return_code := arr_get (rx_buffer c) 2 in
    ret (if return_code =? 0x80 then MQTT_ERROR_SUBSCRIBE_FAILED else MQTT_OK).

(** ** Public functions *)
Definition or_default (v d : Z) : Z := if v =? 0 then d else v.
Definition mqtt_client_init (client_ok : bool) (cfg : option mqtt_config_t) : M W mqtt_error_t :=
  match client_ok, cfg with
  | true, Some cfg =>
      upd (λ _, mqtt_client_zero) ;;;
      upd (λ c, c <| config := cfg |>) ;;;
      upd (λ c, c <| config ::= λ g, g <| broker_port ::= λ v, or_default v MQTT_DEFAULT_PORT |> |>) ;;;
      upd (λ c, c <| config ::= λ g, g <| keepalive_sec ::= λ v, or_default v MQTT_DEFAULT_KEEPALIVE |> |>) ;;;
      upd (λ c, c <| config ::= λ g, g <| timeout_ms ::= λ v, or_default v MQTT_DEFAULT_TIMEOUT_MS |> |>) ;;;
      upd (λ c, c <| mq_state := MQTT_STATE_DISCONNECTED |>) ;;;
      upd (λ c, c <| next_message_id := 1 |>) ;;;
      sys mv_mutex_init ;;;
      ret MQTT_OK
  | _, _ => ret MQTT_ERROR_INVALID_PARAM
  end.

(** [net_close (client->socket); client->state = MQTT_STATE_DISCONNECTED; unlock; return err;] *)
Definition abandon (err : mqtt_error_t) : M W mqtt_error_t :=
  let! s := gets (λ w, socket (client w)) in
  sys (mv_close s) ;;;
  upd (λ c, c <| mq_state := MQTT_STATE_DISCONNECTED |>) ;;;
  sys mv_unlock ;;;
  ret err.

(** From the CONNECT packet on. *)
Definition handshake : M W mqtt_error_t :=
  let! timeout := gets (λ w, timeout_ms (config (client w))) in
  let! err := mqtt_send_connect in
  if negb (bool_decide (err = MQTT_OK)) then abandon err
  else
    let! r := mqtt_receive_packet timeout in
    if negb (bool_decide (r.1 = MQTT_OK)) then abandon r.1
    else
      let! msg_type := assigned r.2 in
      if negb (msg_type =? MQTT_MSG_TYPE_CONNACK) then abandon MQTT_ERROR_PROTOCOL
      else
        let! err := mqtt_handle_connack in
        if negb (bool_decide (err = MQTT_OK)) then abandon err
        else
          upd (λ c, c <| task_running := true |>) ;;;
          sys mv_start_task ;;;
          let! now := mqtt_get_time_ms in
          upd (λ c, c <| last_activity_ms := now |>) ;;;
          let! now := mqtt_get_time_ms in
          upd (λ c, c <| last_ping_ms := now |>) ;;;
          sys mv_unlock ;;;
          ret MQTT_OK.

Definition mqtt_connect (client_ok : bool) : M W mqtt_error_t :=
  if negb client_ok then ret MQTT_ERROR_INVALID_PARAM
  else
    sys mv_lock ;;;
    let! c := gets client in
    if negb (bool_decide (mq_state c = MQTT_STATE_DISCONNECTED)) then
      sys mv_unlock ;;;
      ret MQTT_ERROR_ALREADY_CONNECTED
    else
      upd (λ c, c <| mq_state := MQTT_STATE_CONNECTING |>) ;;;
      let! sock := sys mv_socket in
      upd (λ c, c <| socket := sock |>) ;;;
      if sock <? 0 then
        upd (λ c, c <| mq_state := MQTT_STATE_DISCONNECTED |>) ;;;
        sys mv_unlock ;;;
        ret MQTT_ERROR_NETWORK
      else
        let! r := sys (mv_resolve (broker_host (config c)) (timeout_ms (config c))) in
        if negb (bool_decide (r.1 = OS_OK)) then abandon MQTT_ERROR_NETWORK
        else
          let! err := sys (mv_connect sock (SockAddr r.2 (broker_port (config c))) (timeout_ms (config c))) in
          if negb (bool_decide (err = OS_OK)) then abandon MQTT_ERROR_NETWORK
          else handshake.

Definition mqtt_disconnect (client_ok : bool) : M W mqtt_error_t :=
  if negb client_ok then ret MQTT_ERROR_INVALID_PARAM
  else
    sys mv_lock ;;;
    let! c := gets client in
    if negb (bool_decide (mq_state c = MQTT_STATE_CONNECTED)) then
      sys mv_unlock ;;;
      ret MQTT_ERROR_NOT_CONNECTED
    else
      upd (λ c, c <| mq_state := MQTT_STATE_DISCONNECTING |>) ;;;
      upd (λ c, c <| task_running := false |>) ;;;
      let! _ := mqtt_send_disconnect in
      sys (mv_close (socket c)) ;;;
      upd (λ c, c <| mq_state := MQTT_STATE_DISCONNECTED |>) ;;;
      notify false ;;;
      sys mv_unlock ;;;
      ret MQTT_OK.

(** The frame of the three operations on a connected client: lock, check, [m], unlock. *)
Definition when_connected (client_ok : bool) (topic : option (list Z)) (m : list Z → M W mqtt_error_t) : M W mqtt_error_t :=
  match client_ok, topic with
  | true, Some topic =>
      sys mv_lock ;;;
      let! c := gets client in
      if negb (bool_decide (mq_state c = MQTT_STATE_CONNECTED)) then
        sys mv_unlock ;;;
        ret MQTT_ERROR_NOT_CONNECTED
      else
        let! err := m topic in
        sys mv_unlock ;;;
        ret err
  | _, _ => ret MQTT_ERROR_INVALID_PARAM
  end.

Definition mqtt_publish (client_ok : bool) (topic payload : option (list Z)) (payload_length : Z) (qos : mqtt_qos_t)
    (retained : bool) : M W mqtt_error_t :=
  when_connected client_ok topic (λ topic,
    let! message_id := if 0 <? qos_code qos then mqtt_next_message_id else ret 0 in
    mqtt_send_publish topic payload payload_length qos retained message_id).

(** [strncpy] of the topic into the slot, and the terminating NUL. *)
Definition stored_topic (topic : list Z) : list Z := take 127 (topic ++ replicate 127 0) ++ [0].
Definition mqtt_subscribe (client_ok : bool) (topic : option (list Z)) (qos : mqtt_qos_t) : M W mqtt_error_t :=
  when_connected client_ok topic (λ topic,
    let! c := gets client in
    match list_find (λ s, sub_active s = false) (subscriptions c) with
    | None => ret MQTT_ERROR_NO_MEMORY
    | Some (slot, _) =>
        let! err := mqtt_send_subscribe topic qos in
        when (bool_decide (err = MQTT_OK))
          (upd (λ c, c <| subscriptions ::= <[slot := Subscription (stored_topic topic) qos true]> |>)) ;;;
        ret err
    end).

(** [strcmp (stored, topic) == 0], for an array [stored] that holds a string. *)
Fixpoint same_topic (stored topic : list Z) : bool :=
  match stored, topic with
  | c :: _, [] => c =? 0
  | c :: stored, d :: topic => (c =? d) && negb (c =? 0) && same_topic stored topic
  | [], _ => false
  end.
Definition mqtt_unsubscribe (client_ok : bool) (topic : option (list Z)) : M W mqtt_error_t :=
  when_connected client_ok topic (λ topic,
    let! c := gets client in
    match list_find (λ s, sub_active s && same_topic (sub_topic s) topic) (subscriptions c) with
    | Some (i, s) => upd (λ c, c <| subscriptions ::= <[i := s <| sub_active := false |>]> |>)
    | None => ret tt
    end ;;;
    mqtt_send_unsubscribe topic).

Definition mqtt_set_message_callback (client_ok : bool) (callback user_data : Z) : M W unit :=
  when client_ok (upd (λ c, c <| message_callback := callback |> <| message_callback_data := user_data |>)).
Definition mqtt_set_connection_callback (client_ok : bool) (callback user_data : Z) : M W unit :=
  when client_ok (upd (λ c, c <| connection_callback := callback |> <| connection_callback_data := user_data |>)).
Definition mqtt_is_connected (client_ok : bool) : M W bool :=
  gets (λ w, client_ok && bool_decide (mq_state (client w) = MQTT_STATE_CONNECTED)).
Definition mqtt_get_state (client_ok : bool) : M W mqtt_state_t :=
  gets (λ w, if client_ok then mq_state (client w) else MQTT_STATE_DISCONNECTED).

Definition mqtt_loop (client_ok : bool) : M W mqtt_error_t :=
  let! c := gets client in
  if negb client_ok || negb (bool_decide (mq_state c = MQTT_STATE_CONNECTED)) then ret MQTT_ERROR_NOT_CONNECTED
  else
    let! now := mqtt_get_time_ms in
    let keepalive_ms := u32 (keepalive_sec (config c) * 1000) in
    when (keepalive_ms <=? u32 (now - last_ping_ms c))
      (let! _ := mqtt_send_pingreq in
       upd (λ c, c <| last_ping_ms := now |>)) ;;;
    let! r := mqtt_receive_packet 100 in
    if bool_decide (r.1 = MQTT_ERROR_TIMEOUT) then ret MQTT_OK
    else if negb (bool_decide (r.1 = MQTT_OK)) then ret r.1
    else
      let! msg_type := assigned r.2 in
      if msg_type =? MQTT_MSG_TYPE_PUBLISH then mqtt_handle_publish
      else if msg_type =? MQTT_MSG_TYPE_PUBACK then mqtt_handle_puback
      else if msg_type =? MQTT_MSG_TYPE_SUBACK then mqtt_handle_suback
      else ret MQTT_OK.

(** The first [n] rounds of [mqtt_task]. *)
Fixpoint mqtt_task (n : nat) : M W unit :=
  let! running := gets (λ w, task_running (client w)) in
  match n with
  | O => ret tt
  | S n =>
      if running : bool then
        let! _ := mqtt_loop true in
        sys (mv_delay 10) ;;;
        mqtt_task n
      else ret tt
  end.
End mqtt.

Local Open Scope string_scope.
Definition mqtt_error_to_string (e : mqtt_error_t) : string :=
  match e with
  | MQTT_OK => "OK"
  | MQTT_ERROR_INVALID_PARAM => "Invalid parameter"
  | MQTT_ERROR_NOT_CONNECTED => "Not connected"
  | MQTT_ERROR_ALREADY_CONNECTED => "Already connected"
  | MQTT_ERROR_NETWORK => "Network error"
  | MQTT_ERROR_TIMEOUT => "Timeout"
  | MQTT_ERROR_PROTOCOL => "Protocol error"
  | MQTT_ERROR_BUFFER_OVERFLOW => "Buffer overflow"
  | MQTT_ERROR_BROKER_REFUSED => "Broker refused connection"
  | MQTT_ERROR_SUBSCRIBE_FAILED => "Subscribe failed"
  | MQTT_ERROR_PUBLISH_FAILED => "Publish failed"
  | MQTT_ERROR_NO_MEMORY => "No memory"
  end.
Definition mqtt_state_to_string (s : mqtt_state_t) : string :=
  match s with
  | MQTT_STATE_DISCONNECTED => "Disconnected"
  | MQTT_STATE_CONNECTING => "Connecting"
  | MQTT_STATE_CONNECTED => "Connected"
  | MQTT_STATE_DISCONNECTING => "Disconnecting"
  end.
