(* ===== verification/MqttTheorems.v ===== *)
(** MqttTheorems: the packets of the MQTT client.

    [MqttLaws] states what the client relies on of the rest of the system: a mutex that is taken and
    released, and a connection that carries a stream of bytes in each direction and may hand the bytes
    over in pieces of any size, as TCP does. *)
From Stdlib Require Import ZArith Lia.
From stdpp Require Import base numbers list gmap.
From S2P Require Import Prelude Types Bytes Net NetTheorems Mqtt.

(** * The remaining length field *)
Lemma low7 x : Z.land x 0x7F = x mod 128.
Proof. change 0x7F with (2 ^ 7 - 1). by rewrite land_ones_mod. Qed.
Lemma with_bit7 x : 0 ≤ x < 128 → Z.lor x 0x80 = x + 128.
Proof. intros Hx. rewrite Z.lor_comm, Z.add_comm. apply (lor_shiftl 7 1 x); lia. Qed.
Lemma bit7 x : 0 ≤ x < 256 → (Z.land x 0x80 =? 0) = (x <? 128).
Proof.
  intros Hx. assert (Z.land x 0x80 = (x / 128) * 128) as ->.
  { apply Z.bits_inj'. intros i Hi. rewrite Z.land_spec. change 128 with (2 ^ 7). rewrite <-Z.shiftr_div_pow2, <-Z.shiftl_mul_pow2 by lia.
    rewrite Z.shiftl_spec by lia. destruct (decide (i < 7)).
    - rewrite (Z.testbit_neg_r _ (i - 7)) by lia. rewrite Z.pow2_bits_false by lia. apply andb_false_r.
    - rewrite Z.shiftr_spec by lia. replace (i - 7 + 7) with i by lia. destruct (decide (i = 7)) as [->|].
      + by rewrite Z.pow2_bits_true, andb_true_r by lia.
      + rewrite Z.pow2_bits_false by lia. rewrite (testbit_above 8 x) by lia. done. }
  destruct (Z.eqb_spec (x / 128 * 128) 0), (Z.ltb_spec x 128); try done; exfalso; Z.div_mod_to_equations; lia.
Qed.

Lemma encode_length_last f n : n / 128 = 0 → encode_length f n = [n mod 128].
Proof. intros E. destruct f; cbn [encode_length]; by rewrite E. Qed.
Lemma encode_length_more f n : 0 < n / 128 → encode_length (S f) n = (n mod 128 + 128) :: encode_length f (n / 128).
Proof.
  intros Hn. cbn [encode_length]. rewrite (proj2 (Z.ltb_lt _ _)) by done.
  rewrite with_bit7 by (Z.div_mod_to_equations; lia). done.
Qed.

(** [f + 1] bytes hold a number below 128 to that power. *)
Lemma decode_encode_length f : ∀ n rounds value pos rest, 0 ≤ n < 128 ^ Z.of_nat (S f) → (f < rounds)%nat →
  0 ≤ pos → pos + Z.of_nat f < 4 → 0 ≤ value → value + n * 128 ^ pos < 2 ^ 32 →
  decode_length (encode_length f n ++ rest) rounds (128 ^ pos) value pos =
    Some (value + n * 128 ^ pos, pos + Z.of_nat (length (encode_length f n))) ∧
  (1 ≤ length (encode_length f n) ≤ S f)%nat ∧ bytes_ok (encode_length f n).
Proof.
  induction f as [|f IH]; intros n rounds value pos rest Hn Hr Hpos Hp Hv Hsum; assert (0 < 128 ^ pos) as Hpp by lia.
  - rewrite encode_length_last by (change (128 ^ Z.of_nat 1) with 128 in Hn; Z.div_mod_to_equations; lia).
    change (128 ^ Z.of_nat 1) with 128 in Hn. rewrite Z.mod_small by lia.
    destruct rounds as [|rounds]; [lia|]. cbn [app decode_length length].
    rewrite low7, bit7, (proj2 (Z.ltb_lt n 128)) by lia. cbn [negb andb]. rewrite Z.mod_small by lia.
    split; [|split; [lia|]]; [|apply bytes_ok_cons; split; [lia|constructor]].
    rewrite (u32_small (n * 128 ^ pos)), u32_small by nia. done.
  - destruct (Z.eq_dec (n / 128) 0) as [E|E].
    + rewrite encode_length_last by done. assert (n < 128) as Hn' by (Z.div_mod_to_equations; lia). rewrite Z.mod_small by lia.
      destruct rounds as [|rounds]; [lia|]. cbn [app decode_length length].
      rewrite low7, bit7, (proj2 (Z.ltb_lt n 128)) by lia. cbn [negb andb]. rewrite Z.mod_small by lia.
      split; [|split; [lia|]]; [|apply bytes_ok_cons; split; [lia|constructor]].
      rewrite (u32_small (n * 128 ^ pos)), u32_small by nia. done.
    + rewrite encode_length_more by (Z.div_mod_to_equations; lia). destruct rounds as [|rounds]; [lia|].
      assert (n = 128 * (n / 128) + n mod 128 ∧ 0 ≤ n mod 128 < 128) as [En Hm] by (Z.div_mod_to_equations; lia).
      cbn [app decode_length length]. rewrite low7, bit7, (proj2 (Z.ltb_ge _ 128)) by lia. cbn [negb andb].
      rewrite (proj2 (Z.ltb_lt (pos + 1) 4)) by lia. cbn [andb].
      replace ((n mod 128 + 128) mod 128) with (n mod 128) by (Z.div_mod_to_equations; lia).
      assert (128 ^ (pos + 1) = 128 ^ pos * 128) as Epow by (rewrite Z.pow_add_r by lia; lia).
      assert (128 ^ pos * 128 ≤ 128 ^ 4) as Hbig by (rewrite <-Epow; apply Z.pow_le_mono_r; lia).
      rewrite (u32_small (128 ^ pos * 128)) by lia. rewrite (u32_small (n mod 128 * 128 ^ pos)) by nia.
      rewrite (u32_small (value + _)) by nia. rewrite <-Epow.
      destruct (IH (n / 128) rounds (value + n mod 128 * 128 ^ pos) (pos + 1) rest) as (-> & Hl & Hok).
      * rewrite Nat2Z.inj_succ, Z.pow_succ_r in Hn by lia. Z.div_mod_to_equations; lia.
      * lia.
      * lia.
      * lia.
      * nia.
      * rewrite Epow. nia.
      * split; [|split; [lia|apply bytes_ok_cons; split; [lia|done]]]. f_equal. f_equal; [rewrite Epow; nia|lia].
Qed.

Lemma encode_length_fuel f : ∀ n, 0 ≤ n < 128 ^ Z.of_nat (S f) → encode_length (S f) n = encode_length f n.
Proof.
  induction f as [|f IH]; intros n Hn.
  - change (128 ^ Z.of_nat 1) with 128 in Hn. rewrite !encode_length_last by (Z.div_mod_to_equations; lia). done.
  - destruct (Z.eq_dec (n / 128) 0) as [E|E]; [rewrite (encode_length_last (S (S f))), (encode_length_last (S f)); done|].
    rewrite (encode_length_more (S f) n), (encode_length_more f n) by (Z.div_mod_to_equations; lia). f_equal. apply IH.
    rewrite Nat2Z.inj_succ, Z.pow_succ_r in Hn by lia. Z.div_mod_to_equations; lia.
Qed.

(** A length of up to 28 bits. *)
Lemma remaining_length_spec n rest : 0 ≤ n < 2 ^ 28 →
  mqtt_decode_remaining_length (mqtt_encode_remaining_length n ++ rest) =
    Some (n, Z.of_nat (length (mqtt_encode_remaining_length n))) ∧
  (1 ≤ length (mqtt_encode_remaining_length n) ≤ 4)%nat ∧ bytes_ok (mqtt_encode_remaining_length n).
Proof.
  intros Hn. unfold mqtt_encode_remaining_length, mqtt_decode_remaining_length. rewrite encode_length_fuel by (cbn; lia).
  destruct (decode_encode_length 3 n 4 0 0 rest) as (E & Hl & Hok); [cbn; lia|lia|lia|lia|lia|change (128 ^ 0) with 1; lia|].
  split; [|done]. change (128 ^ 0) with 1 in E. rewrite E. f_equal. f_equal; lia.
Qed.

(** A length that fits the buffer takes one or two bytes. *)
Lemma small_length n : 0 ≤ n < 16384 → (1 ≤ length (mqtt_encode_remaining_length n) ≤ 2)%nat.
Proof.
  intros Hn. unfold mqtt_encode_remaining_length. rewrite !encode_length_fuel by (cbn; lia).
  destruct (decode_encode_length 1 n 4 0 0 []) as (_ & Hl & _); [cbn; lia|lia|lia|lia|lia|change (128 ^ 0) with 1; lia|done].
Qed.

(** The remaining length of a packet: what [mqtt_encode_remaining_length] writes for a length below
    2 to the 28th takes one to four bytes and is read back by [mqtt_decode_remaining_length], whatever
    follows it, with the number of bytes it took. *)
Theorem remaining_length_roundtrip n rest : 0 ≤ n < 2 ^ 28 →
  mqtt_decode_remaining_length (mqtt_encode_remaining_length n ++ rest) =
    Some (n, Z.of_nat (length (mqtt_encode_remaining_length n))) ∧
  (1 ≤ length (mqtt_encode_remaining_length n) ≤ 4)%nat.
Proof. intros Hn. destruct (remaining_length_spec n rest Hn) as (? & ? & _). done. Qed.

Lemma remaining_length_roundtrip_witness :
  mqtt_decode_remaining_length (mqtt_encode_remaining_length 321 ++ [9]) = Some (321, 2).
Proof. apply (proj1 (remaining_length_roundtrip 321 [9] ltac:(lia))). Defined.

(** * The rest of the system, seen from the client *)

(** [held b e]: the client's mutex is held by the caller, or free; [inp e]: the bytes that the broker has
    sent and the client has not received; [out e]: the packets sent. *)
Class MqttLaws {E : Type} `{!MqttServices E} (held : bool → E → Prop) (inp : E → list Z) (out : E → list (list Z)) := {
  ml_init e : wp mv_mutex_init (λ _ e', held false e' ∧ inp e' = inp e ∧ out e' = out e) e;
  ml_lock e : held false e → wp mv_lock (λ _ e', held true e' ∧ inp e' = inp e ∧ out e' = out e) e;
  ml_unlock e : held true e → wp mv_unlock (λ _ e', held false e' ∧ inp e' = inp e ∧ out e' = out e) e;
  ml_send b s data n t e : held b e → 0 ≤ n ≤ Z.of_nat (length data) →
    wp (mv_send s data n t)
      (λ r e', r = n ∧ held b e' ∧ inp e' = inp e ∧ out e' = out e ++ [take (Z.to_nat n) data]) e;
  ml_recv b s max t e : held b e → 1 ≤ max →
    wp (mv_recv s max t) (λ r e', held b e' ∧ out e' = out e ∧
      match inp e with
      | [] => r = (0, []) ∧ inp e' = []
      | _ => ∃ k, (1 ≤ k)%nat ∧ Z.of_nat k ≤ max ∧ (k ≤ length (inp e))%nat ∧
               r = (Z.of_nat k, take k (inp e)) ∧ inp e' = drop k (inp e)
      end) e;
  ml_socket b e : held b e → wp mv_socket (λ _ e', held b e' ∧ inp e' = inp e ∧ out e' = out e) e;
  ml_resolve b h t e : held b e → wp (mv_resolve h t) (λ _ e', held b e' ∧ inp e' = inp e ∧ out e' = out e) e;
  ml_connect b s a t e : held b e → wp (mv_connect s a t) (λ _ e', held b e' ∧ inp e' = inp e ∧ out e' = out e) e;
  ml_close b s e : held b e → wp (mv_close s) (λ _ e', held b e') e;
  ml_start_task b e : held b e → wp mv_start_task (λ _ e', held b e' ∧ inp e' = inp e ∧ out e' = out e) e;
  ml_delay b n e : held b e → wp (mv_delay n) (λ _ e', held b e') e
}.

(** * Packets *)
Definition be16 (v : Z) : list Z := [v / 256; v mod 256].
(** A packet with the first byte [first]. *)
Definition packet (first : Z) (body : list Z) : list Z :=
  first :: mqtt_encode_remaining_length (Z.of_nat (length body)) ++ body.
Definition text (s : list Z) : list Z := be16 (Z.of_nat (length s)) ++ s.

Lemma hi_lo_spec v : 0 ≤ v < 2 ^ 16 → hi_lo v = be16 v.
Proof.
  intros Hv. unfold hi_lo, be16. change 0xFF with (2 ^ 8 - 1). rewrite !land_ones_mod, Z.shiftr_div_pow2 by lia.
  change (2 ^ 8) with 256. f_equal. apply Z.mod_small. Z.div_mod_to_equations; lia.
Qed.
Lemma encoded_string_spec s : Z.of_nat (length s) < 2 ^ 16 → encoded_string (Some s) = text s.
Proof.
  intros Hs. unfold encoded_string, text. change (default [] (Some s)) with s. rewrite u16_small by lia.
  change [Z.land (Z.shiftr (Z.of_nat (length s)) 8) 0xFF; Z.land (Z.of_nat (length s)) 0xFF] with (hi_lo (Z.of_nat (length s))).
  rewrite hi_lo_spec by lia. by rewrite Nat2Z.id, firstn_all.
Qed.
Lemma text_length s : length (text s) = (2 + length s)%nat.
Proof. unfold text. by rewrite length_app. Qed.

Section packets.
Context {E : Type} `{!MqttServices E} {held : bool → E → Prop} {inp : E → list Z} {out : E → list (list Z)}.
Context `{!MqttLaws held inp out}.
Abbreviation W := (mqtt_world E).
Implicit Types w : W.

Definition with_tx (b : list Z) w : W := w <| client ::= λ c, c <| tx_buffer := b |> |>.

(** ** Sending *)

(** The next [bytes] are stored behind what the buffer begins with. *)
Lemma tx_put_ok pre rest bytes pos w (Q : unit → W → Prop) :
  tx_buffer (client w) = pre ++ rest → pos = Z.of_nat (length pre) → (length bytes ≤ length rest)%nat →
  Q tt (with_tx ((pre ++ bytes) ++ drop (length bytes) rest) w) → wp (tx_put pos bytes) Q w.
Proof.
  intros Hb -> Hl HQ. unfold tx_put. rewrite wp_bind, wp_gets, Hb, wp_bind. unfold wp at 1. rewrite poke_next by done.
  unfold upd. rewrite wp_modify. by rewrite <-app_assoc in HQ.
Qed.
Lemma tx_string_ok pre rest s pos w (Q : Z → W → Prop) :
  tx_buffer (client w) = pre ++ rest → pos = Z.of_nat (length pre) → (length (text s) ≤ length rest)%nat →
  Z.of_nat (length (pre ++ text s)) < 2 ^ 16 →
  Q (Z.of_nat (length (pre ++ text s))) (with_tx ((pre ++ text s) ++ drop (length (text s)) rest) w) →
  wp (tx_string pos (Some s)) Q w.
Proof.
  intros Hb Hpos Hl Hlen HQ. rewrite length_app, text_length in Hlen. unfold tx_string. rewrite wp_bind.
  rewrite encoded_string_spec by lia. eapply tx_put_ok; [done|done|done|]. rewrite wp_ret. change (default [] (Some s)) with s.
  rewrite length_app, text_length in HQ. rewrite (u16_small (Z.of_nat (length s))), (u16_small (_ + 2)), u16_small by lia. by replace (pos + _) with (Z.of_nat (length pre + (2 + length s))) by lia.
Qed.

Definition can_send w : Prop := mq_state (client w) = MQTT_STATE_CONNECTED ∨ mq_state (client w) = MQTT_STATE_CONNECTING.

(** The first [n] bytes of [data] go out; of the client only the time of the last activity changes. *)
Lemma send_packet_ok b data n w (Q : mqtt_error_t → W → Prop) : can_send w → held b (outside w) →
  0 ≤ n ≤ Z.of_nat (length data) →
  (∀ e now, held b e → inp e = inp (outside w) → out e = out (outside w) ++ [take (Z.to_nat n) data] →
    Q MQTT_OK (w <| outside := e |> <| client ::= λ c, c <| last_activity_ms := now |> |>)) →
  wp (mqtt_send_packet data n) Q w.
Proof.
  intros Hc Hh Hn HQ. unfold mqtt_send_packet. rewrite wp_bind, wp_gets.
  assert (negb (bool_decide (mq_state (client w) = MQTT_STATE_CONNECTED)) &&
    negb (bool_decide (mq_state (client w) = MQTT_STATE_CONNECTING)) = false) as ->.
  { destruct Hc as [-> | ->]; [by rewrite (bool_decide_eq_true_2 (_ = MQTT_STATE_CONNECTED))|].
    by rewrite (bool_decide_eq_true_2 (_ = MQTT_STATE_CONNECTING)), andb_false_r. }
  rewrite wp_bind. unfold sys. rewrite wp_zoom. eapply wp_mono; [by eapply ml_send|].
  intros r e (-> & Hh' & Hi & Ho). rewrite Z.eqb_refl. cbn [negb]. rewrite wp_bind. unfold mqtt_get_time_ms.
  rewrite wp_gets, wp_bind. unfold upd. rewrite wp_modify, wp_ret. by apply HQ.
Qed.

(** A packet that was put together in [tx_buffer] goes out. *)
Lemma send_tx_ok b p rest w (Q : mqtt_error_t → W → Prop) : can_send w → held b (outside w) →
  tx_buffer (client w) = p ++ rest →
  (∀ e now, held b e → inp e = inp (outside w) → out e = out (outside w) ++ [p] →
    Q MQTT_OK (w <| outside := e |> <| client ::= λ c, c <| last_activity_ms := now |> |>)) →
  wp (send_tx (Z.of_nat (length p))) Q w.
Proof.
  intros Hc Hh Hb HQ. unfold send_tx. rewrite wp_bind, wp_gets, Hb. eapply send_packet_ok; [done|done|rewrite length_app; lia|].
  rewrite Nat2Z.id, take_app_length. exact HQ.
Qed.

Lemma next_id_ok w (Q : Z → W → Prop) : 0 ≤ next_message_id (client w) < 2 ^ 16 →
  (∀ id, 1 ≤ id < 2 ^ 16 → Q id (w <| client ::= λ c, c <| next_message_id := id |> |>)) → wp mqtt_next_message_id Q w.
Proof.
  intros Hid HQ. unfold mqtt_next_message_id, upd. rewrite wp_bind, wp_modify, wp_gets. cbn [client next_message_id set_field].
  apply HQ. destruct (Z.eqb_spec (u16 (next_message_id (client w) + 1)) 0) as [|Hne]; [lia|].
  pose proof (u16_range (next_message_id (client w) + 1)). lia.
Qed.

(** [p] was sent; of the client only the transmit buffer and the time of the last activity changed. *)
Definition sent (b : bool) (p : list Z) w w' : Prop :=
  held b (outside w') ∧ inp (outside w') = inp (outside w) ∧ out (outside w') = out (outside w) ++ [p] ∧
  ∃ buf now, length buf = length (tx_buffer (client w)) ∧
    client w' = client w <| tx_buffer := buf |> <| last_activity_ms := now |>.

(** The transmit buffer begins with [p]; nothing else has changed since [w0]. *)
Definition built (p : list Z) w0 w : Prop :=
  ∃ rest, w = with_tx (p ++ rest) w0 ∧ length (p ++ rest) = length (tx_buffer (client w0)).
Abbreviation size w := (length (tx_buffer (client w))).

Lemma built_nil w : built [] w w.
Proof. exists (tx_buffer (client w)). split; [by destruct w as [? []]|done]. Qed.
Lemma put_built p bytes pos w0 w (Q : unit → W → Prop) : built p w0 w → pos = Z.of_nat (length p) →
  (length (p ++ bytes) ≤ size w0)%nat → (∀ w', built (p ++ bytes) w0 w' → Q tt w') → wp (tx_put pos bytes) Q w.
Proof.
  intros (rest & -> & Hl) -> Hfit HQ. rewrite length_app in Hl, Hfit. eapply (tx_put_ok p rest); [done|done|lia|].
  apply HQ. exists (drop (length bytes) rest). split; [by destruct w0|]. rewrite !length_app, length_drop. lia.
Qed.
Lemma string_built p s pos w0 w (Q : Z → W → Prop) : built p w0 w → pos = Z.of_nat (length p) →
  (length (p ++ text s) ≤ size w0)%nat → Z.of_nat (size w0) < 2 ^ 16 →
  (∀ w', built (p ++ text s) w0 w' → Q (Z.of_nat (length (p ++ text s))) w') → wp (tx_string pos (Some s)) Q w.
Proof.
  intros (rest & -> & Hl) -> Hfit Hs HQ. rewrite length_app in Hl. pose proof Hfit as Hfit'. rewrite length_app in Hfit'.
  eapply (tx_string_ok p rest); [done|done|lia|lia|].
  apply HQ. exists (drop (length (text s)) rest). split; [by destruct w0|]. rewrite !length_app, length_drop. lia.
Qed.
Lemma send_built b p w0 w pos : can_send w0 → held b (outside w0) → built p w0 w → pos = Z.of_nat (length p) →
  wp (send_tx pos) (λ r w', r = MQTT_OK ∧ sent b p w0 w') w.
Proof.
  intros Hc Hh (rest & -> & Hl) ->. destruct w0 as [e0 c0]. eapply (send_tx_ok b p rest); [done|done|done|].
  intros e now Hh' Hi Ho. split; [done|]. split; [done|]. split; [done|]. split; [done|]. by exists (p ++ rest), now.
Qed.

Definition publish_flags (qos : mqtt_qos_t) (retained : bool) : Z := 2 * qos_code qos + (if retained then 1 else 0).
(** The PUBLISH packet of the protocol. *)
Definition publish_packet (topic payload : list Z) (qos : mqtt_qos_t) (retained : bool) (id : Z) : list Z :=
  packet (48 + publish_flags qos retained)
    (text topic ++ (match qos with MQTT_QOS_0 => [] | _ => be16 id end) ++ payload).

Lemma publish_first qos (retained : bool) :
  Z.lor (Z.shiftl MQTT_MSG_TYPE_PUBLISH 4) (Z.lor (if retained then 0x01 else 0) (Z.shiftl (Z.land (qos_code qos) 0x03) 1)) =
  48 + publish_flags qos retained.
Proof. by destruct qos, retained. Qed.

Lemma packet_length first body :
  length (packet first body) = (1 + length (mqtt_encode_remaining_length (Z.of_nat (length body))) + length body)%nat.
Proof. unfold packet. cbn [length]. rewrite length_app. lia. Qed.

(** Bytes and the advance of the position. *)
Lemma put_ret_built p bytes n w0 w : built p w0 w → n = Z.of_nat (length bytes) → Z.of_nat (size w0) < 2 ^ 16 →
  (length (p ++ bytes) ≤ size w0)%nat →
  wp (tx_put (Z.of_nat (length p)) bytes ;;; ret (u16 (Z.of_nat (length p) + n)))
    (λ pos w', pos = Z.of_nat (length (p ++ bytes)) ∧ built (p ++ bytes) w0 w') w.
Proof.
  intros Hb -> Hs Hfit. rewrite wp_bind. eapply put_built; [done|done|done|]. intros w' Hw'. rewrite wp_ret. split; [|done].
  rewrite length_app in Hfit |- *. rewrite u16_small; lia.
Qed.
Lemma id_built p qos id w0 w : built p w0 w → 0 ≤ id < 2 ^ 16 → Z.of_nat (size w0) < 2 ^ 16 →
  (length (p ++ match qos with MQTT_QOS_0 => [] | _ => be16 id end) ≤ size w0)%nat →
  wp (if 0 <? qos_code qos then tx_put (Z.of_nat (length p)) (hi_lo id) ;;; ret (u16 (Z.of_nat (length p) + 2))
      else ret (Z.of_nat (length p)))
    (λ pos w', pos = Z.of_nat (length (p ++ match qos with MQTT_QOS_0 => [] | _ => be16 id end)) ∧
      built (p ++ match qos with MQTT_QOS_0 => [] | _ => be16 id end) w0 w') w.
Proof.
  intros Hb Hid Hs Hfit. destruct qos; cbn [qos_code Z.ltb Z.compare].
  - rewrite wp_ret, app_nil_r. done.
  - rewrite hi_lo_spec by done. by apply put_ret_built.
  - rewrite hi_lo_spec by done. by apply put_ret_built.
Qed.
Lemma payload_built p payload w0 w : built p w0 w → Z.of_nat (size w0) < 2 ^ 16 → (length (p ++ payload) ≤ size w0)%nat →
  wp (if 0 <? Z.of_nat (length payload) then
        let! m := assigned (Some payload) in
        let! bytes := peek m 0 (Z.of_nat (length payload)) in
        tx_put (Z.of_nat (length p)) bytes ;;;
        ret (u16 (Z.of_nat (length p) + Z.of_nat (length payload)))
      else ret (Z.of_nat (length p)))
    (λ pos w', pos = Z.of_nat (length (p ++ payload)) ∧ built (p ++ payload) w0 w') w.
Proof.
  intros Hb Hs Hfit. destruct (Z.ltb_spec 0 (Z.of_nat (length payload))).
  - cbn [assigned]. rewrite wp_bind, wp_ret, wp_bind. eapply peek_ok; [lia|lia|].
    rewrite drop_0, Nat2Z.id, firstn_all. by apply put_ret_built.
  - assert (payload = []) as -> by (by destruct payload; cbn in *; [|lia]). rewrite wp_ret, app_nil_r. done.
Qed.

(** [mqtt_send_publish] sends the PUBLISH packet. *)
Lemma send_publish_ok b topic payload qos retained id w : can_send w → held b (outside w) → Z.of_nat (size w) < 2 ^ 16 →
  0 ≤ id < 2 ^ 16 → (length (publish_packet topic payload qos retained id) ≤ size w)%nat →
  wp (mqtt_send_publish topic (Some payload) (Z.of_nat (length payload)) qos retained id)
    (λ r w', r = MQTT_OK ∧ sent b (publish_packet topic payload qos retained id) w w') w.
Proof.
  intros Hc Hh Hs Hid Hfit. unfold mqtt_send_publish. rewrite publish_first.
  set (first := 48 + publish_flags qos retained). set (mid := match qos with MQTT_QOS_0 => [] | _ => be16 id end).
  set (body := text topic ++ mid ++ payload). assert (length body = 2 + length topic + length mid + length payload)%nat as Hbl.
  { unfold body. rewrite !length_app, text_length. lia. }
  unfold publish_packet in Hfit |- *. fold first mid body in Hfit |- *. pose proof Hfit as Hl. rewrite packet_length in Hl.
  assert (length mid = if (0 <? qos_code qos)%Z then 2%nat else 0%nat) as Hmid by (unfold mid; by destruct qos).
  replace (2 + u16 (Z.of_nat (length topic)) + Z.of_nat (length payload) + (if 0 <? qos_code qos then 2 else 0))
    with (Z.of_nat (length body)) by (rewrite u16_small by lia; destruct (0 <? qos_code qos); lia).
  set (field := mqtt_encode_remaining_length (Z.of_nat (length body))) in *.
  rewrite wp_bind. eapply (put_built [] [first]); [apply built_nil|done|cbn [app length]; lia|]. intros w1 H1.
  cbv zeta. rewrite wp_bind. eapply put_built; [exact H1|done|rewrite length_app; cbn [app length]; lia|]. intros w2 H2.
  rewrite wp_bind. eapply string_built; [exact H2|cbn [app length]; lia|rewrite !length_app, text_length; cbn [app length]; lia|done|].
  intros w3 H3. rewrite wp_bind.
  eapply wp_mono; [apply (id_built ((([] ++ [first]) ++ field) ++ text topic) qos id w w3 H3 Hid Hs); fold mid;
    rewrite !length_app, text_length; cbn [app length]; lia|].
  intros pos w4 [-> H4]. fold mid in H4 |- *. rewrite wp_bind. eapply wp_mono.
  { apply (payload_built _ payload w w4 H4 Hs). rewrite !length_app, text_length. cbn [app length]. lia. }
  intros pos w5 [-> H5]. unfold packet. fold field. cbn [app] in *. rewrite <-!app_assoc in H5. rewrite <-!app_assoc.
  by eapply send_built.
Qed.

Definition with_id (id : Z) w : W := w <| client ::= λ c, c <| next_message_id := id |> |>.
Lemma next_id_built p w0 w : built p w0 w → 0 ≤ next_message_id (client w0) < 2 ^ 16 →
  wp mqtt_next_message_id (λ id w', 1 ≤ id < 2 ^ 16 ∧ built p (with_id id w0) w') w.
Proof.
  intros (rest & -> & Hl) Hid. apply next_id_ok; [by destruct w0|]. intros id Hr. split; [done|].
  exists rest. by destruct w0.
Qed.

(** SUBSCRIBE and UNSUBSCRIBE up to the topic filter; [extra] bytes are to follow. *)
Definition request (type : Z) (topic : list Z) (id : Z) (extra : list Z) : list Z :=
  packet (16 * type + 2) (be16 id ++ text topic ++ extra).
Lemma request_length topic id extra :
  length (be16 id ++ text topic ++ extra) = (4 + length topic + length extra)%nat.
Proof. rewrite !length_app, text_length. cbn. lia. Qed.
Lemma request_built type topic extra w : Z.of_nat (size w) < 2 ^ 16 → 0 ≤ next_message_id (client w) < 2 ^ 16 →
  Z.lor (Z.shiftl type 4) 0x02 = 16 * type + 2 → (length (request type topic 0 extra) ≤ size w)%nat →
  wp (tx_request type topic (Z.of_nat (length extra)))
    (λ pos w', ∃ id p, 1 ≤ id < 2 ^ 16 ∧ p ++ extra = request type topic id extra ∧ pos = Z.of_nat (length p) ∧
      built p (with_id id w) w') w.
Proof.
  intros Hs Hid Hty Hfit. unfold tx_request. rewrite Hty. unfold request, packet in Hfit. cbn [length] in Hfit.
  rewrite length_app, request_length in Hfit.
  set (first := 16 * type + 2) in *. replace (2 + 2 + u16 (Z.of_nat (length topic)) + Z.of_nat (length extra))
    with (Z.of_nat (4 + length topic + length extra)) by (rewrite u16_small by lia; lia).
  set (field := mqtt_encode_remaining_length (Z.of_nat (4 + length topic + length extra))) in *.
  rewrite wp_bind. eapply (put_built [] [first]); [apply built_nil|done|cbn [app length]; lia|]. intros w1 H1.
  cbv zeta. rewrite wp_bind. eapply put_built; [exact H1|done|rewrite length_app; cbn [app length]; lia|]. intros w2 H2.
  rewrite wp_bind. eapply wp_mono; [by eapply next_id_built|]. intros id w3 [Hr H3].
  rewrite wp_bind. rewrite hi_lo_spec by lia. assert (size (with_id id w) = size w) as Hsz by (by destruct w as [? []]).
  assert (length (be16 id) = 2%nat) as Hb16 by done.
  eapply put_built; [exact H3|cbn [app length]; lia|rewrite Hsz, !length_app, Hb16; cbn [app length]; lia|]. intros w4 H4.
  eapply string_built; [exact H4|rewrite !length_app, Hb16; cbn [app length]; lia| |by rewrite Hsz|].
  { rewrite Hsz, !length_app, text_length, Hb16. cbn [app length]. lia. }
  intros w5 H5. exists id, (((([] ++ [first]) ++ field) ++ be16 id) ++ text topic). split; [done|]. split; [|done].
  unfold request, packet. rewrite request_length. fold field first. cbn [app]. by rewrite <-!app_assoc.
Qed.

(** *** CONNECT *)
Lemma built_prefix p q w0 w : built (p ++ q) w0 w → built p w0 w.
Proof. intros (rest & -> & Hl). exists (q ++ rest). by rewrite app_assoc. Qed.
(** The bytes that happen to follow. *)
Lemma built_more n p w0 w : built p w0 w → (length p + n ≤ size w0)%nat → ∃ g, length g = n ∧ built (p ++ g) w0 w.
Proof.
  intros (rest & -> & Hl) Hn. rewrite length_app in Hl. exists (take n rest). split; [rewrite length_take; lia|].
  exists (drop n rest). rewrite <-app_assoc, take_drop. split; [done|]. rewrite length_app. lia.
Qed.
(** Bytes in the middle are replaced. *)
Lemma overwrite_built p g bytes q pos w0 w (Q : unit → W → Prop) : built (p ++ g ++ q) w0 w → pos = Z.of_nat (length p) →
  length g = length bytes → (∀ w', built (p ++ bytes ++ q) w0 w' → Q tt w') → wp (tx_put pos bytes) Q w.
Proof.
  intros (rest & -> & Hl) -> Hg HQ. eapply (tx_put_ok p (g ++ q ++ rest)); [by rewrite <-!app_assoc|done|rewrite length_app; lia|].
  apply HQ. exists rest. rewrite <-Hg, drop_app_length, <-!app_assoc. split; [by destruct w0|]. rewrite !length_app in *. lia.
Qed.

Definition will_part (c : mqtt_config_t) : list Z :=
  match will_topic c with
  | Some t => text t ++ be16 (will_message_len c) ++ take (Z.to_nat (will_message_len c)) (default [] (will_message c))
  | None => []
  end.
Definition optional_part (s : option (list Z)) : list Z := match s with Some s => text s | None => [] end.
(** The CONNECT packet of the protocol. *)
Definition connect_body (c : mqtt_config_t) : list Z :=
  text MQTT_NAME ++ [4] ++ [connect_flags c] ++ be16 (keepalive_sec c) ++ text (default [] (client_id c)) ++ will_part c ++
  optional_part (username c) ++ optional_part (password c).
(** A configuration that can be sent: the fields are in their range, the will message is as long as the
    configuration says, and the packet fits the buffer with four bytes for its length. *)
Definition config_ok (n : nat) (c : mqtt_config_t) : Prop :=
  0 ≤ keepalive_sec c < 2 ^ 16 ∧ 0 ≤ will_message_len c < 2 ^ 16 ∧
  will_message_len c ≤ Z.of_nat (length (default [] (will_message c))) ∧ (5 + length (connect_body c) ≤ n)%nat.

Lemma optional_built s p w0 w : built p w0 w → Z.of_nat (size w0) < 2 ^ 16 → (length (p ++ optional_part s) ≤ size w0)%nat →
  wp (tx_optional s (Z.of_nat (length p)))
    (λ pos w', pos = Z.of_nat (length (p ++ optional_part s)) ∧ built (p ++ optional_part s) w0 w') w.
Proof.
  intros Hb Hs Hfit. destruct s as [s|]; cbn [tx_optional optional_part] in *.
  - by eapply string_built.
  - by rewrite wp_ret, app_nil_r.
Qed.
Lemma will_built c p w0 w : built p w0 w → Z.of_nat (size w0) < 2 ^ 16 → (length (p ++ will_part c) ≤ size w0)%nat →
  0 ≤ will_message_len c < 2 ^ 16 → will_message_len c ≤ Z.of_nat (length (default [] (will_message c))) →
  wp (tx_will c (Z.of_nat (length p)))
    (λ pos w', pos = Z.of_nat (length (p ++ will_part c)) ∧ built (p ++ will_part c) w0 w') w.
Proof.
  intros Hb Hs Hfit Hl Hm. unfold tx_will, will_part in *. destruct (will_topic c) as [t|]; [|by rewrite wp_ret, app_nil_r].
  set (m := take (Z.to_nat (will_message_len c)) (default [] (will_message c))) in *.
  assert (length m = Z.to_nat (will_message_len c)) as Hml by (unfold m; rewrite length_take; lia).
  rewrite !app_assoc in Hfit |- *. pose proof Hfit as Hf. rewrite !length_app, text_length in Hf. cbn [be16 length] in Hf.
  assert (length (be16 (will_message_len c)) = 2%nat) as Hb16 by done.
  rewrite wp_bind. eapply string_built; [done|done|rewrite length_app, text_length; lia|done|]. intros w1 H1.
  rewrite wp_bind, hi_lo_spec by done. eapply put_built; [exact H1|done|rewrite !length_app, text_length, Hb16; lia|].
  intros w2 H2. cbv zeta.
  replace (u16 (Z.of_nat (length (p ++ text t)) + 2)) with (Z.of_nat (length ((p ++ text t) ++ be16 (will_message_len c))))
    by (rewrite u16_small; rewrite !length_app, text_length, ?Hb16; lia).
  destruct (Z.ltb_spec 0 (will_message_len c)).
  - destruct (will_message c) as [msg|] eqn:Emsg; cbn [default] in *; [|cbn in Hm; lia].
    cbn [assigned]. rewrite wp_bind, wp_ret, wp_bind. eapply peek_ok; [lia|unfold id in Hm; lia|].
    rewrite drop_0. change (take (Z.to_nat (will_message_len c)) msg) with m.
    apply put_ret_built; [exact H2|lia|done|]. done.
  - assert (m = []) as -> by (destruct m; [done|cbn in Hml; lia]). rewrite wp_ret, app_nil_r. done.
Qed.

(** The bytes of the transmit buffer from [pre] on. *)
Lemma built_peek pre body pos n w0 w (Q : list Z → W → Prop) : built (pre ++ body) w0 w →
  pos = Z.of_nat (length pre) → n = Z.of_nat (length body) → Q body w →
  wp (peek (tx_buffer (client w)) pos n) Q w.
Proof.
  intros (rest & -> & Hl) -> -> HQ. cbn [with_tx client tx_buffer set_field]. eapply peek_ok; [lia|rewrite !length_app; lia|].
  rewrite !Nat2Z.id, <-app_assoc, drop_app_length, take_app_length. by rewrite <-app_assoc in HQ.
Qed.

(** The last part of [mqtt_send_connect]: the length is put in its place and the body moved up to it. *)
Lemma connect_tail b g body w0 w : built ([16] ++ g ++ body) w0 w → length g = 4%nat → can_send w0 → held b (outside w0) →
  Z.of_nat (size w0) < 16384 → (5 + length body ≤ size w0)%nat →
  wp (tx_put 1 (mqtt_encode_remaining_length (Z.of_nat (length body))) ;;;
      if Z.of_nat (length (mqtt_encode_remaining_length (Z.of_nat (length body)))) =? 4 then send_tx (5 + Z.of_nat (length body))
      else
        let! buf := gets (λ w, tx_buffer (client w)) in
        let! bytes := peek buf 5 (Z.of_nat (length body)) in
        tx_put (1 + Z.of_nat (length (mqtt_encode_remaining_length (Z.of_nat (length body))))) bytes ;;;
        send_tx (u16 (1 + Z.of_nat (length (mqtt_encode_remaining_length (Z.of_nat (length body)))) + Z.of_nat (length body))))
    (λ r w', r = MQTT_OK ∧ sent b (packet 16 body) w0 w') w.
Proof.
  intros Hw Hg Hc Hh Hs Hfit. destruct (small_length (Z.of_nat (length body))) as [Hl1 Hl2]; [lia|].
  unfold packet. set (field := mqtt_encode_remaining_length (Z.of_nat (length body))) in *.
  rewrite <-(take_drop (length field) g), <-app_assoc in Hw.
  rewrite wp_bind. eapply overwrite_built; [exact Hw|done|rewrite length_take; lia|]. intros w1 H1.
  rewrite (proj2 (Z.eqb_neq _ 4)) by lia. rewrite wp_bind, wp_gets, wp_bind.
  eapply (built_peek ([16] ++ field ++ drop (length field) g) body); [by rewrite <-!app_assoc|rewrite !length_app, length_drop, Hg; change (length [16]) with 1%nat; lia|done|].
  rewrite wp_bind. apply (put_built ([16] ++ field) body _ w0); [|rewrite length_app; cbn [length]; lia|rewrite !length_app; cbn [length]; lia|].
  { eapply built_prefix. by rewrite <-app_assoc. }
  intros w2 H2. eapply send_built; [done|done|by rewrite <-app_assoc in H2|].
  rewrite u16_small by lia. cbn [length]. rewrite length_app. lia.
Qed.

Lemma tx_string_default pos s : tx_string (E := E) pos s = tx_string pos (Some (default [] s)).
Proof. done. Qed.
(** [mqtt_send_connect] sends the CONNECT packet. *)
Lemma send_connect_ok b w : can_send w → held b (outside w) → Z.of_nat (size w) < 16384 → config_ok (size w) (config (client w)) →
  wp mqtt_send_connect (λ r w', r = MQTT_OK ∧ sent b (packet 16 (connect_body (config (client w)))) w w') w.
Proof.
  intros Hc Hh Hs (Hk & Hw1 & Hw2 & Hfit). unfold mqtt_send_connect. rewrite wp_bind, wp_gets. set (c := config (client w)) in *.
  assert (Z.of_nat (size w) < 2 ^ 16) as Hs16 by lia. unfold connect_body in Hfit. rewrite !length_app in Hfit. cbn [length be16] in Hfit.
  rewrite wp_bind. eapply (put_built [] [16]); [apply built_nil|done|cbn [app length]; lia|]. cbn [app]. intros w1 H1.
  destruct (built_more 4 _ _ _ H1) as (g & Hg & H1'); [cbn [length]; lia|]. cbv zeta.
  rewrite wp_bind. eapply (string_built _ MQTT_NAME); [exact H1'|rewrite length_app, Hg; cbn; lia|rewrite !length_app, Hg; cbn [length]; lia|done|].
  intros w2 H2. rewrite wp_bind. eapply (put_built _ [MQTT_PROTOCOL_VERSION_3_1_1]); [exact H2|done|rewrite !length_app; cbn [length]; lia|].
  intros w3 H3. rewrite wp_bind. eapply (put_built _ [connect_flags c]); [exact H3|rewrite !length_app; cbn [length]; lia|rewrite !length_app; cbn [length]; lia|].
  intros w4 H4. rewrite wp_bind, hi_lo_spec by done. eapply (put_built _ (be16 (keepalive_sec c))); [exact H4|rewrite !length_app; cbn [length]; lia|rewrite !length_app; cbn [length be16]; lia|].
  intros w5 H5. rewrite wp_bind, (tx_string_default _ (client_id c)).
  eapply (string_built _ (default [] (client_id c))); [exact H5|rewrite !length_app; cbn [length be16]; lia|rewrite !length_app; cbn [length be16]; lia|done|].
  intros w6 H6. rewrite wp_bind. eapply wp_mono; [apply (will_built c _ _ _ H6); [done|rewrite !length_app; cbn [length be16]; lia|done|done]|].
  intros pos w7 [-> H7]. rewrite wp_bind. eapply wp_mono; [apply (optional_built (username c) _ _ _ H7); [done|rewrite !length_app; cbn [length be16]; lia]|].
  intros pos w8 [-> H8]. rewrite wp_bind. eapply wp_mono; [apply (optional_built (password c) _ _ _ H8); [done|rewrite !length_app; cbn [length be16]; lia]|].
  intros pos w9 [-> H9]. rewrite <-!app_assoc in H9 |- *. change (built ([16] ++ g ++ connect_body c) w w9) in H9.
  match goal with |- context [Z.of_nat ?n] => replace (Z.of_nat n) with (5 + Z.of_nat (length (connect_body c))) end.
  2: { unfold connect_body. rewrite !length_app, Hg. cbn [length]. lia. }
  replace (u32 (5 + Z.of_nat (length (connect_body c)) - (1 + 4))) with (Z.of_nat (length (connect_body c)))
    by (rewrite u32_small; unfold connect_body; rewrite ?length_app; cbn [length be16]; lia).
  apply (connect_tail b g); [done|done|done|done|done|]. unfold connect_body. rewrite !length_app. cbn [length be16]. lia.
Qed.
End packets.
