(* ===== verification/MqttReceive.v ===== *)
(** MqttReceive: how the MQTT client receives packets, for every way in which the connection cuts the
    stream of bytes into pieces, and for every stream that a broker may send. *)
From Stdlib Require Import ZArith Lia.
From stdpp Require Import base numbers list gmap.
From S2P Require Import Prelude Types Bytes Net NetTheorems Mqtt MqttTheorems.

(** The bytes of a remaining length that the client reads: up to the first byte without bit 7, and at
    most [n] of them. *)
Fixpoint field_ok (n : nat) (l : list Z) : Prop :=
  match n, l with
  | O, [] => True
  | S n, byte :: l => if negb (Z.land byte 0x80 =? 0) && (0 <? n)%nat then field_ok n l else l = []
  | _, _ => False
  end.

Lemma field_ok_prefix n : ∀ l l' r r', field_ok n l → field_ok n l' → l ++ r = l' ++ r' → l = l' ∧ r = r'.
Proof.
  induction n as [|n IH]; intros [|x l] [|x' l'] r r' Hl Hl' E; cbn [field_ok app] in *; try done.
  injection E as -> E. destruct (negb (Z.land x' 0x80 =? 0) && (0 <? n)%nat); [|by subst].
  destruct (IH l l' r r' Hl Hl' E) as [-> ->]. done.
Qed.
Lemma field_ok_decode n : ∀ l m v pos, field_ok (S n) l → (Z.of_nat n + pos = 3) → 0 ≤ pos →
  ∃ v' pos', decode_length l (S n) m v pos = Some (v', pos') ∧ 0 ≤ v' < 2 ^ 32.
Proof.
  induction n as [|n IH]; intros [|x l] m v pos Hl Hn Hp; cbn [field_ok] in Hl; try done; cbn [decode_length].
  - rewrite (proj2 (Z.ltb_ge (pos + 1) 4)), andb_false_r by lia. eexists _, _. split; [done|apply u32_range].
  - rewrite (proj2 (Z.ltb_lt (pos + 1) 4)), andb_true_r by lia. cbn [Nat.ltb Nat.leb] in Hl. rewrite andb_true_r in Hl.
    destruct (negb (Z.land x 0x80 =? 0)).
    + apply IH; [done|lia|lia].
    + eexists _, _. split; [done|apply u32_range].
Qed.
Lemma field_ok_encode f : ∀ n rounds, 0 ≤ n < 128 ^ Z.of_nat (S f) → (f < rounds)%nat → field_ok rounds (encode_length f n).
Proof.
  induction f as [|f IH]; intros n [|rounds] Hn Hr; try lia.
  - change (128 ^ Z.of_nat 1) with 128 in Hn. rewrite encode_length_last by (Z.div_mod_to_equations; lia).
    rewrite Z.mod_small by lia. cbn [field_ok]. by rewrite bit7, (proj2 (Z.ltb_lt n 128)) by lia.
  - destruct (Z.eq_dec (n / 128) 0) as [E|E].
    + rewrite encode_length_last by done. cbn [field_ok]. assert (0 ≤ n mod 128 < 128) by (apply Z.mod_pos_bound; lia).
      by rewrite bit7, (proj2 (Z.ltb_lt _ 128)) by lia.
    + assert (0 ≤ n mod 128 < 128) by (apply Z.mod_pos_bound; lia).
      rewrite encode_length_more by (Z.div_mod_to_equations; lia). cbn [field_ok].
      rewrite bit7, (proj2 (Z.ltb_ge _ 128)), (proj2 (Nat.ltb_lt 0 rounds)) by lia. cbn [negb andb]. apply IH; [|lia].
      rewrite Nat2Z.inj_succ, Z.pow_succ_r in Hn by lia. Z.div_mod_to_equations; lia.
Qed.
Lemma field_ok_remaining n : 0 ≤ n < 2 ^ 28 → field_ok 4 (mqtt_encode_remaining_length n).
Proof. intros Hn. unfold mqtt_encode_remaining_length. rewrite encode_length_fuel by (cbn; lia). apply field_ok_encode; [cbn; lia|lia]. Qed.

Section receive.
Context {E : Type} `{!MqttServices E} {held : bool → E → Prop} {inp : E → list Z} {out : E → list (list Z)}.
Context `{!MqttLaws held inp out}.
Abbreviation W := (mqtt_world E).
Implicit Types w : W.

Lemma wp_sys {A} (m : M E A) (Q : A → W → Prop) w : wp (sys m) Q w = wp m (λ a e, Q a (w <| outside := e |>)) (outside w).
Proof. apply wp_zoom. Qed.

(** Only input has been consumed; [rest] is left. *)
Definition took (b : bool) (rest : list Z) w w' : Prop :=
  ∃ e, w' = w <| outside := e |> ∧ held b e ∧ inp e = rest ∧ out e = out (outside w).
Lemma took_trans b r1 r2 w1 w2 w3 : took b r1 w1 w2 → took b r2 w2 w3 → took b r2 w1 w3.
Proof. intros (e & -> & _ & _ & Ho) (e' & -> & Hh & Hi & Ho'). exists e'. destruct w1. cbn in *. naive_solver congruence. Qed.

Lemma recv1_ok b t w : held b (outside w) →
  wp (recv1 t) (λ r w', match inp (outside w) with
    | [] => r = (0, []) ∧ took b [] w w'
    | x :: rest => r = (1, [x]) ∧ took b rest w w'
    end) w.
Proof.
  intros Hh. unfold recv1. rewrite wp_bind, wp_gets, wp_sys. eapply wp_mono; [by apply (ml_recv b)|].
  intros r e (Hh' & Ho & Hr). destruct (inp (outside w)) as [|x rest].
  - destruct Hr as [-> Hi]. split; [done|]. by exists e.
  - destruct Hr as (k & Hk1 & Hk2 & _ & -> & Hi). assert (k = 1%nat) as -> by lia. split; [done|]. by exists e.
Qed.

Lemma read_length_ok b t n : ∀ w, held b (outside w) →
  wp (read_length n t) (λ r w', match r with
    | Some l => ∃ rest, inp (outside w) = l ++ rest ∧ field_ok n l ∧ took b rest w w'
    | None => (∀ l rest, field_ok n l → inp (outside w) ≠ l ++ rest) ∧ took b [] w w'
    end) w.
Proof.
  induction n as [|n IH]; intros w Hh; cbn [read_length].
  - rewrite wp_ret. exists (inp (outside w)). split; [done|]. split; [done|]. exists (outside w). by destruct w.
  - rewrite wp_bind. eapply wp_mono; [by apply (recv1_ok b)|]. intros r w1 Hr.
    destruct (inp (outside w)) as [|x rest] eqn:Ei; destruct Hr as [-> Ht]; cbn [fst snd Z.leb Z.compare].
    { rewrite wp_ret. split; [|done]. intros [|? ?] ? Hl; [by destruct Hl|]. done. }
    cbn [head assigned]. rewrite wp_bind, wp_ret. pose proof Ht as (e & -> & Hh1 & Hi1 & Ho1).
    destruct (negb (Z.land x 0x80 =? 0) && (0 <? n)%nat) eqn:Eb.
    + rewrite wp_bind. eapply wp_mono; [by apply IH|]. intros [l|] w2 H2; rewrite wp_ret; cbn [fmap option_fmap option_map].
      * destruct H2 as (r2 & Hi2 & Hf & Ht2). exists r2. cbn in Hi2. rewrite <-app_comm_cons, <-Hi2, Hi1.
        split; [done|]. split; [cbn [field_ok]; by rewrite Eb|by eapply took_trans].
      * destruct H2 as (Hno & Ht2). split; [|by eapply took_trans]. intros [|y l] r2 Hl; [done|]. cbn [field_ok app] in *.
        intros [= -> Hr]. rewrite Eb in Hl. apply (Hno l r2 Hl). by cbn; rewrite Hi1.
    + rewrite wp_ret. exists rest. split; [done|]. split; [cbn [field_ok]; by rewrite Eb|done].
Qed.

Definition with_rx (rx : list Z) w : W := w <| client ::= λ c, c <| rx_buffer := rx |> |>.

(** The loop over the body: it succeeds if the input has the bytes, and stores what there is of them. *)
Lemma read_body_ok b t len fuel : ∀ total w, held b (outside w) → 0 ≤ total ≤ len → len < 2 ^ 16 →
  len ≤ Z.of_nat (length (rx_buffer (client w))) → (Z.to_nat (len - total) ≤ fuel)%nat →
  wp (read_body fuel total len t)
    (λ ok w', ok = (Z.to_nat (len - total) <=? length (inp (outside w)))%nat ∧
      took b (drop (Z.to_nat (len - total)) (inp (outside w)))
        (with_rx (put (Z.to_nat total) (take (Z.to_nat (len - total)) (inp (outside w))) (rx_buffer (client w))) w) w') w.
Proof.
  induction fuel as [|fuel IH]; intros total w Hh Ht Hlen Hrx Hf; cbn [read_body].
  { rewrite (proj2 (Z.ltb_ge total len)) by lia. rewrite wp_ret. replace (Z.to_nat (len - total)) with 0%nat by lia.
    split; [done|]. rewrite drop_0, take_0, put_nil. exists (outside w). by destruct w as [? []]. }
  destruct (Z.ltb_spec total len) as [Hlt|Hge].
  2: { rewrite wp_ret. replace (Z.to_nat (len - total)) with 0%nat by lia.
    split; [done|]. rewrite drop_0, take_0, put_nil. exists (outside w). by destruct w as [? []]. }
  rewrite wp_bind, wp_gets, wp_bind, wp_sys, u16_small by lia. eapply wp_mono; [apply (ml_recv b); [done|lia]|].
  intros r e (Hh' & Ho & Hr). destruct (inp (outside w)) as [|x rest] eqn:Ei.
  - destruct Hr as [-> Hi]. cbn [fst snd]. rewrite wp_bind. eapply poke_ok; [lia|cbn [length]; lia|].
    rewrite wp_bind. unfold upd. rewrite wp_modify. cbn [Z.leb Z.compare]. rewrite wp_ret. rewrite drop_nil, take_nil.
    split; [symmetry; apply Nat.leb_gt; cbn; lia|]. exists e. by destruct w.
  - rewrite <-Ei in *. destruct Hr as (k & Hk1 & Hk2 & Hk3 & -> & Hi). cbn [fst snd]. rewrite wp_bind.
    assert (length (take k (inp (outside w))) = k) as Hlk by (rewrite length_take; lia).
    eapply poke_ok; [lia|rewrite Hlk; lia|]. rewrite wp_bind. unfold upd. rewrite wp_modify.
    rewrite (proj2 (Z.leb_gt (Z.of_nat k) 0)), u32_small by lia.
    eapply wp_mono.
    { apply IH; [done|lia|lia| |lia]. destruct w as [ew cw]. cbn. rewrite put_length; [exact Hrx|cbn in *; lia]. }
    intros ok w' [-> Hw']. destruct w as [ew cw]. cbn in *. rewrite Hi in *. rewrite length_drop. split.
    { destruct (Nat.leb_spec (Z.to_nat (len - total)) (length (inp ew))); [apply Nat.leb_le|apply Nat.leb_gt]; lia. }
    destruct Hw' as (e' & -> & Hh2 & Hi2 & Ho2). exists e'. split; [|].
    + replace (Z.to_nat (total + Z.of_nat k)) with (Z.to_nat total + length (take k (inp ew)))%nat by lia.
      rewrite put_app by (rewrite ?length_take, ?length_drop; lia). rewrite take_take_drop.
      by replace (k + Z.to_nat (len - (total + Z.of_nat k)))%nat with (Z.to_nat (len - total)) by lia.
    + split; [done|]. split; [|cbn in *; congruence]. rewrite Hi2, drop_drop. f_equal. lia.
Qed.

(** What a call of [mqtt_receive_packet] may change; [rest] is the input left. *)
Definition session (b : bool) (rest : list Z) (rx : list Z) (pos : Z) w w' : Prop :=
  ∃ e now, held b e ∧ out e = out (outside w) ∧ inp e = rest ∧ length rx = length (rx_buffer (client w)) ∧
    (pos = rx_buffer_pos (client w) ∨ 0 < pos ≤ MQTT_MAX_PACKET_SIZE) ∧
    w' = MqttWorld e (client w <| rx_buffer := rx |> <| rx_buffer_pos := pos |> <| last_activity_ms := now |>).
Definition packet_type (first : Z) : Z := Z.land (Z.shiftr first 4) 0x0F.
(** The result for a stream that begins with a whole packet. *)
Definition whole (s rest rx : list Z) (pos : Z) (r : mqtt_error_t * option Z) (c : mqtt_client_t) : Prop :=
  ∀ first body tail, s = packet first body ++ tail → Z.of_nat (length body) ≤ MQTT_MAX_PACKET_SIZE →
    r = (MQTT_OK, Some (packet_type first)) ∧ rest = tail ∧
    (body ≠ [] → pos = Z.of_nat (length body) ∧ take (length body) rx = body) ∧
    (body = [] → rx = rx_buffer c ∧ pos = rx_buffer_pos c).

Lemma took_session b rest w w' : took b rest w w' → session b rest (rx_buffer (client w)) (rx_buffer_pos (client w)) w w'.
Proof.
  intros (e & -> & Hh & Hi & Ho). exists e, (last_activity_ms (client w)). destruct w as [? []]. cbn.
  repeat (split; [by auto|]). done.
Qed.
(** The parts of a packet are found by reading its length. *)
Lemma packet_parts l v n x rest first body tail : field_ok 4 l → mqtt_decode_remaining_length l = Some (v, n) →
  x :: l ++ rest = packet first body ++ tail → Z.of_nat (length body) ≤ MQTT_MAX_PACKET_SIZE →
  x = first ∧ rest = body ++ tail ∧ v = Z.of_nat (length body).
Proof.
  unfold MQTT_MAX_PACKET_SIZE. intros Hl Hd Heq Hb. unfold packet in Heq. rewrite <-app_comm_cons, <-app_assoc in Heq.
  injection Heq as -> Heq.
  destruct (field_ok_prefix 4 _ _ _ _ Hl (field_ok_remaining (Z.of_nat (length body)) ltac:(lia)) Heq) as [-> ->].
  split; [done|]. split; [done|]. destruct (remaining_length_spec (Z.of_nat (length body)) []) as (Hd' & _); [lia|].
  rewrite app_nil_r in Hd'. congruence.
Qed.

(** The remaining packet of [v] bytes, for any input. *)
Lemma read_rest_ok b v t w : held b (outside w) → MQTT_MAX_PACKET_SIZE ≤ Z.of_nat (length (rx_buffer (client w))) → 0 ≤ v →
  wp (read_rest v t) (λ r w', ∃ rest rx pos, session b rest rx pos w w' ∧
    ∀ body tail, inp (outside w) = body ++ tail → v = Z.of_nat (length body) → v ≤ MQTT_MAX_PACKET_SIZE →
      r = MQTT_OK ∧ rest = tail ∧ (body ≠ [] → pos = v ∧ take (length body) rx = body) ∧
      (body = [] → rx = rx_buffer (client w) ∧ pos = rx_buffer_pos (client w))) w.
Proof.
  intros Hh Hrx Hv. unfold read_rest. destruct ((0 <? v) && (MQTT_MAX_PACKET_SIZE <? v)) eqn:Eov.
  { apply andb_true_iff in Eov as [_ Eov%Z.ltb_lt]. rewrite wp_ret. eexists _, _, _. split; [|intros; lia].
    apply took_session. exists (outside w). by destruct w. }
  unfold mqtt_get_time_ms, upd. destruct w as [e0 c0]. cbn [client outside] in *. destruct (Z.ltb_spec 0 v) as [Hv0|Hv0]; cbn [andb] in Eov.
  - apply Z.ltb_ge in Eov. unfold MQTT_MAX_PACKET_SIZE in *.
    rewrite wp_bind, wp_bind. eapply wp_mono; [apply (read_body_ok b); [done|lia|lia|cbn [client]; lia|lia]|].
    replace (Z.to_nat (v - 0)) with (Z.to_nat v) by lia. change (Z.to_nat 0) with 0%nat. cbn [outside client].
    intros ok w3 [-> (e3 & -> & Hh3 & Hi3 & Ho3)]. cbn in Ho3.
    assert (length (put 0 (take (Z.to_nat v) (inp e0)) (rx_buffer c0)) = length (rx_buffer c0)) as Hpl
      by (apply put_length; rewrite length_take; lia).
    destruct (Nat.leb_spec (Z.to_nat v) (length (inp e0))) as [Hle|Hgt]; rewrite wp_bind, wp_when, ?wp_modify, wp_ret.
    + rewrite wp_bind, wp_gets, wp_bind, wp_modify, wp_ret.
      exists (inp e3), (put 0 (take (Z.to_nat v) (inp e0)) (rx_buffer c0)), v. split.
      { exists e3. eexists. repeat (split; [done|]). split; [unfold MQTT_MAX_PACKET_SIZE; lia|done]. }
      intros body tail Hp -> _. rewrite Hi3, Hp, Nat2Z.id, drop_app_length, take_app_length.
      split; [done|]. split; [done|]. split; [intros _|intros ->; cbn in Hv0; lia].
      split; [done|]. unfold put. by rewrite take_0, app_nil_l, take_app_length.
    + rewrite wp_ret. exists (inp e3), (put 0 (take (Z.to_nat v) (inp e0)) (rx_buffer c0)), (rx_buffer_pos c0). split.
      { exists e3, (last_activity_ms c0). repeat (split; [done|]). split; [by left|by destruct c0]. }
      intros body tail Hp -> _. rewrite Hp, length_app in Hgt. lia.
  - rewrite wp_bind, wp_ret, wp_bind, wp_gets, wp_bind, wp_modify, wp_ret.
    exists (inp e0), (rx_buffer c0), (rx_buffer_pos c0). split.
    { exists e0. eexists. repeat (split; [done|]). split; [by left|by destruct c0]. }
    intros body tail Hp -> _. assert (body = []) as -> by (destruct body; [done|cbn in Hv0; lia]). done.
Qed.

Lemma took_then_session b r1 rest rx pos w w1 w2 : took b r1 w w1 → session b rest rx pos w1 w2 → session b rest rx pos w w2.
Proof.
  intros (e & -> & _ & _ & Ho) (e' & now & Hh & Ho' & Hi & Hl & Hp & ->). exists e', now. destruct w. cbn in *. split; [done|].
  split; [congruence|]. done.
Qed.
(** [mqtt_receive_packet] on any stream: it returns, and it reads a whole packet as such. *)
Lemma receive_packet_ok b t w : held b (outside w) → MQTT_MAX_PACKET_SIZE ≤ Z.of_nat (length (rx_buffer (client w))) →
  wp (mqtt_receive_packet t) (λ r w', (r.1 = MQTT_OK → is_Some r.2) ∧ ∃ rest rx pos, session b rest rx pos w w' ∧
    whole (inp (outside w)) rest rx pos r (client w)) w.
Proof.
  intros Hh Hrx. unfold mqtt_receive_packet. rewrite wp_bind. eapply wp_mono; [by apply (recv1_ok b)|]. intros r w1 Hr.
  destruct (inp (outside w)) as [|x s] eqn:Ei; destruct Hr as [-> Ht]; cbn [fst snd Z.leb Z.eqb Z.compare].
  { rewrite wp_ret. split; [done|]. eexists _, _, _. split; [by apply took_session|]. by intros ? ? ?. }
  cbn [head assigned]. rewrite wp_bind, wp_ret, wp_bind. fold (packet_type x).
  pose proof Ht as (e & E1 & Hh1 & Hi1 & Ho1). eapply wp_mono; [apply (read_length_ok b); by rewrite E1|].
  assert (inp (outside w1) = s) as Hi1' by by rewrite E1. rewrite Hi1'.
  intros [l|] w2 H2.
  2: { rewrite wp_ret. split; [done|]. destruct H2 as [Hno Ht2]. eexists _, _, _.
    split; [apply took_session; by eapply took_trans|]. intros first body tail Hp Hb. exfalso.
    unfold packet in Hp. rewrite <-app_comm_cons, <-app_assoc in Hp. injection Hp as _ Hp. revert Hp. apply Hno, field_ok_remaining.
    unfold MQTT_MAX_PACKET_SIZE in Hb. lia. }
  destruct H2 as (rest & -> & Hl & Ht2). pose proof (took_trans _ _ _ _ _ _ Ht Ht2) as Htk.
  destruct (field_ok_decode 3 l 1 0 0 Hl) as (v & n & Hd & Hv); [lia|lia|]. fold (mqtt_decode_remaining_length l) in Hd.
  rewrite Hd. cbn [assigned]. rewrite wp_bind, wp_ret, wp_bind. cbn [fst].
  pose proof Htk as (e2 & E2 & Hh2 & Hi2 & Ho2). assert (client w2 = client w) as Ec by (rewrite E2; by destruct w).
  assert (outside w2 = e2) as Eo by (rewrite E2; by destruct w).
  eapply wp_mono; [apply (read_rest_ok b); [by rewrite Eo|by rewrite Ec|lia]|].
  intros r w3 (rest' & rx & pos & Hs & Hw). rewrite wp_ret. split; [by eexists|]. exists rest', rx, pos.
  split; [by eapply took_then_session|]. intros first body tail Hp Hb.
  destruct (packet_parts l v n x rest first body tail Hl Hd Hp Hb) as (-> & -> & ->).
  rewrite Eo, Hi2, Ec in Hw. destruct (Hw body tail eq_refl eq_refl Hb) as (-> & ? & ? & ?). done.
Qed.
End receive.
