(* ===== verification/MqttSession.v ===== *)
(** MqttSession: the functions of the MQTT client that an application calls. *)
From Stdlib Require Import ZArith Lia.
From stdpp Require Import base numbers list gmap.
From S2P Require Import Prelude Types Bytes Net NetTheorems NetStack Mqtt MqttTheorems MqttReceive.

Section session.
Context {E : Type} `{!MqttServices E} {held : bool → E → Prop} {inp : E → list Z} {out : E → list (list Z)}.
Context `{!MqttLaws held inp out}.
Abbreviation W := (mqtt_world E).
Implicit Types w : W.
Context (call_message : Z → mqtt_message_t → Z → M W unit) (call_connection : Z → bool → Z → M W unit).

(** The buffers and tables of a client that [mqtt_client_init] has set up. *)
Definition client_inv (c : mqtt_client_t) : Prop :=
  length (tx_buffer c) = 1024%nat ∧ length (rx_buffer c) = 1024%nat ∧ 0 ≤ rx_buffer_pos c ≤ MQTT_MAX_PACKET_SIZE ∧
  0 ≤ next_message_id c < 2 ^ 16 ∧ length (subscriptions c) = 16%nat.

(** The effect of a packet that is sent on the client, besides its buffer, times and message id. *)
Definition requested (c c' : mqtt_client_t) : Prop :=
  mq_state c' = mq_state c ∧ subscriptions c' = subscriptions c ∧ config c' = config c ∧ (client_inv c → client_inv c').

(** ** Publishing *)
(** The frame of [mqtt_publish], [mqtt_subscribe] and [mqtt_unsubscribe] on a connected client. *)
Lemma when_connected_ok topic (m : list Z → M W mqtt_error_t) w (Q : mqtt_error_t → W → Prop) :
  held false (outside w) → mq_state (client w) = MQTT_STATE_CONNECTED →
  (∀ e1, held true e1 → inp e1 = inp (outside w) → out e1 = out (outside w) →
    wp (m topic) (λ r w2, held true (outside w2) ∧ ∀ e3, held false e3 → inp e3 = inp (outside w2) → out e3 = out (outside w2) →
      Q r (MqttWorld e3 (client w2))) (MqttWorld e1 (client w))) →
  wp (when_connected true (Some topic) m) Q w.
Proof.
  intros Hh Hc Hm. unfold when_connected. rewrite wp_bind, wp_sys. eapply wp_mono; [by apply ml_lock|].
  intros [] e1 (Hh1 & Hi1 & Ho1). destruct w as [e0 c0]. rewrite wp_bind, wp_gets. cbn in Hc |- *. rewrite Hc, bool_decide_eq_true_2 by done.
  cbn [negb]. rewrite wp_bind. eapply wp_mono; [by apply Hm|]. intros r w2 [Hh2 HQ]. rewrite wp_bind, wp_sys.
  eapply wp_mono; [by apply ml_unlock|]. intros [] e3 (Hh3 & Hi3 & Ho3). rewrite wp_ret. destruct w2. by apply HQ.
Qed.

Lemma publish_packet_length topic payload qos retained id id' :
  length (publish_packet topic payload qos retained id) = length (publish_packet topic payload qos retained id').
Proof. unfold publish_packet, packet. destruct qos; cbn [length]; rewrite !length_app; cbn [be16 length]; done. Qed.

(** [mqtt_publish] as a step: what it sends, and what it leaves in the client. *)
Lemma publish_ok topic payload qos retained w : held false (outside w) → mq_state (client w) = MQTT_STATE_CONNECTED →
  client_inv (client w) → Z.of_nat (length (publish_packet topic payload qos retained 0)) ≤ MQTT_MAX_PACKET_SIZE →
  wp (mqtt_publish true (Some topic) (Some payload) (Z.of_nat (length payload)) qos retained)
    (λ r w', r = MQTT_OK ∧ held false (outside w') ∧ inp (outside w') = inp (outside w) ∧
      mq_state (client w') = MQTT_STATE_CONNECTED ∧ client_inv (client w') ∧ requested (client w) (client w') ∧
      ∃ id, (qos ≠ MQTT_QOS_0 → 1 ≤ id < 2 ^ 16) ∧
        out (outside w') = out (outside w) ++ [publish_packet topic payload qos retained id]) w.
Proof.
  intros Hh Hc (Htx & Hrx & Hpos & Hid & Hsub) Hfit. unfold MQTT_MAX_PACKET_SIZE in Hfit. unfold mqtt_publish. apply when_connected_ok; [done|done|].
  intros e1 Hh1 Hi1 Ho1. rewrite wp_bind.
  assert (wp (if 0 <? qos_code qos then mqtt_next_message_id else ret 0)
    (λ id w1, 0 ≤ id < 2 ^ 16 ∧ (qos ≠ MQTT_QOS_0 → 1 ≤ id) ∧ ∃ n, 0 ≤ n < 2 ^ 16 ∧ w1 = MqttWorld e1 (client w <| next_message_id := n |>))
    (MqttWorld e1 (client w))) as Hnext.
  { destruct qos; cbn [qos_code Z.ltb Z.compare]; [|apply next_id_ok; [done|]; intros id Hr; split; [lia|]; split; [lia|]; exists id; split; [lia|done]..].
    rewrite wp_ret. split; [lia|]. split; [done|]. exists (next_message_id (client w)). split; [done|]. by destruct w as [? []]. }
  eapply wp_mono; [exact Hnext|]. intros id w1 (Hr & Hr1 & n & Hn & ->). destruct w as [e0 c0]. cbn [client outside] in *.
  eapply wp_mono; [apply (send_publish_ok true); cbn [client outside tx_buffer set_field]|].
  - by left.
  - done.
  - change (Z.of_nat (length (tx_buffer c0)) < 2 ^ 16). lia.
  - done.
  - rewrite (publish_packet_length _ _ _ _ _ 0). change (length (publish_packet topic payload qos retained 0) ≤ length (tx_buffer c0))%nat. lia.
  - intros r w2 (-> & Hh2 & Hi2 & Ho2 & buf & now & Hb & Ec). cbn in Hi2, Ho2. split; [done|]. intros e3 Hh3 Hi3 Ho3. rewrite Ec.
    split; [done|]. split; [done|]. split; [cbn; congruence|]. split; [done|]. split.
    + unfold client_inv. cbn. rewrite Hb. done.
    + split; [split; [done|]; split; [done|]; split; [done|]; intros _; unfold client_inv; cbn; by rewrite Hb|]. exists id. split; [intros; split; [by apply Hr1|lia]|]. cbn. congruence.
Qed.

(** ** The loop of the background task *)
(** The keep-alive of [mqtt_loop]: at most a PINGREQ goes out, and times of the client change. *)
Definition refreshed (b : bool) w w' : Prop :=
  held b (outside w') ∧ inp (outside w') = inp (outside w) ∧
  ∃ a p, client w' = client w <| last_activity_ms := a |> <| last_ping_ms := p |>.
Lemma keepalive_ok b (due : bool) now w : held b (outside w) → mq_state (client w) = MQTT_STATE_CONNECTED →
  wp (when due (let! _ := mqtt_send_pingreq in upd (λ c, c <| last_ping_ms := now |>))) (λ _ w', refreshed b w w') w.
Proof.
  intros Hh Hc. rewrite wp_when. destruct w as [e0 c0]. destruct due.
  - rewrite wp_bind. unfold mqtt_send_pingreq. eapply (send_packet_ok b); [by left|done|cbn; lia|]. intros e n Hh' Hi Ho.
    unfold upd. rewrite wp_modify. split; [done|]. split; [done|]. by exists n, now.
  - split; [done|]. split; [done|]. exists (last_activity_ms c0), (last_ping_ms c0). by destruct c0.
Qed.

(** What the reception of a packet leaves of the client. *)
Lemma received_client c rx pos a p : client_inv c → length rx = 1024%nat → 0 ≤ pos ≤ MQTT_MAX_PACKET_SIZE →
  let c' := c <| rx_buffer := rx |> <| rx_buffer_pos := pos |> <| last_activity_ms := a |> <| last_ping_ms := p |> in
  rx_buffer c' = rx ∧ rx_buffer_pos c' = pos ∧ message_callback c' = message_callback c ∧
  message_callback_data c' = message_callback_data c ∧ mq_state c' = mq_state c ∧ client_inv c'.
Proof. intros (? & ? & ? & ? & ?) ? ?. done. Qed.

(** The input of the loop after the keep-alive. *)
Lemma loop_ok b w (Q : mqtt_error_t → W → Prop) : held b (outside w) → mq_state (client w) = MQTT_STATE_CONNECTED →
  client_inv (client w) →
  (∀ r rest rx pos w2, (r.1 = MQTT_OK → is_Some r.2) → held b (outside w2) → inp (outside w2) = rest →
    (∃ a p, client w2 = client w <| rx_buffer := rx |> <| rx_buffer_pos := pos |> <| last_activity_ms := a |> <| last_ping_ms := p |>) →
    length rx = 1024%nat → 0 ≤ pos ≤ MQTT_MAX_PACKET_SIZE → whole (inp (outside w)) rest rx pos r (client w) →
    wp (if bool_decide (r.1 = MQTT_ERROR_TIMEOUT) then ret MQTT_OK
        else if negb (bool_decide (r.1 = MQTT_OK)) then ret r.1
        else
          let! msg_type := assigned r.2 in
          if msg_type =? MQTT_MSG_TYPE_PUBLISH then mqtt_handle_publish call_message
          else if msg_type =? MQTT_MSG_TYPE_PUBACK then mqtt_handle_puback
          else if msg_type =? MQTT_MSG_TYPE_SUBACK then mqtt_handle_suback
          else ret MQTT_OK) Q w2) →
  wp (mqtt_loop call_message true) Q w.
Proof.
  intros Hh Hc (Htx & Hrx & Hpos & Hid & Hsub) HQ. unfold mqtt_loop. rewrite wp_bind, wp_gets. rewrite Hc, bool_decide_eq_true_2 by done.
  cbn [negb orb]. unfold mqtt_get_time_ms. rewrite wp_bind, wp_gets, wp_bind. eapply wp_mono; [by apply (keepalive_ok b)|].
  intros [] w1 (Hh1 & Hi1 & a & p & Ec1). rewrite wp_bind.
  eapply wp_mono; [apply (receive_packet_ok b); [done|]|].
  { rewrite Ec1. destruct (client w). cbn in Hrx |- *. unfold MQTT_MAX_PACKET_SIZE. lia. }
  intros r w2 (Hok & rest & rx & pos & (e2 & now & Hh2 & Ho2 & Hi2 & Hl & Hp & ->) & Hw). rewrite Ec1 in *. destruct w as [e0 c0].
  cbn [client outside] in *. apply (HQ r rest rx pos); [done|done|done| | | |].
  - exists now, p. by destruct c0.
  - rewrite Hl. by destruct c0.
  - destruct c0; cbn in *. lia.
  - rewrite Hi1 in Hw. exact Hw.
Qed.

(** A message in the receive buffer is passed to the callback. *)
Lemma handle_publish_ok topic payload w (Q : mqtt_error_t → W → Prop) : length (rx_buffer (client w)) = 1024%nat →
  Z.of_nat (length topic) < MQTT_MAX_TOPIC_LENGTH → rx_buffer_pos (client w) = Z.of_nat (length (text topic ++ payload)) →
  take (length (text topic ++ payload)) (rx_buffer (client w)) = text topic ++ payload → message_callback (client w) ≠ 0 →
  rx_buffer_pos (client w) ≤ MQTT_MAX_PACKET_SIZE →
  (∀ pad, wp (call_message (message_callback (client w)) (MqttMessage topic (payload ++ pad) (Z.of_nat (length payload)) MQTT_QOS_0 false 0)
     (message_callback_data (client w))) (λ _ w', Q MQTT_OK w') w) → wp (mqtt_handle_publish call_message) Q w.
Proof.
  unfold MQTT_MAX_TOPIC_LENGTH, MQTT_MAX_PACKET_SIZE. intros Hrx Ht Hpos Hbuf Hcb Hmax HQ.
  pose proof (take_drop (length (text topic ++ payload)) (rx_buffer (client w))) as Eb. rewrite Hbuf in Eb.
  set (pad := drop (length (text topic ++ payload)) (rx_buffer (client w))) in *. clearbody pad.
  unfold text, be16 in Eb. rewrite <-!app_assoc in Eb. cbn [app] in Eb. unfold mqtt_handle_publish. rewrite wp_bind, wp_gets, <-Eb.
  rewrite wp_bind. eapply wp_arr_get; [lia|reflexivity|]. rewrite wp_bind. eapply wp_arr_get; [lia|reflexivity|].
  assert (u16 (Z.lor (Z.shiftl (Z.of_nat (length topic) / 256) 8) (Z.of_nat (length topic) mod 256)) = Z.of_nat (length topic)) as ->.
  { rewrite Z.div_small, Z.mod_small by lia. change (Z.shiftl 0 8) with 0. rewrite Z.lor_0_l, u16_small; lia. }
  rewrite Hpos, length_app, text_length in *. cbv zeta. rewrite (proj2 (Z.leb_gt 128 _)), (proj2 (Z.ltb_ge _ _)) by lia. cbn [orb].
  rewrite wp_bind. eapply peek_ok; [lia|cbn [length]; rewrite !length_app; lia|]. change (Z.to_nat 2) with 2%nat. cbn [drop].
  rewrite drop_0, Nat2Z.id, take_app_length, wp_bind, wp_when. rewrite (proj2 (Z.eqb_neq _ 0)) by done. cbn [negb].
  rewrite u16_small by lia. replace (Z.of_nat (2 + length topic + length payload) - (2 + Z.of_nat (length topic))) with (Z.of_nat (length payload)) by lia.
  replace (advance_ptr _ (2 + Z.of_nat (length topic))) with (payload ++ pad).
  2: { unfold advance_ptr. replace (Z.to_nat (2 + Z.of_nat (length topic))) with (S (S (length topic))) by lia.
    cbn [drop]. by rewrite drop_app_length. }
  eapply wp_mono; [apply (HQ pad)|]. intros [] w' HQ'. by rewrite wp_ret.
Qed.


(** ** Any stream from the broker *)
Section any_stream.
(** [P] is any property of what the task leaves alone. *)
Context (P : mqtt_state_t → list mqtt_subscription_t → mqtt_config_t → Prop).
Definition task_inv w : Prop := client_inv (client w) ∧ held false (outside w) ∧
  P (mq_state (client w)) (subscriptions (client w)) (config (client w)).
Hypothesis message_safe : ∀ f m d w, task_inv w → wp (call_message f m d) (λ _ w', task_inv w') w.

Lemma handle_publish_safe w : task_inv w → wp (mqtt_handle_publish call_message) (λ _ w', task_inv w') w.
Proof.
  intros Hw. pose proof Hw as ((Htx & Hrx & Hpos & Hid & Hsub) & Hh & _). unfold mqtt_handle_publish. rewrite wp_bind, wp_gets, wp_bind.
  destruct (lookup_lt_is_Some_2 (rx_buffer (client w)) 0) as [hi Ehi]; [lia|].
  destruct (lookup_lt_is_Some_2 (rx_buffer (client w)) 1) as [lo Elo]; [lia|].
  eapply wp_arr_get; [lia|exact Ehi|]. rewrite wp_bind. eapply wp_arr_get; [lia|exact Elo|]. cbv zeta.
  pose proof (u16_range (Z.lor (Z.shiftl hi 8) lo)) as Hr. set (n := u16 (Z.lor (Z.shiftl hi 8) lo)) in *.
  unfold MQTT_MAX_PACKET_SIZE in Hpos. destruct ((MQTT_MAX_TOPIC_LENGTH <=? n) || (rx_buffer_pos (client w) <? 2 + n)) eqn:Eg; [by rewrite wp_ret|].
  apply orb_false_iff in Eg as [_ Eg%Z.ltb_ge]. rewrite wp_bind. eapply peek_ok; [lia|lia|]. rewrite wp_bind, wp_when.
  destruct (negb (message_callback (client w) =? 0)); [|by rewrite wp_ret].
  eapply wp_mono; [by apply message_safe|]. intros [] w' Hw'. by rewrite wp_ret.
Qed.

Lemma loop_safe w : task_inv w → wp (mqtt_loop call_message true) (λ _ w', task_inv w') w.
Proof.
  intros Hw. destruct (decide (mq_state (client w) = MQTT_STATE_CONNECTED)) as [Hc|Hc].
  2: { unfold mqtt_loop. rewrite wp_bind, wp_gets, bool_decide_eq_false_2 by done. cbn [negb orb]. by rewrite wp_ret. }
  pose proof Hw as (Hinv & Hh & HP). apply (loop_ok false); [done|done|done|].
  intros r rest rx pos w2 Hok Hh2 _ (a & p & Ec) Hl Hp _.
  assert (task_inv w2) as Hw2 by (split; [rewrite Ec; by apply received_client|split; [done|by rewrite Ec]]).
  case_bool_decide; [by rewrite wp_ret|]. case_bool_decide as Er; cbn [negb]; [|by rewrite wp_ret].
  destruct (Hok Er) as [ty ->]. cbn [assigned]. rewrite wp_bind, wp_ret.
  destruct (ty =? MQTT_MSG_TYPE_PUBLISH); [by apply handle_publish_safe|].
  destruct (ty =? MQTT_MSG_TYPE_PUBACK); [by unfold mqtt_handle_puback; rewrite wp_ret|].
  destruct (ty =? MQTT_MSG_TYPE_SUBACK); [|by rewrite wp_ret].
  unfold mqtt_handle_suback. rewrite wp_bind, wp_gets. destruct (rx_buffer_pos (client w2) <? 3); [by rewrite wp_ret|].
  destruct Hw2 as ((? & Hrx & ?) & ?). destruct (lookup_lt_is_Some_2 (rx_buffer (client w2)) 2) as [x Ex]; [lia|].
  rewrite wp_bind. eapply wp_arr_get; [lia|exact Ex|]. by rewrite wp_ret.
Qed.

End any_stream.

(** ** Connecting *)
Section connecting.
(** The connection callback is called with the mutex held; it must not change the client. *)
Hypothesis connection_calm : ∀ f d w, held true (outside w) →
  wp (call_connection f true d) (λ _ w', client w' = client w ∧ held true (outside w') ∧ out (outside w') = out (outside w)) w.

(** How a call of [mqtt_connect] ends: connected, with the CONNECT packet sent, or disconnected. *)
Definition connect_ends (sent_before : list (list Z)) (c : mqtt_client_t) (r : mqtt_error_t) w' : Prop :=
  held false (outside w') ∧ client_inv (client w') ∧ config (client w') = config c ∧ subscriptions (client w') = subscriptions c ∧
  if bool_decide (r = MQTT_OK)
  then mq_state (client w') = MQTT_STATE_CONNECTED ∧ task_running (client w') = true ∧
    out (outside w') = sent_before ++ [packet 16 (connect_body (config c))]
  else mq_state (client w') = MQTT_STATE_DISCONNECTED.

Lemma abandon_ok err sent_before c w : err ≠ MQTT_OK → held true (outside w) → client_inv (client w) → config (client w) = config c →
  subscriptions (client w) = subscriptions c →
  wp (abandon err) (λ r w', r = err ∧ connect_ends sent_before c r w') w.
Proof.
  intros He Hh Hinv Hcfg Hsub. unfold abandon. rewrite wp_bind, wp_gets, wp_bind, wp_sys. eapply wp_mono; [by apply (ml_close true)|].
  intros [] e Hh1. unfold upd. rewrite wp_bind, wp_modify, wp_bind, wp_sys. destruct w as [e0 c0]. cbn [outside client set_field].
  eapply wp_mono; [by apply ml_unlock|]. intros [] e2 (Hh2 & _). rewrite wp_ret. split; [done|].
  unfold connect_ends. rewrite bool_decide_eq_false_2 by done. done.
Qed.

(** The CONNACK is checked; the client is connected if it accepts. *)
Lemma handle_connack_ok w : held true (outside w) → length (rx_buffer (client w)) = 1024%nat →
  wp (mqtt_handle_connack call_connection) (λ r w', held true (outside w') ∧ out (outside w') = out (outside w) ∧
    (r = MQTT_OK ∧ client w' = client w <| mq_state := MQTT_STATE_CONNECTED |> ∨ r ≠ MQTT_OK ∧ client w' = client w) ∧
    (2 ≤ rx_buffer_pos (client w) → ∀ code, rx_buffer (client w) !! 1%nat = Some code →
      r = if code =? MQTT_CONNACK_ACCEPTED then MQTT_OK else MQTT_ERROR_BROKER_REFUSED)) w.
Proof.
  intros Hh Hrx. unfold mqtt_handle_connack. rewrite wp_bind, wp_gets. destruct (Z.ltb_spec (rx_buffer_pos (client w)) 2).
  { rewrite wp_ret. split; [done|]. split; [done|]. split; [by right|intros; lia]. }
  destruct (lookup_lt_is_Some_2 (rx_buffer (client w)) 1) as [x Ex]; [lia|]. rewrite wp_bind. eapply wp_arr_get; [lia|exact Ex|].
  destruct (x =? MQTT_CONNACK_ACCEPTED) eqn:E0.
  2: { rewrite wp_ret. split; [done|]. split; [done|]. split; [by right|]. intros _ code Hcode.
       assert (code = x) as -> by (rewrite Ex in Hcode; congruence). by rewrite E0. }
  unfold upd. rewrite wp_bind, wp_modify, wp_bind. unfold notify. rewrite wp_bind, wp_gets, wp_when. destruct w as [e0 c0].
  destruct (negb _).
  - eapply wp_mono; [by apply connection_calm|]. intros [] w' (Ec & Hh' & Ho). rewrite wp_ret. split; [done|]. split; [done|].
    split; [by left|]. intros _ code Hcode. cbn in Ex, Hcode. assert (code = x) as -> by congruence. by rewrite E0.
  - rewrite wp_ret. split; [done|]. split; [done|]. split; [by left|]. intros _ code Hcode. cbn in Ex, Hcode.
    assert (code = x) as -> by congruence. by rewrite E0.
Qed.

(** What the first packet of the broker says. *)
Definition verdict (s : list Z) (r : mqtt_error_t) : Prop :=
  ∀ flags code rest, s = packet 32 [flags; code] ++ rest →
    r = if code =? MQTT_CONNACK_ACCEPTED then MQTT_OK else MQTT_ERROR_BROKER_REFUSED.

Lemma handshake_ok w : held true (outside w) → client_inv (client w) → mq_state (client w) = MQTT_STATE_CONNECTING →
  config_ok 1024 (config (client w)) →
  wp (handshake call_connection) (λ r w', verdict (inp (outside w)) r ∧ connect_ends (out (outside w)) (client w) r w') w.
Proof.
  intros Hh (Htx & Hrx & Hpos & Hid & Hsub) Hst Hcfg. unfold handshake. rewrite wp_bind, wp_gets, wp_bind.
  eapply wp_mono; [apply (send_connect_ok true); [by right|done|rewrite Htx; lia|by rewrite Htx]|].
  intros r w1 (-> & Hh1 & Hi1 & Ho1 & buf & now & Hbuf & Ec1). rewrite bool_decide_eq_true_2 by done. cbn [negb].
  destruct w as [e0 c0], w1 as [e1 c1]. cbn [client outside] in *. subst c1. rewrite wp_bind.
  eapply wp_mono; [apply (receive_packet_ok true); [done|change (MQTT_MAX_PACKET_SIZE ≤ Z.of_nat (length (rx_buffer c0))); rewrite Hrx; done]|].
  intros r w2 (Hok & rest & rx & pos & (e2 & now2 & Hh2 & Ho2 & Hi2 & Hl & Hp & ->) & Hw). cbn in Hl, Hp, Hw. rewrite Hi1 in Hw. cbn in Ho2.
  assert (client_inv (c0 <| tx_buffer := buf |> <| last_activity_ms := now |> <| rx_buffer := rx |> <| rx_buffer_pos := pos |>
    <| last_activity_ms := now2 |>)) as Hinv.
  { unfold client_inv. cbn. unfold MQTT_MAX_PACKET_SIZE in *. rewrite Hbuf, Hl. repeat split; try done; lia. }
  case_bool_decide as Er; cbn [negb].
  2: { eapply wp_mono; [by apply (abandon_ok r.1 (out e0) c0)|]. intros r' w' [-> He]. split; [|done].
       intros fl code rst Hs. destruct (Hw _ _ _ Hs) as (-> & _); [done|]. by destruct Er. }
  destruct (Hok Er) as [ty Ety]. rewrite Ety. cbn [assigned]. rewrite wp_bind, wp_ret.
  destruct (ty =? MQTT_MSG_TYPE_CONNACK) eqn:Et; cbn [negb].
  2: { eapply wp_mono; [by apply (abandon_ok MQTT_ERROR_PROTOCOL (out e0) c0)|]. intros r' w' [-> He]. split; [|done].
       intros fl code rst Hs. destruct (Hw _ _ _ Hs) as (-> & _); [done|]. injection Ety as <-. by cbn in Et. }
  rewrite wp_bind. eapply wp_mono; [apply handle_connack_ok; [done|destruct Hinv as (_ & ? & _); done]|].
  intros r' w3 (Hh3 & Ho3 & Hr3 & Hv3). assert (verdict (inp e0) r') as Hverdict.
  { intros fl code rst Hs. destruct (Hw _ _ _ Hs) as (_ & _ & Hb & _); [done|]. destruct Hb as [-> Htk]; [done|]. apply Hv3; [done|].
    cbn. cbn [length] in Htk. rewrite <-(take_drop 2 rx), Htk. done. }
  destruct w3 as [e3 c3]. cbn [client outside] in *. destruct Hr3 as [[-> ->]|[Hne ->]].
  2: { rewrite bool_decide_eq_false_2 by done. cbn [negb]. eapply wp_mono; [by apply (abandon_ok r' (out e0) c0)|].
       intros r2 w' [-> He]. done. }
  rewrite bool_decide_eq_true_2 by done. cbn [negb]. unfold upd. rewrite wp_bind, wp_modify, wp_bind, wp_sys.
  eapply wp_mono; [by apply (ml_start_task true)|]. intros [] e4 (Hh4 & Hi4 & Ho4). unfold mqtt_get_time_ms.
  rewrite wp_bind, wp_gets, wp_bind, wp_modify, wp_bind, wp_gets, wp_bind, wp_modify, wp_bind, wp_sys.
  eapply wp_mono; [by apply ml_unlock|]. intros [] e5 (Hh5 & Hi5 & Ho5). rewrite wp_ret. split; [done|].
  unfold connect_ends. rewrite bool_decide_eq_true_2 by done. split; [done|]. split; [exact Hinv|]. split; [done|]. split; [done|].
  split; [done|]. split; [done|]. exact (eq_trans Ho5 (eq_trans Ho4 (eq_trans Ho3 (eq_trans Ho2 Ho1)))).
Qed.

Lemma connect_ok w : held false (outside w) → client_inv (client w) → mq_state (client w) = MQTT_STATE_DISCONNECTED →
  config_ok 1024 (config (client w)) →
  wp (mqtt_connect call_connection true)
    (λ r w', (r = MQTT_ERROR_NETWORK ∨ verdict (inp (outside w)) r) ∧ connect_ends (out (outside w)) (client w) r w') w.
Proof.
  intros Hh Hinv Hst Hcfg. unfold mqtt_connect. cbn [negb]. rewrite wp_bind, wp_sys. eapply wp_mono; [by apply ml_lock|].
  intros [] e1 (Hh1 & Hi1 & Ho1). rewrite wp_bind, wp_gets. destruct w as [e0 c0]. cbn [client outside set_field] in *.
  change (client (MqttWorld e0 c0 <| outside := e1 |>)) with c0. rewrite Hst, bool_decide_eq_true_2 by done. cbn [negb]. unfold upd.
  rewrite wp_bind, wp_modify, wp_bind, wp_sys. eapply wp_mono; [by apply (ml_socket true)|]. intros sock e2 (Hh2 & Hi2 & Ho2).
  rewrite wp_bind, wp_modify. destruct (sock <? 0).
  { rewrite wp_bind, wp_modify, wp_bind, wp_sys. eapply wp_mono; [by apply ml_unlock|]. intros [] e3 (Hh3 & _). rewrite wp_ret.
    split; [by left|]. unfold connect_ends. rewrite bool_decide_eq_false_2 by done. done. }
  rewrite wp_bind, wp_sys. eapply wp_mono; [by apply (ml_resolve true)|]. intros [err ip] e3 (Hh3 & Hi3 & Ho3). cbn [fst snd].
  destruct (negb (bool_decide (err = OS_OK))).
  { eapply wp_mono; [by apply (abandon_ok MQTT_ERROR_NETWORK (out e0) c0)|]. intros r w' [-> He]. split; [by left|done]. }
  rewrite wp_bind, wp_sys. eapply wp_mono; [by apply (ml_connect true)|]. intros err2 e4 (Hh4 & Hi4 & Ho4).
  destruct (negb (bool_decide (err2 = OS_OK))).
  { eapply wp_mono; [by apply (abandon_ok MQTT_ERROR_NETWORK (out e0) c0)|]. intros r w' [-> He]. split; [by left|done]. }
  eapply wp_mono; [by apply handshake_ok|]. cbn in Hi2, Hi3, Hi4, Ho2, Ho3, Ho4 |- *. rewrite Hi4, Hi3, Hi2, Hi1, Ho4, Ho3, Ho2, Ho1.
  intros r w' [Hv He]. split; [by right|done].
Qed.

End connecting.

(** ** Subscriptions *)
Lemma same_topic_zeros topic n : Forall (λ b, b ≠ 0) topic → (0 < n)%nat → same_topic (topic ++ replicate n 0) topic = true.
Proof.
  intros Hz Hn. induction Hz as [|b topic Hb _ IH]; cbn [app same_topic].
  - destruct n; [lia|done].
  - by rewrite IH, Z.eqb_refl, (proj2 (Z.eqb_neq b 0)).
Qed.
Lemma stored_topic_same topic : Forall (λ b, b ≠ 0) topic → (length topic < 128)%nat → same_topic (stored_topic topic) topic = true.
Proof.
  intros Hz Hl. unfold stored_topic. rewrite take_app, take_ge by lia. rewrite take_replicate, <-app_assoc.
  change [0] with (replicate 1 0). rewrite <-replicate_add. apply same_topic_zeros; [done|]. lia.
Qed.

(** A request packet for a topic of a legal length fits the buffer. *)
Lemma request_fits type topic extra : (length topic < 128)%nat → (length extra ≤ 1)%nat →
  (length (request type topic 0 extra) ≤ 1024)%nat.
Proof.
  intros Hl He. unfold request. rewrite packet_length, request_length.
  pose proof (small_length (Z.of_nat (4 + length topic + length extra))). lia.
Qed.

Lemma sent_requested b p id w w' : 1 ≤ id < 2 ^ 16 → sent (held := held) (inp := inp) (out := out) b p (with_id id w) w' →
  requested (client w) (client w').
Proof.
  intros Hid (_ & _ & _ & buf & now & Hb & Ec). destruct w as [e0 c0]. cbn [client] in *. rewrite Ec. split; [done|]. split; [done|]. split; [done|].
  intros (? & ? & ? & ? & ?). unfold client_inv. cbn. change (length buf = length (tx_buffer c0)) in Hb. rewrite Hb.
  repeat (split; [first [done|lia]|]). done.
Qed.

Lemma send_subscribe_ok topic qos w : held true (outside w) → mq_state (client w) = MQTT_STATE_CONNECTED → client_inv (client w) →
  (length topic < 128)%nat →
  wp (mqtt_send_subscribe topic qos) (λ r w', r = MQTT_OK ∧ held true (outside w') ∧ requested (client w) (client w') ∧
    ∃ id, 1 ≤ id < 2 ^ 16 ∧ out (outside w') = out (outside w) ++ [request MQTT_MSG_TYPE_SUBSCRIBE topic id [qos_code qos]]) w.
Proof.
  intros Hh Hc (Htx & Hrx & Hpos & Hid & Hsub) Hl. unfold mqtt_send_subscribe. rewrite wp_bind.
  pose proof (request_fits MQTT_MSG_TYPE_SUBSCRIBE topic [qos_code qos] Hl ltac:(done)) as Hfit.
  eapply wp_mono; [apply (request_built MQTT_MSG_TYPE_SUBSCRIBE topic [qos_code qos]); [lia|done|done|lia]|].
  intros pos w1 (id & p & Hr & Ep & -> & Hb). destruct w as [e0 c0].
  assert (length (p ++ [qos_code qos]) ≤ 1024)%nat as Hpl.
  { rewrite Ep. unfold request in Hfit |- *. rewrite packet_length, request_length in *. done. }
  rewrite wp_bind. eapply put_built; [exact Hb|done|cbn; cbn in Htx; lia|]. intros w2 H2. rewrite length_app in Hpl. cbn [length] in Hpl.
  eapply wp_mono; [eapply (send_built true _ (with_id id (MqttWorld e0 c0))); [by left|done|exact H2|rewrite u16_small by lia; rewrite length_app; cbn [length]; lia]|].
  intros r w3 [-> Hs]. split; [done|]. pose proof Hs as (Hh3 & _ & Ho3 & _). split; [done|]. split; [by eapply sent_requested|].
  exists id. split; [done|]. rewrite Ho3, Ep. done.
Qed.
Lemma send_unsubscribe_ok topic w : held true (outside w) → mq_state (client w) = MQTT_STATE_CONNECTED → client_inv (client w) →
  (length topic < 128)%nat →
  wp (mqtt_send_unsubscribe topic) (λ r w', r = MQTT_OK ∧ held true (outside w') ∧ requested (client w) (client w') ∧
    ∃ id, 1 ≤ id < 2 ^ 16 ∧ out (outside w') = out (outside w) ++ [request MQTT_MSG_TYPE_UNSUBSCRIBE topic id []]) w.
Proof.
  intros Hh Hc (Htx & Hrx & Hpos & Hid & Hsub) Hl. unfold mqtt_send_unsubscribe. rewrite wp_bind.
  pose proof (request_fits MQTT_MSG_TYPE_UNSUBSCRIBE topic [] Hl ltac:(cbn; lia)) as Hfit.
  eapply wp_mono; [apply (request_built MQTT_MSG_TYPE_UNSUBSCRIBE topic []); [lia|done|done|lia]|].
  intros pos w1 (id & p & Hr & Ep & -> & Hb). rewrite app_nil_r in Ep. destruct w as [e0 c0].
  eapply wp_mono; [eapply (send_built true _ (with_id id (MqttWorld e0 c0))); [by left|done|exact Hb|done]|].
  intros r w3 [-> Hs]. split; [done|]. pose proof Hs as (Hh3 & _ & Ho3 & _). split; [done|]. split; [by eapply sent_requested|].
  exists id. split; [done|]. rewrite Ho3, Ep. done.
Qed.

Abbreviation free_slot := (λ s, sub_active s = false).
Abbreviation holds topic := (λ s, sub_active s && same_topic (sub_topic s) topic).
Definition live w : Prop := held false (outside w) ∧ mq_state (client w) = MQTT_STATE_CONNECTED ∧ client_inv (client w).

Lemma subscribe_ok topic qos w i s0 : live w → (length topic < 128)%nat →
  list_find free_slot (subscriptions (client w)) = Some (i, s0) →
  wp (mqtt_subscribe true (Some topic) qos) (λ r w', r = MQTT_OK ∧ live w' ∧ config (client w') = config (client w) ∧
    subscriptions (client w') = <[i := Subscription (stored_topic topic) qos true]> (subscriptions (client w)) ∧
    ∃ id, 1 ≤ id < 2 ^ 16 ∧ out (outside w') = out (outside w) ++ [request MQTT_MSG_TYPE_SUBSCRIBE topic id [qos_code qos]]) w.
Proof.
  intros (Hh & Hc & Hinv) Hl Hf. unfold mqtt_subscribe. apply when_connected_ok; [done|done|]. intros e1 Hh1 Hi1 Ho1.
  rewrite wp_bind, wp_gets. cbn [client]. rewrite Hf, wp_bind. eapply wp_mono; [by apply send_subscribe_ok|].
  intros r w2 (-> & Hh2 & (Est & Esub & Ecfg & Hi2) & id & Hid & Ho2). cbn [client outside] in *. rewrite bool_decide_eq_true_2 by done.
  rewrite wp_bind, wp_when. unfold upd. rewrite wp_modify, wp_ret. destruct w2 as [e2 c2]. split; [done|]. intros e3 Hh3 Hi3 Ho3.
  cbn [client outside set_field] in *. split; [done|]. specialize (Hi2 Hinv). split.
  - split; [done|]. split; [exact (eq_trans Est Hc)|]. destruct Hi2 as (? & ? & ? & ? & ?). unfold client_inv. cbn. by rewrite length_insert.
  - split; [exact Ecfg|]. split; [cbn; by rewrite Esub|]. exists id. split; [done|]. cbn in Ho3. congruence.
Qed.

Lemma unsubscribe_ok topic w i s0 : live w → (length topic < 128)%nat →
  list_find (holds topic) (subscriptions (client w)) = Some (i, s0) →
  wp (mqtt_unsubscribe true (Some topic)) (λ r w', r = MQTT_OK ∧ live w' ∧ config (client w') = config (client w) ∧
    subscriptions (client w') = <[i := s0 <| sub_active := false |>]> (subscriptions (client w)) ∧
    ∃ id, 1 ≤ id < 2 ^ 16 ∧ out (outside w') = out (outside w) ++ [request MQTT_MSG_TYPE_UNSUBSCRIBE topic id []]) w.
Proof.
  intros (Hh & Hc & Hinv) Hl Hf. unfold mqtt_unsubscribe. apply when_connected_ok; [done|done|]. intros e1 Hh1 Hi1 Ho1.
  rewrite wp_bind, wp_gets. cbn [client]. rewrite Hf, wp_bind. unfold upd. rewrite wp_modify. destruct w as [e0 c0]. cbn [client outside] in *.
  eapply wp_mono; [apply send_unsubscribe_ok; [done|done| |done]|].
  { destruct Hinv as (? & ? & ? & ? & ?). unfold client_inv. cbn. by rewrite length_insert. }
  intros r w2 (-> & Hh2 & (Est & Esub & Ecfg & Hi2) & id & Hid & Ho2). split; [done|]. intros e3 Hh3 Hi3 Ho3. cbn [client outside] in *.
  split; [done|]. split.
  - split; [done|]. split; [exact (eq_trans Est Hc)|]. apply Hi2. destruct Hinv as (? & ? & ? & ? & ?). unfold client_inv. cbn.
    by rewrite length_insert.
  - split; [exact Ecfg|]. split; [exact Esub|]. exists id. split; [done|]. cbn in Ho2. congruence.
Qed.

(** A subscription: for a topic of fewer than 128 characters and a table with a free entry,
    [mqtt_subscribe] sends the SUBSCRIBE packet of the protocol and records the topic in the first
    free entry; [mqtt_unsubscribe] then sends the UNSUBSCRIBE packet, finds that entry by its topic
    and frees it. No other entry changes, and the mutex is free after each call. *)
Theorem mqtt_subscription_lifecycle topic qos w i s0 : live w → (length topic < 128)%nat → Forall (λ b, b ≠ 0) topic →
  list_find free_slot (subscriptions (client w)) = Some (i, s0) →
  list_find (holds topic) (subscriptions (client w)) = None →
  wp (mqtt_subscribe true (Some topic) qos) (λ r w1, r = MQTT_OK ∧ live w1 ∧
    subscriptions (client w1) = <[i := Subscription (stored_topic topic) qos true]> (subscriptions (client w)) ∧
    (∃ id, 1 ≤ id < 2 ^ 16 ∧ out (outside w1) = out (outside w) ++ [request MQTT_MSG_TYPE_SUBSCRIBE topic id [qos_code qos]]) ∧
    wp (mqtt_unsubscribe true (Some topic)) (λ r w2, r = MQTT_OK ∧ live w2 ∧
      subscriptions (client w2) = <[i := Subscription (stored_topic topic) qos false]> (subscriptions (client w)) ∧
      ∃ id, 1 ≤ id < 2 ^ 16 ∧ out (outside w2) = out (outside w1) ++ [request MQTT_MSG_TYPE_UNSUBSCRIBE topic id []]) w1) w.
Proof.
  intros Hw Hl Hz Hfree Hnone. eapply wp_mono; [by eapply subscribe_ok|]. intros r w1 (-> & Hw1 & _ & Es & Ho). do 4 (split; [done|]).
  set (new := Subscription (stored_topic topic) qos true) in *. assert (i < length (subscriptions (client w)))%nat as Hi.
  { apply list_find_Some in Hfree as (Hlk & _). by eapply lookup_lt_Some. }
  assert (list_find (holds topic) (subscriptions (client w1)) = Some (i, new)) as Hf1.
  { rewrite Es. apply list_find_Some. split; [by rewrite list_lookup_insert_eq|]. split; [cbn; by rewrite stored_topic_same|].
    intros j y Hj Hlt. rewrite list_lookup_insert_ne in Hj by lia. apply list_find_None in Hnone.
    exact (Forall_lookup_1 _ _ j y Hnone Hj). }
  eapply wp_mono; [by eapply unsubscribe_ok|]. intros r w2 (-> & Hw2 & _ & Es2 & Ho2). split; [done|]. split; [done|]. split; [|done].
  rewrite Es2, Es, list_insert_insert_eq. done.
Qed.
End session.
