(* ===== verification/MqttHost.v ===== *)
(** MqttHost: the MQTT client on a host with a mutex and one connection, which hands over the bytes of
    the broker in pieces of at most three; instances of the theorems on the client, and runs of it. *)
From Stdlib Require Import ZArith Lia.
From stdpp Require Import base numbers list gmap.
From S2P Require Import Prelude Types Bytes Net NetTheorems Mqtt MqttTheorems MqttReceive MqttSession.

(** [os_mutex_lock] with [OS_WAIT_FOREVER] on a mutex that the caller holds does not return. *)
Record mqtt_host := MqttHostState {
  h_locked : bool; h_in : list Z; h_out : list (list Z); h_now : Z; h_seen : list (list Z * list Z)
}.
#[export] Instance mqtt_host_eta : Eta mqtt_host := λ h, MqttHostState (h_locked h) (h_in h) (h_out h) (h_now h) (h_seen h).

(** [resolved] is what the resolution of a name gives. *)
Definition mqtt_host_services (resolved : os_error_t * ipv4_addr_t) : MqttServices mqtt_host := {|
  mv_mutex_init := modify (λ h, h <| h_locked := false |>);
  mv_lock := let! l := gets h_locked in if l : bool then nofuel else modify (λ h, h <| h_locked := true |>);
  mv_unlock := modify (λ h, h <| h_locked := false |>);
  mv_socket := ret 0;
  mv_close _ := ret tt;
  mv_resolve _ _ := ret resolved;
  mv_connect _ _ _ := ret OS_OK;
  mv_send _ data n _ := modify (λ h, h <| h_out ::= λ o, o ++ [take (Z.to_nat n) data] |>) ;;; ret n;
  mv_recv _ max _ :=
    let! i := gets h_in in
    let k := Nat.min (Z.to_nat max) (Nat.min 3 (length i)) in
    modify (λ h, h <| h_in := drop k i |>) ;;;
    ret (Z.of_nat k, take k i);
  mv_start_task := ret tt;
  mv_delay n := modify (λ h, h <| h_now ::= Z.add n |>);
  mv_uptime_ms := h_now
|}.

Definition host_held (b : bool) (h : mqtt_host) : Prop := h_locked h = b.
Lemma mqtt_host_laws resolved : MqttLaws (MqttServices0 := mqtt_host_services resolved) host_held h_in h_out.
Proof.
  unfold host_held.
  split; cbn [mv_mutex_init mv_lock mv_unlock mv_send mv_recv mv_socket mv_resolve mv_connect mv_close mv_start_task mv_delay mqtt_host_services].
  - intros e. by rewrite wp_modify.
  - intros e He. rewrite wp_bind, wp_gets, He, wp_modify. done.
  - intros e _. by rewrite wp_modify.
  - intros b s data n t e He Hn. rewrite wp_bind, wp_modify, wp_ret. done.
  - intros b s max t e He Hmax. rewrite wp_bind, wp_gets, wp_bind, wp_modify, wp_ret. split; [done|]. split; [done|].
    destruct (h_in e) as [|x l] eqn:Ei.
    + replace (Nat.min (Z.to_nat max) (Nat.min 3 (length []))) with 0%nat by (cbn [length]; lia). done.
    + exists (Nat.min (Z.to_nat max) (Nat.min 3 (length (x :: l)))). cbn [length]. repeat (split; [lia|]). done.
  - intros b e He. by rewrite wp_ret.
  - intros b h t e He. by rewrite wp_ret.
  - intros b s a t e He. by rewrite wp_ret.
  - intros b s e He. by rewrite wp_ret.
  - intros b e He. by rewrite wp_ret.
  - intros b n e He. by rewrite wp_modify.
Qed.

#[export] Instance host_mqtt : MqttServices mqtt_host := mqtt_host_services (OS_OK, IPV4 10 0 0 1).
#[export] Instance host_mqtt_laws : MqttLaws host_held h_in h_out.
Proof. apply mqtt_host_laws. Qed.

(** The message callback notes the topic and the payload. *)
Definition note_message (f : Z) (m : mqtt_message_t) (d : Z) : M (mqtt_world mqtt_host) unit :=
  modify (λ w, w <| outside ::= λ h, h <| h_seen ::= λ l,
    l ++ [(msg_topic m, take (Z.to_nat (msg_payload_length m)) (msg_payload m))] |> |>).
Definition ignore_connection (f : Z) (connected : bool) (d : Z) : M (mqtt_world mqtt_host) unit := ret tt.

(** A client after [mqtt_client_init], and one that is connected and waits for [input]. *)
Definition a_config : mqtt_config_t :=
  mqtt_config_zero <| broker_host := Some [98] |> <| client_id := Some [99; 49] |> <| keepalive_sec := 60 |> <| timeout_ms := 5000 |>
    <| will_topic := Some [119] |> <| will_message := Some [111; 102; 102] |> <| will_message_len := 3 |>.
Definition new_client : mqtt_client_t := mqtt_client_zero <| config := a_config |> <| next_message_id := 1 |> <| message_callback := 7 |>.
Definition live_client : mqtt_client_t := new_client <| mq_state := MQTT_STATE_CONNECTED |> <| task_running := true |>.
Definition host_with (input : list Z) : mqtt_host := MqttHostState false input [] 100 [].

Lemma new_client_inv : client_inv new_client.
Proof. by repeat split. Qed.
Lemma live_client_inv : client_inv live_client.
Proof. by repeat split. Qed.


Lemma note_safe P f m d (w : mqtt_world mqtt_host) : task_inv (held := host_held) P w → wp (note_message f m d) (λ _ w', task_inv (held := host_held) P w') w.
Proof. intros Hw. unfold note_message. rewrite wp_modify. by destruct w. Qed.


Lemma mqtt_subscription_lifecycle_witness :
  wp (mqtt_subscribe true (Some [116]) MQTT_QOS_1) (λ r w1, r = MQTT_OK ∧
    wp (mqtt_unsubscribe true (Some [116])) (λ r w2, r = MQTT_OK ∧ sub_active <$> subscriptions (client w2) !! 0%nat = Some false) w1)
    (MqttWorld (host_with []) live_client).
Proof.
  eapply wp_mono; [apply (mqtt_subscription_lifecycle (held := host_held) (inp := h_in) (out := h_out) [116] MQTT_QOS_1
    (MqttWorld (host_with []) live_client) 0 (Subscription (replicate 128 0) MQTT_QOS_0 false));
    [split; [done|split; [done|apply live_client_inv]]|cbn; lia|repeat constructor; lia|reflexivity|reflexivity]|].
  intros r w1 (-> & _ & _ & _ & H2). split; [done|]. eapply wp_mono; [exact H2|]. intros r w2 (-> & _ & -> & _). done.
Defined.

