(* ===== verification/MqttNet.v ===== *)
(** MqttNet: the MQTT client on the network stack of the repository.

    The theorems of [MqttSession] are about a client whose connection carries a stream of bytes
    ([MqttLaws]), as TCP does. Here the client is put on the sockets of [Net] instead, with the calls
    that mqtt.c makes, and the theorem says what becomes of the packets of the broker. *)
From Stdlib Require Import ZArith Lia.
From stdpp Require Import base numbers list gmap.
From S2P Require Import Prelude Types Bytes Net Loopback NetTheorems NetStack NetDelivery NetBuffers NetLoopback NetTcp.
From S2P Require Import Http Mqtt MqttTheorems MqttReceive MqttHost.

Section mqtt_net.
Context {K D : Type} `{!NetServices K D}.
Abbreviation N := (net_world K D).

(** The address of the client's mutex. *)
Definition client_mutex : ptr := 32.
(** The functions that mqtt.c calls. The variable that [net_dns_resolve] would fill has no value, but
    is only used when the call succeeds. *)
#[export] Instance mqtt_over_net : MqttServices N := {|
  mv_mutex_init := nv_mutex_init client_mutex;
  mv_lock := lock client_mutex;
  mv_unlock := unlock client_mutex;
  mv_socket := net_socket SOCK_STREAM;
  mv_close s := let! _ := net_close s in ret tt;
  mv_resolve host t := let! r := net_dns_resolve host (Some (IPV4 0 0 0 0)) t in ret (r.1, default (IPV4 0 0 0 0) r.2);
  mv_connect s a t := net_connect s (Some a) t;
  mv_send s data n t := net_send s data n t;
  mv_recv s max t :=
    let! r := net_recv s (replicate (Z.to_nat max) 0) max t in
    ret (r.1, take (Z.to_nat r.1) r.2);
  mv_start_task := let! _ := nv_task_create PRIORITY_NORMAL in ret tt;
  mv_delay n := nv_task_delay n;
  mv_uptime_ms w := u32 (nv_ticks (kern w) * 1000 / TICK_RATE_HZ)
|}.

Context {calm : list ptr → K → Prop} {count : ptr → K → Z} `{!NetLaws calm count}.

(** A wait with a time limit on a semaphore that nobody posts ends with [OS_ERR_TIMEOUT]. *)
Class WaitTimesOut := {
  wt_wait s t L (w : N) : net_sem s → calm L (kern w) → count s (kern w) = 0 → t ≠ OS_WAIT_FOREVER →
    wp (nv_semaphore_wait s t) (λ r w', r = OS_ERROR_TIMEOUT ∧ kernel_only count 0 0 w w' ∧ calm L (kern w')) w
}.
Context `{!WaitTimesOut}.

Abbreviation holds' := (holds (calm := calm) (count := count)).

(** [net_recv] of a client that is asked for [max] bytes: from the mailbox, or none after a while. *)
Definition mailbox_recv (max : Z) (m : mailbox) : list Z * mailbox :=
  if 0 <? announced m then (take (Z.to_nat max) (slot m), Mailbox (announced m - 1) []) else ([], m).

Lemma net_recv_mailbox src sport dport i max t m (w : N) : holds' src sport dport i m w → 0 ≤ max → 0 ≤ announced m →
  t ≠ OS_WAIT_FOREVER →
  wp (mv_recv i max t) (λ r w', let got := (mailbox_recv max m).1 in
    r = (Z.of_nat (length got), got) ∧ holds' src sport dport i (mailbox_recv max m).2 w') w.
Proof.
  intros Hh Hmax Hann Ht. unfold mailbox_recv. cbn [mv_recv mqtt_over_net]. rewrite wp_bind.
  pose proof Hh as [Hc Hcnt (s & Hpeer & Hbuf & Hlen & Htake)].
  pose proof (peer_connected _ _ _ _ _ _ Hpeer) as Hs. destruct (Z.ltb_spec 0 (announced m)).
  - eapply wp_mono; [by eapply net_recv_holds|]. intros [n b] w' (E & Egot & Hw'). cbn [fst snd] in *.
    rewrite wp_ret, E, Nat2Z.id, Egot. done.
  - destruct Hs as (Hsi & Hu & Hty & Hst). unfold net_recv. rewrite wp_bind. eapply valid_socket_ok; [done|done|].
    rewrite !bool_decide_eq_true_2 by done. cbn [negb]. rewrite wp_bind.
    eapply wp_mono; [apply (wt_wait (rx_sem i) t []); [apply rx_sem_ok, Hsi|done|lia|done]|].
    intros r w' (-> & Hk & Hck). rewrite bool_decide_eq_false_2 by done. cbn [negb]. rewrite !wp_ret. cbn [fst snd].
    split; [done|]. apply (kernel_only_same (count := count)) in Hk as (k & -> & Hk). split; [done| |].
    + cbn. rewrite (Hk (rx_sem i)) by apply rx_sem_ok, Hsi. done.
    + by exists s.
Qed.

(** The connection of the client has received nothing but what is in the mailbox [m]. *)
Definition client_on (src : ipv4_addr_t) (sport dport : Z) (m : mailbox) (w : mqtt_world N) : Prop :=
  holds' src sport dport (socket (client w)) m (outside w) ∧ 0 ≤ announced m.

Lemma recv1_mailbox src sport dport t m w : client_on src sport dport m w → t ≠ OS_WAIT_FOREVER →
  wp (recv1 t) (λ r w', let got := (mailbox_recv 1 m).1 in r = (Z.of_nat (length got), got) ∧ client w' = client w ∧
    client_on src sport dport (mailbox_recv 1 m).2 w') w.
Proof.
  intros [Hh Hann] Ht. unfold recv1. rewrite wp_bind, wp_gets, wp_sys.
  eapply wp_mono; [apply (net_recv_mailbox src sport dport); [exact Hh|lia|done|done]|].
  intros r e [-> He]. split; [done|]. split; [done|]. split; [exact He|].
  unfold mailbox_recv. destruct (Z.ltb_spec 0 (announced m)); cbn; lia.
Qed.

End mqtt_net.

(** * Example *)
#[export] Instance host_times_out D : WaitTimesOut (K := host_kernel) (D := D) (calm := hk_calm) (count := hk_count).
Proof.
  split. intros s t L w Hs Hc Hn Ht. cbn [nv_semaphore_wait host_services]. rewrite wp_bind, wp_gets, Hn.
  change (0 <? 0) with false. cbv iota. rewrite wp_ret. split; [done|]. split; [|done].
  exists (kern w). split; [by destruct w|]. intros s' _. case_bool_decide; lia.
Qed.

(** A client whose broker has accepted the connection with a CONNACK packet in one segment. *)
Definition accepted : net_world host_kernel loopback_t :=
  server_b <| kern ::= hk_add (rx_sem 0) 1 |> <| sockets ::= <[O := filled [32; 2; 0; 0] stream_b]> |>.
Lemma accepted_holds : holds (calm := hk_calm) (count := hk_count) ip_a 4000 80 0 (Mailbox 1 [32; 2; 0; 0]) accepted.
Proof.
  split; [done|done|]. exists (filled [32; 2; 0; 0] stream_b). split_and!; [|done..].
  split; [unfold NET_MAX_SOCKETS; lia|]. split; [vm_compute; reflexivity|done].
Qed.

