(* ===== verification/MqttMachine.v ===== *)
(** MqttMachine: the MQTT client as a state machine.

    What an application sees of the client is whether it is connected and which topics it is
    subscribed to. [machine_step] says how the functions of the client change that and what they may
    return; the theorem says that the client does nothing else, whatever the application calls in
    whatever order and whatever the broker sends. *)
From Stdlib Require Import ZArith Lia.
From stdpp Require Import base numbers list gmap.
From S2P Require Import Prelude Types Bytes Net NetTheorems Mqtt MqttTheorems MqttReceive MqttSession MqttHost.

(** * The machine *)

(** The table of subscriptions: the topic as stored and the quality of service, or a free entry. *)
Abbreviation entry := (option (list Z * mqtt_qos_t)).
Record machine := Machine { online : bool; table : list entry }.

Inductive mqtt_call :=
| Connect
| Disconnect
| Publish (topic payload : list Z) (qos : mqtt_qos_t) (retained : bool)
| Subscribe (topic : list Z) (qos : mqtt_qos_t)
| Unsubscribe (topic : list Z)
| Loop.

Definition entry_for (topic : list Z) (e : entry) : bool :=
  match e with Some (t, _) => same_topic t topic | None => false end.
(** The first entry for the topic is freed. *)
Definition remove_topic (topic : list Z) (l : list entry) : list entry :=
  match list_find (entry_for topic) l with Some (i, _) => <[i := None]> l | None => l end.

Inductive machine_step : mqtt_call → machine → mqtt_error_t → machine → Prop :=
| step_connect l : machine_step Connect (Machine false l) MQTT_OK (Machine true l)
| step_connect_fails l r : r ≠ MQTT_OK → machine_step Connect (Machine false l) r (Machine false l)
| step_connected l : machine_step Connect (Machine true l) MQTT_ERROR_ALREADY_CONNECTED (Machine true l)
| step_not_connected call l : call ≠ Connect → machine_step call (Machine false l) MQTT_ERROR_NOT_CONNECTED (Machine false l)
| step_disconnect l : machine_step Disconnect (Machine true l) MQTT_OK (Machine false l)
| step_publish topic payload qos retained l :
    machine_step (Publish topic payload qos retained) (Machine true l) MQTT_OK (Machine true l)
| step_subscribe topic qos l i : list_find (λ e, e = None) l = Some (i, None) →
    machine_step (Subscribe topic qos) (Machine true l) MQTT_OK (Machine true (<[i := Some (stored_topic topic, qos)]> l))
| step_table_full topic qos l : list_find (λ e, e = None) l = None →
    machine_step (Subscribe topic qos) (Machine true l) MQTT_ERROR_NO_MEMORY (Machine true l)
| step_unsubscribe topic l :
    machine_step (Unsubscribe topic) (Machine true l) MQTT_OK (Machine true (remove_topic topic l))
| step_loop l r : machine_step Loop (Machine true l) r (Machine true l).

Inductive machine_run : list mqtt_call → machine → list mqtt_error_t → machine → Prop :=
| run_nil m : machine_run [] m [] m
| run_cons call calls m r m1 rs m' : machine_step call m r m1 → machine_run calls m1 rs m' →
    machine_run (call :: calls) m (r :: rs) m'.

(** * The client *)
Definition view (s : mqtt_subscription_t) : entry := if sub_active s then Some (sub_topic s, sub_qos s) else None.
(** The arguments fit the buffers. *)
Definition call_ok (call : mqtt_call) : Prop :=
  match call with
  | Publish topic payload qos retained => Z.of_nat (length (publish_packet topic payload qos retained 0)) ≤ MQTT_MAX_PACKET_SIZE
  | Subscribe topic _ | Unsubscribe topic => (length topic < 128)%nat
  | _ => True
  end.

Lemma find_free l : list_find (λ e, e = None) (view <$> l) = prod_map id view <$> list_find (λ s, sub_active s = false) l.
Proof.
  rewrite list_find_fmap. f_equal. apply list_find_ext. intros s. unfold view. cbn. by destruct (sub_active s).
Qed.
Lemma find_topic topic l : list_find (entry_for topic) (view <$> l) =
  prod_map id view <$> list_find (λ s, sub_active s && same_topic (sub_topic s) topic) l.
Proof.
  rewrite list_find_fmap. f_equal. apply list_find_ext. intros s. unfold view, entry_for. cbn. by destruct (sub_active s).
Qed.

Section machine.
Context {E : Type} `{!MqttServices E} {held : bool → E → Prop} {inp : E → list Z} {out : E → list (list Z)}.
Context `{!MqttLaws held inp out}.
Abbreviation W := (mqtt_world E).
Implicit Types w : W.
Context (call_message : Z → mqtt_message_t → Z → M W unit) (call_connection : Z → bool → Z → M W unit).
(** The callbacks leave the client alone; the connection callback is called with the mutex held. *)
Hypothesis message_calm : ∀ f m d w, held false (outside w) →
  wp (call_message f m d) (λ _ w', client w' = client w ∧ held false (outside w')) w.
Hypothesis connection_calm : ∀ f b d w, held true (outside w) →
  wp (call_connection f b d) (λ _ w', client w' = client w ∧ held true (outside w') ∧ out (outside w') = out (outside w)) w.

Definition exec (call : mqtt_call) : M W mqtt_error_t :=
  match call with
  | Connect => mqtt_connect call_connection true
  | Disconnect => mqtt_disconnect call_connection true
  | Publish topic payload qos retained =>
      mqtt_publish true (Some topic) (Some payload) (Z.of_nat (length payload)) qos retained
  | Subscribe topic qos => mqtt_subscribe true (Some topic) qos
  | Unsubscribe topic => mqtt_unsubscribe true (Some topic)
  | Loop => mqtt_loop call_message true
  end.
Fixpoint exec_all (calls : list mqtt_call) : M W (list mqtt_error_t) :=
  match calls with
  | [] => ret []
  | call :: calls =>
      let! r := exec call in
      let! rs := exec_all calls in
      ret (r :: rs)
  end.

(** Between two calls the client is in the state [m]. *)
Record shows (m : machine) w : Prop := {
  sh_inv : client_inv (client w);
  sh_free : held false (outside w);
  sh_config : config_ok 1024 (config (client w));
  sh_state : mq_state (client w) = if online m then MQTT_STATE_CONNECTED else MQTT_STATE_DISCONNECTED;
  sh_table : view <$> subscriptions (client w) = table m
}.

(** A call on a client that is not connected has no effect. *)
Lemma offline_ok topic (f : list Z → M W mqtt_error_t) l w : shows (Machine false l) w →
  wp (when_connected true (Some topic) f) (λ r w', r = MQTT_ERROR_NOT_CONNECTED ∧ shows (Machine false l) w') w.
Proof.
  intros [Hi Hh Hc Hs Ht]. unfold when_connected. rewrite wp_bind, wp_sys. eapply wp_mono; [by apply ml_lock|].
  intros [] e1 (Hh1 & _). rewrite wp_bind, wp_gets. destruct w as [e0 c0]. cbn in Hs |- *. rewrite Hs. cbn [bool_decide].
  rewrite bool_decide_eq_false_2 by done. cbn [negb]. rewrite wp_bind, wp_sys. eapply wp_mono; [by apply ml_unlock|].
  intros [] e2 (Hh2 & _). by rewrite wp_ret.
Qed.

Lemma connect_step m w : shows m w →
  wp (exec Connect) (λ r w', ∃ m', machine_step Connect m r m' ∧ shows m' w') w.
Proof.
  intros Hw. pose proof Hw as [Hi Hh Hc Hs Ht]. destruct m as [[] l]; cbn [online table] in *.
  - cbn [exec]. unfold mqtt_connect. cbn [negb]. rewrite wp_bind, wp_sys. eapply wp_mono; [by apply ml_lock|].
    intros [] e1 (Hh1 & _). rewrite wp_bind, wp_gets. destruct w as [e0 c0]. cbn in Hs |- *. rewrite Hs, bool_decide_eq_false_2 by done.
    cbn [negb]. rewrite wp_bind, wp_sys. eapply wp_mono; [by apply ml_unlock|]. intros [] e2 (Hh2 & _). rewrite wp_ret.
    eexists. split; [apply step_connected|]. by split.
  - eapply wp_mono; [apply connect_ok; [|done..]; intros f d w0; apply connection_calm|].
    intros r w' [_ (Hh' & Hi' & Ec & Es & Hr)]. case_bool_decide as Er.
    + exists (Machine true l). split; [subst r; apply step_connect|]. destruct Hr as (Hst & _). split; cbn; try done; congruence.
    + exists (Machine false l). split; [by apply step_connect_fails|]. split; cbn; try done; congruence.
Qed.

Lemma disconnect_step m w : shows m w →
  wp (exec Disconnect) (λ r w', ∃ m', machine_step Disconnect m r m' ∧ shows m' w') w.
Proof.
  intros [Hi Hh Hc Hs Ht]. cbn [exec]. unfold mqtt_disconnect. cbn [negb]. rewrite wp_bind, wp_sys. eapply wp_mono; [by apply ml_lock|].
  intros [] e1 (Hh1 & _). rewrite wp_bind, wp_gets. destruct w as [e0 c0], m as [[] l]; cbn in Hs, Ht |- *; rewrite Hs.
  2: { rewrite bool_decide_eq_false_2 by done. cbn [negb]. rewrite wp_bind, wp_sys. eapply wp_mono; [by apply ml_unlock|].
       intros [] e2 (Hh2 & _). rewrite wp_ret. eexists. split; [by apply step_not_connected|]. by split. }
  rewrite bool_decide_eq_true_2 by done. cbn [negb]. unfold upd. rewrite wp_bind, wp_modify, wp_bind, wp_modify, wp_bind.
  unfold mqtt_send_disconnect, mqtt_send_packet. rewrite wp_bind, wp_gets. cbn -[bool_decide].
  rewrite !bool_decide_eq_false_2 by done. cbn [negb andb]. rewrite wp_ret, wp_bind, wp_sys.
  eapply wp_mono; [by apply (ml_close true)|]. intros [] e2 Hh2. rewrite wp_bind, wp_modify, wp_bind. unfold notify.
  rewrite wp_bind, wp_gets, wp_when.
  assert (∀ w', client w' = c0 <| mq_state := MQTT_STATE_DISCONNECTED |> <| task_running := false |> → held true (outside w') →
    wp (sys mv_unlock ;;; ret MQTT_OK) (λ r w', ∃ m', machine_step Disconnect (Machine true l) r m' ∧ shows m' w') w') as Hend.
  { intros [e3 c3] Ec Hh3. cbn in Ec, Hh3. subst c3. rewrite wp_bind, wp_sys. eapply wp_mono; [by apply ml_unlock|].
    intros [] e4 (Hh4 & _). rewrite wp_ret. exists (Machine false l). split; [apply step_disconnect|]. by split. }
  destruct (negb _); [|by apply Hend; [destruct c0|]]. eapply wp_mono; [by apply connection_calm|].
  intros [] w' (Ec & Hh' & _). apply Hend; [|done]. rewrite Ec. by destruct c0.
Qed.

Lemma publish_step topic payload qos retained m w : shows m w → call_ok (Publish topic payload qos retained) →
  wp (exec (Publish topic payload qos retained))
    (λ r w', ∃ m', machine_step (Publish topic payload qos retained) m r m' ∧ shows m' w') w.
Proof.
  intros Hw Hok. destruct m as [[] l].
  - destruct Hw as [Hi Hh Hc Hs Ht]. eapply wp_mono; [by apply publish_ok|].
    intros r w' (-> & Hh' & _ & Hs' & Hi' & (_ & Es & Ec & _) & _). eexists. split; [apply step_publish|]. split; cbn in *; congruence.
  - eapply wp_mono; [by apply offline_ok|]. intros r w' [-> Hw']. eexists. by split; [apply step_not_connected|].
Qed.

Lemma subscribe_step topic qos m w : shows m w → (length topic < 128)%nat →
  wp (exec (Subscribe topic qos)) (λ r w', ∃ m', machine_step (Subscribe topic qos) m r m' ∧ shows m' w') w.
Proof.
  intros Hw Hl. destruct m as [[] l].
  2: { eapply wp_mono; [by apply offline_ok|]. intros r w' [-> Hw']. eexists. by split; [apply step_not_connected|]. }
  destruct Hw as [Hi Hh Hc Hs Ht]. cbn [online table exec] in *. pose proof (find_free (subscriptions (client w))) as Hf. rewrite Ht in Hf.
  destruct (list_find (λ s, sub_active s = false) (subscriptions (client w))) as [[i s0]|] eqn:Ef; cbn in Hf.
  - assert (live (held := held) w) as Hlive by by split_and!.
    eapply wp_mono; [by eapply subscribe_ok|]. intros r w' (-> & (Hh' & Hs' & Hi') & Ec & Es & _). eexists. split.
    { apply (step_subscribe topic qos l i). apply list_find_Some in Ef as (_ & Ha & _). rewrite Hf. unfold view. by rewrite Ha. }
    split; cbn; [done|done|congruence|done|]. rewrite Es, list_fmap_insert. cbn. by rewrite Ht.
  - unfold mqtt_subscribe. apply (when_connected_ok (inp := inp) (out := out)); [done|done|]. intros e1 Hh1 _ _.
    rewrite wp_bind, wp_gets. cbn [client]. rewrite Ef, wp_ret. split; [done|]. intros e3 Hh3 _ _.
    eexists. split; [by apply step_table_full|]. by split.
Qed.

Lemma unsubscribe_step topic m w : shows m w → (length topic < 128)%nat →
  wp (exec (Unsubscribe topic)) (λ r w', ∃ m', machine_step (Unsubscribe topic) m r m' ∧ shows m' w') w.
Proof.
  intros Hw Hl. destruct m as [[] l].
  2: { eapply wp_mono; [by apply offline_ok|]. intros r w' [-> Hw']. eexists. by split; [apply step_not_connected|]. }
  destruct Hw as [Hi Hh Hc Hs Ht]. cbn [online table exec] in *. pose proof (find_topic topic (subscriptions (client w))) as Hf.
  rewrite Ht in Hf. assert (live (held := held) w) as Hlive by by split_and!.
  enough (wp (mqtt_unsubscribe true (Some topic)) (λ r w', r = MQTT_OK ∧ live (held := held) w' ∧ config (client w') = config (client w) ∧
    view <$> subscriptions (client w') = remove_topic topic l) w) as H.
  { eapply wp_mono; [exact H|]. intros r w' (-> & (Hh' & Hs' & Hi') & Ec & Es). eexists. split; [apply step_unsubscribe|].
    split; cbn; congruence. }
  unfold remove_topic. rewrite Hf.
  destruct (list_find (λ s, sub_active s && same_topic (sub_topic s) topic) (subscriptions (client w))) as [[i s0]|] eqn:Ef; cbn [fmap option_fmap option_map prod_map fst snd].
  - eapply wp_mono; [by eapply unsubscribe_ok|]. intros r w' (-> & Hlive' & Ec & Es & _). do 3 (split; [done|]).
    rewrite Es, list_fmap_insert, Ht. done.
  - unfold mqtt_unsubscribe. apply (when_connected_ok (inp := inp) (out := out)); [done|done|]. intros e1 Hh1 _ _.
    rewrite wp_bind, wp_gets. cbn [client]. rewrite Ef, wp_bind, wp_ret.
    eapply wp_mono; [by apply send_unsubscribe_ok|]. intros r w2 (-> & Hh2 & (Est & Esub & Ecfg & Hi2) & _). cbn [client] in *.
    split; [done|]. intros e3 Hh3 _ _. split; [done|]. split; [split; [done|]; split; [exact (eq_trans Est Hs)|by apply Hi2]|].
    split; [exact Ecfg|]. cbn. by rewrite Esub.
Qed.

Lemma loop_step m w : shows m w → wp (exec Loop) (λ r w', ∃ m', machine_step Loop m r m' ∧ shows m' w') w.
Proof.
  intros Hw. pose proof Hw as [Hi Hh Hc Hs Ht]. destruct m as [[] l]; cbn [exec online table] in *.
  - eapply wp_mono; [apply (loop_safe (held := held) (inp := inp) (out := out) call_message
      (λ st subs cfg, st = MQTT_STATE_CONNECTED ∧ subs = subscriptions (client w) ∧ cfg = config (client w)))|].
    + intros f ms d w0 (Hi0 & Hh0 & HP). eapply wp_mono; [by apply message_calm|]. intros [] w1 [Ec Hh1]. unfold task_inv. by rewrite Ec.
    + by split_and!.
    + intros r w' (Hi' & Hh' & Hs' & Es & Ec). eexists. split; [apply step_loop|]. split; cbn; congruence.
  - unfold mqtt_loop. rewrite wp_bind, wp_gets, Hs, bool_decide_eq_false_2 by done. cbn [negb orb]. rewrite wp_ret.
    eexists. by split; [apply step_not_connected|].
Qed.

Lemma exec_step call m w : shows m w → call_ok call → wp (exec call) (λ r w', ∃ m', machine_step call m r m' ∧ shows m' w') w.
Proof.
  intros Hw Hok. destruct call; [by apply connect_step|by apply disconnect_step|by apply publish_step|by apply subscribe_step|
    by apply unsubscribe_step|by apply loop_step].
Qed.

(** [mqtt_client_init] leaves a client that is offline, with a free table. *)
Definition new_machine : machine := Machine false (replicate 16 None).
Lemma defaults_ok n cfg port timeout : config_ok n cfg →
  config_ok n (cfg <| broker_port := port |> <| keepalive_sec ::= λ v, or_default v MQTT_DEFAULT_KEEPALIVE |> <| timeout_ms := timeout |>).
Proof.
  intros (Hk & Hw & Hl & Hb). destruct cfg. unfold config_ok, connect_body in *. cbn -[be16 text length] in *.
  split; [unfold or_default, MQTT_DEFAULT_KEEPALIVE; destruct (_ =? 0); lia|]. do 2 (split; [done|]).
  rewrite !length_app in *. exact Hb.
Qed.
Lemma init_shows cfg w : config_ok 1024 cfg → wp (mqtt_client_init true (Some cfg)) (λ r w', r = MQTT_OK ∧ shows new_machine w') w.
Proof.
  intros Hc. unfold mqtt_client_init, upd. repeat rewrite wp_bind, wp_modify. rewrite wp_bind, wp_sys.
  eapply wp_mono; [apply ml_init|]. intros [] e (Hh & _). rewrite wp_ret. split; [done|]. destruct w as [e0 c0].
  split; [by repeat split|done| |done|done].
  apply (defaults_ok _ _ (or_default (broker_port cfg) MQTT_DEFAULT_PORT) (or_default (timeout_ms cfg) MQTT_DEFAULT_TIMEOUT_MS)) in Hc. exact Hc.
Qed.

End machine.

(** * Example *)
Lemma a_config_ok : config_ok 1024 a_config.
Proof. repeat split; vm_compute; first [done|lia]. Qed.
Definition a_session : list mqtt_call :=
  [Loop; Connect; Connect; Subscribe [116] MQTT_QOS_1; Publish [116] [104; 105] MQTT_QOS_0 false; Loop; Unsubscribe [116]; Disconnect;
   Publish [116] [] MQTT_QOS_0 false].
