(* ===== verification/MqttDefects.v ===== *)
(** MqttDefects: where the MQTT client departs from the protocol or from its own documentation. *)
From Stdlib Require Import ZArith Lia.
From stdpp Require Import base numbers list gmap.
From S2P Require Import Prelude Types Bytes Net NetTheorems Http Mqtt MqttTheorems MqttReceive MqttSession MqttHost.

(** The DISCONNECT packet: [mqtt_disconnect] has already left the state in which packets are sent. *)
Lemma disconnect_not_sent {E} `{!MqttServices E} (w : mqtt_world E) : mq_state (client w) = MQTT_STATE_DISCONNECTING →
  mqtt_send_disconnect w = Ret MQTT_ERROR_NOT_CONNECTED w.
Proof. intros Hs. unfold mqtt_send_disconnect, mqtt_send_packet, bind, gets. by rewrite Hs. Qed.

(** A connection callback that subscribes to a topic, as the one of examples/mqtt_demo.c does. *)
Definition subscribe_when_connected (f : Z) (connected : bool) (d : Z) : M (mqtt_world mqtt_host) unit :=
  when connected (let! _ := mqtt_subscribe true (Some [99]) MQTT_QOS_1 in ret tt).

(** What a run leaves: the result, the packets sent and the messages seen. *)
Definition observe {A} (r : outcome (mqtt_world mqtt_host) A) : option (A * list (list Z) * list (list Z * list Z)) :=
  match r with Ret a w => Some (a, h_out (outside w), h_seen (outside w)) | _ => None end.
Definition subscriber (input : list Z) : mqtt_world mqtt_host := MqttWorld (host_with input) live_client.
Definition two_rounds : M (mqtt_world mqtt_host) (mqtt_error_t * mqtt_error_t) :=
  let! r1 := mqtt_loop note_message true in
  let! r2 := mqtt_loop note_message true in
  ret (r1, r2).

(** Where the client departs from MQTT 3.1.1 or from what it documents, on a host whose network
    works. [mqtt_disconnect] returns [MQTT_OK] and sends no DISCONNECT packet. [mqtt_connect] never
    returns when the connection callback subscribes to a topic, since the callback runs with the
    client's mutex held. A message of quality of service 1 is passed on with its message id in front
    of the payload, and no PUBACK is sent. A PUBLISH packet without a body passes the previous message
    on once more. A payload that does not fit the transmit buffer is stored past its end. A topic
    filter with [+] before another level matches no topic. *)
Theorem mqtt_defects :
  observe (mqtt_disconnect ignore_connection true (subscriber [])) = Some (MQTT_OK, [], []) ∧
  mqtt_connect subscribe_when_connected true
    (MqttWorld (host_with [32; 2; 0; 0]) (new_client <| connection_callback := 9 |>)) = NoFuel ∧
  observe (mqtt_loop note_message true (subscriber (publish_packet [116] [104; 105] MQTT_QOS_1 false 5))) =
    Some (MQTT_OK, [], [([116], [0; 5; 104; 105])]) ∧
  observe (two_rounds (subscriber (publish_packet [116] [104; 105] MQTT_QOS_0 false 0 ++ [48; 0]))) =
    Some ((MQTT_OK, MQTT_OK), [], [([116], [104; 105]); ([116], [104; 105])]) ∧
  mqtt_publish true (Some [116]) (Some (replicate 1100 0)) 1100 MQTT_QOS_0 false (subscriber []) = Undef ∧
  mqtt_topic_matches [43; 47; 98] [97; 47; 98] = false.
Proof. repeat split; vm_compute; reflexivity. Qed.

(** With the [net_dns_resolve] of this network stack, [mqtt_connect] of a client that is not
    connected always fails with [MQTT_ERROR_NETWORK], whatever broker is configured, and leaves the
    client disconnected and the mutex free. *)
Theorem mqtt_never_connects {E} `{!MqttServices E} {held : bool → E → Prop} {inp : E → list Z} {out : E → list (list Z)} `{!MqttLaws held inp out}
    call_connection ip (w : mqtt_world E) :
  (∀ host t, mv_resolve host t = (let! r := net_dns_resolve host (Some ip) t in ret (r.1, default ip r.2))) →
  held false (outside w) → mq_state (client w) = MQTT_STATE_DISCONNECTED →
  wp (mqtt_connect call_connection true) (λ r w', r = MQTT_ERROR_NETWORK ∧ held false (outside w') ∧ mq_state (client w') = MQTT_STATE_DISCONNECTED) w.
Proof.
  intros Hdns Hh Hst. unfold mqtt_connect. cbn [negb]. rewrite wp_bind, wp_sys. eapply wp_mono; [by apply ml_lock|].
  intros [] e1 (Hh1 & _ & _). rewrite wp_bind, wp_gets. destruct w as [e0 c0]. cbn [client outside set_field] in *.
  change (client (MqttWorld e0 c0 <| outside := e1 |>)) with c0. rewrite Hst, bool_decide_eq_true_2 by done. cbn [negb]. unfold upd.
  rewrite wp_bind, wp_modify, wp_bind, wp_sys. eapply wp_mono; [by apply (ml_socket true)|]. intros sock e2 (Hh2 & _ & _).
  rewrite wp_bind, wp_modify. destruct (sock <? 0).
  { rewrite wp_bind, wp_modify, wp_bind, wp_sys. eapply wp_mono; [by apply ml_unlock|]. intros [] e3 (Hh3 & _). by rewrite wp_ret. }
  rewrite wp_bind, wp_sys, Hdns. unfold net_dns_resolve. rewrite wp_bind, wp_ret, wp_ret. cbn [fst].
  rewrite bool_decide_eq_false_2 by done. cbn [negb].
  unfold abandon, upd. rewrite wp_bind, wp_gets, wp_bind, wp_sys. eapply wp_mono; [by apply (ml_close true)|].
  intros [] e3 Hh3. rewrite wp_bind, wp_modify, wp_bind, wp_sys. eapply wp_mono; [by apply ml_unlock|]. intros [] e4 (Hh4 & _).
  by rewrite wp_ret.
Qed.
Lemma mqtt_never_connects_witness :
  let _ := mqtt_host_services (OS_ERROR_NOT_IMPLEMENTED, IPV4 0 0 0 0) in
  wp (mqtt_connect ignore_connection true) (λ r _, r = MQTT_ERROR_NETWORK) (MqttWorld (host_with [32; 2; 0; 0]) new_client).
Proof.
  eapply wp_mono; [apply (mqtt_never_connects (MqttLaws0 := mqtt_host_laws (OS_ERROR_NOT_IMPLEMENTED, IPV4 0 0 0 0)) ignore_connection (IPV4 0 0 0 0)); done|].
  by intros r w' [-> _].
Defined.
